(* ===== verification/_CoqProject ===== *)
-Q . S2P
Prelude.v
Params.v
Bytes.v
CString.v
Spinlock.v
Kernel.v
Print.v
Kalloc.v
Vm.v
Sleep.v
Umem.v
Args.v
Sched.v
SchedSpec.v
Ide.v
Bio.v
Log.v
Fs.v
Pipe.v
File.v
Console.v
Kbd.v
ConsoleSpec.v
Proc.v
Thread.v
Exec.v
Sysfile.v
Syscall.v
Devices.v
IdePorts.v
Memide.v
Bootmain.v
Segments.v
Asm.v
Startup.v
VmSpec.v
UserSpace.v
AddressSpace.v
VmCopy.v
ForkSpec.v
ThreadSpec.v
FsDisk.v
Bmap.v
Dinode.v
Itrunc.v
FileData.v
Dir.v
Path.v
FsSpec.v
Frame.v
Calls.v
KernelInv.v
Rely.v
BufSpec.v
PipeSpec.v
SleepLock.v
WaitSpec.v
JoinSpec.v
BufRing.v
Cache.v
CacheSpec.v
LogSpec.v
Transaction.v
User.v
Ulib.v
Grep.v
UserProgs.v
Demos.v
HostShell.v
Sh.v
ShSyntax.v
ShRun.v
StrideLive.v
Umalloc.v
UmallocSpec.v
Mkfs.v
MkfsView.v
MkfsSpec.v
