(* ===== verification/Prelude.v ===== *)
(** * Verification of hyeonseungOS

    hyeonseungOS is xv6 for the x86 (src/xv6-public) with a multi-level
    feedback queue and stride scheduling, threads inside a process, files with
    triple indirect blocks, and the system calls [pwrite] and [pread].  This
    library translates the C code of the kernel, of the boot loader, of the user
    programs, of mkfs and of the shell for the host (src/proj_shell), and the
    assembly between C functions, into Rocq functions and proves what each part
    promises.

    ** The model

    The global variables of the kernel are the record [kernel] (Kernel.v), with
    one field per variable and one record type per C structure; pointers into a
    table are indices, memory is a map from addresses to bytes, and integers are
    [Z] with the wrap-around of the C types written out ([u32], [s32], [u8] below).
    A C function is a function of the monad [M] (below): from a state it is
    [Done] with a result, [Halt]s (a call of [panic], a fault of the processor, or
    a loop out of fuel), or gives up the processor, [Switch], to go on in
    whatever state it is resumed in.  One processor runs kernel code; another
    process runs only at a [Switch], and an interrupt is a call of [trap] between
    two of them.  Spin-locks are the set [k_held]; acquiring a lock twice and
    releasing one that is not held panic as in the code.  That a spin-lock really
    excludes the other processors is proved apart, on a machine with any number of
    processors whose every access to memory is a step (Spinlock.v).

    A user program is a tree of the system calls it makes (User.v), run against
    any handler that answers them.  The code that programs devices (Devices.v,
    IdePorts.v, Startup.v, Bootmain.v) runs on a state with the list of what the
    devices will answer and the record of every access.  The assembly (Asm.v)
    is lists of instructions with an interpreter on registers and memory.

    Interfaces between the parts are type classes: [Linker] (the end of the
    kernel image), [Fuel] (how often a loop that waits may be woken in vain;
    every theorem is quantified over it), [BlockDev] (what fs.c needs from the
    block layer; Fs.v is written against it, bcache_dev is the buffer cache with
    the log, raw_disk a plain disk), [Devsw] (the device table).

    ** The files

    - Prelude: the monad, specifications ([triple], [inv], [keeps]), machine
      integers, generic lemmas, the hint database [keeps] with its tactics.
    - Params, Bytes, CString: param.h, mmu.h, memlayout.h; little-endian words in
      memory and in blocks; string.c.
    - Kernel: proc.h, file.h, buf.h, x86.h and the global variables; access to
      the tables; spinlock.c on one processor.
    - Print, Console: console.c, output and input.
    - Kalloc, Vm, Umem: kalloc.c, vm.c, and loads and stores of user memory.
    - Sleep: sleep, wakeup, yield, kill of proc.c and sleeplock.c.
    - Sched: MLFQ, stride and the scheduler of proc.c; set_cpu_share.c, getlev.c.
    - Ide, Bio, Log, Fs: ide.c, bio.c, log.c, fs.c.
    - Pipe, File: pipe.c, file.c with pwrite_os and pread_os.
    - Proc, Thread, Exec: the rest of proc.c, exec.c, getppid.c.
    - Args, Sysfile, Syscall: syscall.c, sysfile.c, sysproc.c, prac_syscall.c,
      pwrite.c, pread.c, thread_*.c, trap.c, main.c.

    - Spinlock: spinlock.c and pushcli on several processors.
    - Kbd: kbd.c, kbd.h.  Devices: lapic.c, ioapic.c, picirq.c, mp.c, uart.c.
      IdePorts: the port accesses of ide.c.  Memide: memide.c.
    - Segments: the descriptors of mmu.h, seginit, tvinit.  Startup: main.c with
      the other processors.  Bootmain: bootmain.c.  Asm: swtch.S, trapasm.S,
      vectors.pl, usys.S, initcode.S, and the stack allocproc prepares.
    - User, Ulib, Umalloc: user.h, ulib.c and printf.c, umalloc.c.
    - Sh, ShRun, Grep, UserProgs, Demos: sh.c, grep.c, the other user programs
      and the smaller tests.  HostShell: shell.c of src/proj_shell.
    - Mkfs: mkfs.c.

    The proofs about a part are in the same file or in the files named below.

    ** What the theorems show

    - Scheduling (Sched, SchedSpec, KernelInv): the feedback queue is never used,
      since MLFQ_in refuses an empty level; on a level that has processes its
      operations implement a queue; stride scheduling picks the least path and
      gives each client its share up to one step while no path leaves the int
      range; the accounting of shares for every int, overflow included; a
      share that is not positive stops the kernel; every index into the
      scheduling tables is in bounds, whatever system calls and interrupts do
      (Frame and Calls carry an invariant through all the kernel's code);
      every client of the stride scheduler is served in bounded time (StrideLive).
    - Concurrency: spin-locks exclude on any number of processors (Spinlock);
      under every interleaving, sleep-locks exclude, are always released and lose
      no wake-up (SleepLock), and a pipe is a queue, also while its ends are
      closed and its users killed (PipeSpec).  In both the spin-locks held are
      carried from turn to turn, so that one that is not given back shows.
    - Processes and threads: fork copies the process, or panics in copyuvm when a
      page below its size is missing (VmCopy, ForkSpec); wait
      takes a zombie out and gives back its pages (WaitSpec); thread_create
      starts a thread on a stack of its own in the maker's memory, or panics when
      the place of the stack is mapped (ThreadSpec),
      thread_join hands over its value and frees it (JoinSpec); a context switch
      comes back, and a trap saves and restores the whole program (Asm).
    - Devices: the console is a line editor (ConsoleSpec), the keyboard tracks
      modifiers and locks (Kbd), the port accesses of the disk driver, against a
      drive with its registers, count, address mode and interrupt, move the block
      that Ide.v says (IdePorts).
    - Memory (Kalloc, VmSpec, UserSpace, AddressSpace): the allocator implements
      a list of free pages, and start-up puts every page on it; mapping,
      growing, shrinking and freeing address spaces do what they should on every
      branch, running out of memory included; copyout writes what the user sees.
    - Disk and log (Rely, BufSpec, BufRing, Cache, CacheSpec, LogSpec,
      Transaction), for one process at a time that sleeps at each transfer until
      the disk interrupt: the buffer cache refines an array of blocks; a
      transaction reaches the disk as a whole or not at all, whenever the machine
      stops; start-up recovers the disk from the log.
    - File system (FsDisk, Bmap, Dinode, Itrunc, FileData, Dir, Path, FsSpec), on
      a plain disk: block allocation, the block map with up to three levels of
      tables, truncation, reading and writing file contents, directories, paths.
      The image that mkfs builds satisfies the same invariant and holds the files
      it was given (MkfsView, MkfsSpec).
    - User programs: malloc gives separate arrays, and 0 only when the kernel
      refuses memory (UmallocSpec); grep matches as
      its patterns mean and prints the right lines (Grep); the shell's parser
      terminates on every line and reads back what is printed (Sh, ShSyntax), and
      its words are cut correctly and runcmd never returns (ShRun); the numbers printf prints atoi
      reads (Ulib), wc counts (UserProgs), forktest accepts a right kernel
      (Demos).

    ** Bounds

    Recursion on fuel appears where the C loop has no bound of its own.  Loops
    over a range get as many turns as the range has elements plus one, and the
    theorems show that they finish.  Loops that wait ([while(cond) sleep(...)])
    get the fuel of the class [Fuel]; theorems about them say what happens until
    they sleep and that they look again afterwards, for every fuel.  The outer
    loop of [scheduler], the loop of init and the reading loops of user programs
    are endless in the code and run for a given number of rounds here.

    ** Not modelled

    - bootasm.S, entry.S and entryother.S switch the processor's mode before any C
      code runs; nothing else refers to the modes.
    - Several processors in the rest of the kernel's code: the tables are used
      under spin-locks, of which the other files keep the rules on one processor.
      The actions of the processors that startothers starts are not in its state.
    - The effects of the interrupt controllers and the serial line beyond the
      record of the accesses.
    - usertests.c, threadtest.c, pwritetest.c and test.c exercise the system calls
      in sequence; the threads of the last three share variables, which a tree of
      system calls per process does not have.
    - defs.h and the declarations of the other headers, which hold no behaviour;
      the build files. *)

From Stdlib Require Export ZArith Lia.
From stdpp Require Export base numbers strings gmap list.

Declare Scope kernel_scope.
Delimit Scope kernel_scope with kernel.
#[global] Open Scope Z_scope.
#[global] Open Scope kernel_scope.

(** ** Record update

    [r <| f := v |>] is the record [r] with field [f] replaced by [v], and
    [r <| f ::= g |>] replaces the field by [g] of its old value.  A record
    type opts in with an [Eta] instance that rebuilds a value field by field. *)

Class Eta (R : Type) := eta : R -> R.

Class Upd {R T : Type} (proj : R -> T) := upd : (T -> T) -> R -> R.
#[global] Arguments upd {R T} proj {_} f r : simpl nomatch.

Ltac solve_upd :=
  match goal with
  | |- @Upd ?R ?T ?proj =>
      unfold Upd; let f := fresh "f" in let r := fresh "r" in intros f r;
      let body := eval hnf in (@eta R _ r) in
      let b := eval pattern (proj r) in body in
      match b with
      | ?F _ => let t := eval cbv beta in (F (f (proj r))) in exact t
      end
  end.

#[export] Hint Extern 1 (Upd _) => solve_upd : typeclass_instances.

Notation "r <| f := v |>" := (upd f (fun _ => v) r)
  (at level 12, left associativity, f at level 11, v at level 60) : kernel_scope.
Notation "r <| f ::= g |>" := (upd f g r)
  (at level 12, left associativity, f at level 11, g at level 60) : kernel_scope.

(** ** Outcomes and the kernel monad

    A C function of the kernel is a function from a state to an [outcome]: it
    returns ([Done]), it stops the machine ([Halt]: a call of [panic], a fault
    such as a null dereference or a division by zero, or a loop that ran out
    of the fuel given to it), or it gives up the processor inside [sched] or
    [swtch] ([Switch]) and goes on from the state in which it is resumed. *)

Inductive stop : Type :=
| Panic (msg : string)
| Fault (why : string)
| NoFuel.

Inductive outcome (S A : Type) : Type :=
| Done (a : A) (s : S)
| Halt (r : stop)
| Switch (s : S) (k : S -> outcome S A).

#[global] Arguments Done {S A} a s.
#[global] Arguments Halt {S A} r.
#[global] Arguments Switch {S A} s k.

Definition M (S A : Type) : Type := S -> outcome S A.

Fixpoint obind {S A B : Type} (o : outcome S A) (f : A -> M S B) : outcome S B :=
  match o with
  | Done a s => f a s
  | Halt r => Halt r
  | Switch s k => Switch s (fun s' => obind (k s') f)
  end.

#[export] Instance M_ret (S : Type) : MRet (M S) := fun A a s => Done a s.
#[export] Instance M_bind (S : Type) : MBind (M S) := fun A B f m s => obind (m s) f.

Section Primitives.
Context {S : Type}.

Definition get : M S S := fun s => Done s s.
Definition gets {A : Type} (f : S -> A) : M S A := fun s => Done (f s) s.
Definition modify (f : S -> S) : M S unit := fun s => Done tt (f s).
Definition halt {A : Type} (r : stop) : M S A := fun _ => Halt r.
Definition panic {A : Type} (msg : string) : M S A := halt (Panic msg).
Definition fault {A : Type} (why : string) : M S A := halt (Fault why).
Definition switch : M S unit := fun s => Switch s (fun s' => Done tt s').
Definition when (b : bool) (m : M S unit) : M S unit := if b then m else mret tt.

(** [deref o] reads through a pointer that may be null. *)
Definition deref {A : Type} (o : option A) : M S A :=
  match o with Some a => mret a | None => fault "null pointer" end.

(** [for_each n i body] is [for(; n > 0; n--, i++) body(i)], and [for_loop]
    the same loop with an accumulator and an early return ([inr]). *)
Fixpoint for_each (n i : nat) (body : nat -> M S unit) : M S unit :=
  match n with
  | O => mret tt
  | Datatypes.S n' => body i ;; for_each n' (Datatypes.S i) body
  end.

Fixpoint for_loop {A B : Type} (n i : nat) (body : nat -> A -> M S (A + B)) (a : A)
  : M S (A + B) :=
  match n with
  | O => mret (inl a)
  | Datatypes.S n' =>
      r ← body i a;
      match r with
      | inl a' => for_loop n' (Datatypes.S i) body a'
      | inr b => mret (inr b)
      end
  end.

(** [while_loop n body a]: a loop that goes on with [inl] and leaves with
    [inr]; running out of fuel is an outcome of its own. *)
Fixpoint while_loop {A B : Type} (n : nat) (body : A -> M S (A + B)) (a : A) : M S B :=
  match n with
  | O => halt NoFuel
  | Datatypes.S n' =>
      r ← body a;
      match r with inl a' => while_loop n' body a' | inr b => mret b end
  end.

(** [for_lt n i bound body] is [for(; i < bound(); i++) body(i)] where the
    bound is read again at each turn, for at most [n] turns. *)
Fixpoint for_lt (n : nat) (i : Z) (bound : S -> Z) (body : Z -> M S unit) : M S unit :=
  match n with
  | O => halt NoFuel
  | Datatypes.S n' =>
      b ← gets bound;
      if i <? b then body i ;; for_lt n' (i + 1) bound body else mret tt
  end.

End Primitives.

(** Loops that wait for another process ([while(cond) sleep(...)]) have no
    bound in the code.  They get one here, the number of times the process
    may be woken in vain, which every theorem is quantified over. *)
Class Fuel := Build_Fuel { fuel_pred : nat }.
Definition fuel {F : Fuel} : nat := S fuel_pred.

#[global] Arguments M_ret S {A} a s /.
#[global] Arguments get {S} s /.
#[global] Arguments gets {S A} f s /.
#[global] Arguments modify {S} f s /.
#[global] Arguments halt {S A} r s /.
#[global] Arguments panic {S A} msg s /.
#[global] Arguments fault {S A} why s /.
#[global] Arguments switch {S} s /.

Lemma bind_Done {S A B : Type} (m : M S A) (f : A -> M S B) (s s' : S) (a : A) :
  m s = Done a s' -> (m ≫= f) s = f a s'.
Proof. intros H. unfold mbind, M_bind. rewrite H. reflexivity. Qed.

Lemma bind_Done_trans {S A B : Type} (m : M S A) (f : A -> M S B) (s t s' : S) (a : A) (b : B) :
  m s = Done a t -> f a t = Done b s' -> (m ≫= f) s = Done b s'.
Proof. intros H1 H2. rewrite (bind_Done m f s t a H1). exact H2. Qed.

Lemma bind_Halt {S A B : Type} (m : M S A) (f : A -> M S B) (s : S) (r : stop) :
  m s = Halt r -> (m ≫= f) s = Halt r.
Proof. intros H. unfold mbind, M_bind. rewrite H. reflexivity. Qed.

(** The ways a [Done] of a sequence comes about. *)
Lemma bind_Done_inv {S A B : Type} (m : M S A) (f : A -> M S B) (s s' : S) (b : B) :
  (m ≫= f) s = Done b s' -> exists a t, m s = Done a t /\ f a t = Done b s'.
Proof.
  unfold mbind, M_bind. destruct (m s) as [a t| |]; simpl; intros H; try discriminate.
  eauto.
Qed.

(** ** Specifications

    [sat E G o Q]: every way [o] can go on meets [Q] at its return; when it
    gives up the processor the state satisfies [G], and it is resumed in a
    state satisfying [G]; when it stops, the reason satisfies [E]. *)

Section Specs.
Context {S : Type} (E : stop -> Prop) (G : S -> Prop).

Fixpoint sat {A : Type} (o : outcome S A) (Q : A -> S -> Prop) : Prop :=
  match o with
  | Done a s => Q a s
  | Halt r => E r
  | Switch s k => G s /\ forall s', G s' -> sat (k s') Q
  end.

Definition triple {A : Type} (P : S -> Prop) (m : M S A) (Q : A -> S -> Prop) : Prop :=
  forall s, P s -> sat (m s) Q.

Lemma sat_mono {A : Type} (o : outcome S A) (Q Q' : A -> S -> Prop) :
  (forall a s, Q a s -> Q' a s) -> sat o Q -> sat o Q'.
Proof.
  intros HQ. induction o as [a s|r|s k IH]; simpl; [auto|auto|].
  intros [Hs Hk]. split; [exact Hs|]. intros s' Hs'. apply IH, Hk, Hs'.
Qed.

Lemma sat_obind {A B : Type} (o : outcome S A) (f : A -> M S B) (Q : B -> S -> Prop) :
  sat o (fun a s => sat (f a s) Q) -> sat (obind o f) Q.
Proof.
  induction o as [a s|r|s k IH]; simpl; [auto|auto|].
  intros [Hs Hk]. split; [exact Hs|]. intros s' Hs'. apply IH, Hk, Hs'.
Qed.

Lemma triple_bind {A B : Type} (P : S -> Prop) (R : A -> S -> Prop) (Q : B -> S -> Prop)
    (m : M S A) (f : A -> M S B) :
  triple P m R -> (forall a, triple (R a) (f a) Q) -> triple P (m ≫= f) Q.
Proof.
  intros Hm Hf s Hs. apply sat_obind. eapply sat_mono; [|apply Hm, Hs].
  intros a t Ha. apply Hf, Ha.
Qed.

Lemma triple_conseq {A : Type} (P P' : S -> Prop) (Q Q' : A -> S -> Prop) (m : M S A) :
  (forall s, P s -> P' s) -> (forall a s, Q' a s -> Q a s) -> triple P' m Q' -> triple P m Q.
Proof. intros HP HQ Hm s Hs. eapply sat_mono; [exact HQ|]. apply Hm, HP, Hs. Qed.

Lemma triple_ret {A : Type} (a : A) (Q : A -> S -> Prop) : triple (Q a) (mret a) Q.
Proof. intros s Hs. exact Hs. Qed.

Lemma triple_for_each (I : S -> Prop) (body : nat -> M S unit) (n i : nat) :
  (forall j, triple I (body j) (fun _ => I)) -> triple I (for_each n i body) (fun _ => I).
Proof.
  intros Hb. revert i. induction n as [|n IH]; intros i; simpl.
  - apply (triple_ret tt (fun _ => I)).
  - apply (triple_bind I (fun _ => I)); [apply Hb|]. intros ?. apply IH.
Qed.

Lemma triple_for_loop {A B : Type} (I : S -> Prop) (body : nat -> A -> M S (A + B)) (n i : nat) (a : A) :
  (forall j x, triple I (body j x) (fun _ => I)) -> triple I (for_loop n i body a) (fun _ => I).
Proof.
  intros Hb. revert i a. induction n as [|n IH]; intros i a; simpl.
  - intros s Hs. exact Hs.
  - apply (triple_bind I (fun _ => I)); [apply Hb|].
    intros [a'|b]; [apply IH|]. intros s Hs. exact Hs.
Qed.

End Specs.

(** [inv G I m]: [m] preserves the invariant [I], whatever stops it, and the
    state satisfies [G] at its switches.  [keeps I m]: [I] holds at the switches
    too.  [quiet I m]: [m] has no switches. *)
Definition inv {S A : Type} (G I : S -> Prop) (m : M S A) : Prop :=
  triple (fun _ => True) G I m (fun _ => I).

Abbreviation keeps I := (inv I I).
Abbreviation quiet I := (inv (fun _ => False) I).

Create HintDb keeps discriminated.
#[export] Hint Constants Opaque : keeps.

Section Keeps.
Context {S : Type} (G I : S -> Prop).

Lemma keeps_bind {A B : Type} (m : M S A) (f : A -> M S B) :
  inv G I m -> (forall a, inv G I (f a)) -> inv G I (m ≫= f).
Proof. intros Hm Hf. eapply triple_bind; [exact Hm|exact Hf]. Qed.

Lemma keeps_ret {A : Type} (a : A) : inv G I (mret a).
Proof. intros s Hs. exact Hs. Qed.

Lemma keeps_gets {A : Type} (f : S -> A) : inv G I (gets f).
Proof. intros s Hs. exact Hs. Qed.

Lemma keeps_get : inv G I get.
Proof. intros s Hs. exact Hs. Qed.

Lemma keeps_halt {A : Type} (r : stop) : inv G I (halt (A:=A) r).
Proof. intros s Hs. exact Logic.I. Qed.

Lemma keeps_panic {A : Type} (msg : string) : inv G I (panic (A:=A) msg).
Proof. apply keeps_halt. Qed.

Lemma keeps_fault {A : Type} (why : string) : inv G I (fault (A:=A) why).
Proof. apply keeps_halt. Qed.

Lemma keeps_modify (f : S -> S) : (forall s, I s -> I (f s)) -> inv G I (modify f).
Proof. intros H s Hs. apply H, Hs. Qed.

Lemma keeps_switch : keeps I switch.
Proof. intros s Hs. simpl. auto. Qed.

Lemma keeps_when (b : bool) (m : M S unit) : inv G I m -> inv G I (when b m).
Proof. intros H. destruct b; [exact H|apply keeps_ret]. Qed.

Lemma keeps_deref {A : Type} (o : option A) : inv G I (deref o).
Proof. destruct o; [apply keeps_ret|apply keeps_fault]. Qed.

Lemma keeps_for_each (n i : nat) (body : nat -> M S unit) :
  (forall j, inv G I (body j)) -> inv G I (for_each n i body).
Proof. intros H. apply triple_for_each. exact H. Qed.

Lemma keeps_for_loop {A B : Type} (n i : nat) (body : nat -> A -> M S (A + B)) (a : A) :
  (forall j x, inv G I (body j x)) -> inv G I (for_loop n i body a).
Proof. intros H. apply triple_for_loop. exact H. Qed.

Lemma keeps_while {A B : Type} (n : nat) (body : A -> M S (A + B)) (a : A) :
  (forall x, inv G I (body x)) -> inv G I (while_loop n body a).
Proof.
  intros Hb. revert a. induction n as [|n IH]; intros a; simpl; [apply keeps_halt|].
  apply keeps_bind; [apply Hb|]. intros [a'|b]; [apply IH|apply keeps_ret].
Qed.

Lemma keeps_for_lt (n : nat) (i : Z) (bound : S -> Z) (body : Z -> M S unit) :
  (forall j, inv G I (body j)) -> inv G I (for_lt n i bound body).
Proof.
  intros Hb. revert i. induction n as [|n IH]; intros i; simpl; [apply keeps_halt|].
  apply keeps_bind; [apply keeps_gets|]. intros b. destruct (i <? b); [|apply keeps_ret].
  apply keeps_bind; [apply Hb|]. intros ?. apply IH.
Qed.

(** What never switches may be used under any condition on the switches. *)
Lemma quiet_inv {A : Type} (m : M S A) : quiet I m -> inv G I m.
Proof.
  intros H s Hs. specialize (H s Hs). induction (m s) as [a t|r|t k IH]; simpl in *; [exact H|exact H|tauto].
Qed.

End Keeps.

#[export] Hint Resolve keeps_ret keeps_gets keeps_get keeps_halt keeps_panic keeps_fault
  keeps_switch keeps_when keeps_deref keeps_for_each keeps_for_loop keeps_for_lt keeps_while : keeps.

(** Splits a goal [keeps I m] along the structure of [m]. *)
Ltac keeps_step :=
  match goal with
  | |- inv _ _ (mbind _ _) => apply keeps_bind
  | |- forall _, _ => intro
  | |- inv _ _ (match ?x with _ => _ end) => destruct x
  | |- inv _ _ _ => solve [auto with keeps]
  | |- inv _ _ (for_each _ _ _) => apply keeps_for_each
  | |- inv _ _ (for_loop _ _ _ _) => apply keeps_for_loop
  | |- inv _ _ (while_loop _ _ _) => apply keeps_while
  | |- inv _ _ (for_lt _ _ _ _) => apply keeps_for_lt
  | |- inv _ _ (when _ _) => apply keeps_when
  end.
Ltac head_of t := lazymatch t with ?f _ => head_of f | _ => t end.
Ltac keeps_unfold :=
  match goal with
  | |- inv _ _ ?m => let h := head_of m in progress unfold h
  end.
Ltac keeps_auto := repeat first [keeps_step | keeps_unfold; cbv beta].

(** ** Machine integers *)

Definition u32 (x : Z) : Z := x mod 2 ^ 32.
Definition s32 (x : Z) : Z := (x + 2 ^ 31) mod 2 ^ 32 - 2 ^ 31.
Definition u8 (x : Z) : Z := x mod 256.
Definition u16 (x : Z) : Z := x mod 65536.

Lemma u32_range (x : Z) : 0 <= u32 x < 2 ^ 32.
Proof. unfold u32. apply Z.mod_pos_bound. lia. Qed.

Lemma u32_small (x : Z) : 0 <= x < 2 ^ 32 -> u32 x = x.
Proof. intros H. unfold u32. apply Z.mod_small. exact H. Qed.

Lemma s32_range (x : Z) : - 2 ^ 31 <= s32 x < 2 ^ 31.
Proof. unfold s32. pose proof (Z.mod_pos_bound (x + 2 ^ 31) (2 ^ 32)). lia. Qed.

Lemma s32_small (x : Z) : - 2 ^ 31 <= x < 2 ^ 31 -> s32 x = x.
Proof. intros H. unfold s32. rewrite Z.mod_small; lia. Qed.

(** ** Lists *)

(** The index of the first element satisfying a test: the shape of the
    kernel's scans of its fixed-size tables. *)
Fixpoint find_idx {A : Type} (f : A -> bool) (l : list A) : option nat :=
  match l with
  | [] => None
  | x :: l' => if f x then Some O else S <$> find_idx f l'
  end.

Lemma find_idx_Some {A : Type} (f : A -> bool) (l : list A) (i : nat) :
  find_idx f l = Some i <->
  (exists x, l !! i = Some x /\ f x = true) /\
  (forall j y, (j < i)%nat -> l !! j = Some y -> f y = false).
Proof.
  revert i. induction l as [|x l IH]; intros i; simpl.
  - split; [discriminate|]. intros [(x & Hx & _) _]. rewrite lookup_nil in Hx. discriminate.
  - destruct (f x) eqn:Hf.
    + split.
      * intros [= <-]. split; [exists x; auto|]. intros j y Hj. lia.
      * intros [_ Hall]. destruct i as [|i]; [reflexivity|].
        rewrite (Hall O x) in Hf; [discriminate|lia|reflexivity].
    + rewrite fmap_Some. split.
      * intros (i' & Hi' & ->). apply IH in Hi' as [(y & Hy & Hfy) Hall].
        split; [exists y; auto|]. intros [|j] z Hj Hz; simpl in Hz; [congruence|].
        apply (Hall j z); [lia|exact Hz].
      * intros [(y & Hy & Hfy) Hall]. destruct i as [|i]; simpl in Hy; [congruence|].
        exists i. split; [|reflexivity]. apply IH. split; [eauto|].
        intros j z Hj Hz. apply (Hall (S j) z); [lia|exact Hz].
Qed.

Lemma find_idx_None {A : Type} (f : A -> bool) (l : list A) :
  find_idx f l = None <-> forall i x, l !! i = Some x -> f x = false.
Proof.
  induction l as [|x l IH]; simpl.
  - split; [|reflexivity]. intros _ i y Hy. rewrite lookup_nil in Hy. discriminate.
  - destruct (f x) eqn:Hf.
    + split; [discriminate|]. intros H. rewrite (H O x) in Hf; [discriminate|reflexivity].
    + rewrite fmap_None, IH. split.
      * intros H [|i] y Hy; simpl in Hy; [congruence|eauto].
      * intros H i y Hy. apply (H (S i)). exact Hy.
Qed.

Lemma last_cons_is {A : Type} (a : A) (l : list A) : exists e, last (a :: l) = Some e.
Proof. destruct (last (a :: l)) eqn:E; [eauto|]. apply last_None in E. discriminate. Qed.
