(* ===== verification/Params.v ===== *)
(** * Constants and address arithmetic

    The constants of [param.h], [memlayout.h], [mmu.h], [fs.h], [stat.h] and
    [fcntl.h], with the address macros as functions on 32-bit values. *)

From S2P Require Import Prelude.

(** ** param.h *)

Definition NPROC : nat := 64.
Definition KSTACKSIZE : Z := 4096.
Definition NOFILE : nat := 16.
Definition NFILE : nat := 100.
Definition NINODE : nat := 50.
Definition NDEV : Z := 10.
Definition ROOTDEV : Z := 1.
Definition MAXARG : nat := 32.
Definition MAXOPBLOCKS : Z := 10.
Definition LOGSIZE : Z := MAXOPBLOCKS * 3.
Definition NBUF : nat := 30.
Definition FSSIZE : Z := 40000.
Definition NSTRIDE : Z := 20000.

(** ** memlayout.h *)

Definition EXTMEM : Z := 0x100000.
Definition PHYSTOP : Z := 0xE000000.
Definition DEVSPACE : Z := 0xFE000000.
Definition KERNBASE : Z := 0x80000000.
Definition KERNLINK : Z := KERNBASE + EXTMEM.

Definition V2P (a : Z) : Z := u32 (a - KERNBASE).
Definition P2V (a : Z) : Z := u32 (a + KERNBASE).

(** ** mmu.h *)

Definition FL_IF : Z := 0x200.
Definition SEG_KDATA : Z := 2.
Definition SEG_UCODE : Z := 3.
Definition SEG_UDATA : Z := 4.
Definition DPL_USER : Z := 0x3.

Definition NPDENTRIES : Z := 1024.
Definition PGSIZE : Z := 4096.
Definition PTXSHIFT : Z := 12.
Definition PDXSHIFT : Z := 22.

Definition PDX (va : Z) : Z := Z.land (Z.shiftr (u32 va) PDXSHIFT) 0x3FF.
Definition PTX (va : Z) : Z := Z.land (Z.shiftr (u32 va) PTXSHIFT) 0x3FF.
Definition PGADDR (d t o : Z) : Z :=
  u32 (Z.lor (Z.lor (Z.shiftl d PDXSHIFT) (Z.shiftl t PTXSHIFT)) o).

Definition PGROUNDUP (sz : Z) : Z := Z.land (u32 (sz + PGSIZE - 1)) (Z.lnot (PGSIZE - 1)).
Definition PGROUNDDOWN (a : Z) : Z := Z.land a (Z.lnot (PGSIZE - 1)).

Definition PTE_P : Z := 0x001.
Definition PTE_W : Z := 0x002.
Definition PTE_U : Z := 0x004.
Definition PTE_ADDR (pte : Z) : Z := Z.land (u32 pte) (Z.lnot 0xFFF).
Definition PTE_FLAGS (pte : Z) : Z := Z.land (u32 pte) 0xFFF.

(** ** fs.h, stat.h, fcntl.h *)

Definition ROOTINO : Z := 1.
Definition BSIZE : Z := 512.
Definition NDIRECT : Z := 10.
Definition NINDIRECT : Z := BSIZE / 4.
Definition MAXFILE : Z :=
  NDIRECT + NINDIRECT + NINDIRECT * NINDIRECT + NINDIRECT * NINDIRECT * NINDIRECT.
Definition DINODE_SIZE : Z := 64.
Definition IPB : Z := BSIZE / DINODE_SIZE.
Definition BPB : Z := BSIZE * 8.
Definition DIRSIZ : Z := 14.
Definition DIRENT_SIZE : Z := 16.

Definition T_DIR : Z := 1.
Definition T_FILE : Z := 2.
Definition T_DEV : Z := 3.

Definition O_RDONLY : Z := 0x000.
Definition O_WRONLY : Z := 0x001.
Definition O_RDWR : Z := 0x002.
Definition O_CREATE : Z := 0x200.

(** ** Address arithmetic *)

Lemma mask_round_down (a n : Z) :
  0 <= n -> Z.land a (Z.lnot (2 ^ n - 1)) = a - a mod 2 ^ n.
Proof.
  intros Hn. rewrite <- Z.ldiff_land.
  change (2 ^ n - 1) with (Z.pred (2 ^ n)). rewrite <- Z.ones_equiv.
  rewrite Z.ldiff_ones_r by exact Hn.
  rewrite Z.shiftl_mul_pow2, Z.shiftr_div_pow2 by exact Hn.
  pose proof (Z.div_mod a (2 ^ n)). assert (2 ^ n <> 0) by (apply Z.pow_nonzero; lia). lia.
Qed.

Lemma PGROUNDDOWN_eq (a : Z) : PGROUNDDOWN a = a - a mod PGSIZE.
Proof. unfold PGROUNDDOWN, PGSIZE. apply (mask_round_down a 12). lia. Qed.

Lemma PGROUNDUP_eq (sz : Z) :
  PGROUNDUP sz = u32 (sz + PGSIZE - 1) - u32 (sz + PGSIZE - 1) mod PGSIZE.
Proof. unfold PGROUNDUP, PGSIZE. apply (mask_round_down _ 12). lia. Qed.

Lemma PGROUNDUP_spec (sz : Z) :
  0 <= sz <= 2 ^ 32 - PGSIZE ->
  sz <= PGROUNDUP sz < sz + PGSIZE /\ PGROUNDUP sz mod PGSIZE = 0.
Proof.
  unfold PGSIZE. intros H. rewrite PGROUNDUP_eq, u32_small by (unfold PGSIZE; lia).
  unfold PGSIZE. split; [Z.div_mod_to_equations; lia|].
  rewrite Zminus_mod_idemp_r, Z.sub_diag. reflexivity.
Qed.

Lemma PDX_eq (va : Z) : 0 <= va < 2 ^ 32 -> PDX va = va / 2 ^ 22.
Proof.
  intros H. unfold PDX. rewrite u32_small by exact H.
  change 0x3FF with (Z.ones 10). rewrite Z.land_ones by lia. unfold PDXSHIFT.
  rewrite Z.shiftr_div_pow2 by lia. apply Z.mod_small. Z.div_mod_to_equations; lia.
Qed.

Lemma PTX_eq (va : Z) : 0 <= va < 2 ^ 32 -> PTX va = va / PGSIZE mod 1024.
Proof.
  intros H. unfold PTX. rewrite u32_small by exact H.
  change 0x3FF with (Z.ones 10). rewrite Z.land_ones by lia. unfold PTXSHIFT.
  rewrite Z.shiftr_div_pow2 by lia. reflexivity.
Qed.

(** Disjoint bit fields: [lor] of a multiple of [2^n] and a value below it is
    their sum. *)
Lemma lor_add_disjoint (a b n : Z) :
  0 <= n -> 0 <= b < 2 ^ n -> Z.lor (a * 2 ^ n) b = a * 2 ^ n + b.
Proof.
  intros Hn Hb. rewrite <- Z.shiftl_mul_pow2 by exact Hn.
  rewrite Z.lor_comm. symmetry. rewrite Z.add_comm.
  apply Z.bits_inj'. intros i Hi.
  destruct (Z.le_gt_cases n i) as [Hni|Hni].
  - rewrite <- (Z.mod_small b (2 ^ n)) by exact Hb.
    rewrite Z.lor_spec, Z.mod_pow2_bits_high by lia. simpl.
    rewrite Z.shiftl_mul_pow2 by lia. rewrite Z.mod_small by exact Hb.
    replace (b + a * 2 ^ n) with (a * 2 ^ n + b) by lia.
    rewrite <- (Z.sub_add n i). rewrite <- !Z.div_pow2_bits by lia.
    rewrite Z.div_add_l, Z.div_mul, Z.div_small by lia. f_equal. lia.
  - rewrite Z.lor_spec, Z.shiftl_spec_low by lia. rewrite orb_false_r.
    rewrite <- (Z.mod_pow2_bits_low (b + Z.shiftl a n) n i) by lia.
    rewrite Z.shiftl_mul_pow2 by lia. rewrite Z.mod_add by lia.
    apply Z.mod_pow2_bits_low. lia.
Qed.
