(* ===== verification/Bytes.v ===== *)
(** * Bytes and words

    A block, a page or a C array is a list of bytes; 16- and 32-bit values are
    stored little-endian.  [rd]/[wr] are loads and stores of one byte of
    memory. *)

From S2P Require Import Prelude.

Definition byte_at (l : list Z) (i : Z) : Z := default 0 (l !! Z.to_nat i).

Definition is_byte (b : Z) : Prop := 0 <= b < 256.

Definition get16 (l : list Z) (off : Z) : Z := byte_at l off + 256 * byte_at l (off + 1).
Definition get32 (l : list Z) (off : Z) : Z :=
  byte_at l off + 256 * byte_at l (off + 1) + 65536 * byte_at l (off + 2)
  + 16777216 * byte_at l (off + 3).

Definition le16 (v : Z) : list Z := [u8 v; u8 (v / 256)].
Definition le32 (v : Z) : list Z :=
  [u8 v; u8 (v / 256); u8 (v / 65536); u8 (v / 16777216)].

(** [splice l off d]: the bytes [d] written over [l] from offset [off]. *)
Definition splice (l : list Z) (off : Z) (d : list Z) : list Z :=
  take (Z.to_nat off) l ++ d ++ drop (Z.to_nat off + length d) l.

Definition put16 (l : list Z) (off v : Z) : list Z := splice l off (le16 v).
Definition put32 (l : list Z) (off v : Z) : list Z := splice l off (le32 v).

(** [slice l off n]: [n] bytes from offset [off]. *)
Definition slice (l : list Z) (off n : Z) : list Z := take (Z.to_nat n) (drop (Z.to_nat off) l).

(** A signed 16-bit field ([short]). *)
Definition s16 (x : Z) : Z := (x + 32768) mod 65536 - 32768.

(** ** Lemmas *)

Lemma length_splice (l d : list Z) (off : Z) :
  0 <= off -> off + Z.of_nat (length d) <= Z.of_nat (length l) ->
  length (splice l off d) = length l.
Proof.
  intros H0 H. unfold splice. rewrite !length_app, length_take, length_drop. lia.
Qed.

Lemma splice_lookup (l d : list Z) (off : Z) (i : nat) :
  0 <= off -> off + Z.of_nat (length d) <= Z.of_nat (length l) ->
  splice l off d !! i =
    if decide (off <= Z.of_nat i < off + Z.of_nat (length d))
    then d !! (i - Z.to_nat off)%nat else l !! i.
Proof.
  intros H0 H. unfold splice. case_decide as Hd.
  - rewrite lookup_app_r by (rewrite length_take; lia). rewrite length_take.
    rewrite lookup_app_l by lia. f_equal. lia.
  - destruct (decide (Z.of_nat i < off)).
    + rewrite lookup_app_l by (rewrite length_take; lia). apply lookup_take_lt. lia.
    + rewrite lookup_app_r by (rewrite length_take; lia). rewrite length_take.
      rewrite lookup_app_r by lia. rewrite lookup_drop. f_equal. lia.
Qed.

Lemma splice_byte (l d : list Z) (off i : Z) :
  0 <= off -> off + Z.of_nat (length d) <= Z.of_nat (length l) -> 0 <= i ->
  byte_at (splice l off d) i =
    if decide (off <= i < off + Z.of_nat (length d)) then byte_at d (i - off) else byte_at l i.
Proof.
  intros H0 H Hi. unfold byte_at. rewrite splice_lookup by assumption.
  rewrite Z2Nat.id by assumption. case_decide; [|reflexivity]. do 2 f_equal. lia.
Qed.

Lemma u8_small (x : Z) : 0 <= x < 256 -> u8 x = x.
Proof. intros H. unfold u8. apply Z.mod_small. exact H. Qed.

Lemma le32_sum (v : Z) :
  u8 v + 256 * u8 (v / 256) + 65536 * u8 (v / 65536) + 16777216 * u8 (v / 16777216) = u32 v.
Proof. unfold u8, u32. Z.div_mod_to_equations. lia. Qed.

Lemma le16_sum (v : Z) : u8 v + 256 * u8 (v / 256) = u16 v.
Proof. unfold u8, u16. Z.div_mod_to_equations. lia. Qed.

Lemma get_put32_same (l : list Z) (off v : Z) :
  0 <= off -> off + 4 <= Z.of_nat (length l) -> get32 (put32 l off v) off = u32 v.
Proof.
  intros H0 H. unfold get32, put32. rewrite !splice_byte by (simpl; lia).
  rewrite !decide_True by (simpl; lia).
  replace (off - off) with 0 by lia. replace (off + 1 - off) with 1 by lia.
  replace (off + 2 - off) with 2 by lia. replace (off + 3 - off) with 3 by lia.
  apply le32_sum.
Qed.

Lemma get_put32_other (l : list Z) (off off' v : Z) :
  0 <= off -> off + 4 <= Z.of_nat (length l) -> 0 <= off' -> off' + 4 <= off \/ off + 4 <= off' ->
  get32 (put32 l off v) off' = get32 l off'.
Proof.
  intros H0 H H1 H2. unfold get32, put32. rewrite !splice_byte by (simpl; lia).
  rewrite !decide_False by (simpl; lia). reflexivity.
Qed.

Lemma length_put32 (l : list Z) (off v : Z) :
  0 <= off -> off + 4 <= Z.of_nat (length l) -> length (put32 l off v) = length l.
Proof. intros H0 H. apply length_splice; simpl; lia. Qed.

Lemma get_put16_same (l : list Z) (off v : Z) :
  0 <= off -> off + 2 <= Z.of_nat (length l) -> get16 (put16 l off v) off = u16 v.
Proof.
  intros H0 H. unfold get16, put16. rewrite !splice_byte by (simpl; lia).
  rewrite !decide_True by (simpl; lia).
  replace (off - off) with 0 by lia. replace (off + 1 - off) with 1 by lia. apply le16_sum.
Qed.

Lemma byte_at_byte (l : list Z) (i : Z) : Forall is_byte l -> is_byte (byte_at l i).
Proof.
  intros H. unfold byte_at. destruct (l !! Z.to_nat i) eqn:E; simpl; [|unfold is_byte; lia].
  eapply Forall_lookup_1; eassumption.
Qed.

Lemma get32_range (l : list Z) (off : Z) : Forall is_byte l -> 0 <= get32 l off < 2 ^ 32.
Proof.
  intros H. unfold get32.
  pose proof (byte_at_byte l off H) as B0. pose proof (byte_at_byte l (off + 1) H) as B1.
  pose proof (byte_at_byte l (off + 2) H) as B2. pose proof (byte_at_byte l (off + 3) H) as B3.
  unfold is_byte in *. lia.
Qed.

Lemma u8_byte (v : Z) : is_byte (u8 v).
Proof. unfold is_byte, u8. apply Z.mod_pos_bound. lia. Qed.

Lemma Forall_splice (l d : list Z) (off : Z) :
  Forall is_byte l -> Forall is_byte d -> Forall is_byte (splice l off d).
Proof. intros Hl Hd. unfold splice. auto using Forall_app_2, Forall_take, Forall_drop. Qed.

Lemma Forall_le32 (v : Z) : Forall is_byte (le32 v).
Proof. repeat constructor; apply u8_byte. Qed.

Lemma Forall_le16 (v : Z) : Forall is_byte (le16 v).
Proof. repeat constructor; apply u8_byte. Qed.

(** Reading a slice back after writing it. *)
Lemma slice_splice_same (l d : list Z) (off : Z) :
  0 <= off -> off + Z.of_nat (length d) <= Z.of_nat (length l) ->
  slice (splice l off d) off (Z.of_nat (length d)) = d.
Proof.
  intros H0 H. unfold slice, splice. rewrite drop_app_ge by (rewrite length_take; lia).
  rewrite length_take. replace (_ - _)%nat with O by lia. rewrite drop_0, Nat2Z.id.
  rewrite take_app_le by lia. apply take_ge. lia.
Qed.

Lemma length_slice (l : list Z) (off n : Z) :
  0 <= off -> 0 <= n -> off + n <= Z.of_nat (length l) -> length (slice l off n) = Z.to_nat n.
Proof. intros H0 Hn H. unfold slice. rewrite length_take, length_drop. lia. Qed.

(** ** Memory *)

Definition rd (m : gmap Z Z) (a : Z) : Z := default 0 (m !! a).
Definition wr (a v : Z) (m : gmap Z Z) : gmap Z Z := <[a := v]> m.

Definition rd32 (m : gmap Z Z) (a : Z) : Z :=
  rd m a + 256 * rd m (a + 1) + 65536 * rd m (a + 2) + 16777216 * rd m (a + 3).

Definition rd16 (m : gmap Z Z) (a : Z) : Z := rd m a + 256 * rd m (a + 1).

(** Stores a list of bytes at consecutive addresses. *)
Fixpoint wr_list (a : Z) (d : list Z) (m : gmap Z Z) : gmap Z Z :=
  match d with [] => m | b :: d' => wr_list (a + 1) d' (wr a b m) end.

Definition wr32 (a v : Z) (m : gmap Z Z) : gmap Z Z := wr_list a (le32 v) m.

Lemma rd_wr (m : gmap Z Z) (a b v : Z) : rd (wr a v m) b = if decide (a = b) then v else rd m b.
Proof. unfold rd, wr. rewrite lookup_insert. case_decide; reflexivity. Qed.

Lemma rd_wr_list (d : list Z) (a b : Z) (m : gmap Z Z) :
  rd (wr_list a d m) b =
    if decide (a <= b < a + Z.of_nat (length d)) then byte_at d (b - a) else rd m b.
Proof.
  revert a m. induction d as [|x d IH]; intros a m; simpl.
  { rewrite decide_False by lia. reflexivity. }
  rewrite IH, rd_wr. unfold byte_at.
  destruct (decide (a = b)) as [->|Hne].
  { rewrite decide_False, decide_True by lia. rewrite Z.sub_diag. reflexivity. }
  destruct (decide (a <= b < a + Z.of_nat (S (length d)))).
  - rewrite decide_True by lia.
    replace (Z.to_nat (b - a)) with (S (Z.to_nat (b - (a + 1)))) by lia. reflexivity.
  - rewrite decide_False by lia. reflexivity.
Qed.

Lemma rd32_wr32_same (m : gmap Z Z) (a v : Z) : rd32 (wr32 a v m) a = u32 v.
Proof.
  unfold rd32, wr32. rewrite !rd_wr_list. rewrite !decide_True by (simpl; lia).
  replace (a - a) with 0 by lia. replace (a + 1 - a) with 1 by lia.
  replace (a + 2 - a) with 2 by lia. replace (a + 3 - a) with 3 by lia. apply le32_sum.
Qed.

Lemma rd32_wr32_other (m : gmap Z Z) (a b v : Z) :
  b + 4 <= a \/ a + 4 <= b -> rd32 (wr32 a v m) b = rd32 m b.
Proof.
  intros H. unfold rd32, wr32. rewrite !rd_wr_list. rewrite !decide_False by (simpl; lia). reflexivity.
Qed.

Lemma rd_wr32_other (m : gmap Z Z) (a b v : Z) :
  b < a \/ a + 4 <= b -> rd (wr32 a v m) b = rd m b.
Proof. intros H. unfold wr32. rewrite rd_wr_list, decide_False by (simpl; lia). reflexivity. Qed.

#[global] Arguments rd : simpl never.
#[global] Arguments wr : simpl never.
#[global] Arguments rd32 : simpl never.
#[global] Arguments wr32 : simpl never.
#[global] Arguments get16 : simpl never.
#[global] Arguments get32 : simpl never.
#[global] Arguments put16 : simpl never.
#[global] Arguments put32 : simpl never.
#[global] Arguments splice : simpl never.
#[global] Arguments slice : simpl never.
