(* ===== verification/CString.v ===== *)
(** * string.c: memory blocks and strings

    [memset], [memmove] and [memcmp] act on memory ([gmap Z Z]); the string
    functions act on the arrays the kernel passes to them, as lists of bytes.
    Reading past the end of the list gives 0, the terminator. *)

From S2P Require Import Prelude Bytes.

(** ** Memory blocks *)

(** [rep stosb] and [rep stosl]. *)
Fixpoint stosb (n : nat) (a data : Z) (m : gmap Z Z) : gmap Z Z :=
  match n with O => m | S n' => stosb n' (a + 1) data (wr a (u8 data) m) end.

Fixpoint stosl (n : nat) (a data : Z) (m : gmap Z Z) : gmap Z Z :=
  match n with O => m | S n' => stosl n' (a + 4) data (wr32 a data m) end.

Definition memset (dst c n : Z) (m : gmap Z Z) : gmap Z Z :=
  if (Z.rem (s32 dst) 4 =? 0) && (n mod 4 =? 0) then
    let c := Z.land c 0xFF in
    stosl (Z.to_nat (n / 4)) dst
      (Z.lor (Z.lor (Z.lor (Z.shiftl c 24) (Z.shiftl c 16)) (Z.shiftl c 8)) c) m
  else stosb (Z.to_nat n) dst c m.

Fixpoint copy_up (n : nat) (d s : Z) (m : gmap Z Z) : gmap Z Z :=
  match n with O => m | S n' => copy_up n' (d + 1) (s + 1) (wr d (rd m s) m) end.

Fixpoint copy_down (n : nat) (d s : Z) (m : gmap Z Z) : gmap Z Z :=
  match n with O => m | S n' => copy_down n' (d - 1) (s - 1) (wr (d - 1) (rd m (s - 1)) m) end.

Definition memmove (dst src n : Z) (m : gmap Z Z) : gmap Z Z :=
  if (src <? dst) && (src + n >? dst) then copy_down (Z.to_nat n) (dst + n) (src + n) m
  else copy_up (Z.to_nat n) dst src m.

Fixpoint memcmp (n : nat) (s1 s2 : Z) (m : gmap Z Z) : Z :=
  match n with
  | O => 0
  | S n' =>
      if rd m s1 =? rd m s2 then memcmp n' (s1 + 1) (s2 + 1) m else rd m s1 - rd m s2
  end.

(** ** Strings *)

Fixpoint strncmp (n : nat) (p q : list Z) : Z :=
  match n with
  | O => 0
  | S n' =>
      if negb (byte_at p 0 =? 0) && (byte_at p 0 =? byte_at q 0)
      then strncmp n' (tail p) (tail q)
      else u8 (byte_at p 0) - u8 (byte_at q 0)
  end.

(** The [n] bytes [strncpy] stores. *)
Fixpoint strncpy (n : nat) (t : list Z) : list Z :=
  match n with
  | O => []
  | S n' =>
      byte_at t 0 :: (if byte_at t 0 =? 0 then replicate n' 0 else strncpy n' (tail t))
  end.

(** The array [s] after [safestrcpy(s, t, n)]: the copying loop, with [n]
    already decremented, and the store of the terminator behind it. *)
Fixpoint safestrcpy_loop (n : nat) (s t : list Z) : list Z :=
  match n with
  | O => 0 :: tail s
  | S n' =>
      byte_at t 0 :: (if byte_at t 0 =? 0 then 0 :: tail (tail s)
                      else safestrcpy_loop n' (tail s) (tail t))
  end.

Definition safestrcpy (s t : list Z) (n : Z) : list Z :=
  if n <=? 0 then s else safestrcpy_loop (Z.to_nat (n - 1)) s t.

Fixpoint strlen (s : list Z) : Z :=
  match s with [] => 0 | c :: s' => if c =? 0 then 0 else 1 + strlen s' end.

(** ** Memory blocks: what they store *)

Lemma rd_stosb (n : nat) (a c b : Z) (m : gmap Z Z) :
  rd (stosb n a c m) b = if decide (a <= b < a + Z.of_nat n) then u8 c else rd m b.
Proof.
  revert a m. induction n as [|n IH]; intros a m; cbn [stosb].
  { rewrite decide_False by lia. reflexivity. }
  rewrite IH, rd_wr. repeat case_decide; try lia; reflexivity.
Qed.

Lemma u8_spread (c k : Z) :
  0 <= c < 256 -> In k [1; 256; 65536; 16777216] ->
  u8 ((c * 16777216 + c * 65536 + c * 256 + c) / k) = c.
Proof.
  intros Hc Hk. unfold u8.
  destruct Hk as [<-|[<-|[<-|[<-|[] ] ] ] ]; Z.div_mod_to_equations; lia.
Qed.

Lemma spread_lor (c : Z) :
  0 <= c < 256 ->
  Z.lor (Z.lor (Z.lor (Z.shiftl c 24) (Z.shiftl c 16)) (Z.shiftl c 8)) c
  = c * 16777216 + c * 65536 + c * 256 + c.
Proof.
  intros Hc.
  assert (H : forallb (fun k => Z.eqb
      (Z.lor (Z.lor (Z.lor (Z.shiftl k 24) (Z.shiftl k 16)) (Z.shiftl k 8)) k)
      (k * 16777216 + k * 65536 + k * 256 + k)) (seqZ 0 256) = true) by (vm_compute; reflexivity).
  rewrite forallb_forall in H. apply Z.eqb_eq, H, list_elem_of_In, elem_of_seqZ. lia.
Qed.

Lemma rd_stosl (n : nat) (a c b : Z) (m : gmap Z Z) :
  0 <= c < 256 ->
  rd (stosl n a (c * 16777216 + c * 65536 + c * 256 + c) m) b =
    if decide (a <= b < a + 4 * Z.of_nat n) then c else rd m b.
Proof.
  intros Hc. revert a m. induction n as [|n IH]; intros a m; cbn [stosl].
  { rewrite decide_False by lia. reflexivity. }
  rewrite IH. unfold wr32. rewrite rd_wr_list.
  destruct (decide (a <= b < a + 4)) as [Hb|Hb].
  - rewrite decide_False by lia. rewrite decide_True by (simpl; lia). rewrite decide_True by lia.
    assert (b - a = 0 \/ b - a = 1 \/ b - a = 2 \/ b - a = 3) as [->|[->|[->| ->] ] ] by lia;
      unfold le32; cbn;
      [rewrite <- (Z.div_1_r (c * 16777216 + c * 65536 + c * 256 + c)) at 1| | |];
      apply u8_spread; auto with datatypes; simpl; auto.
  - destruct (decide (a + 4 <= b < a + 4 + 4 * Z.of_nat n)).
    + rewrite decide_True by lia. reflexivity.
    + rewrite !decide_False by (simpl; lia). reflexivity.
Qed.

(** [memset] by words stores the same bytes as [memset] by bytes. *)
Lemma rd_memset (dst c n b : Z) (m : gmap Z Z) :
  0 <= n ->
  rd (memset dst c n m) b = if decide (dst <= b < dst + n) then u8 c else rd m b.
Proof.
  intros Hn. unfold memset. destruct (_ && _) eqn:E.
  - apply andb_true_iff in E as [_ E]. apply Z.eqb_eq in E.
    change 0xFF with (Z.ones 8). rewrite Z.land_ones by lia.
    assert (Hc : 0 <= c mod 2 ^ 8 < 256) by (apply Z.mod_pos_bound; lia).
    rewrite spread_lor by exact Hc. rewrite rd_stosl by exact Hc.
    rewrite Z2Nat.id by (apply Z.div_pos; lia).
    replace (4 * (n / 4)) with n by (Z.div_mod_to_equations; lia). reflexivity.
  - rewrite rd_stosb, Z2Nat.id by exact Hn. reflexivity.
Qed.

Lemma rd_copy_up (n : nat) (d s b : Z) (m : gmap Z Z) :
  d <= s \/ s + Z.of_nat n <= d ->
  rd (copy_up n d s m) b =
    if decide (d <= b < d + Z.of_nat n) then rd m (s + (b - d)) else rd m b.
Proof.
  revert d s m. induction n as [|n IH]; intros d s m H; cbn [copy_up].
  { rewrite decide_False by lia. reflexivity. }
  rewrite IH by lia. rewrite !rd_wr.
  destruct (decide (d = b)) as [<-|Hb].
  { rewrite decide_False, decide_True by lia. f_equal. lia. }
  destruct (decide (d + 1 <= b < d + 1 + Z.of_nat n)).
  - rewrite decide_False by lia. rewrite decide_True by lia. f_equal. lia.
  - rewrite decide_False by lia. reflexivity.
Qed.

Lemma rd_copy_down (n : nat) (d s b : Z) (m : gmap Z Z) :
  s <= d ->
  rd (copy_down n d s m) b =
    if decide (d - Z.of_nat n <= b < d) then rd m (s - (d - b)) else rd m b.
Proof.
  revert d s m. induction n as [|n IH]; intros d s m H; cbn [copy_down].
  { rewrite decide_False by lia. reflexivity. }
  rewrite IH by lia. rewrite !rd_wr.
  destruct (decide (d - 1 = b)) as [<-|Hb].
  { rewrite decide_False, decide_True by lia. f_equal. lia. }
  destruct (decide (d - 1 - Z.of_nat n <= b < d - 1)).
  - rewrite decide_False by lia. rewrite decide_True by lia. f_equal. lia.
  - rewrite decide_False by lia. reflexivity.
Qed.

(** [memmove] copies as if the source was read before anything is stored. *)
Lemma rd_memmove (dst src n b : Z) (m : gmap Z Z) :
  0 <= n ->
  rd (memmove dst src n m) b = if decide (dst <= b < dst + n) then rd m (src + (b - dst)) else rd m b.
Proof.
  intros Hn. unfold memmove. destruct (_ && _) eqn:E.
  - rewrite rd_copy_down by lia. rewrite Z2Nat.id by exact Hn.
    replace (dst + n - n) with dst by lia.
    destruct (decide (dst <= b < dst + n)); [f_equal; lia|reflexivity].
  - rewrite rd_copy_up by lia. rewrite Z2Nat.id by exact Hn. reflexivity.
Qed.

Lemma memcmp_zero (n : nat) (s1 s2 : Z) (m : gmap Z Z) :
  memcmp n s1 s2 m = 0 <-> forall i, 0 <= i < Z.of_nat n -> rd m (s1 + i) = rd m (s2 + i).
Proof.
  revert s1 s2. induction n as [|n IH]; intros s1 s2; cbn [memcmp].
  { split; [lia|reflexivity]. }
  destruct (Z.eqb_spec (rd m s1) (rd m s2)) as [E|E].
  - rewrite IH. split; intros H i Hi.
    + destruct (decide (i = 0)) as [->|Hne]; [rewrite !Z.add_0_r; exact E|].
      specialize (H (i - 1)). replace (s1 + 1 + (i - 1)) with (s1 + i) in H by lia.
      replace (s2 + 1 + (i - 1)) with (s2 + i) in H by lia. apply H. lia.
    + replace (s1 + 1 + i) with (s1 + (i + 1)) by lia. replace (s2 + 1 + i) with (s2 + (i + 1)) by lia.
      apply H. lia.
  - split; [lia|]. intros H. specialize (H 0). rewrite !Z.add_0_r in H. exfalso. apply E, H. lia.
Qed.

(** ** Strings: what they compute *)

(** The string in an array: the bytes before the terminator. *)
Fixpoint cstr (s : list Z) : list Z :=
  match s with [] => [] | c :: s' => if c =? 0 then [] else c :: cstr s' end.

Lemma strlen_cstr (s : list Z) : strlen s = Z.of_nat (length (cstr s)).
Proof. induction s as [|c s IH]; simpl; [reflexivity|]. destruct (c =? 0); simpl; lia. Qed.

Lemma cstr_byte_at (s : list Z) : cstr s = if byte_at s 0 =? 0 then [] else byte_at s 0 :: cstr (tail s).
Proof. destruct s as [|c s]; reflexivity. Qed.

Lemma cstr_app (a b : list Z) : 0 ∉ a -> cstr (a ++ b) = a ++ cstr b.
Proof.
  induction a as [|x a IH]; intros H; [reflexivity|]. cbn [cstr app].
  destruct (Z.eqb_spec x 0) as [->|]; [set_solver|]. rewrite IH by set_solver. reflexivity.
Qed.

Lemma strncmp_eq (n : nat) (p q : list Z) :
  Forall is_byte p -> Forall is_byte q ->
  strncmp n p q = 0 <-> take n (cstr p) = take n (cstr q).
Proof.
  revert p q. induction n as [|n IH]; intros p q Hp Hq; cbn [strncmp]; [done|].
  assert (Bp : is_byte (byte_at p 0)) by (apply byte_at_byte, Hp).
  assert (Bq : is_byte (byte_at q 0)) by (apply byte_at_byte, Hq).
  rewrite (cstr_byte_at p), (cstr_byte_at q).
  destruct (Z.eqb_spec (byte_at p 0) 0) as [E|E]; simpl.
  - rewrite !u8_small by assumption. rewrite E.
    destruct (Z.eqb_spec (byte_at q 0) 0) as [E'|E']; simpl; [split; [done|lia]|].
    split; [lia|discriminate].
  - destruct (Z.eqb_spec (byte_at p 0) (byte_at q 0)) as [E'|E'].
    + rewrite <- E'. destruct (Z.eqb_spec (byte_at p 0) 0); [lia|]. simpl.
      rewrite IH by (apply Forall_tail; assumption). split; [intros ->; reflexivity|intros [=]; done].
    + rewrite !u8_small by assumption. split; [lia|].
      destruct (Z.eqb_spec (byte_at q 0) 0); simpl; [discriminate|]. intros [= ? _]. lia.
Qed.

Lemma length_strncpy (n : nat) (t : list Z) : length (strncpy n t) = n.
Proof.
  revert t. induction n as [|n IH]; intros t; simpl; [reflexivity|].
  destruct (_ =? 0); [rewrite length_replicate|rewrite IH]; reflexivity.
Qed.

Lemma cstr_strncpy (n : nat) (t : list Z) : cstr (strncpy n t) = take n (cstr t).
Proof.
  revert t. induction n as [|n IH]; intros t; cbn [strncpy]; [reflexivity|].
  rewrite (cstr_byte_at t). cbn [cstr]. destruct (byte_at t 0 =? 0); [reflexivity|].
  rewrite IH. reflexivity.
Qed.

Lemma Forall_strncpy (n : nat) (t : list Z) : Forall is_byte t -> Forall is_byte (strncpy n t).
Proof.
  revert t. induction n as [|n IH]; intros t H; cbn [strncpy]; [constructor|].
  constructor; [apply byte_at_byte, H|]. destruct (_ =? 0); [|apply IH, Forall_tail, H].
  apply Forall_replicate. unfold is_byte. lia.
Qed.

Lemma cstr_safestrcpy_loop (n : nat) (s t : list Z) :
  cstr (safestrcpy_loop n s t) = take n (cstr t).
Proof.
  revert s t. induction n as [|n IH]; intros s t; cbn [safestrcpy_loop]; [reflexivity|].
  rewrite (cstr_byte_at t). cbn [cstr]. destruct (byte_at t 0 =? 0); [reflexivity|].
  rewrite IH. reflexivity.
Qed.

(** [safestrcpy] stores the longest prefix that fits together with its
    terminator. *)
Lemma cstr_safestrcpy (s t : list Z) (n : Z) :
  0 < n -> cstr (safestrcpy s t n) = take (Z.to_nat (n - 1)) (cstr t).
Proof.
  intros H. unfold safestrcpy. rewrite (proj2 (Z.leb_gt _ _)) by lia. apply cstr_safestrcpy_loop.
Qed.

#[global] Arguments memset : simpl never.
#[global] Arguments memmove : simpl never.
