(* ===== verification/Spinlock.v ===== *)
(** * spinlock.c on several processors

    Every access to shared memory or to the state of the processor is a step of
    its own; the processors take their steps in any order, and an interrupt may
    come before any step of a processor that has interrupts enabled.  [pc] says
    which line of spinlock.c a processor is at; between the calls it runs other
    code of the kernel, [Out].  The rest of the library runs one processor at a
    time and uses what is proved here: a lock has one owner, and a processor
    that owns one is not interrupted. *)

From S2P Require Import Prelude Params.

(** What [pushcli] returns to: its caller, or [acquire]. *)
Inductive after : Type := Ret | Acquire (l : nat).

Inductive pc : Type :=
  | Out
  | Pushcli (k : after)                         (* eflags = readeflags() *)
  | PushcliCli (eflags : bool) (k : after)      (* cli() *)
  | PushcliIntena (eflags : bool) (k : after)   (* if(ncli == 0) intena = eflags & FL_IF *)
  | PushcliCount (k : after)                    (* ncli += 1 *)
  | AcqLocked (l : nat)                         (* holding: lock->locked *)
  | AcqCpu (l : nat)                            (* holding: lock->cpu == mycpu() *)
  | AcqXchg (l : nat)                           (* while(xchg(&lk->locked, 1) != 0) *)
  | AcqOwn (l : nat)                            (* lk->cpu = mycpu() *)
  | RelLocked (l : nat)
  | RelCpu (l : nat)
  | RelDisown (l : nat)                         (* lk->cpu = 0 *)
  | RelUnlock (l : nat)                         (* movl $0, lk->locked *)
  | Popcli (own : bool)                         (* if(readeflags()&FL_IF); [own]: not called by release *)
  | PopcliCount (own : bool)                    (* if(--ncli < 0) *)
  | PopcliSti                                   (* if(ncli == 0 && intena) sti() *)
  | Panicked.

#[export] Instance after_eq : EqDecision after.
Proof. solve_decision. Defined.
#[export] Instance pc_eq : EqDecision pc.
Proof. solve_decision. Defined.

Record slock : Type := mk_slock { locked : Z; lk_cpu : option nat }.
#[export] Instance slock_eta : Eta slock := fun r => mk_slock (locked r) (lk_cpu r).

(** [c_stack] has where the code interrupted goes on; [c_push] counts the calls
    of [pushcli] by other code that have no [popcli] yet. *)
Record scpu : Type := mk_scpu {
  c_if : bool;
  c_ncli : Z;
  c_intena : bool;
  c_pc : pc;
  c_stack : list pc;
  c_push : Z
}.
#[export] Instance scpu_eta : Eta scpu := fun r => mk_scpu (c_if r) (c_ncli r) (c_intena r) (c_pc r) (c_stack r) (c_push r).

Definition goto (p : pc) (c : scpu) : scpu := c <| c_pc := p |>.

(** A step of [pushcli] or [popcli]; [mycpu] panics when interrupts are enabled. *)
Definition cli_step (c : scpu) : scpu :=
  match c_pc c with
  | Pushcli k => goto (PushcliCli (c_if c) k) c
  | PushcliCli e k => goto (PushcliIntena e k) (c <| c_if := false |>)
  | PushcliIntena e k =>
      if c_if c then goto Panicked c
      else goto (PushcliCount k) (if c_ncli c =? 0 then c <| c_intena := e |> else c)
  | PushcliCount Ret => goto Out (c <| c_ncli ::= Z.succ |> <| c_push ::= Z.succ |>)
  | PushcliCount (Acquire l) => goto (AcqLocked l) (c <| c_ncli ::= Z.succ |>)
  | Popcli own => if c_if c then goto Panicked c else goto (PopcliCount own) c
  | PopcliCount own =>
      let c' := c <| c_ncli ::= Z.pred |> <| c_push ::= (fun n => if own then Z.pred n else n) |> in
      if c_ncli c' <? 0 then goto Panicked c' else goto PopcliSti c'
  | PopcliSti => goto Out (if (c_ncli c =? 0) && c_intena c then c <| c_if := true |> else c)
  | _ => c
  end.

(** A step of [acquire] or [release] by processor [i] on the lock. *)
Definition lock_step (i : nat) (c : scpu) (k : slock) : scpu * slock :=
  match c_pc c with
  | AcqLocked l => (goto (if locked k =? 0 then AcqXchg l else AcqCpu l) c, k)
  | AcqCpu l =>
      if c_if c then (goto Panicked c, k)
      else (goto (if decide (lk_cpu k = Some i) then Panicked else AcqXchg l) c, k)
  | AcqXchg l => (goto (if locked k =? 0 then AcqOwn l else AcqXchg l) c, k <| locked := 1 |>)
  | AcqOwn l => (goto Out c, k <| lk_cpu := Some i |>)
  | RelLocked l => (goto (if locked k =? 0 then Panicked else RelCpu l) c, k)
  | RelCpu l =>
      if c_if c then (goto Panicked c, k)
      else (goto (if decide (lk_cpu k = Some i) then RelDisown l else Panicked) c, k)
  | RelDisown l => (goto (RelUnlock l) c, k <| lk_cpu := None |>)
  | RelUnlock l => (goto (Popcli false) c, k <| locked := 0 |>)
  | _ => (c, k)
  end.

Definition pc_lock (p : pc) : option nat :=
  match p with
  | AcqLocked l | AcqCpu l | AcqXchg l | AcqOwn l | RelLocked l | RelCpu l | RelDisown l | RelUnlock l => Some l
  | _ => None
  end.

Record machine : Type := mk_machine { m_locks : list slock; m_cpus : list scpu }.
#[export] Instance machine_eta : Eta machine := fun r => mk_machine (m_locks r) (m_cpus r).

(** What may happen next: a step of spinlock.c, a call of one of its functions
    by other code, an interrupt, the return from it, sti and cli. *)
Inductive act : Type :=
  | Tick (i : nat)
  | CallAcquire (i l : nat)
  | CallRelease (i l : nat)
  | CallPushcli (i : nat)
  | CallPopcli (i : nat)
  | Interrupt (i : nat)
  | Iret (i : nat)
  | Sti (i : nat)
  | Cli (i : nat).

Definition act_cpu (a : act) : nat :=
  match a with
  | Tick i | CallAcquire i _ | CallRelease i _ | CallPushcli i | CallPopcli i | Interrupt i | Iret i | Sti i | Cli i => i
  end.

Definition set_cpu (i : nat) (c : scpu) (m : machine) : machine := m <| m_cpus ::= <[i := c]> |>.

Definition call (p : pc) (c : scpu) : option scpu := if decide (c_pc c = Out) then Some (goto p c) else None.

(** The processor's own part of everything but a tick. *)
Definition local_act (a : act) (c : scpu) : option scpu :=
  match a with
  | Tick _ => None
  | CallAcquire _ l => call (Pushcli (Acquire l)) c
  | CallRelease _ l => call (RelLocked l) c
  | CallPushcli _ => call (Pushcli Ret) c
  | CallPopcli _ => call (Popcli true) c
  | Interrupt _ =>
      if c_if c && bool_decide (c_pc c <> Panicked)
      then Some (goto Out (c <| c_stack := c_pc c :: c_stack c |> <| c_if := false |>)) else None
  | Iret _ =>
      match c_stack c with
      | p :: st => if decide (c_pc c = Out) then Some (goto p (c <| c_stack := st |> <| c_if := true |>)) else None
      | [] => None
      end
  | Sti _ => if decide (c_pc c = Out) then Some (c <| c_if := true |>) else None
  | Cli _ => if decide (c_pc c = Out) then Some (c <| c_if := false |>) else None
  end.

Definition perform (a : act) (m : machine) : option machine :=
  let i := act_cpu a in
  c ← m_cpus m !! i;
  match a with
  | Tick _ =>
      match pc_lock (c_pc c) with
      | Some l =>
          k ← m_locks m !! l;
          let '(c', k') := lock_step i c k in
          Some (set_cpu i c' m <| m_locks ::= <[l := k']> |>)
      | None => Some (set_cpu i (cli_step c) m)
      end
  | _ => c' ← local_act a c; Some (set_cpu i c' m)
  end.

(** [initlock], and processors with interrupts off. *)
Definition free_lock : slock := mk_slock 0 None.
Definition fresh_cpu : scpu := mk_scpu false 0 false Out [] 0.
Definition boot (locks cpus : nat) : machine := mk_machine (replicate locks free_lock) (replicate cpus fresh_cpu).

Fixpoint performs (l : list act) (m : machine) : option machine :=
  match l with
  | [] => Some m
  | a :: l' => m' ← perform a m; performs l' m'
  end.

(** The rules for the callers: a processor acquires a lock it does not own,
    releases one it owns, calls [popcli] after a [pushcli], and returns from an
    interrupt or enables interrupts only with everything released. *)
Definition owns (i l : nat) (m : machine) : bool := bool_decide ((m_locks m !! l) ≫= lk_cpu = Some i).

Definition ncli_of (i : nat) (m : machine) : Z := default 0 (c_ncli <$> m_cpus m !! i).

Definition disciplined (a : act) (m : machine) : bool :=
  match a with
  | CallAcquire i l => (l <? length (m_locks m))%nat && negb (owns i l m)
  | CallRelease i l => owns i l m
  | CallPopcli i => 0 <? default 0 (c_push <$> m_cpus m !! i)
  | Iret i | Sti i => ncli_of i m =? 0
  | _ => true
  end.

Fixpoint all_disciplined (l : list act) (m : machine) : bool :=
  match l with
  | [] => true
  | a :: l' => disciplined a m && match perform a m with Some m' => all_disciplined l' m' | None => true end
  end.

(** The processor is between the exchange that got the lock and the store that
    gives it up. *)
Definition inside (m : machine) (i l : nat) : Prop :=
  (exists k, m_locks m !! l = Some k /\ lk_cpu k = Some i) \/
  (exists c, m_cpus m !! i = Some c /\ (c_pc c = AcqOwn l \/ c_pc c = RelUnlock l)).

(** ** Mutual exclusion *)

(** The places where interrupts are off whatever the callers do. *)
Definition crit (p : pc) : bool :=
  match p with
  | PushcliIntena _ _ | PushcliCount _ | AcqLocked _ | AcqCpu _ | AcqXchg _ | AcqOwn _ | RelDisown _ | RelUnlock _ => true
  | _ => false
  end.

Definition claim (p : pc) (l : nat) : Prop := p = AcqOwn l \/ p = RelUnlock l.

Record safe (m : machine) : Prop := mk_safe {
  sf_if : forall i c, m_cpus m !! i = Some c -> crit (c_pc c) = true -> c_if c = false;
  sf_stack : forall i c, m_cpus m !! i = Some c -> Forall (fun p => crit p = false) (c_stack c);
  sf_free : forall l k, m_locks m !! l = Some k -> locked k = 0 -> forall i, ~ inside m i l;
  sf_one : forall i j l, inside m i l -> inside m j l -> i = j;
  sf_own : forall i c l, m_cpus m !! i = Some c -> c_pc c = RelDisown l -> exists k, m_locks m !! l = Some k /\ lk_cpu k = Some i;
  sf_none : forall i c l k, m_cpus m !! i = Some c -> c_pc c = RelUnlock l -> m_locks m !! l = Some k -> lk_cpu k = None
}.

Definition upd (i : nat) (c : scpu) (l : nat) (k : slock) (m : machine) : machine := set_cpu i c m <| m_locks ::= <[l := k]> |>.

Lemma inside_upd (m : machine) (i l : nat) (c : scpu) (k : slock) (j x : nat) : inside (upd i c l k m) j x ->
  (x = l /\ lk_cpu k = Some j) \/ (x <> l /\ exists k0, m_locks m !! x = Some k0 /\ lk_cpu k0 = Some j) \/
  (j = i /\ claim (c_pc c) x) \/ (j <> i /\ exists c0, m_cpus m !! j = Some c0 /\ claim (c_pc c0) x).
Proof.
  intros [(k0 & Hk & Hj)|(c0 & Hc & Hj)]; cbn in *.
  - apply list_lookup_insert_Some in Hk as [(<- & <- & _)|[Hne Hk]]; eauto 8.
  - apply list_lookup_insert_Some in Hc as [(<- & <- & _)|[Hne Hc]]; [auto|]. right. right. right. split; [congruence|eauto].
Qed.

(** A step after which the processor claims no lock more than before. *)
Lemma safe_local (m : machine) (i : nat) (c : scpu) : safe m ->
  (crit (c_pc c) = true -> c_if c = false) -> Forall (fun p => crit p = false) (c_stack c) ->
  (forall l, c_pc c <> AcqOwn l /\ c_pc c <> RelUnlock l) ->
  (forall l, c_pc c = RelDisown l -> exists k, m_locks m !! l = Some k /\ lk_cpu k = Some i) ->
  safe (set_cpu i c m).
Proof.
  intros [If St Fr One Own No] Hif Hst Hcl Hown.
  assert (Hin : forall j x, inside (set_cpu i c m) j x -> inside m j x).
  { intros j x [H|(c0 & Hc & Hj)]; [left; exact H|]. cbn in Hc. apply list_lookup_insert_Some in Hc as [(<- & <- & _)|[_ Hc]].
    - destruct (Hcl x), Hj; contradiction.
    - right. eauto. }
  assert (Hc : forall j c0, m_cpus (set_cpu i c m) !! j = Some c0 -> (j = i /\ c0 = c) \/ m_cpus m !! j = Some c0).
  { intros j c0 H. cbn in H. apply list_lookup_insert_Some in H as [(-> & <- & _)|[_ H]]; auto. }
  constructor.
  - intros j c0 H. apply Hc in H as [[-> ->]|H]; eauto.
  - intros j c0 H. apply Hc in H as [[-> ->]|H]; eauto.
  - intros l k Hk Hz j Hj. apply (Fr l k Hk Hz j), Hin, Hj.
  - intros j1 j2 l H1 H2. apply (One j1 j2 l); apply Hin; assumption.
  - intros j c0 l H. apply Hc in H as [[-> ->]|H]; [apply Hown|apply (Own j c0 l H)].
  - intros j c0 l k H Hp. apply Hc in H as [[-> ->]|H]; [destruct (Hcl l); contradiction|apply (No j c0 l k H Hp)].
Qed.

Section LockStep.
Context (m : machine) (i l : nat) (c : scpu) (k : slock).
Hypothesis Hs : safe m.
Hypothesis Hc : m_cpus m !! i = Some c.
Hypothesis Hk : m_locks m !! l = Some k.

Lemma other_claim (j x : nat) (c0 : scpu) : m_cpus m !! j = Some c0 -> claim (c_pc c0) x -> inside m j x.
Proof. intros H1 H2. right. eauto. Qed.

Lemma other_owner (x : nat) (k0 : slock) (j : nat) : m_locks m !! x = Some k0 -> lk_cpu k0 = Some j -> inside m j x.
Proof. intros H1 H2. left. eauto. Qed.

(** A step that changes the lock: what is left to show about the processor and
    the lock themselves. *)
Lemma safe_upd (c' : scpu) (k' : slock) :
  (crit (c_pc c') = true -> c_if c' = false) -> c_stack c' = c_stack c ->
  (forall x, claim (c_pc c') x -> x = l) -> (forall x, c_pc c' <> RelDisown x) ->
  (forall j, lk_cpu k' = Some j -> lk_cpu k = Some j \/ j = i) ->
  (forall j, j <> i -> lk_cpu k = Some j -> lk_cpu k' = Some j) ->
  (lk_cpu k' = Some i \/ claim (c_pc c') l -> locked k = 0 \/ inside m i l) ->
  (locked k' = 0 -> lk_cpu k' = None /\ ~ claim (c_pc c') l /\ inside m i l) ->
  (c_pc c' = RelUnlock l -> lk_cpu k' = None) ->
  safe (upd i c' l k' m).
Proof.
  intros Hif Hst Hcl Hnd Ha Hc' Hb Hd He. destruct Hs as [If St Fr One Own No].
  assert (Hnew : lk_cpu k' = Some i \/ claim (c_pc c') l -> forall j, inside m j l -> j = i).
  { intros H j Hj. destruct (Hb H) as [Hz|Hi]; [destruct (Fr l k Hk Hz j Hj)|apply (One j i l Hj Hi)]. }
  assert (Hin : forall j x, inside (upd i c' l k' m) j x -> inside m j x \/ (x = l /\ j = i /\ (lk_cpu k' = Some i \/ claim (c_pc c') l))).
  { intros j x [[-> H]|[[Hne (k0 & H1 & H2)]|[[-> H]|[Hne (c0 & H1 & H2)]]]]%inside_upd.
    - destruct (Ha j H) as [H'| ->]; [left; apply (other_owner l k j Hk H')|right; auto].
    - left. apply (other_owner x k0 j); assumption.
    - pose proof (Hcl x H) as ->. right. auto.
    - left. apply (other_claim j x c0); assumption. }
  assert (Hcpu : forall j c0, m_cpus (upd i c' l k' m) !! j = Some c0 -> (j = i /\ c0 = c') \/ (j <> i /\ m_cpus m !! j = Some c0)).
  { intros j c0 H. cbn in H. apply list_lookup_insert_Some in H as [(-> & <- & _)|[Hne H]]; auto. }
  assert (Hlock : forall x k0, m_locks (upd i c' l k' m) !! x = Some k0 -> (x = l /\ k0 = k') \/ (x <> l /\ m_locks m !! x = Some k0)).
  { intros x k0 H. cbn in H. apply list_lookup_insert_Some in H as [(-> & <- & _)|[Hne H]]; auto. }
  constructor.
  - intros j c0 H. apply Hcpu in H as [[-> ->]|[_ H]]; eauto.
  - intros j c0 H. apply Hcpu in H as [[-> ->]|[_ H]]; [rewrite Hst|]; eauto.
  - intros x k0 Hx Hz j Hj. apply Hlock in Hx as [[-> ->]|[Hne Hx]].
    + destruct (Hd Hz) as (H1 & H2 & H3). pose proof Hj as Hj'. apply inside_upd in Hj' as [[_ H]|[[Hne _]|[[-> H]|[Hne (c0 & H & H')]]]]; [congruence|contradiction|contradiction|].
      apply Hne, (One j i l); [apply (other_claim j l c0); assumption|exact H3].
    + destruct (Hin j x Hj) as [H|(-> & _)]; [apply (Fr x k0 Hx Hz j H)|contradiction].
  - intros j1 j2 x H1 H2. destruct (Hin _ _ H1) as [I1|(-> & -> & N1)], (Hin _ _ H2) as [I2|(E & -> & N2)]; try reflexivity.
    + apply (One j1 j2 x I1 I2).
    + subst x. apply (Hnew N2 j1 I1).
    + symmetry. apply (Hnew N1 j2 I2).
  - intros j c0 x H Hp. apply Hcpu in H as [[-> ->]|[Hne H]]; [destruct (Hnd x Hp)|]. destruct (Own j c0 x H Hp) as (k0 & Hk0 & Ho).
    destruct (decide (x = l)) as [->|Hx].
    + exists k'. split; [cbn; apply list_lookup_insert_eq, (lookup_lt_Some _ _ _ Hk)|]. apply Hc'; [exact Hne|congruence].
    + exists k0. split; [cbn; rewrite list_lookup_insert_ne by congruence; exact Hk0|exact Ho].
  - intros j c0 x k0 H Hp Hx. apply Hcpu in H as [[-> ->]|[Hne H]].
    + pose proof (Hcl x (or_intror Hp)) as ->. apply Hlock in Hx as [[_ ->]|[Hne _]]; [apply He, Hp|contradiction].
    + apply Hlock in Hx as [[-> ->]|[Hx' Hx]]; [|apply (No j c0 x k0 H Hp Hx)].
      destruct (lk_cpu k') as [j'|] eqn:E; [|reflexivity]. pose proof (No j c0 l k H Hp Hk) as Hn.
      destruct (Ha j' eq_refl) as [Hk'| ->]; [congruence|]. destruct Hne. apply Hnew; [auto|]. apply (other_claim j l c0 H). right. exact Hp.
Qed.
End LockStep.

Lemma upd_same (m : machine) (i l : nat) (c : scpu) (k : slock) : m_locks m !! l = Some k -> upd i c l k m = set_cpu i c m.
Proof. intros H. destruct m as [ls cs]. change (mk_machine (<[l := k]> ls) (<[i := c]> cs) = mk_machine ls (<[i := c]> cs)). rewrite list_insert_id by exact H. reflexivity. Qed.

(** A processor that is where no lock is claimed. *)
Ltac no_claim := cbn; intros; try discriminate; try (split; discriminate); try assumption; try reflexivity.

Lemma cli_step_safe (m : machine) (i : nat) (c : scpu) : safe m -> m_cpus m !! i = Some c -> pc_lock (c_pc c) = None ->
  safe (set_cpu i (cli_step c) m).
Proof.
  intros H Hc Hp. pose proof (sf_if m H i c Hc) as Hif. pose proof (sf_stack m H i c Hc) as Hst.
  destruct c as [f n e p st u]. cbn in *. destruct p as [|k|b k|b k|[|l]| | | | | | | | |own|own| |]; try discriminate; unfold cli_step, goto; cbn;
    repeat match goal with |- context [if ?b then _ else _] => destruct b eqn:? end; apply safe_local; auto; no_claim; auto.
Qed.

Lemma lock_step_safe (m : machine) (i l : nat) (c : scpu) (k : slock) : safe m -> m_cpus m !! i = Some c ->
  m_locks m !! l = Some k -> pc_lock (c_pc c) = Some l -> safe (upd i (lock_step i c k).1 l (lock_step i c k).2 m).
Proof.
  intros H Hc Hk Hp. pose proof (sf_if m H i c Hc) as Hif. pose proof (sf_stack m H i c Hc) as Hst.
  destruct c as [f n e p st u]. cbn in Hp, Hif, Hst.
  destruct p; try discriminate; injection Hp as ->; unfold lock_step, goto; cbn [c_pc].
  - destruct (_ =? 0); cbn [fst snd]; rewrite (upd_same _ _ _ _ _ Hk); apply safe_local; auto; no_claim.
  - destruct f; cbn; [|destruct (decide _)]; rewrite (upd_same _ _ _ _ _ Hk); apply safe_local; auto; no_claim.
  - (* xchg *)
    destruct (Z.eqb_spec (locked k) 0) as [Hz|Hz]; apply (safe_upd m i l _ k H Hc Hk); auto; no_claim; auto.
    + destruct H0; congruence.
    + destruct H0; discriminate.
    + destruct H0 as [H0|H0]; [|destruct H0; discriminate]. right. left. eauto.
  - (* lk->cpu = mycpu() *)
    assert (Hi : inside m i l) by (right; eexists; split; [exact Hc|left; reflexivity]).
    apply (safe_upd m i l _ k H Hc Hk); auto; no_claim; auto.
    + destruct H0; discriminate.
    + right. congruence.
    + exfalso. apply H0, (sf_one m H j i l); [left; eauto|exact Hi].
    + destruct (sf_free m H l k Hk H0 i Hi).
  - destruct (_ =? 0); cbn [fst snd]; rewrite (upd_same _ _ _ _ _ Hk); apply safe_local; auto; no_claim.
  - destruct f; cbn; [|destruct (decide _)]; rewrite (upd_same _ _ _ _ _ Hk); apply safe_local; auto; no_claim. eexists. split; [|eassumption]. congruence.
  - (* lk->cpu = 0 *)
    destruct (sf_own m H i _ l Hc eq_refl) as (k0 & Hk0 & Ho). assert (k0 = k) as -> by congruence.
    assert (Hi : inside m i l) by (left; eauto).
    apply (safe_upd m i l _ k H Hc Hk); auto; no_claim; auto.
    + destruct H0; congruence.
    + congruence.
    + destruct (sf_free m H l k Hk H0 i Hi).
  - (* movl $0, lk->locked *)
    assert (Hi : inside m i l) by (right; eexists; split; [exact Hc|right; reflexivity]).
    pose proof (sf_none m H i _ l k Hc eq_refl Hk) as Hn.
    apply (safe_upd m i l _ k H Hc Hk); auto; no_claim; auto.
    + destruct H0; discriminate.
    + split_and!; [exact Hn|intros [?|?]; discriminate|exact Hi].
Qed.

Lemma call_inv (p : pc) (c c' : scpu) : call p c = Some c' -> c_pc c = Out /\ c' = goto p c.
Proof. unfold call. destruct (decide (c_pc c = Out)); [|discriminate]. intros [= <-]. auto. Qed.

Lemma local_act_safe (a : act) (m : machine) (c c' : scpu) : safe m -> m_cpus m !! act_cpu a = Some c -> local_act a c = Some c' ->
  safe (set_cpu (act_cpu a) c' m).
Proof.
  intros H Hc E. pose proof (sf_if m H _ c Hc) as Hif. pose proof (sf_stack m H _ c Hc) as Hst.
  destruct a; cbn [local_act act_cpu] in *; try discriminate; try (apply call_inv in E as [Ep ->]; apply safe_local; auto; no_claim).
  - destruct (c_if c) eqn:Ei; [|discriminate]. cbn in E. destruct (bool_decide _); [|discriminate]. injection E as <-.
    apply safe_local; auto; no_claim. constructor; [|exact Hst]. destruct (crit (c_pc c)); [discriminate (Hif eq_refl)|reflexivity].
  - destruct (c_stack c) as [|p st]; [discriminate|]. apply Forall_cons in Hst as [Hp Hst]. destruct (decide _); [|discriminate]. injection E as <-.
    apply safe_local; auto; cbn.
    + congruence.
    + intros l. split; intros ->; discriminate.
    + intros l ->. discriminate.
  - destruct (decide (c_pc c = Out)) as [Ep|]; [|discriminate]. injection E as <-. apply safe_local; auto; cbn; rewrite Ep; no_claim.
  - destruct (decide (c_pc c = Out)) as [Ep|]; [|discriminate]. injection E as <-. apply safe_local; auto; cbn; rewrite Ep; no_claim.
Qed.

(** The outcomes of an action. *)
Lemma perform_inv (a : act) (m m' : machine) : perform a m = Some m' -> exists c, m_cpus m !! act_cpu a = Some c /\
  ((exists c', local_act a c = Some c' /\ m' = set_cpu (act_cpu a) c' m) \/
   (a = Tick (act_cpu a) /\ pc_lock (c_pc c) = None /\ m' = set_cpu (act_cpu a) (cli_step c) m) \/
   (a = Tick (act_cpu a) /\ exists l k, pc_lock (c_pc c) = Some l /\ m_locks m !! l = Some k /\
      m' = upd (act_cpu a) (lock_step (act_cpu a) c k).1 l (lock_step (act_cpu a) c k).2 m)).
Proof.
  unfold perform. destruct (m_cpus m !! act_cpu a) as [c|] eqn:Hc; [|discriminate]. cbn [mbind option_bind]. intros E. exists c. split; [reflexivity|].
  assert (Hl : forall o : option scpu, (c' ← o; Some (set_cpu (act_cpu a) c' m)) = Some m' -> exists c', o = Some c' /\ m' = set_cpu (act_cpu a) c' m).
  { intros [c'|] Eo; [|discriminate]. injection Eo as <-. eauto. }
  destruct a; try (left; apply Hl, E). right. cbn [act_cpu] in *. destruct (pc_lock (c_pc c)) as [l|]; [right|left; injection E as <-; auto].
  split; [reflexivity|]. destruct (m_locks m !! l) as [k|] eqn:Hk; [|discriminate]. cbn [mbind option_bind] in E. exists l, k.
  destruct (lock_step i c k) as [c' k']. injection E as <-. auto.
Qed.

Lemma perform_safe (a : act) (m m' : machine) : safe m -> perform a m = Some m' -> safe m'.
Proof.
  intros H (c & Hc & [(c' & E & ->)|[(_ & Hp & ->)|(_ & l & k & Hp & Hk & ->)]])%perform_inv.
  - apply (local_act_safe a m c); assumption.
  - apply cli_step_safe; assumption.
  - apply lock_step_safe; assumption.
Qed.

Lemma boot_safe (locks cpus : nat) : safe (boot locks cpus).
Proof.
  assert (Hc : forall i c, m_cpus (boot locks cpus) !! i = Some c -> c = fresh_cpu) by (intros i c [-> _]%lookup_replicate; reflexivity).
  assert (Hk : forall l k, m_locks (boot locks cpus) !! l = Some k -> k = free_lock) by (intros l k [-> _]%lookup_replicate; reflexivity).
  assert (Hn : forall i l, ~ inside (boot locks cpus) i l).
  { intros i l [(k & H1 & H2)|(c & H1 & H2)]; [rewrite (Hk _ _ H1) in H2; discriminate|rewrite (Hc _ _ H1) in H2; destruct H2; discriminate]. }
  constructor.
  - intros i c H. rewrite (Hc i c H). discriminate.
  - intros i c H. rewrite (Hc i c H). constructor.
  - intros l k _ _ i. apply Hn.
  - intros i j l H. destruct (Hn i l H).
  - intros i c l H. rewrite (Hc i c H). discriminate.
  - intros i c l k H. rewrite (Hc i c H). discriminate.
Qed.

(** ** Callers that keep the rules *)

Definition mine (i : nat) (k : slock) : bool := bool_decide (lk_cpu k = Some i).
Fixpoint count (i : nat) (ls : list slock) : Z := match ls with [] => 0 | k :: ls' => Z.b2z (mine i k) + count i ls' end.
Definition mine_at (i l : nat) (ls : list slock) : bool := bool_decide (ls !! l ≫= lk_cpu = Some i).

Lemma count_nonneg (i : nat) (ls : list slock) : 0 <= count i ls.
Proof. induction ls as [|k ls IH]; cbn; [lia|]. destruct (mine i k); cbn; lia. Qed.

Lemma count_insert (i l : nat) (ls : list slock) (k k' : slock) : ls !! l = Some k ->
  count i (<[l := k']> ls) = count i ls - Z.b2z (mine i k) + Z.b2z (mine i k').
Proof.
  revert l. induction ls as [|k0 ls IH]; intros [|l] H; try discriminate; cbn in H; [injection H as ->; cbn; lia|].
  change (<[S l := k']> (k0 :: ls)) with (k0 :: <[l := k']> ls). cbn [count]. rewrite (IH l H). lia.
Qed.

Lemma mine_lookup (i l : nat) (ls : list slock) (k : slock) : ls !! l = Some k -> mine_at i l ls = mine i k.
Proof. intros H. unfold mine_at, mine. rewrite H. reflexivity. Qed.

Lemma count_mine (i l : nat) (ls : list slock) : mine_at i l ls = true -> 1 <= count i ls.
Proof.
  intros H. destruct (ls !! l) as [k|] eqn:E; [|unfold mine_at in H; rewrite E in H; discriminate]. rewrite (mine_lookup _ _ _ _ E) in H.
  pose proof (count_insert i l ls k free_lock E) as Hc. pose proof (count_nonneg i (<[l := free_lock]> ls)).
  assert (mine i free_lock = false) as Hf by (apply bool_decide_eq_false_2; discriminate). rewrite H, Hf in Hc. cbn in Hc. lia.
Qed.

(** A call of [pushcli] whose [ncli] the lock does not account for yet, or the
    other way round in [release]. *)
Definition extra (p : pc) : Z :=
  match p with
  | AcqLocked _ | AcqCpu _ | AcqXchg _ | AcqOwn _ | RelUnlock _ | Popcli false | PopcliCount false => 1
  | _ => 0
  end.

Definition pc_ok (ls : list slock) (i : nat) (c : scpu) : Prop :=
  match c_pc c with
  | Pushcli (Acquire l) | PushcliCli _ (Acquire l) | PushcliIntena _ (Acquire l) | PushcliCount (Acquire l)
  | AcqLocked l | AcqCpu l | AcqXchg l | AcqOwn l => mine_at i l ls = false
  | RelLocked l | RelCpu l => mine_at i l ls = true
  | Popcli true | PopcliCount true => 1 <= c_push c
  | PopcliSti => c_if c = false
  | Panicked => False
  | _ => True
  end.

(** Where an interrupt finds a processor. *)
Definition resumable (p : pc) : bool := match p with Out | Pushcli _ | PushcliCli _ _ => true | _ => false end.

Record good (ls : list slock) (i : nat) (c : scpu) : Prop := mk_good {
  gd_count : c_ncli c = count i ls + c_push c + extra (c_pc c);
  gd_push : 0 <= c_push c;
  gd_if : 0 < c_ncli c -> c_if c = false;
  gd_pc : pc_ok ls i c;
  gd_stack : Forall (fun p => resumable p = true) (c_stack c)
}.

Lemma good_other (ls : list slock) (i l : nat) (k k' : slock) (c : scpu) : ls !! l = Some k -> mine i k' = mine i k ->
  good ls i c -> good (<[l := k']> ls) i c.
Proof.
  intros Hk Hm [Hc Hp Hi Ho Hs].
  assert (Hat : forall x, mine_at i x (<[l := k']> ls) = mine_at i x ls).
  { intros x. destruct (decide (x = l)) as [->|Hx]; [|unfold mine_at; rewrite list_lookup_insert_ne by congruence; reflexivity].
    rewrite (mine_lookup i l ls k Hk), (mine_lookup i l _ k'); [exact Hm|]. apply list_lookup_insert_eq, (lookup_lt_Some _ _ _ Hk). }
  constructor; try assumption.
  - rewrite (count_insert i l ls k k' Hk), Hm. lia.
  - unfold pc_ok in *. destruct (c_pc c) as [|[|]|? [|]|? [|]|[|]| | | | | | | | | | | |]; rewrite ?Hat; assumption.
Qed.

Definition all_good (m : machine) : Prop := forall i c, m_cpus m !! i = Some c -> good (m_locks m) i c.

Lemma cli_step_good (ls : list slock) (i : nat) (c : scpu) : good ls i c -> (crit (c_pc c) = true -> c_if c = false) ->
  pc_lock (c_pc c) = None -> good ls i (cli_step c).
Proof.
  intros [Hc Hp Hi Ho Hs] Hcrit Hl. pose proof (count_nonneg i ls) as Hn. destruct c as [f n e p st u]. unfold pc_ok in Ho. cbn in *.
  destruct p as [|[|l]|b [|l]|b [|l]|[|l]| | | | | | | | |[|]|[|]| |]; try discriminate; unfold cli_step, goto; cbn;
    repeat match goal with |- context [if ?b then _ else _] => destruct b eqn:? end;
    constructor; unfold pc_ok; cbn in *; try assumption; try reflexivity; try lia; auto.
  all: intros; first [apply Hi; lia|match goal with H : (_ <? _) = true |- _ => apply Z.ltb_lt in H; lia end].
Qed.

Lemma mine_true (i : nat) (k : slock) : lk_cpu k = Some i -> mine i k = true.
Proof. apply bool_decide_eq_true_2. Qed.
Lemma mine_false (i : nat) (k : slock) : lk_cpu k <> Some i -> mine i k = false.
Proof. apply bool_decide_eq_false_2. Qed.

Lemma lock_step_good (m : machine) (i l : nat) (c : scpu) (k : slock) : safe m -> m_cpus m !! i = Some c -> m_locks m !! l = Some k ->
  pc_lock (c_pc c) = Some l -> good (m_locks m) i c ->
  good (<[l := (lock_step i c k).2]> (m_locks m)) i (lock_step i c k).1 /\
  forall j, j <> i -> mine j (lock_step i c k).2 = mine j k.
Proof.
  intros Hsf Hc Hk Hl [Hn Hp Hi Ho Hs]. pose proof (sf_if m Hsf i c Hc) as Hif. pose proof (count_nonneg i (m_locks m)) as Hcn.
  pose proof (count_mine i l (m_locks m)) as Hcm. pose proof (mine_lookup i l _ _ Hk) as Hml.
  pose proof (fun k' => count_insert i l (m_locks m) k k' Hk) as Hci.
  destruct c as [f n e p st u]. unfold pc_ok in Ho. cbn in Hl, Hif, Hn, Hp, Hi, Ho, Hs.
  destruct p; try discriminate; injection Hl as ->; unfold lock_step, goto; cbn [c_pc]; cbn [extra] in Hn.
  - rewrite list_insert_id by (destruct (locked k =? 0); exact Hk). split; [|destruct (locked k =? 0); reflexivity].
    destruct (locked k =? 0); constructor; cbn; assumption.
  - rewrite (Hif eq_refl) in *. cbn [c_if]. rewrite Hml in Ho. unfold mine in Ho. rewrite bool_decide_eq_false in Ho.
    destruct (decide (lk_cpu k = Some i)) as [|_]; [contradiction|]. cbn. rewrite list_insert_id by exact Hk. split; [|reflexivity].
    constructor; try assumption. unfold pc_ok. cbn. rewrite Hml. apply mine_false, Ho.
  - split; [|destruct (locked k =? 0); reflexivity].
    apply (good_other (m_locks m) i l k); [exact Hk|destruct (locked k =? 0); reflexivity|]. destruct (locked k =? 0); constructor; cbn; auto.
  - assert (Hi' : inside m i l) by (right; eexists; split; [exact Hc|left; reflexivity]).
    assert (Hno : forall j, j <> i -> lk_cpu k <> Some j) by (intros j Hj E; apply Hj, (sf_one m Hsf j i l); [left; eauto|exact Hi']).
    cbn [fst snd]. split.
    + rewrite Hml in Ho. constructor; cbn; auto. rewrite Hci, Ho, mine_true by reflexivity. cbn. lia.
    + intros j Hj. rewrite !mine_false; [reflexivity|apply Hno, Hj|cbn; congruence].
  - assert (Hz : locked k <> 0).
    { intros Hz. apply (sf_free m Hsf l k Hk Hz i). left. exists k. split; [exact Hk|]. rewrite Hml in Ho. apply bool_decide_eq_true in Ho. exact Ho. }
    destruct (Z.eqb_spec (locked k) 0) as [|_]; [contradiction|]. cbn. rewrite list_insert_id by exact Hk. split; [|reflexivity]. constructor; assumption.
  - assert (f = false) as -> by (apply Hi; specialize (Hcm Ho); lia). cbn [c_if]. rewrite Hml in Ho. apply bool_decide_eq_true in Ho.
    destruct (decide (lk_cpu k = Some i)) as [_|]; [|contradiction]. cbn. rewrite list_insert_id by exact Hk. split; [|reflexivity]. constructor; cbn; auto.
  - destruct (sf_own m Hsf i _ l Hc eq_refl) as (k0 & Hk0 & Hown). assert (k0 = k) as -> by congruence. cbn [fst snd]. split.
    + constructor; cbn; auto. rewrite Hci, (mine_true i k Hown), mine_false by discriminate. cbn. lia.
    + intros j Hj. rewrite !mine_false; [reflexivity|congruence|discriminate].
  - pose proof (sf_none m Hsf i _ l k Hc eq_refl Hk) as Hnone. cbn [fst snd]. split; [|reflexivity].
    apply (good_other (m_locks m) i l k); [exact Hk|reflexivity|]. constructor; cbn; auto.
Qed.

Lemma local_act_good (a : act) (m : machine) (c c' : scpu) : all_good m -> safe m -> m_cpus m !! act_cpu a = Some c ->
  disciplined a m = true -> local_act a c = Some c' -> good (m_locks m) (act_cpu a) c'.
Proof.
  intros Hg Hsf Hc Hd E. destruct (Hg _ _ Hc) as [Hn Hp Hi Ho Hs]. pose proof (count_nonneg (act_cpu a) (m_locks m)) as Hcn.
  pose proof (fun l => count_mine (act_cpu a) l (m_locks m)) as Hcm. pose proof (sf_if m Hsf _ _ Hc) as Hif.
  destruct a as [i|i l|i l|i|i|i|i|i|i]; cbn [local_act act_cpu disciplined] in *; try discriminate;
    try (apply call_inv in E as [Ep ->]; rewrite Ep in Hn; cbn in Hn; constructor; cbn; auto; unfold pc_ok; cbn).
  - apply andb_true_iff in Hd as [_ Hd]. apply negb_true_iff in Hd. exact Hd.
  - rewrite Hc in Hd. apply Z.ltb_lt in Hd. cbn in Hd. lia.
  - destruct (c_if c) eqn:Ei; [|discriminate]. cbn in E. destruct (bool_decide _); [|discriminate]. injection E as <-.
    assert (Hz : c_ncli c <= 0) by (destruct (Z.ltb_spec 0 (c_ncli c)); [discriminate (Hi ltac:(assumption))|assumption]).
    assert (Hr : resumable (c_pc c) = true /\ extra (c_pc c) = 0).
    { unfold pc_ok in Ho. destruct (c_pc c) as [| | | | | | | | |l|l|l| |[|]|[|]| |] eqn:Ep; cbn in *; try (split; reflexivity); exfalso;
        try (discriminate (Hif eq_refl)); try lia; try congruence; specialize (Hcm l Ho); lia. }
    destruct Hr as [Hr He]. constructor; cbn; auto. lia.
  - destruct (c_stack c) as [|p st]; [discriminate|]. apply Forall_cons in Hs as [Hr Hs]. destruct (decide (c_pc c = Out)) as [Ep|]; [|discriminate].
    injection E as <-. unfold ncli_of in Hd. rewrite Hc in Hd. apply Z.eqb_eq in Hd. cbn in Hd. rewrite Ep in Hn. cbn in Hn.
    assert (Hnone : forall l, mine_at i l (m_locks m) = false).
    { intros l. destruct (mine_at i l (m_locks m)) eqn:E; [|reflexivity]. specialize (Hcm l E). lia. }
    constructor; cbn; auto.
    + destruct p; try discriminate; cbn; lia.
    + lia.
    + unfold pc_ok. cbn. destruct p as [|[|]|? [|]| | | | | | | | | | | | | |]; try discriminate; auto.
  - destruct (decide (c_pc c = Out)) as [Ep|]; [|discriminate]. injection E as <-. unfold ncli_of in Hd. rewrite Hc in Hd. apply Z.eqb_eq in Hd. cbn in Hd.
    constructor; cbn; auto; [lia|]. unfold pc_ok in *. cbn. rewrite Ep. exact I.
  - destruct (decide (c_pc c = Out)) as [Ep|]; [|discriminate]. injection E as <-. constructor; cbn; auto. unfold pc_ok in *. cbn. rewrite Ep. exact I.
Qed.

Lemma perform_good (a : act) (m m' : machine) : safe m -> all_good m -> disciplined a m = true -> perform a m = Some m' -> all_good m'.
Proof.
  intros Hsf Hg Hd (c & Hc & [(c' & E & ->)|[(_ & Hp & ->)|(_ & l & k & Hp & Hk & ->)]])%perform_inv j c0 Hj; cbn in Hj |- *;
    apply list_lookup_insert_Some in Hj as [(<- & <- & _)|[Hne Hj]].
  - apply (local_act_good a m c); assumption.
  - apply Hg, Hj.
  - apply cli_step_good; [apply Hg, Hc|apply (sf_if m Hsf _ _ Hc)|exact Hp].
  - apply Hg, Hj.
  - apply lock_step_good; auto.
  - apply (good_other _ _ _ k); [exact Hk| |apply Hg, Hj]. apply lock_step_good with (m := m) (l := l); auto.
Qed.

Lemma boot_good (locks cpus : nat) : all_good (boot locks cpus).
Proof.
  intros i c [-> _]%lookup_replicate. cbn [boot m_locks].
  assert (Hz : count i (replicate locks free_lock) = 0).
  { induction locks as [|n IH]; [reflexivity|]. cbn [replicate count]. rewrite IH, mine_false by discriminate. reflexivity. }
  constructor; cbn; auto; try lia.
Qed.

(** Mutual exclusion for any callers; for callers that keep the rules also that
    no processor panics and that the owner of a lock has interrupts off. *)
Definition exclusive (m : machine) : Prop :=
  (forall i j l, inside m i l -> inside m j l -> i = j) /\
  (forall i l k, inside m i l -> m_locks m !! l = Some k -> locked k <> 0).

Definition undisturbed (m : machine) : Prop :=
  (forall i c, m_cpus m !! i = Some c -> c_pc c <> Panicked) /\
  (forall i c l, m_cpus m !! i = Some c -> inside m i l -> c_if c = false).

Lemma good_undisturbed (m : machine) : safe m -> all_good m -> undisturbed m.
Proof.
  intros Hsf Hg. split.
  - intros i c Hc E. pose proof (gd_pc _ _ _ (Hg i c Hc)) as H. unfold pc_ok in H. rewrite E in H. exact H.
  - intros i c l Hc [(k & Hk & Hi)|(c0 & Hc0 & Hp)].
    + destruct (Hg i c Hc) as [Hn Hp Hif Ho _]. apply Hif. pose proof (count_mine i l (m_locks m)) as Hm.
      rewrite (mine_lookup _ _ _ _ Hk), (mine_true i k Hi) in Hm. specialize (Hm eq_refl).
      assert (0 <= extra (c_pc c)) by (destruct (c_pc c) as [| | | | | | | | | | | | |[|]|[|]| |]; cbn; lia). lia.
    + assert (c0 = c) as -> by congruence. apply (sf_if m Hsf i c Hc). destruct Hp as [-> | ->]; reflexivity.
Qed.

Lemma performs_safe (l : list act) : forall m m', safe m -> performs l m = Some m' ->
  safe m' /\ (all_good m -> all_disciplined l m = true -> all_good m').
Proof.
  induction l as [|a l IH]; intros m m' Hs E; cbn in E; [injection E as <-; auto|].
  destruct (perform a m) as [m1|] eqn:E1; [|discriminate]. pose proof (perform_safe a m m1 Hs E1) as Hs1.
  destruct (IH m1 m' Hs1 E) as [H1 H2]. split; [exact H1|]. intros Hg Hd. cbn in Hd. rewrite E1 in Hd. apply andb_true_iff in Hd as [Hd1 Hd2].
  apply H2; [|exact Hd2]. apply (perform_good a m); assumption.
Qed.

(** C4. Spin-locks on several processors, with interrupts at any step: whatever
    the callers do, at most one processor at a time is between the exchange that
    takes a lock and the store that frees it, and the lock word is set then; if
    the callers release only what they own and do not acquire it again, no
    processor panics, and one that owns a lock has interrupts off. *)
Theorem spinlock_excludes (locks cpus : nat) (l : list act) (m : machine) : performs l (boot locks cpus) = Some m ->
  exclusive m /\ (all_disciplined l (boot locks cpus) = true -> undisturbed m).
Proof.
  intros E. destruct (performs_safe l _ _ (boot_safe locks cpus) E) as [Hs Hg]. split.
  - split; [apply (sf_one m Hs)|]. intros i x k Hi Hk Hz. apply (sf_free m Hs x k Hk Hz i Hi).
  - intros Hd. apply good_undisturbed; [exact Hs|]. apply Hg; [apply boot_good|exact Hd].
Qed.

(** Processor 0 owns lock 1, after an interrupt in [pushcli], and processor 1
    spins on it. *)
Definition contention : list act :=
  [Sti 0; CallAcquire 0 1; Tick 0; Interrupt 0; CallAcquire 0 1] ++ replicate 8 (Tick 0) ++
  [CallRelease 0 1] ++ replicate 7 (Tick 0) ++ [Iret 0] ++ replicate 6 (Tick 0) ++ [CallAcquire 1 1] ++ replicate 9 (Tick 1).

Lemma spinlock_excludes_witness : exists m, performs contention (boot 2 2) = Some m /\ all_disciplined contention (boot 2 2) = true /\
  c_pc <$> m_cpus m = [Out; AcqXchg 1] /\ lk_cpu <$> m_locks m = [None; Some 0%nat] /\ exclusive m /\ undisturbed m.
Proof.
  eexists. split; [vm_compute; reflexivity|]. split; [vm_compute; reflexivity|]. split; [vm_compute; reflexivity|]. split; [vm_compute; reflexivity|].
  pose proof (spinlock_excludes 2 2 contention) as H. destruct (H _ ltac:(vm_compute; reflexivity)) as [H1 H2]. split; [exact H1|]. apply H2. vm_compute. reflexivity.
Defined.
