(* ===== verification/Kernel.v ===== *)
(** * The kernel's data

    The C structures of the kernel as records, and the global variables of
    all its files as one record, [kernel].  Pointers into a fixed-size table
    are indices into the list that models the table ([None] is the null
    pointer); a pointer to a page of memory is its kernel virtual address.
    Names are the field names of the source. *)

From S2P Require Import Prelude Params.

#[global] Set Primitive Projections.

(** ** Locks and sleep channels

    A sleep-lock is named by the structure that holds it, a spin-lock by the
    variable or the structure that holds it, a channel by the address the
    code passes to [sleep] and [wakeup]. *)

Inductive sleepid : Type :=
| SBuf (i : nat)
| SInode (i : nat).

Inductive lockid : Type :=
| ptable_lock
| tickslock
| kmem_lock
| ftable_lock
| icache_lock
| bcache_lock
| log_lock
| idelock
| cons_lock
| pipe_lock (p : Z)
| sleep_lk (l : sleepid).

Inductive chan : Type :=
| CProc (i : nat)
| CTicks
| CLog
| CBuf (i : nat)
| CSleep (l : sleepid)
| CPipeRead (p : Z)
| CPipeWrite (p : Z)
| CInput.

#[export] Instance sleepid_eq_dec : EqDecision sleepid.
Proof. solve_decision. Defined.
#[export] Instance lockid_eq_dec : EqDecision lockid.
Proof. solve_decision. Defined.
#[export] Instance chan_eq_dec : EqDecision chan.
Proof. solve_decision. Defined.

(** ** Processes (proc.h, x86.h) *)

Inductive procstate : Type :=
| UNUSED | EMBRYO | SLEEPING | RUNNABLE | RUNNING | ZOMBIE.

#[export] Instance procstate_eq_dec : EqDecision procstate.
Proof. solve_decision. Defined.

Record trapframe : Type := mk_trapframe {
  tf_edi : Z; tf_esi : Z; tf_ebp : Z; tf_oesp : Z;
  tf_ebx : Z; tf_edx : Z; tf_ecx : Z; tf_eax : Z;
  tf_gs : Z; tf_fs : Z; tf_es : Z; tf_ds : Z;
  tf_trapno : Z; tf_err : Z; tf_eip : Z; tf_cs : Z; tf_eflags : Z;
  tf_esp : Z; tf_ss : Z
}.

#[export] Instance trapframe_eta : Eta trapframe := fun r =>
  mk_trapframe (tf_edi r) (tf_esi r) (tf_ebp r) (tf_oesp r) (tf_ebx r) (tf_edx r)
    (tf_ecx r) (tf_eax r) (tf_gs r) (tf_fs r) (tf_es r) (tf_ds r) (tf_trapno r)
    (tf_err r) (tf_eip r) (tf_cs r) (tf_eflags r) (tf_esp r) (tf_ss r).

Definition trapframe0 : trapframe :=
  mk_trapframe 0 0 0 0 0 0 0 0 0 0 0 0 0 0 0 0 0 0 0.

Record context : Type := mk_context {
  cx_edi : Z; cx_esi : Z; cx_ebx : Z; cx_ebp : Z; cx_eip : Z
}.

#[export] Instance context_eta : Eta context := fun r =>
  mk_context (cx_edi r) (cx_esi r) (cx_ebx r) (cx_ebp r) (cx_eip r).

Definition context0 : context := mk_context 0 0 0 0 0.

Record proc : Type := mk_proc {
  sz : Z;
  pgdir : Z;
  kstack : Z;
  state : procstate;
  pid : Z;
  parent : option nat;
  tf : trapframe;
  cx : context;
  pchan : option chan;
  killed : Z;
  ofile : list (option nat);
  cwd : option nat;
  name : list Z;
  thread : list Z;
  thread_p : list Z;
  tid : Z;
  osz : Z;
  mtid : Z;
  retval : Z
}.

#[export] Instance proc_eta : Eta proc := fun r =>
  mk_proc (sz r) (pgdir r) (kstack r) (state r) (pid r) (parent r) (tf r) (cx r)
    (pchan r) (killed r) (ofile r) (cwd r) (name r) (thread r) (thread_p r)
    (tid r) (osz r) (mtid r) (retval r).

Definition NTHREAD : nat := 100.

Definition proc0 : proc :=
  mk_proc 0 0 0 UNUSED 0 None trapframe0 context0 None 0 (replicate NOFILE None) None
    (replicate 16 0) (replicate NTHREAD 0) (replicate NTHREAD 0) 0 0 0 0.

(** ** Scheduling tables (proc.h, proc.c) *)

Record stride_ent : Type := mk_stride_ent {
  st_pid : Z;
  st_share : Z;
  st_full : Z;
  st_path : Z;
  st_is_stride : Z;
  st_proc : option nat
}.

#[export] Instance stride_ent_eta : Eta stride_ent := fun r =>
  mk_stride_ent (st_pid r) (st_share r) (st_full r) (st_path r) (st_is_stride r) (st_proc r).

Definition stride_ent0 : stride_ent := mk_stride_ent 0 0 0 0 0 None.

Record mlfq_ent : Type := mk_mlfq_ent {
  my_tick : Z;
  sum_tick : Z;
  is_mlfq : Z;
  lev : Z;
  run : Z;
  mprev : option Z;
  mnext : option Z;
  mproc : option nat
}.

#[export] Instance mlfq_ent_eta : Eta mlfq_ent := fun r =>
  mk_mlfq_ent (my_tick r) (sum_tick r) (is_mlfq r) (lev r) (run r) (mprev r) (mnext r) (mproc r).

Definition mlfq_ent0 : mlfq_ent := mk_mlfq_ent 0 0 0 0 0 None None None.

Record mlfq_level : Type := mk_mlfq_level {
  able_tick : Z;
  rr_tick_limit : Z;
  rr_tick : Z;
  lsize : Z;
  lhead : option Z;
  lend : option Z
}.

#[export] Instance mlfq_level_eta : Eta mlfq_level := fun r =>
  mk_mlfq_level (able_tick r) (rr_tick_limit r) (rr_tick r) (lsize r) (lhead r) (lend r).

Definition mlfq_level0 : mlfq_level := mk_mlfq_level 0 0 0 0 None None.

(** ** Files, inodes, buffers, log, pipes *)

Inductive fdtype : Type := FD_NONE | FD_PIPE | FD_INODE.

#[export] Instance fdtype_eq_dec : EqDecision fdtype.
Proof. solve_decision. Defined.

Record file : Type := mk_file {
  ftype : fdtype;
  fref : Z;
  readable : Z;
  writable : Z;
  fpipe : Z;
  fip : option nat;
  foff : Z
}.

#[export] Instance file_eta : Eta file := fun r =>
  mk_file (ftype r) (fref r) (readable r) (writable r) (fpipe r) (fip r) (foff r).

Definition file0 : file := mk_file FD_NONE 0 0 0 0 None 0.

Record sleeplock : Type := mk_sleeplock { sl_locked : Z; sl_pid : Z }.

#[export] Instance sleeplock_eta : Eta sleeplock := fun r =>
  mk_sleeplock (sl_locked r) (sl_pid r).

Definition sleeplock0 : sleeplock := mk_sleeplock 0 0.

Record inode : Type := mk_inode {
  idev : Z;
  inum : Z;
  iref : Z;
  ilk : sleeplock;
  ivalid : Z;
  itype : Z;
  imajor : Z;
  iminor : Z;
  inlink : Z;
  isize : Z;
  iaddrs : list Z
}.

#[export] Instance inode_eta : Eta inode := fun r =>
  mk_inode (idev r) (inum r) (iref r) (ilk r) (ivalid r) (itype r) (imajor r) (iminor r)
    (inlink r) (isize r) (iaddrs r).

Definition NADDRS : nat := 13.
Definition inode0 : inode := mk_inode 0 0 0 sleeplock0 0 0 0 0 0 0 (replicate NADDRS 0).

Record buf : Type := mk_buf {
  bflags : Z;
  bdev : Z;
  bblockno : Z;
  blk : sleeplock;
  brefcnt : Z;
  bprev : nat;
  bnext : nat;
  bqnext : option nat;
  bdata : list Z
}.

#[export] Instance buf_eta : Eta buf := fun r =>
  mk_buf (bflags r) (bdev r) (bblockno r) (blk r) (brefcnt r) (bprev r) (bnext r)
    (bqnext r) (bdata r).

Definition zero_block : list Z := replicate (Z.to_nat BSIZE) 0.
Definition buf0 : buf := mk_buf 0 0 0 sleeplock0 0 0 0 None zero_block.

Record logst : Type := mk_logst {
  lstart : Z;
  llsize : Z;
  outstanding : Z;
  committing : Z;
  ldev : Z;
  lhn : Z;
  lhblock : list Z
}.

#[export] Instance logst_eta : Eta logst := fun r =>
  mk_logst (lstart r) (llsize r) (outstanding r) (committing r) (ldev r) (lhn r) (lhblock r).

Definition log0 : logst := mk_logst 0 0 0 0 0 0 (replicate (Z.to_nat LOGSIZE) 0).

Record pipe : Type := mk_pipe {
  pdata : list Z;
  nread : Z;
  nwrite : Z;
  readopen : Z;
  writeopen : Z
}.

#[export] Instance pipe_eta : Eta pipe := fun r =>
  mk_pipe (pdata r) (nread r) (nwrite r) (readopen r) (writeopen r).

Record superblock : Type := mk_superblock {
  sb_size : Z;
  sb_nblocks : Z;
  sb_ninodes : Z;
  sb_nlog : Z;
  sb_logstart : Z;
  sb_inodestart : Z;
  sb_bmapstart : Z
}.

#[export] Instance superblock_eta : Eta superblock := fun r =>
  mk_superblock (sb_size r) (sb_nblocks r) (sb_ninodes r) (sb_nlog r) (sb_logstart r)
    (sb_inodestart r) (sb_bmapstart r).

Definition superblock0 : superblock := mk_superblock 0 0 0 0 0 0 0.

(** Console input buffer (console.c). *)
Record inputbuf : Type := mk_inputbuf {
  in_buf : list Z;
  in_r : Z;
  in_w : Z;
  in_e : Z
}.

#[export] Instance inputbuf_eta : Eta inputbuf := fun r =>
  mk_inputbuf (in_buf r) (in_r r) (in_w r) (in_e r).

Definition INPUT_BUF : Z := 128.
Definition inputbuf0 : inputbuf := mk_inputbuf (replicate 128 0) 0 0 0.

(** ** The global variables *)

Record kernel : Type := mk_kernel {
  (** spin-locks this processor holds, the last acquired first *)
  k_held : list lockid;
  (** [mycpu()->proc], the page table register and the kernel stack top *)
  k_cur : option nat;
  k_cr3 : Z;
  k_esp0 : Z;
  k_kpgdir : Z;
  (** proc.c *)
  k_procs : list proc;
  k_initproc : option nat;
  k_nextpid : Z;
  k_first : bool;
  k_table_size : Z;
  k_max_pid : Z;
  k_max_sum : Z;
  k_tick_mlfq : Z;
  k_stride : gmap Z stride_ent;
  k_mlfq : gmap Z mlfq_ent;
  k_lev : gmap Z mlfq_level;
  (** trap.c *)
  k_ticks : Z;
  (** kalloc.c and physical memory *)
  k_use_lock : bool;
  k_freelist : Z;
  k_mem : gmap Z Z;
  (** file.c, pipe.c *)
  k_files : list file;
  k_pipes : gmap Z pipe;
  (** fs.c, bio.c, log.c and the disk *)
  k_sb : superblock;
  k_inodes : list inode;
  k_bufs : list buf;
  k_log : logst;
  k_idequeue : option nat;
  k_havedisk1 : bool;
  (** the disks, by drive and block number; the drive and block of the command
      the controller works on, and whether it reports an error *)
  k_disk : gmap (Z * Z) (list Z);
  k_ide : Z * Z;
  k_ideerr : bool;
  (** console.c: input buffer, bytes sent to the serial port (the last first),
      the text screen and its cursor *)
  k_input : inputbuf;
  k_out : list Z;
  k_crt : list Z;
  k_pos : Z
}.

#[export] Instance kernel_eta : Eta kernel := fun r =>
  mk_kernel (k_held r) (k_cur r) (k_cr3 r) (k_esp0 r) (k_kpgdir r) (k_procs r)
    (k_initproc r) (k_nextpid r) (k_first r) (k_table_size r) (k_max_pid r) (k_max_sum r)
    (k_tick_mlfq r) (k_stride r) (k_mlfq r) (k_lev r) (k_ticks r) (k_use_lock r)
    (k_freelist r) (k_mem r) (k_files r) (k_pipes r) (k_sb r) (k_inodes r) (k_bufs r)
    (k_log r) (k_idequeue r) (k_havedisk1 r) (k_disk r) (k_ide r) (k_ideerr r) (k_input r) (k_out r)
    (k_crt r) (k_pos r).

(** The loader clears the kernel's data; [nextpid] and [first] have
    initialisers. *)
Definition kernel0 : kernel :=
  mk_kernel [] None 0 0 0 (replicate NPROC proc0) None 1 true 0 0 0 0 ∅ ∅ ∅ 0
    false 0 ∅ (replicate NFILE file0) ∅ superblock0 (replicate NINODE inode0)
    (replicate (S NBUF) buf0) log0 None false ∅ (0, 0) false inputbuf0 [] (replicate 2000 0) 0.

Abbreviation K := (M kernel).

(** ** Access to table entries

    The tables have a fixed size and every index the code computes is in
    range; reading outside is a fault. *)

Definition proc_at (i : nat) : K proc := s ← get; deref (k_procs s !! i).
Definition file_at (i : nat) : K file := s ← get; deref (k_files s !! i).
Definition inode_at (i : nat) : K inode := s ← get; deref (k_inodes s !! i).
Definition buf_at (i : nat) : K buf := s ← get; deref (k_bufs s !! i).

Definition upd_proc (i : nat) (f : proc -> proc) : K unit :=
  modify (fun s => s <| k_procs ::= alter f i |>).
Definition upd_file (i : nat) (f : file -> file) : K unit :=
  modify (fun s => s <| k_files ::= alter f i |>).
Definition upd_inode (i : nat) (f : inode -> inode) : K unit :=
  modify (fun s => s <| k_inodes ::= alter f i |>).
Definition upd_buf (i : nat) (f : buf -> buf) : K unit :=
  modify (fun s => s <| k_bufs ::= alter f i |>).

(** [myproc()]: the process running on this processor. *)
Definition myproc : K (option nat) := gets k_cur.
Definition curproc : K nat := s ← get; deref (k_cur s).

(** ** Spin-locks

    [acquire] panics when this processor already holds the lock, [release]
    when it does not; [mycpu()->ncli] is the number of locks held.  The lock
    word, the interrupt flag and several processors are in Spinlock.v. *)

Definition holding (l : lockid) (s : kernel) : bool := bool_decide (l ∈ k_held s).

Definition acquire (l : lockid) : K unit :=
  s ← get;
  if holding l s then panic "acquire"
  else modify (fun s => s <| k_held := l :: k_held s |>).

Definition release (l : lockid) : K unit :=
  s ← get;
  if negb (holding l s) then panic "release"
  else modify (fun s => s <| k_held := filter (fun l' => l' <> l) (k_held s) |>).

(** ** Running kernel code on a symbolic state

    [krun] evaluates a sequence of kernel operations one at a time: each
    operation that is known to return, by a lemma of the database [krun] or by
    computation, is replaced by its result. *)

Create HintDb krun discriminated.

Lemma acquire_free (l : lockid) (s : kernel) :
  l ∉ k_held s -> acquire l s = Done tt (s <| k_held := l :: k_held s |>).
Proof.
  intros H. unfold acquire, mbind, M_bind, get. simpl. unfold holding.
  rewrite bool_decide_eq_false_2 by exact H. reflexivity.
Qed.

Lemma release_head (l : lockid) (L : list lockid) (s : kernel) :
  k_held s = l :: L -> l ∉ L -> release l s = Done tt (s <| k_held := L |>).
Proof.
  intros H Hn.
  assert (E : filter (fun l' => l' <> l) (k_held s) = L).
  { rewrite H, filter_cons_False by naive_solver. clear H.
    induction L as [|l' L IH]; [reflexivity|].
    rewrite filter_cons_True by set_solver. f_equal. apply IH. set_solver. }
  unfold release, mbind, M_bind, get. simpl. unfold holding.
  rewrite bool_decide_eq_true_2 by (rewrite H; set_solver). simpl. unfold modify.
  rewrite E. reflexivity.
Qed.

Lemma curproc_some (p : nat) (s : kernel) : k_cur s = Some p -> curproc s = Done p s.
Proof. intros H. unfold curproc, mbind, M_bind, get. simpl. rewrite H. reflexivity. Qed.

Lemma proc_at_some (i : nat) (p : proc) (s : kernel) :
  k_procs s !! i = Some p -> proc_at i s = Done p s.
Proof. intros H. unfold proc_at, mbind, M_bind, get. simpl. rewrite H. reflexivity. Qed.

Lemma inode_at_some (i : nat) (p : inode) (s : kernel) :
  k_inodes s !! i = Some p -> inode_at i s = Done p s.
Proof. intros H. unfold inode_at, mbind, M_bind, get. simpl. rewrite H. reflexivity. Qed.

Lemma buf_at_some (i : nat) (p : buf) (s : kernel) :
  k_bufs s !! i = Some p -> buf_at i s = Done p s.
Proof. intros H. unfold buf_at, mbind, M_bind, get. simpl. rewrite H. reflexivity. Qed.

Lemma file_at_some (i : nat) (p : file) (s : kernel) :
  k_files s !! i = Some p -> file_at i s = Done p s.
Proof. intros H. unfold file_at, mbind, M_bind, get. simpl. rewrite H. reflexivity. Qed.

Lemma gets_run {A : Type} (f : kernel -> A) (s : kernel) : gets f s = Done (f s) s.
Proof. reflexivity. Qed.

Lemma get_run (s : kernel) : get s = Done s s.
Proof. reflexivity. Qed.

Lemma modify_run (f : kernel -> kernel) (s : kernel) : modify f s = Done tt (f s).
Proof. reflexivity. Qed.

Lemma ret_run {A : Type} (a : A) (s : kernel) : (mret a : K A) s = Done a s.
Proof. reflexivity. Qed.

Lemma deref_run {A : Type} (o : option A) (a : A) (s : kernel) :
  o = Some a -> (deref o : K A) s = Done a s.
Proof. intros ->. reflexivity. Qed.

Lemma upd_proc_run (i : nat) (f : proc -> proc) (s : kernel) :
  upd_proc i f s = Done tt (s <| k_procs ::= alter f i |>).
Proof. reflexivity. Qed.

#[export] Hint Extern 1 (_ = Some _) => reflexivity : krun.
Lemma when_modify_run (b : bool) (f : kernel -> kernel) (s : kernel) :
  when b (modify f) s = Done tt (if b then f s else s).
Proof. destruct b; reflexivity. Qed.

#[export] Hint Resolve gets_run get_run modify_run ret_run when_modify_run deref_run upd_proc_run : krun.
#[export] Hint Resolve acquire_free release_head curproc_some proc_at_some inode_at_some
  buf_at_some file_at_some : krun.

(** Side conditions of the lemmas above: reads of an updated state. *)
Ltac kside :=
  cbn; first [assumption | reflexivity | congruence | set_solver].

(** Proves that a piece of code returns, instantiating its result. *)
Ltac krun :=
  lazymatch goal with
  | |- @mbind _ _ _ _ _ _ _ = Done _ _ => eapply bind_Done_trans; [krun|cbv beta; krun]
  | |- _ => solve [eauto 2 with krun nocore]
  end.

(** Replaces the first operation of a sequence by its result. *)
Ltac kstep :=
  match goal with
  | |- context [@mbind _ _ _ _ ?f ?m ?s] => erewrite (bind_Done m f s) by krun
  end; cbv beta.
