(* ===== verification/Print.v ===== *)
(** * Kernel output (console.c, uart.c): [printint], [cprintf], [consputc] *)

From S2P Require Import Prelude Params Kernel.

(** A C string literal as the bytes the code reads. *)
Fixpoint bytes_of (s : string) : list Z :=
  match s with
  | EmptyString => []
  | String a s' => Z.of_nat (Ascii.nat_of_ascii a) :: bytes_of s'
  end.

Definition nl : string := String (Ascii.ascii_of_nat 10) EmptyString.

Definition BACKSPACE : Z := 0x100.
Definition newline : Z := 10.

Definition uartputc (c : Z) : K unit := modify (fun s => s <| k_out ::= cons (u8 c) |>).

(** The scroll of [cgaputc]: rows 1..23 move up by one, the cursor with them,
    and the rest of row 23 is cleared. *)
Definition cga_scroll (crt : list Z) (pos : Z) : list Z :=
  let up := take (23 * 80) (drop 80 crt) ++ drop (23 * 80) crt in
  take (Z.to_nat pos) up ++ replicate (Z.to_nat (24 * 80 - pos)) 0 ++ drop (24 * 80) up.

Definition cgaputc (c : Z) : K unit :=
  s ← get;
  let pos := k_pos s in
  let '(crt, pos) :=
    if c =? newline then (k_crt s, pos + (80 - pos mod 80))
    else if c =? BACKSPACE then (k_crt s, if pos >? 0 then pos - 1 else pos)
    else (<[Z.to_nat pos := Z.lor (Z.land c 0xff) 0x0700]> (k_crt s), pos + 1) in
  if (pos <? 0) || (pos >? 25 * 80) then panic "pos under/overflow"
  else
    let '(crt, pos) :=
      if pos / 80 >=? 24 then (cga_scroll crt (pos - 80), pos - 80) else (crt, pos) in
    modify (fun s => s <| k_pos := pos |>
      <| k_crt := <[Z.to_nat pos := Z.lor 32 0x0700]> crt |>).

Definition consputc (c : Z) : K unit :=
  (if c =? BACKSPACE then uartputc 8;; uartputc 32;; uartputc 8 else uartputc c);;
  cgaputc c.

(** ** printint

    The digits of [x], least significant first: the [do] loop of [printint].
    A 32-bit number has at most 32 digits in any base from 2. *)
Definition digit (d : Z) : Z := if d <? 10 then 48 + d else 97 + (d - 10).

Fixpoint digits (n : nat) (x base : Z) : list Z :=
  match n with
  | O => []
  | S n' =>
      digit (x mod base) :: (if x / base =? 0 then [] else digits n' (x / base) base)
  end.

(** The characters of a number in the order they are printed. *)
Definition fmt_int (xx base : Z) (sign : bool) : list Z :=
  let neg := sign && (xx <? 0) in
  let x := if neg then u32 (- xx) else u32 xx in
  let buf := digits 32 x base in
  rev (if neg then buf ++ [45] else buf).

Fixpoint put_all (cs : list Z) : K unit :=
  match cs with [] => mret tt | c :: cs' => consputc c;; put_all cs' end.

Definition printint (xx base : Z) (sign : bool) : K unit := put_all (fmt_int xx base sign).

(** ** cprintf

    The variable arguments: numbers, and strings ([None] is a null pointer). *)
Inductive carg : Type := AInt (z : Z) | AStr (o : option (list Z)).

Fixpoint cprintf_loop (fmt : list Z) (args : list carg) : K unit :=
  match fmt with
  | [] => mret tt
  | c :: fmt' =>
      if c =? 0 then mret tt
      else if negb (c =? 37) then consputc c;; cprintf_loop fmt' args
      else
        match fmt' with
        | [] => mret tt
        | d :: fmt'' =>
            if d =? 0 then mret tt
            else if d =? 100 then
              match args with
              | AInt z :: args' => printint (s32 z) 10 true;; cprintf_loop fmt'' args'
              | _ => fault "cprintf argument"
              end
            else if (d =? 120) || (d =? 112) then
              match args with
              | AInt z :: args' => printint z 16 false;; cprintf_loop fmt'' args'
              | _ => fault "cprintf argument"
              end
            else if d =? 115 then
              match args with
              | AStr o :: args' =>
                  put_all (default (bytes_of "(null)") o);; cprintf_loop fmt'' args'
              | _ => fault "cprintf argument"
              end
            else if d =? 37 then consputc 37;; cprintf_loop fmt'' args
            else consputc 37;; consputc d;; cprintf_loop fmt'' args
        end
  end.

Definition cprintf (fmt : string) (args : list carg) : K unit :=
  acquire cons_lock;;
  cprintf_loop (bytes_of fmt) args;;
  release cons_lock.

(** ** The console stays usable

    With the cursor on the first 24 rows, [cgaputc] does not panic and leaves
    the cursor there, so printing always returns and changes nothing but the
    serial output, the screen and the cursor. *)

Definition console_ok (s : kernel) : Prop := 0 <= k_pos s < 24 * 80.

Definition console_only (s t : kernel) : Prop :=
  t = s <| k_out := k_out t |> <| k_crt := k_crt t |> <| k_pos := k_pos t |> /\ console_ok t.

Lemma console_only_trans (s t u : kernel) : console_only s t -> console_only t u -> console_only s u.
Proof. intros [H1 _] [H2 H3]. split; [rewrite H2, H1; reflexivity|exact H3]. Qed.

Lemma console_only_ok (s t : kernel) : console_only s t -> console_ok t.
Proof. intros [_ H]. exact H. Qed.

Lemma cgaputc_run (c : Z) (s : kernel) :
  console_ok s -> exists t, cgaputc c s = Done tt t /\ console_only s t.
Proof.
  unfold console_ok. intros H. unfold cgaputc. kstep.
  set (r := if c =? newline then _ else _).
  assert (Hr : 0 <= snd r <= 24 * 80).
  { unfold r. destruct (c =? newline); [|destruct (c =? BACKSPACE); [destruct (k_pos s >? 0) eqn:E|] ];
      simpl; try lia. Z.div_mod_to_equations. lia. }
  destruct r as [crt pos]. simpl in Hr.
  replace ((pos <? 0) || (pos >? 25 * 80)) with false by lia.
  set (r' := if pos / 80 >=? 24 then _ else _).
  assert (Hr' : 0 <= snd r' < 24 * 80).
  { unfold r'. destruct (Z.geb_spec (pos / 80) 24); simpl; Z.div_mod_to_equations; lia. }
  destruct r' as [crt' pos']. simpl in Hr'. eexists. split; [reflexivity|].
  split; [reflexivity|exact Hr'].
Qed.

Lemma uartputc_run (c : Z) (s : kernel) :
  console_ok s -> exists t, uartputc c s = Done tt t /\ console_only s t.
Proof. intros H. eexists. split; [reflexivity|]. split; [reflexivity|exact H]. Qed.

(** Sequencing of console output. *)
Lemma console_seq {A : Type} (m : K unit) (m' : K A) (Q : A -> Prop) (s : kernel) :
  (exists t, m s = Done tt t /\ console_only s t) ->
  (forall t, console_ok t -> exists a u, m' t = Done a u /\ console_only t u /\ Q a) ->
  exists a u, (m;; m') s = Done a u /\ console_only s u /\ Q a.
Proof.
  intros (t & E & C) H. destruct (H t (console_only_ok s t C)) as (a & u & E' & C' & Q').
  exists a, u. split_and!; [erewrite bind_Done by exact E; exact E'| |exact Q'].
  eapply console_only_trans; eassumption.
Qed.

Lemma console_seq_unit (m m' : K unit) (s : kernel) :
  (exists t, m s = Done tt t /\ console_only s t) ->
  (forall t, console_ok t -> exists u, m' t = Done tt u /\ console_only t u) ->
  exists u, (m;; m') s = Done tt u /\ console_only s u.
Proof.
  intros H1 H2. destruct (console_seq m m' (fun _ => True) s H1) as ([] & u & E & C & _); [|eauto].
  intros t Ht. destruct (H2 t Ht) as (u & E & C). exists tt, u. auto.
Qed.

Lemma consputc_run (c : Z) (s : kernel) :
  console_ok s -> exists t, consputc c s = Done tt t /\ console_only s t.
Proof.
  intros H. unfold consputc. apply console_seq_unit; [|intros; apply cgaputc_run; assumption].
  destruct (c =? BACKSPACE); [|apply uartputc_run, H].
  apply console_seq_unit; [apply uartputc_run, H|]. intros t Ht.
  apply console_seq_unit; [apply uartputc_run, Ht|]. intros u Hu. apply uartputc_run, Hu.
Qed.

Lemma put_all_run (cs : list Z) (s : kernel) :
  console_ok s -> exists t, put_all cs s = Done tt t /\ console_only s t.
Proof.
  revert s. induction cs as [|c cs IH]; intros s H; simpl.
  { exists s. split; [reflexivity|]. split; [reflexivity|exact H]. }
  apply console_seq_unit; [apply consputc_run, H|]. exact IH.
Qed.

(** The arguments fit the format. *)
Fixpoint args_match (fmt : list Z) (args : list carg) : bool :=
  match fmt with
  | [] => true
  | c :: fmt' =>
      if c =? 0 then true
      else if negb (c =? 37) then args_match fmt' args
      else
        match fmt' with
        | [] => true
        | d :: fmt'' =>
            if d =? 0 then true
            else if (d =? 100) || (d =? 120) || (d =? 112) then
              match args with AInt _ :: args' => args_match fmt'' args' | _ => false end
            else if d =? 115 then
              match args with AStr _ :: args' => args_match fmt'' args' | _ => false end
            else args_match fmt'' args
        end
  end.

Lemma cprintf_loop_run (n : nat) (fmt : list Z) (args : list carg) (s : kernel) :
  (length fmt <= n)%nat -> args_match fmt args = true -> console_ok s ->
  exists t, cprintf_loop fmt args s = Done tt t /\ console_only s t.
Proof.
  revert fmt args s. induction n as [|n IH]; intros fmt args s Hn Hm H.
  all: assert (Hs : exists t, (mret tt : K unit) s = Done tt t /\ console_only s t)
    by (exists s; split; [reflexivity|split; [reflexivity|exact H] ]).
  { destruct fmt; [exact Hs|simpl in Hn; lia]. }
  destruct fmt as [|c fmt]; [exact Hs|]. cbn [cprintf_loop args_match] in *. simpl in Hn.
  destruct (c =? 0); [exact Hs|]. destruct (c =? 37); cbn [negb] in *.
  2: { apply console_seq_unit; [apply consputc_run, H|]. intros t Ht. apply IH; [lia|exact Hm|exact Ht]. }
  destruct fmt as [|d fmt]; [exact Hs|]. simpl in Hn. destruct (d =? 0); [exact Hs|].
  destruct (d =? 100); cbn [orb] in Hm.
  { destruct args as [|[z|o] args]; try discriminate.
    apply console_seq_unit; [apply put_all_run, H|]. intros t Ht. apply IH; [lia|exact Hm|exact Ht]. }
  destruct ((d =? 120) || (d =? 112)).
  { destruct args as [|[z|o] args]; try discriminate.
    apply console_seq_unit; [apply put_all_run, H|]. intros t Ht. apply IH; [lia|exact Hm|exact Ht]. }
  destruct (d =? 115).
  { destruct args as [|[z|o] args]; try discriminate.
    apply console_seq_unit; [apply put_all_run, H|]. intros t Ht. apply IH; [lia|exact Hm|exact Ht]. }
  destruct (d =? 37);
    (apply console_seq_unit; [apply consputc_run, H|]); intros t Ht; [apply IH; [lia|exact Hm|exact Ht]|].
  apply console_seq_unit; [apply consputc_run, Ht|]. intros u Hu. apply IH; [lia|exact Hm|exact Hu].
Qed.

Lemma cprintf_run (fmt : string) (args : list carg) (s : kernel) :
  args_match (bytes_of fmt) args = true -> console_ok s -> cons_lock ∉ k_held s ->
  exists t, cprintf fmt args s = Done tt t /\ console_only s t.
Proof.
  intros Hm H Hl. unfold cprintf.
  destruct (cprintf_loop_run (length (bytes_of fmt)) (bytes_of fmt) args
              (s <| k_held := cons_lock :: k_held s |>)) as (t & E & [T C]); [lia|exact Hm|exact H|].
  exists (t <| k_held := k_held s |>). split; [|split; [rewrite T; reflexivity|exact C] ].
  erewrite bind_Done by (apply acquire_free; exact Hl). erewrite bind_Done by exact E.
  apply release_head; [rewrite T; reflexivity|exact Hl].
Qed.
