(* ===== verification/Kalloc.v ===== *)
(** * kalloc.c: the physical page allocator

    The free list is threaded through the free pages themselves: the first
    word of a free page is the address of the next one. *)

From S2P Require Import Prelude Params Bytes CString Kernel.

(** The symbols of kernel.ld that the code uses: [end], the first address
    after the kernel, [data], where its writable part starts on a page of its
    own, and the address of [forkret].  The script places the kernel from [KERNLINK] on. *)
Class Linker := {
  kend : Z;
  kdata : Z;
  kforkret : Z;
  kend_range : KERNLINK <= kend <= KERNBASE + PHYSTOP;
  kdata_range : KERNLINK < kdata <= kend;
  kdata_page : kdata mod PGSIZE = 0
}.

Section Kalloc.
Context {L : Linker}.

Definition kfree (v : Z) : K unit :=
  if negb (v mod PGSIZE =? 0) || (v <? kend) || (V2P v >=? PHYSTOP) then panic "kfree"
  else
    modify (fun s => s <| k_mem ::= memset v 1 PGSIZE |>);;
    s ← get;
    when (k_use_lock s) (acquire kmem_lock);;
    modify (fun s => s <| k_mem ::= wr32 v (k_freelist s) |> <| k_freelist := v |>);;
    when (k_use_lock s) (release kmem_lock).

Definition kalloc : K Z :=
  s ← get;
  when (k_use_lock s) (acquire kmem_lock);;
  r ← gets (fun s => k_freelist s);
  when (negb (r =? 0)) (modify (fun s => s <| k_freelist := rd32 (k_mem s) r |>));;
  when (k_use_lock s) (release kmem_lock);;
  mret r.

(** The loop [for(; p + PGSIZE <= vend; p += PGSIZE)] runs once per whole
    page. *)
Definition freerange (vstart vend : Z) : K unit :=
  let p := PGROUNDUP vstart in
  for_each (Z.to_nat ((vend - p) / PGSIZE)) 0
    (fun i => kfree (p + Z.of_nat i * PGSIZE)).

Definition kinit1 (vstart vend : Z) : K unit :=
  modify (fun s => s <| k_use_lock := false |>);; freerange vstart vend.

Definition kinit2 (vstart vend : Z) : K unit :=
  freerange vstart vend;; modify (fun s => s <| k_use_lock := true |>).

(** ** What an allocation and a free do *)

(** Addresses of pages the allocator manages. *)
Definition page (v : Z) : Prop := v mod PGSIZE = 0 /\ kend <= v < KERNBASE + PHYSTOP.

Lemma page_high (v : Z) : page v -> KERNLINK <= v < KERNBASE + PHYSTOP.
Proof. intros [_ H]. pose proof kend_range. lia. Qed.

Lemma page_apart (v w : Z) : page v -> page w -> v <> w -> v + PGSIZE <= w \/ w + PGSIZE <= v.
Proof. intros [Hv _] [Hw _] H. unfold PGSIZE in *. Z.div_mod_to_equations. lia. Qed.

Lemma V2P_page (v : Z) : page v -> V2P v = v - KERNBASE.
Proof.
  intros H. apply page_high in H. apply u32_small. unfold KERNLINK, KERNBASE, EXTMEM, PHYSTOP in *. lia.
Qed.

Lemma kfree_run (v : Z) (s : kernel) :
  page v -> kmem_lock ∉ k_held s ->
  kfree v s = Done tt (s <| k_mem := wr32 v (k_freelist s) (memset v 1 PGSIZE (k_mem s)) |>
                         <| k_freelist := v |>).
Proof.
  intros Hp Hl. pose proof (V2P_page v Hp) as Hv. destruct Hp as [Ha Hr].
  unfold kfree. rewrite Ha, Hv.
  rewrite (proj2 (Z.ltb_ge v kend)) by lia. rewrite Z.geb_leb, (proj2 (Z.leb_gt _ _)) by lia.
  cbn [Z.eqb negb orb]. kstep. kstep. cbn.
  destruct (k_use_lock s) eqn:E; cbn [when].
  - erewrite bind_Done by (apply acquire_free; exact Hl).
    kstep. erewrite release_head by (reflexivity || exact Hl). reflexivity.
  - reflexivity.
Qed.

Lemma kfree_bad (v : Z) (s : kernel) :
  v mod PGSIZE <> 0 \/ v < kend \/ PHYSTOP <= V2P v -> kfree v s = Halt (Panic "kfree").
Proof.
  intros H. unfold kfree. destruct (_ || _) eqn:E; [reflexivity|].
  apply orb_false_iff in E as [E E3]. apply orb_false_iff in E as [E1 E2].
  apply negb_false_iff, Z.eqb_eq in E1. apply Z.ltb_ge in E2.
  rewrite Z.geb_leb in E3. apply Z.leb_gt in E3. lia.
Qed.

Lemma kalloc_run (s : kernel) :
  kmem_lock ∉ k_held s ->
  kalloc s = Done (k_freelist s)
    (if k_freelist s =? 0 then s else s <| k_freelist := rd32 (k_mem s) (k_freelist s) |>).
Proof.
  intros Hl. unfold kalloc. kstep. destruct (k_use_lock s) eqn:E; cbn [when].
  - erewrite bind_Done by (apply acquire_free; exact Hl). kstep. cbn.
    destruct (k_freelist s =? 0); cbn [negb when]; kstep;
      (erewrite bind_Done by (apply release_head; [reflexivity|exact Hl])); reflexivity.
  - kstep. kstep. destruct (k_freelist s =? 0); reflexivity.
Qed.

(** ** The free list as a list of pages *)

Fixpoint freechain (m : gmap Z Z) (a : Z) (l : list Z) : Prop :=
  match l with
  | [] => a = 0
  | v :: l' => a = v /\ freechain m (rd32 m v) l'
  end.

(** The pages [l] are free: they are distinct pages and the free list runs
    through them in this order. *)
Definition free_pages (s : kernel) (l : list Z) : Prop :=
  freechain (k_mem s) (k_freelist s) l /\ NoDup l /\ Forall page l.

Lemma freechain_frame (m m' : gmap Z Z) (a : Z) (l : list Z) :
  (forall v b, v ∈ l -> v <= b < v + 4 -> rd m' b = rd m b) ->
  freechain m a l -> freechain m' a l.
Proof.
  revert a. induction l as [|v l IH]; intros a Hm; simpl; [done|].
  intros [-> Hl]. split; [reflexivity|].
  assert (E : rd32 m' v = rd32 m v).
  { unfold rd32. rewrite !(Hm v) by (set_solver || lia). reflexivity. }
  rewrite E. apply IH; [|exact Hl]. intros w b Hw. apply Hm. set_solver.
Qed.

Lemma rd_page_init (v n b : Z) (m : gmap Z Z) :
  ~ (v <= b < v + PGSIZE) -> rd (wr32 v n (memset v 1 PGSIZE m)) b = rd m b.
Proof.
  intros H. rewrite rd_wr32_other by (unfold PGSIZE in *; lia).
  rewrite rd_memset, decide_False by (unfold PGSIZE in *; lia). reflexivity.
Qed.

Lemma freelist_u32 (s : kernel) (l : list Z) :
  free_pages s l -> u32 (k_freelist s) = k_freelist s.
Proof.
  intros (Hc & _ & Hp). apply u32_small. destruct l as [|v l]; simpl in Hc; [lia|].
  destruct Hc as [-> _]. apply Forall_inv, page_high in Hp.
  unfold KERNLINK, KERNBASE, EXTMEM, PHYSTOP in *. lia.
Qed.

Lemma kfree_free_pages (v : Z) (s : kernel) (l : list Z) :
  free_pages s l -> page v -> v ∉ l -> kmem_lock ∉ k_held s ->
  exists t, kfree v s = Done tt t /\ free_pages t (v :: l) /\
    (forall b, ~ (v <= b < v + PGSIZE) -> rd (k_mem t) b = rd (k_mem s) b) /\
    t = s <| k_mem := k_mem t |> <| k_freelist := v |>.
Proof.
  intros Hf Hv Hn Hl. pose proof (freelist_u32 s l Hf) as Hu. destruct Hf as (Hc & Hd & Hp).
  eexists. split; [apply kfree_run; assumption|]. split_and!; [| |reflexivity].
  - split_and!; [|apply NoDup_cons; auto|constructor; auto].
    cbn. split; [reflexivity|]. rewrite rd32_wr32_same, Hu.
    eapply freechain_frame; [|exact Hc]. intros w b Hw Hb. apply rd_page_init.
    assert (w <> v) by (intros ->; done).
    destruct (page_apart v w); try done; [eapply Forall_forall; eassumption|unfold PGSIZE in *; lia..].
  - intros b Hb. apply rd_page_init, Hb.
Qed.

Lemma kalloc_free_pages (s : kernel) (l : list Z) :
  free_pages s l -> kmem_lock ∉ k_held s ->
  match l with
  | [] => kalloc s = Done 0 s
  | v :: l' => page v /\ (v ∉ l') /\
      kalloc s = Done v (s <| k_freelist := rd32 (k_mem s) v |>) /\
      free_pages (s <| k_freelist := rd32 (k_mem s) v |>) l'
  end.
Proof.
  intros (Hc & Hd & Hp) Hl. rewrite kalloc_run by exact Hl.
  destruct l as [|v l]; simpl in Hc.
  { rewrite Hc. reflexivity. }
  destruct Hc as [-> Hc]. apply Forall_cons in Hp as [Hv Hp]. apply NoDup_cons in Hd as [Hn Hd].
  split_and!; try done. pose proof (page_high v Hv) as Hh.
  rewrite (proj2 (Z.eqb_neq v 0)) by (unfold KERNLINK, KERNBASE, EXTMEM, PHYSTOP in *; lia).
  reflexivity.
Qed.

(** ** Building the free list *)

(** The pages [p], [p + PGSIZE], ..., the last first. *)
Fixpoint pages_from (n : nat) (p : Z) : list Z :=
  match n with O => [] | S n' => p :: pages_from n' (p + PGSIZE) end.

Lemma pages_from_spec (n : nat) (p v : Z) :
  p mod PGSIZE = 0 ->
  v ∈ pages_from n p <-> v mod PGSIZE = 0 /\ p <= v < p + Z.of_nat n * PGSIZE.
Proof.
  revert p. induction n as [|n IH]; intros p Hp; cbn [pages_from].
  { rewrite elem_of_nil. lia. }
  rewrite elem_of_cons, IH by (unfold PGSIZE in *; Z.div_mod_to_equations; lia).
  unfold PGSIZE in *. split.
  - intros [->|[Hv ?] ]; [lia|]. split; [exact Hv|lia].
  - intros [Hv ?]. destruct (decide (v = p)) as [->|]; [auto|right]. split; [exact Hv|].
    Z.div_mod_to_equations. lia.
Qed.

Lemma freerange_loop (n : nat) (i : nat) (p : Z) (s : kernel) (l : list Z) :
  p mod PGSIZE = 0 -> kend <= p ->
  p + (Z.of_nat i + Z.of_nat n) * PGSIZE <= KERNBASE + PHYSTOP ->
  free_pages s l -> (forall v, v ∈ l -> ~ (p + Z.of_nat i * PGSIZE <= v < p + (Z.of_nat i + Z.of_nat n) * PGSIZE)) ->
  kmem_lock ∉ k_held s ->
  exists t, for_each n i (fun i => kfree (p + Z.of_nat i * PGSIZE)) s = Done tt t /\
    free_pages t (rev (pages_from n (p + Z.of_nat i * PGSIZE)) ++ l) /\
    t = s <| k_mem := k_mem t |> <| k_freelist := k_freelist t |>.
Proof.
  revert i s l. induction n as [|n IH]; intros i s l Ha He Hb Hf Hl Hh; cbn [for_each].
  { exists s. split_and!; [reflexivity|exact Hf|reflexivity]. }
  set (v := p + Z.of_nat i * PGSIZE) in *.
  assert (Hv : page v).
  { split; [|unfold v, PGSIZE, KERNBASE, PHYSTOP in *; lia].
    unfold v. rewrite Z.mod_add by discriminate. exact Ha. }
  destruct (kfree_free_pages v s l) as (t1 & E1 & F1 & _ & T1); try assumption.
  { intros H. apply (Hl v H). unfold v, PGSIZE in *. lia. }
  assert (Hh1 : kmem_lock ∉ k_held t1) by (rewrite T1; exact Hh).
  destruct (IH (S i) t1 (v :: l)) as (t & E & F & T); try assumption.
  { unfold v, PGSIZE in *. lia. }
  { intros w Hw. apply elem_of_cons in Hw as [->|Hw]; [unfold v, PGSIZE in *; lia|].
    specialize (Hl w Hw). unfold v, PGSIZE in *. lia. }
  exists t. split_and!.
  - erewrite bind_Done by exact E1. exact E.
  - replace (pages_from (S n) v) with (v :: pages_from n (p + Z.of_nat (S i) * PGSIZE)).
    + simpl rev. rewrite <- app_assoc. exact F.
    + simpl. do 2 f_equal. unfold v, PGSIZE. lia.
  - rewrite T, T1. reflexivity.
Qed.

Lemma freerange_pages (vstart vend : Z) (s : kernel) (l : list Z) :
  kend <= vstart <= vend -> vend <= KERNBASE + PHYSTOP ->
  free_pages s l -> (forall v, v ∈ l -> ~ (vstart <= v < vend)) -> kmem_lock ∉ k_held s ->
  exists t l', freerange vstart vend s = Done tt t /\ free_pages t (l' ++ l) /\
    (forall v, v ∈ l' <-> page v /\ vstart <= v /\ v + PGSIZE <= vend) /\
    t = s <| k_mem := k_mem t |> <| k_freelist := k_freelist t |>.
Proof.
  intros Hs He Hf Hl Hh. pose proof kend_range as Hk.
  destruct (PGROUNDUP_spec vstart) as [ [H1 H2] Ha].
  { unfold KERNLINK, KERNBASE, EXTMEM, PHYSTOP, PGSIZE in *. lia. }
  set (p := PGROUNDUP vstart) in *. set (n := Z.to_nat ((vend - p) / PGSIZE)).
  assert (Hn : Z.of_nat n * PGSIZE <= Z.max 0 (vend - p) < (Z.of_nat n + 1) * PGSIZE).
  { unfold n, PGSIZE. destruct (decide (p <= vend)).
    - rewrite Z2Nat.id by (apply Z.div_pos; lia). Z.div_mod_to_equations. lia.
    - replace (Z.to_nat _) with O; [lia|]. Z.div_mod_to_equations. lia. }
  destruct (freerange_loop n 0 p s l) as (t & E & F & T); try assumption.
  { lia. }
  { unfold KERNLINK, KERNBASE, EXTMEM, PHYSTOP, PGSIZE in *.
    Z.div_mod_to_equations. lia. }
  { intros v Hv. specialize (Hl v Hv). unfold PGSIZE in *. lia. }
  exists t, (rev (pages_from n (p + Z.of_nat 0 * PGSIZE))). split_and!; [exact E|exact F| |exact T].
  intros v. rewrite list_elem_of_In, <- in_rev, <- list_elem_of_In, Z.add_0_r. rewrite pages_from_spec by exact Ha.
  unfold page, PGSIZE, KERNBASE, PHYSTOP in *. split; [intros [Hv ?]|intros ([Hv ?] & ? & ?)];
    Z.div_mod_to_equations; lia.
Qed.

End Kalloc.

#[export] Hint Extern 1 (kmem_lock ∉ _) => set_solver : krun.

(** A kernel that ends 64 Kbyte above [KERNLINK], for the examples. *)
Definition ex_linker : Linker.
Proof. refine {| kend := 0x80110000; kdata := 0x80108000; kforkret := 0x80100100 |}; vm_compute; intuition discriminate. Defined.

(** ** Properties *)

(** C17. The allocator refines a list of distinct free pages: [kalloc] hands out
    the first one, or returns 0 and changes nothing when there is none;
    [kfree] of a page that is not free puts it in front and changes no memory
    outside the page; nothing else changes, so that both give the lock back;
    [kfree] of any other address panics. *)
Theorem allocator_refines_free_list {L : Linker} (s : kernel) (l : list Z)
    (Hf : free_pages s l) (Hl : kmem_lock ∉ k_held s) :
  match l with
  | [] => kalloc s = Done 0 s
  | v :: l' => page v /\ (v ∉ l') /\ exists t, kalloc s = Done v t /\ free_pages t l' /\ t = s <| k_freelist := k_freelist t |>
  end /\
  (forall v, page v -> v ∉ l ->
     exists t, kfree v s = Done tt t /\ free_pages t (v :: l) /\
       (forall b, ~ (v <= b < v + PGSIZE) -> rd (k_mem t) b = rd (k_mem s) b) /\
       t = s <| k_mem := k_mem t |> <| k_freelist := v |>) /\
  (forall v, KERNBASE <= v < 2 ^ 32 -> ~ page v -> kfree v s = Halt (Panic "kfree")).
Proof.
  split_and!.
  - pose proof (kalloc_free_pages s l Hf Hl) as H. destruct l as [|v l']; [exact H|].
    destruct H as (Hv & Hn & E & F). eauto 10.
  - intros v Hv Hn. destruct (kfree_free_pages v s l Hf Hv Hn Hl) as (t & E & F & M & T). eauto 10.
  - intros v Hv Hp. apply kfree_bad. unfold page in Hp.
    destruct (decide (v mod PGSIZE = 0)); [|auto]. destruct (decide (v < kend)); [auto|].
    right; right. destruct (decide (v < KERNBASE + PHYSTOP)); [lia|].
    unfold V2P, u32, KERNBASE, PHYSTOP in *. Z.div_mod_to_equations. lia.
Qed.

(** Initialisation.  The two calls that [main] makes, [kinit1] for the
    first 4 Mbyte and [kinit2] for the rest, put every page between the end of
    the kernel and [PHYSTOP] on the free list exactly once, and turn locking
    on. *)
Theorem kinit_frees_every_page {L : Linker} (s : kernel)
    (Hk : kend <= KERNBASE + 0x400000) (Hs : k_freelist s = 0) (Hl : kmem_lock ∉ k_held s) :
  exists t l, (kinit1 kend (P2V 0x400000);; kinit2 (P2V 0x400000) (P2V PHYSTOP)) s = Done tt t /\
    free_pages t l /\ (forall v, v ∈ l <-> page v) /\ k_use_lock t = true.
Proof.
  change (P2V 0x400000) with (KERNBASE + 0x400000). change (P2V PHYSTOP) with (KERNBASE + PHYSTOP).
  set (s1 := s <| k_use_lock := false |>).
  assert (F0 : free_pages s1 []).
  { split_and!; [exact Hs|constructor|constructor]. }
  destruct (freerange_pages kend (KERNBASE + 0x400000) s1 []) as (t1 & l1 & E1 & F1 & M1 & T1);
    [lia|discriminate|exact F0|intros ? []%elem_of_nil|exact Hl|].
  rewrite app_nil_r in F1.
  destruct (freerange_pages (KERNBASE + 0x400000) (KERNBASE + PHYSTOP) t1 l1) as (t2 & l2 & E2 & F2 & M2 & T2);
    [split; [exact Hk|discriminate]|reflexivity|exact F1| |rewrite T1; exact Hl|].
  { intros v Hv. apply M1 in Hv. unfold PGSIZE in Hv. lia. }
  exists (t2 <| k_use_lock := true |>), (l2 ++ l1). split_and!; [|exact F2| |reflexivity].
  - unfold kinit1, kinit2. kstep. kstep. reflexivity.
  - intros v. rewrite elem_of_app, M1, M2. unfold page, PGSIZE, KERNBASE, PHYSTOP.
    split; [intros [(H & _ & _)|(H & _ & _)]; exact H|]. intros [Hv Hr].
    destruct (decide (0x80000000 + 0x400000 <= v)); [left|right]; (split; [auto|]);
      Z.div_mod_to_equations; lia.
Qed.

Definition ex_free : kernel := kernel0 <| k_use_lock := true |> <| k_freelist := 0x80200000 |>.

Lemma allocator_refines_free_list_witness :
  exists t, kalloc ex_free = Done 0x80200000 t /\ free_pages (L := ex_linker) t [].
Proof.
  destruct (allocator_refines_free_list (L := ex_linker) ex_free [0x80200000]) as [(_ & _ & H) _].
  - split_and!; [split; reflexivity|apply NoDup_singleton|].
    constructor; [|constructor]. vm_compute. intuition discriminate.
  - apply not_elem_of_nil.
  - destruct H as (t & E & F & _); eauto.
Defined.

Lemma kinit_frees_every_page_witness :
  let L := ex_linker in
  exists t l, (kinit1 kend (P2V 0x400000);; kinit2 (P2V 0x400000) (P2V PHYSTOP)) kernel0 = Done tt t /\
    free_pages t l /\ (forall v, v ∈ l <-> page v) /\ k_use_lock t = true.
Proof.
  apply (kinit_frees_every_page (L := ex_linker) kernel0).
  - vm_compute. discriminate.
  - reflexivity.
  - apply not_elem_of_nil.
Defined.
