(* ===== verification/Vm.v ===== *)
(** * vm.c: page tables

    Page directories and page tables are pages of memory; an entry is a
    32-bit word.  [loaduvm] is in [Exec]. *)

From S2P Require Import Prelude Params Bytes CString Kernel Print Kalloc.

Definition ld32 (a : Z) : K Z := gets (fun s => rd32 (k_mem s) a).
Definition st32 (a v : Z) : K unit := modify (fun s => s <| k_mem ::= wr32 a v |>).
Definition mem_set (a c n : Z) : K unit := modify (fun s => s <| k_mem ::= memset a c n |>).
Definition mem_move (d a n : Z) : K unit := modify (fun s => s <| k_mem ::= memmove d a n |>).
Definition mem_put (a : Z) (d : list Z) : K unit := modify (fun s => s <| k_mem ::= wr_list a d |>).

Definition present (pte : Z) : bool := negb (Z.land pte PTE_P =? 0).
Definition user_ok (pte : Z) : bool := negb (Z.land pte PTE_U =? 0).

(** ** Switching address spaces *)

Definition switchkvm : K unit := modify (fun s => s <| k_cr3 := V2P (k_kpgdir s) |>).

(** The task-state segment keeps the kernel stack top the processor switches
    to on the next trap. *)
Definition switchuvm (p : nat) : K unit :=
  pr ← proc_at p;
  if kstack pr =? 0 then panic "switchuvm: no kstack"
  else if pgdir pr =? 0 then panic "switchuvm: no pgdir"
  else
    modify (fun s => s <| k_esp0 := u32 (kstack pr + KSTACKSIZE) |>);;
    modify (fun s => s <| k_cr3 := V2P (pgdir pr) |>).

Section Vm.
Context {L : Linker}.

Definition walkpgdir (pgdir va : Z) (alloc : bool) : K Z :=
  let pde := pgdir + 4 * PDX va in
  e ← ld32 pde;
  if present e then mret (P2V (PTE_ADDR e) + 4 * PTX va)
  else if negb alloc then mret 0
  else
    pgtab ← kalloc;
    if pgtab =? 0 then mret 0
    else
      mem_set pgtab 0 PGSIZE;;
      st32 pde (Z.lor (Z.lor (Z.lor (V2P pgtab) PTE_P) PTE_W) PTE_U);;
      mret (pgtab + 4 * PTX va).

(** The loop of [mappages] from page [a] to page [last]; the fuel is the
    number of pages between them. *)
Fixpoint mappages_loop (n : nat) (pgdir a last pa perm : Z) : K Z :=
  match n with
  | O => halt NoFuel
  | S n' =>
      pte ← walkpgdir pgdir a true;
      if pte =? 0 then mret (-1)
      else
        e ← ld32 pte;
        if present e then panic "remap"
        else
          st32 pte (Z.lor (Z.lor pa perm) PTE_P);;
          if a =? last then mret 0
          else mappages_loop n' pgdir (u32 (a + PGSIZE)) last (u32 (pa + PGSIZE)) perm
  end.

Definition mappages (pgdir va size pa perm : Z) : K Z :=
  let a := PGROUNDDOWN (u32 va) in
  let last := PGROUNDDOWN (u32 (va + size - 1)) in
  mappages_loop (S (Z.to_nat (u32 (last - a) / PGSIZE))) pgdir a last pa perm.

Fixpoint deallocuvm_loop (n : nat) (pgdir a oldsz : Z) : K unit :=
  match n with
  | O => halt NoFuel
  | S n' =>
      if negb (a <? oldsz) then mret tt
      else
        pte ← walkpgdir pgdir a false;
        if pte =? 0 then
          deallocuvm_loop n' pgdir
            (u32 (u32 (PGADDR (PDX a + 1) 0 0 - PGSIZE) + PGSIZE)) oldsz
        else
          e ← ld32 pte;
          (if present e then
             let pa := PTE_ADDR e in
             if pa =? 0 then panic "kfree"
             else kfree (P2V pa);; st32 pte 0
           else mret tt);;
          deallocuvm_loop n' pgdir (u32 (a + PGSIZE)) oldsz
  end.

Definition deallocuvm (pgdir oldsz newsz : Z) : K Z :=
  if newsz >=? oldsz then mret oldsz
  else
    let a := PGROUNDUP newsz in
    deallocuvm_loop (S (Z.to_nat ((oldsz - newsz) / PGSIZE + 1))) pgdir a oldsz;;
    mret newsz.

Fixpoint allocuvm_loop (n : nat) (pgdir a oldsz newsz : Z) : K Z :=
  match n with
  | O => halt NoFuel
  | S n' =>
      if negb (a <? newsz) then mret newsz
      else
        mem ← kalloc;
        if mem =? 0 then
          cprintf ("allocuvm out of memory" ++ nl) [];;
          deallocuvm pgdir newsz oldsz;;
          mret 0
        else
          mem_set mem 0 PGSIZE;;
          r ← mappages pgdir a PGSIZE (V2P mem) (Z.lor PTE_W PTE_U);
          if r <? 0 then
            cprintf ("allocuvm out of memory (2)" ++ nl) [];;
            deallocuvm pgdir newsz oldsz;;
            kfree mem;;
            mret 0
          else allocuvm_loop n' pgdir (u32 (a + PGSIZE)) oldsz newsz
  end.

Definition allocuvm (pgdir oldsz newsz : Z) : K Z :=
  if newsz >=? KERNBASE then mret 0
  else if newsz <? oldsz then mret oldsz
  else
    allocuvm_loop (S (Z.to_nat ((newsz - oldsz) / PGSIZE + 1))) pgdir (PGROUNDUP oldsz) oldsz newsz.

Definition freevm (pgdir : Z) : K unit :=
  if pgdir =? 0 then panic "freevm: no pgdir"
  else
    deallocuvm pgdir KERNBASE 0;;
    for_each (Z.to_nat NPDENTRIES) 0 (fun i =>
      e ← ld32 (pgdir + 4 * Z.of_nat i);
      when (present e) (kfree (P2V (PTE_ADDR e))));;
    kfree pgdir.

Record kmap_ent : Type := mk_kmap_ent {
  virt : Z; phys_start : Z; phys_end : Z; perm : Z
}.

Definition kmap : list kmap_ent := [
  mk_kmap_ent KERNBASE 0 EXTMEM PTE_W;
  mk_kmap_ent KERNLINK (V2P KERNLINK) (V2P kdata) 0;
  mk_kmap_ent kdata (V2P kdata) PHYSTOP PTE_W;
  mk_kmap_ent DEVSPACE DEVSPACE 0 PTE_W].

Fixpoint setupkvm_loop (ks : list kmap_ent) (pgdir : Z) : K Z :=
  match ks with
  | [] => mret pgdir
  | k :: ks' =>
      r ← mappages pgdir (virt k) (u32 (phys_end k - phys_start k)) (phys_start k) (perm k);
      if r <? 0 then freevm pgdir;; mret 0 else setupkvm_loop ks' pgdir
  end.

Definition setupkvm : K Z :=
  pgdir ← kalloc;
  if pgdir =? 0 then mret 0
  else
    mem_set pgdir 0 PGSIZE;;
    if P2V PHYSTOP >? DEVSPACE then panic "PHYSTOP too high"
    else setupkvm_loop kmap pgdir.

Definition kvmalloc : K unit :=
  d ← setupkvm;
  modify (fun s => s <| k_kpgdir := d |>);;
  switchkvm.

Definition inituvm (pgdir : Z) (init : list Z) (sz : Z) : K unit :=
  if sz >=? PGSIZE then panic "inituvm: more than a page"
  else
    mem ← kalloc;
    mem_set mem 0 PGSIZE;;
    mappages pgdir 0 PGSIZE (V2P mem) (Z.lor PTE_W PTE_U);;
    mem_put mem (take (Z.to_nat sz) init).

Definition clearpteu (pgdir uva : Z) : K unit :=
  pte ← walkpgdir pgdir uva false;
  if pte =? 0 then panic "clearpteu"
  else e ← ld32 pte; st32 pte (Z.land e (Z.lnot PTE_U)).

Fixpoint copyuvm_loop (n : nat) (pgdir d i sz : Z) : K Z :=
  match n with
  | O => halt NoFuel
  | S n' =>
      if negb (i <? sz) then mret d
      else
        pte ← walkpgdir pgdir i false;
        if pte =? 0 then panic "copyuvm: pte should exist"
        else
          e ← ld32 pte;
          if negb (present e) then panic "copyuvm: page not present"
          else
            let pa := PTE_ADDR e in
            let flags := PTE_FLAGS e in
            mem ← kalloc;
            if mem =? 0 then freevm d;; mret 0
            else
              mem_move mem (P2V pa) PGSIZE;;
              r ← mappages d i PGSIZE (V2P mem) flags;
              if r <? 0 then freevm d;; mret 0
              else copyuvm_loop n' pgdir d (u32 (i + PGSIZE)) sz
  end.

Definition copyuvm (pgdir sz : Z) : K Z :=
  d ← setupkvm;
  if d =? 0 then mret 0
  else copyuvm_loop (S (Z.to_nat (sz / PGSIZE + 1))) pgdir d 0 sz.

(** [uva2ka] reads the entry [walkpgdir] returns without a test for null. *)
Definition uva2ka (pgdir uva : Z) : K Z :=
  pte ← walkpgdir pgdir uva false;
  if pte =? 0 then fault "null pointer"
  else
    e ← ld32 pte;
    if negb (present e) then mret 0
    else if negb (user_ok e) then mret 0
    else mret (P2V (PTE_ADDR e)).

(** The bytes to copy are given by value: [buf] and the target are different
    pages at every call. *)
Fixpoint copyout_loop (n : nat) (pgdir va : Z) (buf : list Z) : K Z :=
  match n with
  | O => halt NoFuel
  | S n' =>
      let len := Z.of_nat (length buf) in
      if negb (len >? 0) then mret 0
      else
        let va0 := PGROUNDDOWN va in
        pa0 ← uva2ka pgdir va0;
        if pa0 =? 0 then mret (-1)
        else
          let n := Z.min (PGSIZE - (va - va0)) len in
          mem_put (pa0 + (va - va0)) (take (Z.to_nat n) buf);;
          copyout_loop n' pgdir (u32 (va0 + PGSIZE)) (drop (Z.to_nat n) buf)
  end.

Definition copyout (pgdir va : Z) (buf : list Z) : K Z :=
  copyout_loop (S (S (Z.to_nat (Z.of_nat (length buf) / PGSIZE + 1)))) pgdir va buf.

End Vm.
