(* ===== verification/Sleep.v ===== *)
(** * Sleep, wakeup, yield and kill (proc.c), sleep-locks (sleeplock.c) *)

From S2P Require Import Prelude Params Kernel.

(** ** Giving up the processor *)

(** [sched()]: the checks before the context switch.  The interrupt flag is
    off whenever a spin-lock is held (see Spinlock.v), so the last check of
    the source has no counterpart here. *)
Definition sched : K unit :=
  p ← curproc;
  s ← get;
  if negb (holding ptable_lock s) then panic "sched ptable.lock"
  else if negb (length (k_held s) =? 1)%nat then panic "sched locks"
  else
    pr ← proc_at p;
    if bool_decide (state pr = RUNNING) then panic "sched running"
    else switch.

Definition yield : K Z :=
  acquire ptable_lock;;
  p ← curproc;
  upd_proc p (fun pr => pr <| state := RUNNABLE |>);;
  sched;;
  release ptable_lock;;
  mret 0.

Definition sleep (ch : chan) (lk : lockid) : K unit :=
  op ← myproc;
  match op with
  | None => panic "sleep"
  | Some p =>
      (if bool_decide (lk = ptable_lock) then mret tt
       else acquire ptable_lock;; release lk);;
      upd_proc p (fun pr => pr <| pchan := Some ch |>);;
      upd_proc p (fun pr => pr <| state := SLEEPING |>);;
      sched;;
      upd_proc p (fun pr => pr <| pchan := None |>);;
      (if bool_decide (lk = ptable_lock) then mret tt
       else release ptable_lock;; acquire lk)
  end.

(** ** Waking up *)

Definition wake (ch : option chan) (p : proc) : proc :=
  if bool_decide (state p = SLEEPING /\ pchan p = ch)
  then p <| state := RUNNABLE |> else p.

Definition wakeup1 (ch : option chan) : K unit :=
  modify (fun s => s <| k_procs ::= map (wake ch) |>).

Definition wakeup (ch : chan) : K unit :=
  acquire ptable_lock;; wakeup1 (Some ch);; release ptable_lock.

Definition kill (pd : Z) : K Z :=
  acquire ptable_lock;;
  s ← get;
  match find_idx (fun p => pid p =? pd) (k_procs s) with
  | Some i =>
      upd_proc i (fun p => p <| killed := 1 |>);;
      p ← proc_at i;
      when (bool_decide (state p = SLEEPING))
        (upd_proc i (fun p => p <| state := RUNNABLE |>));;
      release ptable_lock;;
      mret 0
  | None => release ptable_lock;; mret (-1)
  end.

(** ** Sleep-locks *)

Definition sl_at (l : sleepid) : K sleeplock :=
  match l with
  | SBuf i => b ← buf_at i; mret (blk b)
  | SInode i => ip ← inode_at i; mret (ilk ip)
  end.

Definition upd_sl (l : sleepid) (f : sleeplock -> sleeplock) : K unit :=
  match l with
  | SBuf i => upd_buf i (fun b => b <| blk ::= f |>)
  | SInode i => upd_inode i (fun ip => ip <| ilk ::= f |>)
  end.

Definition initsleeplock (l : sleepid) : K unit :=
  upd_sl l (fun k => k <| sl_locked := 0 |>);; upd_sl l (fun k => k <| sl_pid := 0 |>).

Definition acquiresleep {F : Fuel} (l : sleepid) : K unit :=
  acquire (sleep_lk l);;
  while_loop fuel (fun _ : unit =>
    k ← sl_at l;
    if sl_locked k =? 0 then mret (inr tt)
    else sleep (CSleep l) (sleep_lk l);; mret (inl tt)) tt;;
  upd_sl l (fun k => k <| sl_locked := 1 |>);;
  p ← curproc; pr ← proc_at p;
  upd_sl l (fun k => k <| sl_pid := pid pr |>);;
  release (sleep_lk l).

Definition releasesleep (l : sleepid) : K unit :=
  acquire (sleep_lk l);;
  upd_sl l (fun k => k <| sl_locked := 0 |>);;
  upd_sl l (fun k => k <| sl_pid := 0 |>);;
  wakeup (CSleep l);;
  release (sleep_lk l).

Definition holdingsleep (l : sleepid) : K Z :=
  acquire (sleep_lk l);;
  k ← sl_at l;
  release (sleep_lk l);;
  mret (sl_locked k).
