(* ===== verification/Umem.v ===== *)
(** * Access to user memory

    The kernel reads and writes user memory through the page table the
    processor uses.  An access to a page that is not mapped (or, for a store,
    not writable: the kernel runs with write protection on) raises a page
    fault in the kernel, which [trap] answers with a panic. *)

From S2P Require Import Prelude Params Bytes Kernel Vm.

Definition writable_pte (pte : Z) : bool := negb (Z.land pte PTE_W =? 0).

(** The kernel address of the byte at user address [va]. *)
Definition translate (m : gmap Z Z) (pgdir va : Z) (write : bool) : option Z :=
  let pde := rd32 m (pgdir + 4 * PDX va) in
  let pte := rd32 m (P2V (PTE_ADDR pde) + 4 * PTX va) in
  if present pde && present pte && (negb write || (writable_pte pde && writable_pte pte))
  then Some (P2V (PTE_ADDR pte) + va mod PGSIZE) else None.

Definition uaddr (va : Z) (write : bool) : K Z :=
  s ← get;
  match translate (k_mem s) (P2V (k_cr3 s)) va write with
  | Some a => mret a
  | None => panic "trap"
  end.

Definition uload8 (va : Z) : K Z := a ← uaddr va false; gets (fun s => rd (k_mem s) a).

Definition ustore8 (va v : Z) : K unit :=
  a ← uaddr va true; modify (fun s => s <| k_mem ::= wr a (u8 v) |>).

(** [n] bytes from address [va] on; addresses are 32 bits wide. *)
Fixpoint uload (n : nat) (va : Z) : K (list Z) :=
  match n with
  | O => mret []
  | S n' => c ← uload8 va; cs ← uload n' (u32 (va + 1)); mret (c :: cs)
  end.

Fixpoint ustore (va : Z) (d : list Z) : K unit :=
  match d with
  | [] => mret tt
  | c :: d' => ustore8 va c;; ustore (u32 (va + 1)) d'
  end.

Definition uload32 (va : Z) : K Z := d ← uload 4 va; mret (get32 d 0).
Definition ustore32 (va v : Z) : K unit := ustore va (le32 v).
