(* ===== verification/Args.v ===== *)
(** * syscall.c: system call arguments *)

From S2P Require Import Prelude Params Bytes CString Kernel Vm Umem Sleep.

(** [fetchint]: [None] is the result -1. *)
Definition fetchint (addr : Z) : K (option Z) :=
  p ← curproc; pr ← proc_at p;
  if (addr >=? sz pr) || (u32 (addr + 4) >? sz pr) then mret None
  else v ← uload32 addr; mret (Some (s32 v)).

(** The loop [for(s = *pp; s < ep; s++) if( *s == 0) return s - *pp]. *)
Fixpoint fetchstr_loop (n : nat) (s : Z) (acc : list Z) : K (option (list Z)) :=
  match n with
  | O => mret None
  | S n' =>
      c ← uload8 s;
      if c =? 0 then mret (Some acc) else fetchstr_loop n' (s + 1) (acc ++ [c])
  end.

(** The string at [addr]; its length is what the source returns. *)
Definition fetchstr (addr : Z) : K (option (list Z)) :=
  p ← curproc; pr ← proc_at p;
  if addr >=? sz pr then mret None
  else fetchstr_loop (Z.to_nat (sz pr - addr)) addr [].

Definition argint (n : Z) : K (option Z) :=
  p ← curproc; pr ← proc_at p;
  fetchint (u32 (tf_esp (tf pr) + 4 + 4 * n)).

(** The address, checked to be the start of [size] bytes of the process. *)
Definition argptr (n size : Z) : K (option Z) :=
  p ← curproc; pr ← proc_at p;
  o ← argint n;
  match o with
  | None => mret None
  | Some i =>
      if (size <? 0) || (u32 i >=? sz pr) || (u32 (u32 i + size) >? sz pr) then mret None
      else mret (Some (u32 i))
  end.

Definition argstr (n : Z) : K (option (list Z)) :=
  o ← argint n;
  match o with None => mret None | Some a => fetchstr (u32 a) end.
