(* ===== verification/Sched.v ===== *)
(** * The scheduler (proc.c): MLFQ queues, stride table, [scheduler]

    Definitions first: the multi-level feedback queue ([MLFQ_in],
    [MLFQ_out], [MLFQ]), stride scheduling ([stride], [path_cal],
    [set_table]), the address-space switch and the scheduler loop. *)

From S2P Require Import Prelude Params Kernel Print Vm Sleep.

(** ** Table access

    [mlfq] and [stride_table] have [NSTRIDE] entries and are indexed by pid,
    [mlfq_lev] has three; an entry never written is zero. *)

Definition mlfq_at (i : Z) (s : kernel) : mlfq_ent := default mlfq_ent0 (k_mlfq s !! i).
Definition stride_at (i : Z) (s : kernel) : stride_ent := default stride_ent0 (k_stride s !! i).
Definition lev_at (i : Z) (s : kernel) : mlfq_level := default mlfq_level0 (k_lev s !! i).

#[global] Arguments mlfq_at : simpl never.
#[global] Arguments stride_at : simpl never.
#[global] Arguments lev_at : simpl never.

Definition upd_mlfq (i : Z) (f : mlfq_ent -> mlfq_ent) : K unit :=
  modify (fun s => s <| k_mlfq ::= insert i (f (mlfq_at i s)) |>).
Definition upd_stride (i : Z) (f : stride_ent -> stride_ent) : K unit :=
  modify (fun s => s <| k_stride ::= insert i (f (stride_at i s)) |>).
Definition upd_lev (i : Z) (f : mlfq_level -> mlfq_level) : K unit :=
  modify (fun s => s <| k_lev ::= insert i (f (lev_at i s)) |>).

(** ** The multi-level feedback queue *)

Definition MLFQ_in (p : nat) (level code : Z) : K unit :=
  L ← gets (lev_at level);
  if bool_decide (lhead L = None) || bool_decide (lend L = None) then mret tt
  else
    pr ← proc_at p;
    let n := pid pr in
    when (code =? 0)
      (upd_mlfq n (fun e => e <| my_tick := 0 |> <| sum_tick := 0 |> <| is_mlfq := 1 |> <| lev := level |> <| mproc := Some p |>));;
    (if lsize L =? 0 then
       upd_mlfq n (fun e => e <| mprev := Some n |> <| mnext := Some n |>);;
       upd_lev level (fun l => l <| lend := Some n |> <| lhead := Some n |>)
     else
       upd_mlfq n (fun e => e <| mprev := lend L |> <| mnext := lhead L |>);;
       h ← deref (lhead L);
       upd_mlfq h (fun e => e <| mprev := Some n |>);;
       t ← deref (lend L);
       upd_mlfq t (fun e => e <| mnext := Some n |>);;
       upd_lev level (fun l => l <| lend := Some n |>));;
    upd_lev level (fun l => l <| lsize := s32 (lsize l + 1) |>).

(** The part of [MLFQ_out] that unlinks the head of the level; [false] when
    the function returns early. *)
Definition MLFQ_unlink (level : Z) : K bool :=
  L ← gets (lev_at level);
  if lsize L <=? 0 then mret false
  else if lsize L =? 1 then
    upd_lev level (fun l => l <| lsize := s32 (lsize l - 1) |> <| lend := None |> <| lhead := None |>);;
    mret true
  else
    match lhead L with
    | None => mret false
    | Some h =>
        upd_lev level (fun l => l <| lsize := s32 (lsize l - 1) |>);;
        e ← gets (mlfq_at h);
        upd_lev level (fun l => l <| lhead := mnext e |>);;
        t ← deref (lend L);
        upd_mlfq t (fun x => x <| mnext := mnext e |>);;
        L' ← gets (lev_at level);
        h' ← deref (lhead L');
        upd_mlfq h' (fun x => x <| mprev := lend L' |>);;
        mret true
    end.

Definition MLFQ_out (p : nat) (level code : Z) : K unit :=
  go ← MLFQ_unlink level;
  if negb go then mret tt
  else
    pr ← proc_at p;
    let n := pid pr in
    if code =? 0 then
      upd_mlfq n (fun e => e <| my_tick := 0 |> <| sum_tick := 0 |> <| mnext := None |> <| mprev := None |> <| is_mlfq := -1 |> <| lev := -1 |> <| run := 0 |>)
    else
      upd_mlfq n (fun e => e <| mnext := None |> <| mprev := None |>);;
      MLFQ_in p level 1.

(** The periodic boost at the start of [MLFQ]: levels 1 and 2 are moved to
    level 0.  The loop bound is the level's size, read again at each turn. *)
Definition MLFQ_boost (i : Z) : K unit :=
  L ← gets (lev_at i);
  if bool_decide (lhead L = None) then mret tt
  else if lsize L <=? 0 then mret tt
  else
    for_lt (S (Z.to_nat (lsize L))) 0 (fun s => lsize (lev_at i s)) (fun _ =>
      L ← gets (lev_at i);
      match lhead L with
      | None => mret tt
      | Some h =>
          upd_mlfq h (fun e => e <| run := 0 |>);;
          e ← gets (mlfq_at h);
          p ← deref (mproc e);
          MLFQ_out p i 0;;
          MLFQ_in p 0 0
      end).

(** One turn of [MLFQ]'s search over the levels: [inl] goes on with the next
    level, [inr] is the [return] of the function. *)
Definition MLFQ_try (i : Z) : K (unit + option nat) :=
  L ← gets (lev_at i);
  if negb (lsize L >? 0) then mret (inl tt)
  else
    for_lt (S (Z.to_nat (lsize L))) 0 (fun s => lsize (lev_at i s)) (fun _ =>
      L ← gets (lev_at i);
      match lhead L with
      | None => mret tt
      | Some h =>
          e ← gets (mlfq_at h);
          p ← deref (mproc e);
          pr ← proc_at p;
          when (negb (bool_decide (state pr = RUNNABLE)))
            (upd_mlfq h (fun e => e <| run := 0 |>);; MLFQ_out p i 1)
      end);;
    L ← gets (lev_at i);
    h ← deref (lhead L);
    e ← gets (mlfq_at h);
    p ← deref (mproc e);
    pr ← proc_at p;
    if negb (bool_decide (state pr = RUNNABLE)) then mret (inl tt)
    else
      (if (lsize L >? 1) && (run e =? 1) && (rr_tick L >=? rr_tick_limit L) then
         upd_mlfq h (fun e => e <| run := 0 |>);;
         upd_lev i (fun l => l <| rr_tick := 0 |>);;
         MLFQ_out p i 1
       else upd_mlfq h (fun e => e <| run := 0 |>));;
      L ← gets (lev_at i);
      h ← deref (lhead L);
      upd_mlfq h (fun e => e <| run := 1 |>);;
      upd_lev i (fun l => l <| rr_tick := s32 (rr_tick l + 1) |>);;
      e ← gets (mlfq_at h);
      mret (inr (mproc e)).

Definition MLFQ : K (option nat) :=
  modify (fun s => s <| k_tick_mlfq ::= fun t => s32 (t + 1) |>);;
  t ← gets k_tick_mlfq;
  when (Z.rem t 100 =? 0) (MLFQ_boost 1;; MLFQ_boost 2);;
  r ← for_loop 3 0 (fun i (_ : unit) => MLFQ_try (Z.of_nat i)) tt;
  match r with inl _ => mret None | inr p => mret p end.

(** ** Stride scheduling *)

Definition stride (destination : Z) : K (option nat) :=
  e ← gets (stride_at destination);
  if st_share e <? 0 then panic "no!"
  else if st_share e =? 0 then fault "divide error"
  else
    upd_stride destination
      (fun e => e <| st_path := s32 (st_path e + Z.quot 10000 (st_share e)) |>);;
    e ← gets (stride_at destination);
    mret (st_proc e).

(** The loop of [path_cal]: [n] entries left, the next one is [i]. *)
Fixpoint path_scan (s : kernel) (n : nat) (i minimum destination : Z) : Z :=
  match n with
  | O => destination
  | S n' =>
      let e := stride_at i s in
      if (i =? 1) || (i =? 2) then path_scan s n' (i + 1) minimum destination
      else if (st_full e =? 1) && (st_path e <? minimum)
           then path_scan s n' (i + 1) (st_path e) i
           else path_scan s n' (i + 1) minimum destination
  end.

Definition path_cal : K Z :=
  gets (fun s => path_scan s (Z.to_nat (k_max_pid s + 1)) 0 2147483647 0).

Definition set_table (input : Z) : K unit :=
  s ← get;
  if k_max_pid s >? NSTRIDE - 1 then cprintf ("don't set stride!" +:+ nl) []
  else if s32 (k_max_sum s + input) >? 80 then mret tt
  else
    modify (fun s => s <| k_max_sum ::= fun m => s32 (m + input) |>);;
    modify (fun s => s <| k_table_size ::= fun m => s32 (m + 1) |>);;
    p ← curproc;
    pr ← proc_at p;
    let n := pid pr in
    when (k_max_pid s <? n) (modify (fun s => s <| k_max_pid := n |>));;
    m ← gets k_max_sum;
    upd_stride 0 (fun e => e <| st_share := s32 (100 - m) |>);;
    upd_stride n (fun e => e <| st_share := input |> <| st_pid := n |> <| st_full := 1 |> <| st_path := 0 |> <| st_proc := Some p |> <| st_is_stride := 1 |>);;
    top ← gets k_max_pid;
    for_each (Z.to_nat top) 0 (fun i =>
      upd_stride (Z.of_nat i) (fun e => e <| st_path := 0 |>)).

(** The system calls on the tables (set_cpu_share.c, getlev.c). *)

Definition set_cpu_share (a : Z) : K Z :=
  set_table a;;
  p ← curproc;
  pr ← proc_at p;
  e ← gets (stride_at (pid pr));
  if st_share e =? a then mret a else mret (-1).

Definition getlev : K Z :=
  p ← curproc;
  pr ← proc_at p;
  e ← gets (mlfq_at (pid pr));
  mret (lev e).

(** ** The scheduler *)

(** Releasing the stride entry of a process that ended. *)
Definition stride_drop (n : Z) : K unit :=
  e ← gets (stride_at n);
  when (st_is_stride e =? 1)
    (upd_stride n (fun e => e <| st_full := 0 |> <| st_is_stride := 0 |>);;
     modify (fun s => s <| k_max_sum ::= fun m => s32 (m - st_share e) |>);;
     modify (fun s => s <| k_table_size ::= fun m => s32 (m - 1) |>);;
     m ← gets k_max_sum;
     upd_stride 0 (fun e => e <| st_share := s32 (100 - m) |>)).

(** What [scheduler] does after process [p] gave the processor back. *)
Definition after_switch (p : nat) : K unit :=
  switchkvm;;
  pr ← proc_at p;
  let n := pid pr in
  t ← gets k_ticks;
  upd_mlfq n (fun e => e <| sum_tick := s32 (sum_tick e + (t - my_tick e)) |>);;
  m ← gets (mlfq_at n);
  e ← gets (stride_at n);
  L ← gets (lev_at (lev m));
  (if bool_decide (state pr = ZOMBIE) then
     stride_drop n;;
     when (is_mlfq m =? 1) (MLFQ_out p (lev m) 0)
   else if (is_mlfq m =? 1) && (st_is_stride e =? 1) then
     MLFQ_out p (lev m) 0
   else if (is_mlfq m =? 1) && (sum_tick m >=? able_tick L) then
     when (negb (lev m =? 2)) (MLFQ_out p (lev m) 0;; MLFQ_in p (lev m + 1) 0)
   else mret tt);;
  modify (fun s => s <| k_cur := None |>).

(** Choosing a process: the loop variable after the choice. *)
Definition choose (p0 : nat) : K nat :=
  pr ← proc_at p0;
  m ← gets (mlfq_at (pid pr));
  e ← gets (stride_at (pid pr));
  when ((is_mlfq m =? 0) && (st_is_stride e =? 0) && (pid pr >? 2)) (MLFQ_in p0 0 0);;
  result ← path_cal;
  p ← (if negb (result =? 0) && (pid pr >? 2) then
         q ← stride result; deref q
       else mret p0);
  pr ← proc_at p;
  if (result =? 0) && (pid pr >? 2) then
    stride result;;
    q ← MLFQ;
    mret (default p q)
  else mret p.

(** The body of the loop over the process table; returns the loop variable. *)
Definition scheduler_body (p0 : nat) : K nat :=
  pr ← proc_at p0;
  if negb (bool_decide (state pr = RUNNABLE)) then mret p0
  else
    p ← choose p0;
    pr ← proc_at p;
    if negb (bool_decide (state pr = RUNNABLE)) then mret p
    else
      modify (fun s => s <| k_cur := Some p |>);;
      switchuvm p;;
      upd_proc p (fun pr => pr <| state := RUNNING |>);;
      t ← gets k_ticks;
      upd_mlfq (pid pr) (fun e => e <| my_tick := s32 t |>);;
      switch;;
      after_switch p;;
      mret p.

(** The loop [for(p = ptable.proc; p < &ptable.proc[NPROC]; p++)], at most
    [n] turns: a stride choice may move [p] back, so the code bounds none. *)
Fixpoint scheduler_scan (n : nat) (p : nat) : K unit :=
  if negb (p <? NPROC)%nat then mret tt
  else
    match n with
    | O => halt NoFuel
    | S n' => q ← scheduler_body p; scheduler_scan n' (S q)
    end.

Definition scheduler_init : K unit :=
  modify (fun s => s <| k_cur := None |>);;
  upd_stride 0 (fun e => e <| st_share := 100 |> <| st_pid := 2 |> <| st_full := 1 |>);;
  upd_lev 0 (fun l => l <| able_tick := 5 |>);;
  upd_lev 1 (fun l => l <| able_tick := 10 |>);;
  upd_lev 0 (fun l => l <| rr_tick_limit := 1 |> <| rr_tick_limit := 2 |> <| rr_tick_limit := 4 |>).

(** [rounds] turns of the endless outer loop, each scanning the table in at
    most [n] steps. *)
Definition scheduler (rounds n : nat) : K unit :=
  scheduler_init;;
  for_each rounds 0 (fun _ =>
    acquire ptable_lock;; scheduler_scan n 0;; release ptable_lock).

Lemma upd_mlfq_run (i : Z) (f : mlfq_ent -> mlfq_ent) (s : kernel) :
  upd_mlfq i f s = Done tt (s <| k_mlfq ::= insert i (f (mlfq_at i s)) |>).
Proof. reflexivity. Qed.

Lemma upd_stride_run (i : Z) (f : stride_ent -> stride_ent) (s : kernel) :
  upd_stride i f s = Done tt (s <| k_stride ::= insert i (f (stride_at i s)) |>).
Proof. reflexivity. Qed.

Lemma upd_lev_run (i : Z) (f : mlfq_level -> mlfq_level) (s : kernel) :
  upd_lev i f s = Done tt (s <| k_lev ::= insert i (f (lev_at i s)) |>).
Proof. reflexivity. Qed.

#[export] Hint Resolve upd_mlfq_run upd_stride_run upd_lev_run : krun.

(** Reading an entry after writing one. *)

Lemma lev_at_insert (i j : Z) (x : mlfq_level) (s : kernel) :
  lev_at j (s <| k_lev ::= insert i x |>) = if decide (i = j) then x else lev_at j s.
Proof. unfold lev_at. simpl. rewrite lookup_insert. case_decide; reflexivity. Qed.

Lemma mlfq_at_insert (i j : Z) (x : mlfq_ent) (s : kernel) :
  mlfq_at j (s <| k_mlfq ::= insert i x |>) = if decide (i = j) then x else mlfq_at j s.
Proof. unfold mlfq_at. simpl. rewrite lookup_insert. case_decide; reflexivity. Qed.

Lemma stride_at_insert (i j : Z) (x : stride_ent) (s : kernel) :
  stride_at j (s <| k_stride ::= insert i x |>) = if decide (i = j) then x else stride_at j s.
Proof. unfold stride_at. simpl. rewrite lookup_insert. case_decide; reflexivity. Qed.

Lemma lev_at_mlfq (j : Z) (f : gmap Z mlfq_ent -> gmap Z mlfq_ent) (s : kernel) :
  lev_at j (s <| k_mlfq ::= f |>) = lev_at j s.
Proof. reflexivity. Qed.

Lemma mlfq_at_lev (j : Z) (f : gmap Z mlfq_level -> gmap Z mlfq_level) (s : kernel) :
  mlfq_at j (s <| k_lev ::= f |>) = mlfq_at j s.
Proof. reflexivity. Qed.

Lemma stride_at_sum (j : Z) (f : Z -> Z) (s : kernel) :
  stride_at j (s <| k_max_sum ::= f |>) = stride_at j s.
Proof. reflexivity. Qed.

Lemma stride_at_size (j : Z) (f : Z -> Z) (s : kernel) :
  stride_at j (s <| k_table_size ::= f |>) = stride_at j s.
Proof. reflexivity. Qed.

Create Rewrite HintDb ktab.
#[export] Hint Rewrite stride_at_sum stride_at_size : ktab.
#[export] Hint Rewrite lev_at_insert mlfq_at_insert stride_at_insert lev_at_mlfq mlfq_at_lev : ktab.

(** Rewrites reads of updated tables and splits on the compared indices. *)
Ltac ktab := autorewrite with ktab; repeat (case_decide; simplify_eq; simpl; autorewrite with ktab).

(** ** The queues stay empty

    [MLFQ_in] returns without inserting when a level has no head or no end,
    and it is the only function that gives a level a head. *)

Definition mlfq_idle (s : kernel) : Prop :=
  forall l, lhead (lev_at l s) = None /\ lend (lev_at l s) = None /\ lsize (lev_at l s) = 0.

Lemma MLFQ_in_idle (p : nat) (level code : Z) (s : kernel) :
  mlfq_idle s -> MLFQ_in p level code s = Done tt s.
Proof.
  intros H. unfold MLFQ_in, mbind, M_bind. simpl.
  destruct (H level) as (-> & _ & _). reflexivity.
Qed.

Lemma MLFQ_out_idle (p : nat) (level code : Z) (s : kernel) :
  mlfq_idle s -> MLFQ_out p level code s = Done tt s.
Proof.
  intros H. unfold MLFQ_out, MLFQ_unlink, mbind, M_bind. simpl.
  destruct (H level) as (_ & _ & ->). reflexivity.
Qed.

Lemma MLFQ_boost_idle (i : Z) (s : kernel) : mlfq_idle s -> MLFQ_boost i s = Done tt s.
Proof.
  intros H. unfold MLFQ_boost, mbind, M_bind. simpl.
  destruct (H i) as (-> & _ & _). reflexivity.
Qed.

Lemma MLFQ_try_idle (i : Z) (s : kernel) : mlfq_idle s -> MLFQ_try i s = Done (inl tt) s.
Proof.
  intros H. unfold MLFQ_try, mbind, M_bind. simpl.
  destruct (H i) as (_ & _ & ->). reflexivity.
Qed.

Lemma MLFQ_idle (s : kernel) :
  mlfq_idle s -> MLFQ s = Done None (s <| k_tick_mlfq ::= fun t => s32 (t + 1) |>).
Proof.
  intros H. unfold MLFQ.
  set (s1 := s <| k_tick_mlfq ::= fun t => s32 (t + 1) |>).
  assert (H1 : mlfq_idle s1) by exact H.
  rewrite (bind_Done _ _ s s1 tt) by reflexivity.
  rewrite (bind_Done _ _ s1 s1 (k_tick_mlfq s1)) by reflexivity.
  rewrite (bind_Done _ _ s1 s1 tt).
  2: { destruct (_ =? 0); [|reflexivity]. simpl.
       rewrite (bind_Done _ _ s1 s1 tt); apply MLFQ_boost_idle; exact H1. }
  rewrite (bind_Done _ _ s1 s1 (inl tt)); [reflexivity|]. simpl.
  do 3 (rewrite (bind_Done _ _ s1 s1 (inl tt)); [|apply MLFQ_try_idle; exact H1]).
  reflexivity.
Qed.

Lemma idle_ext (s t : kernel) : k_lev t = k_lev s -> mlfq_idle s -> mlfq_idle t.
Proof. intros E H l. unfold lev_at. rewrite E. apply H. Qed.

(** ** The queue of a level is a ring

    A level that holds the pids [q] in order: [lhead] is the first, [lend] the
    last, and following [mnext] ([mprev]) goes once around. *)

Fixpoint chain (s : kernel) (l : list Z) : Prop :=
  match l with
  | a :: ((b :: _) as l') =>
      mnext (mlfq_at a s) = Some b /\ mprev (mlfq_at b s) = Some a /\ chain s l'
  | _ => True
  end.

Definition ring (s : kernel) (level : Z) (q : list Z) : Prop :=
  NoDup q /\ lsize (lev_at level s) = Z.of_nat (length q) /\
  lhead (lev_at level s) = head q /\ lend (lev_at level s) = last q /\
  match q with [] => True | h :: _ => chain s (q ++ [h]) end.

Lemma chain_app (s : kernel) (l1 l2 : list Z) (x : Z) :
  chain s (l1 ++ x :: l2) <-> chain s (l1 ++ [x]) /\ chain s (x :: l2).
Proof.
  induction l1 as [|a l1 IH]; simpl; [tauto|].
  destruct l1 as [|b l1]; simpl in *; [tauto|]. tauto.
Qed.

(** A chain depends on [mnext] of all its elements but the last and on
    [mprev] of all but the first. *)
Lemma chain_frame (s t : kernel) (a : Z) (l : list Z) :
  (forall x, x ∈ a :: l -> Some x <> last (a :: l) -> mnext (mlfq_at x t) = mnext (mlfq_at x s)) ->
  (forall x, x ∈ l -> mprev (mlfq_at x t) = mprev (mlfq_at x s)) ->
  NoDup (a :: l) -> chain s (a :: l) -> chain t (a :: l).
Proof.
  revert a. induction l as [|b l IH]; intros a Hn Hp Hd Hc; [exact I|].
  destruct Hc as (H1 & H2 & Hc). apply NoDup_cons in Hd as [Ha Hd].
  split_and!.
  - rewrite Hn; [exact H1|set_solver|]. rewrite last_cons_cons. intros E.
    apply Ha, last_Some_elem_of. congruence.
  - rewrite Hp; [exact H2|set_solver].
  - apply IH; [|set_solver|exact Hd|exact Hc].
    intros x Hx Hl. apply Hn; [set_solver|]. rewrite last_cons_cons. exact Hl.
Qed.

(** Closing a chain into a ring, from its first element to its last. *)
Lemma chain_close (s : kernel) (q : list Z) (h e : Z) :
  head q = Some h -> last q = Some e ->
  chain s (q ++ [h]) <-> chain s q /\ mnext (mlfq_at e s) = Some h /\ mprev (mlfq_at h s) = Some e.
Proof.
  intros Hh He. apply last_Some in He as [l ->].
  rewrite <- app_assoc. simpl. rewrite chain_app. simpl. tauto.
Qed.

Lemma ring_append (s t : kernel) (level : Z) (q : list Z) (h e n : Z) :
  ring s level q -> head q = Some h -> last q = Some e -> n ∉ q ->
  lsize (lev_at level t) = lsize (lev_at level s) + 1 ->
  lhead (lev_at level t) = Some h -> lend (lev_at level t) = Some n ->
  mnext (mlfq_at e t) = Some n -> mprev (mlfq_at n t) = Some e ->
  mnext (mlfq_at n t) = Some h -> mprev (mlfq_at h t) = Some n ->
  (forall x, x ∈ q -> x <> e -> mnext (mlfq_at x t) = mnext (mlfq_at x s)) ->
  (forall x, x ∈ q -> x <> h -> mprev (mlfq_at x t) = mprev (mlfq_at x s)) ->
  ring t level (q ++ [n]).
Proof.
  intros (Hd & Hs & _ & _ & Hc) Hh He Hn Ts Th Te E1 E2 E3 E4 Fn Fp.
  destruct q as [|h' q]; [discriminate|]. injection Hh as ->.
  apply (chain_close _ (h :: q) h e) in Hc as (Hc & _ & _); [|reflexivity|exact He].
  unfold ring. split_and!.
  - apply NoDup_app. split_and!; [exact Hd|set_solver|apply NoDup_singleton].
  - rewrite Ts, Hs, length_app. simpl. lia.
  - exact Th.
  - rewrite last_snoc. exact Te.
  - apply (chain_close _ (h :: q ++ [n]) h n); [reflexivity| |split; [|auto]].
    { change (h :: q ++ [n]) with ((h :: q) ++ [n]). apply last_snoc. }
    apply last_Some in He as [l Hl].
    change (chain t ((h :: q) ++ [n])). rewrite Hl, <- app_assoc. simpl. rewrite chain_app. simpl.
    split; [|auto]. rewrite <- Hl. apply (chain_frame s); [| |exact Hd|exact Hc].
    + intros x Hx Hne. apply Fn; [exact Hx|]. intros ->. apply Hne. rewrite Hl, last_snoc. reflexivity.
    + intros x Hx. apply Fp; [set_solver|]. apply NoDup_cons in Hd as [Hd _]. congruence.
Qed.

Lemma ring_pop (s t : kernel) (level : Z) (q : list Z) (h h2 e : Z) :
  ring s level (h :: h2 :: q) -> last (h2 :: q) = Some e ->
  lsize (lev_at level t) = lsize (lev_at level s) - 1 ->
  lhead (lev_at level t) = Some h2 -> lend (lev_at level t) = Some e ->
  mnext (mlfq_at e t) = Some h2 -> mprev (mlfq_at h2 t) = Some e ->
  (forall x, x ∈ h2 :: q -> x <> e -> mnext (mlfq_at x t) = mnext (mlfq_at x s)) ->
  (forall x, x ∈ h2 :: q -> x <> h2 -> mprev (mlfq_at x t) = mprev (mlfq_at x s)) ->
  ring t level (h2 :: q).
Proof.
  intros (Hd & Hs & _ & _ & Hc) He Ts Th Te E1 E2 Fn Fp.
  apply (chain_close _ (h :: h2 :: q) h e) in Hc as ((_ & _ & Hc) & _ & _); [|reflexivity|exact He].
  apply NoDup_cons in Hd as [_ Hd]. unfold ring. split_and!.
  - exact Hd.
  - rewrite Ts, Hs. simpl. lia.
  - exact Th.
  - rewrite He. exact Te.
  - apply (chain_close _ (h2 :: q) h2 e); [reflexivity|exact He|split; [|auto]].
    apply (chain_frame s); [| |exact Hd|exact Hc].
    + intros x Hx Hne. apply Fn; [exact Hx|]. congruence.
    + intros x Hx. apply Fp; [set_solver|]. apply NoDup_cons in Hd as [Hd _]. congruence.
Qed.

Lemma chain_ext (s t : kernel) (l : list Z) :
  (forall x, x ∈ l -> mnext (mlfq_at x t) = mnext (mlfq_at x s) /\ mprev (mlfq_at x t) = mprev (mlfq_at x s)) ->
  chain s l -> chain t l.
Proof.
  induction l as [|a [|b l] IH]; [auto|auto|]. intros H (H1 & H2 & Hc). split_and!.
  - destruct (H a) as [-> _]; [set_solver|exact H1].
  - destruct (H b) as [_ ->]; [set_solver|exact H2].
  - apply IH; [set_solver|exact Hc].
Qed.

Lemma ring_ext (s t : kernel) (level : Z) (q : list Z) :
  lsize (lev_at level t) = lsize (lev_at level s) ->
  lhead (lev_at level t) = lhead (lev_at level s) ->
  lend (lev_at level t) = lend (lev_at level s) ->
  (forall x, x ∈ q -> mnext (mlfq_at x t) = mnext (mlfq_at x s) /\ mprev (mlfq_at x t) = mprev (mlfq_at x s)) ->
  ring s level q -> ring t level q.
Proof.
  intros E1 E2 E3 H (Hd & Hs & Hh & He & Hc). unfold ring. rewrite E1, E2, E3. split_and!; auto.
  destruct q as [|h q]; [auto|]. apply (chain_ext s); [set_solver|exact Hc].
Qed.

(** The queue discipline as functions on lists of pids.  Inserting into an
    empty level does nothing: this is what the code does. *)
Definition q_in (q : list Z) (n : Z) : list Z := match q with [] => [] | _ => q ++ [n] end.

Lemma MLFQ_in_ring (p : nat) (pr : proc) (level code : Z) (s : kernel) (q : list Z) :
  ring s level q -> k_procs s !! p = Some pr -> pid pr ∉ q ->
  Z.of_nat (length q) < 2 ^ 31 - 1 ->
  exists t, MLFQ_in p level code s = Done tt t /\ ring t level (q_in q (pid pr)) /\
            k_procs t = k_procs s.
Proof.
  intros Hr Hp Hn Hlen. pose proof Hr as (Hd & Hs & Hh & He & Hc).
  unfold MLFQ_in. kstep. rewrite Hh, He.
  destruct q as [|h q]; [exists s; auto|]. simpl head.
  destruct (last_cons_is h q) as [e El]. rewrite El in *.
  simpl. kstep.
  match goal with |- context [when (code =? 0) ?m] =>
    assert (Hw : exists s1, when (code =? 0) m s = Done tt s1 /\ k_procs s1 = k_procs s /\
      lev_at level s1 = lev_at level s /\
      forall x, mnext (mlfq_at x s1) = mnext (mlfq_at x s) /\ mprev (mlfq_at x s1) = mprev (mlfq_at x s))
  end.
  { destruct (code =? 0); simpl; [|eauto 6]. eexists. split_and!; [reflexivity..|].
    intros x. ktab; auto. }
  destruct Hw as (s1 & E1 & P1 & L1 & F1). rewrite (bind_Done _ _ _ _ _ E1).
  rewrite Hs, (proj2 (Z.eqb_neq _ 0)) by (simpl; lia).
  kstep. eexists. split; [krun|]. split; [|exact P1].
  assert (Hne : pid pr <> h /\ pid pr <> e) by (apply last_Some_elem_of in El; set_solver).
  destruct Hne as [Nh Ne].
  apply (ring_append s1 _ level (h :: q) h e (pid pr)); [|reflexivity|exact El|exact Hn|..].
  { apply (ring_ext s); [congruence..| |exact Hr]. intros x _. apply F1. }
  all: try (intros x Hx Hxe); ktab; rewrite ?L1; try congruence; try done.
  rewrite s32_small; lia.
Qed.

(** Two rings stay apart when the pids of one are not touched. *)
Lemma MLFQ_unlink_ring (level : Z) (s : kernel) (n : Z) (q : list Z) :
  ring s level (n :: q) -> Z.of_nat (length (n :: q)) < 2 ^ 31 ->
  exists t, MLFQ_unlink level s = Done true t /\ ring t level q /\ k_procs t = k_procs s.
Proof.
  intros Hr Hlen. pose proof Hr as (Hd & Hs & Hh & He & Hc).
  unfold MLFQ_unlink. kstep. rewrite Hs.
  rewrite (proj2 (Z.leb_gt _ 0)) by (simpl; lia). cbv iota.
  destruct q as [|h2 q].
  - change (_ =? 1) with true. cbv iota. eexists. split; [krun|]. split; [|reflexivity].
    unfold ring. autorewrite with ktab. rewrite decide_True by reflexivity. simpl. rewrite Hs.
    split_and!; try reflexivity. apply NoDup_nil_2.
  - rewrite (proj2 (Z.eqb_neq _ 1)) by (simpl; lia). cbv iota.
    rewrite Hh, He. simpl head. rewrite last_cons_cons.
    destruct (last_cons_is h2 q) as [e El]. rewrite El.
    destruct (proj1 (chain_close s (n :: h2 :: q) n e eq_refl El) Hc)
      as ((C1 & C2 & _) & C3 & C4).
    apply NoDup_cons in Hd as [Hn Hd].
    eexists. split; [|split].
    + change (head (n :: h2 :: q)) with (Some n). cbv iota. kstep. kstep.
      autorewrite with ktab. rewrite C1. do 4 kstep.
      autorewrite with ktab. rewrite !decide_True by reflexivity. do 2 kstep. reflexivity.
    + apply (ring_pop s _ level q n h2 e); [exact Hr|exact El|..].
      all: try (intros x Hx Hxe); ktab; rewrite ?He; try congruence; try done.
      rewrite s32_small; lia.
    + reflexivity.
Qed.

(** Leaving the queue: what is left of it after [MLFQ_out] of its head. *)
Definition q_out (q : list Z) (code : Z) : list Z :=
  match q with
  | [] => []
  | n :: q' => if code =? 0 then q' else q_in q' n
  end.

Lemma MLFQ_out_ring (p : nat) (pr : proc) (level code : Z) (s : kernel) (q : list Z) :
  ring s level q -> k_procs s !! p = Some pr -> (forall n, head q = Some n -> pid pr = n) ->
  Z.of_nat (length q) < 2 ^ 31 ->
  exists t, MLFQ_out p level code s = Done tt t /\ ring t level (q_out q code) /\
            k_procs t = k_procs s.
Proof.
  intros Hr Hp Hq Hlen. destruct q as [|n q].
  { exists s. unfold MLFQ_out, MLFQ_unlink, mbind, M_bind. simpl.
    destruct Hr as (Hd & Hs & Hh & He & Hc). rewrite Hs. simpl. split_and!; auto.
    unfold ring. auto. }
  specialize (Hq n eq_refl). subst n.
  destruct (MLFQ_unlink_ring level s (pid pr) q Hr Hlen) as (s1 & E1 & R1 & P1).
  pose proof Hr as (Hd & _). apply NoDup_cons in Hd as [Hn Hd].
  unfold MLFQ_out. rewrite (bind_Done _ _ _ _ _ E1). simpl.
  rewrite <- P1 in Hp. kstep. destruct (code =? 0).
  - eexists. split; [krun|]. split; [|exact P1].
    apply (ring_ext s1); [ktab; reflexivity..| |exact R1]. intros x Hx. ktab; [set_solver|auto].
  - kstep.
    match goal with |- context [MLFQ_in p level 1 ?u] => set (s2 := u) end.
    destruct (MLFQ_in_ring p pr level 1 s2 q) as (t & Et & Rt & Pt).
    + apply (ring_ext s1); [ktab; reflexivity..| |exact R1]. intros x Hx. subst s2. ktab; [set_solver|auto].
    + exact Hp.
    + exact Hn.
    + simpl in Hlen. lia.
    + exists t. split_and!; [exact Et|exact Rt|]. rewrite Pt. exact P1.
Qed.

(** ** Choosing the smallest path *)

Definition client (s : kernel) (i : Z) : Prop :=
  0 <= i <= k_max_pid s /\ i <> 1 /\ i <> 2 /\ st_full (stride_at i s) = 1.

(** [i] is the choice among the clients in [lo, hi): the smallest path, the
    smallest index among equals. *)
Definition least (s : kernel) (lo hi i : Z) : Prop :=
  lo <= i < hi /\ i <> 1 /\ i <> 2 /\ st_full (stride_at i s) = 1 /\
  forall j, lo <= j < hi -> j <> 1 -> j <> 2 -> st_full (stride_at j s) = 1 ->
    st_path (stride_at i s) <= st_path (stride_at j s) /\
    (j < i -> st_path (stride_at i s) < st_path (stride_at j s)).

Lemma path_scan_spec (s : kernel) (n : nat) (i minimum destination : Z) :
  let d := path_scan s n i minimum destination in
  let hi := i + Z.of_nat n in
  (d = destination /\ forall j, i <= j < hi -> j <> 1 -> j <> 2 ->
     st_full (stride_at j s) = 1 -> minimum <= st_path (stride_at j s)) \/
  (least s i hi d /\ st_path (stride_at d s) < minimum).
Proof.
  revert i minimum destination. induction n as [|n IH]; intros i m d0; simpl.
  { left. split; [reflexivity|]. lia. }
  destruct ((i =? 1) || (i =? 2)) eqn:E12.
  { specialize (IH (i + 1) m d0) as [(-> & H)|((H1 & H2 & H3 & H4 & H5) & H6)].
    - left. split; [reflexivity|]. intros j Hj J1 J2. apply H; lia.
    - right. split; [|exact H6]. unfold least. split_and!; try lia; try assumption.
      intros j Hj J1 J2. apply H5; lia. }
  destruct ((st_full (stride_at i s) =? 1) && (st_path (stride_at i s) <? m)) eqn:Ec.
  - destruct (IH (i + 1) (st_path (stride_at i s)) i) as [(-> & H)|((H1 & H2 & H3 & H4 & H5) & H6)].
    + right. split; [|lia]. unfold least. split_and!; try lia.
      intros j Hj J1 J2 J3. destruct (decide (j = i)) as [->|Hne]; [lia|].
      specialize (H j ltac:(lia) J1 J2 J3). lia.
    + right. split; [|lia]. unfold least. split_and!; try lia; try assumption.
      intros j Hj J1 J2 J3. destruct (decide (j = i)) as [->|Hne]; [lia|].
      apply H5; [lia|assumption..].
  - destruct (IH (i + 1) m d0) as [(-> & H)|((H1 & H2 & H3 & H4 & H5) & H6)].
    + left. split; [reflexivity|]. intros j Hj J1 J2 J3.
      destruct (decide (j = i)) as [->|Hne]; [lia|]. apply H; [lia|assumption..].
    + right. split; [|exact H6]. unfold least. split_and!; try lia; try assumption.
      intros j Hj J1 J2 J3. destruct (decide (j = i)) as [->|Hne]; [lia|].
      apply H5; [lia|assumption..].
Qed.

Lemma path_cal_run (s : kernel) :
  path_cal s = Done (path_scan s (Z.to_nat (k_max_pid s + 1)) 0 2147483647 0) s.
Proof. reflexivity. Qed.

Lemma path_cal_client (s : kernel) (i : Z) :
  client s i -> st_path (stride_at i s) < 2147483647 ->
  exists d, path_cal s = Done d s /\ client s d /\
    st_path (stride_at d s) < 2147483647 /\
    (forall j, client s j -> st_path (stride_at d s) <= st_path (stride_at j s)) /\
    (forall j, client s j -> j < d -> st_path (stride_at d s) < st_path (stride_at j s)).
Proof.
  intros (Hi & I1 & I2 & I3) Hp. rewrite path_cal_run. eexists. split; [reflexivity|].
  destruct (path_scan_spec s (Z.to_nat (k_max_pid s + 1)) 0 2147483647 0)
    as [(_ & H)|((H1 & H2 & H3 & H4 & H5) & H6)].
  - specialize (H i ltac:(lia) I1 I2 I3). lia.
  - unfold client. split_and!; try lia; try assumption.
    + intros j (Hj & J1 & J2 & J3). apply H5; [lia|assumption..].
    + intros j (Hj & J1 & J2 & J3) Hlt. apply H5; [lia|assumption..|lia].
Qed.

Lemma stride_run (s : kernel) (d : Z) :
  0 < st_share (stride_at d s) ->
  stride d s = Done (st_proc (stride_at d s))
    (s <| k_stride ::= insert d (stride_at d s
       <| st_path := s32 (st_path (stride_at d s) + Z.quot 10000 (st_share (stride_at d s))) |>) |>).
Proof.
  intros H. unfold stride. kstep. rewrite (proj2 (Z.ltb_ge _ 0)), (proj2 (Z.eqb_neq _ 0)) by lia.
  cbv iota. kstep. kstep. autorewrite with ktab. rewrite decide_True by reflexivity. reflexivity.
Qed.

(** ** Proportional share

    A run of [n] scheduling decisions: the destinations chosen, in order. *)
Fixpoint decisions (n : nat) : K (list Z) :=
  match n with
  | O => mret []
  | S n' => d ← path_cal; stride d;; ds ← decisions n'; mret (d :: ds)
  end.

(** The advance of a client's path per decision. *)
Definition step (s : kernel) (i : Z) : Z := Z.quot 10000 (st_share (stride_at i s)).

Definition times (i : Z) (ds : list Z) : Z := Z.of_nat (length (filter (eq i) ds)).

(** Clients have positive shares, and no client is ahead of another by more
    than its own step. *)
Definition balanced (s : kernel) : Prop :=
  client s 0 /\
  forall i, client s i -> 0 < st_share (stride_at i s) /\ 0 <= st_path (stride_at i s) /\
    forall j, client s j -> st_path (stride_at i s) <= st_path (stride_at j s) + step s i.

Lemma step_bounds (s : kernel) (i : Z) : 0 < st_share (stride_at i s) -> 0 <= step s i <= 10000.
Proof.
  intros H. unfold step. rewrite Z.quot_div_nonneg by lia.
  split; [apply Z.div_pos; lia|]. apply Z.div_le_upper_bound; nia.
Qed.

(** One decision from a balanced state. *)
Lemma decide_once (s : kernel) (b : Z) :
  balanced s -> (forall i, client s i -> st_path (stride_at i s) <= b) -> b + 10000 < 2147483647 ->
  exists d t, (d ← path_cal; stride d;; mret d) s = Done d t /\ client s d /\ balanced t /\
    (forall i, client t i <-> client s i) /\ (forall i, step t i = step s i) /\
    (forall i, st_path (stride_at i t) = st_path (stride_at i s) + if decide (d = i) then step s i else 0).
Proof.
  intros [H0 Hb] Hle Hlt.
  destruct (path_cal_client s 0 H0) as (d & Ed & Hd & Hdl & Hmin & _); [specialize (Hle 0 H0); lia|].
  destruct (Hb d Hd) as (Sd & Pd & Bd). pose proof (step_bounds s d Sd) as Rd.
  pose proof (Hle d Hd) as Ld.
  eexists d, _. split.
  { erewrite (bind_Done _ _ _ _ _ Ed), (bind_Done _ _ _ _ _ (stride_run s d Sd)). reflexivity. }
  fold (step s d). rewrite s32_small by lia.
  set (t := s <| k_stride ::= _ |>).
  assert (Ft : forall i, stride_at i t =
    if decide (d = i) then stride_at d s <| st_path := st_path (stride_at d s) + step s d |> else stride_at i s).
  { intros i. subst t. apply stride_at_insert. }
  assert (Ct : forall i, client t i <-> client s i).
  { intros i. unfold client. rewrite Ft. case_decide as E; [rewrite <- E|]; reflexivity. }
  assert (St : forall i, step t i = step s i).
  { intros i. unfold step. rewrite Ft. case_decide as E; [rewrite <- E|]; reflexivity. }
  assert (Pt : forall i, st_path (stride_at i t) =
    st_path (stride_at i s) + if decide (d = i) then step s i else 0).
  { intros i. rewrite Ft. case_decide as E; [rewrite <- E; reflexivity|lia]. }
  split_and!; [exact Hd| |exact Ct|exact St|exact Pt].
  split; [apply Ct, H0|]. intros i Hi. apply Ct in Hi. destruct (Hb i Hi) as (Si & Pi & Bi).
  pose proof (step_bounds s i Si) as Ri. split_and!.
  - rewrite Ft. case_decide as E; [rewrite <- E in Si|]; exact Si.
  - rewrite Pt. case_decide; lia.
  - intros j Hj. apply Ct in Hj. rewrite St, !Pt. specialize (Bi j Hj). specialize (Hmin j Hj).
    destruct (decide (d = i)) as [<-|]; destruct (decide (d = j)) as [<-|]; lia.
Qed.

Lemma decisions_run (n : nat) (s : kernel) (b : Z) :
  balanced s -> (forall i, client s i -> st_path (stride_at i s) <= b) ->
  b + Z.of_nat n * 10000 < 2147483647 ->
  exists ds t, decisions n s = Done ds t /\ length ds = n /\ balanced t /\
    (forall i, client t i <-> client s i) /\ (forall i, step t i = step s i) /\
    (forall i, st_path (stride_at i t) = st_path (stride_at i s) + times i ds * step s i).
Proof.
  revert s b. induction n as [|n IH]; intros s b Hb Hle Hlt.
  { exists [], s. split_and!; auto; try reflexivity. intros i. unfold times. simpl. lia. }
  destruct (decide_once s b Hb Hle) as (d & t & E & Hd & Hbt & Ct & St & Pt); [lia|].
  destruct (IH t (b + 10000)) as (ds & u & Eu & Lu & Hbu & Cu & Su & Pu); [exact Hbt| |lia|].
  { intros i Hi. rewrite Pt. apply Ct in Hi. destruct Hb as [_ Hb].
    pose proof (step_bounds s i (proj1 (Hb i Hi))). specialize (Hle i Hi). case_decide; lia. }
  exists (d :: ds), u. split_and!.
  - apply bind_Done_inv in E as (d' & s1 & E1 & E2).
    apply bind_Done_inv in E2 as (? & s2 & E2 & E3). injection E3 as <- <-.
    simpl. rewrite (bind_Done _ _ _ _ _ E1), (bind_Done _ _ _ _ _ E2), (bind_Done _ _ _ _ _ Eu).
    reflexivity.
  - simpl. congruence.
  - exact Hbu.
  - intros i. rewrite Cu. apply Ct.
  - intros i. rewrite Su. apply St.
  - intros i. rewrite Pu, St, Pt. unfold times. rewrite filter_cons.
    destruct (decide (d = i)) as [<-|Hne].
    + rewrite decide_True by reflexivity. simpl length. lia.
    + rewrite decide_False by congruence. lia.
Qed.

(** ** Registering a share *)

(** The loop at the end of [set_table]. *)
Lemma reset_paths_run (n i : nat) (s : kernel) :
  exists t, for_each n i (fun i => upd_stride (Z.of_nat i) (fun e => e <| st_path := 0 |>)) s = Done tt t /\
    t = s <| k_stride := k_stride t |> /\
    forall j, stride_at j t =
      if decide (Z.of_nat i <= j < Z.of_nat i + Z.of_nat n)
      then stride_at j s <| st_path := 0 |> else stride_at j s.
Proof.
  revert i s. induction n as [|n IH]; intros i s; simpl.
  { exists s. split_and!; try reflexivity. intros j. rewrite decide_False by lia. reflexivity. }
  kstep. set (s1 := s <| k_stride ::= _ |>).
  destruct (IH (S i) s1) as (t & E & Et & Ht). exists t. split_and!; [exact E| |].
  { rewrite Et. reflexivity. }
  intros j. rewrite Ht. subst s1. rewrite stride_at_insert.
  repeat case_decide; simplify_eq; try lia; reflexivity.
Qed.

(** What [set_table] does when it accepts a share: the entry of the caller is
    written, entry 0 keeps the rest of the processor, and the paths of the
    entries below [max_pid] start again from 0. *)
Definition set_entry (s : kernel) (p : nat) (n input top sum i : Z) : stride_ent :=
  if decide (i = n) then mk_stride_ent n input 1 0 1 (Some p)
  else
    let e := if decide (i = 0) then stride_at 0 s <| st_share := s32 (100 - sum) |>
             else stride_at i s in
    if decide (0 <= i < top) then e <| st_path := 0 |> else e.

Lemma set_table_run (s : kernel) (p : nat) (pr : proc) (input : Z) :
  k_cur s = Some p -> k_procs s !! p = Some pr -> 0 < pid pr ->
  k_max_pid s <= NSTRIDE - 1 -> s32 (k_max_sum s + input) <= 80 ->
  let top := Z.max (k_max_pid s) (pid pr) in
  let sum := s32 (k_max_sum s + input) in
  exists t, set_table input s = Done tt t /\
    (forall i, stride_at i t = set_entry s p (pid pr) input top sum i) /\
    t = s <| k_max_sum := sum |> <| k_table_size ::= fun m => s32 (m + 1) |>
          <| k_max_pid := top |> <| k_stride := k_stride t |>.
Proof.
  intros Hc Hp Hpid Hm Hs top sum. unfold set_table. kstep.
  rewrite Z.gtb_ltb, (proj2 (Z.ltb_ge _ _)) by lia.
  rewrite Z.gtb_ltb, (proj2 (Z.ltb_ge _ _)) by lia.
  do 4 kstep. rewrite (bind_Done _ _ _ (s <| k_max_sum := sum |>
    <| k_table_size ::= fun m => s32 (m + 1) |> <| k_max_pid := top |>) tt).
  2: { rewrite when_modify_run. f_equal. subst top.
       destruct (Z.ltb_spec (k_max_pid s) (pid pr)).
       - rewrite Z.max_r by lia. reflexivity.
       - rewrite Z.max_l by lia. reflexivity. }
  set (s1 := s <| k_max_sum := sum |> <| k_table_size ::= _ |> <| k_max_pid := top |>).
  do 4 kstep. set (s2 := s1 <| k_stride ::= _ |> <| k_stride ::= _ |>).
  destruct (reset_paths_run (Z.to_nat (k_max_pid s2)) 0 s2) as (t & E & Et & Ht).
  exists t. split_and!; [exact E| |].
  - intros i. rewrite Ht. change (k_max_pid s2) with top.
    assert (Hi : stride_at i s2 = if decide (pid pr = i) then mk_stride_ent (pid pr) input 1 0 1 (Some p)
              else if decide (0 = i) then stride_at 0 s <| st_share := s32 (100 - sum) |> else stride_at i s).
    { subst s2. autorewrite with ktab. case_decide; [reflexivity|]. case_decide; reflexivity. }
    rewrite Hi. unfold set_entry. repeat case_decide; simplify_eq; try reflexivity; lia.
  - rewrite Et. reflexivity.
Qed.
