(* ===== verification/SchedSpec.v ===== *)
(** * Properties of the scheduler

    The multi-level feedback queue: the ring it keeps per level, and that no
    level ever gets a first element.  Stride scheduling: the choice of the
    smallest path, proportional share, the admission of shares and their
    accounting. *)

From S2P Require Import Prelude Params Kernel Print Sleep Sched.

(** ** Sums over the stride table *)

Fixpoint sum_to (f : Z -> Z) (n : nat) : Z :=
  match n with O => 0 | S n' => sum_to f n' + f (Z.of_nat n') end.

Lemma sum_to_ext (f g : Z -> Z) (n : nat) :
  (forall i, 0 <= i < Z.of_nat n -> f i = g i) -> sum_to f n = sum_to g n.
Proof.
  induction n as [|n IH]; intros H; simpl; [reflexivity|].
  rewrite (H (Z.of_nat n)) by lia. rewrite IH; [reflexivity|]. intros i Hi. apply H. lia.
Qed.

Lemma sum_to_update (f g : Z -> Z) (n : nat) (k : Z) :
  0 <= k < Z.of_nat n -> (forall i, 0 <= i < Z.of_nat n -> i <> k -> f i = g i) ->
  sum_to g n = sum_to f n - f k + g k.
Proof.
  induction n as [|n IH]; intros Hk H; simpl; [lia|].
  destruct (decide (k = Z.of_nat n)) as [->|Hne].
  - rewrite (sum_to_ext f g n); [lia|]. intros i Hi. apply H; lia.
  - rewrite IH; [|lia|intros i Hi Hik; apply H; lia].
    rewrite (H (Z.of_nat n)) by lia. lia.
Qed.

(** The shares of the processes in the stride table, and by how much
    [max_sum] differs from them. *)
Definition share_of (s : kernel) (i : Z) : Z :=
  if st_is_stride (stride_at i s) =? 1 then st_share (stride_at i s) else 0.
Definition total_share (s : kernel) : Z := sum_to (share_of s) (Z.to_nat NSTRIDE).
Definition drift (s : kernel) : Z := k_max_sum s - total_share s.

Lemma set_table_share (s t : kernel) (p : nat) (n input top sum : Z) :
  0 < n < NSTRIDE -> st_is_stride (stride_at 0 s) = 0 ->
  (forall i, stride_at i t = set_entry s p n input top sum i) ->
  total_share t = total_share s - share_of s n + input.
Proof.
  intros Hn H0 Ht. unfold total_share.
  rewrite (sum_to_update (share_of s) (share_of t) (Z.to_nat NSTRIDE) n).
  - f_equal. unfold share_of. rewrite Ht. unfold set_entry. rewrite decide_True by reflexivity. reflexivity.
  - unfold NSTRIDE in *. lia.
  - intros i _ Hne. unfold share_of. rewrite Ht. unfold set_entry.
    rewrite decide_False by exact Hne.
    destruct (decide (i = 0)) as [->|Hi]; case_decide; simpl; rewrite ?H0; reflexivity.
Qed.

Lemma stride_drop_run (s : kernel) (n : Z) :
  st_is_stride (stride_at n s) = 1 -> n <> 0 ->
  exists t, stride_drop n s = Done tt t /\
    k_max_sum t = s32 (k_max_sum s - st_share (stride_at n s)) /\
    k_table_size t = s32 (k_table_size s - 1) /\
    st_share (stride_at 0 t) = s32 (100 - k_max_sum t) /\
    (forall i, stride_at i t =
       if decide (i = n) then stride_at n s <| st_full := 0 |> <| st_is_stride := 0 |>
       else if decide (i = 0) then stride_at 0 s <| st_share := s32 (100 - k_max_sum t) |>
       else stride_at i s).
Proof.
  intros H Hn. unfold stride_drop. kstep. rewrite H. simpl when.
  eexists. split; [krun|].
  split_and!; [reflexivity|reflexivity| |].
  - autorewrite with ktab. rewrite decide_True by reflexivity. reflexivity.
  - intros i. autorewrite with ktab.
    repeat case_decide; simplify_eq; reflexivity.
Qed.

Lemma stride_drop_share (s t : kernel) (n sum : Z) :
  0 < n < NSTRIDE -> st_is_stride (stride_at n s) = 1 -> st_is_stride (stride_at 0 s) = 0 ->
  (forall i, stride_at i t =
     if decide (i = n) then stride_at n s <| st_full := 0 |> <| st_is_stride := 0 |>
     else if decide (i = 0) then stride_at 0 s <| st_share := sum |> else stride_at i s) ->
  total_share t = total_share s - st_share (stride_at n s).
Proof.
  intros Hn H1 H0 Ht. unfold total_share.
  rewrite (sum_to_update (share_of s) (share_of t) (Z.to_nat NSTRIDE) n).
  - assert (E : share_of s n = st_share (stride_at n s)) by (unfold share_of; rewrite H1; reflexivity).
    assert (E' : share_of t n = 0).
    { unfold share_of. rewrite Ht, decide_True by reflexivity. reflexivity. }
    lia.
  - unfold NSTRIDE in *. lia.
  - intros i _ Hne. unfold share_of. rewrite Ht, decide_False by exact Hne.
    case_decide as E; [subst i; simpl; rewrite H0|]; reflexivity.
Qed.

(** ** A machine for the examples

    Three processes with pids 3, 4 and 5, the first one running; level 0 of
    the queue holds pids 3 and 4. *)

Definition ex_proc (n : Z) : proc :=
  proc0 <| pid := n |> <| state := RUNNABLE |> <| kstack := 0x80400000 |> <| pgdir := 0x80500000 |>.

Definition ex_kernel : kernel :=
  kernel0 <| k_procs := [ex_proc 3; ex_proc 4; ex_proc 5] ++ replicate 61 proc0 |>
          <| k_cur := Some O |>.

Definition ex_mlfq : kernel :=
  ex_kernel
    <| k_mlfq := {[3 := mk_mlfq_ent 0 0 1 0 0 (Some 4) (Some 4) (Some 0%nat);
                   4 := mk_mlfq_ent 0 0 1 0 0 (Some 3) (Some 3) (Some 1%nat)]} |>
    <| k_lev := {[0 := mk_mlfq_level 5 4 0 2 (Some 3) (Some 4)]} |>.

Definition ex_stride : kernel :=
  ex_kernel <| k_max_pid := 5 |> <| k_max_sum := 30 |> <| k_table_size := 2 |>
    <| k_stride := {[0 := mk_stride_ent 2 70 1 0 0 None;
                     4 := mk_stride_ent 4 10 1 0 1 (Some 1%nat);
                     5 := mk_stride_ent 5 20 1 0 1 (Some 2%nat)]} |>.

Lemma ex_mlfq_ring : ring ex_mlfq 0 [3; 4].
Proof.
  split.
  - apply NoDup_cons. split; [set_solver|]. apply NoDup_singleton.
  - vm_compute. repeat split.
Qed.

(** ** The multi-level feedback queue *)

(** C11. On a level that holds a ring of pids, [MLFQ_in] refines appending to
    the queue and [MLFQ_out] of its head refines taking the head off (code 0)
    or moving it to the end (any other code); the doubly linked ring stays
    well formed. *)
Theorem mlfq_ring_refines_queue (s : kernel) (level code : Z) (q : list Z) (p : nat) (pr : proc)
    (Hr : ring s level q) (Hp : k_procs s !! p = Some pr)
    (Hlen : Z.of_nat (length q) < 2 ^ 31 - 1) :
  (pid pr ∉ q -> exists t, MLFQ_in p level code s = Done tt t /\ ring t level (q_in q (pid pr))) /\
  (head q = Some (pid pr) ->
     exists t, MLFQ_out p level code s = Done tt t /\ ring t level (q_out q code)).
Proof.
  split.
  - intros Hn. destruct (MLFQ_in_ring p pr level code s q Hr Hp Hn Hlen) as (t & E & R & _). eauto.
  - intros Hh. destruct (MLFQ_out_ring p pr level code s q Hr Hp) as (t & E & R & _); [|lia|eauto].
    intros n Hn. congruence.
Qed.

Lemma mlfq_ring_refines_queue_witness :
  exists t, MLFQ_out 0 0 1 ex_mlfq = Done tt t /\ ring t 0 [4; 3].
Proof.
  apply (mlfq_ring_refines_queue ex_mlfq 0 1 [3; 4] 0 (ex_proc 3)).
  - exact ex_mlfq_ring.
  - reflexivity.
  - reflexivity.
  - reflexivity.
Defined.

(** ** Stride scheduling *)

(** C12. [path_cal] returns the registered client with the smallest path, the
    one with the smallest index among equals, whenever some client's path is
    below [INT_MAX]; it changes nothing. *)
Theorem path_cal_picks_least (s : kernel) (i : Z)
    (Hc : client s i) (Hp : st_path (stride_at i s) < 2147483647) :
  exists d, path_cal s = Done d s /\ client s d /\
    (forall j, client s j -> st_path (stride_at d s) <= st_path (stride_at j s)) /\
    (forall j, client s j -> j < d -> st_path (stride_at d s) < st_path (stride_at j s)).
Proof.
  destruct (path_cal_client s i Hc Hp) as (d & E & Hd & _ & H1 & H2). eauto.
Qed.

Lemma path_cal_picks_least_witness :
  exists d, path_cal ex_stride = Done d ex_stride /\ client ex_stride d /\
    (forall j, client ex_stride j -> st_path (stride_at d ex_stride) <= st_path (stride_at j ex_stride)) /\
    (forall j, client ex_stride j -> j < d -> st_path (stride_at d ex_stride) < st_path (stride_at j ex_stride)).
Proof.
  apply (path_cal_picks_least ex_stride 4); [|reflexivity].
  split; [vm_compute; split; discriminate|]. split_and!; [discriminate|discriminate|reflexivity].
Defined.

Lemma ex_stride_client (i : Z) : client ex_stride i -> i = 0 \/ i = 4 \/ i = 5.
Proof.
  intros (Hi & H1 & H2 & H3). change (k_max_pid ex_stride) with 5 in Hi.
  assert (i = 0 \/ i = 3 \/ i = 4 \/ i = 5) as [ -> |[ -> |[ -> | -> ] ] ] by lia; auto.
  discriminate H3.
Qed.

Lemma ex_stride_balanced : balanced ex_stride.
Proof.
  assert (C0 : client ex_stride 0) by (split; [vm_compute; split; discriminate|auto]).
  split; [exact C0|]. intros i Hi.
  apply ex_stride_client in Hi as [ -> |[ -> | -> ] ]; (split; [reflexivity|]);
    (split; [discriminate|]); intros j Hj;
    apply ex_stride_client in Hj as [ -> |[ -> | -> ] ]; vm_compute; discriminate.
Qed.

(** C13. Proportional share.  Start from a stride table whose clients have
    positive shares and path 0.  After any number [n] of decisions of
    [path_cal] and [stride] with [n * 10000] in the range of [int] (beyond it a
    path may wrap around), the numbers of times two clients [i] and [j] were chosen, each weighted with the step
    [10000 / share] of the client, differ by at most one step of [i]. *)
Theorem stride_proportional_share (s : kernel) (n : nat)
    (Hb : balanced s) (Hz : forall i, client s i -> st_path (stride_at i s) = 0)
    (Hn : Z.of_nat n * 10000 < 2147483647) :
  exists ds t, decisions n s = Done ds t /\ length ds = n /\
    forall i j, client s i -> client s j ->
      times i ds * step s i <= times j ds * step s j + step s i.
Proof.
  destruct (decisions_run n s 0 Hb) as (ds & t & E & L & [_ Hbt] & Ct & St & Pt).
  { intros i Hi. rewrite (Hz i Hi). lia. }
  { lia. }
  exists ds, t. split_and!; [exact E|exact L|]. intros i j Hi Hj.
  destruct (Hbt i) as (_ & _ & B); [apply Ct, Hi|]. specialize (B j).
  rewrite !Pt, St, (Hz i Hi), (Hz j Hj) in B. apply B, Ct, Hj.
Qed.

Lemma stride_proportional_share_witness :
  exists ds t, decisions 100 ex_stride = Done ds t /\ length ds = 100%nat /\
    forall i j, client ex_stride i -> client ex_stride j ->
      times i ds * step ex_stride i <= times j ds * step ex_stride j + step ex_stride i.
Proof.
  apply (stride_proportional_share ex_stride 100).
  - exact ex_stride_balanced.
  - intros i Hi. apply ex_stride_client in Hi as [ -> |[ -> | -> ] ]; reflexivity.
  - reflexivity.
Defined.

(** C15. Admission of a share, for every [int].  [set_table] adds the share to
    [max_sum] as an [int].  If that sum is at most 80, the caller's entry gets the
    share with path 0, entry 0 is left the rest [100 - max_sum], and the paths of
    all entries below [max_pid] start again from 0; otherwise nothing changes.
    The registered shares then sum up to [max_sum], except that the share a
    process had before is counted again when it registers twice, and up to a
    multiple of 2^32, which is 0 unless the addition overflows.  A share so large
    that the addition overflows is admitted. *)
Theorem set_table_accounting (s : kernel) (p : nat) (pr : proc) (input : Z)
    (Hc : k_cur s = Some p) (Hp : k_procs s !! p = Some pr)
    (Hpid : 0 < pid pr < NSTRIDE) (Hm : 0 <= k_max_pid s <= NSTRIDE - 1)
    (Hsum : - 2 ^ 31 <= k_max_sum s < 2 ^ 31) (Hin : - 2 ^ 31 <= input < 2 ^ 31)
    (H0 : st_is_stride (stride_at 0 s) = 0) :
  let sum := s32 (k_max_sum s + input) in
  (if decide (sum <= 80) then
     exists t w, set_table input s = Done tt t /\
       (forall i, stride_at i t = set_entry s p (pid pr) input (Z.max (k_max_pid s) (pid pr)) sum i) /\
       k_max_sum t = sum /\
       drift t = drift s + share_of s (pid pr) - w * 2 ^ 32 /\ (- 2 ^ 31 <= k_max_sum s + input < 2 ^ 31 -> w = 0)
   else set_table input s = Done tt s) /\
  (2 ^ 31 <= k_max_sum s + input -> sum <= 80).
Proof.
  intros sum. split; [|intros Ho; unfold sum, s32; Z.div_mod_to_equations; lia]. case_decide as Hd.
  - destruct (set_table_run s p pr input) as (t & E & Ht & Et); [exact Hc|exact Hp|lia|lia|exact Hd|].
    exists t, ((k_max_sum s + input + 2 ^ 31) / 2 ^ 32). fold sum in Ht, Et. split_and!; [exact E|exact Ht|rewrite Et; reflexivity| |].
    + unfold drift. rewrite (set_table_share s t p (pid pr) input _ _ Hpid H0 Ht), Et. cbn [k_max_sum upd]. simpl.
      unfold sum, s32. Z.div_mod_to_equations. lia.
    + intros Hr. apply Z.div_small. lia.
  - unfold set_table. kstep. rewrite Z.gtb_ltb, (proj2 (Z.ltb_ge _ _)) by lia.
    rewrite Z.gtb_ltb, (proj2 (Z.ltb_lt _ _)) by (fold sum; lia). reflexivity.
Qed.

(** A share of 20, and the largest [int], which overflows. *)
Lemma set_table_accounting_witness :
  (exists t, set_table 20 ex_stride = Done tt t /\ (forall i, stride_at i t = set_entry ex_stride 0 3 20 5 50 i) /\
     k_max_sum t = 50 /\ drift t = drift ex_stride + share_of ex_stride 3) /\
  (exists t, set_table 2147483647 ex_stride = Done tt t /\ st_share (stride_at 3 t) = 2147483647).
Proof.
  assert (H : forall input, - 2 ^ 31 <= input < 2 ^ 31 -> _) by (intros input Hin;
    refine (set_table_accounting ex_stride 0 (ex_proc 3) input eq_refl eq_refl _ _ _ Hin eq_refl); vm_compute; split; (reflexivity || discriminate)).
  split.
  - destruct (H 20 ltac:(lia)) as [H1 _]. change (s32 (k_max_sum ex_stride + 20)) with 50 in H1. cbn [decide] in H1. rewrite decide_True in H1 by lia.
    destruct H1 as (t & w & E & Ht & Hs & Hd & Hw). exists t. split_and!; [exact E|exact Ht|exact Hs|]. rewrite Hd, Hw; [rewrite Z.mul_0_l, Z.sub_0_r; reflexivity|]. vm_compute. split; (reflexivity || discriminate).
  - destruct (H 2147483647 ltac:(lia)) as [H1 H2]. rewrite decide_True in H1 by (apply H2; vm_compute; discriminate).
    destruct H1 as (t & w & E & Ht & _). exists t. split; [exact E|]. rewrite Ht. reflexivity.
Defined.

(** Releasing a share.  When a process in the stride table ends, its entry
    leaves the table, its share goes back to entry 0, and [max_sum] still
    differs from the registered shares by what it differed before. *)
Theorem stride_drop_accounting (s : kernel) (n : Z)
    (Hn : 0 < n < NSTRIDE) (H1 : st_is_stride (stride_at n s) = 1)
    (H0 : st_is_stride (stride_at 0 s) = 0)
    (Hsum : - 1000 <= k_max_sum s <= 1000) (Hsh : - 1000 <= st_share (stride_at n s) <= 1000) :
  exists t, stride_drop n s = Done tt t /\
    drift t = drift s /\ ~ client t n /\ st_share (stride_at 0 t) = 100 - k_max_sum t.
Proof.
  destruct (stride_drop_run s n H1) as (t & E & Hs & _ & Hs0 & Ht); [lia|].
  rewrite s32_small in Hs by lia. rewrite s32_small in Hs0 by lia.
  exists t. split_and!; [exact E| | |exact Hs0].
  - unfold drift. rewrite Hs, (stride_drop_share s t n _ Hn H1 H0 Ht). lia.
  - intros (_ & _ & _ & Hf). rewrite Ht, decide_True in Hf by reflexivity. discriminate Hf.
Qed.

Lemma stride_drop_accounting_witness :
  exists t, stride_drop 5 ex_stride = Done tt t /\
    drift t = drift ex_stride /\ ~ client t 5 /\ st_share (stride_at 0 t) = 100 - k_max_sum t.
Proof.
  apply (stride_drop_accounting ex_stride 5).
  - split; reflexivity.
  - reflexivity.
  - reflexivity.
  - vm_compute; split; discriminate.
  - vm_compute; split; discriminate.
Defined.


