(* ===== verification/Ide.v ===== *)
(** * ide.c: the disk driver

    The controller works on one command at a time.  The data of a write is
    handed over when the command is issued; the data of a read is taken when
    the interrupt says that it is there.  The status polls of [idewait] are
    taken to succeed at once. *)

From S2P Require Import Prelude Params Bytes Kernel Sleep.

Definition B_VALID : Z := 0x2.
Definition B_DIRTY : Z := 0x4.
Definition SECTOR_SIZE : Z := 512.

Definition is_valid (b : buf) : bool := negb (Z.land (bflags b) B_VALID =? 0).
Definition is_dirty (b : buf) : bool := negb (Z.land (bflags b) B_DIRTY =? 0).

(** [(b->flags & (B_VALID|B_DIRTY)) == B_VALID] *)
Definition synced (b : buf) : bool := Z.land (bflags b) (Z.lor B_VALID B_DIRTY) =? B_VALID.

(** The drive and block a buffer stands for. *)
Definition drive_block (b : buf) : Z * Z := (Z.land (bdev b) 1, bblockno b).

(** A block never written reads as zeros. *)
Definition disk_block (s : kernel) (a : Z * Z) : list Z := default zero_block (k_disk s !! a).

(** [sector_per_block] is 1. *)
Definition idestart (i : nat) : K unit :=
  b ← buf_at i;
  if bblockno b >=? FSSIZE then panic "incorrect blockno"
  else
    modify (fun s => s <| k_ide := drive_block b |>);;
    when (is_dirty b) (modify (fun s => s <| k_disk ::= <[drive_block b := bdata b]> |>)).

Definition ideintr : K unit :=
  acquire idelock;;
  q ← gets (fun s => k_idequeue s);
  match q with
  | None => release idelock
  | Some i =>
      b ← buf_at i;
      modify (fun s => s <| k_idequeue := bqnext b |>);;
      s ← get;
      when (negb (is_dirty b) && negb (k_ideerr s))
        (upd_buf i (fun b => b <| bdata := disk_block s (k_ide s) |>));;
      upd_buf i (fun b => b <| bflags ::= Z.lor B_VALID |>);;
      upd_buf i (fun b => b <| bflags ::= Z.land (Z.lnot B_DIRTY) |>);;
      wakeup (CBuf i);;
      q ← gets (fun s => k_idequeue s);
      match q with Some j => idestart j | None => mret tt end;;
      release idelock
  end.

(** The end of the request queue: the loop over the [qnext] pointers, at most
    as long as there are buffers. *)
Fixpoint ide_last (n : nat) (i : nat) : K nat :=
  match n with
  | O => halt NoFuel
  | S n' => b ← buf_at i; match bqnext b with None => mret i | Some j => ide_last n' j end
  end.

Definition iderw {F : Fuel} (i : nat) : K unit :=
  h ← holdingsleep (SBuf i);
  if h =? 0 then panic "iderw: buf not locked"
  else
    b ← buf_at i;
    s ← get;
    if synced b then panic "iderw: nothing to do"
    else if negb (bdev b =? 0) && negb (k_havedisk1 s) then panic "iderw: ide disk 1 not present"
    else
      acquire idelock;;
      upd_buf i (fun b => b <| bqnext := None |>);;
      q ← gets (fun s => k_idequeue s);
      match q with
      | None => modify (fun s => s <| k_idequeue := Some i |>)
      | Some j => e ← ide_last (S NBUF) j; upd_buf e (fun b => b <| bqnext := Some i |>)
      end;;
      q ← gets (fun s => k_idequeue s);
      when (bool_decide (q = Some i)) (idestart i);;
      while_loop fuel (fun _ : unit =>
        b ← buf_at i;
        if synced b then mret (inr tt) else sleep (CBuf i) idelock;; mret (inl tt)) tt;;
      release idelock.
