(* ===== verification/Bio.v ===== *)
(** * bio.c: the buffer cache

    Buffers [0 .. NBUF-1] and, at index [NBUF], the head of the list through
    [prev] and [next] that keeps them in order of use. *)

From S2P Require Import Prelude Params Bytes Kernel Sleep Ide.

Definition HEAD : nat := NBUF.

(** Puts buffer [i] behind the head of the list. *)
Definition bcache_push (i : nat) : K unit :=
  h ← buf_at HEAD;
  upd_buf i (fun b => b <| bnext := bnext h |>);;
  upd_buf i (fun b => b <| bprev := HEAD |>);;
  upd_buf (bnext h) (fun b => b <| bprev := i |>);;
  upd_buf HEAD (fun b => b <| bnext := i |>).

Definition binit : K unit :=
  upd_buf HEAD (fun b => b <| bprev := HEAD |>);;
  upd_buf HEAD (fun b => b <| bnext := HEAD |>);;
  for_each NBUF 0 (fun i => initsleeplock (SBuf i);; bcache_push i).

(** The two scans of [bget], from the most and from the least recently used
    buffer. *)
Fixpoint bget_cached (n : nat) (i : nat) (dev blockno : Z) : K (option nat) :=
  match n with
  | O => halt NoFuel
  | S n' =>
      if (i =? HEAD)%nat then mret None
      else
        b ← buf_at i;
        if (bdev b =? dev) && (bblockno b =? blockno) then mret (Some i)
        else bget_cached n' (bnext b) dev blockno
  end.

Fixpoint bget_unused (n : nat) (i : nat) : K (option nat) :=
  match n with
  | O => halt NoFuel
  | S n' =>
      if (i =? HEAD)%nat then mret None
      else
        b ← buf_at i;
        if (brefcnt b =? 0) && negb (is_dirty b) then mret (Some i)
        else bget_unused n' (bprev b)
  end.

Section Bio.
Context {F : Fuel}.

Definition bget (dev blockno : Z) : K nat :=
  acquire bcache_lock;;
  h ← buf_at HEAD;
  o ← bget_cached (S NBUF) (bnext h) dev blockno;
  match o with
  | Some i =>
      upd_buf i (fun b => b <| brefcnt := u32 (brefcnt b + 1) |>);;
      release bcache_lock;;
      acquiresleep (SBuf i);;
      mret i
  | None =>
      o ← bget_unused (S NBUF) (bprev h);
      match o with
      | Some i =>
          upd_buf i (fun b => b <| bdev := dev |> <| bblockno := blockno |>
                              <| bflags := 0 |> <| brefcnt := 1 |>);;
          release bcache_lock;;
          acquiresleep (SBuf i);;
          mret i
      | None => panic "bget: no buffers"
      end
  end.

Definition bread (dev blockno : Z) : K nat :=
  i ← bget dev blockno;
  b ← buf_at i;
  when (negb (is_valid b)) (iderw i);;
  mret i.

Definition bwrite (i : nat) : K unit :=
  h ← holdingsleep (SBuf i);
  if h =? 0 then panic "bwrite"
  else
    upd_buf i (fun b => b <| bflags ::= Z.lor B_DIRTY |>);;
    iderw i.

Definition brelse (i : nat) : K unit :=
  h ← holdingsleep (SBuf i);
  if h =? 0 then panic "brelse"
  else
    releasesleep (SBuf i);;
    acquire bcache_lock;;
    upd_buf i (fun b => b <| brefcnt := u32 (brefcnt b - 1) |>);;
    b ← buf_at i;
    when (brefcnt b =? 0)
      (upd_buf (bnext b) (fun c => c <| bprev := bprev b |>);;
       upd_buf (bprev b) (fun c => c <| bnext := bnext b |>);;
       bcache_push i);;
    release bcache_lock.

End Bio.
