(* ===== verification/Log.v ===== *)
(** * log.c: the redo log *)

From S2P Require Import Prelude Params Bytes Kernel Sleep Ide Bio.

Definition upd_log (f : logst -> logst) : K unit := modify (fun s => s <| k_log ::= f |>).

(** [log.lh.block[i] = v]; the array has [LOGSIZE] entries. *)
Definition set_lhblock (i v : Z) : K unit :=
  if (0 <=? i) && (i <? LOGSIZE) then upd_log (fun l => l <| lhblock ::= <[Z.to_nat i := v]> |>)
  else fault "log.lh.block out of range".

Definition lhblock_at (i : Z) : K Z := s ← get; deref (lhblock (k_log s) !! Z.to_nat i).

(** The contents of a buffer. *)
Definition data_at (i : nat) : K (list Z) := b ← buf_at i; mret (bdata b).
Definition set_data (i : nat) (d : list Z) : K unit := upd_buf i (fun b => b <| bdata := d |>).

Section Log.
Context {F : Fuel}.

(** Loops [for(tail = 0; tail < log.lh.n; tail++)]: [log.lh.n] is at most
    [LOGSIZE]. *)
Definition for_logged (body : Z -> K unit) : K unit :=
  for_lt (S (Z.to_nat LOGSIZE)) 0 (fun s => lhn (k_log s)) body.

Definition install_trans : K unit :=
  for_logged (fun tail =>
    l ← gets (fun s => k_log s);
    lbuf ← bread (ldev l) (lstart l + tail + 1);
    b ← lhblock_at tail;
    dbuf ← bread (ldev l) (u32 b);
    d ← data_at lbuf;
    set_data dbuf d;;
    bwrite dbuf;;
    brelse lbuf;;
    brelse dbuf).

Definition read_head : K unit :=
  l ← gets (fun s => k_log s);
  bf ← bread (ldev l) (lstart l);
  d ← data_at bf;
  upd_log (fun l => l <| lhn := s32 (get32 d 0) |>);;
  for_logged (fun i => set_lhblock i (s32 (get32 d (4 + 4 * i))));;
  brelse bf.

Definition write_head : K unit :=
  l ← gets (fun s => k_log s);
  bf ← bread (ldev l) (lstart l);
  d ← data_at bf;
  set_data bf (put32 d 0 (lhn l));;
  for_logged (fun i =>
    v ← lhblock_at i;
    d ← data_at bf;
    set_data bf (put32 d (4 + 4 * i) v));;
  bwrite bf;;
  brelse bf.

Definition recover_from_log : K unit :=
  read_head;;
  install_trans;;
  upd_log (fun l => l <| lhn := 0 |>);;
  write_head.

Definition begin_op : K unit :=
  acquire log_lock;;
  while_loop fuel (fun _ : unit =>
    l ← gets (fun s => k_log s);
    if negb (committing l =? 0) then sleep CLog log_lock;; mret (inl tt)
    else if s32 (lhn l + (outstanding l + 1) * MAXOPBLOCKS) >? LOGSIZE
    then sleep CLog log_lock;; mret (inl tt)
    else
      upd_log (fun l => l <| outstanding := s32 (outstanding l + 1) |>);;
      release log_lock;;
      mret (inr tt)) tt.

Definition write_log : K unit :=
  for_logged (fun tail =>
    l ← gets (fun s => k_log s);
    to ← bread (ldev l) (lstart l + tail + 1);
    b ← lhblock_at tail;
    from ← bread (ldev l) (u32 b);
    d ← data_at from;
    set_data to d;;
    bwrite to;;
    brelse from;;
    brelse to).

Definition commit : K unit :=
  l ← gets (fun s => k_log s);
  when (lhn l >? 0)
    (write_log;;
     write_head;;
     install_trans;;
     upd_log (fun l => l <| lhn := 0 |>);;
     write_head).

Definition end_op : K unit :=
  acquire log_lock;;
  upd_log (fun l => l <| outstanding := s32 (outstanding l - 1) |>);;
  l ← gets (fun s => k_log s);
  if negb (committing l =? 0) then panic "log.committing"
  else
    (if outstanding l =? 0
     then upd_log (fun l => l <| committing := 1 |>)
     else wakeup CLog);;
    release log_lock;;
    when (outstanding l =? 0)
      (commit;;
       acquire log_lock;;
       upd_log (fun l => l <| committing := 0 |>);;
       wakeup CLog;;
       release log_lock).

(** The slot of a block in the log: the entry that holds it already
    (absorption), or the first free one. *)
Definition log_slot (l : logst) (b : Z) : Z :=
  match find_idx (fun x => x =? b) (take (Z.to_nat (lhn l)) (lhblock l)) with
  | Some i => Z.of_nat i
  | None => lhn l
  end.

Definition log_write (i : nat) : K unit :=
  l ← gets (fun s => k_log s);
  if (lhn l >=? LOGSIZE) || (lhn l >=? llsize l - 1) then panic "too big a transaction"
  else if outstanding l <? 1 then panic "log_write outside of trans"
  else
    acquire log_lock;;
    b ← buf_at i;
    l ← gets (fun s => k_log s);
    let slot := log_slot l (bblockno b) in
    set_lhblock slot (bblockno b);;
    when (slot =? lhn l) (upd_log (fun l => l <| lhn := lhn l + 1 |>));;
    upd_buf i (fun b => b <| bflags ::= Z.lor B_DIRTY |>);;
    release log_lock.

End Log.
