(* ===== verification/Fs.v ===== *)
(** * fs.c: the file system

    The code is written against the block layer below it, the interface
    [BlockDev]: read a block, look at it, store new contents through the log,
    release it.  [bcache_dev] is the kernel's own layer, the buffer cache
    with the log.  Device files go through the table [devsw], the interface
    [Devsw]. *)

From S2P Require Import Prelude Params Bytes CString Kernel Print Sleep Ide Bio Log.

Class BlockDev := {
  handle : Type;
  bd_read : Z -> Z -> K handle;
  bd_data : handle -> K (list Z);
  (** stores the contents and calls [log_write] *)
  bd_log : handle -> list Z -> K unit;
  bd_relse : handle -> K unit
}.

Definition bcache_dev {F : Fuel} : BlockDev := {|
  handle := nat;
  bd_read := bread;
  bd_data := data_at;
  bd_log := fun i d => set_data i d;; log_write i;
  bd_relse := brelse
|}.

(** [devsw]: the read function returns a count and the bytes it stores at the
    destination. *)
Class Devsw := {
  dev_read : Z -> option (nat -> Z -> K (Z * list Z));
  dev_write : Z -> option (nat -> list Z -> Z -> K Z)
}.

(** ** On-disk structures (fs.h) *)

Definition read_superblock (d : list Z) : superblock :=
  mk_superblock (get32 d 0) (get32 d 4) (get32 d 8) (get32 d 12) (get32 d 16) (get32 d 20) (get32 d 24).

Definition IBLOCK (i : Z) (sb : superblock) : Z := i / IPB + sb_inodestart sb.
Definition BBLOCK (b : Z) (sb : superblock) : Z := b / BPB + sb_bmapstart sb.

(** The byte offset of inode [i] in its block. *)
Definition inode_off (i : Z) : Z := i mod IPB * DINODE_SIZE.

Record dinode : Type := mk_dinode {
  d_type : Z; d_major : Z; d_minor : Z; d_nlink : Z; d_size : Z; d_addrs : list Z
}.

Definition get_addrs (d : list Z) (off : Z) : list Z :=
  map (fun k => get32 d (off + 4 * Z.of_nat k)) (seq 0 NADDRS).

Definition get_dinode (d : list Z) (off : Z) : dinode :=
  mk_dinode (s16 (get16 d off)) (s16 (get16 d (off + 2))) (s16 (get16 d (off + 4)))
    (s16 (get16 d (off + 6))) (get32 d (off + 8)) (get_addrs d (off + 12)).

Definition dinode_bytes (i : dinode) : list Z :=
  le16 (d_type i) ++ le16 (d_major i) ++ le16 (d_minor i) ++ le16 (d_nlink i)
  ++ le32 (d_size i) ++ concat (map le32 (d_addrs i)).

Definition put_dinode (d : list Z) (off : Z) (i : dinode) : list Z := splice d off (dinode_bytes i).

Record dirent : Type := mk_dirent { de_inum : Z; de_name : list Z }.

Definition get_dirent (d : list Z) : dirent := mk_dirent (get16 d 0) (slice d 2 DIRSIZ).
Definition dirent_bytes (e : dirent) : list Z := le16 (de_inum e) ++ de_name e.

(** ** The bitmap *)

(** [bp->data[bi/8] & (1 << (bi % 8))] *)
Definition bit_set (d : list Z) (bi : Z) : bool :=
  negb (Z.land (byte_at d (bi / 8)) (Z.shiftl 1 (bi mod 8)) =? 0).

Definition mark_bit (d : list Z) (bi : Z) : list Z :=
  splice d (bi / 8) [Z.lor (byte_at d (bi / 8)) (Z.shiftl 1 (bi mod 8))].
Definition clear_bit (d : list Z) (bi : Z) : list Z :=
  splice d (bi / 8) [Z.land (byte_at d (bi / 8)) (Z.lnot (Z.shiftl 1 (bi mod 8)))].

(** The first clear bit among [n] bits from [bi] on: the inner loop of
    [balloc]. *)
Fixpoint free_bit (n : nat) (bi : Z) (d : list Z) : option Z :=
  match n with
  | O => None
  | S n' => if bit_set d bi then free_bit n' (bi + 1) d else Some bi
  end.

Section Fs.
Context {F : Fuel} {BD : BlockDev} {DV : Devsw}.

Definition readsb (dev : Z) : K superblock :=
  bp ← bd_read dev 1;
  d ← bd_data bp;
  bd_relse bp;;
  mret (read_superblock d).

Definition initlog (dev : Z) : K unit :=
  sb ← readsb dev;
  upd_log (fun l => l <| lstart := s32 (sb_logstart sb) |> <| llsize := s32 (sb_nlog sb) |>
                      <| ldev := dev |>);;
  recover_from_log.

Definition bzero (dev bno : Z) : K unit :=
  bp ← bd_read dev bno;
  bd_log bp zero_block;;
  bd_relse bp.

(** The loop of [balloc] over the bitmap blocks. *)
Fixpoint balloc_loop (n : nat) (dev b : Z) : K Z :=
  match n with
  | O => halt NoFuel
  | S n' =>
      sb ← gets (fun s => k_sb s);
      if negb (b <? sb_size sb) then panic "balloc: out of blocks"
      else
        bp ← bd_read dev (BBLOCK b sb);
        d ← bd_data bp;
        match free_bit (Z.to_nat (Z.min BPB (sb_size sb - b))) 0 d with
        | Some bi =>
            bd_log bp (mark_bit d bi);;
            bd_relse bp;;
            bzero dev (b + bi);;
            mret (b + bi)
        | None => bd_relse bp;; balloc_loop n' dev (b + BPB)
        end
  end.

Definition balloc (dev : Z) : K Z :=
  sb ← gets (fun s => k_sb s);
  balloc_loop (S (S (Z.to_nat (sb_size sb / BPB)))) dev 0.

Definition bfree (dev b : Z) : K unit :=
  sb ← readsb dev;
  modify (fun s => s <| k_sb := sb |>);;
  bp ← bd_read dev (BBLOCK b sb);
  d ← bd_data bp;
  let bi := b mod BPB in
  if negb (bit_set d bi) then panic "freeing free block"
  else
    bd_log bp (clear_bit d bi);;
    bd_relse bp.

(** ** Inodes *)

Definition iinit (dev : Z) : K unit :=
  for_each NINODE 0 (fun i => initsleeplock (SInode i));;
  sb ← readsb dev;
  modify (fun s => s <| k_sb := sb |>);;
  cprintf ("sb: size %d nblocks %d ninodes %d nlog %d logstart %d inodestart %d bmap start %d" ++ nl)
    [AInt (sb_size sb); AInt (sb_nblocks sb); AInt (sb_ninodes sb); AInt (sb_nlog sb);
     AInt (sb_logstart sb); AInt (sb_inodestart sb); AInt (sb_bmapstart sb)].

(** The entry [iget] uses: the one that holds the inode, else the first one
    without references. *)
Definition iget_slot (dev inum_ : Z) (l : list inode) : option (nat * bool) :=
  match find_idx (fun ip => (iref ip >? 0) && (idev ip =? dev) && (inum ip =? inum_)) l with
  | Some i => Some (i, true)
  | None => (fun i => (i, false)) <$> find_idx (fun ip => iref ip =? 0) l
  end.

Definition iget (dev inum_ : Z) : K nat :=
  acquire icache_lock;;
  s ← get;
  match iget_slot dev inum_ (k_inodes s) with
  | Some (i, true) =>
      upd_inode i (fun ip => ip <| iref := s32 (iref ip + 1) |>);;
      release icache_lock;;
      mret i
  | Some (i, false) =>
      upd_inode i (fun ip => ip <| idev := dev |> <| inum := inum_ |> <| iref := 1 |> <| ivalid := 0 |>);;
      release icache_lock;;
      mret i
  | None => panic "iget: no inodes"
  end.

Fixpoint ialloc_loop (n : nat) (dev type inum_ : Z) : K nat :=
  match n with
  | O => halt NoFuel
  | S n' =>
      sb ← gets (fun s => k_sb s);
      if negb (inum_ <? sb_ninodes sb) then panic "ialloc: no inodes"
      else
        bp ← bd_read dev (IBLOCK inum_ sb);
        d ← bd_data bp;
        let off := inode_off inum_ in
        if d_type (get_dinode d off) =? 0 then
          bd_log bp (put_dinode d off (mk_dinode type 0 0 0 0 (replicate NADDRS 0)));;
          bd_relse bp;;
          iget dev inum_
        else
          bd_relse bp;;
          ialloc_loop n' dev type (inum_ + 1)
  end.

Definition ialloc (dev type : Z) : K nat :=
  sb ← gets (fun s => k_sb s);
  ialloc_loop (S (Z.to_nat (sb_ninodes sb))) dev type 1.

Definition dinode_of (ip : inode) : dinode :=
  mk_dinode (itype ip) (imajor ip) (iminor ip) (inlink ip) (isize ip) (iaddrs ip).

Definition iupdate (i : nat) : K unit :=
  ip ← inode_at i;
  sb ← gets (fun s => k_sb s);
  bp ← bd_read (idev ip) (IBLOCK (inum ip) sb);
  ip ← inode_at i;
  d ← bd_data bp;
  bd_log bp (put_dinode d (inode_off (inum ip)) (dinode_of ip));;
  bd_relse bp.

Definition idup (i : nat) : K nat :=
  acquire icache_lock;;
  upd_inode i (fun ip => ip <| iref := s32 (iref ip + 1) |>);;
  release icache_lock;;
  mret i.

Definition load_dinode (di : dinode) (ip : inode) : inode :=
  ip <| itype := d_type di |> <| imajor := d_major di |> <| iminor := d_minor di |>
     <| inlink := d_nlink di |> <| isize := d_size di |> <| iaddrs := d_addrs di |>.

Definition ilock (i : nat) : K unit :=
  ip ← inode_at i;
  if iref ip <? 1 then panic "ilock"
  else
    acquiresleep (SInode i);;
    ip ← inode_at i;
    when (ivalid ip =? 0)
      (sb ← gets (fun s => k_sb s);
       bp ← bd_read (idev ip) (IBLOCK (inum ip) sb);
       d ← bd_data bp;
       let di := get_dinode d (inode_off (inum ip)) in
       upd_inode i (load_dinode di);;
       bd_relse bp;;
       upd_inode i (fun ip => ip <| ivalid := 1 |>);;
       when (d_type di =? 0) (panic "ilock: no type")).

Definition iunlock (i : nat) : K unit :=
  h ← holdingsleep (SInode i);
  ip ← inode_at i;
  if (h =? 0) || (iref ip <? 1) then panic "iunlock" else releasesleep (SInode i).

(** ** Inode contents: bmap and itrunc *)

(** [if((addr = ip->addrs[k]) == 0) ip->addrs[k] = addr = balloc(ip->dev)] *)
Definition root_slot (i : nat) (k : Z) : K Z :=
  ip ← inode_at i;
  addr ← deref (iaddrs ip !! Z.to_nat k);
  if addr =? 0 then
    addr ← balloc (idev ip);
    upd_inode i (fun ip => ip <| iaddrs ::= <[Z.to_nat k := addr]> |>);;
    mret addr
  else mret addr.

(** [bp = bread(ip->dev, addr); a = (uint* )bp->data;
    if((addr = a[k]) == 0){ a[k] = addr = balloc(ip->dev); log_write(bp); }
    brelse(bp);] *)
Definition table_slot (dev addr k : Z) : K Z :=
  bp ← bd_read dev addr;
  d ← bd_data bp;
  let addr := get32 d (4 * k) in
  addr ← (if addr =? 0 then
            addr ← balloc dev;
            d ← bd_data bp;
            bd_log bp (put32 d (4 * k) addr);;
            mret addr
          else mret addr);
  bd_relse bp;;
  mret addr.

Definition bmap (i : nat) (bn : Z) : K Z :=
  if bn <? NDIRECT then root_slot i bn
  else
    let bn := bn - NDIRECT in
    if bn <? NINDIRECT then
      addr ← root_slot i NDIRECT;
      ip ← inode_at i;
      table_slot (idev ip) addr bn
    else
      let bn := bn - NINDIRECT in
      if bn <? NINDIRECT * NINDIRECT then
        addr ← root_slot i (NDIRECT + 1);
        ip ← inode_at i;
        addr ← table_slot (idev ip) addr (bn / NINDIRECT);
        table_slot (idev ip) addr (bn mod NINDIRECT)
      else
        let bn := bn - NINDIRECT * NINDIRECT in
        if bn <? NINDIRECT * NINDIRECT * NINDIRECT then
          addr ← root_slot i (NDIRECT + 2);
          ip ← inode_at i;
          addr ← table_slot (idev ip) addr (bn / (NINDIRECT * NINDIRECT));
          let cn := bn - NINDIRECT * NINDIRECT * (bn / (NINDIRECT * NINDIRECT)) in
          addr ← table_slot (idev ip) addr (cn / NINDIRECT);
          table_slot (idev ip) addr (cn mod NINDIRECT)
        else panic "bmap: out of range".

(** [for(j = 0; j < NINDIRECT; j++) if(a[j]) body(a[j])] on the table in
    buffer [bp]. *)
Definition for_entries (bp : handle) (body : Z -> K unit) : K unit :=
  for_each (Z.to_nat NINDIRECT) 0 (fun j =>
    d ← bd_data bp;
    let a := get32 d (4 * Z.of_nat j) in
    when (negb (a =? 0)) (body a)).

Definition itrunc_indirect (dev addr : Z) : K unit :=
  bp ← bd_read dev addr;
  for_entries bp (bfree dev);;
  bd_relse bp;;
  bfree dev addr.

Definition itrunc_double (dev addr : Z) : K unit :=
  bp ← bd_read dev addr;
  for_entries bp (fun a =>
    cp ← bd_read dev a;
    for_entries cp (bfree dev);;
    bd_relse cp;;
    bfree dev a);;
  bd_relse bp;;
  bfree dev addr.

Definition itrunc_triple (dev addr : Z) : K unit :=
  bp ← bd_read dev addr;
  for_entries bp (fun a =>
    cp ← bd_read dev a;
    for_entries cp (fun b =>
      dp ← bd_read dev b;
      for_entries dp (bfree dev);;
      bd_relse dp;;
      bfree dev b);;
    bd_relse cp;;
    bfree dev a);;
  bd_relse bp;;
  bfree dev addr.

(** [if(ip->addrs[k]){ free(ip->addrs[k]); ip->addrs[k] = 0; }] *)
Definition itrunc_root (i : nat) (k : nat) (free : Z -> Z -> K unit) : K unit :=
  ip ← inode_at i;
  addr ← deref (iaddrs ip !! k);
  when (negb (addr =? 0))
    (free (idev ip) addr;;
     upd_inode i (fun ip => ip <| iaddrs ::= <[k := 0]> |>)).

Definition itrunc (i : nat) : K unit :=
  for_each (Z.to_nat NDIRECT) 0 (fun k => itrunc_root i k bfree);;
  itrunc_root i (Z.to_nat NDIRECT) itrunc_indirect;;
  itrunc_root i (Z.to_nat (NDIRECT + 1)) itrunc_double;;
  itrunc_root i (Z.to_nat (NDIRECT + 2)) itrunc_triple;;
  upd_inode i (fun ip => ip <| isize := 0 |>);;
  iupdate i.

Definition iput (i : nat) : K unit :=
  acquiresleep (SInode i);;
  ip ← inode_at i;
  when (negb (ivalid ip =? 0) && (inlink ip =? 0))
    (acquire icache_lock;;
     ip ← inode_at i;
     release icache_lock;;
     when (iref ip =? 1)
       (itrunc i;;
        upd_inode i (fun ip => ip <| itype := 0 |>);;
        iupdate i;;
        upd_inode i (fun ip => ip <| ivalid := 0 |>)));;
  releasesleep (SInode i);;
  acquire icache_lock;;
  upd_inode i (fun ip => ip <| iref := s32 (iref ip - 1) |>);;
  release icache_lock.

Definition iunlockput (i : nat) : K unit := iunlock i;; iput i.

Record stat : Type := mk_stat { st_dev : Z; st_ino : Z; st_type : Z; st_nlink : Z; st_size : Z }.

Definition stati (i : nat) : K stat :=
  ip ← inode_at i;
  mret (mk_stat (idev ip) (inum ip) (itype ip) (inlink ip) (isize ip)).

(** ** Reading and writing *)

(** Both loops advance by at least one byte, and by whole blocks between the
    first and the last turn. *)
Fixpoint readi_loop (fu : nat) (i : nat) (tot off n : Z) (acc : list Z) : K (list Z) :=
  match fu with
  | O => halt NoFuel
  | S fu' =>
      if negb (tot <? n) then mret acc
      else
        b ← bmap i (off / BSIZE);
        ip ← inode_at i;
        bp ← bd_read (idev ip) b;
        let m := Z.min (n - tot) (BSIZE - off mod BSIZE) in
        d ← bd_data bp;
        bd_relse bp;;
        readi_loop fu' i (tot + m) (off + m) n (acc ++ slice d (off mod BSIZE) m)
  end.

Definition blocks_fuel (n : Z) : nat := S (S (S (Z.to_nat (n / BSIZE)))).

Definition readi (i : nat) (off n : Z) : K (Z * list Z) :=
  ip ← inode_at i;
  if itype ip =? T_DEV then
    match (if (imajor ip <? 0) || (imajor ip >=? NDEV) then None else dev_read (imajor ip)) with
    | None => mret (-1, [])
    | Some f => f i n
    end
  else if (off >? isize ip) || (u32 (off + n) <? off) then mret (-1, [])
  else
    let n := if u32 (off + n) >? isize ip then isize ip - off else n in
    d ← readi_loop (blocks_fuel n) i 0 off n [];
    mret (s32 n, d).

Fixpoint writei_loop (fu : nat) (i : nat) (src : list Z) (tot off n : Z) : K Z :=
  match fu with
  | O => halt NoFuel
  | S fu' =>
      if negb (tot <? n) then mret off
      else
        b ← bmap i (off / BSIZE);
        ip ← inode_at i;
        bp ← bd_read (idev ip) b;
        let m := Z.min (n - tot) (BSIZE - off mod BSIZE) in
        d ← bd_data bp;
        bd_log bp (splice d (off mod BSIZE) (slice src tot m));;
        bd_relse bp;;
        writei_loop fu' i src (tot + m) (off + m) n
  end.

(** [src] holds the [n] bytes at the source address. *)
Definition writei (i : nat) (src : list Z) (off n : Z) : K Z :=
  ip ← inode_at i;
  if itype ip =? T_DEV then
    match (if (imajor ip <? 0) || (imajor ip >=? NDEV) then None else dev_write (imajor ip)) with
    | None => mret (-1)
    | Some f => f i src n
    end
  else if (off >? isize ip) || (u32 (off + n) <? off) then mret (-1)
  else if u32 (off + n) >? MAXFILE * BSIZE then mret (-1)
  else
    off ← writei_loop (blocks_fuel n) i src 0 off n;
    ip ← inode_at i;
    when ((n >? 0) && (off >? isize ip))
      (upd_inode i (fun ip => ip <| isize := off |>);; iupdate i);;
    mret (s32 n).

(** ** Directories *)

Definition namecmp (s t : list Z) : Z := strncmp (Z.to_nat DIRSIZ) s t.

Fixpoint dirlookup_loop (fu : nat) (i : nat) (name : list Z) (off : Z) : K (option (nat * Z)) :=
  match fu with
  | O => halt NoFuel
  | S fu' =>
      dp ← inode_at i;
      if negb (off <? isize dp) then mret None
      else
        r ← readi i off DIRENT_SIZE;
        if negb (fst r =? DIRENT_SIZE) then panic "dirlookup read"
        else
          let de := get_dirent (snd r) in
          if negb (de_inum de =? 0) && (namecmp name (de_name de) =? 0) then
            ip ← iget (idev dp) (de_inum de);
            mret (Some (ip, off))
          else dirlookup_loop fu' i name (off + DIRENT_SIZE)
  end.

(** The inode and the offset of its entry. *)
Definition dirlookup (i : nat) (name : list Z) : K (option (nat * Z)) :=
  dp ← inode_at i;
  if negb (itype dp =? T_DIR) then panic "dirlookup not DIR"
  else dirlookup_loop (S (S (Z.to_nat (isize dp / DIRENT_SIZE)))) i name 0.

(** The offset of the first empty entry, or the end of the directory. *)
Fixpoint dirlink_loop (fu : nat) (i : nat) (off : Z) : K Z :=
  match fu with
  | O => halt NoFuel
  | S fu' =>
      dp ← inode_at i;
      if negb (off <? isize dp) then mret off
      else
        r ← readi i off DIRENT_SIZE;
        if negb (fst r =? DIRENT_SIZE) then panic "dirlink read"
        else if de_inum (get_dirent (snd r)) =? 0 then mret off
        else dirlink_loop fu' i (off + DIRENT_SIZE)
  end.

Definition dirlink (i : nat) (name : list Z) (inum_ : Z) : K Z :=
  o ← dirlookup i name;
  match o with
  | Some (ip, _) => iput ip;; mret (-1)
  | None =>
      dp ← inode_at i;
      off ← dirlink_loop (S (S (Z.to_nat (isize dp / DIRENT_SIZE)))) i 0;
      let de := mk_dirent (u16 inum_) (strncpy (Z.to_nat DIRSIZ) name) in
      r ← writei i (dirent_bytes de) off DIRENT_SIZE;
      if negb (r =? DIRENT_SIZE) then panic "dirlink" else mret 0
  end.

(** ** Paths *)

Definition slash : Z := 47.

(** [while( *path == '/') path++] *)
Fixpoint skip_slashes (path : list Z) : list Z :=
  match path with c :: path' => if c =? slash then skip_slashes path' else path | [] => [] end.

(** The element at the front of a path and the rest:
    [while( *path != '/' && *path != 0) path++]. *)
Fixpoint span_elem (path : list Z) : list Z * list Z :=
  match path with
  | [] => ([], [])
  | c :: path' =>
      if (c =? slash) || (c =? 0) then ([], path)
      else let '(e, r) := span_elem path' in (c :: e, r)
  end.

(** The rest of the path and the new contents of [name]. *)
Definition skipelem (path name : list Z) : option (list Z * list Z) :=
  let path := skip_slashes path in
  if byte_at path 0 =? 0 then None
  else
    let '(s, path) := span_elem path in
    let len := Z.of_nat (length s) in
    let name :=
      if len >=? DIRSIZ then splice name 0 (take (Z.to_nat DIRSIZ) s)
      else splice name 0 (s ++ [0]) in
    Some (skip_slashes path, name).

Fixpoint namex_loop (fu : nat) (i : nat) (path : list Z) (parent : bool) (name : list Z)
  : K (option nat * list Z) :=
  match fu with
  | O => halt NoFuel
  | S fu' =>
      match skipelem path name with
      | None =>
          if parent then iput i;; mret (None, name) else mret (Some i, name)
      | Some (path, name) =>
          ilock i;;
          ip ← inode_at i;
          if negb (itype ip =? T_DIR) then iunlockput i;; mret (None, name)
          else if parent && (byte_at path 0 =? 0) then iunlock i;; mret (Some i, name)
          else
            o ← dirlookup i name;
            match o with
            | None => iunlockput i;; mret (None, name)
            | Some (next, _) => iunlockput i;; namex_loop fu' next path parent name
            end
      end
  end.

(** [name] has room for [DIRSIZ] bytes; each turn takes at least one byte off
    the path. *)
Definition namex (path : list Z) (parent : bool) : K (option nat * list Z) :=
  i ← (if byte_at path 0 =? slash then iget ROOTDEV ROOTINO
       else p ← curproc; pr ← proc_at p; c ← deref (cwd pr); idup c);
  namex_loop (S (length path)) i path parent (replicate (Z.to_nat DIRSIZ) 0).

Definition namei (path : list Z) : K (option nat) := r ← namex path false; mret (fst r).

Definition nameiparent (path : list Z) : K (option nat * list Z) := namex path true.

End Fs.
