(* ===== verification/Pipe.v ===== *)
(** * pipe.c

    A pipe lives in a page of its own and is named by the address of the
    page. *)

From S2P Require Import Prelude Params Bytes Kernel Print Kalloc Vm Umem Sleep.

Definition PIPESIZE : Z := 512.

Definition pipe_at (p : Z) : K pipe := s ← get; deref (k_pipes s !! p).
Definition upd_pipe (p : Z) (f : pipe -> pipe) : K unit :=
  modify (fun s => s <| k_pipes ::= alter f p |>).

(** The page holds what the allocator left in it. *)
Definition new_pipe (s : kernel) (p : Z) : pipe :=
  mk_pipe (map (fun i => rd (k_mem s) (p + Z.of_nat i)) (seq 0 (Z.to_nat PIPESIZE))) 0 0 1 1.

Section Pipe.
Context {F : Fuel} {L : Linker}.

Definition pipeclose (p writable_ : Z) : K unit :=
  acquire (pipe_lock p);;
  (if negb (writable_ =? 0) then
     upd_pipe p (fun q => q <| writeopen := 0 |>);; wakeup (CPipeRead p)
   else
     upd_pipe p (fun q => q <| readopen := 0 |>);; wakeup (CPipeWrite p));;
  q ← pipe_at p;
  if (readopen q =? 0) && (writeopen q =? 0) then
    release (pipe_lock p);;
    modify (fun s => s <| k_pipes ::= delete p |>);;
    kfree p
  else release (pipe_lock p).

(** [while(p->nwrite == p->nread + PIPESIZE)]: waits for room; the result
    says whether to go on. *)
Definition pipe_room (p : Z) : K bool :=
  while_loop fuel (fun _ : unit =>
    q ← pipe_at p;
    if nwrite q =? u32 (nread q + PIPESIZE) then
      c ← curproc; pr ← proc_at c;
      if (readopen q =? 0) || negb (killed pr =? 0) then
        release (pipe_lock p);; mret (inr false)
      else
        wakeup (CPipeRead p);;
        sleep (CPipeWrite p) (pipe_lock p);;
        mret (inl tt)
    else mret (inr true)) tt.

(** [p->data[p->nwrite++ % PIPESIZE] = c] *)
Definition pipe_put (c : Z) (q : pipe) : pipe :=
  q <| pdata ::= <[Z.to_nat (nwrite q mod PIPESIZE) := c]> |> <| nwrite := u32 (nwrite q + 1) |>.

Fixpoint pipewrite_loop (m : nat) (p addr i : Z) : K bool :=
  match m with
  | O => mret true
  | S m' =>
      ok ← pipe_room p;
      if negb ok then mret false
      else
        c ← uload8 (u32 (addr + i));
        upd_pipe p (pipe_put c);;
        pipewrite_loop m' p addr (i + 1)
  end.

Definition pipewrite (p addr n : Z) : K Z :=
  acquire (pipe_lock p);;
  ok ← pipewrite_loop (Z.to_nat n) p addr 0;
  if negb ok then mret (-1)
  else
    wakeup (CPipeRead p);;
    release (pipe_lock p);;
    mret n.

(** [while(p->nread == p->nwrite && p->writeopen)] *)
Definition pipe_filled (p : Z) : K bool :=
  while_loop fuel (fun _ : unit =>
    q ← pipe_at p;
    if (nread q =? nwrite q) && negb (writeopen q =? 0) then
      c ← curproc; pr ← proc_at c;
      if negb (killed pr =? 0) then release (pipe_lock p);; mret (inr false)
      else sleep (CPipeRead p) (pipe_lock p);; mret (inl tt)
    else mret (inr true)) tt.

Fixpoint piperead_loop (m : nat) (p addr i : Z) : K Z :=
  match m with
  | O => mret i
  | S m' =>
      q ← pipe_at p;
      if nread q =? nwrite q then mret i
      else
        ustore8 (u32 (addr + i)) (byte_at (pdata q) (nread q mod PIPESIZE));;
        upd_pipe p (fun q => q <| nread := u32 (nread q + 1) |>);;
        piperead_loop m' p addr (i + 1)
  end.

Definition piperead (p addr n : Z) : K Z :=
  acquire (pipe_lock p);;
  ok ← pipe_filled p;
  if negb ok then mret (-1)
  else
    i ← piperead_loop (Z.to_nat n) p addr 0;
    wakeup (CPipeWrite p);;
    release (pipe_lock p);;
    mret i.

End Pipe.
