(* ===== verification/File.v ===== *)
(** * file.c: open files, positioned reads and writes *)

From S2P Require Import Prelude Params Bytes Kernel Print Kalloc Vm Umem Sleep Ide Bio Log Fs Pipe.

Section File.
Context {F : Fuel} {L : Linker} {BD : BlockDev} {DV : Devsw}.

Definition filealloc : K (option nat) :=
  acquire ftable_lock;;
  s ← get;
  match find_idx (fun f => fref f =? 0) (k_files s) with
  | Some i => upd_file i (fun f => f <| fref := 1 |>);; release ftable_lock;; mret (Some i)
  | None => release ftable_lock;; mret None
  end.

Definition filedup (i : nat) : K nat :=
  acquire ftable_lock;;
  f ← file_at i;
  if fref f <? 1 then panic "filedup"
  else
    upd_file i (fun f => f <| fref := s32 (fref f + 1) |>);;
    release ftable_lock;;
    mret i.

Definition fileclose (i : nat) : K unit :=
  acquire ftable_lock;;
  f ← file_at i;
  if fref f <? 1 then panic "fileclose"
  else
    upd_file i (fun f => f <| fref := s32 (fref f - 1) |>);;
    ff ← file_at i;
    if fref ff >? 0 then release ftable_lock
    else
      upd_file i (fun f => f <| fref := 0 |> <| ftype := FD_NONE |>);;
      release ftable_lock;;
      match ftype ff with
      | FD_PIPE => pipeclose (fpipe ff) (writable ff)
      | FD_INODE => begin_op;; ip ← deref (fip ff); iput ip;; end_op
      | FD_NONE => mret tt
      end.

(** [stati] stores the fields of [struct stat] (stat.h) at the user address. *)
Definition store_stat (st : Z) (r : stat) : K unit :=
  ustore32 (u32 (st + 4)) (st_dev r);;
  ustore32 (u32 (st + 8)) (st_ino r);;
  ustore st (le16 (st_type r));;
  ustore (u32 (st + 12)) (le16 (st_nlink r));;
  ustore32 (u32 (st + 16)) (st_size r).

Definition filestat (i : nat) (st : Z) : K Z :=
  f ← file_at i;
  match ftype f with
  | FD_INODE =>
      ip ← deref (fip f);
      ilock ip;;
      r ← stati ip;
      store_stat st r;;
      iunlock ip;;
      mret 0
  | _ => mret (-1)
  end.

(** [readi] into user memory. *)
Definition readi_user (ip : nat) (addr off n : Z) : K Z :=
  r ← readi ip (u32 off) (u32 n);
  ustore addr (snd r);;
  mret (fst r).

(** [writei] from user memory. *)
Definition writei_user (ip : nat) (addr off n : Z) : K Z :=
  src ← uload (Z.to_nat n) addr;
  writei ip src (u32 off) (u32 n).

Definition fileread (i : nat) (addr n : Z) : K Z :=
  f ← file_at i;
  if readable f =? 0 then mret (-1)
  else
    match ftype f with
    | FD_PIPE => piperead (fpipe f) addr n
    | FD_INODE =>
        ip ← deref (fip f);
        ilock ip;;
        f ← file_at i;
        r ← readi_user ip addr (foff f) n;
        when (r >? 0) (upd_file i (fun f => f <| foff := u32 (foff f + r) |>));;
        iunlock ip;;
        mret r
    | FD_NONE => panic "fileread"
    end.

(** The largest write of one transaction: [((MAXOPBLOCKS-1-1-2) / 2) * 512]. *)
Definition max_write : Z := (MAXOPBLOCKS - 1 - 1 - 2) / 2 * 512.

(** [inr] leaves the loop with [i]. *)
Fixpoint filewrite_loop (fu : nat) (fi : nat) (ip : nat) (addr n i : Z) : K Z :=
  match fu with
  | O => halt NoFuel
  | S fu' =>
      if negb (i <? n) then mret i
      else
        let n1 := Z.min (n - i) max_write in
        begin_op;;
        ilock ip;;
        f ← file_at fi;
        r ← writei_user ip (u32 (addr + i)) (foff f) n1;
        when (r >? 0) (upd_file fi (fun f => f <| foff := u32 (foff f + r) |>));;
        iunlock ip;;
        end_op;;
        if r <? 0 then mret i
        else if negb (r =? n1) then panic "short filewrite"
        else filewrite_loop fu' fi ip addr n (i + r)
  end.

Definition write_fuel (n : Z) : nat := S (S (Z.to_nat (n / max_write))).

Definition filewrite (i : nat) (addr n : Z) : K Z :=
  f ← file_at i;
  if writable f =? 0 then mret (-1)
  else
    match ftype f with
    | FD_PIPE => pipewrite (fpipe f) addr n
    | FD_INODE =>
        ip ← deref (fip f);
        k ← filewrite_loop (write_fuel n) i ip addr n 0;
        mret (if k =? n then n else -1)
    | FD_NONE => panic "filewrite"
    end.

(** ** pwrite and pread *)

(** [for(tot = 0; tot<n1; tot+=m, off_x+=m) m = min(n - tot, BSIZE - off%BSIZE)]:
    the end of the range the inode size is set to.  Every turn advances. *)
Fixpoint pwrite_end (fu : nat) (n n1 off tot off_x : Z) : Z :=
  match fu with
  | O => off_x
  | S fu' =>
      if tot <? n1 then
        let m := Z.min (n - tot) (BSIZE - Z.rem off BSIZE) in
        pwrite_end fu' n n1 off (tot + m) (s32 (off_x + m))
      else off_x
  end.

Fixpoint pwrite_loop (fu : nat) (fi : nat) (ip : nat) (addr n off i : Z) : K Z :=
  match fu with
  | O => halt NoFuel
  | S fu' =>
      if negb (i <? n) then mret i
      else
        let n1 := Z.min (n - i) max_write in
        begin_op;;
        ilock ip;;
        nd ← inode_at ip;
        when (u32 off >? isize nd)
          (upd_inode ip (fun nd => nd <| isize := u32 (pwrite_end (Z.to_nat n1) n n1 off 0 off) |>));;
        iunlock ip;;
        r ← writei_user ip (u32 (addr + i)) off n1;
        let off := if r >? 0 then s32 (off + r) else off in
        ilock ip;;
        f ← file_at fi;
        when (foff f <? u32 off) (upd_file fi (fun f => f <| foff := u32 off |>));;
        iunlock ip;;
        end_op;;
        if r <? 0 then mret i
        else if negb (r =? n1) then panic "short filewrite"
        else pwrite_loop fu' fi ip addr n off (i + r)
  end.

Definition open_file (fd : Z) : K (option nat) :=
  if (fd <? 0) || (fd >=? Z.of_nat NOFILE) then mret None
  else p ← curproc; pr ← proc_at p; mret (mjoin (ofile pr !! Z.to_nat fd)).

Definition pwrite_os (fd addr n off : Z) : K Z :=
  o ← open_file fd;
  match o with
  | None => cprintf ("[pwriete]error!" ++ nl) [];; mret (-1)
  | Some fi =>
      f ← file_at fi;
      match ftype f with
      | FD_INODE =>
          ip ← deref (fip f);
          k ← pwrite_loop (write_fuel n) fi ip addr n off 0;
          mret (if k =? n then n else -1)
      | _ => panic "filewrite"
      end
  end.

Definition pread_os (fd addr n off : Z) : K Z :=
  o ← open_file fd;
  match o with
  | None => cprintf ("[pread]error!" ++ nl) [];; mret (-1)
  | Some fi =>
      f ← file_at fi;
      match ftype f with
      | FD_INODE =>
          ip ← deref (fip f);
          ilock ip;;
          r ← readi_user ip addr off n;
          iunlock ip;;
          mret r
      | _ => panic "ErrorR on pread"
      end
  end.

(** ** Creating a pipe (pipe.c) *)

Definition pipealloc : K (option (nat * nat)) :=
  let bad (f0 f1 : option nat) : K (option (nat * nat)) :=
    match f0 with Some i => fileclose i | None => mret tt end;;
    match f1 with Some i => fileclose i | None => mret tt end;;
    mret None in
  f0 ← filealloc;
  match f0 with
  | None => bad None None
  | Some i0 =>
      f1 ← filealloc;
      match f1 with
      | None => bad (Some i0) None
      | Some i1 =>
          p ← kalloc;
          if p =? 0 then bad (Some i0) (Some i1)
          else
            modify (fun s => s <| k_pipes ::= <[p := new_pipe s p]> |>);;
            upd_file i0 (fun f => f <| ftype := FD_PIPE |> <| readable := 1 |>
                                    <| writable := 0 |> <| fpipe := p |>);;
            upd_file i1 (fun f => f <| ftype := FD_PIPE |> <| readable := 0 |>
                                    <| writable := 1 |> <| fpipe := p |>);;
            mret (Some (i0, i1))
      end
  end.

End File.
