(* ===== verification/Console.v ===== *)
(** * console.c: input, the console device, and the process listing

    The output half of console.c is in [Print]. *)

From S2P Require Import Prelude Params Bytes Kernel Print Sleep Ide Bio Log Fs.

Definition CONSOLE : Z := 1.

(** [C(x)]: control characters. *)
Definition ctrl_D : Z := 4.
Definition ctrl_H : Z := 8.
Definition ctrl_P : Z := 16.
Definition ctrl_U : Z := 21.
Definition DEL : Z := 127.

Definition upd_input (f : inputbuf -> inputbuf) : K unit := modify (fun s => s <| k_input ::= f |>).

(** [while(input.e != input.w && input.buf[(input.e-1) % INPUT_BUF] != '\n')]:
    there are at most as many turns as the buffer has bytes. *)
Fixpoint kill_line (n : nat) : K unit :=
  match n with
  | O => halt NoFuel
  | S n' =>
      b ← gets (fun s => k_input s);
      if negb (in_e b =? in_w b)
         && negb (byte_at (in_buf b) (u32 (in_e b - 1) mod INPUT_BUF) =? newline) then
        upd_input (fun b => b <| in_e := u32 (in_e b - 1) |>);;
        consputc BACKSPACE;;
        kill_line n'
      else mret tt
  end.

(** [input.buf[input.e++ % INPUT_BUF] = c] *)
Definition input_put (c : Z) (b : inputbuf) : inputbuf :=
  b <| in_buf ::= <[Z.to_nat (in_e b mod INPUT_BUF) := u8 c]> |> <| in_e := u32 (in_e b + 1) |>.

Definition console_char (c : Z) : K unit :=
  if c =? ctrl_U then kill_line (S (Z.to_nat INPUT_BUF))
  else if (c =? ctrl_H) || (c =? DEL) then
    b ← gets (fun s => k_input s);
    when (negb (in_e b =? in_w b))
      (upd_input (fun b => b <| in_e := u32 (in_e b - 1) |>);; consputc BACKSPACE)
  else
    b ← gets (fun s => k_input s);
    when (negb (c =? 0) && (u32 (in_e b - in_r b) <? INPUT_BUF))
      (let c := if c =? 13 then newline else c in
       upd_input (input_put c);;
       consputc c;;
       b ← gets (fun s => k_input s);
       when ((c =? newline) || (c =? ctrl_D) || (in_e b =? u32 (in_r b + INPUT_BUF)))
         (upd_input (fun b => b <| in_w := in_e b |>);; wakeup CInput)).

(** The return addresses of a kernel stack: at most ten frames. *)
Fixpoint getcallerpcs (n : nat) (m : gmap Z Z) (ebp : Z) : list Z :=
  match n with
  | O => []
  | S n' =>
      if (ebp =? 0) || (ebp <? KERNBASE) || (ebp =? 0xffffffff) then replicate (S n') 0
      else rd32 m (ebp + 4) :: getcallerpcs n' m (rd32 m ebp)
  end.

Definition state_name (st : procstate) : string :=
  match st with
  | UNUSED => "unused" | EMBRYO => "embryo" | SLEEPING => "sleep "
  | RUNNABLE => "runble" | RUNNING => "run   " | ZOMBIE => "zombie"
  end.

Fixpoint print_pcs (pcs : list Z) : K unit :=
  match pcs with
  | [] => mret tt
  | pc :: pcs' => if pc =? 0 then mret tt else cprintf " %p" [AInt pc];; print_pcs pcs'
  end.

Definition procdump : K unit :=
  for_each NPROC 0 (fun i =>
    p ← proc_at i;
    if bool_decide (state p = UNUSED) then mret tt
    else
      cprintf "%d %s %s" [AInt (pid p); AStr (Some (bytes_of (state_name (state p))));
                          AStr (Some (CString.cstr (name p)))];;
      when (bool_decide (state p = SLEEPING))
        (s ← get; print_pcs (getcallerpcs 10 (k_mem s) (cx_ebp (cx p))));;
      cprintf nl []).

(** [consoleintr] with the characters [getc] returns before it returns a
    negative value. *)
Fixpoint console_chars (cs : list Z) (dump : bool) : K bool :=
  match cs with
  | [] => mret dump
  | c :: cs' =>
      if c =? ctrl_P then console_chars cs' true
      else console_char c;; console_chars cs' dump
  end.

Definition consoleintr (cs : list Z) : K unit :=
  acquire cons_lock;;
  dump ← console_chars cs false;
  release cons_lock;;
  when dump procdump.

Section Console.
Context {F : Fuel} {BD : BlockDev}.

(** Waits for input; the result says whether there is some. *)
Definition console_wait (ip : nat) : K bool :=
  while_loop fuel (fun _ : unit =>
    b ← gets (fun s => k_input s);
    if in_r b =? in_w b then
      p ← curproc; pr ← proc_at p;
      if negb (killed pr =? 0) then
        release cons_lock;; ilock ip;; mret (inr false)
      else sleep CInput cons_lock;; mret (inl tt)
    else mret (inr true)) tt.

(** The bytes read so far and whether the wait was given up; [n] bytes may
    still be read of [target]. *)
Fixpoint consoleread_loop (m : nat) (ip : nat) (n target : Z) (acc : list Z) : K (option (list Z)) :=
  match m with
  | O => mret (Some acc)
  | S m' =>
      ok ← console_wait ip;
      if negb ok then mret None
      else
        b ← gets (fun s => k_input s);
        let c := byte_at (in_buf b) (in_r b mod INPUT_BUF) in
        upd_input (fun b => b <| in_r := u32 (in_r b + 1) |>);;
        if c =? ctrl_D then
          when (n <? target) (upd_input (fun b => b <| in_r := u32 (in_r b - 1) |>));;
          mret (Some acc)
        else if c =? newline then mret (Some (acc ++ [c]))
        else consoleread_loop m' ip (n - 1) target (acc ++ [c])
  end.

Definition consoleread (ip : nat) (n : Z) : K (Z * list Z) :=
  iunlock ip;;
  acquire cons_lock;;
  o ← consoleread_loop (Z.to_nat (s32 n)) ip (s32 n) (s32 n) [];
  match o with
  | None => mret (-1, [])
  | Some d =>
      release cons_lock;;
      ilock ip;;
      mret (Z.of_nat (length d), d)
  end.

Definition consolewrite (ip : nat) (buf : list Z) (n : Z) : K Z :=
  iunlock ip;;
  acquire cons_lock;;
  put_all (map (fun c => Z.land c 0xff) (take (Z.to_nat (s32 n)) buf));;
  release cons_lock;;
  ilock ip;;
  mret (s32 n).

(** The device table after [consoleinit]. *)
Definition console_devsw : Devsw := {|
  dev_read := fun major => if major =? CONSOLE then Some consoleread else None;
  dev_write := fun major => if major =? CONSOLE then Some consolewrite else None
|}.

End Console.
