(* ===== verification/Kbd.v ===== *)
(** * kbd.c: the keyboard

    The controller delivers scan codes one byte at a time.  [kbdgetc] turns a
    byte into a character, or 0, and keeps the keys that are down and the locks
    in the bits of [shift].  [held] and [toggled] say what these bits should be
    from the history of keys alone. *)

From S2P Require Import Prelude Params Bytes Kernel Print Sleep Console.

Definition KBS_DIB : Z := 0x01.

Definition NO : Z := 0.
Definition SHIFT : Z := 1.
Definition CTL : Z := 2.
Definition ALT : Z := 4.
Definition CAPSLOCK : Z := 8.
Definition NUMLOCK : Z := 16.
Definition SCROLLLOCK : Z := 32.
Definition E0ESC : Z := 64.

Definition KEY_HOME : Z := 0xE0.
Definition KEY_END : Z := 0xE1.
Definition KEY_UP : Z := 0xE2.
Definition KEY_DN : Z := 0xE3.
Definition KEY_LF : Z := 0xE4.
Definition KEY_RT : Z := 0xE5.
Definition KEY_PGUP : Z := 0xE6.
Definition KEY_PGDN : Z := 0xE7.
Definition KEY_INS : Z := 0xE8.
Definition KEY_DEL : Z := 0xE9.

(** ** The tables *)

(** An array of 256 bytes: the first elements, and elements with an index. *)
Definition uchar256 (first : list Z) (more : list (nat * Z)) : list Z :=
  foldr (fun '(i, c) t => <[i := u8 c]> t) (map u8 first ++ replicate (256 - length first) 0) more.

Definition shiftcode : list Z :=
  uchar256 [] [(0x1D, CTL); (0x2A, SHIFT); (0x36, SHIFT); (0x38, ALT); (0x9D, CTL); (0xB8, ALT)]%nat.

Definition togglecode : list Z :=
  uchar256 [] [(0x3A, CAPSLOCK); (0x45, NUMLOCK); (0x46, SCROLLLOCK)]%nat.

(** The keys all maps end with. *)
Definition extended : list (nat * Z) :=
  [(0xC8, KEY_UP); (0xD0, KEY_DN); (0xC9, KEY_PGUP); (0xD1, KEY_PGDN); (0xCB, KEY_LF); (0xCD, KEY_RT);
   (0x97, KEY_HOME); (0xCF, KEY_END); (0xD2, KEY_INS); (0xD3, KEY_DEL)]%nat.

(** From 0x37 on. *)
Definition keypad : list Z :=
  bytes_of "*" ++ [NO] ++ bytes_of " " ++ replicate 13 NO ++ bytes_of "789-456+1230." ++ replicate 4 NO.

Definition normalmap : list Z := uchar256
  ([NO; 0x1B] ++ bytes_of "1234567890-=" ++ [8; 9] ++ bytes_of "qwertyuiop[]" ++ [10; NO] ++ bytes_of "asdfghjkl;'`" ++
   [NO] ++ bytes_of "\zxcvbnm,./" ++ [NO] ++ keypad)
  ((0x9C%nat, 10) :: (0xB5%nat, 47) :: extended).

Definition shiftmap : list Z := uchar256
  ([NO; 0x1B] ++ bytes_of "!@#$%^&*()_+" ++ [8; 9] ++ bytes_of "QWERTYUIOP{}" ++ [10; NO] ++ bytes_of "ASDFGHJKL:" ++ [34] ++ bytes_of "~" ++
   [NO] ++ bytes_of "|ZXCVBNM<>?" ++ [NO] ++ keypad)
  ((0x9C%nat, 10) :: (0xB5%nat, 47) :: extended).

(** [C(x)]: with the control key. *)
Definition ctl_chars (s : string) : list Z := map (fun x => x - 64) (bytes_of s).

Definition ctlmap : list Z := uchar256
  (replicate 16 NO ++ ctl_chars "QWERTYUIOP" ++ [NO; NO; 13; NO] ++ ctl_chars "ASDFGHJKL" ++ replicate 4 NO ++ ctl_chars "\ZXCVBNM" ++
   [NO; NO] ++ ctl_chars "/" ++ [NO; NO])
  ((0x9C%nat, 13) :: (0xB5%nat, 47 - 64) :: extended).

(** ** kbdgetc *)

(** An element of a table; the index is a byte. *)
Definition elem (t : list Z) (i : Z) : Z := byte_at t i.

Definition is_set (x bit : Z) : bool := negb (Z.land x bit =? 0).

Definition charcode (i : Z) : list Z :=
  if i =? 0 then normalmap else if i =? 1 then shiftmap else ctlmap.

(** With the status and the data of the controller: the new [shift] and the
    result. *)
Definition kbdgetc (shift st data : Z) : Z * Z :=
  if negb (is_set st KBS_DIB) then (shift, -1)
  else if data =? 0xE0 then (Z.lor shift E0ESC, 0)
  else if is_set data 0x80 then
    let data := if is_set shift E0ESC then data else Z.land data 0x7F in
    (Z.land shift (Z.lnot (Z.lor (elem shiftcode data) E0ESC)), 0)
  else
    let '(data, shift) := if is_set shift E0ESC then (Z.lor data 0x80, Z.land shift (Z.lnot E0ESC)) else (data, shift) in
    let shift := Z.lor shift (elem shiftcode data) in
    let shift := Z.lxor shift (elem togglecode data) in
    let c := elem (charcode (Z.land shift (Z.lor CTL SHIFT))) data in
    let c := if is_set shift CAPSLOCK then
               if (97 <=? c) && (c <=? 122) then c + (65 - 97)
               else if (65 <=? c) && (c <=? 90) then c + (97 - 65) else c
             else c in
    (shift, c).

(** The calls [consoleintr] makes until the controller has no more bytes. *)
Fixpoint kbd_chars (shift : Z) (codes : list Z) : Z * list Z :=
  match codes with
  | [] => (shift, [])
  | d :: ds =>
      let '(sh, c) := kbdgetc shift KBS_DIB d in
      let '(sh', cs) := kbd_chars sh ds in
      (sh', c :: cs)
  end.

Definition kbdintr (shift : Z) (codes : list Z) : K Z :=
  let '(sh, cs) := kbd_chars shift codes in
  consoleintr cs;;
  mret sh.

(** ** What the bits mean *)

Inductive key : Type := Press (k : Z) | Release (k : Z).

(** The keys of a sequence of scan codes: a code after 0xE0 names a key of the
    second half of the table. *)
Fixpoint keys (esc : bool) (codes : list Z) : list key :=
  match codes with
  | [] => []
  | b :: bs =>
      if b =? 0xE0 then keys true bs
      else if 0x80 <=? b then Release (if esc then b else b - 0x80) :: keys false bs
      else Press (if esc then b + 0x80 else b) :: keys false bs
  end.

(** The last of the keys [ks] to be pressed or released was pressed. *)
Definition hold (ks : list Z) (h : bool) (e : key) : bool :=
  match e with
  | Press k => if bool_decide (k ∈ ks) then true else h
  | Release k => if bool_decide (k ∈ ks) then false else h
  end.

Definition held (ks : list Z) (l : list key) : bool := foldl (hold ks) false l.

(** The key was pressed an odd number of times. *)
Definition flip (c : Z) (h : bool) (e : key) : bool := match e with Press k => if k =? c then negb h else h | Release _ => h end.

Definition toggled (c : Z) (l : list key) : bool := foldl (flip c) false l.

Definition shift_keys : list Z := [0x2A; 0x36].
Definition ctl_keys : list Z := [0x1D; 0x9D].
Definition alt_keys : list Z := [0x38; 0xB8].

Definition flags (sft ctl alt caps num scroll esc : bool) : Z :=
  Z.b2z sft + 2 * Z.b2z ctl + 4 * Z.b2z alt + 8 * Z.b2z caps + 16 * Z.b2z num + 32 * Z.b2z scroll + 64 * Z.b2z esc.

Definition ends_in_escape (codes : list Z) : bool := bool_decide (last codes = Some 0xE0).

(** The character of a key, from the modifiers. *)
Definition key_char (sft ctl caps : bool) (k : Z) : Z :=
  let c := byte_at (if ctl then ctlmap else if sft then shiftmap else normalmap) k in
  if caps && (97 <=? c) && (c <=? 122) then c - 32 else if caps && (65 <=? c) && (c <=? 90) then c + 32 else c.

Definition flags_of (codes : list Z) : Z :=
  let l := keys false codes in
  flags (held shift_keys l) (held ctl_keys l) (held alt_keys l) (toggled 0x3A l) (toggled 0x45 l) (toggled 0x46 l) (ends_in_escape codes).

(** ** One byte, for all states and bytes *)

Definition next_char (sft ctl caps : bool) (l : list key) : Z := match l with [Press k] => key_char sft ctl caps k | _ => 0 end.

Definition step_ok (x : Z) (d : Z) : bool :=
  let b i := Z.testbit x i in
  let l := keys (b 6) [d] in
  let sft := foldl (hold shift_keys) (b 0) l in
  let ctl := foldl (hold ctl_keys) (b 1) l in
  let caps := foldl (flip 0x3A) (b 3) l in
  let '(sh, c) := kbdgetc x KBS_DIB d in
  (sh =? flags sft ctl (foldl (hold alt_keys) (b 2) l) caps (foldl (flip 0x45) (b 4) l) (foldl (flip 0x46) (b 5) l) (d =? 0xE0)) &&
  (c =? next_char sft ctl caps l) && (0 <=? c) && (c <? 256).

Lemma all_steps_ok : forallb (fun x => forallb (fun d => step_ok (Z.of_nat x) (Z.of_nat d)) (seq 0 256)) (seq 0 128) = true.
Proof. vm_compute. reflexivity. Qed.

Lemma step_is_ok (x d : Z) : 0 <= x < 128 -> is_byte d -> step_ok x d = true.
Proof.
  intros Hx Hd. pose proof all_steps_ok as H. rewrite forallb_forall in H. specialize (H (Z.to_nat x)). rewrite forallb_forall in H.
  specialize (H ltac:(apply in_seq; lia) (Z.to_nat d)). rewrite !Z2Nat.id in H by (unfold is_byte in Hd; lia). apply H, in_seq. unfold is_byte in Hd. lia.
Qed.

Lemma flags_bits (s c a k n r e : bool) : let x := flags s c a k n r e in
  0 <= x < 128 /\ Z.testbit x 0 = s /\ Z.testbit x 1 = c /\ Z.testbit x 2 = a /\ Z.testbit x 3 = k /\ Z.testbit x 4 = n /\ Z.testbit x 5 = r /\ Z.testbit x 6 = e.
Proof. destruct s, c, a, k, n, r, e; vm_compute; intuition discriminate. Qed.

(** ** Sequences *)

Lemma keys_snoc (codes : list Z) (d : Z) : forall esc, keys esc (codes ++ [d]) = keys esc codes ++ keys (match last codes with Some b => b =? 0xE0 | None => esc end) [d].
Proof.
  induction codes as [|b codes IH]; intros esc; [reflexivity|]. cbn [app keys]. rewrite !IH.
  rewrite last_cons.
  destruct (b =? 0xE0) eqn:E; [|destruct (0x80 <=? b)]; destruct (last codes) as [x|] eqn:El; cbn [app]; rewrite ?E; reflexivity.
Qed.

Lemma keys_escape (codes : list Z) (d : Z) : keys false (codes ++ [d]) = keys false codes ++ keys (ends_in_escape codes) [d].
Proof.
  rewrite keys_snoc. unfold ends_in_escape. destruct (last codes) as [x|]; [|reflexivity]. f_equal. f_equal.
  destruct (Z.eqb_spec x 0xE0) as [->|Hne]; [reflexivity|]. symmetry. apply bool_decide_eq_false_2. congruence.
Qed.

Lemma kbd_chars_snoc (codes : list Z) (d : Z) : forall shift, kbd_chars shift (codes ++ [d]) =
  let '(sh, cs) := kbd_chars shift codes in let '(sh', c) := kbdgetc sh KBS_DIB d in (sh', cs ++ [c]).
Proof.
  induction codes as [|b codes IH]; intros shift; cbn [app kbd_chars].
  - destruct (kbdgetc shift KBS_DIB d). reflexivity.
  - destruct (kbdgetc shift KBS_DIB b) as [sh c]. rewrite IH. destruct (kbd_chars sh codes) as [sh1 cs]. destruct (kbdgetc sh1 KBS_DIB d). reflexivity.
Qed.

(** The flags after one more byte, and the character. *)
Lemma kbdgetc_next (codes : list Z) (d : Z) : is_byte d -> let l := keys false (codes ++ [d]) in
  kbdgetc (flags_of codes) KBS_DIB d =
    (flags_of (codes ++ [d]), next_char (held shift_keys l) (held ctl_keys l) (toggled 0x3A l) (keys (ends_in_escape codes) [d])) /\
  is_byte (next_char (held shift_keys l) (held ctl_keys l) (toggled 0x3A l) (keys (ends_in_escape codes) [d])).
Proof.
  intros Hd l. unfold flags_of. set (k := keys false codes).
  destruct (flags_bits (held shift_keys k) (held ctl_keys k) (held alt_keys k) (toggled 0x3A k) (toggled 0x45 k) (toggled 0x46 k) (ends_in_escape codes))
    as (Hr & B0 & B1 & B2 & B3 & B4 & B5 & B6).
  pose proof (step_is_ok _ d Hr Hd) as H. unfold step_ok in H. rewrite B0, B1, B2, B3, B4, B5, B6 in H. unfold l. rewrite keys_escape. fold k.
  unfold held, toggled in *. rewrite !foldl_app. destruct (kbdgetc _ KBS_DIB d) as [sh c]. rewrite !andb_true_iff, !Z.eqb_eq, Z.leb_le, Z.ltb_lt in H.
  destruct H as [ [ [-> ->] H1] H2]. split; [|split; assumption]. f_equal. unfold ends_in_escape. rewrite last_snoc. f_equal.
  destruct (Z.eqb_spec d 0xE0) as [->|Hne]; [reflexivity|]. symmetry. apply bool_decide_eq_false_2. congruence.
Qed.

Lemma kbd_chars_flags (codes : list Z) : Forall is_byte codes -> exists cs, kbd_chars 0 codes = (flags_of codes, cs) /\ Forall is_byte cs /\ length cs = length codes.
Proof.
  induction codes as [|d codes IH] using rev_ind; intros H; [exists []; split_and!; [reflexivity|constructor|reflexivity]|].
  apply Forall_app in H as [H Hd]. apply Forall_cons in Hd as [Hd _]. destruct (IH H) as (cs & E & B & Ln). destruct (kbdgetc_next codes d Hd) as [E1 B1].
  rewrite kbd_chars_snoc, E, E1. eexists. split_and!; [reflexivity|apply Forall_app; split; [exact B|constructor; [exact B1|constructor]]|rewrite !length_app, Ln; reflexivity].
Qed.

(** C40. The keyboard after any sequence of scan codes: [shift] is a set of seven flags, one for shift, control and alt each (set when the last such key that moved was pressed), one for each lock (set when its key was pressed an odd number of times) and one for an escape code at the end; each call returns a byte, and the last call returns 0 unless a key was pressed, and then the character of this key in the table the modifiers select, with the case of letters exchanged under caps lock. *)
Theorem kbd_tracks_keys (codes : list Z) (d : Z) (H : Forall is_byte (codes ++ [d])) : let l := keys false (codes ++ [d]) in
  exists cs c, kbd_chars 0 (codes ++ [d]) = (flags_of (codes ++ [d]), cs ++ [c]) /\ 0 <= flags_of (codes ++ [d]) < 128 /\
    Forall is_byte (cs ++ [c]) /\ length cs = length codes /\
    c = next_char (held shift_keys l) (held ctl_keys l) (toggled 0x3A l) (keys (ends_in_escape codes) [d]).
Proof.
  intros l. apply Forall_app in H as [H Hd]. apply Forall_cons in Hd as [Hd _]. destruct (kbd_chars_flags codes H) as (cs & E & B & Ln).
  destruct (kbdgetc_next codes d Hd) as [E1 B1]. rewrite kbd_chars_snoc, E, E1. exists cs. eexists. split_and!; [reflexivity|apply flags_bits..| |exact Ln|reflexivity].
  apply Forall_app. split; [exact B|constructor; [exact B1|constructor]].
Qed.

(** Shift down, a, shift up, b. *)
Lemma kbd_tracks_keys_witness : exists cs c, kbd_chars 0 ([0x2A; 0x1E; 0xAA] ++ [0x30]) = (0, cs ++ [c]) /\ c = 98.
Proof.
  destruct (kbd_tracks_keys [0x2A; 0x1E; 0xAA] 0x30) as (cs & c & E & _ & _ & _ & Ec); [repeat constructor; unfold is_byte; lia|].
  exists cs, c. split; [exact E|exact Ec].
Defined.
