(* ===== verification/ConsoleSpec.v ===== *)
(** * What the console's input is: a line editor

    The ring of 128 bytes with its three counters, which wrap around at 2^32,
    stands for the characters of complete lines that wait to be read and the
    line that is being typed. *)

From S2P Require Import Prelude Params Bytes Kernel Print Sleep Ide Bio Log Fs Console.

(** ** The editor *)

Record editor : Type := mk_editor { ed_ready : list Z; ed_line : list Z }.

Definition ed_size (d : editor) : nat := length (ed_ready d) + length (ed_line d).

(** A new character: a return counts as a newline; a newline, an end-of-file
    character or a full buffer completes the line. *)
Definition ed_insert (c : Z) (d : editor) : editor :=
  let c := if c =? 13 then newline else c in
  let l := ed_line d ++ [c] in
  if (c =? newline) || (c =? ctrl_D) || (length (ed_ready d) + length l =? 128)%nat then mk_editor (ed_ready d ++ l) []
  else mk_editor (ed_ready d) l.

Definition ed_char (d : editor) (c : Z) : editor :=
  if c =? ctrl_U then mk_editor (ed_ready d) []
  else if (c =? ctrl_H) || (c =? DEL) then mk_editor (ed_ready d) (removelast (ed_line d))
  else if (c =? ctrl_P) || (c =? 0) || (128 <=? ed_size d)%nat then d
  else ed_insert c d.

Definition ed_type (cs : list Z) (d : editor) : editor := foldl ed_char d cs.

(** A read of at most [n] characters, and what is left; [None] if it has to
    wait.  It ends after a newline and before an end-of-file character, which
    is taken only by a read that begins with it. *)
Fixpoint ed_read (n : nat) (first : bool) (r : list Z) : option (list Z * list Z) :=
  match n with
  | O => Some ([], r)
  | S n' =>
      match r with
      | [] => None
      | c :: r' =>
          if c =? ctrl_D then Some ([], if first then r' else r)
          else if c =? newline then Some ([c], r')
          else match ed_read n' false r' with Some (d, r2) => Some (c :: d, r2) | None => None end
      end
  end.

(** ** The ring *)

Record input_rep (b : inputbuf) (d : editor) : Prop := {
  ir_len : length (in_buf b) = 128%nat;
  ir_r : 0 <= in_r b < 2 ^ 32;
  ir_w : in_w b = u32 (in_r b + Z.of_nat (length (ed_ready d)));
  ir_e : in_e b = u32 (in_r b + Z.of_nat (ed_size d));
  ir_size : (ed_size d <= 128)%nat;
  ir_bytes : forall i x, (ed_ready d ++ ed_line d) !! i = Some x -> byte_at (in_buf b) ((in_r b + Z.of_nat i) mod INPUT_BUF) = x;
  ir_line : newline ∉ ed_line d
}.

Lemma u32_off (r n : Z) : 0 <= r < 2 ^ 32 -> 0 <= n <= 128 -> u32 (u32 (r + n) - r) = n.
Proof. intros Hr Hn. unfold u32. Z.div_mod_to_equations. lia. Qed.

Lemma u32_eqb (r n m : Z) : 0 <= n <= 128 -> 0 <= m <= 128 -> (u32 (r + n) =? u32 (r + m)) = (n =? m).
Proof.
  intros Hn Hm. destruct (Z.eqb_spec n m) as [->|H]; [apply Z.eqb_refl|]. apply Z.eqb_neq. intros E. apply H. unfold u32 in E.
  Z.div_mod_to_equations. lia.
Qed.

Lemma u32_add (r n k : Z) : u32 (u32 (r + n) + k) = u32 (r + (n + k)).
Proof. unfold u32. rewrite Zplus_mod_idemp_l. f_equal. lia. Qed.

Lemma u32_add_l (x k : Z) : u32 (u32 x + k) = u32 (x + k).
Proof. unfold u32. apply Zplus_mod_idemp_l. Qed.

Lemma u32_ring (x : Z) : u32 x mod 128 = x mod 128.
Proof. unfold u32. change (2 ^ 32) with 4294967296. Z.div_mod_to_equations. lia. Qed.

Section Ring.
Context (b : inputbuf) (d : editor) (H : input_rep b d).

Lemma empty_line : (in_e b =? in_w b) = bool_decide (ed_line d = []).
Proof.
  destruct H as [_ Hr Hw He Hs _ _]. unfold ed_size in *. rewrite He, Hw, u32_eqb by lia. destruct (ed_line d) as [|c l]; cbn [length] in *.
  - rewrite bool_decide_eq_true_2 by reflexivity. apply Z.eqb_eq. lia.
  - rewrite bool_decide_eq_false_2 by discriminate. apply Z.eqb_neq. lia.
Qed.

Lemma fill_level : u32 (in_e b - in_r b) = Z.of_nat (ed_size d).
Proof. destruct H as [_ Hr Hw He Hs _ _]. rewrite He. apply u32_off; lia. Qed.

(** One character less of the line. *)
Lemma rubout : ed_line d <> [] -> input_rep (b <| in_e := u32 (in_e b - 1) |>) (mk_editor (ed_ready d) (removelast (ed_line d))).
Proof.
  intros Hn. destruct (exists_last Hn) as (l & c & E). destruct H as [Hl Hr Hw He Hs Hb Hc]. rewrite E, removelast_last. unfold ed_size in *.
  rewrite E, length_app in *. cbn [length] in *. split; cbn [in_buf in_r in_w in_e ed_ready ed_line]; try assumption.
  - cbn. rewrite He. unfold ed_size. cbn [ed_ready ed_line]. change (-1) with (-1). rewrite <- Z.add_opp_r, u32_add. f_equal. lia.
  - unfold ed_size. cbn. lia.
  - intros i x Hi. apply Hb. rewrite app_assoc. apply lookup_app_l_Some. exact Hi.
  - intros Hin. apply Hc. set_solver.
Qed.

(** One character more. *)
Lemma put_char (c : Z) : is_byte c -> (ed_size d < 128)%nat ->
  let b' := input_put c b in
  in_r b' = in_r b /\ in_w b' = in_w b /\ in_e b' = u32 (in_r b + Z.of_nat (S (ed_size d))) /\ length (in_buf b') = 128%nat /\
  forall i x, (ed_ready d ++ ed_line d ++ [c]) !! i = Some x -> byte_at (in_buf b') ((in_r b + Z.of_nat i) mod INPUT_BUF) = x.
Proof.
  intros Hy Hn. destruct H as [Hl Hr Hw He Hs Hb Hc]. unfold input_put. rewrite u8_small by exact Hy. cbn. split_and!; [reflexivity|reflexivity| |rewrite length_insert; exact Hl|].
  - rewrite He, u32_add. f_equal. lia.
  - unfold INPUT_BUF in *. intros i x Hi. rewrite app_assoc in Hi. unfold byte_at. rewrite He, u32_ring. unfold ed_size in *. apply lookup_app_Some in Hi as [Hi|[Hge Hi] ].
    + pose proof (lookup_lt_Some _ _ _ Hi) as Hlt. rewrite length_app in Hlt. rewrite list_lookup_insert_ne; [exact (Hb i x Hi)|].
      intros E. apply Z2Nat.inj in E; [|Z.div_mod_to_equations; lia..]. Z.div_mod_to_equations. lia.
    + rewrite length_app in Hge, Hi. destruct (i - _)%nat as [|k] eqn:Ek; [|destruct k; discriminate]. injection Hi as <-.
      replace i with (length (ed_ready d) + length (ed_line d))%nat by lia. rewrite list_lookup_insert_eq; [reflexivity|].
      rewrite Hl. Z.div_mod_to_equations. lia.
Qed.

(** A byte is read. *)
Lemma take_char (c : Z) (r : list Z) : ed_ready d = c :: r ->
  byte_at (in_buf b) (in_r b mod INPUT_BUF) = c /\ (in_r b =? in_w b) = false /\
  input_rep (b <| in_r := u32 (in_r b + 1) |>) (mk_editor r (ed_line d)).
Proof.
  intros E. destruct H as [Hl Hr Hw He Hs Hb Hc]. unfold ed_size in *. rewrite E in *. cbn [length app] in *. split_and!.
  - rewrite <- (Z.add_0_r (in_r b)). apply (Hb 0%nat). reflexivity.
  - rewrite Hw. rewrite <- (Z.add_0_r (in_r b)) at 1. rewrite <- (u32_small (in_r b + 0)) by lia. rewrite u32_eqb by lia. apply Z.eqb_neq. lia.
  - split; unfold ed_size; cbn [ed_ready ed_line]; cbn; try assumption.
    + unfold u32. apply Z.mod_pos_bound. lia.
    + rewrite Hw, u32_add. f_equal. lia.
    + rewrite He, u32_add. f_equal. lia.
    + lia.
    + unfold INPUT_BUF in *. intros i x Hi. specialize (Hb (S i) x Hi). rewrite <- Hb. f_equal. rewrite <- (u32_ring (_ + Z.of_nat i)), u32_add_l, u32_ring. f_equal. lia.
Qed.

(** A byte is put back. *)
Lemma untake_char (c : Z) (r : list Z) : ed_ready d = c :: r -> b <| in_r := u32 (u32 (in_r b + 1) - 1) |> = b.
Proof.
  intros _. destruct H as [_ Hr _ _ _ _ _]. destruct b as [bf r0 w e]. cbn in *. unfold upd. cbn. f_equal. unfold u32. Z.div_mod_to_equations. lia.
Qed.
End Ring.

(** ** The operations *)

Definition at_console (h : list lockid) (d : editor) (s : kernel) : Prop :=
  console_ok s /\ k_held s = h /\ input_rep (k_input s) d.

Lemma consputc_at (c : Z) (h : list lockid) (d : editor) (s : kernel) : at_console h d s ->
  exists t, consputc c s = Done tt t /\ at_console h d t.
Proof.
  intros (H1 & H2 & H3). destruct (consputc_run c s H1) as (t & E & [T C]). exists t. split; [exact E|]. split; [exact C|].
  rewrite T. split; [exact H2|exact H3].
Qed.

Lemma upd_input_at (f : inputbuf -> inputbuf) (h : list lockid) (d d' : editor) (s : kernel) : at_console h d s -> input_rep (f (k_input s)) d' ->
  upd_input f s = Done tt (s <| k_input ::= f |>) /\ at_console h d' (s <| k_input ::= f |>).
Proof. intros (H1 & H2 & H3) H. split; [reflexivity|]. split; [exact H1|]. split; [exact H2|exact H]. Qed.

(** The last character of the line is no newline. *)
Lemma line_end (b : inputbuf) (d : editor) : input_rep b d -> ed_line d <> [] ->
  (byte_at (in_buf b) (u32 (in_e b - 1) mod INPUT_BUF) =? newline) = false.
Proof.
  intros [Hl Hr Hw He Hs Hb Hc] Hn. destruct (exists_last Hn) as (l & c & E). unfold INPUT_BUF, ed_size in *. rewrite E in *. rewrite length_app in *. cbn [length] in *.
  replace (u32 (in_e b - 1) mod 128) with ((in_r b + Z.of_nat (length (ed_ready d) + length l)) mod 128).
  - rewrite (Hb _ c); [apply Z.eqb_neq; intros ->; apply Hc; set_solver|]. rewrite app_assoc, lookup_app_r, length_app, Nat.sub_diag by (rewrite length_app; lia). reflexivity.
  - rewrite He, <- Z.add_opp_r, u32_add, u32_ring. f_equal. lia.
Qed.

Lemma rub_one (h : list lockid) (d : editor) (s : kernel) : at_console h d s -> ed_line d <> [] ->
  exists t, (upd_input (fun b => b <| in_e := u32 (in_e b - 1) |>);; consputc BACKSPACE) s = Done tt t /\
    at_console h (mk_editor (ed_ready d) (removelast (ed_line d))) t.
Proof.
  intros H Hn. destruct (upd_input_at (fun b => b <| in_e := u32 (in_e b - 1) |>) _ _ _ _ H (rubout _ _ (proj2 (proj2 H)) Hn)) as [E H'].
  rewrite (bind_Done _ _ _ _ _ E). apply consputc_at, H'.
Qed.

Lemma kill_line_run (h : list lockid) (n : nat) : forall (d : editor) (s : kernel), at_console h d s -> (length (ed_line d) < n)%nat ->
  exists t, kill_line n s = Done tt t /\ at_console h (mk_editor (ed_ready d) []) t.
Proof.
  induction n as [|n IH]; intros d s H Hn; [lia|]. cbn [kill_line]. rewrite (bind_Done (gets (fun s => k_input s)) _ s s (k_input s) eq_refl).
  pose proof (proj2 (proj2 H)) as R. rewrite (empty_line _ _ R). destruct (decide (ed_line d = [])) as [E|E].
  - rewrite bool_decide_eq_true_2 by exact E. exists s. split; [reflexivity|]. destruct d as [r l]. cbn in *. subst l. exact H.
  - rewrite bool_decide_eq_false_2, (line_end _ _ R E) by exact E. cbn [negb andb]. destruct (rub_one h d s H E) as (t & Et & Ht).
    destruct (upd_input_at (fun b => b <| in_e := u32 (in_e b - 1) |>) _ _ _ _ H (rubout _ _ R E)) as [E1 H1]. rewrite (bind_Done _ _ _ _ _ E1) in Et. rewrite (bind_Done _ _ _ _ _ E1), (bind_Done _ _ _ _ _ Et).
    destruct (IH _ t Ht) as (u & Eu & Hu); [|eauto]. cbn [ed_line]. destruct (exists_last E) as (l & c & El). rewrite El in *. rewrite removelast_last. rewrite length_app in Hn. cbn in Hn. lia.
Qed.

Lemma wakeup_at (ch : chan) (h : list lockid) (d : editor) (s : kernel) : ptable_lock ∉ h -> at_console h d s ->
  exists t, wakeup ch s = Done tt t /\ at_console h d t.
Proof.
  intros Hp (H1 & H2 & H3). unfold wakeup. rewrite (bind_Done _ _ _ _ _ (acquire_free ptable_lock s ltac:(rewrite H2; exact Hp))).
  erewrite bind_Done by reflexivity. eexists. split; [apply (release_head ptable_lock h); [cbn; rewrite H2; reflexivity|exact Hp]|].
  split; [exact H1|]. split; [reflexivity|exact H3].
Qed.

(** A complete line: the counter [w] catches up. *)
Lemma complete_line (b : inputbuf) (r l : list Z) : length (in_buf b) = 128%nat -> 0 <= in_r b < 2 ^ 32 ->
  in_e b = u32 (in_r b + Z.of_nat (length (r ++ l))) -> (length (r ++ l) <= 128)%nat ->
  (forall i x, (r ++ l) !! i = Some x -> byte_at (in_buf b) ((in_r b + Z.of_nat i) mod INPUT_BUF) = x) ->
  input_rep (b <| in_w := in_e b |>) (mk_editor (r ++ l) []).
Proof.
  intros Hl Hr He Hs Hb. split; unfold ed_size; cbn [ed_ready ed_line length]; cbn; try assumption.
  - rewrite Nat.add_0_r. exact He.
  - lia.
  - rewrite app_nil_r. exact Hb.
  - set_solver.
Qed.

Lemma insert_run (c : Z) (h : list lockid) (d : editor) (s : kernel) : is_byte c -> ptable_lock ∉ h -> at_console h d s -> (ed_size d < 128)%nat ->
  exists t, (let c := if c =? 13 then newline else c in
    upd_input (input_put c);; consputc c;; b ← gets (fun s => k_input s);
    when ((c =? newline) || (c =? ctrl_D) || (in_e b =? u32 (in_r b + INPUT_BUF)))
      (upd_input (fun b => b <| in_w := in_e b |>);; wakeup CInput)) s = Done tt t /\ at_console h (ed_insert c d) t.
Proof.
  intros Hy Hp (H1 & H2 & R) Hs. unfold ed_insert. cbv zeta. set (x := if c =? 13 then newline else c).
  assert (Hx : is_byte x) by (unfold x; destruct (c =? 13); [split; [discriminate|reflexivity]|exact Hy]).
  destruct (put_char _ _ R x Hx Hs) as (Er & Ew & Ee & El & Eb). rewrite (bind_Done (upd_input (input_put x)) _ s (s <| k_input ::= input_put x |>) tt eq_refl).
  match goal with |- context [(consputc x ≫= _) ?st] => set (s1 := st) end.
  destruct (consputc_run x s1 H1) as (t & Et & [T C]). rewrite (bind_Done _ _ _ _ _ Et).
  rewrite (bind_Done (gets (fun s => k_input s)) _ t t (k_input t) eq_refl).
  assert (Hi : k_input t = input_put x (k_input s)) by (rewrite T; reflexivity). assert (Hh : k_held t = h) by (rewrite T; exact H2). rewrite Hi.
  assert (Efull : (in_e (input_put x (k_input s)) =? u32 (in_r (input_put x (k_input s)) + INPUT_BUF)) = (length (ed_ready d) + length (ed_line d ++ [x]) =? 128)%nat).
  { rewrite Er, Ee. unfold INPUT_BUF. rewrite u32_eqb by lia. unfold ed_size. rewrite length_app. cbn [length]. destruct (Nat.eqb_spec (length (ed_ready d) + (length (ed_line d) + 1)) 128); [apply Z.eqb_eq; lia|apply Z.eqb_neq; lia]. }
  assert (Hsz : Z.of_nat (S (ed_size d)) = Z.of_nat (length (ed_ready d ++ ed_line d ++ [x]))) by (unfold ed_size; rewrite !length_app; cbn [length]; lia).
  rewrite Efull. destruct (_ || _ || _) eqn:Ec; unfold when.
  - rewrite (bind_Done (upd_input (fun b => b <| in_w := in_e b |>)) _ t (t <| k_input ::= fun b => b <| in_w := in_e b |> |>) tt eq_refl). apply wakeup_at; [exact Hp|].
    split; [exact C|]. split; [exact Hh|]. cbn. rewrite Hi. apply complete_line; [exact El|rewrite Er; apply R|rewrite Er, <- Hsz; exact Ee| |intros i y Hi0; rewrite Er; exact (Eb i y Hi0)].
    rewrite !length_app. unfold ed_size in Hs. cbn [length]. lia.
  - exists t. split; [reflexivity|]. split; [exact C|]. split; [exact Hh|]. rewrite Hi. split; unfold ed_size; cbn [ed_ready ed_line].
    + exact El.
    + rewrite Er. apply R.
    + rewrite Ew, Er. apply R.
    + rewrite Ee, Er, Hsz, !length_app. reflexivity.
    + rewrite length_app. unfold ed_size in Hs. cbn [length]. lia.
    + rewrite Er. exact Eb.
    + intros Hin. apply elem_of_app in Hin as [Hin|Hin]; [exact (ir_line _ _ R Hin)|]. assert (E : newline = x) by set_solver. rewrite <- E in Ec. discriminate Ec.
Qed.

Lemma console_char_run (c : Z) (h : list lockid) (d : editor) (s : kernel) : is_byte c -> c <> ctrl_P -> ptable_lock ∉ h -> at_console h d s ->
  exists t, console_char c s = Done tt t /\ at_console h (ed_char d c) t.
Proof.
  intros Hy Hne Hp H. pose proof (proj2 (proj2 H)) as R. unfold console_char, ed_char. rewrite (proj2 (Z.eqb_neq c ctrl_P)) by exact Hne. destruct (c =? ctrl_U).
  { apply kill_line_run; [exact H|]. pose proof (ir_size _ _ R). unfold ed_size in *. change (Z.to_nat INPUT_BUF) with 128%nat. lia. }
  destruct ((c =? ctrl_H) || (c =? DEL)); rewrite (bind_Done (gets (fun s => k_input s)) _ s s (k_input s) eq_refl).
  - rewrite (empty_line _ _ R). destruct (decide (ed_line d = [])) as [E|E].
    + rewrite bool_decide_eq_true_2 by exact E. exists s. split; [reflexivity|]. rewrite E. destruct d as [r l]. cbn in *. subst l. exact H.
    + rewrite bool_decide_eq_false_2 by exact E. apply rub_one; assumption.
  - rewrite (fill_level _ _ R). unfold INPUT_BUF at 1. destruct (c =? 0); [exists s; split; [reflexivity|exact H]|]. cbn [negb andb orb].
    destruct (Nat.leb_spec 128 (ed_size d)) as [Hs|Hs].
    + rewrite (proj2 (Z.ltb_ge _ _)) by lia. exists s. split; [reflexivity|exact H].
    + rewrite (proj2 (Z.ltb_lt _ _)) by lia. exact (insert_run c h d s Hy Hp H Hs).
Qed.

(** Whether the characters ask for the list of processes. *)
Definition asks (cs : list Z) : bool := bool_decide (ctrl_P ∈ cs).

Lemma console_chars_run (h : list lockid) (cs : list Z) : ptable_lock ∉ h -> Forall is_byte cs -> forall (b : bool) (d : editor) (s : kernel), at_console h d s ->
  exists t, console_chars cs b s = Done (b || asks cs) t /\ at_console h (ed_type cs d) t.
Proof.
  intros Hp. unfold asks. induction cs as [|c cs IH]; intros Hc b d s H; cbn [console_chars].
  { rewrite bool_decide_eq_false_2, orb_false_r by set_solver. exists s. split; [reflexivity|exact H]. }
  apply Forall_cons in Hc as [Hy Hc]. destruct (Z.eqb_spec c ctrl_P) as [->|Hne].
  - destruct (IH Hc true d s H) as (t & E & Ht). exists t. rewrite bool_decide_eq_true_2, orb_true_r by set_solver. split; [exact E|exact Ht].
  - destruct (console_char_run c h d s Hy Hne Hp H) as (t & E & Ht). rewrite (bind_Done _ _ _ _ _ E).
    destruct (IH Hc b _ t Ht) as (u & Eu & Hu). exists u. rewrite (bool_decide_ext (ctrl_P ∈ c :: cs) (ctrl_P ∈ cs)) by set_solver. split; [exact Eu|exact Hu].
Qed.

(** The table of processes keeps its length. *)
Lemma console_chars_table (n : nat) (cs : list Z) (b : bool) : quiet (fun s => length (k_procs s) = n) (console_chars cs b).
Proof.
  assert (Hm : forall f : kernel -> kernel, (forall s, length (k_procs (f s)) = length (k_procs s)) -> quiet (fun s => length (k_procs s) = n) (modify f)).
  { intros f Hf. apply keeps_modify. intros s Hs. rewrite Hf. exact Hs. }
  assert (Ht : forall s ch, length (k_procs (s <| k_procs ::= map (wake ch) |>)) = length (k_procs s)) by (intros; apply length_map).
  revert b. induction cs as [|c cs IH]; intros b; cbn [console_chars]; [apply keeps_ret|]. destruct (c =? ctrl_P); [apply IH|].
  apply keeps_bind; [|intros _; apply IH]. unfold console_char.
  assert (Hk : forall m, quiet (fun s => length (k_procs s) = n) (kill_line m)).
  { induction m as [|m IHm]; cbn [kill_line]; repeat first [apply Hm; reflexivity | apply IHm | keeps_step | keeps_unfold; cbv beta]. }
  repeat first [apply Hk | apply Hm; first [reflexivity|intros; apply length_map] | keeps_step | keeps_unfold; cbv beta].
Qed.

(** ** The list of processes *)

Lemma print_seq (m m' : K unit) (s : kernel) : (exists t, m s = Done tt t /\ console_only s t) ->
  (forall t, console_only s t -> exists u, m' t = Done tt u /\ console_only t u) -> exists u, (m;; m') s = Done tt u /\ console_only s u.
Proof.
  intros (t & E & C) H. destruct (H t C) as (u & E' & C'). exists u. rewrite (bind_Done _ _ _ _ _ E). split; [exact E'|exact (console_only_trans _ _ _ C C')].
Qed.

Lemma print_nothing (s : kernel) : console_ok s -> exists t, (mret tt : K unit) s = Done tt t /\ console_only s t.
Proof. intros H. exists s. split; [reflexivity|]. split; [reflexivity|exact H]. Qed.

(** Output can start: the console is in order and its lock is free. *)
Definition printable (s : kernel) : Prop := console_ok s /\ cons_lock ∉ k_held s.

Lemma printable_next (s t : kernel) : printable s -> console_only s t -> printable t.
Proof. intros [_ H] [T C]. split; [exact C|]. rewrite T. exact H. Qed.

Lemma print_pcs_run (pcs : list Z) : forall s, printable s -> exists t, print_pcs pcs s = Done tt t /\ console_only s t.
Proof.
  induction pcs as [|pc pcs IH]; intros s Hs; cbn [print_pcs]; [apply print_nothing, Hs|].
  destruct (pc =? 0); [apply print_nothing, Hs|]. apply print_seq; [apply cprintf_run; [reflexivity|apply Hs|apply Hs]|].
  intros t C. apply IH, (printable_next s t Hs C).
Qed.

Lemma procdump_line (i : nat) (s : kernel) : printable s -> (i < length (k_procs s))%nat ->
  exists t, (p ← proc_at i;
    if bool_decide (state p = UNUSED) then mret tt
    else
      cprintf "%d %s %s" [AInt (pid p); AStr (Some (bytes_of (state_name (state p)))); AStr (Some (CString.cstr (name p)))];;
      when (bool_decide (state p = SLEEPING)) (s ← get; print_pcs (getcallerpcs 10 (k_mem s) (cx_ebp (cx p))));;
      cprintf nl []) s = Done tt t /\ console_only s t.
Proof.
  intros Hs Hi. destruct (lookup_lt_is_Some_2 _ _ Hi) as [p Hp]. rewrite (bind_Done _ _ _ _ _ (proc_at_some i p s Hp)).
  case_bool_decide; [apply print_nothing, Hs|]. apply print_seq; [apply cprintf_run; [reflexivity|apply Hs|apply Hs]|].
  intros t C. pose proof (printable_next s t Hs C) as Ht. apply print_seq.
  - unfold when. case_bool_decide; [|apply print_nothing, Ht]. rewrite (bind_Done _ _ _ _ _ (get_run t)). apply print_pcs_run, Ht.
  - intros u C'. pose proof (printable_next t u Ht C') as Hu. apply cprintf_run; [reflexivity|apply Hu|apply Hu].
Qed.

(** [procdump] writes to the console and does nothing else. *)
Lemma procdump_run (s : kernel) : printable s -> length (k_procs s) = NPROC -> exists t, procdump s = Done tt t /\ console_only s t.
Proof.
  intros Hs Hl. unfold procdump. rewrite <- Hl. match goal with |- exists t, for_each _ _ ?b _ = _ /\ _ => set (line := b) end.
  assert (H : forall n i t, console_only s t -> (i + n = length (k_procs s))%nat -> exists u, for_each n i line t = Done tt u /\ console_only t u); [|].
  2: { apply (H (length (k_procs s)) 0%nat s); [split; [reflexivity|apply Hs]|lia]. }
  induction n as [|n IH]; intros i t C Hi; cbn [for_each]; [apply print_nothing, (console_only_ok _ _ C)|].
  apply print_seq; [apply procdump_line; [exact (printable_next s t Hs C)|]|].
  - destruct C as [-> _]. cbn. lia.
  - intros u C'. apply IH; [exact (console_only_trans _ _ _ C C')|lia].
Qed.

Section Reading.
Context {F : Fuel} {BD : BlockDev}.

Lemma console_wait_ready (ip : nat) (s : kernel) : (in_r (k_input s) =? in_w (k_input s)) = false -> console_wait ip s = Done true s.
Proof.
  intros E. unfold console_wait, fuel. cbn [while_loop]. erewrite bind_Done; [|rewrite (bind_Done (gets (fun s => k_input s)) _ s s (k_input s) eq_refl), E; reflexivity]. reflexivity.
Qed.

(** The process [p] that reads, and the inode of the console. *)
Definition reader (p i : nat) (locked : Z) (s : kernel) : Prop :=
  k_cur s = Some p /\ is_Some (k_procs s !! p) /\
  exists ip, k_inodes s !! i = Some ip /\ 1 <= iref ip /\ ivalid ip <> 0 /\ sl_locked (ilk ip) = locked.

Lemma consoleread_loop_run (h : list lockid) (p i : nat) (target : Z) : forall (n : nat) (r l acc data rest : list Z) (s : kernel),
  Z.of_nat n <= target -> at_console h (mk_editor r l) s -> reader p i 0 s -> ed_read n (Z.of_nat n =? target) r = Some (data, rest) ->
  exists t, consoleread_loop n i (Z.of_nat n) target acc s = Done (Some (acc ++ data)) t /\ at_console h (mk_editor rest l) t /\ reader p i 0 t.
Proof.
  induction n as [|n IH]; intros r l acc data rest s Ht H Hu E; cbn [ed_read consoleread_loop] in *.
  { injection E as <- <-. rewrite app_nil_r. exists s. split; [reflexivity|split; [exact H|exact Hu] ]. }
  destruct r as [|c r]; [discriminate|]. destruct (take_char _ _ (proj2 (proj2 H)) c r eq_refl) as (Eb & Ew & R).
  rewrite (bind_Done _ _ _ _ _ (console_wait_ready i s Ew)). cbn [negb]. rewrite (bind_Done (gets (fun s => k_input s)) _ s s (k_input s) eq_refl), Eb.
  set (f := fun b => b <| in_r := u32 (in_r b + 1) |>). destruct (upd_input_at f h _ _ s H R) as [E1 H1]. rewrite (bind_Done _ _ _ _ _ E1).
  destruct (c =? ctrl_D).
  - destruct (Z.eqb_spec (Z.of_nat (S n)) target) as [Et|Et]; injection E as <- <-; rewrite app_nil_r.
    + rewrite (proj2 (Z.ltb_ge _ _)) by lia. eexists. split; [reflexivity|split; [exact H1|exact Hu] ].
    + rewrite (proj2 (Z.ltb_lt _ _)) by lia. unfold when. erewrite bind_Done by reflexivity. eexists. split; [reflexivity|]. split; [|exact Hu].
      destruct H as (A1 & A2 & A3). split; [exact A1|]. split; [exact A2|].
      replace (k_input _) with (k_input s); [exact A3|]. symmetry. exact (untake_char _ _ A3 c r eq_refl).
  - destruct (c =? newline); [injection E as <- <-; eexists; split; [reflexivity|split; [exact H1|exact Hu] ]|].
    destruct (ed_read n false r) as [ [d2 r2]|] eqn:E2; [|discriminate]. injection E as <- <-.
    replace (Z.of_nat (S n) - 1) with (Z.of_nat n) by lia.
    destruct (IH r l (acc ++ [c]) d2 r2 _ ltac:(lia) H1 Hu) as (t & Et & Hr); [rewrite (proj2 (Z.eqb_neq _ _)) by lia; exact E2|].
    exists t. rewrite <- app_assoc in Et. split; [exact Et|exact Hr].
Qed.

Lemma holdingsleep_inode (i : nat) (h : list lockid) (ip : inode) (s : kernel) : sleep_lk (SInode i) ∉ h -> k_held s = h -> k_inodes s !! i = Some ip ->
  holdingsleep (SInode i) s = Done (sl_locked (ilk ip)) s.
Proof.
  intros Hl Hh Hi. unfold holdingsleep. erewrite bind_Done by (apply acquire_free; rewrite Hh; exact Hl). unfold sl_at.
  erewrite bind_Done by (erewrite bind_Done by (apply inode_at_some; exact Hi); reflexivity).
  erewrite bind_Done by (apply (release_head (sleep_lk (SInode i)) h); [cbn; rewrite Hh; reflexivity|exact Hl]). cbn. rewrite <- Hh. reflexivity.
Qed.

Lemma wakeup_reader (p i : nat) (h : list lockid) (d : editor) (s : kernel) (ch : chan) (b : Z) : ptable_lock ∉ h -> at_console h d s -> reader p i b s ->
  exists t, wakeup ch s = Done tt t /\ at_console h d t /\ reader p i b t.
Proof.
  intros Hp (H1 & H2 & H3) (C1 & [pr C2] & I). unfold wakeup. rewrite (bind_Done _ _ _ _ _ (acquire_free ptable_lock s ltac:(rewrite H2; exact Hp))).
  erewrite bind_Done by reflexivity. eexists. split; [apply (release_head ptable_lock h); [cbn; rewrite H2; reflexivity|exact Hp]|].
  split; [split; [exact H1|split; [reflexivity|exact H3] ]|]. split; [exact C1|]. split; [|exact I]. cbn. rewrite list_lookup_fmap, C2. eauto.
Qed.

Lemma iunlock_reader (p i : nat) (h : list lockid) (d : editor) (s : kernel) : sleep_lk (SInode i) ∉ h -> ptable_lock ∉ h -> at_console h d s -> reader p i 1 s ->
  exists t, iunlock i s = Done tt t /\ at_console h d t /\ reader p i 0 t.
Proof.
  intros Hl Hp (A1 & A2 & A3) (C1 & C2 & ip & I1 & I2 & I3 & I4). unfold iunlock. rewrite (bind_Done _ _ _ _ _ (holdingsleep_inode i h ip s Hl A2 I1)).
  rewrite (bind_Done _ _ _ _ _ (inode_at_some _ _ _ I1)), I4, (proj2 (Z.ltb_ge _ _)) by lia. cbn [Z.eqb orb]. unfold releasesleep.
  assert (Hne : ptable_lock ∉ sleep_lk (SInode i) :: h) by set_solver.
  erewrite bind_Done by (apply acquire_free; rewrite A2; exact Hl). unfold upd_sl. do 2 (erewrite bind_Done by reflexivity).
  match goal with |- context [(wakeup _ ≫= _) ?st] => set (s1 := st) end.
  destruct (wakeup_reader p i (sleep_lk (SInode i) :: h) d s1 (CSleep (SInode i)) 0 Hne) as (t & E & H1 & H2).
  - split; [exact A1|]. split; [cbn; rewrite A2; reflexivity|exact A3].
  - split; [exact C1|]. split; [exact C2|]. exists (ip <| ilk := mk_sleeplock 0 0 |>). split; [|split; [exact I2|split; [exact I3|reflexivity] ] ].
    unfold s1. cbn. rewrite !list_lookup_alter_eq, I1. reflexivity.
  - rewrite (bind_Done _ _ _ _ _ E). eexists. split; [apply (release_head _ h); [apply H1|exact Hl]|]. split; [|exact H2].
    split; [apply H1|]. split; [reflexivity|apply H1].
Qed.

Lemma ilock_reader (p i : nat) (h : list lockid) (d : editor) (s : kernel) : sleep_lk (SInode i) ∉ h -> at_console h d s -> reader p i 0 s ->
  exists t, ilock i s = Done tt t /\ at_console h d t /\ reader p i 1 t.
Proof.
  intros Hl (A1 & A2 & A3) (C1 & [pr C2] & ip & I1 & I2 & I3 & I4). unfold ilock. rewrite (bind_Done _ _ _ _ _ (inode_at_some _ _ _ I1)), (proj2 (Z.ltb_ge _ _)) by lia.
  set (ip' := ip <| ilk := mk_sleeplock 1 (pid pr) |>).
  assert (E : exists t, acquiresleep (SInode i) s = Done tt t /\ at_console h d t /\ k_inodes t !! i = Some ip' /\ k_cur t = k_cur s /\ k_procs t = k_procs s).
  { eexists. split.
    - unfold acquiresleep. erewrite bind_Done by (apply acquire_free; rewrite A2; exact Hl). erewrite bind_Done.
      2: { unfold fuel. cbn [while_loop]. erewrite bind_Done; [|unfold sl_at; erewrite bind_Done by (erewrite bind_Done by (apply inode_at_some; exact I1); reflexivity); rewrite I4; reflexivity]. reflexivity. }
      unfold upd_sl. erewrite bind_Done by reflexivity. erewrite (bind_Done curproc) by (unfold curproc, mbind, M_bind, get; cbn; rewrite C1; reflexivity).
      erewrite (bind_Done (proc_at p)) by (apply proc_at_some; exact C2). erewrite bind_Done by reflexivity.
      apply (release_head _ h); [cbn; rewrite A2; reflexivity|exact Hl].
    - split; [split; [exact A1|split; [reflexivity|exact A3] ]|]. split; [|split; reflexivity]. cbn. rewrite !list_lookup_alter_eq, I1. reflexivity. }
  destruct E as (t & E & Ha & It & Ec & Ep).
  rewrite (bind_Done _ _ _ _ _ E), (bind_Done _ _ _ _ _ (inode_at_some _ _ _ It)). change (ivalid ip') with (ivalid ip). rewrite (proj2 (Z.eqb_neq _ _)) by exact I3.
  exists t. split; [reflexivity|]. split; [exact Ha|]. split; [congruence|]. split; [rewrite Ep; eexists; exact C2|]. exists ip'. auto.
Qed.
Lemma at_console_held (h h' : list lockid) (d : editor) (s : kernel) : at_console h d s -> at_console h' d (s <| k_held := h' |>).
Proof. intros (A1 & _ & A3). split; [exact A1|]. split; [reflexivity|exact A3]. Qed.

Lemma consoleintr_run (cs : list Z) (d : editor) (s : kernel) : at_console [] d s -> Forall is_byte cs -> length (k_procs s) = NPROC ->
  exists s0 s1, at_console [] (ed_type cs d) s0 /\ consoleintr cs s = Done tt s1 /\ (if asks cs then procdump s0 = Done tt s1 else s1 = s0) /\ console_only s0 s1.
Proof.
  intros H Hc Hlen. unfold consoleintr. erewrite bind_Done by (apply acquire_free; rewrite (proj1 (proj2 H)); set_solver).
  match goal with |- context [(console_chars _ _ ≫= _) ?st] => set (a := st) end.
  destruct (console_chars_run [cons_lock] cs ltac:(set_solver) Hc false d a) as (t & E & Ht).
  { split; [apply H|]. split; [cbn; rewrite (proj1 (proj2 H)); reflexivity|apply H]. }
  assert (Hlt : length (k_procs t) = NPROC).
  { pose proof (console_chars_table (length (k_procs a)) cs false a eq_refl) as K. rewrite E in K. cbn in K. rewrite K. exact Hlen. }
  rewrite (bind_Done _ _ _ _ _ E). erewrite bind_Done by (apply (release_head cons_lock []); [apply Ht|set_solver]).
  pose proof (at_console_held _ [] _ _ Ht) as H0. set (t0 := t <| k_held := [] |>) in *. exists t0. unfold when. cbn [orb].
  destruct (asks cs).
  - destruct (procdump_run t0) as (s1 & E1 & C1); [split; [apply H0|set_solver]|exact Hlt|]. exists s1. split_and!; assumption.
  - exists t0. split_and!; [exact H0|reflexivity|reflexivity|]. split; [reflexivity|apply H0].
Qed.

(** C38. The console's input is a line editor.  For the characters an interrupt
    delivers, whatever they are, [consoleintr] returns and the ring of 128 bytes,
    whose counters wrap around, holds what the editor gives: erase and kill act
    on the line being typed only, a return completes it, a character that finds
    the buffer full is dropped, and the one that lists the processes leaves the
    line alone: the list is printed at the end, after the lock of the console has
    been released.  After that [consoleread], called with the inode of the
    console locked as [readi] does, returns without waiting whenever the editor
    has enough: at most [n] bytes, up to and with the first newline, and nothing
    at an end-of-file character, and leaves the rest. *)
Theorem console_line_discipline (cs : list Z) (d : editor) (s : kernel) : at_console [] d s -> Forall is_byte cs -> length (k_procs s) = NPROC ->
  exists s0 s1, at_console [] (ed_type cs d) s0 /\ consoleintr cs s = Done tt s1 /\ (if asks cs then procdump s0 = Done tt s1 else s1 = s0) /\ console_only s0 s1 /\
    forall (s2 : kernel) (p i : nat) (n : Z) (data rest : list Z), at_console [] (ed_type cs d) s2 -> reader p i 1 s2 -> 0 <= n < 2 ^ 31 ->
      ed_read (Z.to_nat n) true (ed_ready (ed_type cs d)) = Some (data, rest) ->
      exists s3, consoleread i n s2 = Done (Z.of_nat (length data), data) s3 /\ at_console [] (mk_editor rest (ed_line (ed_type cs d))) s3 /\ reader p i 1 s3.
Proof.
  intros H Hc Hl. destruct (consoleintr_run cs d s H Hc Hl) as (s0 & s1 & E1 & E2 & E3 & E4). exists s0, s1. split_and!; try assumption.
  intros s2 p i n data rest H2 Hu Hn Er. unfold consoleread.
  destruct (iunlock_reader p i [] _ s2 ltac:(set_solver) ltac:(set_solver) H2 Hu) as (u & Eu & Hu1 & Hu2). rewrite (bind_Done _ _ _ _ _ Eu).
  erewrite bind_Done by (apply acquire_free; rewrite (proj1 (proj2 Hu1)); set_solver). rewrite s32_small by lia.
  match goal with |- context [(consoleread_loop _ _ _ _ _ ≫= _) ?st] => set (u0 := st) end.
  destruct (consoleread_loop_run [cons_lock] p i n (Z.to_nat n) (ed_ready (ed_type cs d)) (ed_line (ed_type cs d)) [] data rest u0) as (v & Ev & Hv1 & Hv2).
  - lia.
  - destruct (ed_type cs d) as [r l]. split; [apply Hu1|]. split; [cbn; rewrite (proj1 (proj2 Hu1)); reflexivity|apply Hu1].
  - exact Hu2.
  - rewrite Z2Nat.id, Z.eqb_refl by lia. exact Er.
  - rewrite Z2Nat.id in Ev by lia. rewrite (bind_Done _ _ _ _ _ Ev). erewrite bind_Done by (apply (release_head cons_lock []); [apply Hv1|set_solver]).
    destruct (ilock_reader p i [] _ _ ltac:(set_solver) (at_console_held _ [] _ _ Hv1) Hv2) as (w & Ew & Hw1 & Hw2).
    rewrite (bind_Done _ _ _ _ _ Ew). exists w. split; [reflexivity|]. split; [exact Hw1|exact Hw2].
Qed.
End Reading.

(** [a], [x], rubout, the list of processes, [b], return: a read gives [ab] and a newline. *)
Definition ex_keys : list Z := [97; 120; 8; 16; 98; 13].

Lemma input_rep0 : input_rep inputbuf0 (mk_editor [] []).
Proof. split; cbn; try lia; try reflexivity; [intros i x Hi; discriminate Hi|set_solver]. Qed.

(** The keyboard has delivered them, and process 0 reads from inode 0. *)
Definition ex_typed : kernel := kernel0 <| k_cur := Some 0%nat |>
  <| k_inodes ::= alter (fun ip => ip <| iref := 1 |> <| ivalid := 1 |> <| ilk := mk_sleeplock 1 0 |>) 0%nat |>
  <| k_input := mk_inputbuf ([97; 98; 10] ++ replicate 125 0) 0 3 3 |>.

Lemma console_line_discipline_witness : (exists s0 s1, at_console [] (mk_editor [97; 98; 10] []) s0 /\ consoleintr ex_keys kernel0 = Done tt s1 /\ procdump s0 = Done tt s1) /\
  exists s3, @consoleread (Build_Fuel 0) (@bcache_dev (Build_Fuel 0)) 0 100 ex_typed = Done (3, [97; 98; 10]) s3.
Proof.
  destruct (@console_line_discipline (Build_Fuel 0) (@bcache_dev (Build_Fuel 0)) ex_keys (mk_editor [] []) kernel0) as (s0 & s1 & H & E & P & _ & R).
  - split; [vm_compute; split; [discriminate|reflexivity]|]. split; [reflexivity|exact input_rep0].
  - unfold ex_keys. repeat (apply Forall_cons; split; [split; [discriminate|reflexivity]|]). apply Forall_nil. exact Logic.I.
  - reflexivity.
  - split; [exists s0, s1; split; [exact H|split; [exact E|exact P] ]|].
    destruct (R ex_typed 0%nat 0%nat 100 [97; 98; 10] []) as (s3 & E3 & _); [| |lia|reflexivity|exists s3; exact E3].
    + split; [vm_compute; split; [discriminate|reflexivity]|]. split; [reflexivity|].
      split; [reflexivity|cbn; lia|reflexivity|reflexivity|cbn; lia| |vm_compute; intros Hn; inversion Hn].
      intros i x Hi. do 3 (destruct i as [|i]; [injection Hi as <-; reflexivity|]). discriminate Hi.
    + split; [reflexivity|]. split; [eexists; reflexivity|]. eexists. split; [reflexivity|]. split; [cbn; lia|]. split; [discriminate|reflexivity].
Defined.
