(* ===== verification/Proc.v ===== *)
(** * proc.c: processes

    The trap frame and the context of a process live on its kernel stack;
    here they are fields of the process ([tf], [cx]). *)

From S2P Require Import Prelude Params Bytes CString Kernel Print Kalloc Vm Umem Sleep Ide Bio Log Fs Pipe File.

Definition MAXPID : Z := 10000.

(** [if(nextpid > 10000) nextpid = 3] *)
Definition wrap_pid (n : Z) : Z := if n >? MAXPID then 3 else n.

(** [safestrcpy(p->name, name, sizeof(p->name))] *)
Definition set_name (nm : list Z) (p : proc) : proc := p <| name := safestrcpy (name p) nm 16 |>.

Section Proc.
Context {F : Fuel} {L : Linker} {BD : BlockDev} {DV : Devsw}.

(** The new trap frame holds what was on the stack page; every caller
    overwrites it. *)
Definition allocproc : K (option nat) :=
  acquire ptable_lock;;
  s ← get;
  match find_idx (fun p => bool_decide (state p = UNUSED)) (k_procs s) with
  | None => release ptable_lock;; mret None
  | Some i =>
      upd_proc i (fun p => p <| state := EMBRYO |>);;
      modify (fun s => s <| k_nextpid ::= wrap_pid |>);;
      s ← get;
      upd_proc i (fun p => p <| pid := k_nextpid s |>);;
      modify (fun s => s <| k_nextpid := s32 (k_nextpid s + 1) |>);;
      release ptable_lock;;
      ks ← kalloc;
      upd_proc i (fun p => p <| kstack := ks |>);;
      if ks =? 0 then
        upd_proc i (fun p => p <| state := UNUSED |>);;
        mret None
      else
        upd_proc i (fun p => p <| cx := context0 <| cx_eip := kforkret |> |>);;
        mret (Some i)
  end.

(** [initcode] is the binary the linker puts into the kernel. *)
Definition userinit (initcode : list Z) : K unit :=
  o ← allocproc;
  modify (fun s => s <| k_initproc := o |>);;
  p ← deref o;
  d ← setupkvm;
  upd_proc p (fun pr => pr <| pgdir := d |>);;
  if d =? 0 then panic "userinit: out of memory?"
  else
    inituvm d initcode (Z.of_nat (length initcode));;
    let ucode := Z.lor (Z.shiftl SEG_UCODE 3) DPL_USER in
    let udata := Z.lor (Z.shiftl SEG_UDATA 3) DPL_USER in
    upd_proc p (fun pr => pr <| sz := PGSIZE |>
      <| tf := trapframe0 <| tf_cs := ucode |> <| tf_ds := udata |> <| tf_es := udata |>
                 <| tf_ss := udata |> <| tf_eflags := FL_IF |> <| tf_esp := PGSIZE |>
                 <| tf_eip := 0 |> |>);;
    upd_proc p (set_name (bytes_of "initcode"));;
    c ← namei (bytes_of "/");
    upd_proc p (fun pr => pr <| cwd := c |>);;
    acquire ptable_lock;;
    upd_proc p (fun pr => pr <| state := RUNNABLE |>);;
    release ptable_lock.

Definition growproc (n : Z) : K Z :=
  p ← curproc;
  pr ← proc_at p;
  r ← (if n >? 0 then
         r ← allocuvm (pgdir pr) (sz pr) (u32 (sz pr + n));
         mret (if r =? 0 then None else Some r)
       else if n <? 0 then
         r ← deallocuvm (pgdir pr) (sz pr) (u32 (sz pr + n));
         mret (if r =? 0 then None else Some r)
       else mret (Some (sz pr)));
  match r with
  | None => mret (-1)
  | Some r =>
      upd_proc p (fun pr => pr <| sz := r |>);;
      switchuvm p;;
      mret 0
  end.

(** The loop that duplicates the open files of [c] into [np]. *)
Definition dup_files (c np : nat) : K unit :=
  for_each NOFILE 0 (fun fd =>
    pr ← proc_at c;
    match mjoin (ofile pr !! fd) with
    | Some f => f' ← filedup f; upd_proc np (fun q => q <| ofile ::= <[fd := Some f']> |>)
    | None => mret tt
    end).

Definition fork : K Z :=
  c ← curproc;
  o ← allocproc;
  match o with
  | None => mret (-1)
  | Some np =>
      pr ← proc_at c;
      d ← copyuvm (pgdir pr) (sz pr);
      upd_proc np (fun q => q <| pgdir := d |>);;
      if d =? 0 then
        q ← proc_at np;
        kfree (kstack q);;
        upd_proc np (fun q => q <| kstack := 0 |> <| state := UNUSED |>);;
        mret (-1)
      else
        pr ← proc_at c;
        upd_proc np (fun q => q <| sz := sz pr |> <| parent := Some c |>
                                <| tf := (tf pr) <| tf_eax := 0 |> |>);;
        dup_files c np;;
        pr ← proc_at c;
        cw ← deref (cwd pr);
        cw ← idup cw;
        upd_proc np (fun q => q <| cwd := Some cw |>);;
        upd_proc np (set_name (name pr));;
        q ← proc_at np;
        acquire ptable_lock;;
        upd_proc np (fun q => q <| state := RUNNABLE |>);;
        release ptable_lock;;
        mret (pid q)
  end.

(** Closes the open files of process [c]. *)
Definition close_files (c : nat) : K unit :=
  for_each NOFILE 0 (fun fd =>
    pr ← proc_at c;
    match mjoin (ofile pr !! fd) with
    | Some f => fileclose f;; upd_proc c (fun q => q <| ofile ::= <[fd := None]> |>)
    | None => mret tt
    end).

(** Passes the children of [c] to [initproc], waking it for a zombie. *)
Definition reparent (c : nat) : K unit :=
  for_each NPROC 0 (fun i =>
    p ← proc_at i;
    when (bool_decide (parent p = Some c))
      (s ← get;
       upd_proc i (fun p => p <| parent := k_initproc s |>);;
       p ← proc_at i;
       when (bool_decide (state p = ZOMBIE)) (wakeup1 (CProc <$> k_initproc s)))).

Definition exit : K unit :=
  c ← curproc;
  s ← get;
  if bool_decide (Some c = k_initproc s) then panic "init exiting"
  else
    close_files c;;
    begin_op;;
    pr ← proc_at c;
    cw ← deref (cwd pr);
    iput cw;;
    end_op;;
    upd_proc c (fun q => q <| cwd := None |>);;
    acquire ptable_lock;;
    pr ← proc_at c;
    wakeup1 (CProc <$> parent pr);;
    reparent c;;
    upd_proc c (fun q => q <| state := ZOMBIE |>);;
    sched;;
    panic "zombie exit".

(** The scan of [wait]: the first zombie child, or whether there are children
    at all. *)
Fixpoint wait_scan (ps : list proc) (c i : nat) (havekids : bool) : bool + nat :=
  match ps with
  | [] => inl havekids
  | p :: ps' =>
      if negb (bool_decide (parent p = Some c)) then wait_scan ps' c (S i) havekids
      else if bool_decide (state p = ZOMBIE) then inr i
      else wait_scan ps' c (S i) true
  end.

(** One turn of the loop of [wait], from the scan on. *)
Definition wait_turn (c : nat) (_ : unit) : K (unit + Z) :=
  s ← get;
  match wait_scan (k_procs s) c 0 false with
  | inr i =>
      p ← proc_at i;
      kfree (kstack p);;
      upd_proc i (fun p => p <| kstack := 0 |>);;
      freevm (pgdir p);;
      upd_proc i (fun p => p <| pid := 0 |> <| parent := None |>
                           <| name ::= <[0%nat := 0]> |> <| killed := 0 |> <| state := UNUSED |>);;
      release ptable_lock;;
      mret (inr (pid p))
  | inl havekids =>
      pr ← proc_at c;
      if negb havekids || negb (killed pr =? 0) then
        release ptable_lock;; mret (inr (-1))
      else sleep (CProc c) ptable_lock;; mret (inl tt)
  end.

Definition wait : K Z :=
  c ← curproc;
  acquire ptable_lock;;
  while_loop fuel (wait_turn c) tt.

(** The first run of a process starts here with [ptable.lock] held. *)
Definition forkret : K unit :=
  release ptable_lock;;
  s ← get;
  when (k_first s)
    (modify (fun s => s <| k_first := false |>);;
     iinit ROOTDEV;;
     initlog ROOTDEV).

Definition getppid : K Z :=
  p ← curproc; pr ← proc_at p; q ← deref (parent pr); qr ← proc_at q; mret (pid qr).

End Proc.
