(* ===== verification/Thread.v ===== *)
(** * proc.c: threads

    A thread is a process that shares the page table of the process that
    made it.  Slot [tid] of the maker, from 1 to 99, gives the place of its
    stack, two pages above the maker's original size [osz]. *)

From S2P Require Import Prelude Params Bytes CString Kernel Print Kalloc Vm Umem Sleep Sched.
From S2P Require Import Ide Bio Log Fs Pipe File Proc.

(** [p->thread[i] = v] and the like; the arrays have [NTHREAD] entries. *)
Definition set_thread (p : nat) (i v : Z) : K unit :=
  if (0 <=? i) && (i <? Z.of_nat NTHREAD)
  then upd_proc p (fun q => q <| thread ::= <[Z.to_nat i := v]> |>)
  else fault "thread[] out of range".

(** The first free slot from 1 on, or 100. *)
Definition free_slot (th : list Z) : Z :=
  match find_idx (fun t => t =? 0) (drop 1 th) with
  | Some k => Z.of_nat k + 1
  | None => Z.of_nat NTHREAD
  end.

Definition mapper (p np : nat) : K Z :=
  pr ← proc_at p;
  q ← proc_at np;
  let i := free_slot (thread pr) in
  when (i <? Z.of_nat NTHREAD)
    (upd_proc p (fun pr => pr <| thread ::= <[Z.to_nat i := 1]> |>
                              <| thread_p ::= <[Z.to_nat i := pid q]> |>
                              <| mtid := if mtid pr <=? i then i else mtid pr |>));;
  mret i.

(** The new [mtid] when slot [i] is given up:
    [for(i = p->tid; i > 0; i--) ...]. *)
Fixpoint last_slot (n : nat) (th : list Z) (i m : Z) : Z :=
  match n with
  | O => m
  | S n' =>
      if negb (i >? 0) then m
      else if byte_at th i =? 1 then i
      else last_slot n' th (i - 1) (if i =? 1 then 1 else m)
  end.

Section Thread.
Context {F : Fuel} {L : Linker} {BD : BlockDev} {DV : Devsw}.

(** The part of [thread_create_os] from the allocation of the stack on. *)
Definition create_stack (p np : nat) (t start_routine arg : Z) : K Z :=
  pr ← proc_at p;
  let base := PGROUNDUP (u32 (osz pr + 2 * (t - 1) * PGSIZE)) in
  r ← allocuvm (pgdir pr) base (u32 (base + 2 * PGSIZE));
  if r =? 0 then cprintf ("allocuvm: error!" ++ nl) [];; mret (-1)
  else
    clearpteu (pgdir pr) (u32 (r - 2 * PGSIZE));;
    let sp := Z.land (u32 (r - 4)) (Z.lnot 3) in
    d ← uload 4 arg;
    c ← copyout (pgdir pr) sp d;
    if c <? 0 then cprintf ("copyout: error!" ++ nl) [];; mret (-1)
    else
      let sp := u32 (sp - 3 * 4) in
      c ← copyout (pgdir pr) sp (le32 0xffffffff ++ le32 arg ++ le32 0);
      if c <? 0 then cprintf ("copuout[2]: error!" ++ nl) [];; mret (-1)
      else
        upd_proc np (fun q => q <| pgdir := pgdir pr |> <| sz := r |>);;
        upd_proc p (fun pr => pr <| sz := u32 (osz pr + 2 * mtid pr * PGSIZE) |>);;
        upd_proc np (fun q => q <| tf ::= fun t => t <| tf_eip := start_routine |> <| tf_esp := sp |> |>);;
        acquire ptable_lock;;
        upd_proc np (fun q => q <| state := RUNNABLE |>);;
        release ptable_lock;;
        mret 0.

Definition thread_create_os (thread_ start_routine arg : Z) : K Z :=
  p ← curproc;
  o ← allocproc;
  match o with
  | None => mret (-1)
  | Some np =>
      q ← proc_at np;
      ustore32 thread_ (pid q);;
      pr ← proc_at p;
      upd_proc np (fun q => q <| tf := tf pr |> <| sz := sz pr |> <| parent := Some p |>);;
      dup_files p np;;
      cw ← deref (cwd pr);
      cw ← idup cw;
      upd_proc np (fun q => q <| cwd := Some cw |>);;
      upd_proc np (set_name (name pr));;
      when (osz pr =? 0) (upd_proc p (fun pr => pr <| osz := PGROUNDUP (sz pr) |>));;
      t ← mapper p np;
      upd_proc np (fun q => q <| tid := t |>);;
      create_stack p np t start_routine arg
  end.

(** The scan of [thread_join_os]. *)
Fixpoint join_scan (ps : list proc) (c i : nat) (thread_ select : Z) (havekids : bool) : bool + nat :=
  match ps with
  | [] => inl havekids
  | p :: ps' =>
      if ((select =? 0) && (negb (bool_decide (parent p = Some c)) || negb (pid p =? thread_)))
         || ((select =? 1) && negb (pid p =? thread_))
      then join_scan ps' c (S i) thread_ select havekids
      else
        let havekids := if select =? 0 then true else havekids in
        if bool_decide (state p = ZOMBIE) then inr i
        else join_scan ps' c (S i) thread_ select havekids
  end.

(** Takes the zombie thread [i] down. *)
Definition join_reap (i : nat) (retval_ : Z) : K unit :=
  p ← proc_at i;
  kfree (kstack p);;
  upd_proc i (fun p => p <| kstack := 0 |>);;
  ustore32 retval_ (retval p);;
  par ← deref (parent p);
  pr ← proc_at par;
  when (sz pr =? sz p) (upd_proc par (fun pr => pr <| sz := u32 (sz p - 2 * PGSIZE) |>));;
  deallocuvm (pgdir p) (sz p) (u32 (sz p - 2 * PGSIZE));;
  if pgdir p =? 0 then panic "freevm: no pgdir"
  else
    upd_proc i (fun p => p <| pid := 0 |>);;
    set_thread par (tid p) 0;;
    pr ← proc_at par;
    when (mtid pr =? tid p)
      (upd_proc par (fun pr => pr <| mtid ::= last_slot (Z.to_nat (tid p)) (thread pr) (tid p) |>));;
    upd_proc par (fun pr => pr <| sz := u32 (osz pr + 2 * mtid p * PGSIZE) |>);;
    upd_proc i (fun p => p <| tid := 0 |> <| parent := None |> <| name ::= <[0%nat := 0]> |>
                         <| killed := 0 |> <| state := UNUSED |>).

(** One turn of the loop of [thread_join_os]; [select] is 1 for the threads of
    a process that exits. *)
Definition join_turn (c : nat) (thread_ retval_ select : Z) (_ : unit) : K (unit + Z) :=
  s ← get;
  match join_scan (k_procs s) c 0 thread_ select false with
  | inr i => join_reap i retval_;; release ptable_lock;; mret (inr 0)
  | inl havekids =>
      pr ← proc_at c;
      if (select =? 0) && (negb havekids || negb (killed pr =? 0)) then
        release ptable_lock;; mret (inr (-1))
      else
        when (select =? 0) (sleep (CProc c) ptable_lock);;
        mret (inl tt)
  end.

Definition thread_join_os (thread_ retval_ select original_thread : Z) : K Z :=
  c ← curproc;
  acquire ptable_lock;;
  while_loop fuel (join_turn c thread_ retval_ select) tt.

Definition thread_exit_os (retval_ thread_ : Z) : K unit :=
  c ← (if negb (thread_ =? 0) then
         acquire ptable_lock;;
         s ← get;
         release ptable_lock;;
         deref (find_idx (fun p => pid p =? thread_) (k_procs s))
       else curproc);
  pr ← proc_at c;
  stride_drop (pid pr);;
  s ← get;
  if bool_decide (Some c = k_initproc s) then panic "init exiting"
  else
    close_files c;;
    begin_op;;
    pr ← proc_at c;
    cw ← deref (cwd pr);
    iput cw;;
    end_op;;
    upd_proc c (fun q => q <| cwd := None |> <| retval := retval_ |>);;
    acquire ptable_lock;;
    pr ← proc_at c;
    wakeup1 (CProc <$> parent pr);;
    reparent c;;
    upd_proc c (fun q => q <| state := ZOMBIE |>);;
    if negb (thread_ =? 0) then release ptable_lock
    else sched;; panic "zombie exit".

End Thread.
