(* ===== verification/Exec.v ===== *)
(** * exec.c, and [loaduvm] of vm.c *)

From S2P Require Import Prelude Params Bytes CString Kernel Print Kalloc Vm Umem Sleep.
From S2P Require Import Ide Bio Log Fs Pipe File Proc.

Definition ELF_MAGIC : Z := 0x464C457F.
Definition ELF_PROG_LOAD : Z := 1.
Definition ELFHDR_SIZE : Z := 52.
Definition PROGHDR_SIZE : Z := 32.

Record elfhdr : Type := mk_elfhdr { e_magic : Z; e_entry : Z; e_phoff : Z; e_phnum : Z }.
Definition get_elfhdr (d : list Z) : elfhdr :=
  mk_elfhdr (get32 d 0) (get32 d 24) (get32 d 28) (get16 d 44).

Record proghdr : Type := mk_proghdr {
  ph_type : Z; ph_off : Z; ph_vaddr : Z; ph_filesz : Z; ph_memsz : Z
}.
Definition get_proghdr (d : list Z) : proghdr :=
  mk_proghdr (get32 d 0) (get32 d 4) (get32 d 8) (get32 d 16) (get32 d 20).

(** [for(last=s=path; *s; s++) if( *s == '/') last = s+1] *)
Fixpoint last_elem (path last : list Z) : list Z :=
  match path with
  | [] => last
  | c :: path' =>
      if c =? 0 then last else last_elem path' (if c =? slash then path' else last)
  end.

Section Exec.
Context {F : Fuel} {L : Linker} {BD : BlockDev} {DV : Devsw}.

Fixpoint loaduvm_loop (n : nat) (pgdir_ addr : Z) (ip : nat) (offset sz_ i : Z) : K Z :=
  match n with
  | O => halt NoFuel
  | S n' =>
      if negb (i <? sz_) then mret 0
      else
        pte ← walkpgdir pgdir_ (u32 (addr + i)) false;
        if pte =? 0 then panic "loaduvm: address should exist"
        else
          e ← ld32 pte;
          let pa := PTE_ADDR e in
          let n := Z.min (sz_ - i) PGSIZE in
          r ← readi ip (u32 (offset + i)) n;
          mem_put (P2V pa) (snd r);;
          if negb (fst r =? n) then mret (-1)
          else loaduvm_loop n' pgdir_ addr ip offset sz_ (u32 (i + PGSIZE))
  end.

Definition loaduvm (pgdir_ addr : Z) (ip : nat) (offset sz_ : Z) : K Z :=
  if negb (addr mod PGSIZE =? 0) then panic "loaduvm: addr must be page aligned"
  else loaduvm_loop (S (S (Z.to_nat (sz_ / PGSIZE)))) pgdir_ addr ip offset sz_ 0.

(** Loads the segments; [None] is [goto bad]. *)
Fixpoint load_segments (n : nat) (pgdir_ : Z) (ip : nat) (off sz_ : Z) : K (option Z) :=
  match n with
  | O => mret (Some sz_)
  | S n' =>
      r ← readi ip (u32 off) PROGHDR_SIZE;
      if negb (fst r =? PROGHDR_SIZE) then mret None
      else
        let ph := get_proghdr (snd r) in
        if negb (ph_type ph =? ELF_PROG_LOAD) then load_segments n' pgdir_ ip (off + PROGHDR_SIZE) sz_
        else if ph_memsz ph <? ph_filesz ph then mret None
        else if u32 (ph_vaddr ph + ph_memsz ph) <? ph_vaddr ph then mret None
        else
          sz_ ← allocuvm pgdir_ sz_ (u32 (ph_vaddr ph + ph_memsz ph));
          if sz_ =? 0 then mret None
          else if negb (ph_vaddr ph mod PGSIZE =? 0) then mret None
          else
            r ← loaduvm pgdir_ (ph_vaddr ph) ip (ph_off ph) (ph_filesz ph);
            if r <? 0 then mret None
            else load_segments n' pgdir_ ip (off + PROGHDR_SIZE) sz_
  end.

(** Pushes the argument strings; the addresses of the strings, the first one
    first. *)
Fixpoint push_args (pgdir_ sp : Z) (argc : Z) (argv : list (list Z)) (acc : list Z)
  : K (option (Z * list Z)) :=
  match argv with
  | [] => mret (Some (sp, acc))
  | a :: argv' =>
      if argc >=? Z.of_nat MAXARG then mret None
      else
        let sp := Z.land (u32 (sp - (strlen a + 1))) (Z.lnot 3) in
        r ← copyout pgdir_ sp (cstr a ++ [0]);
        if r <? 0 then mret None else push_args pgdir_ sp (argc + 1) argv' (acc ++ [sp])
  end.

Definition words (l : list Z) : list Z := concat (map le32 l).

(** The end of [exec] under the label [bad]; [ip] is still locked when it is
    given. *)
Definition exec_bad (pgdir_ : Z) (ip : option nat) : K Z :=
  when (negb (pgdir_ =? 0)) (freevm pgdir_);;
  match ip with Some i => iunlockput i;; end_op | None => mret tt end;;
  mret (-1).

(** From the user stack on: the image is loaded, the inode is released. *)
Definition exec_image (pgdir_ sz_ entry : Z) (path : list Z) (argv : list (list Z)) : K Z :=
  c ← curproc;
  let sz_ := PGROUNDUP sz_ in
  sz_ ← allocuvm pgdir_ sz_ (u32 (sz_ + 2 * PGSIZE));
  if sz_ =? 0 then exec_bad pgdir_ None
  else
    clearpteu pgdir_ (u32 (sz_ - 2 * PGSIZE));;
    o ← push_args pgdir_ sz_ 0 argv [];
    match o with
    | None => exec_bad pgdir_ None
    | Some (sp, args) =>
        let argc := Z.of_nat (length args) in
        let ustack := [0xffffffff; argc; u32 (sp - (argc + 1) * 4)] ++ args ++ [0] in
        let sp := u32 (sp - (3 + argc + 1) * 4) in
        r ← copyout pgdir_ sp (words ustack);
        if r <? 0 then exec_bad pgdir_ None
        else
          upd_proc c (set_name (last_elem path path));;
          pr ← proc_at c;
          upd_proc c (fun q => q <| pgdir := pgdir_ |> <| sz := sz_ |>
            <| tf ::= fun t => t <| tf_eip := entry |> <| tf_esp := sp |> |>);;
          switchuvm c;;
          when (negb (tid pr =? 0)) (cprintf ("eieieiei" ++ nl) [];; exit);;
          freevm (pgdir pr);;
          mret 0
    end.

Definition exec (path : list Z) (argv : list (list Z)) : K Z :=
  begin_op;;
  o ← namei path;
  match o with
  | None => end_op;; cprintf ("exec: fail" ++ nl) [];; mret (-1)
  | Some ip =>
      ilock ip;;
      r ← readi ip 0 ELFHDR_SIZE;
      let elf := get_elfhdr (snd r) in
      if negb (fst r =? ELFHDR_SIZE) || negb (e_magic elf =? ELF_MAGIC) then exec_bad 0 (Some ip)
      else
        d ← setupkvm;
        if d =? 0 then exec_bad 0 (Some ip)
        else
          o ← load_segments (Z.to_nat (e_phnum elf)) d ip (e_phoff elf) 0;
          match o with
          | None => exec_bad d (Some ip)
          | Some sz_ =>
              iunlockput ip;;
              end_op;;
              exec_image d sz_ (e_entry elf) path argv
          end
  end.

End Exec.
