(* ===== verification/Sysfile.v ===== *)
(** * sysfile.c: file system calls *)

From S2P Require Import Prelude Params Bytes CString Kernel Print Kalloc Vm Umem Args Sleep.
From S2P Require Import Ide Bio Log Fs Pipe File Proc Exec.

(** Runs the rest of a system call when an argument is there; it fails with
    -1 otherwise. *)
Definition with_arg {A : Type} (m : K (option A)) (k : A -> K Z) : K Z :=
  o ← m; match o with Some a => k a | None => mret (-1) end.

Section Sysfile.
Context {F : Fuel} {L : Linker} {BD : BlockDev} {DV : Devsw}.

Definition argfd (n : Z) : K (option (Z * nat)) :=
  o ← argint n;
  match o with
  | None => mret None
  | Some fd => f ← open_file fd; mret ((fun i => (fd, i)) <$> f)
  end.

Definition fdalloc (f : nat) : K Z :=
  c ← curproc;
  pr ← proc_at c;
  match find_idx (fun o => bool_decide (o = None)) (ofile pr) with
  | Some fd => upd_proc c (fun q => q <| ofile ::= <[fd := Some f]> |>);; mret (Z.of_nat fd)
  | None => mret (-1)
  end.

Definition sys_dup : K Z :=
  with_arg (argfd 0) (fun a =>
    fd ← fdalloc (snd a);
    if fd <? 0 then mret (-1) else filedup (snd a);; mret fd).

Definition sys_read : K Z :=
  with_arg (argfd 0) (fun a =>
    with_arg (argint 2) (fun n =>
      with_arg (argptr 1 n) (fun p => fileread (snd a) p n))).

Definition sys_write : K Z :=
  with_arg (argfd 0) (fun a =>
    with_arg (argint 2) (fun n =>
      with_arg (argptr 1 n) (fun p => filewrite (snd a) p n))).

Definition sys_close : K Z :=
  with_arg (argfd 0) (fun a =>
    c ← curproc;
    upd_proc c (fun q => q <| ofile ::= <[Z.to_nat (fst a) := None]> |>);;
    fileclose (snd a);;
    mret 0).

Definition STAT_SIZE : Z := 20.

Definition sys_fstat : K Z :=
  with_arg (argfd 0) (fun a =>
    with_arg (argptr 1 STAT_SIZE) (fun st => filestat (snd a) st)).

(** [ip->nlink += d; iupdate(ip)] *)
Definition add_nlink (ip : nat) (d : Z) : K unit :=
  upd_inode ip (fun nd => nd <| inlink := s16 (inlink nd + d) |>);; iupdate ip.

Definition sys_link : K Z :=
  with_arg (argstr 0) (fun old =>
    with_arg (argstr 1) (fun new =>
      begin_op;;
      o ← namei old;
      match o with
      | None => end_op;; mret (-1)
      | Some ip =>
          ilock ip;;
          nd ← inode_at ip;
          if itype nd =? T_DIR then iunlockput ip;; end_op;; mret (-1)
          else
            add_nlink ip 1;;
            iunlock ip;;
            let bad : K Z :=
              ilock ip;; add_nlink ip (-1);; iunlockput ip;; end_op;; mret (-1) in
            r ← nameiparent new;
            match fst r with
            | None => bad
            | Some dp =>
                ilock dp;;
                dn ← inode_at dp;
                nd ← inode_at ip;
                r' ← (if negb (idev dn =? idev nd) then mret (-1) else dirlink dp (snd r) (inum nd));
                iunlockput dp;;
                if r' <? 0 then bad else iput ip;; end_op;; mret 0
            end
      end)).

Fixpoint isdirempty_loop (fu : nat) (dp : nat) (off : Z) : K bool :=
  match fu with
  | O => halt NoFuel
  | S fu' =>
      d ← inode_at dp;
      if negb (off <? isize d) then mret true
      else
        r ← readi dp off DIRENT_SIZE;
        if negb (fst r =? DIRENT_SIZE) then panic "isdirempty: readi"
        else if negb (de_inum (get_dirent (snd r)) =? 0) then mret false
        else isdirempty_loop fu' dp (off + DIRENT_SIZE)
  end.

Definition isdirempty (dp : nat) : K bool :=
  d ← inode_at dp;
  isdirempty_loop (S (S (Z.to_nat (isize d / DIRENT_SIZE)))) dp (2 * DIRENT_SIZE).

Definition dot : list Z := [46].
Definition dotdot : list Z := [46; 46].

Definition sys_unlink : K Z :=
  with_arg (argstr 0) (fun path =>
    begin_op;;
    r ← nameiparent path;
    match fst r with
    | None => end_op;; mret (-1)
    | Some dp =>
        let bad : K Z := iunlockput dp;; end_op;; mret (-1) in
        let nm := snd r in
        ilock dp;;
        if (namecmp nm dot =? 0) || (namecmp nm dotdot =? 0) then bad
        else
          o ← dirlookup dp nm;
          match o with
          | None => bad
          | Some (ip, off) =>
              ilock ip;;
              nd ← inode_at ip;
              if inlink nd <? 1 then panic "unlink: nlink < 1"
              else
                full ← (if itype nd =? T_DIR then e ← isdirempty ip; mret (negb e) else mret false);
                if (full : bool) then iunlockput ip;; bad
                else
                  w ← writei dp (replicate (Z.to_nat DIRENT_SIZE) 0) off DIRENT_SIZE;
                  if negb (w =? DIRENT_SIZE) then panic "unlink: writei"
                  else
                    nd ← inode_at ip;
                    when (itype nd =? T_DIR) (add_nlink dp (-1));;
                    iunlockput dp;;
                    add_nlink ip (-1);;
                    iunlockput ip;;
                    end_op;;
                    mret 0
          end
    end).

Definition create (path : list Z) (type major minor : Z) : K (option nat) :=
  r ← nameiparent path;
  match fst r with
  | None => mret None
  | Some dp =>
      let nm := snd r in
      ilock dp;;
      o ← dirlookup dp nm;
      match o with
      | Some (ip, _) =>
          iunlockput dp;;
          ilock ip;;
          nd ← inode_at ip;
          if (type =? T_FILE) && (itype nd =? T_FILE) then mret (Some ip)
          else iunlockput ip;; mret None
      | None =>
          dn ← inode_at dp;
          ip ← ialloc (idev dn) type;
          ilock ip;;
          upd_inode ip (fun nd => nd <| imajor := s16 major |> <| iminor := s16 minor |> <| inlink := 1 |>);;
          iupdate ip;;
          nd ← inode_at ip;
          when (type =? T_DIR)
            (add_nlink dp 1;;
             r1 ← dirlink ip dot (inum nd);
             dn ← inode_at dp;
             r2 ← (if r1 <? 0 then mret (-1) else dirlink ip dotdot (inum dn));
             when (r2 <? 0) (panic "create dots"));;
          r3 ← dirlink dp nm (inum nd);
          if r3 <? 0 then panic "create: dirlink"
          else iunlockput dp;; mret (Some ip)
      end
  end.

(** The second half of [open]: a file structure and a descriptor for the
    locked inode. *)
Definition open_inode (ip : nat) (omode : Z) : K Z :=
  f ← filealloc;
  fd ← match f with Some i => fdalloc i | None => mret (-1) end;
  if fd <? 0 then
    match f with Some i => fileclose i | None => mret tt end;;
    iunlockput ip;;
    end_op;;
    mret (-1)
  else
    iunlock ip;;
    end_op;;
    i ← deref f;
    let wronly := negb (Z.land omode O_WRONLY =? 0) in
    let rdwr := negb (Z.land omode O_RDWR =? 0) in
    upd_file i (fun f => f <| ftype := FD_INODE |> <| fip := Some ip |> <| foff := 0 |>
                           <| readable := Z.b2z (negb wronly) |>
                           <| writable := Z.b2z (wronly || rdwr) |>);;
    mret fd.

Definition sys_open : K Z :=
  with_arg (argstr 0) (fun path =>
    with_arg (argint 1) (fun omode =>
      begin_op;;
      if negb (Z.land omode O_CREATE =? 0) then
        o ← create path T_FILE 0 0;
        match o with
        | None => end_op;; mret (-1)
        | Some ip => open_inode ip omode
        end
      else
        o ← namei path;
        match o with
        | None => end_op;; mret (-1)
        | Some ip =>
            ilock ip;;
            nd ← inode_at ip;
            if (itype nd =? T_DIR) && negb (omode =? O_RDONLY) then
              iunlockput ip;; end_op;; mret (-1)
            else open_inode ip omode
        end)).

Definition sys_mkdir : K Z :=
  begin_op;;
  a ← argstr 0;
  o ← match a with Some path => create path T_DIR 0 0 | None => mret None end;
  match o with
  | None => end_op;; mret (-1)
  | Some ip => iunlockput ip;; end_op;; mret 0
  end.

Definition sys_mknod : K Z :=
  begin_op;;
  a ← argstr 0;
  o ← match a with
      | None => mret None
      | Some path =>
          ma ← argint 1;
          match ma with
          | None => mret None
          | Some major =>
              mi ← argint 2;
              match mi with
              | None => mret None
              | Some minor => create path T_DEV major minor
              end
          end
      end;
  match o with
  | None => end_op;; mret (-1)
  | Some ip => iunlockput ip;; end_op;; mret 0
  end.

Definition sys_chdir : K Z :=
  c ← curproc;
  begin_op;;
  a ← argstr 0;
  o ← match a with Some path => namei path | None => mret None end;
  match o with
  | None => end_op;; mret (-1)
  | Some ip =>
      ilock ip;;
      nd ← inode_at ip;
      if negb (itype nd =? T_DIR) then iunlockput ip;; end_op;; mret (-1)
      else
        iunlock ip;;
        pr ← proc_at c;
        cw ← deref (cwd pr);
        iput cw;;
        end_op;;
        upd_proc c (fun q => q <| cwd := Some ip |>);;
        mret 0
  end.

(** [argv]: at most [MAXARG - 1] strings before the null pointer. *)
Fixpoint fetch_argv (n : nat) (uargv : Z) (acc : list (list Z)) : K (option (list (list Z))) :=
  match n with
  | O => mret None
  | S n' =>
      o ← fetchint (u32 uargv);
      match o with
      | None => mret None
      | Some uarg =>
          if uarg =? 0 then mret (Some acc)
          else
            a ← fetchstr (u32 uarg);
            match a with
            | None => mret None
            | Some str => fetch_argv n' (uargv + 4) (acc ++ [str])
            end
      end
  end.

Definition sys_exec : K Z :=
  with_arg (argstr 0) (fun path =>
    with_arg (argint 1) (fun uargv =>
      with_arg (fetch_argv MAXARG (u32 uargv) []) (fun argv => exec path argv))).

Definition sys_pipe : K Z :=
  with_arg (argptr 0 8) (fun fd =>
    o ← pipealloc;
    match o with
    | None => mret (-1)
    | Some (rf, wf) =>
        fd0 ← fdalloc rf;
        fd1 ← (if fd0 <? 0 then mret (-1) else fdalloc wf);
        if (fd0 <? 0) || (fd1 <? 0) then
          c ← curproc;
          when (fd0 >=? 0) (upd_proc c (fun q => q <| ofile ::= <[Z.to_nat fd0 := None]> |>));;
          fileclose rf;;
          fileclose wf;;
          mret (-1)
        else
          ustore32 fd fd0;;
          ustore32 (u32 (fd + 4)) fd1;;
          mret 0
    end).

(** pwrite.c and pread.c: only the first four bytes of the buffer are
    checked. *)
Definition pwrite_w : K Z :=
  with_arg (argint 0) (fun fd =>
    with_arg (argptr 1 4) (fun addr =>
      with_arg (argint 2) (fun n =>
        with_arg (argint 3) (fun off => pwrite_os fd addr n off)))).

Definition pread_w : K Z :=
  with_arg (argint 0) (fun fd =>
    with_arg (argptr 1 4) (fun addr =>
      with_arg (argint 2) (fun n =>
        with_arg (argint 3) (fun off => pread_os fd addr n off)))).

End Sysfile.
