(* ===== verification/Syscall.v ===== *)
(** * System calls, traps and start-up

    sysproc.c, set_cpu_share.c, prac_syscall.c and the thread wrappers; the
    dispatch of syscall.c; trap.c; main.c as far as it sets up the kernel's
    data. *)

From S2P Require Import Prelude Params Bytes CString Kernel Print Kalloc Vm Umem Args Sleep Sched.
From S2P Require Import Ide Bio Log Fs Pipe File Console Proc Thread Exec Sysfile.

Section Syscall.
Context {F : Fuel} {L : Linker} {BD : BlockDev} {DV : Devsw}.

(** ** sysproc.c and the calls of its own files *)

Definition sys_exit : K Z := exit;; mret 0.

Definition sys_kill : K Z := with_arg (argint 0) kill.

Definition sys_getpid : K Z := p ← curproc; pr ← proc_at p; mret (pid pr).

Definition sys_sbrk : K Z :=
  with_arg (argint 0) (fun n =>
    p ← curproc; pr ← proc_at p;
    r ← growproc n;
    if r <? 0 then mret (-1) else mret (s32 (sz pr))).

(** [ticks - ticks0 < n] compares as unsigned numbers. *)
Definition sys_sleep : K Z :=
  with_arg (argint 0) (fun n =>
    acquire tickslock;;
    t0 ← gets (fun s => k_ticks s);
    while_loop fuel (fun _ : unit =>
      t ← gets (fun s => k_ticks s);
      if u32 (t - t0) <? u32 n then
        p ← curproc; pr ← proc_at p;
        if negb (killed pr =? 0) then release tickslock;; mret (inr (-1))
        else sleep CTicks tickslock;; mret (inl tt)
      else release tickslock;; mret (inr 0)) tt).

Definition sys_uptime : K Z :=
  acquire tickslock;;
  t ← gets (fun s => k_ticks s);
  release tickslock;;
  mret (s32 t).

Definition printk_str (str : list Z) : K Z :=
  cprintf ("%s" ++ nl) [AStr (Some str)];; mret (s32 0xABCDABCD).

Definition sys_myfunction : K Z := with_arg (argstr 0) printk_str.

Definition sys_set_cpu_share : K Z := with_arg (argint 0) set_cpu_share.

Definition thread_create_w : K Z :=
  with_arg (argptr 0 4) (fun t =>
    with_arg (argptr 1 4) (fun f =>
      with_arg (argptr 2 4) (fun a => thread_create_os t f a))).

Definition thread_exit_w : K Z :=
  with_arg (argptr 0 4) (fun r => thread_exit_os r 0;; mret (-1)).

Definition thread_join_w : K Z :=
  with_arg (argptr 0 4) (fun t =>
    with_arg (argptr 1 4) (fun r => thread_join_os (s32 t) r 0 0)).

(** ** The dispatch table (syscall.h, syscall.c) *)

Definition syscalls (num : Z) : option (K Z) :=
  match num with
  | 1 => Some fork
  | 2 => Some sys_exit
  | 3 => Some wait
  | 4 => Some sys_pipe
  | 5 => Some sys_read
  | 6 => Some sys_kill
  | 7 => Some sys_exec
  | 8 => Some sys_fstat
  | 9 => Some sys_chdir
  | 10 => Some sys_dup
  | 11 => Some sys_getpid
  | 12 => Some sys_sbrk
  | 13 => Some sys_sleep
  | 14 => Some sys_uptime
  | 15 => Some sys_open
  | 16 => Some sys_write
  | 17 => Some sys_mknod
  | 18 => Some sys_unlink
  | 19 => Some sys_link
  | 20 => Some sys_mkdir
  | 21 => Some sys_close
  | 22 => Some sys_myfunction
  | 23 => Some getppid
  | 24 => Some yield
  | 25 => Some sys_set_cpu_share
  | 26 => Some getlev
  | 27 => Some thread_create_w
  | 28 => Some thread_exit_w
  | 29 => Some thread_join_w
  | 30 => Some pwrite_w
  | 31 => Some pread_w
  | _ => None
  end.

Definition set_eax (p : nat) (v : Z) : K unit :=
  upd_proc p (fun pr => pr <| tf ::= fun t => t <| tf_eax := u32 v |> |>).

Definition syscall : K unit :=
  p ← curproc;
  pr ← proc_at p;
  let num := s32 (tf_eax (tf pr)) in
  match syscalls num with
  | Some f => r ← f; set_eax p r
  | None =>
      cprintf ("%d %s: unknown sys call %d" ++ nl)
        [AInt (pid pr); AStr (Some (cstr (name pr))); AInt num];;
      set_eax p (-1)
  end.

(** ** trap.c *)

Definition T_SYSCALL : Z := 64.
Definition T_IRQ0 : Z := 32.
Definition IRQ_TIMER : Z := 0.
Definition IRQ_KBD : Z := 1.
Definition IRQ_COM1 : Z := 4.
Definition IRQ_IDE : Z := 14.
Definition IRQ_SPURIOUS : Z := 31.

(** The current process, if there is one, satisfies [f]. *)
Definition cur_is (f : proc -> bool) : K bool :=
  o ← myproc;
  match o with None => mret false | Some p => pr ← proc_at p; mret (f pr) end.

Definition exit_if_killed (t : trapframe) : K unit :=
  k ← cur_is (fun pr => negb (killed pr =? 0));
  when (k && (Z.land (tf_cs t) 3 =? DPL_USER)) exit.

(** The frame of the trap, the characters the keyboard or the serial line
    deliver, and the fault address register.  This is processor 0. *)
Definition trap (t : trapframe) (input : list Z) (cr2 : Z) : K unit :=
  if tf_trapno t =? T_SYSCALL then
    p ← curproc;
    pr ← proc_at p;
    when (negb (killed pr =? 0)) exit;;
    upd_proc p (fun pr => pr <| tf := t |>);;
    syscall;;
    pr ← proc_at p;
    when (negb (killed pr =? 0)) exit
  else
    (if tf_trapno t =? T_IRQ0 + IRQ_TIMER then
       acquire tickslock;;
       modify (fun s => s <| k_ticks := u32 (k_ticks s + 1) |>);;
       wakeup CTicks;;
       release tickslock
     else if tf_trapno t =? T_IRQ0 + IRQ_IDE then ideintr
     else if tf_trapno t =? T_IRQ0 + IRQ_IDE + 1 then mret tt
     else if tf_trapno t =? T_IRQ0 + IRQ_KBD then consoleintr input
     else if tf_trapno t =? T_IRQ0 + IRQ_COM1 then consoleintr input
     else if (tf_trapno t =? T_IRQ0 + 7) || (tf_trapno t =? T_IRQ0 + IRQ_SPURIOUS) then
       cprintf ("cpu%d: spurious interrupt at %x:%x" ++ nl) [AInt 0; AInt (tf_cs t); AInt (tf_eip t)]
     else
       o ← myproc;
       match o with
       | Some p =>
           if Z.land (tf_cs t) 3 =? 0 then
             cprintf ("unexpected trap %d from cpu %d eip %x (cr2=0x%x)" ++ nl)
               [AInt (tf_trapno t); AInt 0; AInt (tf_eip t); AInt cr2];;
             panic "trap"
           else
             pr ← proc_at p;
             cprintf ("pid %d %s: trap %d err %d on cpu %d eip 0x%x addr 0x%x--kill proc" ++ nl)
               [AInt (pid pr); AStr (Some (cstr (name pr))); AInt (tf_trapno t); AInt (tf_err t);
                AInt 0; AInt (tf_eip t); AInt cr2];;
             upd_proc p (fun pr => pr <| killed := 1 |>)
       | None =>
           cprintf ("unexpected trap %d from cpu %d eip %x (cr2=0x%x)" ++ nl)
             [AInt (tf_trapno t); AInt 0; AInt (tf_eip t); AInt cr2];;
           panic "trap"
       end);;
    exit_if_killed t;;
    r ← cur_is (fun pr => bool_decide (state pr = RUNNING));
    when (r && (tf_trapno t =? T_IRQ0 + IRQ_TIMER)) (yield;; mret tt);;
    exit_if_killed t.

(** ** main.c

    The hardware set-up (multiprocessor tables, interrupt controllers,
    segments, serial port, the other processors) leaves no trace in the data
    modelled here. *)
Definition main (initcode : list Z) (rounds n : nat) : K unit :=
  kinit1 kend (P2V 0x400000);;
  kvmalloc;;
  binit;;
  kinit2 (P2V 0x400000) (P2V PHYSTOP);;
  userinit initcode;;
  cprintf ("cpu%d: starting %d" ++ nl) [AInt 0; AInt 0];;
  scheduler rounds n.

End Syscall.
