(* ===== verification/Devices.v ===== *)
(** * Device registers: mp.c, lapic.c, ioapic.c, picirq.c and uart.c

    This code talks to devices through ports and registers.  Its state is what
    the devices will answer ([io_in], in the order of the reads), a log of every
    access, and the few variables it sets.  A read that the devices never
    answer ends the run, so a loop that polls a register runs as long as there
    are answers.  Physical memory, which mp.c searches, is an argument. *)

From S2P Require Import Prelude Params Bytes CString Kernel Print Sleep Console Ide Syscall.

Inductive ioev : Type :=
| Inb (port v : Z)
| Outb (port v : Z)
| RegR (addr v : Z)
| RegW (addr v : Z)
| Inl (port v : Z)
| Outl (port v : Z)
| Store16 (addr v : Z)
| Msg (text : string).

Record io : Type := mk_io {
  io_in : list Z;
  io_log : list ioev;
  uart : bool;
  lapic : Z;
  ioapicid : Z;
  apicids : list Z;
  havedisk1 : Z
}.
#[export] Instance io_eta : Eta io := fun r => mk_io (io_in r) (io_log r) (uart r) (lapic r) (ioapicid r) (apicids r) (havedisk1 r).

Abbreviation D := (M io).

Definition emit (e : ioev) : D unit := modify (fun s => s <| io_log ::= fun l => l ++ [e] |>).

(** The next answer. *)
Definition answer : D Z :=
  s ← get;
  match io_in s with
  | [] => halt NoFuel
  | v :: r => modify (fun s => s <| io_in := r |>);; mret v
  end.

Definition inb (port : Z) : D Z := v ← answer; emit (Inb port (u8 v));; mret (u8 v).
Definition outb (port v : Z) : D unit := emit (Outb port (u8 v)).
Definition reg_read (addr : Z) : D Z := v ← answer; emit (RegR addr (u32 v));; mret (u32 v).
Definition reg_write (addr v : Z) : D unit := emit (RegW addr (u32 v)).

(** Polling: one more turn than there are answers. *)
Definition poll {A B : Type} (body : A -> D (A + B)) (a : A) : D B :=
  n ← gets (fun s => length (io_in s));
  while_loop (S n) body a.

(** ** picirq.c *)

Definition IO_PIC1 : Z := 0x20.
Definition IO_PIC2 : Z := 0xA0.

Definition picinit : D unit :=
  outb (IO_PIC1 + 1) 0xFF;;
  outb (IO_PIC2 + 1) 0xFF.

(** ** ioapic.c *)

Definition IOAPIC : Z := 0xFEC00000.
Definition REG_ID : Z := 0x00.
Definition REG_VER : Z := 0x01.
Definition REG_TABLE : Z := 0x10.
Definition INT_DISABLED : Z := 0x00010000.

Definition ioapicread (reg : Z) : D Z :=
  reg_write IOAPIC reg;;
  reg_read (IOAPIC + 16).

Definition ioapicwrite (reg data : Z) : D unit :=
  reg_write IOAPIC reg;;
  reg_write (IOAPIC + 16) data.

Definition ioapicinit : D unit :=
  v ← ioapicread REG_VER;
  let maxintr := Z.land (Z.shiftr v 16) 0xFF in
  w ← ioapicread REG_ID;
  let id := Z.shiftr w 24 in
  s ← get;
  when (negb (id =? ioapicid s)) (emit (Msg "ioapicinit: id isn't equal to ioapicid; not a MP"));;
  for_each (Z.to_nat (maxintr + 1)) 0 (fun i =>
    ioapicwrite (REG_TABLE + 2 * Z.of_nat i) (Z.lor INT_DISABLED (T_IRQ0 + Z.of_nat i));;
    ioapicwrite (REG_TABLE + 2 * Z.of_nat i + 1) 0).

Definition ioapicenable (irq cpunum : Z) : D unit :=
  ioapicwrite (REG_TABLE + 2 * irq) (T_IRQ0 + irq);;
  ioapicwrite (REG_TABLE + 2 * irq + 1) (Z.shiftl cpunum 24).

(** ** lapic.c *)

(** Registers, as indices of words. *)
Definition ID : Z := 0x0020 / 4.
Definition VER : Z := 0x0030 / 4.
Definition TPR : Z := 0x0080 / 4.
Definition EOI : Z := 0x00B0 / 4.
Definition SVR : Z := 0x00F0 / 4.
Definition ENABLE : Z := 0x00000100.
Definition ESR : Z := 0x0280 / 4.
Definition ICRLO : Z := 0x0300 / 4.
Definition INIT : Z := 0x00000500.
Definition STARTUP : Z := 0x00000600.
Definition DELIVS : Z := 0x00001000.
Definition ASSERT : Z := 0x00004000.
Definition LEVEL : Z := 0x00008000.
Definition BCAST : Z := 0x00080000.
Definition ICRHI : Z := 0x0310 / 4.
Definition TIMER : Z := 0x0320 / 4.
Definition X1 : Z := 0x0000000B.
Definition PERIODIC : Z := 0x00020000.
Definition PCINT : Z := 0x0340 / 4.
Definition LINT0 : Z := 0x0350 / 4.
Definition LINT1 : Z := 0x0360 / 4.
Definition ERROR : Z := 0x0370 / 4.
Definition MASKED : Z := 0x00010000.
Definition TICR : Z := 0x0380 / 4.
Definition TDCR : Z := 0x03E0 / 4.
Definition IRQ_ERROR : Z := 19.

Definition lapic_read (index : Z) : D Z := s ← get; reg_read (lapic s + 4 * index).

Definition lapicw (index value : Z) : D unit :=
  s ← get;
  reg_write (lapic s + 4 * index) value;;
  _ ← lapic_read ID;
  mret tt.

Definition lapicinit : D unit :=
  s ← get;
  if lapic s =? 0 then mret tt
  else
    lapicw SVR (Z.lor ENABLE (T_IRQ0 + IRQ_SPURIOUS));;
    lapicw TDCR X1;;
    lapicw TIMER (Z.lor PERIODIC (T_IRQ0 + IRQ_TIMER));;
    lapicw TICR 10000000;;
    lapicw LINT0 MASKED;;
    lapicw LINT1 MASKED;;
    v ← lapic_read VER;
    when (Z.land (Z.shiftr v 16) 0xFF >=? 4) (lapicw PCINT MASKED);;
    lapicw ERROR (T_IRQ0 + IRQ_ERROR);;
    lapicw ESR 0;;
    lapicw ESR 0;;
    lapicw EOI 0;;
    lapicw ICRHI 0;;
    lapicw ICRLO (Z.lor (Z.lor BCAST INIT) LEVEL);;
    poll (fun _ : unit =>
      v ← lapic_read ICRLO;
      mret (if Z.land v DELIVS =? 0 then inr tt else inl tt)) tt;;
    lapicw TPR 0.

Definition lapicid : D Z :=
  s ← get;
  if lapic s =? 0 then mret 0 else v ← lapic_read ID; mret (Z.shiftr v 24).

Definition lapiceoi : D unit :=
  s ← get;
  when (negb (lapic s =? 0)) (lapicw EOI 0).

Definition microdelay (us : Z) : D unit := mret tt.

Definition CMOS_PORT : Z := 0x70.
Definition CMOS_RETURN : Z := 0x71.

Definition lapicstartap (apicid addr : Z) : D unit :=
  outb CMOS_PORT 0xF;;
  outb (CMOS_PORT + 1) 0x0A;;
  let wrv := P2V (Z.lor (Z.shiftl 0x40 4) 0x67) in
  emit (Store16 wrv 0);;
  emit (Store16 (wrv + 2) (u16 (Z.shiftr addr 4)));;
  lapicw ICRHI (Z.shiftl apicid 24);;
  lapicw ICRLO (Z.lor (Z.lor INIT LEVEL) ASSERT);;
  microdelay 200;;
  lapicw ICRLO (Z.lor INIT LEVEL);;
  microdelay 100;;
  for_each 2 0 (fun _ =>
    lapicw ICRHI (Z.shiftl apicid 24);;
    lapicw ICRLO (Z.lor STARTUP (Z.shiftr addr 12));;
    microdelay 200).

(** The clock. *)
Definition CMOS_STATA : Z := 0x0a.
Definition CMOS_STATB : Z := 0x0b.
Definition CMOS_UIP : Z := Z.shiftl 1 7.

Record rtcdate : Type := mk_rtcdate { second : Z; minute : Z; hour : Z; day : Z; month : Z; year : Z }.
#[export] Instance rtcdate_eq_dec : EqDecision rtcdate.
Proof. solve_decision. Defined.

Definition cmos_read (reg : Z) : D Z :=
  outb CMOS_PORT reg;;
  microdelay 200;;
  inb CMOS_RETURN.

Definition fill_rtcdate : D rtcdate :=
  second ← cmos_read 0x00;
  minute ← cmos_read 0x02;
  hour ← cmos_read 0x04;
  day ← cmos_read 0x07;
  month ← cmos_read 0x08;
  year ← cmos_read 0x09;
  mret (mk_rtcdate second minute hour day month year).

(** [CONV] *)
Definition conv (x : Z) : Z := Z.shiftr x 4 * 10 + Z.land x 0xf.

Definition conv_date (t : rtcdate) : rtcdate :=
  mk_rtcdate (conv (second t)) (conv (minute t)) (conv (hour t)) (conv (day t)) (conv (month t)) (conv (year t)).

Definition cmostime : D rtcdate :=
  sb ← cmos_read CMOS_STATB;
  let bcd := Z.land sb (Z.shiftl 1 2) =? 0 in
  t1 ← poll (fun _ : unit =>
    t1 ← fill_rtcdate;
    a ← cmos_read CMOS_STATA;
    if negb (Z.land a CMOS_UIP =? 0) then mret (inl tt)
    else
      t2 ← fill_rtcdate;
      mret (if bool_decide (t1 = t2) then inr t1 else inl tt)) tt;
  let t1 := if bcd then conv_date t1 else t1 in
  mret (mk_rtcdate (second t1) (minute t1) (hour t1) (day t1) (month t1) (year t1 + 2000)).

(** ** uart.c *)

Definition COM1 : Z := 0x3f8.

(** Waits for at most 128 reads of the status. *)
Definition uart_wait : D unit :=
  for_loop 128 0 (fun _ (_ : unit) =>
    v ← inb (COM1 + 5);
    if negb (Z.land v 0x20 =? 0) then mret (inr tt) else microdelay 10;; mret (inl tt)) tt;;
  mret tt.

Definition uart_putc (c : Z) : D unit :=
  s ← get;
  if negb (uart s) then mret tt
  else
    uart_wait;;
    outb (COM1 + 0) c.

Fixpoint uart_puts (cs : list Z) : D unit :=
  match cs with [] => mret tt | c :: cs' => uart_putc c;; uart_puts cs' end.

Definition uartinit : D unit :=
  outb (COM1 + 2) 0;;
  outb (COM1 + 3) 0x80;;
  outb (COM1 + 0) (115200 / 9600);;
  outb (COM1 + 1) 0;;
  outb (COM1 + 3) 0x03;;
  outb (COM1 + 4) 0;;
  outb (COM1 + 1) 0x01;;
  v ← inb (COM1 + 5);
  if v =? 0xFF then mret tt
  else
    modify (fun s => s <| uart := true |>);;
    _ ← inb (COM1 + 2);
    _ ← inb (COM1 + 0);
    ioapicenable IRQ_COM1 0;;
    uart_puts (bytes_of ("xv6..." ++ nl)).

Definition uartgetc : D Z :=
  s ← get;
  if negb (uart s) then mret (-1)
  else
    v ← inb (COM1 + 5);
    if Z.land v 0x01 =? 0 then mret (-1) else inb (COM1 + 0).

(** The characters [consoleintr] gets from [uartgetc]. *)
Definition uartintr : D (list Z) :=
  poll (fun cs =>
    c ← uartgetc;
    mret (if c <? 0 then inr cs else inl (cs ++ [c]))) [].

(** ** mp.c *)

Definition NCPU : Z := 8.

Definition MPPROC : Z := 0x00.
Definition MPBUS : Z := 0x01.
Definition MPIOAPIC : Z := 0x02.
Definition MPIOINTR : Z := 0x03.
Definition MPLINTR : Z := 0x04.

(** The fields of a structure with their sizes, and the place of a field. *)
Definition layout : Type := list (string * Z).

Definition sizeof (l : layout) : Z := foldr (fun f n => f.2 + n) 0 l.

Fixpoint offsetof (l : layout) (f : string) : Z :=
  match l with [] => 0 | (g, n) :: l' => if String.eqb f g then 0 else n + offsetof l' f end.

Definition mp : layout :=
  [("signature", 4); ("physaddr", 4); ("length", 1); ("specrev", 1); ("checksum", 1); ("type", 1); ("imcrp", 1); ("reserved", 3)].

Definition mpconf : layout :=
  [("signature", 4); ("length", 2); ("version", 1); ("checksum", 1); ("product", 20); ("oemtable", 4); ("oemlength", 2); ("entry", 2);
   ("lapicaddr", 4); ("xlength", 2); ("xchecksum", 1); ("reserved", 1)].

Definition mpproc : layout :=
  [("type", 1); ("apicid", 1); ("version", 1); ("flags", 1); ("signature", 4); ("feature", 4); ("reserved", 8)].

Definition mpioapic : layout := [("type", 1); ("apicno", 1); ("version", 1); ("flags", 1); ("addr", 4)].

(** The sum of [len] bytes, as a byte. *)
Fixpoint sum_from (n : nat) (addr : Z) (m : gmap Z Z) (acc : Z) : Z :=
  match n with O => acc | S n' => sum_from n' (addr + 1) m (s32 (acc + rd m addr)) end.

Definition sum (addr len : Z) (m : gmap Z Z) : Z := u8 (sum_from (Z.to_nat len) addr m 0).

(** The four bytes at [a] are the text. *)
Definition starts (text : string) (a : Z) (m : gmap Z Z) : bool :=
  bool_decide (map (fun i => rd m (a + Z.of_nat i)) (seq 0 4) = bytes_of text).

Fixpoint mpsearch1_loop (n : nat) (p e : Z) (m : gmap Z Z) : Z :=
  match n with
  | O => 0
  | S n' =>
      if negb (p <? e) then 0
      else if starts "_MP_" p m && (sum p (sizeof mp) m =? 0) then p
      else mpsearch1_loop n' (p + sizeof mp) e m
  end.

Definition mpsearch1 (a len : Z) (m : gmap Z Z) : Z :=
  let addr := P2V a in
  mpsearch1_loop (S (Z.to_nat (len / sizeof mp))) addr (addr + len) m.

Definition mpsearch (m : gmap Z Z) : Z :=
  let bda := P2V 0x400 in
  let p := Z.shiftl (Z.lor (Z.shiftl (rd m (bda + 0x0F)) 8) (rd m (bda + 0x0E))) 4 in
  let r :=
    if negb (p =? 0) then mpsearch1 p 1024 m
    else
      let p := Z.lor (Z.shiftl (rd m (bda + 0x14)) 8) (rd m (bda + 0x13)) * 1024 in
      mpsearch1 (u32 (p - 1024)) 1024 m in
  if negb (r =? 0) then r else mpsearch1 0xF0000 0x10000 m.

(** The addresses of the two structures. *)
Definition mpconfig (m : gmap Z Z) : option (Z * Z) :=
  let p := mpsearch m in
  if (p =? 0) || (rd32 m (p + offsetof mp "physaddr") =? 0) then None
  else
    let conf := P2V (rd32 m (p + offsetof mp "physaddr")) in
    if negb (starts "PCMP" conf m) then None
    else if negb (rd m (conf + offsetof mpconf "version") =? 1) && negb (rd m (conf + offsetof mpconf "version") =? 4) then None
    else if negb (sum conf (rd16 m (conf + offsetof mpconf "length")) m =? 0) then None
    else Some (p, conf).

(** One turn of the loop over the table; an entry of another type sets [ismp]
    to 0 and leaves [p] where it is. *)
Definition mpinit_turn (m : gmap Z Z) (e : Z) (st : Z * Z) : D (Z * Z + Z) :=
  let '(p, ismp) := st in
  if negb (p <? e) then mret (inr ismp)
  else
    let t := rd m p in
    if t =? MPPROC then
      s ← get;
      when (Z.of_nat (length (apicids s)) <? NCPU) (modify (fun s => s <| apicids ::= fun l => l ++ [rd m (p + offsetof mpproc "apicid")] |>));;
      mret (inl (p + sizeof mpproc, ismp))
    else if t =? MPIOAPIC then
      modify (fun s => s <| ioapicid := rd m (p + offsetof mpioapic "apicno") |>);;
      mret (inl (p + sizeof mpioapic, ismp))
    else if (t =? MPBUS) || (t =? MPIOINTR) || (t =? MPLINTR) then mret (inl (p + 8, ismp))
    else mret (inl (p, 0)).

Definition mpinit (m : gmap Z Z) : D unit :=
  match mpconfig m with
  | None => panic "Expect to run on an SMP"
  | Some (p, conf) =>
      modify (fun s => s <| lapic := rd32 m (conf + offsetof mpconf "lapicaddr") |>);;
      let len := rd16 m (conf + offsetof mpconf "length") in
      ismp ← while_loop (S (Z.to_nat len)) (mpinit_turn m (conf + len)) (conf + sizeof mpconf, 1);
      if ismp =? 0 then panic "Didn't find a suitable machine"
      else
        when (negb (rd m (p + offsetof mp "imcrp") =? 0)) (
          outb 0x22 0x70;;
          v ← inb 0x23;
          outb 0x23 (Z.lor v 1))
  end.

(** ** What the searches and conversions give *)

(** The structure is there: signature and checksum. *)
Definition mp_at (p : Z) (m : gmap Z Z) : bool := starts "_MP_" p m && (sum p (sizeof mp) m =? 0).

(** [mpsearch1] finds the first structure of the area, or returns 0. *)
Lemma mpsearch1_first (n : nat) (m : gmap Z Z) : forall p r, 0 < p -> r = mpsearch1_loop (S n) p (p + sizeof mp * Z.of_nat n) m ->
  r = 0 /\ (forall k, 0 <= k < Z.of_nat n -> mp_at (p + sizeof mp * k) m = false) \/
  exists k, 0 <= k < Z.of_nat n /\ r = p + sizeof mp * k /\ mp_at r m = true /\ forall i, 0 <= i < k -> mp_at (p + sizeof mp * i) m = false.
Proof.
  induction n as [|n IH]; intros p r Hp Er.
  { left. split; [|lia]. rewrite Er. cbn [mpsearch1_loop]. rewrite (proj2 (Z.ltb_ge _ _)) by lia. reflexivity. }
  remember (S n) as n1 eqn:En. cbn [mpsearch1_loop] in Er. rewrite (proj2 (Z.ltb_lt _ _)) in Er by (change (sizeof mp) with 16; lia). cbn [negb] in Er. fold (mp_at p m) in Er.
  change (sizeof mp) with 16 in *. destruct (mp_at p m) eqn:E.
  { right. exists 0. subst r. split_and!; [lia|lia|lia|exact E|lia]. }
  replace (p + 16 * Z.of_nat n1) with (p + 16 + 16 * Z.of_nat n) in Er by lia. subst n1. destruct (IH (p + 16) r ltac:(lia) Er) as [ [Hr Hn]|(k & Hk & Hr & Hm & Hn)].
  - left. split; [exact Hr|]. intros k Hk. destruct (decide (k = 0)) as [->|Hk0]; [replace (p + 16 * 0) with p by lia; exact E|].
    replace (p + 16 * k) with (p + 16 + 16 * (k - 1)) by lia. apply Hn. lia.
  - right. exists (k + 1). split_and!; [lia|lia|rewrite Hr; lia|exact Hm|]. intros i Hi. destruct (decide (i = 0)) as [->|Hi0]; [replace (p + 16 * 0) with p by lia; exact E|].
    replace (p + 16 * i) with (p + 16 + 16 * (i - 1)) by lia. apply Hn. lia.
Qed.

(** An entry of an unknown type stops [mpinit] for ever: however many turns, the
    loop does not end. *)
Lemma mpinit_unknown_hangs (m : gmap Z Z) (p e ismp : Z) (n : nat) (s : io) :
  p < e -> ~ (MPPROC <= rd m p <= MPLINTR) -> while_loop n (mpinit_turn m e) (p, ismp) s = Halt NoFuel.
Proof.
  intros Hp Ht. revert ismp. induction n as [|n IH]; intros ismp; [reflexivity|]. cbn [while_loop].
  assert (E : mpinit_turn m e (p, ismp) s = Done (inl (p, 0)) s).
  { unfold mpinit_turn, MPPROC, MPIOAPIC, MPBUS, MPIOINTR, MPLINTR in *. rewrite (proj2 (Z.ltb_lt _ _)) by exact Hp.
    repeat (rewrite (proj2 (Z.eqb_neq _ _)) by lia). reflexivity. }
  rewrite (bind_Done _ _ _ _ _ E). apply IH.
Qed.

(** Two decimal digits in a byte. *)
Lemma conv_bcd (a b : Z) : 0 <= a < 10 -> 0 <= b < 10 -> conv (16 * a + b) = 10 * a + b.
Proof.
  intros Ha Hb. unfold conv. rewrite Z.shiftr_div_pow2 by lia. change 0xf with (Z.ones 4). rewrite Z.land_ones by lia.
  change (2 ^ 4) with 16. Z.div_mod_to_equations. lia.
Qed.

Lemma inb_run (port v : Z) (r : list Z) (s : io) : io_in s = v :: r ->
  inb port s = Done (u8 v) (s <| io_in := r |> <| io_log ::= fun l => l ++ [Inb port (u8 v)] |>).
Proof. intros H. unfold inb, answer, mbind, M_bind, get. simpl. rewrite H. reflexivity. Qed.

Lemma cmos_read_run (reg v : Z) (r : list Z) (s : io) : io_in s = v :: r ->
  exists t, cmos_read reg s = Done (u8 v) t /\ io_in t = r.
Proof. intros H. unfold cmos_read. eexists. split; [erewrite (bind_Done (outb _ _)) by reflexivity; erewrite (bind_Done (microdelay _)) by reflexivity; apply inb_run; exact H|reflexivity]. Qed.

Lemma fill_rtcdate_run (a b c d e f : Z) (r : list Z) (s : io) : io_in s = a :: b :: c :: d :: e :: f :: r ->
  exists t, fill_rtcdate s = Done (mk_rtcdate (u8 a) (u8 b) (u8 c) (u8 d) (u8 e) (u8 f)) t /\ io_in t = r.
Proof.
  intros H. unfold fill_rtcdate.
  destruct (cmos_read_run 0x00 _ _ s H) as (s1 & E1 & H1). rewrite (bind_Done _ _ _ _ _ E1).
  destruct (cmos_read_run 0x02 _ _ s1 H1) as (s2 & E2 & H2). rewrite (bind_Done _ _ _ _ _ E2).
  destruct (cmos_read_run 0x04 _ _ s2 H2) as (s3 & E3 & H3). rewrite (bind_Done _ _ _ _ _ E3).
  destruct (cmos_read_run 0x07 _ _ s3 H3) as (s4 & E4 & H4). rewrite (bind_Done _ _ _ _ _ E4).
  destruct (cmos_read_run 0x08 _ _ s4 H4) as (s5 & E5 & H5). rewrite (bind_Done _ _ _ _ _ E5).
  destruct (cmos_read_run 0x09 _ _ s5 H5) as (s6 & E6 & H6). rewrite (bind_Done _ _ _ _ _ E6).
  exists s6. split; [reflexivity|exact H6].
Qed.

(** When the clock does not change between the two readings, [cmostime] returns
    what it shows, with the digits decoded. *)
Lemma cmostime_reads (sb a : Z) (t : rtcdate) (r : list Z) (s : io) :
  Forall is_byte [second t; minute t; hour t; day t; month t; year t] -> Z.land (u8 sb) 4 = 0 -> Z.land (u8 a) 128 = 0 ->
  let date := [second t; minute t; hour t; day t; month t; year t] in
  io_in s = sb :: date ++ a :: date ++ r ->
  exists s', cmostime s = Done (mk_rtcdate (conv (second t)) (conv (minute t)) (conv (hour t)) (conv (day t)) (conv (month t)) (conv (year t) + 2000)) s' /\ io_in s' = r.
Proof.
  intros Hb Hsb Ha date Hi.
  assert (Et : mk_rtcdate (u8 (second t)) (u8 (minute t)) (u8 (hour t)) (u8 (day t)) (u8 (month t)) (u8 (year t)) = t).
  { repeat (apply Forall_cons in Hb as [? Hb]). rewrite !u8_small by assumption. destruct t. reflexivity. }
  unfold cmostime. destruct (cmos_read_run CMOS_STATB _ _ s Hi) as (s1 & E1 & H1). rewrite (bind_Done _ _ _ _ _ E1). change (Z.shiftl 1 2) with 4. rewrite Hsb. cbn [Z.eqb].
  unfold date in H1. cbn [app] in H1. destruct (fill_rtcdate_run _ _ _ _ _ _ _ s1 H1) as (s2 & E2 & H2). rewrite Et in E2.
  destruct (cmos_read_run CMOS_STATA _ _ s2 H2) as (s3 & E3 & H3). destruct (fill_rtcdate_run _ _ _ _ _ _ _ s3 H3) as (s4 & E4 & H4). rewrite Et in E4.
  erewrite bind_Done.
  2: { unfold poll. rewrite (bind_Done (gets (fun s => length (io_in s))) _ s1 s1 _ eq_refl). cbn [while_loop]. erewrite bind_Done.
       2: { rewrite (bind_Done _ _ _ _ _ E2), (bind_Done _ _ _ _ _ E3). change CMOS_UIP with 128. rewrite Ha. cbn [Z.eqb negb].
            rewrite (bind_Done _ _ _ _ _ E4), bool_decide_eq_true_2 by reflexivity. reflexivity. }
       reflexivity. }
  exists s4. split; [reflexivity|exact H4].
Qed.
