(* ===== verification/IdePorts.v ===== *)
(** * ide.c at the ports

    Ide.v takes the disk for an array of blocks and a transfer for one step.
    Here are the port accesses the driver makes, and a drive that answers them
    as the ATA standard says.  The theorem shows that what Ide.v takes for
    granted is what the accesses bring about. *)

From S2P Require Import Prelude Params Bytes CString Kernel Print Sleep Console Ide Syscall Devices.

(** [outsl] and [insl] of x86.h: [cnt] long words. *)
Definition outsl (port : Z) (d : list Z) (cnt : nat) : D unit :=
  for_each cnt 0 (fun k => emit (Outl port (get32 d (4 * Z.of_nat k)))).

Fixpoint insl (port : Z) (cnt : nat) : D (list Z) :=
  match cnt with
  | O => mret []
  | S cnt' =>
      v ← answer;
      emit (Inl port (u32 v));;
      r ← insl port cnt';
      mret (le32 v ++ r)
  end.

(** ** ide.c: waiting for the disk, and looking for the second one *)

Definition IDE_BSY : Z := 0x80.
Definition IDE_DRDY : Z := 0x40.
Definition IDE_DF : Z := 0x20.
Definition IDE_ERR : Z := 0x01.

Definition idewait (checkerr : bool) : D Z :=
  r ← poll (fun _ : unit =>
    r ← inb 0x1f7;
    mret (if negb (Z.land r (Z.lor IDE_BSY IDE_DRDY) =? IDE_DRDY) then inl tt else inr r)) tt;
  mret (if checkerr && negb (Z.land r (Z.lor IDE_DF IDE_ERR) =? 0) then -1 else 0).

Definition ideinit : D unit :=
  s ← get;
  ioapicenable IRQ_IDE (Z.of_nat (length (apicids s)) - 1);;
  _ ← idewait false;
  outb 0x1f6 (Z.lor 0xe0 (Z.shiftl 1 4));;
  r ← for_loop 1000 0 (fun _ (_ : unit) =>
    v ← inb 0x1f7;
    mret (if negb (v =? 0) then inr tt else inl tt)) tt;
  (match r with inr _ => modify (fun s => s <| havedisk1 := 1 |>) | inl _ => mret tt end);;
  outb 0x1f6 (Z.lor 0xe0 (Z.shiftl 0 4)).

Definition IDE_CMD_READ : Z := 0x20.
Definition IDE_CMD_WRITE : Z := 0x30.
Definition IDE_CMD_RDMUL : Z := 0xc4.
Definition IDE_CMD_WRMUL : Z := 0xc5.

(** [idestart]; the null pointer is [None]. *)
Definition port_idestart (o : option buf) : D unit :=
  match o with
  | None => panic "idestart"
  | Some b =>
      if bblockno b >=? FSSIZE then panic "incorrect blockno"
      else
        let sector_per_block := BSIZE / SECTOR_SIZE in
        let sector := s32 (bblockno b * sector_per_block) in
        let read_cmd := if sector_per_block =? 1 then IDE_CMD_READ else IDE_CMD_RDMUL in
        let write_cmd := if sector_per_block =? 1 then IDE_CMD_WRITE else IDE_CMD_WRMUL in
        if sector_per_block >? 7 then panic "idestart"
        else
          _ ← idewait false;
          outb 0x3f6 0;;
          outb 0x1f2 sector_per_block;;
          outb 0x1f3 (Z.land sector 0xff);;
          outb 0x1f4 (Z.land (Z.shiftr sector 8) 0xff);;
          outb 0x1f5 (Z.land (Z.shiftr sector 16) 0xff);;
          outb 0x1f6 (Z.lor (Z.lor 0xe0 (Z.shiftl (Z.land (bdev b) 1) 4)) (Z.land (Z.shiftr sector 24) 0x0f));;
          if is_dirty b then
            outb 0x1f7 write_cmd;;
            outsl 0x1f0 (bdata b) (Z.to_nat (BSIZE / 4))
          else outb 0x1f7 read_cmd
  end.

(** The part of [ideintr] that reads: the data of the buffer afterwards. *)
Definition port_read (b : buf) : D (list Z) :=
  if is_dirty b then mret (bdata b)
  else
    r ← idewait true;
    if r >=? 0 then insl 0x1f0 (Z.to_nat (BSIZE / 4)) else mret (bdata b).

(** ** The drive

    A pair of ATA drives, for the commands the driver gives: the registers of the
    command block and the control register, the transfer in progress (how many
    sectors are still to be received, where the next one goes, its bytes so far,
    and the bytes the drive has for the processor), the number of interrupts
    raised, and the sectors. *)
Record drive : Type := mk_drive {
  d_ctl : Z;
  d_count : Z;
  d_lba0 : Z;
  d_lba1 : Z;
  d_lba2 : Z;
  d_dev : Z;
  d_left : nat;
  d_at : Z * Z;
  d_data : list Z;
  d_out : list Z;
  d_irq : nat;
  d_disk : gmap (Z * Z) (list Z)
}.
#[export] Instance drive_eta : Eta drive := fun r =>
  mk_drive (d_ctl r) (d_count r) (d_lba0 r) (d_lba1 r) (d_lba2 r) (d_dev r) (d_left r) (d_at r) (d_data r) (d_out r) (d_irq r) (d_disk r).

(** The drive and the sector the registers select.  Bit 6 of the device register
    says that the address is a block number; with a cylinder, head and sector,
    which the driver does not use, the drive here rejects the command. *)
Definition d_addr (d : drive) : option (Z * Z) :=
  if Z.testbit (d_dev d) 6 then
    Some (Z.land (Z.shiftr (d_dev d) 4) 1, d_lba0 d + 256 * d_lba1 d + 65536 * d_lba2 d + 16777216 * Z.land (d_dev d) 0x0f)
  else None.

(** A count of 0 stands for 256 sectors. *)
Definition d_sectors (d : drive) : nat := if d_count d =? 0 then 256 else Z.to_nat (d_count d).

Definition next_sector (a : Z * Z) : Z * Z := (fst a, snd a + 1).

Fixpoint read_sectors (n : nat) (a : Z * Z) (disk : gmap (Z * Z) (list Z)) : list Z :=
  match n with
  | O => []
  | S n' => default zero_block (disk !! a) ++ read_sectors n' (next_sector a) disk
  end.

(** An interrupt, unless bit 1 of the control register disables them. *)
Definition drive_irq (d : drive) : drive := if Z.testbit (d_ctl d) 1 then d else d <| d_irq ::= S |>.

(** A command, given in register 0x1f7.  While bit 2 of the control register is
    set the drive is held in reset.  A read has the sectors ready and raises the
    interrupt; a write waits for the sectors. *)
Definition drive_cmd (v : Z) (d : drive) : drive :=
  let d0 := d <| d_left := 0%nat |> <| d_data := [] |> <| d_out := [] |> in
  if Z.testbit (d_ctl d) 2 then d0
  else
    match d_addr d with
    | None => d0
    | Some a =>
        if v =? IDE_CMD_WRITE then d0 <| d_left := d_sectors d |> <| d_at := a |>
        else if v =? IDE_CMD_READ then drive_irq (d0 <| d_out := read_sectors (d_sectors d) a (d_disk d) |>)
        else d0
    end.

(** A long word for a drive that was told to write; each sector is stored when
    it is complete, and the interrupt raised. *)
Definition drive_take (v : Z) (d : drive) : drive :=
  let data := d_data d ++ le32 v in
  match d_left d with
  | O => d
  | S n =>
      if (length data =? 512)%nat then
        drive_irq (d <| d_left := n |> <| d_data := [] |> <| d_at ::= next_sector |> <| d_disk ::= <[d_at d := data]> |>)
      else d <| d_data := data |>
  end.

Definition drive_step (d : drive) (e : ioev) : drive :=
  match e with
  | Outb 0x3f6 v => d <| d_ctl := v |>
  | Outb 0x1f2 v => d <| d_count := v |>
  | Outb 0x1f3 v => d <| d_lba0 := v |>
  | Outb 0x1f4 v => d <| d_lba1 := v |>
  | Outb 0x1f5 v => d <| d_lba2 := v |>
  | Outb 0x1f6 v => d <| d_dev := v |>
  | Outb 0x1f7 v => drive_cmd v d
  | Outl 0x1f0 v => drive_take v d
  | _ => d
  end.

Definition drive_run : drive -> list ioev -> drive := foldl drive_step.

(** The long words the drive gives the processor. *)
Definition longs (data : list Z) : list Z := map (fun k => get32 data (4 * Z.of_nat k)) (seq 0 (length data / 4)).

(** The states of the status register in which the driver goes on waiting. *)
Definition ready (st : Z) : bool := Z.land (u8 st) (Z.lor IDE_BSY IDE_DRDY) =? IDE_DRDY.
Definition failed (st : Z) : bool := negb (Z.land (u8 st) (Z.lor IDE_DF IDE_ERR) =? 0).

(** ** Lemmas *)

Definition say (ev : list ioev) (s : io) : io := mk_io (io_in s) (io_log s ++ ev) (uart s) (lapic s) (ioapicid s) (apicids s) (havedisk1 s).

Lemma say_say (a b : list ioev) (s : io) : say b (say a s) = say (a ++ b) s.
Proof. destruct s. unfold say. simpl. f_equal. symmetry. apply app_assoc. Qed.

Lemma outb_say (port v : Z) (s : io) : outb port v s = Done tt (say [Outb port (u8 v)] s).
Proof. reflexivity. Qed.

Lemma outsl_run (port : Z) (d : list Z) (n i : nat) (s : io) :
  for_each n i (fun k => emit (Outl port (get32 d (4 * Z.of_nat k)))) s =
    Done tt (say (map (fun k => Outl port (get32 d (4 * Z.of_nat k))) (seq i n)) s).
Proof.
  revert i s. induction n as [|n IH]; intros i s; cbn [for_each seq map].
  - unfold say. destruct s. simpl. rewrite app_nil_r. reflexivity.
  - erewrite bind_Done by reflexivity. rewrite IH. apply (f_equal (Done tt)). exact (say_say [_] _ s).
Qed.

(** A sector is its long words. *)
Lemma take_long (d : list Z) (k : nat) : Forall is_byte d -> (4 * k + 4 <= length d)%nat ->
  take (4 * k) d ++ le32 (get32 d (4 * Z.of_nat k)) = take (4 * S k) d.
Proof.
  intros Hb Hl. rewrite <- (take_drop (4 * k) d) at 3. replace (4 * S k)%nat with (4 * k + 4)%nat by lia.
  rewrite take_app_add' by (rewrite length_take; lia). f_equal.
  assert (El : exists b0 b1 b2 b3 r, drop (4 * k) d = b0 :: b1 :: b2 :: b3 :: r).
  { destruct (drop (4 * k) d) as [|b0 [|b1 [|b2 [|b3 r] ] ] ] eqn:E; [..|eauto 6]; apply (f_equal length) in E; rewrite length_drop in E; simpl in E; lia. }
  destruct El as (b0 & b1 & b2 & b3 & r & E). rewrite E. cbn [take].
  assert (Hi : forall j b, (b0 :: b1 :: b2 :: b3 :: r) !! j = Some b -> byte_at d (4 * Z.of_nat k + Z.of_nat j) = b /\ is_byte b).
  { intros j b Hj. rewrite <- E, lookup_drop in Hj. split; [|exact (Forall_lookup_1 _ _ _ _ Hb Hj)]. unfold byte_at. replace (Z.to_nat (4 * Z.of_nat k + Z.of_nat j)) with (4 * k + j)%nat by lia. rewrite Hj. reflexivity. }
  destruct (Hi 0%nat _ eq_refl) as [E0 H0], (Hi 1%nat _ eq_refl) as [E1 H1], (Hi 2%nat _ eq_refl) as [E2 H2], (Hi 3%nat _ eq_refl) as [E3 H3].
  rewrite Z.add_0_r in E0. unfold get32, le32. change (4 * Z.of_nat k + 1) with (4 * Z.of_nat k + Z.of_nat 1). change (4 * Z.of_nat k + 2) with (4 * Z.of_nat k + Z.of_nat 2). change (4 * Z.of_nat k + 3) with (4 * Z.of_nat k + Z.of_nat 3).
  rewrite E0, E1, E2, E3. unfold u8, is_byte in *. repeat f_equal; Z.div_mod_to_equations; lia.
Qed.

(** The drive receives its last sector. *)
Lemma drive_receives (data : list Z) (n k : nat) (d : drive) : Forall is_byte data -> length data = 512%nat -> d_left d = 1%nat ->
  d_data d = take (4 * k) data -> (n + k = 128)%nat -> (0 < n)%nat ->
  drive_run d (map (fun j => Outl 0x1f0 (get32 data (4 * Z.of_nat j))) (seq k n)) =
    drive_irq (d <| d_left := 0%nat |> <| d_data := [] |> <| d_at ::= next_sector |> <| d_disk ::= <[d_at d := data]> |>).
Proof.
  intros Hb Hl. revert k d. induction n as [|n IH]; intros k d Hc Hd Hk Hn; [lia|]. cbn [seq map]. unfold drive_run. cbn [foldl drive_step]. unfold drive_take at 1.
  rewrite Hc, Hd, take_long by (auto || lia). rewrite length_take, Hl. destruct n as [|n].
  - cbn [seq map foldl]. replace (4 * S k)%nat with 512%nat by lia. cbn [Nat.min Nat.eqb]. rewrite take_ge by lia. reflexivity.
  - rewrite (proj2 (Nat.eqb_neq _ _)) by lia. fold (drive_run (d <| d_data := take (4 * S k) data |>)). rewrite (IH (S k)) by (reflexivity || exact Hc || lia). reflexivity.
Qed.

Lemma drive_run_cons (d : drive) (e : ioev) (es : list ioev) : drive_run d (e :: es) = drive_run (drive_step d e) es.
Proof. reflexivity. Qed.

(** A command for one sector. *)
Lemma drive_writes (data : list Z) (a : Z * Z) (d : drive) : Forall is_byte data -> length data = 512%nat -> d_addr d = Some a -> d_sectors d = 1%nat -> d_ctl d = 0 ->
  let d' := drive_run d (Outb 0x1f7 IDE_CMD_WRITE :: map (fun k => Outl 0x1f0 (get32 data (4 * Z.of_nat k))) (seq 0 128)) in
  d_addr d' = Some a /\ d_disk d' = <[a := data]> (d_disk d) /\ d_left d' = 0%nat /\ d_irq d' = S (d_irq d).
Proof.
  intros Hb Hl Ha Hc Ht. cbv zeta.
  assert (E : drive_step d (Outb 0x1f7 IDE_CMD_WRITE) = d <| d_left := 1%nat |> <| d_data := [] |> <| d_out := [] |> <| d_at := a |>).
  { cbn [drive_step]. unfold drive_cmd. rewrite Ht, Ha, Hc. reflexivity. }
  rewrite drive_run_cons, E. rewrite (drive_receives data 128 0) by (assumption || reflexivity || lia). unfold drive_irq. destruct d; cbn in *. subst. cbn. auto.
Qed.

Lemma drive_reads (a : Z * Z) (d : drive) : d_addr d = Some a -> d_sectors d = 1%nat -> d_ctl d = 0 ->
  let d' := drive_run d [Outb 0x1f7 IDE_CMD_READ] in
  d_addr d' = Some a /\ d_disk d' = d_disk d /\ d_left d' = 0%nat /\ d_irq d' = S (d_irq d) /\ d_out d' = default zero_block (d_disk d !! a).
Proof.
  intros Ha Hc Ht. cbv zeta. unfold drive_run. cbn [foldl drive_step]. unfold drive_cmd. rewrite Ht, Ha, Hc. cbn [read_sectors]. rewrite app_nil_r.
  unfold drive_irq. destruct d; cbn in *. subst. cbn. auto.
Qed.

Lemma insl_run (port : Z) (data : list Z) (r : list Z) : forall (n k : nat) (s : io), Forall is_byte data -> length data = (4 * (n + k))%nat ->
  io_in s = map (fun j => get32 data (4 * Z.of_nat j)) (seq k n) ++ r ->
  exists ev, insl port n s = Done (drop (4 * k) data) (say ev (s <| io_in := r |>)) /\ forall d, drive_run d ev = d.
Proof.
  induction n as [|n IH]; intros k s Hb Hl Hi; cbn [insl seq map app] in *.
  - exists []. rewrite drop_ge by lia. split; [|reflexivity]. unfold mret, M_ret. f_equal. destruct s. unfold say. simpl in *. rewrite app_nil_r, Hi. reflexivity.
  - erewrite (bind_Done answer) by (unfold answer, mbind, M_bind, get; simpl; rewrite Hi; reflexivity). erewrite (bind_Done (emit _)) by reflexivity.
    edestruct (IH (S k)) as (ev & E & Hr); [exact Hb|lia| |].
    2: { exists (Inl port (u32 (get32 data (4 * Z.of_nat k))) :: ev). split; [|exact Hr]. erewrite bind_Done by exact E. unfold mret, M_ret.
         replace (le32 _ ++ _) with (drop (4 * k) data).
         2: { apply (app_inv_head (take (4 * k) data)). rewrite app_assoc, take_long, !take_drop by (exact Hb || lia). reflexivity. }
         f_equal. destruct s. unfold say. simpl. f_equal. symmetry. apply (app_assoc _ [_]). }
    destruct s; reflexivity.
Qed.

(** [idewait] reads the status until the drive is ready. *)
Lemma idewait_run (c : bool) (busy : list Z) (st : Z) (r : list Z) (s : io) : forallb (fun v => negb (ready v)) busy = true -> ready st = true ->
  io_in s = busy ++ st :: r ->
  exists ev, idewait c s = Done (if c && failed st then -1 else 0) (say ev (s <| io_in := r |>)) /\ forall d, drive_run d ev = d.
Proof.
  intros Hb Hs Hi.
  assert (L : forall n busy s, forallb (fun v => negb (ready v)) busy = true -> io_in s = busy ++ st :: r -> (length busy < n)%nat ->
    exists ev, while_loop n (fun _ : unit => r ← inb 0x1f7; mret (if negb (Z.land r (Z.lor IDE_BSY IDE_DRDY) =? IDE_DRDY) then inl tt else inr r)) tt s =
      Done (u8 st) (say ev (s <| io_in := r |>)) /\ forall d, drive_run d ev = d).
  { clear s busy Hb Hi. induction n as [|n IH]; intros busy s Hb Hi Hn; [lia|]. cbn [while_loop]. destruct busy as [|v busy].
    - exists [Inb 0x1f7 (u8 st)]. split; [|reflexivity]. erewrite bind_Done; [|rewrite (bind_Done _ _ _ _ _ (inb_run 0x1f7 _ _ _ Hi)); unfold ready in Hs; rewrite Hs; reflexivity]. reflexivity.
    - cbn [forallb] in Hb. apply andb_prop in Hb as [Hv Hb]. cbn [app] in Hi.
      edestruct (IH busy) as (ev & E & Hd); [exact Hb| |cbn [length] in Hn; lia|].
      2: { exists (Inb 0x1f7 (u8 v) :: ev). split; [|exact Hd]. erewrite bind_Done.
           2: { rewrite (bind_Done _ _ _ _ _ (inb_run 0x1f7 _ _ _ Hi)). unfold ready in Hv. rewrite Hv. reflexivity. }
           cbn iota. rewrite E. f_equal. destruct s. unfold say. simpl. f_equal. symmetry. apply (app_assoc _ [_]). }
      reflexivity. }
  destruct (L (S (length (io_in s))) busy s Hb Hi) as (ev & E & Hd); [rewrite Hi, length_app; lia|].
  exists ev. split; [|exact Hd]. unfold idewait. erewrite bind_Done; [|unfold poll; rewrite (bind_Done (gets (fun s => length (io_in s))) _ s s _ eq_refl); exact E]. reflexivity.
Qed.

(** The accesses by which [idestart] names the sector, and the drive after them. *)
Definition select (b : buf) : list ioev :=
  [Outb 0x3f6 0; Outb 0x1f2 1; Outb 0x1f3 (u8 (Z.land (bblockno b) 0xff)); Outb 0x1f4 (u8 (Z.land (Z.shiftr (bblockno b) 8) 0xff));
   Outb 0x1f5 (u8 (Z.land (Z.shiftr (bblockno b) 16) 0xff));
   Outb 0x1f6 (u8 (Z.lor (Z.lor 0xe0 (Z.shiftl (Z.land (bdev b) 1) 4)) (Z.land (Z.shiftr (bblockno b) 24) 0x0f)))].

(** The registers after them: one sector, at the address of the block, with
    interrupts enabled. *)
Lemma select_regs (b : buf) (d : drive) : 0 <= bblockno b < FSSIZE -> let d1 := drive_run d (select b) in
  d_addr d1 = Some (drive_block b) /\ d_sectors d1 = 1%nat /\ d_ctl d1 = 0 /\ d_irq d1 = d_irq d /\ d_disk d1 = d_disk d.
Proof.
  intros Hn. cbv zeta. split_and!; [|reflexivity..]. unfold FSSIZE in Hn. unfold d_addr, drive_block, drive_run, select. cbn [foldl drive_step]. cbn.
  rewrite (Z.shiftr_div_pow2 _ 24), (Z.div_small _ (2 ^ 24)) by lia. rewrite Z.land_0_l, Z.lor_0_r.
  change 255 with (Z.ones 8). rewrite !Z.land_ones, !Z.shiftr_div_pow2 by lia.
  assert (E : Z.land (bdev b) 1 = 0 \/ Z.land (bdev b) 1 = 1).
  { pose proof (Z.land_ones (bdev b) 1 ltac:(lia)) as E. change (Z.ones 1) with 1 in E. change (2 ^ 1) with 2 in E. pose proof (Z.mod_pos_bound (bdev b) 2 ltac:(lia)). lia. }
  assert (Ha : u8 (bblockno b mod 2 ^ 8) + 256 * u8 (bblockno b / 2 ^ 8 mod 2 ^ 8) + 65536 * u8 (bblockno b / 2 ^ 16 mod 2 ^ 8) = bblockno b).
  { unfold u8. change (2 ^ 8) with 256. change (2 ^ 16) with 65536. Z.div_mod_to_equations. lia. }
  destruct E as [-> | ->].
  all: rewrite Ha; apply f_equal, f_equal2; [reflexivity|exact (Z.add_0_r _)].
Qed.

(** [idestart] at the ports: the accesses, after the polls. *)
Lemma port_idestart_run (b : buf) (busy : list Z) (st : Z) (r : list Z) (s : io) : 0 <= bblockno b < FSSIZE ->
  forallb (fun v => negb (ready v)) busy = true -> ready st = true -> io_in s = busy ++ st :: r ->
  exists ev, (forall d, drive_run d ev = d) /\
    port_idestart (Some b) s = Done tt (say (ev ++ select b ++
      if is_dirty b then Outb 0x1f7 IDE_CMD_WRITE :: map (fun k => Outl 0x1f0 (get32 (bdata b) (4 * Z.of_nat k))) (seq 0 128)
      else [Outb 0x1f7 IDE_CMD_READ]) (s <| io_in := r |>)).
Proof.
  intros Hn Hb Hs Hi. destruct (idewait_run false busy st r s Hb Hs Hi) as (ev & E & Hd). exists ev. split; [exact Hd|].
  unfold port_idestart. rewrite Z.geb_leb, (proj2 (Z.leb_gt _ _)) by lia. change (BSIZE / SECTOR_SIZE) with 1. cbv zeta. cbn [Z.eqb Z.gtb Z.compare Pos.compare Pos.compare_cont].
  rewrite Z.mul_1_r, (s32_small (bblockno b)) by (unfold FSSIZE in Hn; lia). rewrite (bind_Done _ _ _ _ _ E). rewrite !(bind_Done _ _ _ _ _ (outb_say _ _ _)). destruct (is_dirty b).
  - rewrite (bind_Done _ _ _ _ _ (outb_say _ _ _)). unfold outsl. rewrite outsl_run, !say_say. reflexivity.
  - rewrite outb_say, !say_say. reflexivity.
Qed.

(** The reading half of [ideintr] takes the sector, or leaves the buffer when
    the status shows an error. *)
Lemma port_read_run (b : buf) (data busy : list Z) (st : Z) (r : list Z) (s : io) : is_dirty b = false -> Forall is_byte data -> length data = 512%nat ->
  forallb (fun v => negb (ready v)) busy = true -> ready st = true -> io_in s = busy ++ st :: longs data ++ r ->
  exists s', port_read b s = Done (if failed st then bdata b else data) s' /\ (failed st = false -> io_in s' = r).
Proof.
  intros Hd Hb Hl Hy Hs Hi. destruct (idewait_run true busy st _ s Hy Hs Hi) as (ev & E & _). unfold port_read. rewrite Hd, (bind_Done _ _ _ _ _ E). cbn [andb].
  destruct (failed st); [eexists; split; [reflexivity|discriminate]|]. unfold longs. rewrite Hl.
  destruct (insl_run 0x1f0 data r 128 0 (say ev (s <| io_in := longs data ++ r |>)) Hb Hl) as (ev' & E' & _); [unfold longs; rewrite Hl; destruct s; reflexivity|].
  eexists. split; [unfold longs in E'; rewrite Hl in E'; exact E'|reflexivity].
Qed.

(** C31. The disk of Ide.v is what the port accesses of ide.c bring about on a
    drive that follows the ATA protocol, in whatever state the drive was.  For a
    buffer with a block of the file system, [idestart] waits until the drive is
    ready, however often it is busy before; then it has enabled interrupts and
    selected, by block number, the one sector that Ide.v records.  The sectors
    of the drive are the disk of Ide.v, with the buffer's data stored if it is
    dirty and unchanged if it is not; the drive expects no more data and has
    raised one interrupt.  After a read command the reading half of [ideintr]
    takes all that the drive has, and returns the block that Ide.v gives the
    buffer, unless the status shows an error, when the buffer's data stays. *)
Theorem ide_ports_refine_disk (k : kernel) (i : nat) (b : buf) (d : drive) (busy rest : list Z) (st : Z) (s : io) :
  k_bufs k !! i = Some b -> 0 <= bblockno b < FSSIZE -> length (bdata b) = 512%nat -> Forall is_byte (bdata b) -> d_disk d = k_disk k ->
  length (disk_block k (drive_block b)) = 512%nat -> Forall is_byte (disk_block k (drive_block b)) ->
  forallb (fun v => negb (ready v)) busy = true -> ready st = true -> io_in s = busy ++ st :: rest ->
  exists k' s' ev, idestart i k = Done tt k' /\ port_idestart (Some b) s = Done tt s' /\ io_in s' = rest /\ io_log s' = io_log s ++ ev /\
    let d' := drive_run d ev in
    d_addr d' = Some (k_ide k') /\ d_disk d' = k_disk k' /\ d_left d' = 0%nat /\ d_irq d' = S (d_irq d) /\
    forall busy1 st1 rest1 s1, is_dirty b = false ->
      forallb (fun v => negb (ready v)) busy1 = true -> ready st1 = true -> io_in s1 = busy1 ++ st1 :: longs (d_out d') ++ rest1 ->
      exists s2, port_read b s1 = Done (if failed st1 then bdata b else disk_block k' (k_ide k')) s2 /\ (failed st1 = false -> io_in s2 = rest1).
Proof.
  intros Hk Hn Hl Hb Hdk Hbl Hbb Hy Hs Hi. destruct (port_idestart_run b busy st rest s Hn Hy Hs Hi) as (ev & Hev & E).
  destruct (select_regs b d Hn) as (Ha & Hc & Ht & Hq & Hsel). set (d1 := drive_run d (select b)) in *.
  set (k1 := k <| k_ide := drive_block b |>).
  exists (if is_dirty b then k1 <| k_disk ::= <[drive_block b := bdata b]> |> else k1).
  eexists _, _. split; [|split; [exact E|split; [destruct s; reflexivity|split; [destruct s; reflexivity|] ] ] ].
  { unfold idestart. rewrite (bind_Done _ _ _ _ _ (buf_at_some _ _ _ Hk)), Z.geb_leb, (proj2 (Z.leb_gt _ _)) by lia. erewrite bind_Done by reflexivity.
    unfold when. destruct (is_dirty b); reflexivity. }
  cbv zeta. unfold drive_run in Hev |- *. rewrite !foldl_app, Hev. fold (drive_run d (select b)). fold d1.
  fold (drive_run d1 (if is_dirty b then Outb 0x1f7 IDE_CMD_WRITE :: map (fun k => Outl 0x1f0 (get32 (bdata b) (4 * Z.of_nat k))) (seq 0 128) else [Outb 0x1f7 IDE_CMD_READ])).
  clearbody d1. destruct (is_dirty b) eqn:Ed.
  - destruct (drive_writes (bdata b) (drive_block b) d1 Hb Hl Ha Hc Ht) as (W1 & W2 & W3 & W4). generalize dependent (drive_run d1 (Outb 0x1f7 IDE_CMD_WRITE :: map (fun k => Outl 0x1f0 (get32 (bdata b) (4 * Z.of_nat k))) (seq 0 128))). intros d2 W1 W2 W3 W4.
    split_and!; [exact W1|rewrite W2, Hsel, Hdk; reflexivity|exact W3|rewrite W4, Hq; reflexivity|discriminate].
  - destruct (drive_reads (drive_block b) d1 Ha Hc Ht) as (R1 & R2 & R3 & R4 & R5).
    split_and!; [exact R1|rewrite R2, Hsel; exact Hdk|exact R3|rewrite R4, Hq; reflexivity|]. intros busy1 st1 rest1 s1 _ Hy1 Hs1 Hi1.
    apply (port_read_run b (disk_block k (drive_block b)) busy1 st1 rest1 s1 Ed Hbb Hbl Hy1 Hs1). rewrite Hi1, R5, Hsel, Hdk. reflexivity.
Qed.

(** A dirty buffer of block 300, a drive that is busy once. *)
Definition ex_buf : buf := mk_buf B_DIRTY 1 300 sleeplock0 1 0 0 None (replicate 512 7).
Definition ex_ide : kernel := kernel0 <| k_bufs := [ex_buf] |>.
Definition ex_drive : drive := mk_drive 6 0 0 0 0 0 3 (0, 0) [] [] 0 ∅.
Definition ex_io : io := mk_io [0x80; 0x40] [] false 0 0 [] 0.

Lemma ide_ports_refine_disk_witness : exists k' s' ev, idestart 0 ex_ide = Done tt k' /\ port_idestart (Some ex_buf) ex_io = Done tt s' /\
  io_log s' = ev /\ d_disk (drive_run ex_drive ev) = k_disk k' /\ d_addr (drive_run ex_drive ev) = Some (k_ide k') /\ d_irq (drive_run ex_drive ev) = 1%nat.
Proof.
  destruct (ide_ports_refine_disk ex_ide 0 ex_buf ex_drive [0x80] [] 0x40 ex_io) as (k' & s' & ev & H1 & H2 & _ & H4 & H5 & H6 & _ & H7 & _);
    [reflexivity|vm_compute; split; [discriminate|reflexivity]|reflexivity|apply Forall_replicate; vm_compute; split; [discriminate|reflexivity]|reflexivity|reflexivity|apply Forall_replicate; vm_compute; split; [discriminate|reflexivity]|reflexivity..|].
  exists k', s', ev. split_and!; [exact H1|exact H2|exact H4|exact H6|exact H5|exact H7].
Defined.
