(* ===== verification/Memide.v ===== *)
(** * memide.c: a disk in memory

    The image of the file system is linked into the kernel at [memdisk] and has
    [disksize] blocks; both are symbols of the linker.  A transfer is a copy. *)

From S2P Require Import Prelude Params Bytes CString Kernel Print Kalloc Vm Sleep Ide.

(** [memdisk] and [disksize] from the place and the size of the image. *)
Definition mem_ideinit (start size : Z) : Z * Z := (start, s32 (u32 size / BSIZE)).

Section Memide.
Context (memdisk disksize : Z).

Definition mem_iderw (i : nat) : K unit :=
  h ← holdingsleep (SBuf i);
  if h =? 0 then panic "iderw: buf not locked"
  else
    b ← buf_at i;
    if synced b then panic "iderw: nothing to do"
    else if negb (bdev b =? 1) then panic "iderw: request not for disk 1"
    else if bblockno b >=? u32 disksize then panic "iderw: block out of range"
    else
      let p := memdisk + bblockno b * BSIZE in
      (if is_dirty b then
         upd_buf i (fun b => b <| bflags ::= Z.land (Z.lnot B_DIRTY) |>);;
         mem_put p (bdata b)
       else
         s ← get;
         upd_buf i (fun b => b <| bdata := map (fun k => rd (k_mem s) (p + Z.of_nat k)) (seq 0 (Z.to_nat BSIZE)) |>));;
      upd_buf i (fun b => b <| bflags ::= Z.lor B_VALID |>).

(** The contents of a block. *)
Definition mem_block (m : gmap Z Z) (n : Z) : list Z := map (fun k => rd m (memdisk + n * BSIZE + Z.of_nat k)) (seq 0 (Z.to_nat BSIZE)).

(** A block written is the block read back, and the other blocks stay. *)
Lemma mem_block_put (m : gmap Z Z) (n n' : Z) (d : list Z) : length d = Z.to_nat BSIZE ->
  mem_block (wr_list (memdisk + n * BSIZE) d m) n' = if decide (n' = n) then d else mem_block m n'.
Proof.
  intros Hl. unfold mem_block. apply list_eq. intros k. rewrite list_lookup_fmap. unfold BSIZE in *. destruct (decide (k < 512)%nat) as [Hk|Hk].
  - rewrite lookup_seq_lt by lia. cbn [fmap option_fmap option_map]. rewrite rd_wr_list, Hl, Nat.add_0_l. destruct (decide (n' = n)) as [->|Hne].
    + rewrite decide_True by lia. replace (memdisk + n * 512 + Z.of_nat k - (memdisk + n * 512)) with (Z.of_nat k) by lia. unfold byte_at. rewrite Nat2Z.id.
      destruct (lookup_lt_is_Some_2 d k ltac:(lia)) as [x ->]. reflexivity.
    + rewrite decide_False by lia. rewrite list_lookup_fmap, lookup_seq_lt by lia. reflexivity.
  - rewrite lookup_seq_ge by lia. symmetry. apply lookup_ge_None. destruct (decide (n' = n)); [lia|]. rewrite length_map, length_seq. lia.
Qed.
End Memide.
