(* ===== verification/Bootmain.v ===== *)
(** * bootmain.c: the boot loader

    The loader reads the kernel from the disk by the same ports as ide.c and
    copies its segments to where they belong.  Its memory is passed along. *)

From S2P Require Import Prelude Params Bytes CString Kernel Print Sleep Ide Syscall Exec Devices IdePorts.

Definition SECTSIZE : Z := 512.

Definition elf_fields : layout :=
  [("magic", 4); ("elf", 12); ("type", 2); ("machine", 2); ("version", 4); ("entry", 4); ("phoff", 4); ("shoff", 4); ("flags", 4);
   ("ehsize", 2); ("phentsize", 2); ("phnum", 2); ("shentsize", 2); ("shnum", 2); ("shstrndx", 2)].

Definition ph_fields : layout :=
  [("type", 4); ("off", 4); ("vaddr", 4); ("paddr", 4); ("filesz", 4); ("memsz", 4); ("flags", 4); ("align", 4)].

Definition waitdisk : D unit :=
  poll (fun _ : unit =>
    v ← inb 0x1F7;
    mret (if negb (Z.land v 0xC0 =? 0x40) then inl tt else inr tt)) tt.

Definition readsect (dst offset : Z) (m : gmap Z Z) : D (gmap Z Z) :=
  waitdisk;;
  outb 0x1F2 1;;
  outb 0x1F3 offset;;
  outb 0x1F4 (Z.shiftr offset 8);;
  outb 0x1F5 (Z.shiftr offset 16);;
  outb 0x1F6 (Z.lor (Z.shiftr offset 24) 0xE0);;
  outb 0x1F7 0x20;;
  waitdisk;;
  d ← insl 0x1F0 (Z.to_nat (SECTSIZE / 4));
  mret (wr_list dst d m).

Fixpoint readseg_loop (n : nat) (pa epa offset : Z) (m : gmap Z Z) : D (gmap Z Z) :=
  match n with
  | O => halt NoFuel
  | S n' =>
      if negb (pa <? epa) then mret m
      else
        m ← readsect pa offset m;
        readseg_loop n' (u32 (pa + SECTSIZE)) epa (u32 (offset + 1)) m
  end.

Definition readseg (pa count offset : Z) (m : gmap Z Z) : D (gmap Z Z) :=
  let epa := u32 (pa + count) in
  let pa := u32 (pa - offset mod SECTSIZE) in
  let offset := offset / SECTSIZE + 1 in
  readseg_loop (S (S (Z.to_nat (epa / SECTSIZE)))) pa epa offset m.

(** The loop over the program headers, from [ph] up to [eph]. *)
Fixpoint boot_segments (n : nat) (ph eph : Z) (m : gmap Z Z) : D (gmap Z Z) :=
  match n with
  | O => mret m
  | S n' =>
      if negb (ph <? eph) then mret m
      else
        let pa := rd32 m (ph + offsetof ph_fields "paddr") in
        let filesz := rd32 m (ph + offsetof ph_fields "filesz") in
        m ← readseg pa filesz (rd32 m (ph + offsetof ph_fields "off")) m;
        let filesz := rd32 m (ph + offsetof ph_fields "filesz") in
        let memsz := rd32 m (ph + offsetof ph_fields "memsz") in
        let m := if memsz >? filesz then wr_list (u32 (pa + filesz)) (replicate (Z.to_nat (memsz - filesz)) 0) m else m in
        boot_segments n' (ph + sizeof ph_fields) eph m
  end.

(** The memory, and the entry point if the image is an executable. *)
Definition bootmain (m : gmap Z Z) : D (gmap Z Z * option Z) :=
  let elf := 0x10000 in
  m ← readseg elf 4096 0 m;
  if negb (rd32 m (elf + offsetof elf_fields "magic") =? ELF_MAGIC) then mret (m, None)
  else
    let ph := u32 (elf + rd32 m (elf + offsetof elf_fields "phoff")) in
    let phnum := rd16 m (elf + offsetof elf_fields "phnum") in
    m ← boot_segments (Z.to_nat phnum) ph (u32 (ph + phnum * sizeof ph_fields)) m;
    mret (m, Some (rd32 m (elf + offsetof elf_fields "entry"))).

(** ** What is loaded *)

(** A sector of the kernel's image; the image begins at sector 1. *)
Definition sect (img : list Z) (k : Z) : list Z := slice img (SECTSIZE * (k - 1)) SECTSIZE.

(** The answers of a drive that holds the image and is ready at once. *)
Definition reads (img : list Z) (k : Z) (n : nat) : list Z :=
  flat_map (fun j => 0x40 :: 0x40 :: longs (sect img (k + Z.of_nat j))) (seq 0 n).

Lemma waitdisk_ready (s : io) (r : list Z) : io_in s = 0x40 :: r -> exists ev, waitdisk s = Done tt (say ev (s <| io_in := r |>)) /\ forall d, drive_run d ev = d.
Proof.
  intros H. exists [Inb 0x1F7 0x40]. split; [|reflexivity]. unfold waitdisk, poll. rewrite (bind_Done (gets (fun s => length (io_in s))) _ s s _ eq_refl). cbn [while_loop].
  erewrite bind_Done; [|rewrite (bind_Done _ _ _ _ _ (inb_run 0x1F7 _ _ _ H)); reflexivity]. reflexivity.
Qed.

(** The register of the drive number also takes the last four bits. *)
Lemma dev_register (h : Z) : 0 <= h < 16 -> Z.testbit (u8 (Z.lor h 0xE0)) 6 = true /\ Z.land (u8 (Z.lor h 0xE0)) 0x0f = h /\ Z.land (Z.shiftr (u8 (Z.lor h 0xE0)) 4) 1 = 0.
Proof.
  intros H. set (dev h := u8 (Z.lor h 0xE0)).
  assert (C : forallb (fun j => Z.testbit (dev (Z.of_nat j)) 6 && (Z.land (dev (Z.of_nat j)) 0x0f =? Z.of_nat j) && (Z.land (Z.shiftr (dev (Z.of_nat j)) 4) 1 =? 0)) (seq 0 16) = true) by reflexivity.
  rewrite forallb_forall in C. specialize (C (Z.to_nat h) ltac:(apply in_seq; lia)). rewrite Z2Nat.id in C by lia. rewrite !andb_true_iff, !Z.eqb_eq in C. tauto.
Qed.

(** The accesses by which [readsect] names sector [k]. *)
Definition boot_select (k : Z) : list ioev :=
  [Outb 0x1F2 1; Outb 0x1F3 (u8 k); Outb 0x1F4 (u8 (Z.shiftr k 8)); Outb 0x1F5 (u8 (Z.shiftr k 16)); Outb 0x1F6 (u8 (Z.lor (Z.shiftr k 24) 0xE0))].

Lemma boot_select_addr (k : Z) (d : drive) : 0 <= k < 2 ^ 28 -> d_addr (drive_run d (boot_select k)) = Some (0, k).
Proof.
  intros Hk. assert (Hh : 0 <= Z.shiftr k 24 < 16) by (rewrite Z.shiftr_div_pow2 by lia; split; [apply Z.div_pos|apply Z.div_lt_upper_bound]; lia).
  destruct (dev_register _ Hh) as (H0 & H1 & H2).
  transitivity (if Z.testbit (u8 (Z.lor (Z.shiftr k 24) 0xE0)) 6 then
    Some (Z.land (Z.shiftr (u8 (Z.lor (Z.shiftr k 24) 0xE0)) 4) 1, u8 k + 256 * u8 (Z.shiftr k 8) + 65536 * u8 (Z.shiftr k 16) + 16777216 * Z.land (u8 (Z.lor (Z.shiftr k 24) 0xE0)) 0x0f) else None); [reflexivity|].
  rewrite H0, H1, H2. apply f_equal, f_equal2; [reflexivity|]. rewrite !Z.shiftr_div_pow2 by lia. unfold u8. change (2 ^ 8) with 256. change (2 ^ 16) with 65536. change (2 ^ 24) with 16777216.
  change (2 ^ 28) with 268435456 in Hk. Z.div_mod_to_equations. lia.
Qed.

Lemma longs_app (data r : list Z) : length data = 512%nat -> longs data ++ r = map (fun j => get32 data (4 * Z.of_nat j)) (seq 0 128) ++ r.
Proof. intros H. unfold longs. rewrite H. reflexivity. Qed.

(** [readsect] selects the sector, has a drive that is not held in reset fetch it,
    and stores it. *)
Lemma readsect_run (img : list Z) (dst k : Z) (m : gmap Z Z) (r : list Z) (s : io) : 0 <= k < 2 ^ 28 -> Forall is_byte (sect img k) -> length (sect img k) = 512%nat ->
  io_in s = 0x40 :: 0x40 :: longs (sect img k) ++ r ->
  exists ev, readsect dst k m s = Done (wr_list dst (sect img k) m) (say ev (s <| io_in := r |>)) /\
    forall d, d_ctl d = 0 -> d_addr (drive_run d ev) = Some (0, k) /\ d_out (drive_run d ev) = default zero_block (d_disk d !! (0, k)).
Proof.
  intros Hk Hb Hl Hi. destruct (waitdisk_ready s _ Hi) as (e1 & E1 & D1). unfold readsect. rewrite (bind_Done _ _ _ _ _ E1), !(bind_Done _ _ _ _ _ (outb_say _ _ _)).
  set (s2 := say _ _). destruct (waitdisk_ready s2 (longs (sect img k) ++ r) ltac:(destruct s; reflexivity)) as (e2 & E2 & D2). rewrite (bind_Done _ _ _ _ _ E2).
  destruct (insl_run 0x1F0 (sect img k) r 128 0 (say e2 (s2 <| io_in := longs (sect img k) ++ r |>)) Hb Hl) as (e3 & E3 & D3); [rewrite <- longs_app by exact Hl; destruct s; reflexivity|].
  exists (e1 ++ (boot_select k ++ [Outb 0x1F7 IDE_CMD_READ]) ++ e2 ++ e3). split.
  { change (Z.to_nat (SECTSIZE / 4)) with 128%nat. rewrite (bind_Done _ _ _ _ _ E3). rewrite drop_0. unfold mret, M_ret. apply f_equal.
    transitivity (say e3 (say e2 (s2 <| io_in := r |>))); [destruct s; reflexivity|]. unfold s2. rewrite !say_say.
    destruct s; unfold say; cbn. f_equal. rewrite <- !app_assoc. reflexivity. }
  intros d Hd. unfold drive_run in D1, D2, D3 |- *. rewrite !foldl_app, D3, D2, D1.
  destruct (drive_reads (0, k) (drive_run d (boot_select k)) (boot_select_addr k d Hk) eq_refl Hd) as (R1 & _ & _ & _ & R5). split; [exact R1|exact R5].
Qed.

Lemma wr_list_app (a b : list Z) (p : Z) (m : gmap Z Z) : wr_list p (a ++ b) m = wr_list (p + Z.of_nat (length a)) b (wr_list p a m).
Proof.
  revert p m. induction a as [|x a IH]; intros p m; cbn [wr_list app length]; [rewrite Z.add_0_r; reflexivity|]. rewrite IH. f_equal. lia.
Qed.

Lemma readseg_loop_run (img : list Z) (r : list Z) (epa : Z) : Forall is_byte img -> forall (n f : nat) (pa k : Z) (m : gmap Z Z) (s : io),
  0 <= pa -> 1 <= k -> k + Z.of_nat n < 2 ^ 28 -> SECTSIZE * (k - 1 + Z.of_nat n) <= Z.of_nat (length img) ->
  epa <= pa + SECTSIZE * Z.of_nat n < 2 ^ 32 -> pa + SECTSIZE * Z.of_nat n < epa + SECTSIZE -> (n < f)%nat -> io_in s = reads img k n ++ r ->
  exists s', readseg_loop f pa epa k m s = Done (wr_list pa (slice img (SECTSIZE * (k - 1)) (SECTSIZE * Z.of_nat n)) m) s' /\ io_in s' = r.
Proof.
  intros Hb. unfold SECTSIZE. induction n as [|n IH]; intros f pa k m s Hp Hk Hn Hl He He' Hf Hi; (destruct f as [|f]; [lia|]); cbn [readseg_loop].
  - rewrite (proj2 (Z.ltb_ge _ _)) by lia. exists s. split; [reflexivity|exact Hi].
  - rewrite (proj2 (Z.ltb_lt _ _)) by lia. cbn [negb].
    assert (Hs : length (sect img k) = 512%nat) by (unfold sect, SECTSIZE; rewrite length_slice; lia).
    assert (Hr : reads img k (S n) = 0x40 :: 0x40 :: longs (sect img k) ++ reads img (k + 1) n).
    { unfold reads. cbn [seq flat_map]. rewrite Z.add_0_r, <- seq_shift, flat_map_concat_map, map_map, <- flat_map_concat_map. cbn [app]. do 3 f_equal.
      apply flat_map_ext. intros j. do 4 f_equal. lia. }
    rewrite Hr in Hi. cbn [app] in Hi. rewrite <- app_assoc in Hi.
    destruct (readsect_run img pa k m _ s ltac:(lia) ltac:(apply Forall_take, Forall_drop, Hb) Hs Hi) as (ev & E & _). rewrite (bind_Done _ _ _ _ _ E).
    change SECTSIZE with 512. rewrite !u32_small by lia. destruct (IH f (pa + 512) (k + 1) (wr_list pa (sect img k) m) (say ev (s <| io_in := reads img (k + 1) n ++ r |>))) as (s' & E' & Hr'); try lia; [destruct s; reflexivity|].
    exists s'. split; [|exact Hr']. rewrite E'. f_equal. replace (pa + 512) with (pa + Z.of_nat (length (sect img k))) by lia. rewrite <- wr_list_app. f_equal.
    unfold sect, slice, SECTSIZE. replace (Z.to_nat (512 * Z.of_nat (S n))) with (Z.to_nat 512 + Z.to_nat (512 * Z.of_nat n))%nat by lia.
    replace (Z.to_nat (512 * (k + 1 - 1))) with (Z.to_nat (512 * (k - 1)) + Z.to_nat 512)%nat by lia. rewrite <- drop_drop. apply take_take_drop.
Qed.

(** [readseg] puts the bytes of the image where they belong, and writes no more
    than the sectors they lie in. *)
Lemma readseg_loads (img : list Z) (pa count offset : Z) (n : nat) (m : gmap Z Z) (r : list Z) (s : io) : Forall is_byte img ->
  0 <= offset -> 0 <= count -> offset mod SECTSIZE <= pa -> pa + count + SECTSIZE < 2 ^ 32 ->
  Z.of_nat n = (offset mod SECTSIZE + count + SECTSIZE - 1) / SECTSIZE -> SECTSIZE * (offset / SECTSIZE + Z.of_nat n) <= Z.of_nat (length img) ->
  offset / SECTSIZE + 1 + Z.of_nat n < 2 ^ 28 -> io_in s = reads img (offset / SECTSIZE + 1) n ++ r ->
  exists m' s', readseg pa count offset m s = Done m' s' /\ io_in s' = r /\
    (forall i, 0 <= i < count -> rd m' (pa + i) = byte_at img (offset + i)) /\
    (forall a, a < pa - offset mod SECTSIZE \/ pa + count + SECTSIZE <= a -> rd m' a = rd m a).
Proof.
  unfold SECTSIZE. intros Hb Ho Hc Hp Hm Hn Hl Hk Hi. unfold readseg, SECTSIZE. cbv zeta.
  assert (Hq : 0 <= offset / 512 /\ offset = 512 * (offset / 512) + offset mod 512 /\ 0 <= offset mod 512 < 512) by (Z.div_mod_to_equations; lia).
  assert (Hn' : offset mod 512 + count <= 512 * Z.of_nat n < offset mod 512 + count + 512) by (rewrite Hn; Z.div_mod_to_equations; lia).
  rewrite !u32_small by lia.
  destruct (readseg_loop_run img r (pa + count) Hb n (S (S (Z.to_nat ((pa + count) / 512)))) (pa - offset mod 512) (offset / 512 + 1) m s) as (s' & E & Hr);
    unfold SECTSIZE; try lia; [Z.div_mod_to_equations; lia|exact Hi|].
  eexists _, s'. split; [exact E|]. split; [exact Hr|]. unfold SECTSIZE.
  assert (Ls : length (slice img (512 * (offset / 512 + 1 - 1)) (512 * Z.of_nat n)) = (512 * n)%nat) by (rewrite length_slice by lia; lia).
  split; intros i Hi'; rewrite rd_wr_list, Ls; [|apply decide_False; lia].
  rewrite decide_True by lia. unfold byte_at, slice. rewrite lookup_take_lt, lookup_drop by lia. do 2 f_equal. lia.
Qed.
