(* ===== verification/Segments.v ===== *)
(** * Segment and gate descriptors: mmu.h, seginit of vm.c, tvinit of trap.c

    The processor checks privileges with these tables.  [seg_base], [seg_limit]
    and [gate_target] read a descriptor the way the processor does; the lemmas
    show that the segments are flat, and that a user program can enter the
    kernel by no gate but that of system calls. *)

From S2P Require Import Prelude Params Bytes Kernel Print Sleep Ide Syscall Devices.

Record segdesc : Type := mk_segdesc {
  lim_15_0 : Z;
  base_15_0 : Z;
  base_23_16 : Z;
  sd_type : Z;
  sd_s : Z;
  sd_dpl : Z;
  sd_p : Z;
  lim_19_16 : Z;
  avl : Z;
  sd_rsv1 : Z;
  db : Z;
  sd_g : Z;
  base_31_24 : Z
}.
#[export] Instance segdesc_eta : Eta segdesc := fun r =>
  mk_segdesc (lim_15_0 r) (base_15_0 r) (base_23_16 r) (sd_type r) (sd_s r) (sd_dpl r) (sd_p r) (lim_19_16 r) (avl r) (sd_rsv1 r) (db r) (sd_g r) (base_31_24 r).

Definition SEG (type base lim dpl : Z) : segdesc :=
  mk_segdesc (Z.land (Z.shiftr lim 12) 0xffff) (Z.land (u32 base) 0xffff) (Z.land (Z.shiftr (u32 base) 16) 0xff) type 1 dpl 1
    (Z.shiftr (u32 lim) 28) 0 0 1 1 (Z.shiftr (u32 base) 24).

Definition SEG16 (type base lim dpl : Z) : segdesc :=
  mk_segdesc (Z.land lim 0xffff) (Z.land (u32 base) 0xffff) (Z.land (Z.shiftr (u32 base) 16) 0xff) type 1 dpl 1
    (Z.shiftr (u32 lim) 16) 0 0 1 0 (Z.shiftr (u32 base) 24).

Definition STA_X : Z := 0x8.
Definition STA_W : Z := 0x2.
Definition STA_R : Z := 0x2.
Definition STS_T32A : Z := 0x9.
Definition STS_IG32 : Z := 0xE.
Definition STS_TG32 : Z := 0xF.
Definition SEG_KCODE : Z := 1.
Definition SEG_TSS : Z := 5.
Definition NSEGS : nat := 6.

Definition segdesc0 : segdesc := mk_segdesc 0 0 0 0 0 0 0 0 0 0 0 0 0.

(** The table of one processor; [lgdt] tells the processor where it is. *)
Definition seginit (gdt : list segdesc) : list segdesc :=
  let gdt := <[Z.to_nat SEG_KCODE := SEG (Z.lor STA_X STA_R) 0 0xffffffff 0]> gdt in
  let gdt := <[Z.to_nat SEG_KDATA := SEG STA_W 0 0xffffffff 0]> gdt in
  let gdt := <[Z.to_nat SEG_UCODE := SEG (Z.lor STA_X STA_R) 0 0xffffffff DPL_USER]> gdt in
  <[Z.to_nat SEG_UDATA := SEG STA_W 0 0xffffffff DPL_USER]> gdt.

Definition taskstate : layout :=
  [("link", 4); ("esp0", 4); ("ss0", 2); ("padding1", 2); ("esp1", 4); ("ss1", 2); ("padding2", 2); ("esp2", 4);
   ("ss2", 2); ("padding3", 2); ("cr3", 4); ("eip", 4); ("eflags", 4); ("eax", 4); ("ecx", 4); ("edx", 4);
   ("ebx", 4); ("esp", 4); ("ebp", 4); ("esi", 4); ("edi", 4); ("es", 2); ("padding4", 2); ("cs", 2);
   ("padding5", 2); ("ss", 2); ("padding6", 2); ("ds", 2); ("padding7", 2); ("fs", 2); ("padding8", 2); ("gs", 2);
   ("padding9", 2); ("ldt", 2); ("padding10", 2); ("t", 2); ("iomb", 2)].

(** What [switchuvm] does to the table; [ts] is the address of the task state. *)
Definition set_tss (ts : Z) (gdt : list segdesc) : list segdesc :=
  <[Z.to_nat SEG_TSS := SEG16 STS_T32A ts (sizeof taskstate - 1) 0 <| sd_s := 0 |>]> gdt.

(** What it does to the task state: the kernel stack, and no access to ports. *)
Definition set_ts (kstack : Z) (ts : list Z) : list Z :=
  let ts := put16 ts (offsetof taskstate "ss0") (Z.shiftl SEG_KDATA 3) in
  let ts := put32 ts (offsetof taskstate "esp0") (u32 (kstack + KSTACKSIZE)) in
  put16 ts (offsetof taskstate "iomb") 0xFFFF.

Record gatedesc : Type := mk_gatedesc {
  off_15_0 : Z;
  gd_cs : Z;
  gd_args : Z;
  gd_rsv1 : Z;
  gd_type : Z;
  gd_s : Z;
  gd_dpl : Z;
  gd_p : Z;
  off_31_16 : Z
}.

Definition SETGATE (istrap : bool) (sel off d : Z) : gatedesc :=
  mk_gatedesc (Z.land (u32 off) 0xffff) sel 0 0 (if istrap then STS_TG32 else STS_IG32) 0 d 1 (Z.shiftr (u32 off) 16).

(** [vectors] is the table of entry points that vectors.pl generates. *)
Definition tvinit (vectors : Z -> Z) : list gatedesc :=
  let idt := map (fun i => SETGATE false (Z.shiftl SEG_KCODE 3) (vectors (Z.of_nat i)) 0) (seq 0 256) in
  <[Z.to_nat T_SYSCALL := SETGATE true (Z.shiftl SEG_KCODE 3) (vectors T_SYSCALL) DPL_USER]> idt.

(** ** How the processor reads them *)

Definition seg_base (d : segdesc) : Z := base_15_0 d + 2 ^ 16 * base_23_16 d + 2 ^ 24 * base_31_24 d.

(** The last offset in the segment. *)
Definition seg_limit (d : segdesc) : Z :=
  let l := lim_15_0 d + 2 ^ 16 * lim_19_16 d in
  if sd_g d =? 1 then l * 4096 + 4095 else l.

Definition gate_target (g : gatedesc) : Z := off_15_0 g + 2 ^ 16 * off_31_16 g.

(** A descriptor gives back the base and, in units of pages, the limit. *)
Lemma SEG_reads_back (type base lim dpl : Z) : 0 <= base < 2 ^ 32 -> 0 <= lim < 2 ^ 32 -> lim mod 4096 = 4095 ->
  seg_base (SEG type base lim dpl) = base /\ seg_limit (SEG type base lim dpl) = lim.
Proof.
  intros Hb Hl Hm. unfold seg_base, seg_limit, SEG. cbn [base_15_0 base_23_16 base_31_24 lim_15_0 lim_19_16 sd_g]. rewrite Z.eqb_refl. cbv zeta iota. rewrite !u32_small by assumption.
  change 0xffff with (Z.ones 16). change 0xff with (Z.ones 8). rewrite !Z.land_ones, !Z.shiftr_div_pow2 by lia.
  change (2 ^ 12) with 4096. change (2 ^ 16) with 65536. change (2 ^ 8) with 256. change (2 ^ 24) with 16777216. change (2 ^ 28) with 268435456. split; [Z.div_mod_to_equations; lia|].
  Z.div_mod_to_equations. lia.
Qed.

(** The segments of [seginit] are flat: they cover the whole address space; the
    kernel's have privilege level 0, the user's 3. *)
Lemma seginit_flat (gdt : list segdesc) (i : Z) : length gdt = NSEGS -> 1 <= i <= 4 ->
  exists d, seginit gdt !! Z.to_nat i = Some d /\ seg_base d = 0 /\ seg_limit d = 2 ^ 32 - 1 /\ sd_dpl d = if i <=? 2 then 0 else 3.
Proof.
  intros Hl Hi. destruct gdt as [|g0 [|g1 [|g2 [|g3 [|g4 [|g5 [|] ] ] ] ] ] ]; try discriminate Hl.
  assert (i = 1 \/ i = 2 \/ i = 3 \/ i = 4) as [->|[->|[->| ->] ] ] by lia; (eexists; split; [reflexivity|vm_compute; auto]).
Qed.

Lemma gate_reads_back (istrap : bool) (sel off d : Z) : 0 <= off < 2 ^ 32 -> gate_target (SETGATE istrap sel off d) = off.
Proof.
  intros H. unfold gate_target, SETGATE. cbn [off_15_0 off_31_16]. rewrite !u32_small by exact H. change 0xffff with (Z.ones 16).
  rewrite Z.land_ones, Z.shiftr_div_pow2 by lia. change (2 ^ 16) with 65536. Z.div_mod_to_equations. lia.
Qed.

(** Every gate leads to its vector in the kernel's code segment; only the gate
    of system calls may be used by an instruction of a user program, and it
    alone leaves interrupts on. *)
Lemma tvinit_gates (vectors : Z -> Z) (i : Z) : (forall k, 0 <= k < 256 -> 0 <= vectors k < 2 ^ 32) -> 0 <= i < 256 ->
  exists g, tvinit vectors !! Z.to_nat i = Some g /\ gate_target g = vectors i /\ gd_cs g = 8 /\ gd_p g = 1 /\
    (gd_dpl g = 3 <-> i = T_SYSCALL) /\ (gd_type g = STS_TG32 <-> i = T_SYSCALL).
Proof.
  intros Hv Hi. unfold tvinit. destruct (decide (i = T_SYSCALL)) as [->|Hne].
  - eexists. split; [apply list_lookup_insert_eq; rewrite length_map, length_seq; vm_compute; lia|]. split_and!; [apply gate_reads_back, Hv, Hi|reflexivity|reflexivity|split; reflexivity..].
  - eexists. split.
    + rewrite list_lookup_insert_ne by (intros E; apply Z2Nat.inj in E; unfold T_SYSCALL in *; lia). rewrite list_lookup_fmap, lookup_seq_lt by lia. reflexivity.
    + rewrite Nat.add_0_l, Z2Nat.id by lia. split_and!; [apply gate_reads_back, Hv, Hi|reflexivity|reflexivity|split; [discriminate|congruence]..].
Qed.

(** After [switchuvm] the map of permitted ports would begin beyond the limit of
    the task-state segment, so user programs cannot use ports; a trap from user
    mode takes the stack of the process. *)
Lemma set_ts_no_ports (kstack tsa : Z) (ts : list Z) (gdt : list segdesc) : Z.of_nat (length ts) = sizeof taskstate -> length gdt = NSEGS ->
  0 <= kstack -> kstack + KSTACKSIZE < 2 ^ 32 ->
  exists d, set_tss tsa gdt !! Z.to_nat SEG_TSS = Some d /\ seg_limit d < get16 (set_ts kstack ts) (offsetof taskstate "iomb") /\
    get32 (set_ts kstack ts) (offsetof taskstate "esp0") = kstack + KSTACKSIZE.
Proof.
  unfold KSTACKSIZE in *. intros Ht Hg Hk Hs. change (sizeof taskstate) with 104 in Ht. eexists. split; [apply list_lookup_insert_eq; rewrite Hg; vm_compute; lia|]. unfold set_ts, KSTACKSIZE in *.
  change (offsetof taskstate "iomb") with 102. change (offsetof taskstate "esp0") with 4. change (offsetof taskstate "ss0") with 8.
  set (a := put16 ts 8 _). assert (La : length a = length ts) by (apply length_splice; cbn; lia).
  set (b := put32 a 4 _). assert (Lb : length b = length a) by (apply length_put32; lia). split.
  - rewrite get_put16_same by lia. vm_compute. reflexivity.
  - assert (E : get32 (put16 b 102 0xFFFF) 4 = get32 b 4).
    { unfold get32, put16. rewrite !splice_byte by (cbn; lia). rewrite !decide_False by (cbn; lia). reflexivity. }
    rewrite E. unfold b. rewrite get_put32_same by lia. rewrite !u32_small by (rewrite ?u32_small; lia). reflexivity.
Qed.
