(* ===== verification/Asm.v ===== *)
(** * The assembly between C functions: swtch.S, trapasm.S, vectors.pl, usys.S, initcode.S

    The instructions these files use, on the registers and the memory of one
    processor.  A run of instructions ends at the first one that leaves the
    sequence; the C function called from [alltraps] is not part of it.  The
    files that switch the processor's mode (bootasm.S, entry.S, entryother.S)
    are not covered. *)

From S2P Require Import Prelude Params Bytes CString Kernel Kalloc Fs File Syscall Segments.

(** ** The machine *)

Inductive reg : Type := EAX | ECX | EDX | EBX | ESP | EBP | ESI | EDI.
Inductive sreg : Type := DS | ES | FS | GS.

Record gregs : Type := mk_gregs { r_eax : Z; r_ecx : Z; r_edx : Z; r_ebx : Z; r_esp : Z; r_ebp : Z; r_esi : Z; r_edi : Z }.
Record sregs : Type := mk_sregs { s_ds : Z; s_es : Z; s_fs : Z; s_gs : Z }.

#[export] Instance gregs_eta : Eta gregs := fun r => mk_gregs (r_eax r) (r_ecx r) (r_edx r) (r_ebx r) (r_esp r) (r_ebp r) (r_esi r) (r_edi r).
#[export] Instance sregs_eta : Eta sregs := fun r => mk_sregs (s_ds r) (s_es r) (s_fs r) (s_gs r).

Record mach : Type := mk_mach { m_regs : gregs; m_segs : sregs; m_cs : Z; m_ss : Z; m_eflags : Z; m_eip : Z; m_mem : gmap Z Z }.

#[export] Instance mach_eta : Eta mach := fun r => mk_mach (m_regs r) (m_segs r) (m_cs r) (m_ss r) (m_eflags r) (m_eip r) (m_mem r).

Definition get_reg (r : reg) (g : gregs) : Z :=
  match r with
  | EAX => r_eax g | ECX => r_ecx g | EDX => r_edx g | EBX => r_ebx g
  | ESP => r_esp g | EBP => r_ebp g | ESI => r_esi g | EDI => r_edi g
  end.

Definition set_reg (r : reg) (v : Z) (g : gregs) : gregs :=
  match r with
  | EAX => g <| r_eax := v |> | ECX => g <| r_ecx := v |> | EDX => g <| r_edx := v |> | EBX => g <| r_ebx := v |>
  | ESP => g <| r_esp := v |> | EBP => g <| r_ebp := v |> | ESI => g <| r_esi := v |> | EDI => g <| r_edi := v |>
  end.

Definition get_sreg (r : sreg) (g : sregs) : Z := match r with DS => s_ds g | ES => s_es g | FS => s_fs g | GS => s_gs g end.

Definition set_sreg (r : sreg) (v : Z) (g : sregs) : sregs :=
  match r with DS => g <| s_ds := v |> | ES => g <| s_es := v |> | FS => g <| s_fs := v |> | GS => g <| s_gs := v |> end.

(** A store of half a word. *)
Definition wr16 (a v : Z) (m : gmap Z Z) : gmap Z Z := wr_list a (le16 v) m.

(** The instructions, operands in the order of the source: from, to. *)
Inductive instr : Type :=
| MovLoad (disp : Z) (base d : reg)
| MovStore (s : reg) (base : reg)
| MovReg (s d : reg)
| MovImm (i : Z) (d : reg)
| MovImm16 (i : Z) (d : reg)
| MovSeg (s : reg) (d : sreg)
| Push (s : reg)
| PushImm (i : Z)
| PushSeg (s : sreg)
| Pusha
| Pop (d : reg)
| PopSeg (d : sreg)
| Popa
| AddImm (i : Z) (d : reg)
| Ret
| Iret.

Definition esp_of (m : mach) : Z := r_esp (m_regs m).
Definition with_reg (r : reg) (v : Z) (m : mach) : mach := m <| m_regs ::= set_reg r v |>.

Definition push (v : Z) (m : mach) : mach :=
  let a := u32 (esp_of m - 4) in with_reg ESP a m <| m_mem ::= wr32 a v |>.

(** A segment register takes a whole word of the stack, but only its low half
    is written. *)
Definition push_seg (v : Z) (m : mach) : mach :=
  let a := u32 (esp_of m - 4) in with_reg ESP a m <| m_mem ::= wr16 a v |>.

Definition popped (m : mach) : mach := with_reg ESP (u32 (esp_of m + 4)) m.
Definition pop_to (d : reg) (m : mach) : mach := with_reg d (rd32 (m_mem m) (esp_of m)) (popped m).

Definition exec_instr (i : instr) (m : mach) : mach :=
  let g := m_regs m in
  match i with
  | MovLoad disp base d => with_reg d (rd32 (m_mem m) (u32 (get_reg base g + disp))) m
  | MovStore s base => m <| m_mem ::= wr32 (get_reg base g) (get_reg s g) |>
  | MovReg s d => with_reg d (get_reg s g) m
  | MovImm v d => with_reg d v m
  | MovImm16 v d => with_reg d (get_reg d g - u16 (get_reg d g) + u16 v) m
  | MovSeg s d => m <| m_segs ::= set_sreg d (u16 (get_reg s g)) |>
  | Push s => push (get_reg s g) m
  | PushImm v => push v m
  | PushSeg s => push_seg (get_sreg s (m_segs m)) m
  | Pusha => push (r_edi g) (push (r_esi g) (push (r_ebp g) (push (r_esp g) (push (r_ebx g) (push (r_edx g) (push (r_ecx g) (push (r_eax g) m)))))))
  | Pop d => pop_to d m
  | PopSeg d => popped m <| m_segs ::= set_sreg d (rd16 (m_mem m) (esp_of m)) |>
  | Popa => pop_to EAX (pop_to ECX (pop_to EDX (pop_to EBX (popped (pop_to EBP (pop_to ESI (pop_to EDI m)))))))
  | AddImm v d => with_reg d (u32 (get_reg d g + v)) m
  | Ret => popped m <| m_eip := rd32 (m_mem m) (esp_of m) |>
  | Iret =>
      (* to a less privileged level: the stack pointer is on the stack too *)
      let a := esp_of m in
      let at' k := rd32 (m_mem m) (u32 (a + k)) in
      with_reg ESP (at' 12) m <| m_eip := at' 0 |> <| m_cs := u16 (at' 4) |> <| m_eflags := at' 8 |> <| m_ss := u16 (at' 16) |>
  end.

Definition run (p : list instr) (m : mach) : mach := fold_left (fun m i => exec_instr i m) p m.

(** ** The code *)

Definition swtch : list instr :=
  [ MovLoad 4 ESP EAX; MovLoad 8 ESP EDX;
    Push EBP; Push EBX; Push ESI; Push EDI;
    MovStore ESP EAX; MovReg EDX ESP;
    Pop EDI; Pop ESI; Pop EBX; Pop EBP; Ret ].

(** Up to the call of [trap], whose argument is on the stack then. *)
Definition alltraps : list instr :=
  [ PushSeg DS; PushSeg ES; PushSeg FS; PushSeg GS; Pusha;
    MovImm16 (Z.shiftl SEG_KDATA 3) EAX; MovSeg EAX DS; MovSeg EAX ES;
    Push ESP ].

(** What follows the call falls through to [trapret]. *)
Definition alltraps_end : list instr := [ AddImm 4 ESP ].

Definition trapret : list instr :=
  [ Popa; PopSeg GS; PopSeg FS; PopSeg ES; PopSeg DS; AddImm 8 ESP; Iret ].

(** The traps for which vectors.pl expects an error code from the processor. *)
Definition has_error_code (i : Z) : bool := (i =? 8) || ((10 <=? i) && (i <=? 14)) || (i =? 17).

(** Entry point [i] of vectors.S, up to its jump to [alltraps]. *)
Definition vector (i : Z) : list instr :=
  (if has_error_code i then [] else [ PushImm 0 ]) ++ [ PushImm i ].

(** [initcode] up to the system call, for the addresses of its strings, and the
    body of its last loop. *)
Definition initcode (init argv : Z) : list instr := [ PushImm argv; PushImm init; PushImm 0; MovImm 7 EAX ].
Definition initcode_exit : list instr := [ MovImm 2 EAX ].

(** The stubs of usys.S: the number in [eax], then the trap. *)
Definition SYSCALL (n : Z) : list instr := [ MovImm n EAX ].

Definition usys : list (string * Z) :=
  [ ("fork", 1); ("exit", 2); ("wait", 3); ("pipe", 4); ("read", 5); ("write", 16); ("close", 21); ("kill", 6); ("exec", 7);
    ("open", 15); ("mknod", 17); ("unlink", 18); ("fstat", 8); ("link", 19); ("mkdir", 20); ("chdir", 9); ("dup", 10);
    ("getpid", 11); ("sbrk", 12); ("sleep", 13); ("uptime", 14); ("myfunction", 22); ("getppid", 23); ("yield", 24);
    ("set_cpu_share", 25); ("getlev", 26); ("thread_create", 27); ("thread_exit", 28); ("thread_join", 29); ("pwrite", 30); ("pread", 31) ]%string.

(** The exceptions with an error code, by the manual of the processor: double
    fault, invalid task state, segment not present, stack fault, general
    protection, page fault, alignment check. *)
Definition error_traps : list Z := [8; 10; 11; 12; 13; 14; 17].

(** What the processor does at a trap from user mode: it takes the kernel stack
    [esp0] and selector [ss0] from the task state, saves where it was, and goes
    on with the flags [fl] at the entry the gate gives. *)
Definition trap_enter (esp0 ss0 cs entry fl : Z) (err : option Z) (m : mach) : mach :=
  let k := push (m_eip m) (push (m_cs m) (push (m_eflags m) (push (esp_of m) (push (m_ss m) (with_reg ESP esp0 m <| m_ss := ss0 |>))))) in
  (match err with Some e => push e k | None => k end) <| m_cs := cs |> <| m_eip := entry |> <| m_eflags := fl |>.

(** ** Structures in memory *)

(** [struct context] and [struct trapframe] at address [a]. *)
Definition context_at (m : gmap Z Z) (a : Z) : context :=
  mk_context (rd32 m a) (rd32 m (a + 4)) (rd32 m (a + 8)) (rd32 m (a + 12)) (rd32 m (a + 16)).

Definition trapframe_at (m : gmap Z Z) (a : Z) : trapframe :=
  mk_trapframe (rd32 m a) (rd32 m (a + 4)) (rd32 m (a + 8)) (rd32 m (a + 12))
    (rd32 m (a + 16)) (rd32 m (a + 20)) (rd32 m (a + 24)) (rd32 m (a + 28))
    (rd16 m (a + 32)) (rd16 m (a + 36)) (rd16 m (a + 40)) (rd16 m (a + 44))
    (rd32 m (a + 48)) (rd32 m (a + 52)) (rd32 m (a + 56)) (rd16 m (a + 60)) (rd32 m (a + 64))
    (rd32 m (a + 68)) (rd16 m (a + 72)).

(** ** Symbolic execution *)

Lemma rd16_wr16_same (m : gmap Z Z) (a v : Z) : rd16 (wr16 a v m) a = u16 v.
Proof.
  unfold rd16, wr16. rewrite !rd_wr_list. rewrite !decide_True by (cbn; lia). replace (a - a) with 0 by lia. replace (a + 1 - a) with 1 by lia. apply le16_sum.
Qed.

Lemma rd16_wr32_same (m : gmap Z Z) (a v : Z) : rd16 (wr32 a v m) a = u16 v.
Proof.
  unfold rd16, wr32. rewrite !rd_wr_list. rewrite !decide_True by (cbn; lia). replace (a - a) with 0 by lia. replace (a + 1 - a) with 1 by lia.
  rewrite <- le16_sum. reflexivity.
Qed.

Lemma rd16_wr16_other (m : gmap Z Z) (a b v : Z) : b + 2 <= a \/ a + 2 <= b -> rd16 (wr16 a v m) b = rd16 m b.
Proof. intros H. unfold rd16, wr16. rewrite !rd_wr_list. rewrite !decide_False by (cbn; lia). reflexivity. Qed.

Lemma rd16_wr32_other (m : gmap Z Z) (a b v : Z) : b + 2 <= a \/ a + 4 <= b -> rd16 (wr32 a v m) b = rd16 m b.
Proof. intros H. unfold rd16, wr32. rewrite !rd_wr_list. rewrite !decide_False by (cbn; lia). reflexivity. Qed.

Lemma rd32_wr16_other (m : gmap Z Z) (a b v : Z) : b + 4 <= a \/ a + 2 <= b -> rd32 (wr16 a v m) b = rd32 m b.
Proof. intros H. unfold rd32, wr16. rewrite !rd_wr_list. rewrite !decide_False by (cbn; lia). reflexivity. Qed.

Lemma rd_wr16_other (m : gmap Z Z) (a b v : Z) : b < a \/ a + 2 <= b -> rd (wr16 a v m) b = rd m b.
Proof. intros H. unfold wr16. rewrite rd_wr_list, decide_False by (cbn; lia). reflexivity. Qed.

#[global] Arguments rd16 : simpl never.
#[global] Arguments wr16 : simpl never.

Ltac addr_simpl := repeat match goal with |- context [u32 ?x] => lazymatch x with context [u32 _] => fail | _ => rewrite (u32_small x) by lia end end.

(** Offsets of the stack pointer in the form [x], [x - c] or [x + c]. *)
Ltac off_norm := repeat match goal with
  | |- context [?x - Zpos ?a - Zpos ?b] => let c := eval cbv in (Zpos a + Zpos b) in replace (x - Zpos a - Zpos b) with (x - c) by lia
  | |- context [?x + Zpos ?a + Zpos ?b] => let c := eval cbv in (Zpos a + Zpos b) in replace (x + Zpos a + Zpos b) with (x + c) by lia
  | |- context [?x - Zpos ?a + Zpos ?b] =>
      let c := eval cbv in (Zpos b - Zpos a) in
      lazymatch c with
      | 0 => replace (x - Zpos a + Zpos b) with x by lia
      | Zpos _ => replace (x - Zpos a + Zpos b) with (x + c) by lia
      | _ => let c := eval cbv in (Zpos a - Zpos b) in replace (x - Zpos a + Zpos b) with (x - c) by lia
      end
  end.

(** Reads past writes at other addresses, down to the write at the address. *)
Ltac mem_simpl := repeat match goal with
  | |- context [rd32 (wr32 ?a ?v ?m) ?a] => rewrite (rd32_wr32_same m a v)
  | |- context [rd16 (wr16 ?a ?v ?m) ?a] => rewrite (rd16_wr16_same m a v)
  | |- context [rd16 (wr32 ?a ?v ?m) ?a] => rewrite (rd16_wr32_same m a v)
  | |- context [rd32 (wr32 ?a ?v ?m) ?b] => rewrite (rd32_wr32_other m a b v) by lia
  | |- context [rd32 (wr16 ?a ?v ?m) ?b] => rewrite (rd32_wr16_other m a b v) by lia
  | |- context [rd16 (wr32 ?a ?v ?m) ?b] => rewrite (rd16_wr32_other m a b v) by lia
  | |- context [rd16 (wr16 ?a ?v ?m) ?b] => rewrite (rd16_wr16_other m a b v) by lia
  | |- context [rd (wr32 ?a ?v ?m) ?b] => rewrite (rd_wr32_other m a b v) by lia
  | |- context [rd (wr16 ?a ?v ?m) ?b] => rewrite (rd_wr16_other m a b v) by lia
  end.

Definition word (v : Z) : Prop := 0 <= v < 2 ^ 32.
Definition half (v : Z) : Prop := 0 <= v < 2 ^ 16.

Lemma u16_small (v : Z) : half v -> u16 v = v.
Proof. intros H. unfold u16. apply Z.mod_small. exact H. Qed.

(** ** swtch *)

(** A call of [swtch]: the return address and the two arguments are on the
    stack; the saved registers, the word at [old] and the new context do not
    overlap. *)
Record swtch_call (m : mach) (sp old new : Z) : Prop := {
  sc_esp : esp_of m = sp;
  sc_old : rd32 (m_mem m) (sp + 4) = old;
  sc_new : rd32 (m_mem m) (sp + 8) = new;
  sc_range : 16 <= sp /\ sp + 12 <= 2 ^ 32 /\ 0 <= new /\ new + 20 < 2 ^ 32;
  sc_regs : word (r_edi (m_regs m)) /\ word (r_esi (m_regs m)) /\ word (r_ebx (m_regs m)) /\ word (r_ebp (m_regs m));
  sc_apart1 : old + 4 <= sp - 16 \/ sp + 4 <= old;
  sc_apart2 : new + 20 <= sp - 16 \/ sp <= new;
  sc_apart3 : old + 4 <= new \/ new + 20 <= old
}.

Lemma swtch_run (m : mach) (sp old new : Z) : swtch_call m sp old new -> let t := run swtch m in
  rd32 (m_mem t) old = sp - 16 /\
  context_at (m_mem t) (sp - 16) = mk_context (r_edi (m_regs m)) (r_esi (m_regs m)) (r_ebx (m_regs m)) (r_ebp (m_regs m)) (rd32 (m_mem m) sp) /\
  mk_context (r_edi (m_regs t)) (r_esi (m_regs t)) (r_ebx (m_regs t)) (r_ebp (m_regs t)) (m_eip t) = context_at (m_mem m) new /\
  esp_of t = new + 20 /\ (forall a, ~ (sp - 16 <= a < sp) -> ~ (old <= a < old + 4) -> rd (m_mem t) a = rd (m_mem m) a) /\
  m_segs t = m_segs m.
Proof.
  intros [He Ho Hn Hr (R1 & R2 & R3 & R4) A1 A2 A3] t. destruct m as [ [eax ecx edx ebx esp ebp esi edi] sg cs ss fl eip mem]. unfold word in *. cbn in *. subst esp.
  unfold t, run, swtch, exec_instr, pop_to, popped, push, with_reg, esp_of, context_at. cbn. addr_simpl. rewrite Ho, Hn. addr_simpl. off_norm. mem_simpl. addr_simpl.
  split_and!; try reflexivity. intros a Ha Hb. mem_simpl. reflexivity.
Qed.

(** C6. A context switch comes back.  When [swtch] is called to leave for
    another context, the processor continues there: with that context's
    registers and return address, on its stack.  The word at [old] then points
    to the caller's context.  When later, from whatever the machine has become,
    [swtch] is called with this pointer, and the twenty bytes it points to are
    untouched, the first call returns: to its caller's address, with the stack
    pointer just above it and the registers that a function must keep as they
    were. *)
Theorem swtch_resumes (m u : mach) (sp old new sp' old' : Z) : swtch_call m sp old new -> swtch_call u sp' old' (rd32 (m_mem (run swtch m)) old) ->
  (forall a, sp - 16 <= a < sp + 4 -> rd (m_mem u) a = rd (m_mem (run swtch m)) a) ->
  (let t := run swtch m in
   mk_context (r_edi (m_regs t)) (r_esi (m_regs t)) (r_ebx (m_regs t)) (r_ebp (m_regs t)) (m_eip t) = context_at (m_mem m) new /\ esp_of t = new + 20) /\
  (let t := run swtch u in
   r_edi (m_regs t) = r_edi (m_regs m) /\ r_esi (m_regs t) = r_esi (m_regs m) /\ r_ebx (m_regs t) = r_ebx (m_regs m) /\ r_ebp (m_regs t) = r_ebp (m_regs m) /\
   m_eip t = rd32 (m_mem m) sp /\ esp_of t = sp + 4).
Proof.
  intros H1. pose proof (swtch_run m sp old new H1) as S1. cbv zeta in *. revert S1. generalize (run swtch m) as t1. intros t1 (E1 & E2 & E3 & E4 & _) H2 Hk.
  rewrite E1 in H2. pose proof (swtch_run u sp' old' (sp - 16) H2) as S2. cbv zeta in S2. revert S2. generalize (run swtch u) as t2. intros t2 (_ & _ & F3 & F4 & _).
  assert (Ec : context_at (m_mem u) (sp - 16) = context_at (m_mem t1) (sp - 16)) by (unfold context_at, rd32; rewrite !Hk by lia; reflexivity).
  rewrite Ec, E2 in F3. injection F3 as -> -> -> -> ->. split; [auto|]. split_and!; try reflexivity. rewrite F4. lia.
Qed.

(** ** The first run of a process *)

(** The kernel stack [allocproc] prepares in the page [ks]: the memory, the
    address of the trap frame and the address of the context. *)
Definition alloc_stack (ks trapret_a forkret_a : Z) (m : gmap Z Z) : gmap Z Z * Z * Z :=
  let sp := ks + KSTACKSIZE in
  let tf := sp - 76 in
  let sp := tf - 4 in
  let m := wr32 sp trapret_a m in
  let cx := sp - 20 in
  let m := memset cx 0 20 m in
  (wr32 (cx + 16) forkret_a m, tf, cx).

Lemma alloc_stack_context (ks ta fa : Z) (m : gmap Z Z) : word fa -> word ta -> let '(m', tf, cx) := alloc_stack ks ta fa m in
  context_at m' cx = context0 <| cx_eip := fa |> /\ cx + 20 = tf - 4 /\ rd32 m' (tf - 4) = ta.
Proof.
  intros Hf Ht. unfold alloc_stack, context_at. set (cx := ks + KSTACKSIZE - 76 - 4 - 20).
  assert (Z0 : forall b, cx <= b < cx + 20 -> rd (memset cx 0 20 (wr32 (cx + 20) ta m)) b = 0) by (intros b Hb; rewrite rd_memset, decide_True by lia; reflexivity).
  assert (Z4 : forall b, cx <= b -> b + 4 <= cx + 16 -> rd32 (wr32 (cx + 16) fa (memset cx 0 20 (wr32 (cx + 20) ta m))) b = 0).
  { intros b H1 H2. rewrite rd32_wr32_other by lia. unfold rd32. rewrite !Z0 by lia. reflexivity. }
  replace (ks + KSTACKSIZE - 76 - 4) with (cx + 20) by (unfold cx; lia). split; [|split; [reflexivity|] ].
  - rewrite !Z4 by lia. rewrite rd32_wr32_same, (u32_small fa) by exact Hf. reflexivity.
  - rewrite rd32_wr32_other by lia. unfold rd32. rewrite !rd_memset, !decide_False by lia. apply (eq_trans (rd32_wr32_same m (cx + 20) ta)). apply u32_small, Ht.
Qed.

(** ** Traps *)

(** The state of the program that was interrupted, as a trap frame: trap [i]
    with error code [e]. *)
Definition frame_of (m : mach) (oesp i e : Z) : trapframe :=
  mk_trapframe (r_edi (m_regs m)) (r_esi (m_regs m)) (r_ebp (m_regs m)) oesp (r_ebx (m_regs m)) (r_edx (m_regs m)) (r_ecx (m_regs m)) (r_eax (m_regs m))
    (s_gs (m_segs m)) (s_fs (m_segs m)) (s_es (m_segs m)) (s_ds (m_segs m)) i e (m_eip m) (m_cs m) (m_eflags m) (esp_of m) (m_ss m).

(** The user's registers are as a trap frame says. *)
Definition resumes (m : mach) (f : trapframe) : Prop :=
  m_regs m = mk_gregs (tf_eax f) (tf_ecx f) (tf_edx f) (tf_ebx f) (tf_esp f) (tf_ebp f) (tf_esi f) (tf_edi f) /\
  m_segs m = mk_sregs (tf_ds f) (tf_es f) (tf_fs f) (tf_gs f) /\
  m_eip m = tf_eip f /\ m_cs m = tf_cs f /\ m_eflags m = tf_eflags f /\ m_ss m = tf_ss f.

Record mach_ok (m : mach) : Prop := {
  mo_regs : forall r, word (get_reg r (m_regs m));
  mo_segs : forall r, half (get_sreg r (m_segs m));
  mo_cs : half (m_cs m);
  mo_ss : half (m_ss m);
  mo_eflags : word (m_eflags m);
  mo_eip : word (m_eip m)
}.

(** What the stubs of vectors.S make of the stack. *)
Definition entered (esp0 ss0 cs entry fl i e : Z) (m : mach) : mach :=
  push i (push e (push (m_eip m) (push (m_cs m) (push (m_eflags m) (push (esp_of m) (push (m_ss m) (with_reg ESP esp0 m <| m_ss := ss0 |>)))))))
    <| m_cs := cs |> <| m_eip := entry |> <| m_eflags := fl |>.

Lemma error_code_traps (i : Z) : has_error_code i = true <-> i ∈ error_traps.
Proof.
  unfold has_error_code, error_traps. rewrite !elem_of_cons, elem_of_nil, !orb_true_iff, andb_true_iff, !Z.eqb_eq, !Z.leb_le. lia.
Qed.

Lemma push_gate (v cs entry fl : Z) (k : mach) :
  push v (k <| m_cs := cs |> <| m_eip := entry |> <| m_eflags := fl |>) = push v k <| m_cs := cs |> <| m_eip := entry |> <| m_eflags := fl |>.
Proof. destruct k. reflexivity. Qed.

Lemma vector_run (esp0 ss0 cs entry fl i : Z) (err : option Z) (m : mach) : (is_Some err <-> i ∈ error_traps) ->
  run (vector i) (trap_enter esp0 ss0 cs entry fl err m) = entered esp0 ss0 cs entry fl i (default 0 err) m.
Proof.
  rewrite <- error_code_traps. intros H. unfold vector, run, trap_enter, entered. destruct err as [e|].
  - rewrite (proj1 H (mk_is_Some (Some e) e eq_refl)). cbn [app fold_left exec_instr default from_option id]. rewrite push_gate. reflexivity.
  - destruct (has_error_code i); [destruct (proj2 H eq_refl); discriminate|]. cbn [app fold_left exec_instr default from_option id]. rewrite !push_gate. reflexivity.
Qed.

Lemma low_half (v w : Z) : u16 (v - u16 v + u16 w) = u16 w.
Proof. unfold u16. Z.div_mod_to_equations. lia. Qed.

Lemma alltraps_run (esp0 ss0 cs entry fl i e : Z) (m : mach) : mach_ok m -> 80 <= esp0 < 2 ^ 32 -> word i -> word e ->
  let t := run alltraps (entered esp0 ss0 cs entry fl i e m) in
  trapframe_at (m_mem t) (esp0 - 76) = frame_of m (esp0 - 44) i e /\ esp_of t = esp0 - 80 /\ rd32 (m_mem t) (esp0 - 80) = esp0 - 76 /\
  s_ds (m_segs t) = 16 /\ s_es (m_segs t) = 16 /\ (forall a, ~ (esp0 - 80 <= a < esp0) -> rd (m_mem t) a = rd (m_mem m) a).
Proof.
  intros [R S C1 C2 C3 C4] He Hi Hw t. pose proof (R EAX). pose proof (R ECX). pose proof (R EDX). pose proof (R EBX). pose proof (R ESP). pose proof (R EBP). pose proof (R ESI). pose proof (R EDI).
  pose proof (S DS). pose proof (S ES). pose proof (S FS). pose proof (S GS). clear R S.
  destruct m as [ [eax ecx edx ebx esp ebp esi edi] [ds es fs gs] ucs uss ufl ueip mem]. unfold word, half in *. cbn [get_reg get_sreg m_regs m_segs m_cs m_ss m_eflags m_eip r_eax r_ecx r_edx r_ebx r_esp r_ebp r_esi r_edi s_ds s_es s_fs s_gs] in *.
  unfold t, run, alltraps, entered, exec_instr, push_seg, push, with_reg, esp_of, trapframe_at, frame_of. cbn. addr_simpl. off_norm.
  split; [f_equal; mem_simpl; (apply u32_small || apply u16_small || reflexivity); (assumption || lia)|].
  split_and!; [reflexivity|mem_simpl; apply u32_small; lia|apply low_half|apply low_half|intros a Ha; mem_simpl; reflexivity].
Qed.

Lemma rd32_low (m : gmap Z Z) (a : Z) : (forall b, is_byte (rd m b)) -> u16 (rd32 m a) = rd16 m a.
Proof. intros H. unfold u16, rd32, rd16. pose proof (H a). pose proof (H (a + 1)). unfold is_byte in *. Z.div_mod_to_equations. lia. Qed.

(** [trapret], after [trap] has returned with its argument still on the stack. *)
Lemma trapret_run (u : mach) (a : Z) : esp_of u = a - 4 -> 4 <= a -> a + 76 < 2 ^ 32 -> (forall b, is_byte (rd (m_mem u) b)) ->
  resumes (run trapret (run alltraps_end u)) (trapframe_at (m_mem u) a).
Proof.
  intros He Ha Hb Hm. destruct u as [ [eax ecx edx ebx esp ebp esi edi] [ds es fs gs] ucs uss ufl ueip mem]. cbn in He, Hm. subst esp.
  cbv -[Z.add Z.sub u32 u16 rd32 rd16]. addr_simpl. rewrite !Z.add_0_r. off_norm. rewrite !rd32_low by exact Hm. split_and!; reflexivity.
Qed.

(** C7. Traps save and restore the interrupted program.  For every trap number
    and whatever the registers hold, the hardware, the stub of vectors.S and
    [alltraps] put the program's whole state into a [struct trapframe] at the top
    of the kernel stack, with the number and the error code, pass its address to
    [trap], with the kernel's data segment, and write nothing else.  When [trap]
    returns, [trapret] continues the program as the frame says then; if the frame
    is unchanged, with all registers as they were. *)
Theorem trap_saves_and_restores (esp0 ss0 cs entry fl i : Z) (err : option Z) (m u : mach) : mach_ok m -> 80 <= esp0 -> esp0 + 4 < 2 ^ 32 -> 0 <= i < 256 ->
  (is_Some err <-> i ∈ error_traps) -> word (default 0 err) ->
  (let t := run alltraps (run (vector i) (trap_enter esp0 ss0 cs entry fl err m)) in
   trapframe_at (m_mem t) (esp0 - 76) = frame_of m (esp0 - 44) i (default 0 err) /\ esp_of t = esp0 - 80 /\ rd32 (m_mem t) (esp0 - 80) = esp0 - 76 /\
   s_ds (m_segs t) = 16 /\ s_es (m_segs t) = 16 /\ (forall a, ~ (esp0 - 80 <= a < esp0) -> rd (m_mem t) a = rd (m_mem m) a)) /\
  (esp_of u = esp0 - 80 -> (forall b, is_byte (rd (m_mem u) b)) ->
   resumes (run trapret (run alltraps_end u)) (trapframe_at (m_mem u) (esp0 - 76)) /\
   (trapframe_at (m_mem u) (esp0 - 76) = frame_of m (esp0 - 44) i (default 0 err) ->
    let t := run trapret (run alltraps_end u) in
    m_regs t = m_regs m /\ m_segs t = m_segs m /\ m_eip t = m_eip m /\ m_cs t = m_cs m /\ m_eflags t = m_eflags m /\ m_ss t = m_ss m)).
Proof.
  intros Hm H1 H2 Hi He Hw. split.
  - rewrite vector_run by exact He. apply alltraps_run; [exact Hm|lia|unfold word; lia|exact Hw].
  - intros Hu Hb. assert (R : resumes (run trapret (run alltraps_end u)) (trapframe_at (m_mem u) (esp0 - 76))) by (apply trapret_run; [lia|lia|lia|exact Hb]).
    split; [exact R|]. intros Ef. rewrite Ef in R. revert R. cbv zeta. generalize (run trapret (run alltraps_end u)) as t. intros t (R1 & R2 & R3 & R4 & R5 & R6).
    rewrite R1, R2, R3, R4, R5, R6. destruct m as [ [] [] ? ? ? ? ?]. split_and!; reflexivity.
Qed.

(** A machine that calls [swtch] at address 77 to a context at 0x2000, and one
    that comes back with the pointer stored at 0x3000. *)
Definition ex_away : mach :=
  mk_mach (mk_gregs 1 2 3 4 0x1000 5 6 7) (mk_sregs 16 16 0 0) 8 16 0x202 0 (wr32 0x1008 0x2000 (wr32 0x1004 0x3000 (wr32 0x1000 77 ∅))).

Definition ex_back : mach :=
  mk_mach (mk_gregs 9 9 9 9 0x4000 9 9 9) (mk_sregs 16 16 0 0) 8 16 0x202 0 (wr32 0x4008 0xff0 (wr32 0x4004 0x3004 (m_mem (run swtch ex_away)))).

Lemma swtch_resumes_witness : m_eip (run swtch ex_back) = 77 /\ esp_of (run swtch ex_back) = 0x1004 /\ r_ebp (m_regs (run swtch ex_back)) = 5.
Proof.
  destruct (swtch_resumes ex_away ex_back 0x1000 0x3000 0x2000 0x4000 0x3004) as (_ & _ & _ & _ & E1 & E2 & E3).
  - split; [reflexivity|vm_compute; reflexivity|vm_compute; reflexivity|lia|unfold word; cbn; lia|lia|lia|lia].
  - split; [reflexivity|vm_compute; reflexivity|vm_compute; reflexivity|vm_compute; split_and!; congruence|unfold word; cbn; lia|lia|vm_compute; left; discriminate|vm_compute; right; discriminate].
  - intros a Ha. unfold ex_back, m_mem at 1. rewrite !rd_wr32_other by lia. reflexivity.
  - split; [exact E2|split; [exact E3|exact E1] ].
Defined.

(** A user program that makes a system call, and a return to a frame of zeros. *)
Definition ex_user : mach := mk_mach (mk_gregs 7 1 2 3 0x2ff0 4 5 6) (mk_sregs 35 35 0 0) 27 35 0x202 0x40 ∅.
Definition ex_return : mach := mk_mach (mk_gregs 0 0 0 0 0x7fb0 0 0 0) (mk_sregs 16 16 0 0) 8 16 0x202 0 ∅.

Lemma trap_saves_and_restores_witness :
  trapframe_at (m_mem (run alltraps (run (vector 64) (trap_enter 0x8000 16 8 0x9000 0x2 None ex_user)))) 0x7fb4 = frame_of ex_user 0x7fd4 64 0 /\
  resumes (run trapret (run alltraps_end ex_return)) (trapframe_at ∅ 0x7fb4).
Proof.
  destruct (trap_saves_and_restores 0x8000 16 8 0x9000 0x2 64 None ex_user ex_return) as [ [H1 _] H2].
  - split; [intros []|intros []| | | |]; unfold word, half; cbn; lia.
  - lia.
  - lia.
  - lia.
  - split; [intros [e H]; discriminate|]. intros H. apply error_code_traps in H. discriminate H.
  - unfold word. cbn. lia.
  - split; [exact H1|]. apply H2; [reflexivity|]. intros b. change (rd (m_mem ex_return) b) with 0. unfold is_byte. lia.
Defined.

(** The stubs have different numbers, and the kernel has a function for each. *)
Lemma usys_numbers {F : Fuel} {L : Linker} {BD : BlockDev} {DV : Devsw} : NoDup (map snd usys) /\ Forall (fun n => is_Some (syscalls n)) (map snd usys).
Proof.
  split; [apply (bool_decide_unpack _); vm_compute; exact I|]. repeat constructor; eexists; reflexivity.
Qed.

(** [initcode] calls [exec] with its two arguments where [argstr(0)] and
    [argint(1)] look for them. *)
Lemma initcode_run (init argv : Z) (m : mach) : 12 <= esp_of m -> esp_of m < 2 ^ 32 -> word init -> word argv ->
  let t := run (initcode init argv) m in
  r_eax (m_regs t) = 7 /\ rd32 (m_mem t) (esp_of t + 4) = init /\ rd32 (m_mem t) (esp_of t + 8) = argv.
Proof.
  intros H1 H2 H3 H4. destruct m as [ [eax ecx edx ebx esp ebp esi edi] sg ucs uss ufl ueip mem]. cbn in H1, H2. unfold word in *.
  cbv -[Z.add Z.sub Z.le Z.lt u32 rd32 wr32]. addr_simpl. off_norm. mem_simpl. addr_simpl. auto.
Qed.
