(* ===== verification/Startup.v ===== *)
(** * main.c: starting the machine

    The whole of [main], with the devices of Devices.v and the tables of
    Segments.v beside the kernel's data.  The processor runs with interrupts
    off until the scheduler turns them on.  What the other processors do is not
    in the state of this one; that one of them has come up is an answer, as
    from a device. *)

From S2P Require Import Prelude Params Bytes CString Kernel Print Kalloc Vm Sleep Args Sched Ide Bio Log Fs Pipe File Console Proc.
From S2P Require Import Thread Exec Sysfile Syscall Devices IdePorts Segments.

(** ** The page table before the page table *)

Definition PTE_PS : Z := 0x080.

Definition entrypgdir : list Z :=
  <[Z.to_nat (Z.shiftr KERNBASE PDXSHIFT) := Z.lor (Z.lor PTE_P PTE_W) PTE_PS]>
    (<[0%nat := Z.lor (Z.lor PTE_P PTE_W) PTE_PS]> (replicate (Z.to_nat NPDENTRIES) 0)).

(** What the processor makes of an entry of 4 Mbyte. *)
Definition big_page (pgdir : list Z) (va : Z) : option Z :=
  match pgdir !! Z.to_nat (va / 2 ^ 22) with
  | Some e => if (Z.land e PTE_P =? 0) || (Z.land e PTE_PS =? 0) then None else Some (Z.land e 0xFFC00000 + va mod 2 ^ 22)
  | None => None
  end.

(** The first 4 Mbyte of memory are seen at 0 and at KERNBASE, nothing else is. *)
Lemma entrypgdir_maps (va : Z) : 0 <= va < 2 ^ 32 ->
  big_page entrypgdir va = if (va <? 2 ^ 22) || (KERNBASE <=? va) && (va <? KERNBASE + 2 ^ 22) then Some (va mod 2 ^ 22) else None.
Proof.
  intros H. unfold big_page, entrypgdir. change (Z.to_nat (Z.shiftr KERNBASE PDXSHIFT)) with 512%nat. unfold KERNBASE.
  assert (Hq : 0 <= va / 2 ^ 22 < 1024 /\ 2 ^ 22 * (va / 2 ^ 22) <= va < 2 ^ 22 * (va / 2 ^ 22 + 1)) by (change (2 ^ 22) with 4194304; Z.div_mod_to_equations; lia).
  assert (Hl : length (<[0%nat := Z.lor (Z.lor PTE_P PTE_W) PTE_PS]> (replicate (Z.to_nat NPDENTRIES) 0)) = 1024%nat) by reflexivity.
  destruct (decide (va / 2 ^ 22 = 0)) as [E|E]; [|destruct (decide (va / 2 ^ 22 = 512)) as [E1|E1] ].
  - rewrite E in *. rewrite (proj2 (Z.ltb_lt va _)) by lia. reflexivity.
  - rewrite E1 in *. change (Z.to_nat 512) with 512%nat. rewrite list_lookup_insert_eq by lia.
    rewrite (proj2 (Z.leb_le _ _)), (proj2 (Z.ltb_lt va (2147483648 + _))) by lia. rewrite orb_true_r. reflexivity.
  - rewrite !list_lookup_insert_ne by lia. rewrite lookup_replicate_2 by (unfold NPDENTRIES; lia).
    assert (Hf : (va <? 2 ^ 22) || (2147483648 <=? va) && (va <? 2147483648 + 2 ^ 22) = false).
    { rewrite (proj2 (Z.ltb_ge va (2 ^ 22))) by lia. cbn [orb]. apply andb_false_iff. destruct (decide (va < 2147483648)); [left; apply Z.leb_gt; lia|right; apply Z.ltb_ge; lia]. }
    rewrite Hf. reflexivity.
Qed.

(** ** The machine *)

Record machine : Type := mk_machine {
  m_kernel : kernel;
  m_io : io;
  m_gdt : list segdesc;
  m_idt : list gatedesc;
  m_idtr : bool;
  m_started : bool
}.
#[export] Instance machine_eta : Eta machine := fun r =>
  mk_machine (m_kernel r) (m_io r) (m_gdt r) (m_idt r) (m_idtr r) (m_started r).

Abbreviation B := (M machine).

(** Code of the kernel, and code that works with devices, on the machine. *)
Fixpoint kern_out {A : Type} (t : machine) (o : outcome kernel A) : outcome machine A :=
  match o with
  | Done a s => Done a (t <| m_kernel := s |>)
  | Halt r => Halt r
  | Switch s k => Switch (t <| m_kernel := s |>) (fun t' => kern_out t' (k (m_kernel t')))
  end.

Fixpoint dev_out {A : Type} (t : machine) (o : outcome io A) : outcome machine A :=
  match o with
  | Done a s => Done a (t <| m_io := s |>)
  | Halt r => Halt r
  | Switch s k => Switch (t <| m_io := s |>) (fun t' => dev_out t' (k (m_io t')))
  end.

Definition kern {A : Type} (m : K A) : B A := fun t => kern_out t (m (m_kernel t)).
Definition dev {A : Type} (m : D A) : B A := fun t => dev_out t (m (m_io t)).

(** [mycpu] of proc.c: the index of this processor. *)
Definition mycpu : D nat :=
  apicid ← lapicid;
  s ← get;
  match list_find (fun a => a = apicid) (apicids s) with
  | Some (i, _) => mret i
  | None => panic "unknown apicid"
  end.

Section Startup.
Context {F : Fuel} {L : Linker} {BD : BlockDev} {DV : Devsw}.

(** Symbols of the linker: the code of entryother.S, the addresses of [mpenter]
    and of [entrypgdir], and the vectors. *)
Context (entryother : list Z) (mpenter_addr entrypgdir_addr : Z) (vectors : Z -> Z).

(** Waits until [started] of processor [i] is set. *)
Definition wait_started (i : nat) : D unit :=
  poll (fun _ : unit => v ← answer; mret (if v =? 0 then inl tt else inr tt)) tt.

Definition startothers : B unit :=
  let code := P2V 0x7000 in
  kern (mem_put code entryother);;
  ids ← dev (gets apicids);
  for_each (length ids) 0 (fun i =>
    me ← dev mycpu;
    if (i =? me)%nat then mret tt
    else
      stack ← kern kalloc;
      kern (st32 (code - 4) (u32 (stack + KSTACKSIZE)));;
      kern (st32 (code - 8) mpenter_addr);;
      kern (st32 (code - 12) (V2P entrypgdir_addr));;
      dev (lapicstartap (nth i ids 0) (V2P code));;
      dev (wait_started i)).

Definition idtinit : B unit := modify (fun t => t <| m_idtr := true |>).

Definition mpmain (rounds n : nat) : B unit :=
  me ← dev mycpu;
  kern (cprintf ("cpu%d: starting %d" ++ nl) [AInt (Z.of_nat me); AInt (Z.of_nat me)]);;
  idtinit;;
  modify (fun t => t <| m_started := true |>);;
  kern (scheduler rounds n).

(** The first function of the other processors. *)
Definition mpenter (rounds n : nat) : B unit :=
  kern switchkvm;;
  modify (fun t => t <| m_gdt ::= seginit |>);;
  dev lapicinit;;
  mpmain rounds n.

(** The locks are free at the start, and the device table is that of
    [console_devsw]. *)
Definition boot_main (initcode : list Z) (rounds n : nat) : B unit :=
  kern (kinit1 kend (P2V 0x400000));;
  kern kvmalloc;;
  t ← get;
  dev (mpinit (k_mem (m_kernel t)));;
  dev lapicinit;;
  modify (fun t => t <| m_gdt ::= seginit |>);;
  dev picinit;;
  dev ioapicinit;;
  dev (ioapicenable IRQ_KBD 0);;
  dev uartinit;;
  modify (fun t => t <| m_idt := tvinit vectors |>);;
  kern binit;;
  dev ideinit;;
  modify (fun t => t <| m_kernel ::= fun k => k <| k_havedisk1 := negb (havedisk1 (m_io t) =? 0) |> |>);;
  startothers;;
  kern (kinit2 (P2V 0x400000) (P2V PHYSTOP));;
  kern (userinit initcode);;
  mpmain rounds n.
End Startup.
