(* ===== verification/VmSpec.v ===== *)
(** * Address spaces

    A page directory with its page tables as a function from virtual page
    numbers to page table entries ([pte]), the invariant that keeps the
    pages it is made of apart from each other and from the free list
    ([vm_ok]), and what the operations of vm.c do to that function. *)

From S2P Require Import Prelude Params Bytes CString Kernel Print Kalloc Vm.

(** ** Entries *)

Lemma land_pow2_bit (x n : Z) : 0 <= n -> (Z.land x (2 ^ n) =? 0) = negb (Z.testbit x n).
Proof.
  intros Hn. destruct (Z.testbit x n) eqn:E; simpl.
  - apply Z.eqb_neq. intros H. apply (f_equal (fun y => Z.testbit y n)) in H.
    rewrite Z.land_spec, Z.pow2_bits_true, E, Z.testbit_0_l in H by lia. discriminate.
  - apply Z.eqb_eq, Z.bits_inj'. intros i Hi. rewrite Z.land_spec, Z.testbit_0_l.
    destruct (decide (i = n)) as [->|Hne]; [rewrite E; reflexivity|].
    rewrite Z.pow2_bits_false by lia. apply andb_false_r.
Qed.

Lemma present_testbit (e : Z) : present e = Z.testbit e 0.
Proof. unfold present. change PTE_P with (2 ^ 0). rewrite land_pow2_bit by lia. apply negb_involutive. Qed.

Lemma user_ok_testbit (e : Z) : user_ok e = Z.testbit e 2.
Proof. unfold user_ok. change PTE_U with (2 ^ 2). rewrite land_pow2_bit by lia. apply negb_involutive. Qed.

Lemma present_0 : present 0 = false.
Proof. reflexivity. Qed.

Lemma pow2_testbit_u32 (x i : Z) : 0 <= i < 32 -> Z.testbit (u32 x) i = Z.testbit x i.
Proof. intros Hi. unfold u32. apply Z.mod_pow2_bits_low. lia. Qed.

(** An entry made of a page address and flags. *)
Lemma lor_flags (a f : Z) : a mod PGSIZE = 0 -> 0 <= f < PGSIZE -> Z.lor a f = a + f.
Proof.
  intros Ha Hf. unfold PGSIZE in *. replace a with (a / 2 ^ 12 * 2 ^ 12) by (Z.div_mod_to_equations; lia).
  apply lor_add_disjoint; [lia|exact Hf].
Qed.

Lemma PTE_ADDR_eq (e : Z) : PTE_ADDR e = u32 e - u32 e mod PGSIZE.
Proof. unfold PTE_ADDR. apply (mask_round_down (u32 e) 12). lia. Qed.

Lemma PTE_ADDR_lor (a f : Z) :
  a mod PGSIZE = 0 -> 0 <= a < 2 ^ 32 -> 0 <= f < PGSIZE -> PTE_ADDR (Z.lor a f) = a.
Proof.
  intros Ha Hr Hf. rewrite lor_flags by assumption. rewrite PTE_ADDR_eq.
  unfold PGSIZE, u32 in *. Z.div_mod_to_equations. lia.
Qed.

Lemma PTE_ADDR_u32 (e : Z) : PTE_ADDR (u32 e) = PTE_ADDR e.
Proof. unfold PTE_ADDR. rewrite (u32_small (u32 e)) by apply u32_range. reflexivity. Qed.

Section VmSpec.
Context {L : Linker}.

Lemma page_V2P (v : Z) : page v -> V2P v mod PGSIZE = 0 /\ 0 <= V2P v < PHYSTOP.
Proof.
  intros H. rewrite V2P_page by exact H. pose proof (page_high v H) as Hh. destruct H as [Ha _].
  unfold PGSIZE, KERNLINK, KERNBASE, EXTMEM, PHYSTOP in *. Z.div_mod_to_equations. lia.
Qed.

Lemma P2V_V2P (v : Z) : page v -> P2V (V2P v) = v.
Proof.
  intros H. rewrite V2P_page by exact H. apply page_high in H. unfold P2V.
  rewrite u32_small; unfold KERNLINK, KERNBASE, EXTMEM, PHYSTOP in *; lia.
Qed.

(** The page an entry built by the kernel refers to. *)
Lemma frame_of_entry (v f : Z) : page v -> 0 <= f < PGSIZE -> P2V (PTE_ADDR (Z.lor (V2P v) f)) = v.
Proof.
  intros Hv Hf. destruct (page_V2P v Hv) as [Ha Hr].
  rewrite PTE_ADDR_lor by (try assumption; unfold PHYSTOP in *; lia). apply P2V_V2P, Hv.
Qed.

(** ** Page tables as functions *)

Definition has_table (m : gmap Z Z) (pgdir d : Z) : bool := present (rd32 m (pgdir + 4 * d)).
Definition table (m : gmap Z Z) (pgdir d : Z) : Z := P2V (PTE_ADDR (rd32 m (pgdir + 4 * d))).

(** The entry of virtual page [v], 0 where there is no page table. *)
Definition pte (m : gmap Z Z) (pgdir v : Z) : Z :=
  if has_table m pgdir (v / 1024) then rd32 m (table m pgdir (v / 1024) + 4 * (v mod 1024)) else 0.

Definition NVPAGE : Z := 2 ^ 20.

(** The page directory, its page tables and the free pages are distinct
    pages. *)
Record vm_ok (s : kernel) (pgdir : Z) (l : list Z) : Prop := {
  vo_free : free_pages s l;
  vo_dir : page pgdir /\ pgdir ∉ l;
  vo_tab : forall d, 0 <= d < 1024 -> has_table (k_mem s) pgdir d = true ->
    page (table (k_mem s) pgdir d) /\ table (k_mem s) pgdir d <> pgdir /\
    (table (k_mem s) pgdir d ∉ l);
  vo_inj : forall d d', 0 <= d < 1024 -> 0 <= d' < 1024 -> d <> d' ->
    has_table (k_mem s) pgdir d = true -> has_table (k_mem s) pgdir d' = true ->
    table (k_mem s) pgdir d <> table (k_mem s) pgdir d'
}.

(** Two memories agree on page [v]. *)
Definition agree (m m' : gmap Z Z) (v : Z) : Prop :=
  forall b, v <= b < v + PGSIZE -> rd m' b = rd m b.

Lemma agree_rd32 (m m' : gmap Z Z) (v a : Z) :
  agree m m' v -> v <= a -> a + 4 <= v + PGSIZE -> rd32 m' a = rd32 m a.
Proof. intros H H1 H2. unfold rd32. rewrite !H by lia. reflexivity. Qed.

Lemma agree_table (m m' : gmap Z Z) (pgdir d : Z) :
  agree m m' pgdir -> 0 <= d < 1024 ->
  has_table m' pgdir d = has_table m pgdir d /\ table m' pgdir d = table m pgdir d.
Proof.
  intros H Hd. unfold has_table, table. rewrite (agree_rd32 m m' pgdir) by (assumption || (unfold PGSIZE; lia)).
  auto.
Qed.

Lemma vpage_split (v : Z) : 0 <= v < NVPAGE -> 0 <= v / 1024 < 1024 /\ 0 <= v mod 1024 < 1024.
Proof. unfold NVPAGE. intros H. Z.div_mod_to_equations. lia. Qed.

(** Writes outside the pages of the address space change none of its
    entries. *)
Lemma agree_pte (m m' : gmap Z Z) (pgdir v : Z) :
  agree m m' pgdir ->
  (forall d, 0 <= d < 1024 -> has_table m pgdir d = true -> agree m m' (table m pgdir d)) ->
  0 <= v < NVPAGE -> pte m' pgdir v = pte m pgdir v.
Proof.
  intros Hd Ht Hv. destruct (vpage_split v Hv) as [H1 H2].
  destruct (agree_table m m' pgdir (v / 1024) Hd H1) as [E1 E2].
  unfold pte. rewrite E1, E2. destruct (has_table m pgdir (v / 1024)) eqn:E; [|reflexivity].
  apply (agree_rd32 m m' (table m pgdir (v / 1024))); [apply Ht; assumption|lia|unfold PGSIZE; lia].
Qed.

Lemma agree_refl (m : gmap Z Z) (v : Z) : agree m m v.
Proof. intros b _. reflexivity. Qed.

Lemma agree_trans (m1 m2 m3 : gmap Z Z) (v : Z) : agree m1 m2 v -> agree m2 m3 v -> agree m1 m3 v.
Proof. intros H1 H2 b Hb. rewrite H2, H1 by exact Hb. reflexivity. Qed.

(** A store inside page [w] leaves the other pages alone. *)
Lemma agree_wr32 (m : gmap Z Z) (v w a x : Z) :
  page v -> page w -> v <> w -> w <= a -> a + 4 <= w + PGSIZE -> agree m (wr32 a x m) v.
Proof.
  intros Hv Hw Hne H1 H2 b Hb. destruct (page_apart v w Hv Hw Hne);
    apply rd_wr32_other; lia.
Qed.

Lemma agree_memset (m : gmap Z Z) (v w c : Z) :
  page v -> page w -> v <> w -> agree m (memset w c PGSIZE m) v.
Proof.
  intros Hv Hw Hne b Hb. destruct (page_apart v w Hv Hw Hne);
    (rewrite rd_memset, decide_False; [reflexivity|lia|unfold PGSIZE; lia]).
Qed.

Lemma agree_wr_list (m : gmap Z Z) (v w a : Z) (d : list Z) :
  page v -> page w -> v <> w -> w <= a -> a + Z.of_nat (length d) <= w + PGSIZE ->
  agree m (wr_list a d m) v.
Proof.
  intros Hv Hw Hne H1 H2 b Hb. destruct (page_apart v w Hv Hw Hne);
    (rewrite rd_wr_list, decide_False; [reflexivity|lia]).
Qed.

Lemma agree_memmove (m : gmap Z Z) (v w a : Z) :
  page v -> page w -> v <> w -> agree m (memmove w a PGSIZE m) v.
Proof.
  intros Hv Hw Hne b Hb. destruct (page_apart v w Hv Hw Hne);
    (rewrite rd_memmove, decide_False; [reflexivity|lia|unfold PGSIZE; lia]).
Qed.

(** The invariant only reads the pages it is about. *)
Lemma vm_ok_frame (s t : kernel) (pgdir : Z) (l : list Z) :
  vm_ok s pgdir l -> k_freelist t = k_freelist s ->
  agree (k_mem s) (k_mem t) pgdir -> (forall v, v ∈ l -> agree (k_mem s) (k_mem t) v) ->
  vm_ok t pgdir l.
Proof.
  intros [(Hc & Hn & Hp) Hd Ht Hi] Hf Ha Hl. split.
  - split_and!; [|assumption..]. rewrite Hf. eapply freechain_frame; [|exact Hc].
    intros v b Hv Hb. apply (Hl v Hv). unfold PGSIZE. lia.
  - exact Hd.
  - intros d Hr. destruct (agree_table _ _ pgdir d Ha Hr) as [-> ->]. apply Ht, Hr.
  - intros d d' Hr Hr' Hne. destruct (agree_table _ _ pgdir d Ha Hr) as [-> ->].
    destruct (agree_table _ _ pgdir d' Ha Hr') as [-> ->]. apply Hi; assumption.
Qed.

(** ** walkpgdir *)

Definition slot (m : gmap Z Z) (pgdir v : Z) : Z := table m pgdir (v / 1024) + 4 * (v mod 1024).

Lemma PDX_vpage (va : Z) : 0 <= va < 2 ^ 32 -> PDX va = va / PGSIZE / 1024.
Proof. intros H. rewrite PDX_eq by exact H. unfold PGSIZE. rewrite Z.div_div by lia. reflexivity. Qed.

Lemma vpage_range (va : Z) : 0 <= va < 2 ^ 32 -> 0 <= va / PGSIZE < NVPAGE.
Proof. unfold PGSIZE, NVPAGE. intros H. Z.div_mod_to_equations. lia. Qed.

Lemma walk_hit (s : kernel) (pgdir va : Z) (alloc : bool) :
  0 <= va < 2 ^ 32 -> has_table (k_mem s) pgdir (va / PGSIZE / 1024) = true ->
  walkpgdir pgdir va alloc s = Done (slot (k_mem s) pgdir (va / PGSIZE)) s.
Proof.
  intros Hv H. unfold walkpgdir, ld32. kstep. rewrite PDX_vpage, PTX_eq by exact Hv.
  unfold has_table in H. rewrite H. reflexivity.
Qed.

Lemma walk_miss (s : kernel) (pgdir va : Z) :
  0 <= va < 2 ^ 32 -> has_table (k_mem s) pgdir (va / PGSIZE / 1024) = false ->
  walkpgdir pgdir va false s = Done 0 s.
Proof.
  intros Hv H. unfold walkpgdir, ld32. kstep. rewrite PDX_vpage by exact Hv.
  unfold has_table in H. rewrite H. reflexivity.
Qed.

Lemma slot_page (s : kernel) (pgdir v : Z) (l : list Z) :
  vm_ok s pgdir l -> 0 <= v < NVPAGE -> has_table (k_mem s) pgdir (v / 1024) = true ->
  page (table (k_mem s) pgdir (v / 1024)) /\
  table (k_mem s) pgdir (v / 1024) <= slot (k_mem s) pgdir v /\
  slot (k_mem s) pgdir v + 4 <= table (k_mem s) pgdir (v / 1024) + PGSIZE.
Proof.
  intros H Hv Ht. destruct (vpage_split v Hv) as [H1 H2].
  destruct (vo_tab s pgdir l H (v / 1024) H1 Ht) as (Hp & _).
  split; [exact Hp|]. unfold slot, PGSIZE. lia.
Qed.

Lemma slot_nonzero (s : kernel) (pgdir v : Z) (l : list Z) :
  vm_ok s pgdir l -> 0 <= v < NVPAGE -> has_table (k_mem s) pgdir (v / 1024) = true ->
  (slot (k_mem s) pgdir v =? 0) = false.
Proof.
  intros H Hv Ht. destruct (slot_page s pgdir v l H Hv Ht) as (Hp & H1 & _).
  apply page_high in Hp. apply Z.eqb_neq. unfold KERNLINK, KERNBASE, EXTMEM, PHYSTOP in *. lia.
Qed.

Lemma pte_slot (m : gmap Z Z) (pgdir v : Z) :
  has_table m pgdir (v / 1024) = true -> pte m pgdir v = rd32 m (slot m pgdir v).
Proof. intros H. unfold pte, slot. rewrite H. reflexivity. Qed.

(** ** Storing an entry *)

Definition set_pte (v x : Z) (pgdir : Z) (s : kernel) : kernel :=
  s <| k_mem ::= wr32 (slot (k_mem s) pgdir v) x |>.

Section Store.
Context (s : kernel) (pgdir v x : Z) (l : list Z).
Context (Hok : vm_ok s pgdir l) (Hv : 0 <= v < NVPAGE).
Context (Ht : has_table (k_mem s) pgdir (v / 1024) = true).

(** Every page but the page table itself keeps its contents. *)
Lemma set_pte_agree (w : Z) :
  page w -> w <> table (k_mem s) pgdir (v / 1024) -> agree (k_mem s) (k_mem (set_pte v x pgdir s)) w.
Proof.
  intros Hw Hne. destruct (slot_page s pgdir v l Hok Hv Ht) as (Hp & H1 & H2).
  apply (agree_wr32 _ w (table (k_mem s) pgdir (v / 1024))); assumption.
Qed.

Lemma set_pte_tables (d : Z) :
  0 <= d < 1024 ->
  has_table (k_mem (set_pte v x pgdir s)) pgdir d = has_table (k_mem s) pgdir d /\
  table (k_mem (set_pte v x pgdir s)) pgdir d = table (k_mem s) pgdir d.
Proof.
  intros Hd. destruct (vpage_split v Hv) as [H1 _]. apply agree_table; [|exact Hd]. apply set_pte_agree.
  - apply (vo_dir s pgdir l Hok).
  - apply not_eq_sym, (vo_tab s pgdir l Hok (v / 1024) H1 Ht).
Qed.

Lemma set_pte_ok : vm_ok (set_pte v x pgdir s) pgdir l.
Proof.
  destruct (vpage_split v Hv) as [H1 _].
  destruct (vo_tab s pgdir l Hok (v / 1024) H1 Ht) as (Hp & Hne & Hn).
  apply (vm_ok_frame s); [exact Hok|reflexivity| |].
  - apply set_pte_agree; [apply (vo_dir s pgdir l Hok)|congruence].
  - intros w Hw. apply set_pte_agree; [|intros ->; done].
    destruct (vo_free s pgdir l Hok) as (_ & _ & Hf). rewrite Forall_forall in Hf. apply Hf, Hw.
Qed.

Lemma set_pte_pte (v' : Z) :
  0 <= v' < NVPAGE ->
  pte (k_mem (set_pte v x pgdir s)) pgdir v' = if decide (v' = v) then u32 x else pte (k_mem s) pgdir v'.
Proof.
  intros Hv'. destruct (vpage_split v Hv) as [H1 H2]. destruct (vpage_split v' Hv') as [H1' H2'].
  destruct (set_pte_tables (v' / 1024) H1') as [E1 E2]. unfold pte. rewrite E1, E2.
  case_decide as Hd.
  { subst v'. rewrite Ht. apply rd32_wr32_same. }
  destruct (has_table (k_mem s) pgdir (v' / 1024)) eqn:Ht'; [|reflexivity].
  destruct (decide (v' / 1024 = v / 1024)) as [E|E].
  - apply rd32_wr32_other. unfold slot. rewrite E.
    assert (v' mod 1024 <> v mod 1024) by (Z.div_mod_to_equations; lia). lia.
  - apply (agree_rd32 _ _ (table (k_mem s) pgdir (v' / 1024))); [|lia|unfold PGSIZE; lia].
    apply set_pte_agree; [apply (vo_tab s pgdir l Hok _ H1' Ht')|].
    apply (vo_inj s pgdir l Hok); assumption.
Qed.

End Store.

(** ** A new page table *)

Definition table_entry (v : Z) : Z := Z.lor (Z.lor (Z.lor (V2P v) PTE_P) PTE_W) PTE_U.

Lemma table_entry_eq (v : Z) : page v -> table_entry v = V2P v + 7.
Proof.
  intros H. unfold table_entry. rewrite <- !Z.lor_assoc. change (Z.lor PTE_P (Z.lor PTE_W PTE_U)) with 7.
  apply lor_flags; [apply page_V2P, H|unfold PGSIZE; lia].
Qed.

Lemma table_entry_frame (v : Z) : page v -> P2V (PTE_ADDR (table_entry v)) = v.
Proof.
  intros H. unfold table_entry. rewrite <- !Z.lor_assoc. apply frame_of_entry; [exact H|].
  change (Z.lor PTE_P (Z.lor PTE_W PTE_U)) with 7. unfold PGSIZE. lia.
Qed.

Lemma table_entry_present (v : Z) : present (table_entry v) = true.
Proof.
  rewrite present_testbit. unfold table_entry. rewrite !Z.lor_spec.
  change (Z.testbit PTE_P 0) with true. rewrite orb_true_r. reflexivity.
Qed.

Definition add_table (pgdir d v : Z) (s : kernel) : kernel :=
  s <| k_freelist := rd32 (k_mem s) v |>
    <| k_mem := wr32 (pgdir + 4 * d) (table_entry v) (memset v 0 PGSIZE (k_mem s)) |>.

Section NewTable.
Context (s : kernel) (pgdir d v : Z) (l : list Z).
Context (Hok : vm_ok s pgdir (v :: l)) (Hd : 0 <= d < 1024).
Context (Ht : has_table (k_mem s) pgdir d = false).

Lemma add_table_new : page v /\ v <> pgdir /\ (v ∉ l) /\ free_pages (add_table pgdir d v s) l.
Proof.
  destruct Hok as [(Hc & Hn & Hp) [Hpd Hnd] _ _].
  apply Forall_cons in Hp as [Hpv Hp]. apply NoDup_cons in Hn as [Hnv Hn].
  assert (Hne : v <> pgdir) by (intros ->; apply Hnd; set_solver).
  split_and!; try assumption. split_and!; [|assumption..].
  simpl in Hc. destruct Hc as [_ Hc]. eapply freechain_frame; [|exact Hc].
  intros w b Hw Hb. rewrite Forall_forall in Hp. specialize (Hp w Hw).
  assert (w <> v) by (intros ->; done). assert (w <> pgdir) by (intros ->; set_solver).
  simpl. rewrite (agree_wr32 _ w pgdir) by (assumption || (unfold PGSIZE; lia)).
  apply agree_memset with (v := w); try assumption. unfold PGSIZE. lia.
Qed.

Lemma add_table_agree (w : Z) :
  page w -> w <> pgdir -> w <> v -> agree (k_mem s) (k_mem (add_table pgdir d v s)) w.
Proof.
  intros Hw H1 H2. destruct add_table_new as (Hpv & _). destruct (vo_dir _ _ _ Hok) as [Hpd _].
  eapply agree_trans; [apply (agree_memset _ w v 0); assumption|].
  apply (agree_wr32 _ w pgdir); try assumption; unfold PGSIZE; lia.
Qed.

Lemma add_table_tables (d' : Z) :
  0 <= d' < 1024 ->
  has_table (k_mem (add_table pgdir d v s)) pgdir d' =
    (if decide (d' = d) then true else has_table (k_mem s) pgdir d') /\
  table (k_mem (add_table pgdir d v s)) pgdir d' =
    (if decide (d' = d) then v else table (k_mem s) pgdir d').
Proof.
  intros Hd'. destruct add_table_new as (Hpv & Hne & _). destruct (vo_dir _ _ _ Hok) as [Hpd _].
  unfold has_table, table. simpl. case_decide as E.
  - subst d'. rewrite rd32_wr32_same. rewrite PTE_ADDR_u32, table_entry_frame by exact Hpv.
    split; [|reflexivity]. rewrite present_testbit, pow2_testbit_u32 by lia.
    rewrite <- present_testbit. apply table_entry_present.
  - rewrite rd32_wr32_other by lia.
    rewrite (agree_rd32 (k_mem s) (memset v 0 PGSIZE (k_mem s)) pgdir);
      [auto|apply agree_memset; try assumption; congruence|lia|unfold PGSIZE; lia].
Qed.

Lemma add_table_ok : vm_ok (add_table pgdir d v s) pgdir l.
Proof.
  destruct add_table_new as (Hpv & Hne & Hnv & Hf). destruct Hok as [_ [Hpd Hnd] Htab Hinj].
  split; [exact Hf|split; [exact Hpd|set_solver]| |].
  - intros e He. destruct (add_table_tables e He) as [-> ->]. case_decide; [auto|].
    intros Hte. destruct (Htab e He Hte) as (? & ? & ?). split_and!; set_solver.
  - intros e e' He He' Hee. destruct (add_table_tables e He) as [-> ->].
    destruct (add_table_tables e' He') as [-> ->].
    repeat case_decide; try (intros; congruence).
    + intros _ Q E. destruct (Htab e' He' Q) as (_ & _ & Hn). apply Hn. rewrite <- E. set_solver.
    + intros Q _ E. destruct (Htab e He Q) as (_ & _ & Hn). apply Hn. rewrite E. set_solver.
    + apply Hinj; assumption.
Qed.

(** The new page table has no entries. *)
Lemma add_table_pte (v' : Z) :
  0 <= v' < NVPAGE -> pte (k_mem (add_table pgdir d v s)) pgdir v' = pte (k_mem s) pgdir v'.
Proof.
  intros Hv'. destruct add_table_new as (Hpv & Hne & Hnv & _). destruct (vo_dir _ _ _ Hok) as [Hpd _].
  destruct (vpage_split v' Hv') as [H1 H2]. unfold pte.
  destruct (add_table_tables (v' / 1024) H1) as [-> ->]. case_decide as E.
  - rewrite E, Ht. assert (Z : forall b, v <= b < v + PGSIZE -> rd (k_mem (add_table pgdir d v s)) b = 0).
    { intros b Hb. simpl. rewrite (agree_wr32 _ v pgdir) by (assumption || (unfold PGSIZE; lia)).
      rewrite rd_memset, decide_True; [reflexivity|exact Hb|unfold PGSIZE; lia]. }
    unfold rd32. rewrite !Z by (unfold PGSIZE; lia). reflexivity.
  - destruct (has_table (k_mem s) pgdir (v' / 1024)) eqn:Ht'; [|reflexivity].
    destruct (vo_tab _ _ _ Hok _ H1 Ht') as (Hp & Hn1 & Hn2).
    apply (agree_rd32 _ _ (table (k_mem s) pgdir (v' / 1024))); [|lia|unfold PGSIZE; lia].
    apply add_table_agree; [exact Hp|exact Hn1|]. intros E'. apply Hn2. rewrite E'. set_solver.
Qed.

End NewTable.

(** [walkpgdir] with [alloc] set where the page table is missing. *)
Lemma walk_alloc (s : kernel) (pgdir va : Z) (l : list Z) :
  vm_ok s pgdir l -> kmem_lock ∉ k_held s -> 0 <= va < 2 ^ 32 ->
  has_table (k_mem s) pgdir (va / PGSIZE / 1024) = false ->
  walkpgdir pgdir va true s =
    match l with
    | [] => Done 0 s
    | v :: _ =>
        let t := add_table pgdir (va / PGSIZE / 1024) v s in
        Done (slot (k_mem t) pgdir (va / PGSIZE)) t
    end.
Proof.
  intros Hok Hl Hv Ht. pose proof (kalloc_free_pages s l (vo_free _ _ _ Hok) Hl) as Hk.
  unfold walkpgdir, ld32. kstep. rewrite PDX_vpage, PTX_eq by exact Hv.
  pose proof Ht as Ht'. unfold has_table in Ht'. rewrite Ht'. cbn [negb].
  destruct l as [|v l].
  { erewrite bind_Done by exact Hk. reflexivity. }
  destruct Hk as (Hp & _ & E & _). erewrite bind_Done by exact E.
  rewrite (proj2 (Z.eqb_neq v 0)) by (apply page_high in Hp; unfold KERNLINK, KERNBASE, EXTMEM, PHYSTOP in *; lia).
  unfold mem_set, st32. kstep. kstep. cbv zeta. unfold slot.
  destruct (add_table_tables s pgdir (va / PGSIZE / 1024) v l Hok) with (d' := va / PGSIZE / 1024) as [_ ->];
    [apply vpage_split, vpage_range, Hv|exact Ht|apply vpage_split, vpage_range, Hv|].
  rewrite decide_True by reflexivity. reflexivity.
Qed.

(** ** What an operation that adds mappings may change

    Only memory and the free list change; pages come off the front of the
    free list; only the page directory, page tables and pages that were free
    are written; page tables stay where they are. *)

Record vm_step (pgdir : Z) (s t : kernel) (l l' : list Z) : Prop := {
  vs_ok : vm_ok t pgdir l';
  vs_free : exists l0, l = l0 ++ l';
  vs_only : t = s <| k_mem := k_mem t |> <| k_freelist := k_freelist t |>;
  vs_keep : forall d, 0 <= d < 1024 -> has_table (k_mem s) pgdir d = true ->
    has_table (k_mem t) pgdir d = true /\ table (k_mem t) pgdir d = table (k_mem s) pgdir d;
  vs_new : forall d, 0 <= d < 1024 -> has_table (k_mem t) pgdir d = true ->
    has_table (k_mem s) pgdir d = true \/ table (k_mem t) pgdir d ∈ l;
  vs_used : forall w, w ∈ l -> w ∈ l' \/
    exists d, 0 <= d < 1024 /\ has_table (k_mem t) pgdir d = true /\ w = table (k_mem t) pgdir d;
  vs_agree : forall w, page w -> w <> pgdir -> w ∉ l ->
    (forall d, 0 <= d < 1024 -> has_table (k_mem s) pgdir d = true -> w <> table (k_mem s) pgdir d) ->
    agree (k_mem s) (k_mem t) w
}.

Lemma vm_step_refl (pgdir : Z) (s : kernel) (l : list Z) : vm_ok s pgdir l -> vm_step pgdir s s l l.
Proof.
  intros H. split; auto using agree_refl. exists []. reflexivity.
Qed.

Lemma vm_step_trans (pgdir : Z) (s t u : kernel) (l l' l'' : list Z) :
  vm_step pgdir s t l l' -> vm_step pgdir t u l' l'' -> vm_step pgdir s u l l''.
Proof.
  intros [O1 [l1 F1] T1 K1 N1 U1 A1] [O2 [l2 F2] T2 K2 N2 U2 A2]. split.
  - exact O2.
  - exists (l1 ++ l2). rewrite <- app_assoc, <- F2. exact F1.
  - rewrite T2, T1. reflexivity.
  - intros d Hd Hs. destruct (K1 d Hd Hs) as [Ht E1]. destruct (K2 d Hd Ht) as [Hu E2].
    split; [exact Hu|]. congruence.
  - intros d Hd Hu. destruct (N2 d Hd Hu) as [Ht|Hin].
    + destruct (N1 d Hd Ht) as [Hs|Hin]; [auto|]. right. destruct (K2 d Hd Ht) as [_ ->]. exact Hin.
    + right. rewrite F1. apply elem_of_app. auto.
  - intros w Hw. destruct (U1 w Hw) as [H|(d & Hd & Ht & ->)]; [auto|]. right. exists d.
    destruct (K2 d Hd Ht) as [H1 H2]. auto.
  - intros w Hw Hp Hl Hd. apply agree_trans with (m2 := k_mem t); [apply A1; assumption|].
    apply A2; try assumption.
    + intros Hin. apply Hl. rewrite F1. apply elem_of_app. auto.
    + intros d Hr Ht. destruct (N1 d Hr Ht) as [Hs|Hin].
      * destruct (K1 d Hr Hs) as [_ ->]. apply Hd; assumption.
      * intros ->. done.
Qed.

Lemma vm_step_held (pgdir : Z) (s t : kernel) (l l' : list Z) :
  vm_step pgdir s t l l' -> k_held t = k_held s.
Proof. intros H. rewrite (vs_only _ _ _ _ _ H). reflexivity. Qed.

(** Adding a page table, and storing an entry, are such steps. *)
Lemma add_table_step (s : kernel) (pgdir d v : Z) (l : list Z) :
  vm_ok s pgdir (v :: l) -> 0 <= d < 1024 -> has_table (k_mem s) pgdir d = false ->
  vm_step pgdir s (add_table pgdir d v s) (v :: l) l.
Proof.
  intros Hok Hd Ht. split.
  - apply add_table_ok; assumption.
  - exists [v]. reflexivity.
  - reflexivity.
  - intros e He Hs. destruct (add_table_tables s pgdir d v l Hok Hd Ht e He) as [-> ->].
    rewrite !decide_False by congruence. auto.
  - intros e He. destruct (add_table_tables s pgdir d v l Hok Hd Ht e He) as [-> ->].
    case_decide; [right; set_solver|auto].
  - intros w. rewrite elem_of_cons. intros [->|H]; [right; exists d|auto].
    destruct (add_table_tables s pgdir d v l Hok Hd Ht d Hd) as [-> ->].
    rewrite !decide_True by reflexivity. auto.
  - intros w Hw H1 H2 _. apply (add_table_agree s pgdir d v l); set_solver.
Qed.

Lemma set_pte_step (s : kernel) (pgdir v x : Z) (l : list Z) :
  vm_ok s pgdir l -> 0 <= v < NVPAGE -> has_table (k_mem s) pgdir (v / 1024) = true ->
  vm_step pgdir s (set_pte v x pgdir s) l l.
Proof.
  intros Hok Hv Ht. destruct (vpage_split v Hv) as [H1 _]. split.
  - apply set_pte_ok; assumption.
  - exists []. reflexivity.
  - reflexivity.
  - intros e He Hs. destruct (set_pte_tables s pgdir v x l Hok Hv Ht e He) as [-> ->]. auto.
  - intros e He. destruct (set_pte_tables s pgdir v x l Hok Hv Ht e He) as [-> ->]. auto.
  - auto.
  - intros w Hw Hp Hl Hd. apply (set_pte_agree s pgdir v x l); try assumption. apply Hd; assumption.
Qed.

(** [walkpgdir] with [alloc] set: the slot of the page, or 0 when a page
    table is missing and no page is free. *)
Lemma walk_step (s : kernel) (pgdir va : Z) (l : list Z) :
  vm_ok s pgdir l -> kmem_lock ∉ k_held s -> 0 <= va < 2 ^ 32 ->
  (walkpgdir pgdir va true s = Done 0 s /\ l = []) \/
  exists t l', walkpgdir pgdir va true s = Done (slot (k_mem t) pgdir (va / PGSIZE)) t /\
    vm_step pgdir s t l l' /\ has_table (k_mem t) pgdir (va / PGSIZE / 1024) = true /\
    (forall v, 0 <= v < NVPAGE -> pte (k_mem t) pgdir v = pte (k_mem s) pgdir v).
Proof.
  intros Hok Hl Hva. destruct (vpage_split _ (vpage_range va Hva)) as [Hd _].
  destruct (has_table (k_mem s) pgdir (va / PGSIZE / 1024)) eqn:Ht.
  - right. exists s, l. split_and!; [apply walk_hit; assumption|apply vm_step_refl, Hok|exact Ht|auto].
  - pose proof (walk_alloc s pgdir va l Hok Hl Hva Ht) as E. destruct l as [|v l]; [auto|].
    right. eexists _, l. split_and!; [exact E|apply add_table_step; assumption| |].
    + destruct (add_table_tables s pgdir _ v l Hok Hd Ht _ Hd) as [-> _]. apply decide_True. reflexivity.
    + apply add_table_pte with (l := l); assumption.
Qed.

(** ** mappages *)

(** One turn of the loop. *)
Lemma mappages_one (n : nat) (pgdir v0 last pa perm : Z) (s : kernel) (l : list Z) :
  vm_ok s pgdir l -> kmem_lock ∉ k_held s -> 0 <= v0 < NVPAGE ->
  present (pte (k_mem s) pgdir v0) = false ->
  (mappages_loop (S n) pgdir (v0 * PGSIZE) last pa perm s = Done (-1) s /\ l = []) \/
  exists t l',
    mappages_loop (S n) pgdir (v0 * PGSIZE) last pa perm s =
      (if v0 * PGSIZE =? last then Done 0 t
       else mappages_loop n pgdir (u32 (v0 * PGSIZE + PGSIZE)) last (u32 (pa + PGSIZE)) perm t) /\
    vm_step pgdir s t l l' /\
    forall v, 0 <= v < NVPAGE -> pte (k_mem t) pgdir v =
      if decide (v = v0) then u32 (Z.lor (Z.lor pa perm) PTE_P) else pte (k_mem s) pgdir v.
Proof.
  intros Hok Hl Hr Hnp. cbn [mappages_loop].
  assert (Hva : 0 <= v0 * PGSIZE < 2 ^ 32) by (unfold PGSIZE, NVPAGE in *; lia).
  assert (Hv : v0 * PGSIZE / PGSIZE = v0) by (apply Z.div_mul; discriminate).
  destruct (walk_step s pgdir (v0 * PGSIZE) l Hok Hl Hva) as [ [E ->]|(t1 & l1 & E & S1 & T1 & P1)].
  { left. split; [|reflexivity]. erewrite bind_Done by exact E. reflexivity. }
  rewrite Hv in *. pose proof (vs_ok _ _ _ _ _ S1) as Hok1. right.
  exists (set_pte v0 (Z.lor (Z.lor pa perm) PTE_P) pgdir t1), l1. split_and!.
  - erewrite bind_Done by exact E. rewrite (slot_nonzero t1 pgdir v0 l1) by assumption.
    unfold ld32, st32. kstep. rewrite <- pte_slot, P1, Hnp by assumption. kstep.
    destruct (_ =? last); reflexivity.
  - eapply vm_step_trans; [exact S1|]. apply set_pte_step; assumption.
  - intros v Hvr. rewrite (set_pte_pte t1 pgdir v0 _ l1) by assumption.
    case_decide; [reflexivity|]. apply P1, Hvr.
Qed.

(** The entries of [k] pages mapped from page [v0] on. *)
Definition mapped (m m' : gmap Z Z) (pgdir v0 k pa perm : Z) : Prop :=
  forall v, 0 <= v < NVPAGE -> pte m' pgdir v =
    if decide (v0 <= v < v0 + k)
    then u32 (Z.lor (Z.lor (u32 (pa + (v - v0) * PGSIZE)) perm) PTE_P)
    else pte m pgdir v.

Lemma mappages_loop_run (n : nat) (pgdir v0 pa perm : Z) (s : kernel) (l : list Z) :
  vm_ok s pgdir l -> kmem_lock ∉ k_held s -> 0 <= v0 -> v0 + Z.of_nat n < NVPAGE ->
  0 <= pa < 2 ^ 32 ->
  (forall v, v0 <= v <= v0 + Z.of_nat n -> present (pte (k_mem s) pgdir v) = false) ->
  exists r t l' k,
    mappages_loop (S n) pgdir (v0 * PGSIZE) ((v0 + Z.of_nat n) * PGSIZE) pa perm s = Done r t /\
    vm_step pgdir s t l l' /\ mapped (k_mem s) (k_mem t) pgdir v0 k pa perm /\
    (r = 0 /\ k = Z.of_nat n + 1 \/ r = -1 /\ 0 <= k <= Z.of_nat n /\ l' = []).
Proof.
  revert v0 pa s l. induction n as [n IH] using lt_wf_ind; intros v0 pa s l Hok Hl H0 Hn Hpa Hnp.
  destruct (mappages_one n pgdir v0 ((v0 + Z.of_nat n) * PGSIZE) pa perm s l Hok Hl)
    as [ [E ->]|(t & l1 & E & S1 & P1)]; [lia|apply Hnp; lia| |].
  { exists (-1), s, [], 0. split_and!; [exact E|apply vm_step_refl, Hok| |right; split_and!; lia || reflexivity].
    intros v Hv. rewrite decide_False by lia. reflexivity. }
  assert (M1 : mapped (k_mem s) (k_mem t) pgdir v0 1 pa perm).
  { intros v Hv. rewrite P1 by exact Hv. destruct (decide (v = v0)) as [->|Hne].
    - rewrite decide_True by lia. rewrite Z.sub_diag, Z.add_0_r, (u32_small pa) by exact Hpa. reflexivity.
    - rewrite decide_False by lia. reflexivity. }
  destruct n as [|n].
  { replace (v0 + Z.of_nat 0) with v0 in * by lia. rewrite Z.eqb_refl in E.
    exists 0, t, l1, 1. split_and!; [exact E|exact S1|exact M1|left; split; reflexivity]. }
  rewrite (proj2 (Z.eqb_neq _ _)) in E by (unfold PGSIZE; lia).
  replace (u32 (v0 * PGSIZE + PGSIZE)) with ((v0 + 1) * PGSIZE) in E
    by (rewrite u32_small; unfold PGSIZE, NVPAGE in *; lia).
  replace (v0 + Z.of_nat (S n)) with (v0 + 1 + Z.of_nat n) in * by lia.
  destruct (IH n ltac:(lia) (v0 + 1) (u32 (pa + PGSIZE)) t l1) as (r & u & l2 & k & E2 & S2 & M2 & R).
  { apply (vs_ok _ _ _ _ _ S1). }
  { rewrite (vm_step_held _ _ _ _ _ S1). exact Hl. }
  { lia. } { lia. } { apply u32_range. }
  { intros v Hv. rewrite M1, decide_False by lia. apply Hnp. lia. }
  exists r, u, l2, (k + 1). split_and!; [rewrite E; exact E2|eapply vm_step_trans; eassumption| |].
  2: { destruct R as [ [-> ->]|(-> & Hk & ->)]; [left|right]; split_and!; lia || reflexivity. }
  intros v Hv. rewrite M2 by exact Hv. rewrite M1 by exact Hv.
  destruct (decide (v0 + 1 <= v < v0 + 1 + k)) as [H1|H1].
  - rewrite (decide_True (P := v0 <= v < v0 + (k + 1))) by lia.
    do 3 f_equal. unfold u32, PGSIZE. rewrite Zplus_mod_idemp_l. f_equal. lia.
  - destruct (decide (v0 <= v < v0 + 1)).
    + rewrite (decide_True (P := v0 <= v < v0 + (k + 1))) by lia. reflexivity.
    + rewrite decide_False by lia. reflexivity.
Qed.

(** [mappages] on whole pages: every page is mapped, or memory ran out after
    [k] pages. *)
Lemma mappages_run (pgdir v0 n pa perm : Z) (s : kernel) (l : list Z) :
  vm_ok s pgdir l -> kmem_lock ∉ k_held s -> 0 <= v0 -> 0 < n -> v0 + n <= NVPAGE ->
  0 <= pa < 2 ^ 32 ->
  (forall v, v0 <= v < v0 + n -> present (pte (k_mem s) pgdir v) = false) ->
  exists r t l' k,
    mappages pgdir (v0 * PGSIZE) (n * PGSIZE) pa perm s = Done r t /\
    vm_step pgdir s t l l' /\ mapped (k_mem s) (k_mem t) pgdir v0 k pa perm /\
    (r = 0 /\ k = n \/ r = -1 /\ 0 <= k < n /\ l' = []).
Proof.
  intros Hok Hl H0 Hn0 Hn Hpa Hnp. unfold mappages.
  assert (Ea : PGROUNDDOWN (u32 (v0 * PGSIZE)) = v0 * PGSIZE).
  { rewrite PGROUNDDOWN_eq, u32_small, Z.mod_mul by (unfold PGSIZE, NVPAGE in *; lia). lia. }
  assert (El : PGROUNDDOWN (u32 (v0 * PGSIZE + n * PGSIZE - 1)) = (v0 + (n - 1)) * PGSIZE).
  { rewrite PGROUNDDOWN_eq, u32_small by (unfold PGSIZE, NVPAGE in *; lia).
    unfold PGSIZE. Z.div_mod_to_equations. lia. }
  assert (Ed : u32 ((v0 + (n - 1)) * PGSIZE - v0 * PGSIZE) / PGSIZE = n - 1).
  { rewrite u32_small by (unfold PGSIZE, NVPAGE in *; lia).
    replace (_ - _) with ((n - 1) * PGSIZE) by (unfold PGSIZE; lia). apply Z.div_mul. discriminate. }
  rewrite Ea, El, Ed.
  destruct (mappages_loop_run (Z.to_nat (n - 1)) pgdir v0 pa perm s l) as (r & t & l' & k & E & S & Mp & R);
    try assumption; try lia.
  { intros v Hv. apply Hnp. lia. }
  rewrite Z2Nat.id in E, R by lia. exists r, t, l', k. split_and!; [exact E|exact S|exact Mp|].
  destruct R as [ [-> ->]|(-> & Hk & ->)]; [left|right]; split_and!; lia || reflexivity.
Qed.

(** One page: mapped, or nothing is done because no page is free for a page
    table. *)
Lemma mappages_page (pgdir v pa perm : Z) (s : kernel) (l : list Z) :
  vm_ok s pgdir l -> kmem_lock ∉ k_held s -> 0 <= v < NVPAGE ->
  present (pte (k_mem s) pgdir v) = false ->
  (mappages pgdir (v * PGSIZE) PGSIZE pa perm s = Done (-1) s /\ l = []) \/
  exists t l', mappages pgdir (v * PGSIZE) PGSIZE pa perm s = Done 0 t /\ vm_step pgdir s t l l' /\
    forall w, 0 <= w < NVPAGE -> pte (k_mem t) pgdir w =
      if decide (w = v) then u32 (Z.lor (Z.lor pa perm) PTE_P) else pte (k_mem s) pgdir w.
Proof.
  intros Hok Hl Hv Hnp.
  assert (E : mappages pgdir (v * PGSIZE) PGSIZE pa perm s
              = mappages_loop 1 pgdir (v * PGSIZE) (v * PGSIZE) pa perm s).
  { unfold mappages. rewrite !PGROUNDDOWN_eq.
    rewrite (u32_small (v * PGSIZE)), (u32_small (v * PGSIZE + PGSIZE - 1))
      by (unfold PGSIZE, NVPAGE in *; lia).
    rewrite Z.mod_mul by discriminate.
    replace (v * PGSIZE + PGSIZE - 1 - (v * PGSIZE + PGSIZE - 1) mod PGSIZE) with (v * PGSIZE)
      by (unfold PGSIZE; Z.div_mod_to_equations; lia).
    rewrite Z.sub_0_r, Z.sub_diag. reflexivity. }
  rewrite E. destruct (mappages_one 0 pgdir v (v * PGSIZE) pa perm s l Hok Hl Hv Hnp)
    as [ [E1 ->]|(t & l' & E1 & S1 & P1)]; [auto|].
  rewrite Z.eqb_refl in E1. right. eauto 10.
Qed.

End VmSpec.
