(* ===== verification/UserSpace.v ===== *)
(** * User memory: allocuvm, deallocuvm, freevm, copyout

    The pages below [KERNBASE] of an address space.  [space_ok] adds to
    [vm_ok] that the pages mapped there are distinct, and distinct from the
    free pages and from the pages the page table is made of. *)

From S2P Require Import Prelude Params Bytes CString Kernel Print Kalloc Vm VmSpec.

Section UserSpace.
Context {L : Linker}.

(** The page a virtual page is mapped to, as the kernel addresses it. *)
Definition frame_at (m : gmap Z Z) (pgdir v : Z) : Z := P2V (PTE_ADDR (pte m pgdir v)).

(** The number of pages below [KERNBASE]. *)
Definition UPAGES : Z := 0x80000.

(** Virtual page [v] of user memory is mapped. *)
Definition umapped (m : gmap Z Z) (pgdir v : Z) : Prop :=
  0 <= v < UPAGES /\ present (pte m pgdir v) = true.

(** [w] is the page directory or one of the page tables. *)
Definition in_table (m : gmap Z Z) (pgdir w : Z) : Prop :=
  w = pgdir \/ exists d, 0 <= d < 1024 /\ has_table m pgdir d = true /\ w = table m pgdir d.

Record space_ok (s : kernel) (pgdir : Z) (l : list Z) : Prop := {
  so_vm : vm_ok s pgdir l;
  so_page : forall v, umapped (k_mem s) pgdir v ->
    page (frame_at (k_mem s) pgdir v) /\ (frame_at (k_mem s) pgdir v ∉ l) /\
    ~ in_table (k_mem s) pgdir (frame_at (k_mem s) pgdir v);
  so_inj : forall v w, umapped (k_mem s) pgdir v -> umapped (k_mem s) pgdir w ->
    frame_at (k_mem s) pgdir v = frame_at (k_mem s) pgdir w -> v = w
}.

Lemma umapped_vpage (m : gmap Z Z) (pgdir v : Z) : umapped m pgdir v -> 0 <= v < NVPAGE.
Proof. intros [H _]. unfold UPAGES, NVPAGE in *. lia. Qed.

(** Only memory and the free list change. *)
Definition mem_only (s t : kernel) : Prop :=
  t = s <| k_mem := k_mem t |> <| k_freelist := k_freelist t |>.

Lemma mem_only_trans (s t u : kernel) : mem_only s t -> mem_only t u -> mem_only s u.
Proof. unfold mem_only. intros H1 H2. rewrite H2, H1. reflexivity. Qed.

Lemma mem_only_held (s t : kernel) : mem_only s t -> k_held t = k_held s.
Proof. unfold mem_only. intros ->. reflexivity. Qed.

(** ** Giving back one page *)

(** The state after [kfree(P2V(PTE_ADDR(pte)))] and [*pte = 0]. *)
Definition unmap (v pgdir : Z) (s : kernel) : kernel :=
  let f := frame_at (k_mem s) pgdir v in
  set_pte v 0 pgdir
    (s <| k_mem := wr32 f (k_freelist s) (memset f 1 PGSIZE (k_mem s)) |> <| k_freelist := f |>).

Section Unmap.
Context (s : kernel) (pgdir v : Z) (l : list Z).
Context (Hok : space_ok s pgdir l) (Hv : umapped (k_mem s) pgdir v).

Let f : Z := frame_at (k_mem s) pgdir v.
Let s1 : kernel :=
  s <| k_mem := wr32 f (k_freelist s) (memset f 1 PGSIZE (k_mem s)) |> <| k_freelist := f |>.

Lemma unmap_page : page f /\ (f ∉ l) /\ ~ in_table (k_mem s) pgdir f.
Proof. exact (so_page _ _ _ Hok v Hv). Qed.

Lemma unmap_has_table : has_table (k_mem s) pgdir (v / 1024) = true.
Proof.
  destruct Hv as [_ H]. unfold pte in H. destruct (has_table _ _ _); [reflexivity|discriminate].
Qed.

Lemma unmap_agree1 (w : Z) : page w -> w <> f -> agree (k_mem s) (k_mem s1) w.
Proof.
  intros Hw Hne b Hb. apply rd_page_init.
  destruct unmap_page as (Hp & _). destruct (page_apart w f Hw Hp Hne); lia.
Qed.

Lemma unmap_vm1 : vm_ok s1 pgdir (f :: l).
Proof.
  destruct unmap_page as (Hp & Hn & Ht).
  destruct (so_vm _ _ _ Hok) as [(Hc & Hd & Hfl) [Hpd Hnd] Htab Hinj].
  assert (A : agree (k_mem s) (k_mem s1) pgdir).
  { apply unmap_agree1; [exact Hpd|]. intros E. apply Ht. left. congruence. }
  assert (F : free_pages s l) by (split_and!; assumption).
  split.
  - split_and!; [|apply NoDup_cons; auto|constructor; assumption].
    simpl. split; [reflexivity|]. rewrite rd32_wr32_same, (freelist_u32 s l F).
    eapply freechain_frame; [|exact Hc]. intros w b Hw Hb. apply (unmap_agree1 w).
    + rewrite Forall_forall in Hfl. apply Hfl, Hw.
    + intros ->. done.
    + unfold PGSIZE. lia.
  - split; [exact Hpd|]. rewrite elem_of_cons. intros [E|E]; [|done]. apply Ht. left. congruence.
  - intros d Hr. destruct (agree_table _ _ pgdir d A Hr) as [-> ->]. intros Hh.
    destruct (Htab d Hr Hh) as (H1 & H2 & H3). split_and!; try assumption.
    rewrite elem_of_cons. intros [E|E]; [|done]. apply Ht. right. eauto.
  - intros d d' Hr Hr' Hne. destruct (agree_table _ _ pgdir d A Hr) as [-> ->].
    destruct (agree_table _ _ pgdir d' A Hr') as [-> ->]. apply Hinj; assumption.
Qed.

Lemma unmap_tables1 (d : Z) :
  0 <= d < 1024 ->
  has_table (k_mem s1) pgdir d = has_table (k_mem s) pgdir d /\
  table (k_mem s1) pgdir d = table (k_mem s) pgdir d.
Proof.
  intros Hd. destruct unmap_page as (_ & _ & Ht). apply agree_table; [|exact Hd].
  apply unmap_agree1; [apply (vo_dir _ _ _ (so_vm _ _ _ Hok))|]. intros E. apply Ht. left. congruence.
Qed.

Lemma unmap_pte1 (v' : Z) : 0 <= v' < NVPAGE -> pte (k_mem s1) pgdir v' = pte (k_mem s) pgdir v'.
Proof.
  intros Hr. destruct unmap_page as (_ & _ & Ht).
  destruct (so_vm _ _ _ Hok) as [_ [Hpd _] Htab _]. apply agree_pte; [| |exact Hr].
  - apply unmap_agree1; [exact Hpd|]. intros E. apply Ht. left. congruence.
  - intros d Hd Hh. apply unmap_agree1; [apply Htab; assumption|]. intros E. apply Ht. right. eauto.
Qed.

(** What [unmap] does: the page is free, the entry is 0, nothing else of the
    address space changes. *)
Lemma unmap_tables (d : Z) :
  0 <= d < 1024 ->
  has_table (k_mem (unmap v pgdir s)) pgdir d = has_table (k_mem s) pgdir d /\
  table (k_mem (unmap v pgdir s)) pgdir d = table (k_mem s) pgdir d.
Proof.
  intros Hd. destruct (unmap_tables1 d Hd) as [<- <-].
  destruct (vpage_split v (umapped_vpage _ _ _ Hv)) as [Hv1 _].
  apply (set_pte_tables s1 pgdir v 0 (f :: l)); [apply unmap_vm1|apply (umapped_vpage _ _ _ Hv)| |exact Hd].
  destruct (unmap_tables1 (v / 1024) Hv1) as [-> _]. apply unmap_has_table.
Qed.

Lemma unmap_pte (v' : Z) :
  0 <= v' < NVPAGE ->
  pte (k_mem (unmap v pgdir s)) pgdir v' = if decide (v' = v) then 0 else pte (k_mem s) pgdir v'.
Proof.
  intros Hr. destruct (vpage_split v (umapped_vpage _ _ _ Hv)) as [Hv1 _].
  change (unmap v pgdir s) with (set_pte v 0 pgdir s1). rewrite (set_pte_pte s1 pgdir v 0 (f :: l)).
  - case_decide; [reflexivity|apply unmap_pte1, Hr].
  - apply unmap_vm1.
  - apply (umapped_vpage _ _ _ Hv).
  - destruct (unmap_tables1 (v / 1024) Hv1) as [-> _]. apply unmap_has_table.
  - exact Hr.
Qed.

Lemma unmap_agree (w : Z) :
  page w -> w <> f -> ~ in_table (k_mem s) pgdir w -> agree (k_mem s) (k_mem (unmap v pgdir s)) w.
Proof.
  intros Hw Hne Ht. destruct (vpage_split v (umapped_vpage _ _ _ Hv)) as [Hv1 _].
  destruct (unmap_tables1 (v / 1024) Hv1) as [E1 E2].
  eapply agree_trans; [apply unmap_agree1; assumption|].
  apply (set_pte_agree s1 pgdir v 0 (f :: l)); [apply unmap_vm1|apply (umapped_vpage _ _ _ Hv)| |exact Hw|].
  - rewrite E1. apply unmap_has_table.
  - rewrite E2. intros ->. apply Ht. right. eauto using unmap_has_table.
Qed.

Lemma unmap_in_table (w : Z) : in_table (k_mem (unmap v pgdir s)) pgdir w <-> in_table (k_mem s) pgdir w.
Proof.
  unfold in_table. split; (intros [->|(d & Hd & Hh & ->)]; [auto|]); right; exists d;
    destruct (unmap_tables d Hd) as [E1 E2]; rewrite E1, E2 in *; auto.
Qed.

Lemma unmap_umapped (v' : Z) : umapped (k_mem (unmap v pgdir s)) pgdir v' <-> v' <> v /\ umapped (k_mem s) pgdir v'.
Proof.
  unfold umapped. split.
  - intros [Hr H]. rewrite unmap_pte in H by (unfold UPAGES, NVPAGE in *; lia).
    case_decide; [discriminate|]. auto.
  - intros (Hne & Hr & H). split; [exact Hr|].
    rewrite unmap_pte, decide_False by (assumption || (unfold UPAGES, NVPAGE in *; lia)).
    exact H.
Qed.

Lemma unmap_frame (v' : Z) :
  umapped (k_mem (unmap v pgdir s)) pgdir v' ->
  frame_at (k_mem (unmap v pgdir s)) pgdir v' = frame_at (k_mem s) pgdir v'.
Proof.
  intros H. pose proof (umapped_vpage _ _ _ H) as Hr. apply unmap_umapped in H as [Hne _].
  unfold frame_at. rewrite unmap_pte, decide_False by assumption. reflexivity.
Qed.

Lemma unmap_ok : space_ok (unmap v pgdir s) pgdir (f :: l).
Proof.
  destruct (vpage_split v (umapped_vpage _ _ _ Hv)) as [Hv1 _]. split.
  - apply (set_pte_ok s1 pgdir v 0 (f :: l)); [apply unmap_vm1|apply (umapped_vpage _ _ _ Hv)|].
    destruct (unmap_tables1 (v / 1024) Hv1) as [-> _]. apply unmap_has_table.
  - intros v' H. rewrite (unmap_frame v' H), unmap_in_table. apply unmap_umapped in H as [Hne H].
    destruct (so_page _ _ _ Hok v' H) as (H1 & H2 & H3). split_and!; try assumption.
    rewrite elem_of_cons. intros [E|E]; [|done]. apply Hne, (so_inj _ _ _ Hok); assumption.
  - intros a b Ha Hb. rewrite (unmap_frame a Ha), (unmap_frame b Hb).
    apply unmap_umapped in Ha as [_ Ha], Hb as [_ Hb]. apply (so_inj _ _ _ Hok); assumption.
Qed.

End Unmap.

(** ** deallocuvm *)

(** The user pages [a .. b-1] that were mapped are free now; everything else
    is as before. *)
Record released (pgdir a b : Z) (s t : kernel) (l l' : list Z) : Prop := {
  rl_ok : space_ok t pgdir l';
  rl_only : mem_only s t;
  rl_tables : forall d, 0 <= d < 1024 ->
    has_table (k_mem t) pgdir d = has_table (k_mem s) pgdir d /\
    table (k_mem t) pgdir d = table (k_mem s) pgdir d;
  rl_gone : forall v, a <= v < b -> umapped (k_mem s) pgdir v -> pte (k_mem t) pgdir v = 0;
  rl_pte : forall v, 0 <= v < NVPAGE -> ~ (a <= v < b /\ umapped (k_mem s) pgdir v) ->
    pte (k_mem t) pgdir v = pte (k_mem s) pgdir v;
  rl_free : exists l0, l' = l0 ++ l /\
    forall w, w ∈ l0 <-> exists v, a <= v < b /\ umapped (k_mem s) pgdir v /\ w = frame_at (k_mem s) pgdir v;
  rl_agree : forall w, page w -> ~ in_table (k_mem s) pgdir w ->
    (forall v, a <= v < b -> umapped (k_mem s) pgdir v -> w <> frame_at (k_mem s) pgdir v) ->
    agree (k_mem s) (k_mem t) w
}.

Lemma released_nothing (pgdir a b : Z) (s : kernel) (l : list Z) :
  space_ok s pgdir l -> b <= a -> released pgdir a b s s l l.
Proof.
  intros H Hab. split; auto using agree_refl.
  - reflexivity.
  - lia.
  - exists []. split; [reflexivity|]. intros w. rewrite elem_of_nil. split; [done|].
    intros (v & Hv & _). lia.
Qed.

Lemma released_skip (pgdir a c b : Z) (s t : kernel) (l l' : list Z) :
  a <= c -> (forall v, a <= v < c -> ~ umapped (k_mem s) pgdir v) ->
  released pgdir c b s t l l' -> released pgdir a b s t l l'.
Proof.
  intros Hac Hn [O T Tb G P [l0 [F1 F2] ] A].
  assert (E : forall v, a <= v < b -> umapped (k_mem s) pgdir v -> c <= v < b).
  { intros v Hv Hu. destruct (decide (v < c)); [exfalso; apply (Hn v); [lia|exact Hu]|lia]. }
  split; try assumption.
  - intros v Hv Hu. apply G; auto.
  - intros v Hr Hv. apply P; [exact Hr|]. intros [H1 H2]. apply Hv. split; [lia|exact H2].
  - exists l0. split; [exact F1|]. intros w. rewrite F2.
    split; intros (v & H1 & H2 & H3); exists v; (split; [|auto]); [lia|auto].
  - intros w Hw Hi Hv. apply A; [exact Hw|exact Hi|]. intros v Hr. apply Hv. lia.
Qed.

Lemma released_unmap (pgdir a b : Z) (s t : kernel) (l l' : list Z) :
  space_ok s pgdir l -> a < b -> umapped (k_mem s) pgdir a ->
  released pgdir (a + 1) b (unmap a pgdir s) t (frame_at (k_mem s) pgdir a :: l) l' ->
  released pgdir a b s t l l'.
Proof.
  intros Hok Hab Ha [O T Tb G P [l0 [F1 F2] ] A].
  pose proof (unmap_umapped s pgdir a l Hok Ha) as U.
  assert (Fr : forall v, umapped (k_mem s) pgdir v -> v <> a ->
    frame_at (k_mem (unmap a pgdir s)) pgdir v = frame_at (k_mem s) pgdir v).
  { intros v Hv Hne. apply (unmap_frame s pgdir a l Hok Ha). apply U. auto. }
  split.
  - exact O.
  - eapply mem_only_trans; [reflexivity|exact T].
  - intros d Hd. destruct (Tb d Hd) as [-> ->]. apply (unmap_tables s pgdir a l Hok Ha d Hd).
  - intros v Hv Hu. destruct (decide (v = a)) as [->|Hne].
    + rewrite P; [|apply (umapped_vpage _ _ _ Hu)|lia].
      rewrite (unmap_pte s pgdir a l Hok Ha) by apply (umapped_vpage _ _ _ Hu). apply decide_True. reflexivity.
    + apply G; [lia|]. apply U. auto.
  - intros v Hr Hv. assert (Hne : v <> a) by (intros ->; apply Hv; split; [lia|exact Ha]).
    rewrite P; [|exact Hr|rewrite U; intros (H1 & _ & H2); apply Hv; split; [lia|exact H2] ].
    rewrite (unmap_pte s pgdir a l Hok Ha), decide_False by assumption. reflexivity.
  - exists (l0 ++ [frame_at (k_mem s) pgdir a]). split; [rewrite <- app_assoc; exact F1|].
    intros w. rewrite elem_of_app, F2, list_elem_of_singleton. split.
    + intros [(v & H1 & H2 & ->)| ->]; [|exists a; auto with lia]. apply U in H2 as [Hne H2].
      exists v. rewrite Fr by assumption. auto with lia.
    + intros (v & H1 & H2 & ->). destruct (decide (v = a)) as [->|Hne]; [auto|left].
      exists v. rewrite Fr, U by assumption. auto with lia.
  - intros w Hw Hi Hv. eapply agree_trans; [apply (unmap_agree s pgdir a l Hok Ha w Hw); [apply Hv; [lia|exact Ha]|exact Hi] |].
    apply A; [exact Hw|rewrite (unmap_in_table s pgdir a l Hok Ha); exact Hi|].
    intros v Hr Hu. apply U in Hu as [Hne Hu]. rewrite Fr by assumption. apply Hv; [lia|exact Hu].
Qed.

(** The number of pages up to size [sz]. *)
Definition npages (sz : Z) : Z := (sz + PGSIZE - 1) / PGSIZE.

Lemma npages_lt (sz v : Z) : v * PGSIZE < sz <-> v < npages sz.
Proof. unfold npages, PGSIZE. Z.div_mod_to_equations. lia. Qed.

Lemma npages_roundup (sz : Z) : 0 <= sz <= KERNBASE -> PGROUNDUP sz = npages sz * PGSIZE.
Proof.
  intros H. rewrite PGROUNDUP_eq, u32_small by (unfold KERNBASE, PGSIZE in *; lia).
  unfold npages, PGSIZE. Z.div_mod_to_equations. lia.
Qed.

Lemma npages_user (sz : Z) : 0 <= sz <= KERNBASE -> 0 <= npages sz <= UPAGES.
Proof. unfold npages, KERNBASE, PGSIZE, UPAGES. intros H. Z.div_mod_to_equations. lia. Qed.

(** The address the loop goes on with where a page table is missing. *)
Lemma next_table (a : Z) :
  0 <= a < UPAGES ->
  u32 (u32 (PGADDR (PDX (a * PGSIZE) + 1) 0 0 - PGSIZE) + PGSIZE) = (a / 1024 + 1) * 1024 * PGSIZE.
Proof.
  intros Ha. rewrite PDX_vpage by (unfold UPAGES, PGSIZE in *; lia).
  rewrite Z.div_mul by discriminate. unfold PGADDR. rewrite Z.shiftl_0_l, !Z.lor_0_r.
  rewrite Z.shiftl_mul_pow2 by (unfold PDXSHIFT; lia).
  assert (Hd : 0 <= a / 1024 < 512) by (unfold UPAGES in *; Z.div_mod_to_equations; lia).
  unfold PDXSHIFT, PGSIZE. rewrite (u32_small ((a / 1024 + 1) * 2 ^ 22)) by lia.
  rewrite (u32_small (_ - 4096)) by lia. rewrite u32_small by lia. lia.
Qed.

Lemma unmap_run (s : kernel) (pgdir a : Z) (l : list Z) :
  space_ok s pgdir l -> kmem_lock ∉ k_held s -> umapped (k_mem s) pgdir a ->
  (e ← ld32 (slot (k_mem s) pgdir a);
   if present e then
     let pa := PTE_ADDR e in
     if pa =? 0 then panic "kfree" else kfree (P2V pa);; st32 (slot (k_mem s) pgdir a) 0
   else mret tt) s = Done tt (unmap a pgdir s).
Proof.
  intros Hok Hl Ha. destruct (unmap_page s pgdir a l Hok Ha) as (Hp & _ & Ht).
  pose proof (unmap_has_table s pgdir a Ha) as Hh.
  destruct (vpage_split a (umapped_vpage _ _ _ Ha)) as [Hd _].
  destruct (unmap_tables1 s pgdir a l Hok Ha (a / 1024) Hd) as [_ E2].
  unfold ld32, st32. kstep. rewrite <- pte_slot by exact Hh. rewrite (proj2 Ha). cbv zeta.
  change (P2V (PTE_ADDR (pte (k_mem s) pgdir a))) with (frame_at (k_mem s) pgdir a).
  rewrite (proj2 (Z.eqb_neq _ 0)).
  - erewrite bind_Done by (apply kfree_run; assumption). unfold modify, unmap, set_pte. do 2 f_equal.
    unfold slot at 2. rewrite E2. reflexivity.
  - intros E. apply page_high in Hp. unfold frame_at in Hp. rewrite E in Hp.
    vm_compute in Hp. destruct Hp as [Hp _]. apply Hp. reflexivity.
Qed.

Lemma deallocuvm_loop_run (n : nat) (pgdir a oldsz : Z) (s : kernel) (l : list Z) :
  space_ok s pgdir l -> kmem_lock ∉ k_held s -> 0 <= a -> 0 <= oldsz <= KERNBASE ->
  Z.max 0 (npages oldsz - a) < Z.of_nat n ->
  exists t l', deallocuvm_loop n pgdir (a * PGSIZE) oldsz s = Done tt t /\
    released pgdir a (npages oldsz) s t l l'.
Proof.
  revert a s l. induction n as [|n IH]; intros a s l Hok Hl Ha Ho Hn; [lia|].
  pose proof (npages_user oldsz Ho) as Hu. cbn [deallocuvm_loop].
  destruct (Z.ltb_spec (a * PGSIZE) oldsz) as [Hlt|Hge].
  2: { exists s, l. split; [reflexivity|]. apply released_nothing; [exact Hok|].
       pose proof (npages_lt oldsz a). lia. }
  assert (Hb : a < npages oldsz) by (apply npages_lt, Hlt). clear Hlt. cbn [negb].
  assert (Hva : 0 <= a * PGSIZE < 2 ^ 32) by (unfold PGSIZE, UPAGES in *; lia).
  assert (Ev : a * PGSIZE / PGSIZE = a) by (apply Z.div_mul; discriminate).
  assert (Hr : 0 <= a < NVPAGE) by (unfold UPAGES, NVPAGE in *; lia).
  destruct (has_table (k_mem s) pgdir (a / 1024)) eqn:Ht.
  - erewrite bind_Done by (apply walk_hit; [exact Hva|rewrite Ev; exact Ht]). rewrite Ev.
    rewrite (slot_nonzero s pgdir a l (so_vm _ _ _ Hok) Hr Ht).
    replace (u32 (a * PGSIZE + PGSIZE)) with ((a + 1) * PGSIZE)
      by (rewrite u32_small; unfold PGSIZE, UPAGES in *; lia).
    destruct (present (pte (k_mem s) pgdir a)) eqn:Hp.
    + assert (Hm : umapped (k_mem s) pgdir a) by (split; [lia|exact Hp]).
      destruct (IH (a + 1) (unmap a pgdir s) (frame_at (k_mem s) pgdir a :: l)) as (t & l' & E & R);
        [apply unmap_ok; assumption|exact Hl|lia|lia|lia|].
      exists t, l'. split; [|apply released_unmap; assumption].
      rewrite (pte_slot _ _ _ Ht) in Hp.
      pose proof (unmap_run s pgdir a l Hok Hl Hm) as Eu. apply bind_Done_inv in Eu as (e & s' & Ee & Eu).
      erewrite bind_Done by exact Ee. erewrite bind_Done by exact Eu. exact E.
    + destruct (IH (a + 1) s l) as (t & l' & E & R); [exact Hok|exact Hl|lia|lia|lia|].
      exists t, l'. split; [|apply (released_skip pgdir a (a + 1)); [lia| |exact R] ].
      * unfold ld32. kstep. rewrite <- pte_slot, Hp by exact Ht. kstep. exact E.
      * intros v Hv [_ Hm]. replace v with a in Hm by lia. congruence.
  - erewrite bind_Done by (apply walk_miss; [exact Hva|rewrite Ev; exact Ht]). cbn [Z.eqb].
    rewrite next_table by lia.
    assert (Hc : a < (a / 1024 + 1) * 1024) by (Z.div_mod_to_equations; lia).
    destruct (IH ((a / 1024 + 1) * 1024) s l) as (t & l' & E & R); [exact Hok|exact Hl|lia|lia|lia|].
    exists t, l'. split; [exact E|]. apply (released_skip pgdir a ((a / 1024 + 1) * 1024)); [lia| |exact R].
    intros v Hv [_ Hm]. unfold pte in Hm. replace (v / 1024) with (a / 1024) in Hm by (Z.div_mod_to_equations; lia).
    rewrite Ht in Hm. discriminate.
Qed.

(** [deallocuvm] takes the pages between the two sizes out of the address
    space. *)
Lemma deallocuvm_run (pgdir oldsz newsz : Z) (s : kernel) (l : list Z) :
  space_ok s pgdir l -> kmem_lock ∉ k_held s -> 0 <= newsz < oldsz -> oldsz <= KERNBASE ->
  exists t l', deallocuvm pgdir oldsz newsz s = Done newsz t /\
    released pgdir (npages newsz) (npages oldsz) s t l l'.
Proof.
  intros Hok Hl Hn Ho. unfold deallocuvm. rewrite Z.geb_leb, (proj2 (Z.leb_gt _ _)) by lia.
  cbv zeta. rewrite npages_roundup by lia.
  edestruct (deallocuvm_loop_run (S (Z.to_nat ((oldsz - newsz) / PGSIZE + 1))) pgdir (npages newsz) oldsz s l)
    as (t & l' & E & R); [exact Hok|exact Hl| |lia| |].
  - apply npages_user. lia.
  - unfold npages, PGSIZE. rewrite Nat2Z.inj_succ, Z2Nat.id by (Z.div_mod_to_equations; lia).
    Z.div_mod_to_equations. lia.
  - exists t, l'. split; [|exact R]. erewrite bind_Done by exact E. reflexivity.
Qed.

(** ** freevm *)

(** The loop that frees the page tables [i .. i+n-1]. *)
Lemma free_tables_run (n i : nat) (pgdir : Z) (m : gmap Z Z) (s : kernel) (l : list Z) :
  free_pages s l -> kmem_lock ∉ k_held s -> page pgdir -> pgdir ∉ l -> agree m (k_mem s) pgdir ->
  (i + n <= 1024)%nat ->
  (forall d, Z.of_nat i <= d < 1024 -> has_table m pgdir d = true ->
     page (table m pgdir d) /\ table m pgdir d <> pgdir /\ (table m pgdir d ∉ l)) ->
  (forall d d', Z.of_nat i <= d < 1024 -> Z.of_nat i <= d' < 1024 -> d <> d' ->
     has_table m pgdir d = true -> has_table m pgdir d' = true -> table m pgdir d <> table m pgdir d') ->
  exists t l0,
    for_each n i (fun i => e ← ld32 (pgdir + 4 * Z.of_nat i); when (present e) (kfree (P2V (PTE_ADDR e)))) s
      = Done tt t /\
    free_pages t (l0 ++ l) /\ mem_only s t /\
    (forall w, w ∈ l0 <-> exists d, Z.of_nat i <= d < Z.of_nat (i + n) /\ has_table m pgdir d = true /\
                              w = table m pgdir d) /\
    (forall w, page w -> w ∉ l0 -> agree (k_mem s) (k_mem t) w).
Proof.
  revert i s l. induction n as [|n IH]; intros i s l Hf Hl Hp Hpl Ha Hi Ht Hj; cbn [for_each].
  { exists s, []. split_and!; [reflexivity|exact Hf|reflexivity| |auto using agree_refl].
    intros w. rewrite elem_of_nil. split; [done|]. intros (d & Hd & _). lia. }
  assert (Hd : 0 <= Z.of_nat i < 1024) by lia.
  destruct (agree_table m (k_mem s) pgdir (Z.of_nat i) Ha Hd) as [E1 E2].
  destruct (has_table m pgdir (Z.of_nat i)) eqn:Hh.
  - destruct (Ht (Z.of_nat i)) as (H1 & H2 & H3); [lia|exact Hh|].
    set (w0 := table m pgdir (Z.of_nat i)) in *.
    destruct (kfree_free_pages w0 s l Hf H1 H3 Hl) as (s1 & Ek & F1 & A1 & O1).
    assert (Ag : forall w, page w -> w <> w0 -> agree (k_mem s) (k_mem s1) w).
    { intros w Hw Hne b Hb. apply A1. destruct (page_apart w w0 Hw H1 Hne); lia. }
    destruct (IH (S i) s1 (w0 :: l)) as (t & l0 & E & F & O & M & A); try assumption.
    + rewrite O1. exact Hl.
    + rewrite elem_of_cons. intros [E|E]; congruence.
    + eapply agree_trans; [exact Ha|]. apply Ag; [exact Hp|congruence].
    + lia.
    + intros d Hd' Hhd. destruct (Ht d) as (G1 & G2 & G3); [lia|exact Hhd|]. split_and!; try assumption.
      rewrite elem_of_cons. intros [E|E]; [|done]. revert E. apply Hj; (lia || assumption).
    + intros d d' Hd' Hd''. apply Hj; lia.
    + exists t, (l0 ++ [w0]). split_and!.
      * erewrite bind_Done; [exact E|]. unfold ld32. kstep.
        change (present (rd32 (k_mem s) (pgdir + 4 * Z.of_nat i))) with (has_table (k_mem s) pgdir (Z.of_nat i)).
        rewrite E1. cbn [when].
        change (P2V (PTE_ADDR (rd32 (k_mem s) (pgdir + 4 * Z.of_nat i)))) with (table (k_mem s) pgdir (Z.of_nat i)).
        rewrite E2. exact Ek.
      * rewrite <- app_assoc. exact F.
      * eapply mem_only_trans; [|exact O]. unfold mem_only. rewrite O1. reflexivity.
      * intros w. rewrite elem_of_app, M, list_elem_of_singleton. split.
        -- intros [(d & ? & ? & ?)| ->]; [exists d|exists (Z.of_nat i)]; auto with lia.
        -- intros (d & G1 & G2 & ->). destruct (decide (d = Z.of_nat i)) as [->|Hne]; [auto|left].
           exists d. auto with lia.
      * intros w Hw Hn. rewrite not_elem_of_app, list_elem_of_singleton in Hn.
        eapply agree_trans; [apply Ag; [exact Hw|tauto]|apply A; [exact Hw|tauto] ].
  - destruct (IH (S i) s l) as (t & l0 & E & F & O & M & A); try assumption; try lia.
    + intros d Hd'. apply Ht. lia.
    + intros d d' Hd' Hd''. apply Hj; lia.
    + exists t, l0. split_and!; try assumption.
      * erewrite bind_Done; [exact E|]. unfold ld32. kstep.
        change (present (rd32 (k_mem s) (pgdir + 4 * Z.of_nat i))) with (has_table (k_mem s) pgdir (Z.of_nat i)).
        rewrite E1. reflexivity.
      * intros w. rewrite M. split; intros (d & G1 & G2 & G3); exists d; (split; [|auto]); [lia|].
        assert (d <> Z.of_nat i) by congruence. lia.
Qed.

(** [freevm] gives back every page of an address space exactly once: the user
    pages, the page tables and the page directory. *)
Lemma freevm_run (pgdir : Z) (s : kernel) (l : list Z) :
  space_ok s pgdir l -> kmem_lock ∉ k_held s ->
  exists t l0, freevm pgdir s = Done tt t /\ free_pages t (l0 ++ l) /\ mem_only s t /\
    (forall w, w ∈ l0 <-> in_table (k_mem s) pgdir w \/
       exists v, umapped (k_mem s) pgdir v /\ w = frame_at (k_mem s) pgdir v) /\
    (forall w, page w -> w ∉ l0 -> agree (k_mem s) (k_mem t) w).
Proof.
  intros Hok Hl. destruct (vo_dir _ _ _ (so_vm _ _ _ Hok)) as [Hp Hpl].
  destruct (deallocuvm_run pgdir KERNBASE 0 s l Hok Hl) as (s1 & l1 & E1 & R); [split; reflexivity || discriminate|discriminate|].
  change (npages 0) with 0 in R. change (npages KERNBASE) with UPAGES in R.
  destruct R as [O1 T1 Tb1 _ _ [l0 [F1 M1] ] A1].
  destruct (so_vm _ _ _ O1) as [V1 [_ V2] V3 V4].
  destruct (free_tables_run (Z.to_nat NPDENTRIES) 0 pgdir (k_mem s1) s1 l1) as (s2 & l2 & E2 & F2 & T2 & M2 & A2);
    try assumption.
  { rewrite (mem_only_held _ _ T1). exact Hl. }
  { apply agree_refl. }
  { vm_compute. lia. }
  change (Z.of_nat (0 + Z.to_nat NPDENTRIES)) with 1024 in M2. change (Z.of_nat 0) with 0 in M2.
  assert (Hn2 : pgdir ∉ l2 ++ l1).
  { rewrite elem_of_app. intros [H|H]; [|done]. apply M2 in H as (d & Hd & Hh & E).
    destruct (V3 d) as (_ & Hne & _); [lia|exact Hh|congruence]. }
  destruct (kfree_free_pages pgdir s2 (l2 ++ l1) F2 Hp Hn2) as (t & E3 & F3 & A3 & O3).
  { rewrite (mem_only_held _ _ T2), (mem_only_held _ _ T1). exact Hl. }
  exists t, (pgdir :: l2 ++ l0). split_and!.
  - unfold freevm. rewrite (proj2 (Z.eqb_neq pgdir 0))
      by (apply page_high in Hp; unfold KERNLINK, KERNBASE, EXTMEM, PHYSTOP in *; lia).
    erewrite bind_Done by exact E1. erewrite bind_Done by exact E2. exact E3.
  - rewrite F1, app_assoc in F3. exact F3.
  - eapply mem_only_trans; [exact T1|]. eapply mem_only_trans; [exact T2|].
    unfold mem_only. rewrite O3. reflexivity.
  - intros w. rewrite elem_of_cons, elem_of_app, M1, M2. unfold in_table. split.
    + intros [->|[(d & Hd & Hh & ->)|(v & _ & Hv & ->)] ]; [auto| |eauto].
      left; right. exists d. destruct (Tb1 d Hd) as [G1 G2]. rewrite G1, G2 in *. auto.
    + intros [ [->|(d & Hd & Hh & ->)]|(v & Hv & ->)]; [auto| |].
      * right; left. exists d. destruct (Tb1 d Hd) as [G1 G2]. rewrite G1, G2. auto.
      * right; right. exists v. split; [apply Hv|auto].
  - intros w Hw Hn. rewrite not_elem_of_cons, not_elem_of_app in Hn. destruct Hn as (N1 & N2 & N3).
    assert (Hnt : ~ in_table (k_mem s) pgdir w).
    { intros [->|(d & Hd & Hh & ->)]; [done|]. apply N2, M2. exists d.
      destruct (Tb1 d Hd) as [G1 G2]. rewrite G1, G2. auto. }
    eapply agree_trans; [apply A1; [exact Hw|exact Hnt|]|].
    { intros v Hv Hu ->. apply N3, M1. eauto. }
    eapply agree_trans; [apply A2; assumption|].
    intros b Hb. apply A3. destruct (page_apart w pgdir Hw Hp N1); lia.
Qed.

(** ** allocuvm *)

(** Flags of a user page. *)
Definition user_entry (f : Z) : Z := V2P f + 7.

(** The user pages [a .. b-1] are mapped to zeroed pages that were free;
    everything else is as before. *)
Record grown (pgdir a b : Z) (s t : kernel) (l l' : list Z) : Prop := {
  gr_ok : space_ok t pgdir l';
  gr_only : mem_only s t;
  gr_new : forall v, a <= v < b -> umapped (k_mem t) pgdir v /\
    pte (k_mem t) pgdir v = user_entry (frame_at (k_mem t) pgdir v) /\
    frame_at (k_mem t) pgdir v ∈ l /\
    forall c, 0 <= c < PGSIZE -> rd (k_mem t) (frame_at (k_mem t) pgdir v + c) = 0;
  gr_pte : forall v, 0 <= v < NVPAGE -> ~ (a <= v < b) -> pte (k_mem t) pgdir v = pte (k_mem s) pgdir v;
  gr_free : exists l0, l = l0 ++ l';
  gr_keep : forall w, in_table (k_mem s) pgdir w -> in_table (k_mem t) pgdir w;
  gr_table : forall w, in_table (k_mem t) pgdir w -> in_table (k_mem s) pgdir w \/ w ∈ l;
  gr_used : forall w, w ∈ l -> w ∈ l' \/ in_table (k_mem t) pgdir w \/
    exists v, a <= v < b /\ w = frame_at (k_mem t) pgdir v;
  gr_agree : forall w, page w -> w ∉ l -> ~ in_table (k_mem s) pgdir w -> agree (k_mem s) (k_mem t) w
}.

Lemma user_entry_present (f : Z) : page f -> present (user_entry f) = true.
Proof.
  intros H. destruct (page_V2P f H) as [Ha _]. rewrite present_testbit. unfold user_entry.
  rewrite <- lor_flags by (assumption || (unfold PGSIZE; lia)). rewrite Z.lor_spec. apply orb_true_r.
Qed.

Lemma user_entry_eq (f : Z) :
  page f -> u32 (Z.lor (Z.lor (V2P f) (Z.lor PTE_W PTE_U)) PTE_P) = user_entry f.
Proof.
  intros H. destruct (page_V2P f H) as [Ha Hr]. rewrite <- Z.lor_assoc.
  change (Z.lor (Z.lor PTE_W PTE_U) PTE_P) with 7. rewrite lor_flags by (assumption || (unfold PGSIZE; lia)).
  apply u32_small. unfold user_entry, PHYSTOP in *. lia.
Qed.

Lemma user_entry_frame (f : Z) : page f -> P2V (PTE_ADDR (user_entry f)) = f.
Proof.
  intros H. destruct (page_V2P f H) as [Ha _]. unfold user_entry.
  rewrite <- lor_flags by (assumption || (unfold PGSIZE; lia)).
  apply frame_of_entry; [exact H|unfold PGSIZE; lia].
Qed.

Lemma grown_nothing (pgdir a b : Z) (s : kernel) (l : list Z) :
  space_ok s pgdir l -> b <= a -> grown pgdir a b s s l l.
Proof.
  intros H Hab. split; auto using agree_refl.
  - reflexivity.
  - intros v Hv. lia.
  - exists []. reflexivity.
Qed.

Lemma grown_trans (pgdir a b c : Z) (s t u : kernel) (l l' l'' : list Z) :
  0 <= a <= b -> b <= c -> c <= UPAGES ->
  grown pgdir a b s t l l' -> grown pgdir b c t u l' l'' -> grown pgdir a c s u l l''.
Proof.
  intros Hab Hbc Hc [O1 T1 N1 P1 [k1 F1] K1 B1 U1 A1] [O2 T2 N2 P2 [k2 F2] K2 B2 U2 A2].
  assert (Hin : forall w, w ∈ l' -> w ∈ l) by (intros w Hw; rewrite F1; apply elem_of_app; auto).
  assert (Old : forall v, a <= v < b -> frame_at (k_mem u) pgdir v = frame_at (k_mem t) pgdir v).
  { intros v Hv. unfold frame_at. rewrite P2; [reflexivity|unfold UPAGES, NVPAGE in *; lia|lia]. }
  split.
  - exact O2.
  - eapply mem_only_trans; eassumption.
  - intros v Hv. destruct (decide (b <= v)).
    + destruct (N2 v) as (E0 & E1 & E2 & E3); [lia|]. auto.
    + destruct (N1 v) as (E0 & E1 & E2 & E3); [lia|].
      assert (Ep : pte (k_mem u) pgdir v = pte (k_mem t) pgdir v)
        by (apply P2; [apply (umapped_vpage _ _ _ E0)|lia]).
      rewrite Old, Ep by lia. split_and!; [split; [apply E0|rewrite Ep; apply E0]|exact E1|exact E2|].
      destruct (so_page _ _ _ O1 v E0) as (Hp & Hn & Ht).
      intros x Hx. rewrite (A2 (frame_at (k_mem t) pgdir v)) by (assumption || lia). apply E3, Hx.
  - intros v Hr Hv. rewrite P2, P1; [reflexivity|lia..].
  - exists (k1 ++ k2). rewrite <- app_assoc, <- F2. exact F1.
  - auto.
  - intros w Hw. destruct (B2 w Hw) as [H|H]; [apply B1 in H as [H|H]; auto|auto].
  - intros w Hw. destruct (U1 w Hw) as [H|[H|(v & Hv & ->)] ].
    + destruct (U2 w H) as [H'|[H'|(v & Hv & ->)] ]; [auto|auto|]. right; right. exists v. split; [lia|reflexivity].
    + auto.
    + right; right. exists v. rewrite Old by lia. split; [lia|reflexivity].
  - intros w Hw Hl Ht. eapply agree_trans; [apply A1; assumption|]. apply A2; [exact Hw|auto|].
    intros H. destruct (B1 w H) as [H'|H']; done.
Qed.

(** Taking a page off the free list and writing to it. *)
Section Take.
Context (s : kernel) (pgdir f : Z) (l : list Z) (m : gmap Z Z).
Context (Hok : space_ok s pgdir (f :: l)).
Context (Hm : forall w, page w -> w <> f -> agree (k_mem s) m w).

Definition take_page : kernel := s <| k_freelist := rd32 (k_mem s) f |> <| k_mem := m |>.

Lemma take_page_fresh :
  page f /\ (f ∉ l) /\ ~ in_table (k_mem s) pgdir f /\
  forall v, umapped (k_mem s) pgdir v -> frame_at (k_mem s) pgdir v <> f.
Proof.
  clear Hm m. destruct Hok as [ [(Hc & Hn & Hp) [_ Hd] Ht _] Hu _].
  apply Forall_cons in Hp as [Hp _]. apply NoDup_cons in Hn as [Hn _]. split_and!; try assumption.
  - intros [->|(d & Hr & Hh & E)]; [set_solver|]. destruct (Ht d Hr Hh) as (_ & _ & H).
    rewrite <- E in H. set_solver.
  - intros v Hv E. destruct (Hu v Hv) as (_ & H & _). rewrite E in H. set_solver.
Qed.

Lemma take_page_dir : agree (k_mem s) m pgdir.
Proof.
  destruct take_page_fresh as (_ & _ & Ht & _). apply Hm; [apply (vo_dir _ _ _ (so_vm _ _ _ Hok))|].
  intros E. apply Ht. left. congruence.
Qed.

Lemma take_page_in_table (w : Z) : in_table m pgdir w <-> in_table (k_mem s) pgdir w.
Proof.
  unfold in_table. split; (intros [->|(d & Hd & Hh & ->)]; [auto|]); right; exists d;
    destruct (agree_table _ _ pgdir d take_page_dir Hd) as [E1 E2]; rewrite E1, E2 in *; auto.
Qed.

Lemma take_page_pte (v : Z) : 0 <= v < NVPAGE -> pte m pgdir v = pte (k_mem s) pgdir v.
Proof.
  destruct take_page_fresh as (_ & _ & Ht & _). apply agree_pte; [exact take_page_dir|].
  intros d Hd Hh. apply Hm; [apply (vo_tab _ _ _ (so_vm _ _ _ Hok)); assumption|].
  intros E. apply Ht. right. eauto.
Qed.

Lemma take_page_umapped (v : Z) : umapped m pgdir v <-> umapped (k_mem s) pgdir v.
Proof.
  unfold umapped. split; intros [H1 H2]; (split; [exact H1|]);
    rewrite take_page_pte in * by (unfold UPAGES, NVPAGE in *; lia); exact H2.
Qed.

Lemma take_page_frame (v : Z) :
  0 <= v < NVPAGE -> frame_at m pgdir v = frame_at (k_mem s) pgdir v.
Proof. intros H. unfold frame_at. rewrite take_page_pte by exact H. reflexivity. Qed.

Lemma take_page_ok : space_ok take_page pgdir l.
Proof.
  destruct take_page_fresh as (Hp & Hn & Ht & Hu). destruct Hok as [ [(Hc & Hd & Hfp) [Hpd Hnd] Htab Hinj] Hup Hui].
  apply Forall_cons in Hfp as [_ Hfp]. apply NoDup_cons in Hd as [_ Hd]. destruct Hc as [_ Hc].
  split; [split|..].
  - split_and!; [|exact Hd|exact Hfp]. eapply freechain_frame; [|exact Hc].
    intros w x Hw Hx. apply (Hm w); [rewrite Forall_forall in Hfp; apply Hfp, Hw|intros ->; done|unfold PGSIZE; lia].
  - split; [exact Hpd|set_solver].
  - intros d Hr. simpl. destruct (agree_table _ _ pgdir d take_page_dir Hr) as [-> ->]. intros Hh.
    destruct (Htab d Hr Hh) as (? & ? & ?). split_and!; set_solver.
  - intros d d' Hr Hr'. simpl. destruct (agree_table _ _ pgdir d take_page_dir Hr) as [-> ->].
    destruct (agree_table _ _ pgdir d' take_page_dir Hr') as [-> ->]. apply Hinj; assumption.
  - intros v Hv. simpl in *. apply take_page_umapped in Hv.
    rewrite take_page_frame, take_page_in_table by apply (umapped_vpage _ _ _ Hv).
    destruct (Hup v Hv) as (? & ? & ?). split_and!; set_solver.
  - intros v w Hv Hw. simpl in *. apply take_page_umapped in Hv, Hw.
    rewrite !take_page_frame by (eapply umapped_vpage; eassumption). apply Hui; assumption.
Qed.

End Take.

(** Mapping a page that was taken off the free list: the new address space. *)
Lemma map_taken_ok (s t : kernel) (pgdir v f e : Z) (l l' : list Z) :
  space_ok s pgdir l -> vm_step pgdir s t l l' -> 0 <= v < UPAGES ->
  ~ umapped (k_mem s) pgdir v ->
  page f -> f ∉ l -> ~ in_table (k_mem s) pgdir f ->
  (forall w, umapped (k_mem s) pgdir w -> frame_at (k_mem s) pgdir w <> f) ->
  present e = true -> P2V (PTE_ADDR e) = f ->
  (forall w, 0 <= w < NVPAGE -> pte (k_mem t) pgdir w = if decide (w = v) then e else pte (k_mem s) pgdir w) ->
  space_ok t pgdir l' /\
  (forall w, in_table (k_mem t) pgdir w -> in_table (k_mem s) pgdir w \/ w ∈ l) /\
  (forall w, in_table (k_mem s) pgdir w -> in_table (k_mem t) pgdir w) /\
  frame_at (k_mem t) pgdir v = f /\ umapped (k_mem t) pgdir v.
Proof.
  intros Hok St Hv Hnv Hp Hn Ht Hu Hpe Hfe P.
  assert (Ev : pte (k_mem t) pgdir v = e) by (rewrite P by (unfold UPAGES, NVPAGE in *; lia); apply decide_True; reflexivity).
  assert (Ef : frame_at (k_mem t) pgdir v = f) by (unfold frame_at; rewrite Ev; exact Hfe).
  assert (Old : forall w, umapped (k_mem t) pgdir w -> w <> v ->
    umapped (k_mem s) pgdir w /\ frame_at (k_mem t) pgdir w = frame_at (k_mem s) pgdir w).
  { intros w [Hr Hw] Hne. assert (E : pte (k_mem t) pgdir w = pte (k_mem s) pgdir w).
    { rewrite P by (unfold UPAGES, NVPAGE in *; lia). apply decide_False, Hne. }
    unfold umapped, frame_at. rewrite <- E. auto. }
  assert (B : forall w, in_table (k_mem t) pgdir w -> in_table (k_mem s) pgdir w \/ w ∈ l).
  { intros w [->|(d & Hd & Hh & ->)]; [left; left; reflexivity|].
    destruct (vs_new _ _ _ _ _ St d Hd Hh) as [H|H]; [|auto].
    left; right. exists d. destruct (vs_keep _ _ _ _ _ St d Hd H) as [_ ->]. auto. }
  destruct (vs_free _ _ _ _ _ St) as [l0 F].
  assert (Hin : forall w, w ∈ l' -> w ∈ l) by (intros w Hw; rewrite F; apply elem_of_app; auto).
  split_and!; [split|exact B| |exact Ef|split; [exact Hv|rewrite Ev; exact Hpe] ].
  - apply (vs_ok _ _ _ _ _ St).
  - intros w Hw. destruct (decide (w = v)) as [->|Hne].
    + rewrite Ef. split_and!; [exact Hp|auto|]. intros H. destruct (B f H); done.
    + destruct (Old w Hw Hne) as [Hw' ->]. destruct (so_page _ _ _ Hok w Hw') as (H1 & H2 & H3).
      split_and!; [exact H1|auto|]. intros H. destruct (B _ H); done.
  - intros w x Hw Hx. destruct (decide (w = v)) as [->|Hw']; destruct (decide (x = v)) as [->|Hx'].
    + reflexivity.
    + destruct (Old x Hx Hx') as [Ox ->]. rewrite Ef. intros E. destruct (Hu x Ox). auto.
    + destruct (Old w Hw Hw') as [Ow ->]. rewrite Ef. intros E. destruct (Hu w Ow). auto.
    + destruct (Old w Hw Hw') as [Ow ->]. destruct (Old x Hx Hx') as [Ox ->].
      apply (so_inj _ _ _ Hok); assumption.
  - intros w [->|(d & Hd & Hh & ->)]; [left; reflexivity|].
    destruct (vs_keep _ _ _ _ _ St d Hd Hh) as [H1 H2]. right. exists d. rewrite H2. auto.
Qed.

(** One turn of the loop of [allocuvm], after [kalloc] returned page [f]. *)
Lemma grow_one (s : kernel) (pgdir v f : Z) (l : list Z) :
  space_ok s pgdir (f :: l) -> kmem_lock ∉ k_held s -> 0 <= v < UPAGES ->
  present (pte (k_mem s) pgdir v) = false ->
  let s1 := take_page s f (memset f 0 PGSIZE (k_mem s)) in
  (mappages pgdir (v * PGSIZE) PGSIZE (V2P f) (Z.lor PTE_W PTE_U) s1 = Done (-1) s1 /\ l = []) \/
  exists t l', mappages pgdir (v * PGSIZE) PGSIZE (V2P f) (Z.lor PTE_W PTE_U) s1 = Done 0 t /\
    grown pgdir v (v + 1) s t (f :: l) l'.
Proof.
  intros Hok Hl Hv Hnp s1.
  destruct (take_page_fresh s pgdir f l Hok) as (Hp & Hn & Ht & Hu).
  assert (Hm : forall w, page w -> w <> f -> agree (k_mem s) (memset f 0 PGSIZE (k_mem s)) w)
    by (intros w Hw Hne; apply agree_memset; assumption).
  pose proof (take_page_ok s pgdir f l _ Hok Hm) as Hok1. fold s1 in Hok1.
  pose proof (take_page_pte s pgdir f l _ Hok Hm) as P1.
  pose proof (take_page_umapped s pgdir f l _ Hok Hm) as U1.
  pose proof (take_page_frame s pgdir f l _ Hok Hm) as F1.
  pose proof (take_page_in_table s pgdir f l _ Hok Hm) as T1.
  assert (Hv' : 0 <= v < NVPAGE) by (unfold UPAGES, NVPAGE in *; lia).
  destruct (mappages_page pgdir v (V2P f) (Z.lor PTE_W PTE_U) s1 l) as [H|(t & l' & E & St & P)];
    [apply Hok1|exact Hl|exact Hv'|simpl; rewrite P1; assumption|auto|].
  right. exists t, l'. split; [exact E|]. rewrite user_entry_eq in P by exact Hp.
  destruct (map_taken_ok s1 t pgdir v f (user_entry f) l l') as (Hok2 & B2 & K2 & Ef & Em); try assumption.
  { simpl. rewrite U1. intros [_ H]. congruence. }
  { simpl. rewrite T1. exact Ht. }
  { simpl. intros w Hw. apply U1 in Hw. rewrite F1 by apply (umapped_vpage _ _ _ Hw). apply Hu, Hw. }
  { apply user_entry_present, Hp. }
  { apply user_entry_frame, Hp. }
  simpl in B2, K2. split.
  - exact Hok2.
  - eapply mem_only_trans; [|exact (vs_only _ _ _ _ _ St)]. reflexivity.
  - intros w Hw. replace w with v by lia. rewrite Ef. split_and!; [exact Em| |set_solver|].
    + rewrite P by exact Hv'. apply decide_True. reflexivity.
    + intros c Hc. rewrite (vs_agree _ _ _ _ _ St f); [|exact Hp| |exact Hn| |lia].
      * simpl. rewrite rd_memset, decide_True by (unfold PGSIZE in *; lia). reflexivity.
      * intros ->. apply Ht. left. reflexivity.
      * intros d Hd Hh Ed. apply Ht, T1. right. eauto.
  - intros w Hr Hw. rewrite P, decide_False by (lia || assumption). apply P1, Hr.
  - destruct (vs_free _ _ _ _ _ St) as [l0 ->]. exists (f :: l0). reflexivity.
  - intros w H. apply K2, T1, H.
  - intros w H. destruct (B2 w H) as [H'|H']; [left; apply T1, H'|right; set_solver].
  - intros w. rewrite elem_of_cons. intros [->|H]; [right; right; exists v; auto with lia|].
    destruct (vs_used _ _ _ _ _ St w H) as [H'|(d & Hd & Hh & ->)]; [auto|]. right; left; right. eauto.
  - intros w Hw Hnl Hnt. apply not_elem_of_cons in Hnl as [Hwf Hnl].
    eapply agree_trans; [apply Hm; assumption|]. apply (vs_agree _ _ _ _ _ St); try assumption.
    + intros ->. apply Hnt. left. reflexivity.
    + intros d Hd Hh ->. apply Hnt, T1. right. eauto.
Qed.

(** The invariant depends on memory and the free list only. *)
Lemma space_ok_ext (s t : kernel) (pgdir : Z) (l : list Z) :
  k_mem t = k_mem s -> k_freelist t = k_freelist s -> space_ok s pgdir l -> space_ok t pgdir l.
Proof.
  intros E1 E2 [ [V1 V2 V3 V4] P I]. split; [split|..]; rewrite ?E1; try assumption.
  unfold free_pages. rewrite E1, E2. exact V1.
Qed.

(** Giving back a page that is not part of the address space. *)
Lemma give_page_ok (s t : kernel) (pgdir f : Z) (l : list Z) :
  space_ok s pgdir l -> free_pages t (f :: l) -> page f -> ~ in_table (k_mem s) pgdir f ->
  (forall v, umapped (k_mem s) pgdir v -> frame_at (k_mem s) pgdir v <> f) ->
  (forall w, page w -> w <> f -> agree (k_mem s) (k_mem t) w) ->
  space_ok t pgdir (f :: l) /\
  (forall v, 0 <= v < NVPAGE -> pte (k_mem t) pgdir v = pte (k_mem s) pgdir v) /\
  (forall w, in_table (k_mem t) pgdir w <-> in_table (k_mem s) pgdir w).
Proof.
  intros [ [_ [Hpd Hnd] Htab Hinj] Hup Hui] Hf Hp Ht Hu Hm.
  assert (Ad : agree (k_mem s) (k_mem t) pgdir).
  { apply Hm; [exact Hpd|]. intros E. apply Ht. left. congruence. }
  assert (P : forall v, 0 <= v < NVPAGE -> pte (k_mem t) pgdir v = pte (k_mem s) pgdir v).
  { intros v. apply agree_pte; [exact Ad|]. intros d Hd Hh. apply Hm; [apply Htab; assumption|].
    intros E. apply Ht. right. eauto. }
  assert (T : forall w, in_table (k_mem t) pgdir w <-> in_table (k_mem s) pgdir w).
  { unfold in_table. intros w. split; (intros [->|(d & Hd & Hh & ->)]; [auto|]); right; exists d;
      destruct (agree_table _ _ pgdir d Ad Hd) as [E1 E2]; rewrite E1, E2 in *; auto. }
  assert (U : forall v, umapped (k_mem t) pgdir v -> umapped (k_mem s) pgdir v /\
    frame_at (k_mem t) pgdir v = frame_at (k_mem s) pgdir v).
  { intros v Hv. pose proof (umapped_vpage _ _ _ Hv) as Hr. destruct Hv as [H1 H2].
    unfold umapped, frame_at. rewrite P in * by exact Hr. auto. }
  split_and!; [split; [split|..]|exact P|exact T].
  - exact Hf.
  - split; [exact Hpd|]. rewrite elem_of_cons. intros [E|E]; [|done]. apply Ht. left. congruence.
  - intros d Hd. destruct (agree_table _ _ pgdir d Ad Hd) as [-> ->]. intros Hh.
    destruct (Htab d Hd Hh) as (H1 & H2 & H3). split_and!; try assumption.
    rewrite elem_of_cons. intros [E|E]; [|done]. apply Ht. right. eauto.
  - intros d d' Hd Hd'. destruct (agree_table _ _ pgdir d Ad Hd) as [-> ->].
    destruct (agree_table _ _ pgdir d' Ad Hd') as [-> ->]. apply Hinj; assumption.
  - intros v Hv. rewrite T. destruct (U v Hv) as [Hv' ->].
    destruct (Hup v Hv') as (H1 & H2 & H3). split_and!; try assumption.
    rewrite elem_of_cons. intros [E|E]; [|done]. apply (Hu v Hv'), E.
  - intros v w Hv Hw. destruct (U v Hv) as [Hv' ->]. destruct (U w Hw) as [Hw' ->]. apply Hui; assumption.
Qed.

(** [allocuvm] ran out of memory: the pages [a .. b-1] are not mapped, the
    rest of the address space is as before, and no page is lost but those in
    [x]. *)
Record alloc_failed (pgdir a b : Z) (s t : kernel) (l l' x : list Z) : Prop := {
  af_ok : space_ok t pgdir l';
  af_only : t = s <| k_mem := k_mem t |> <| k_freelist := k_freelist t |>
                  <| k_out := k_out t |> <| k_crt := k_crt t |> <| k_pos := k_pos t |>;
  af_console : console_ok t;
  af_gone : forall v, a <= v < b -> present (pte (k_mem t) pgdir v) = false;
  af_pte : forall v, 0 <= v < NVPAGE -> ~ (a <= v < b) -> pte (k_mem t) pgdir v = pte (k_mem s) pgdir v;
  af_agree : forall v, umapped (k_mem s) pgdir v -> agree (k_mem s) (k_mem t) (frame_at (k_mem s) pgdir v);
  af_table : forall w, in_table (k_mem t) pgdir w -> in_table (k_mem s) pgdir w \/ w ∈ l;
  af_free : forall w, w ∈ l' -> w ∈ l;
  af_used : forall w, w ∈ l -> w ∈ l' \/ in_table (k_mem t) pgdir w \/ w ∈ x
}.

(** Part of the pages [a .. b-1] is mapped, and the pages [x] are in the hands
    of [allocuvm]. *)
Record partial (pgdir a b : Z) (s t : kernel) (l l' x : list Z) : Prop := {
  pa_ok : space_ok t pgdir l';
  pa_only : mem_only s t;
  pa_pte : forall v, 0 <= v < NVPAGE -> ~ (a <= v < b) -> pte (k_mem t) pgdir v = pte (k_mem s) pgdir v;
  pa_new : forall v, a <= v < b -> umapped (k_mem t) pgdir v -> frame_at (k_mem t) pgdir v ∈ l;
  pa_table : forall w, in_table (k_mem t) pgdir w -> in_table (k_mem s) pgdir w \/ w ∈ l;
  pa_free : forall w, w ∈ l' -> w ∈ l;
  pa_used : forall w, w ∈ l -> w ∈ l' \/ in_table (k_mem t) pgdir w \/ w ∈ x \/
    exists v, a <= v < b /\ umapped (k_mem t) pgdir v /\ w = frame_at (k_mem t) pgdir v;
  pa_agree : forall w, page w -> w ∉ l -> ~ in_table (k_mem s) pgdir w -> agree (k_mem s) (k_mem t) w
}.

Lemma grown_partial (pgdir a k b : Z) (s t : kernel) (l l' : list Z) :
  0 <= a -> k <= b -> b <= UPAGES -> (forall v, a <= v < b -> present (pte (k_mem s) pgdir v) = false) ->
  grown pgdir a k s t l l' -> partial pgdir a b s t l l' [].
Proof.
  intros Ha Hk Hb Hn [O T N P [l0 F] K B U A]. split; try assumption.
  - intros v Hr Hv. apply P; [exact Hr|lia].
  - intros v Hv Hm. destruct (decide (v < k)); [apply N; lia|]. exfalso.
    destruct Hm as [_ Hm]. rewrite P in Hm by (unfold UPAGES, NVPAGE in *; lia).
    rewrite Hn in Hm by lia. discriminate.
  - intros w Hw. rewrite F. apply elem_of_app. auto.
  - intros w Hw. destruct (U w Hw) as [H|[H|(v & Hv & E)] ]; [auto|auto|].
    right; right; right. exists v. split_and!; [lia|lia|apply N; lia|exact E].
Qed.

Lemma take_partial (pgdir a k b f : Z) (s t : kernel) (l l' : list Z) :
  0 <= a -> k <= b -> b <= UPAGES -> (forall v, a <= v < b -> present (pte (k_mem s) pgdir v) = false) ->
  grown pgdir a k s t l (f :: l') ->
  partial pgdir a b s (take_page t f (memset f 0 PGSIZE (k_mem t))) l l' [f].
Proof.
  intros Ha Hk Hb Hn G. pose proof (grown_partial pgdir a k b s t l (f :: l') Ha Hk Hb Hn G) as [O T P N B F U A].
  destruct (take_page_fresh t pgdir f l' O) as (Hp & Hnf & Ht & Hu).
  assert (Hm : forall w, page w -> w <> f -> agree (k_mem t) (memset f 0 PGSIZE (k_mem t)) w)
    by (intros w Hw Hne; apply agree_memset; assumption).
  pose proof (take_page_pte t pgdir f l' _ O Hm) as P1.
  pose proof (take_page_umapped t pgdir f l' _ O Hm) as U1.
  pose proof (take_page_frame t pgdir f l' _ O Hm) as F1.
  pose proof (take_page_in_table t pgdir f l' _ O Hm) as T1.
  split; simpl.
  - apply (take_page_ok t pgdir f l' _ O Hm).
  - eapply mem_only_trans; [exact T|reflexivity].
  - intros v Hr Hv. rewrite P1 by exact Hr. apply P; assumption.
  - intros v Hv Hmv. apply U1 in Hmv. rewrite F1 by apply (umapped_vpage _ _ _ Hmv). apply N; assumption.
  - intros w Hw. apply B, T1, Hw.
  - intros w Hw. apply F. set_solver.
  - intros w Hw. destruct (U w Hw) as [H|[H|[H|(v & Hv & Hmv & E)] ] ].
    + apply elem_of_cons in H as [->|H]; [right; right; left; set_solver|auto].
    + right; left. apply T1, H.
    + apply elem_of_nil in H as [].
    + right; right; right. exists v. rewrite F1 by apply (umapped_vpage _ _ _ Hmv). rewrite U1. auto.
  - intros w Hw Hl Hnt. eapply agree_trans; [apply A; assumption|]. apply Hm; [exact Hw|].
    intros ->. apply Hl, F. set_solver.
Qed.

(** After [deallocuvm] the partial work is undone. *)
Lemma undo_failed (pgdir a b : Z) (s s1 s2 t : kernel) (l l1 l' x : list Z) :
  space_ok s pgdir l -> 0 <= a -> b <= UPAGES ->
  (forall v, a <= v < b -> present (pte (k_mem s) pgdir v) = false) ->
  partial pgdir a b s s1 l l1 x ->
  console_only s1 s2 ->
  released pgdir a b s2 t l1 l' ->
  alloc_failed pgdir a b s t l l' x.
Proof.
  intros Hok Ha Hb Hn [O T P N B F U A] [C Co].
  assert (Em : k_mem s2 = k_mem s1) by (rewrite C; reflexivity).
  intros [O2 T2 Tb2 G2 P2 [l0 [F2 M2] ] A2]. rewrite Em in *.
  assert (Tt : forall w, in_table (k_mem t) pgdir w <-> in_table (k_mem s1) pgdir w).
  { unfold in_table. intros w. split; (intros [->|(d & Hd & Hh & ->)]; [auto|]); right; exists d;
      destruct (Tb2 d Hd) as [E1 E2]; rewrite E1, E2 in *; auto. }
  split.
  - exact O2.
  - rewrite T2, C, T. reflexivity.
  - unfold console_ok. rewrite T2. exact Co.
  - intros v Hv. destruct (present (pte (k_mem s1) pgdir v)) eqn:E.
    + rewrite G2; [reflexivity|exact Hv|]. split; [lia|exact E].
    + rewrite P2; [exact E|unfold UPAGES, NVPAGE in *; lia|]. intros [_ [_ H] ]. congruence.
  - intros v Hr Hv. rewrite P2 by tauto. apply P; assumption.
  - intros v Hv. destruct (so_page _ _ _ Hok v Hv) as (H1 & H2 & H3).
    eapply agree_trans; [apply A; assumption|]. apply A2; [exact H1| |].
    + intros H. destruct (B _ H); done.
    + intros w Hw Hm E. apply H2. rewrite E. apply N; assumption.
  - intros w Hw. apply B, Tt, Hw.
  - intros w. rewrite F2, elem_of_app, M2. intros [(v & Hv & Hm & ->)|H]; [apply N; assumption|apply F, H].
  - intros w Hw. rewrite Tt, F2, elem_of_app, M2.
    destruct (U w Hw) as [H|[H|[H|(v & Hv & Hm & E)] ] ]; eauto 10.
Qed.

(** The way out of [allocuvm] when no page is left. *)
Lemma alloc_undo_run (pgdir oldsz newsz : Z) (msg : string) (s s1 : kernel) (l l1 x : list Z) :
  space_ok s pgdir l -> kmem_lock ∉ k_held s -> cons_lock ∉ k_held s -> console_ok s ->
  0 <= oldsz < newsz -> newsz <= KERNBASE ->
  (forall v, npages oldsz <= v < npages newsz -> present (pte (k_mem s) pgdir v) = false) ->
  partial pgdir (npages oldsz) (npages newsz) s s1 l l1 x -> args_match (bytes_of msg) [] = true ->
  exists t l', (cprintf msg [];; deallocuvm pgdir newsz oldsz) s1 = Done oldsz t /\
    alloc_failed pgdir (npages oldsz) (npages newsz) s t l l' x /\
    exists s2, k_mem s2 = k_mem s1 /\ released pgdir (npages oldsz) (npages newsz) s2 t l1 l'.
Proof.
  intros Hok Hl Hc Hco Ho Hn Hnp Hpa Hmsg. pose proof (pa_only _ _ _ _ _ _ _ _ Hpa) as T.
  destruct (cprintf_run msg [] s1 Hmsg) as (s2 & E2 & C2).
  { unfold console_ok. rewrite T. exact Hco. } { rewrite (mem_only_held _ _ T). exact Hc. }
  assert (Hok2 : space_ok s2 pgdir l1).
  { destruct C2 as [C2 _]. apply (space_ok_ext s1); [rewrite C2; reflexivity..|apply (pa_ok _ _ _ _ _ _ _ _ Hpa)]. }
  destruct (deallocuvm_run pgdir newsz oldsz s2 l1 Hok2) as (t & l' & E3 & R); [|lia|lia|].
  { destruct C2 as [C2 _]. rewrite C2. simpl. rewrite (mem_only_held _ _ T). exact Hl. }
  exists t, l'. split; [erewrite bind_Done by exact E2; exact E3|].
  pose proof (npages_user newsz ltac:(lia)). pose proof (npages_user oldsz ltac:(lia)).
  split; [eapply undo_failed; try eassumption; lia|].
  exists s2. split; [|exact R]. destruct C2 as [C2 _]. rewrite C2. reflexivity.
Qed.

(** What [allocuvm] may return. *)
Definition alloc_result (pgdir oldsz newsz r : Z) (s t : kernel) (l l' : list Z) : Prop :=
  (r = newsz /\ grown pgdir (npages oldsz) (npages newsz) s t l l') \/
  (r = 0 /\ alloc_failed pgdir (npages oldsz) (npages newsz) s t l l' []).

Lemma failed_give (pgdir a b f : Z) (s t : kernel) (l l' : list Z) :
  space_ok s pgdir l -> 0 <= a -> b <= UPAGES ->
  alloc_failed pgdir a b s t l l' [f] -> page f -> f ∉ l' -> f ∈ l -> ~ in_table (k_mem t) pgdir f ->
  (forall v, umapped (k_mem t) pgdir v -> frame_at (k_mem t) pgdir v <> f) ->
  kmem_lock ∉ k_held s ->
  exists u, kfree f t = Done tt u /\ alloc_failed pgdir a b s u l (f :: l') [].
Proof.
  intros Hs Ha Hb [O T Co G P A B F U] Hp Hn Hin Ht Hu Hl.
  destruct (kfree_free_pages f t l') as (u & E & Fu & Au & Tu); [apply (vo_free _ _ _ (so_vm _ _ _ O))|assumption..|rewrite T; exact Hl|].
  assert (Hm : forall w, page w -> w <> f -> agree (k_mem t) (k_mem u) w).
  { intros w Hw Hne c Hc. apply Au. destruct (page_apart w f Hw Hp Hne); lia. }
  destruct (give_page_ok t u pgdir f l' O Fu Hp Ht Hu Hm) as (Ou & Pu & Tb).
  exists u. split; [exact E|]. split.
  - exact Ou.
  - rewrite Tu, T. reflexivity.
  - unfold console_ok. rewrite Tu. exact Co.
  - intros v Hv. rewrite Pu by (unfold UPAGES, NVPAGE in *; lia). apply G, Hv.
  - intros v Hr Hv. rewrite Pu by exact Hr. apply P; assumption.
  - intros v Hv. eapply agree_trans; [apply A, Hv|]. destruct (so_page _ _ _ Hs v Hv) as (H1 & H2 & _).
    apply Hm; [exact H1|]. intros E'. rewrite E' in H2. done.
  - intros w Hw. apply B, Tb, Hw.
  - intros w. rewrite elem_of_cons. intros [->|H]; [exact Hin|apply F, H].
  - intros w Hw. rewrite Tb, elem_of_cons. destruct (U w Hw) as [H|[H|H] ]; [auto|auto|].
    apply list_elem_of_singleton in H. auto.
Qed.

(** A page that was taken and not mapped is not part of the address space
    after [deallocuvm] either. *)
Lemma released_fresh (pgdir a b f : Z) (s s2 t : kernel) (l l' : list Z) (m : gmap Z Z) :
  space_ok s pgdir (f :: l) -> (forall w, page w -> w <> f -> agree (k_mem s) m w) ->
  k_mem s2 = m -> released pgdir a b s2 t l l' ->
  (f ∉ l') /\ ~ in_table (k_mem t) pgdir f /\
  forall v, umapped (k_mem t) pgdir v -> frame_at (k_mem t) pgdir v <> f.
Proof.
  intros Hok Hm Em [O T Tb G P [l0 [F M] ] A]. rewrite Em in *.
  destruct (take_page_fresh s pgdir f l Hok) as (_ & Hn & Ht & Hu).
  pose proof (take_page_umapped s pgdir f l m Hok Hm) as U1.
  pose proof (take_page_frame s pgdir f l m Hok Hm) as F1.
  split_and!.
  - rewrite F, elem_of_app, M. intros [(v & _ & Hv & E)|H]; [|done]. apply U1 in Hv.
    rewrite F1 in E by apply (umapped_vpage _ _ _ Hv). apply (Hu v Hv). auto.
  - intros H. apply Ht, (take_page_in_table s pgdir f l m Hok Hm). destruct H as [->|(d & Hd & Hh & E)]; [left; reflexivity|].
    right. exists d. destruct (Tb d Hd) as [E1 E2]. rewrite E1, E2 in *. auto.
  - intros v Hv. pose proof (umapped_vpage _ _ _ Hv) as Hr. destruct Hv as [Hv1 Hv2].
    destruct (present (pte m pgdir v)) eqn:Hp.
    + destruct (decide (a <= v < b)) as [Hab|Hab].
      * rewrite G in Hv2; [discriminate|exact Hab|split; assumption].
      * unfold frame_at. rewrite P by tauto.
        assert (Hs : umapped (k_mem s) pgdir v) by (apply U1; split; assumption).
        fold (frame_at m pgdir v). rewrite F1 by exact Hr. apply Hu, Hs.
    + rewrite P in Hv2; [congruence|exact Hr|]. intros [_ [_ H] ]. congruence.
Qed.

Lemma allocuvm_loop_run (n : nat) (pgdir a oldsz newsz : Z) (s0 s : kernel) (l0 l : list Z) :
  space_ok s0 pgdir l0 -> kmem_lock ∉ k_held s0 -> cons_lock ∉ k_held s0 -> console_ok s0 ->
  0 <= oldsz <= newsz -> newsz < KERNBASE -> npages oldsz <= a <= npages newsz ->
  (forall v, npages oldsz <= v < npages newsz -> present (pte (k_mem s0) pgdir v) = false) ->
  grown pgdir (npages oldsz) a s0 s l0 l -> npages newsz - a < Z.of_nat n ->
  exists r t l', allocuvm_loop n pgdir (a * PGSIZE) oldsz newsz s = Done r t /\
    alloc_result pgdir oldsz newsz r s0 t l0 l'.
Proof.
  intros Hok0 Hl Hc Hco Ho Hn Ha Hnp. revert a s l Ha.
  pose proof (npages_user newsz ltac:(lia)) as Hb. pose proof (npages_user oldsz ltac:(lia)) as Hb'.
  induction n as [|n IH]; intros a s l Ha G Hf; [lia|]. cbn [allocuvm_loop].
  destruct (Z.ltb_spec (a * PGSIZE) newsz) as [Hlt|Hge]; cbn [negb].
  2: { assert (a = npages newsz) as -> by (pose proof (npages_lt newsz a); lia).
       exists newsz, s, l. split; [reflexivity|]. left. auto. }
  apply npages_lt in Hlt. pose proof (gr_ok _ _ _ _ _ _ _ G) as Hok. pose proof (gr_only _ _ _ _ _ _ _ G) as T.
  assert (Hls : kmem_lock ∉ k_held s) by (rewrite (mem_only_held _ _ T); exact Hl).
  assert (Hsz : oldsz < newsz) by (destruct (decide (oldsz = newsz)) as [->|]; lia).
  pose proof (kalloc_free_pages s l (vo_free _ _ _ (so_vm _ _ _ Hok)) Hls) as Hk.
  destruct l as [|f l].
  { destruct (alloc_undo_run pgdir oldsz newsz ("allocuvm out of memory" ++ nl) s0 s l0 [] []) as (t & l' & E & Fl & _);
      try assumption; try lia; [|reflexivity|].
    { apply (grown_partial pgdir _ a); try assumption; lia. }
    exists 0, t, l'. split; [|right; auto]. erewrite bind_Done by exact Hk. cbn [Z.eqb].
    apply bind_Done_inv in E as (u & s2 & E1 & E2). erewrite bind_Done by exact E1.
    erewrite bind_Done by exact E2. reflexivity. }
  destruct Hk as (Hp & _ & Ek & _).
  assert (Hnpa : present (pte (k_mem s) pgdir a) = false).
  { rewrite (gr_pte _ _ _ _ _ _ _ G) by (unfold UPAGES, NVPAGE in *; lia). apply Hnp. lia. }
  erewrite bind_Done by exact Ek.
  rewrite (proj2 (Z.eqb_neq f 0)) by (apply page_high in Hp; unfold KERNLINK, KERNBASE, EXTMEM, PHYSTOP in *; lia).
  unfold mem_set. kstep.
  change (upd k_mem _ _) with (take_page s f (memset f 0 PGSIZE (k_mem s))).
  destruct (grow_one s pgdir a f l Hok Hls ltac:(lia) Hnpa) as [ [E ->]|(t1 & l1 & E & G1)].
  - erewrite bind_Done by exact E. cbn [Z.ltb Z.compare].
    destruct (alloc_undo_run pgdir oldsz newsz ("allocuvm out of memory (2)" ++ nl) s0
                (take_page s f (memset f 0 PGSIZE (k_mem s))) l0 [] [f]) as (t & l' & E2 & Fl & s2 & Em & R);
      try assumption; try lia; [|reflexivity|].
    { apply (take_partial pgdir _ a); try assumption; lia. }
    assert (Hm : forall w, page w -> w <> f -> agree (k_mem s) (memset f 0 PGSIZE (k_mem s)) w)
      by (intros w Hw Hne; apply agree_memset; assumption).
    destruct (released_fresh pgdir _ _ f s s2 t [] l' _ Hok Hm Em R) as (N1 & N2 & N3).
    destruct (failed_give pgdir (npages oldsz) (npages newsz) f s0 t l0 l') as (u & Eu & Fu); try assumption; try lia.
    { destruct (gr_free _ _ _ _ _ _ _ G) as [k ->]. set_solver. }
    exists 0, u, (f :: l'). split; [|right; auto].
    apply bind_Done_inv in E2 as (u1 & s3 & E3 & E4). erewrite bind_Done by exact E3.
    erewrite bind_Done by exact E4. erewrite bind_Done by exact Eu. reflexivity.
  - erewrite bind_Done by exact E. cbn [Z.ltb Z.compare].
    replace (u32 (a * PGSIZE + PGSIZE)) with ((a + 1) * PGSIZE)
      by (rewrite u32_small; unfold PGSIZE, UPAGES in *; lia).
    apply (IH (a + 1) t1 l1); [lia| |lia]. eapply grown_trans; [| | |exact G|exact G1]; lia.
Qed.

(** [allocuvm] either maps zeroed pages up to the new size, or returns 0 and
    leaves the address space as it was. *)
Lemma allocuvm_run (pgdir oldsz newsz : Z) (s : kernel) (l : list Z) :
  space_ok s pgdir l -> kmem_lock ∉ k_held s -> cons_lock ∉ k_held s -> console_ok s ->
  0 <= oldsz <= newsz -> newsz < KERNBASE ->
  (forall v, npages oldsz <= v < npages newsz -> present (pte (k_mem s) pgdir v) = false) ->
  exists r t l', allocuvm pgdir oldsz newsz s = Done r t /\ alloc_result pgdir oldsz newsz r s t l l'.
Proof.
  intros Hok Hl Hc Hco Ho Hn Hnp. unfold allocuvm.
  rewrite Z.geb_leb, (proj2 (Z.leb_gt _ _)) by lia. rewrite (proj2 (Z.ltb_ge _ _)) by lia.
  rewrite npages_roundup by lia. apply allocuvm_loop_run with (l := l); try assumption.
  - unfold npages, PGSIZE. Z.div_mod_to_equations. lia.
  - apply grown_nothing; [exact Hok|lia].
  - unfold npages, PGSIZE. rewrite Nat2Z.inj_succ, Z2Nat.id by (Z.div_mod_to_equations; lia).
    Z.div_mod_to_equations. lia.
Qed.

(** ** copyout *)

(** The byte a user program reads at [x]. *)
Definition uread (m : gmap Z Z) (pgdir x : Z) : Z := rd m (frame_at m pgdir (x / PGSIZE) + x mod PGSIZE).

(** User code may access page [v]. *)
Definition uaccess (m : gmap Z Z) (pgdir v : Z) : Prop :=
  umapped m pgdir v /\ user_ok (pte m pgdir v) = true.

Lemma umapped_has_table (m : gmap Z Z) (pgdir v : Z) : umapped m pgdir v -> has_table m pgdir (v / 1024) = true.
Proof. intros [_ H]. unfold pte in H. destruct (has_table _ _ _); [reflexivity|discriminate]. Qed.

Lemma uva2ka_run (s : kernel) (pgdir v : Z) (l : list Z) :
  0 <= v < UPAGES -> has_table (k_mem s) pgdir (v / 1024) = true ->
  vm_ok s pgdir l ->
  uva2ka pgdir (v * PGSIZE) s =
    Done (if present (pte (k_mem s) pgdir v) && user_ok (pte (k_mem s) pgdir v)
          then frame_at (k_mem s) pgdir v else 0) s.
Proof.
  intros Hv Ht Hok.
  assert (Ev : v * PGSIZE / PGSIZE = v) by (apply Z.div_mul; discriminate).
  unfold uva2ka. erewrite bind_Done by (apply walk_hit; [unfold UPAGES, PGSIZE in *; lia|rewrite Ev; exact Ht]).
  rewrite Ev, (slot_nonzero s pgdir v l) by (assumption || (unfold UPAGES, NVPAGE in *; lia)).
  unfold ld32. kstep. rewrite <- pte_slot by exact Ht.
  destruct (present _), (user_ok _); reflexivity.
Qed.

(** Writing inside a mapped page. *)
Lemma put_user (s : kernel) (pgdir v off : Z) (d : list Z) (l : list Z) :
  space_ok s pgdir l -> umapped (k_mem s) pgdir v -> 0 <= off -> off + Z.of_nat (length d) <= PGSIZE ->
  let t := s <| k_mem ::= wr_list (frame_at (k_mem s) pgdir v + off) d |> in
  space_ok t pgdir l /\
  (forall w, 0 <= w < NVPAGE -> pte (k_mem t) pgdir w = pte (k_mem s) pgdir w) /\
  (forall x, umapped (k_mem s) pgdir (x / PGSIZE) ->
     uread (k_mem t) pgdir x =
       if decide (v * PGSIZE + off <= x < v * PGSIZE + off + Z.of_nat (length d))
       then byte_at d (x - (v * PGSIZE + off)) else uread (k_mem s) pgdir x).
Proof.
  intros Hok Hv H0 H1 t. destruct (so_page _ _ _ Hok v Hv) as (Hp & Hnl & Hnt).
  set (f := frame_at (k_mem s) pgdir v) in *.
  assert (Hm : forall w, page w -> w <> f -> agree (k_mem s) (k_mem t) w).
  { intros w Hw Hne. apply (agree_wr_list _ w f); try assumption; lia. }
  assert (Hd : agree (k_mem s) (k_mem t) pgdir).
  { apply Hm; [apply (vo_dir _ _ _ (so_vm _ _ _ Hok))|]. intros E. apply Hnt. left. congruence. }
  assert (P : forall w, 0 <= w < NVPAGE -> pte (k_mem t) pgdir w = pte (k_mem s) pgdir w).
  { intros w. apply agree_pte; [exact Hd|]. intros d' Hd' Hh.
    apply Hm; [apply (vo_tab _ _ _ (so_vm _ _ _ Hok)); assumption|]. intros E. apply Hnt. right. eauto. }
  assert (T : forall w, in_table (k_mem t) pgdir w -> in_table (k_mem s) pgdir w).
  { intros w [->|(d' & Hd' & Hh & ->)]; [left; reflexivity|]. right. exists d'.
    destruct (agree_table _ _ pgdir d' Hd Hd') as [E1 E2]. rewrite E1, E2 in *. auto. }
  assert (U : forall w, umapped (k_mem t) pgdir w -> umapped (k_mem s) pgdir w /\
    frame_at (k_mem t) pgdir w = frame_at (k_mem s) pgdir w).
  { intros w Hw. pose proof (umapped_vpage _ _ _ Hw) as Hr. destruct Hw as [? ?].
    unfold umapped, frame_at. rewrite P in * by exact Hr. auto. }
  split_and!; [split|exact P|].
  - apply (vm_ok_frame s); [apply Hok|reflexivity|exact Hd|]. intros w Hw.
    destruct (vo_free _ _ _ (so_vm _ _ _ Hok)) as (_ & _ & Hf). rewrite Forall_forall in Hf.
    apply Hm; [apply Hf, Hw|intros ->; done].
  - intros w Hw. destruct (U w Hw) as [Hw' ->]. destruct (so_page _ _ _ Hok w Hw') as (? & ? & ?).
    split_and!; [assumption..|]. intros HT. apply T in HT. done.
  - intros w x Hw Hx. destruct (U w Hw) as [Hw' ->]. destruct (U x Hx) as [Hx' ->].
    apply (so_inj _ _ _ Hok); assumption.
  - intros x Hx. pose proof (umapped_vpage _ _ _ Hx) as Hr. unfold uread.
    assert (Ef : frame_at (k_mem t) pgdir (x / PGSIZE) = frame_at (k_mem s) pgdir (x / PGSIZE))
      by (unfold frame_at; rewrite P by exact Hr; reflexivity).
    rewrite Ef. pose proof (Z.mod_pos_bound x PGSIZE eq_refl) as Hx1. pose proof (Z.div_mod x PGSIZE) as Hx2.
    destruct (decide (x / PGSIZE = v)) as [E|E].
    + rewrite E. fold f. simpl. rewrite rd_wr_list.
      assert (x = v * PGSIZE + x mod PGSIZE) by (rewrite E in Hx2; lia).
      destruct (decide (v * PGSIZE + off <= x < v * PGSIZE + off + Z.of_nat (length d)));
        [rewrite decide_True by lia; f_equal; lia|rewrite decide_False by lia; reflexivity].
    + rewrite decide_False.
      * apply (Hm (frame_at (k_mem s) pgdir (x / PGSIZE))); [apply (so_page _ _ _ Hok _ Hx)| |lia].
        intros E'. apply E, (so_inj _ _ _ Hok); assumption.
      * intros Hr'. apply E. symmetry. apply (Z.div_unique x PGSIZE v (x - v * PGSIZE)); unfold PGSIZE in *; lia.
Qed.

(** The loop of [copyout] on accessible pages. *)
Lemma copyout_loop_run (n : nat) (pgdir va : Z) (buf : list Z) (s : kernel) (l : list Z) :
  space_ok s pgdir l -> 0 <= va -> va + Z.of_nat (length buf) <= KERNBASE ->
  (forall v, va / PGSIZE <= v < npages (va + Z.of_nat (length buf)) -> uaccess (k_mem s) pgdir v) ->
  npages (va + Z.of_nat (length buf)) - va / PGSIZE < Z.of_nat n \/ (buf = [] /\ (0 < n)%nat) ->
  exists t, copyout_loop n pgdir va buf s = Done 0 t /\ space_ok t pgdir l /\
    (forall w, 0 <= w < NVPAGE -> pte (k_mem t) pgdir w = pte (k_mem s) pgdir w) /\
    (forall x, umapped (k_mem s) pgdir (x / PGSIZE) ->
       uread (k_mem t) pgdir x =
         if decide (va <= x < va + Z.of_nat (length buf)) then byte_at buf (x - va)
         else uread (k_mem s) pgdir x) /\
    t = s <| k_mem := k_mem t |>.
Proof.
  revert va buf s. induction n as [|n IH]; intros va buf s Hok H0 H1 Ha Hn.
  { exfalso. destruct Hn as [Hn|[_ Hn] ]; [|lia]. unfold npages, PGSIZE in Hn. Z.div_mod_to_equations. lia. }
  cbn [copyout_loop]. destruct (decide (buf = [])) as [->|Hbuf].
  { exists s. split_and!; auto. intros x Hx. simpl. rewrite decide_False by lia. reflexivity. }
  assert (Hlen : 0 < Z.of_nat (length buf)) by (destruct buf; [done|simpl; lia]).
  destruct Hn as [Hn|[-> _] ]; [|done].
  rewrite Z.gtb_ltb, (proj2 (Z.ltb_lt _ _)) by exact Hlen. cbn [negb]. cbv zeta.
  set (v := va / PGSIZE) in *. set (len := Z.of_nat (length buf)) in *.
  assert (Hv0 : PGROUNDDOWN va = v * PGSIZE).
  { rewrite PGROUNDDOWN_eq. unfold v, PGSIZE. Z.div_mod_to_equations. lia. }
  assert (Hoff : 0 <= va - v * PGSIZE < PGSIZE) by (unfold v, PGSIZE; Z.div_mod_to_equations; lia).
  assert (Hvn : v < npages (va + len)) by (apply npages_lt; lia).
  destruct (Ha v) as [Hm Hu]; [lia|].
  rewrite Hv0. erewrite bind_Done by (eapply uva2ka_run; [apply Hm|apply umapped_has_table, Hm|apply Hok]).
  rewrite Hu, (proj2 Hm). cbn [andb]. destruct (so_page _ _ _ Hok v Hm) as (Hp & _).
  rewrite (proj2 (Z.eqb_neq _ 0)) by (apply page_high in Hp; unfold KERNLINK, KERNBASE, EXTMEM, PHYSTOP in *; lia).
  set (off := va - v * PGSIZE) in *. set (k := Z.min (PGSIZE - off) len).
  assert (Hk : Z.of_nat (length (take (Z.to_nat k) buf)) = k) by (rewrite length_take; unfold k, len; lia).
  destruct (put_user s pgdir v off (take (Z.to_nat k) buf) l) as (O1 & P1 & R1); [exact Hok|exact Hm|lia|lia|].
  set (s1 := s <| k_mem ::= _ |>) in *. rewrite Hk in R1.
  assert (Eva : va = v * PGSIZE + off) by (unfold off; lia). rewrite <- Eva in R1.
  assert (Hld : Z.of_nat (length (drop (Z.to_nat k) buf)) = len - k) by (rewrite length_drop; unfold k, len; lia).
  assert (Enext : u32 (v * PGSIZE + PGSIZE) = (v + 1) * PGSIZE).
  { rewrite u32_small; [lia|]. destruct Hm as [Hm _]. unfold UPAGES, PGSIZE in *. lia. }
  assert (Ediv : (v + 1) * PGSIZE / PGSIZE = v + 1) by (apply Z.div_mul; discriminate).
  rewrite Enext. destruct (decide (k = len)) as [Hkl|Hkl].
  - assert (Edrop : drop (Z.to_nat k) buf = []) by (apply drop_ge; unfold len in Hkl; lia).
    assert (Etake : take (Z.to_nat k) buf = buf) by (apply take_ge; unfold len in Hkl; lia).
    exists s1. rewrite Etake, Hkl in R1. split_and!; [|exact O1|exact P1|exact R1|reflexivity].
    unfold mem_put. kstep. rewrite Edrop. destruct n as [|n]; [lia|]. reflexivity.
  - assert (Ek : k = PGSIZE - off) by (unfold k in *; lia).
    destruct (IH ((v + 1) * PGSIZE) (drop (Z.to_nat k) buf) s1) as (t & E & O2 & P2 & R2 & T2).
    + exact O1.
    + unfold v, PGSIZE. Z.div_mod_to_equations. lia.
    + rewrite Hld. lia.
    + rewrite Ediv, Hld. replace ((v + 1) * PGSIZE + (len - k)) with (va + len) by lia.
      intros w Hw. destruct (Ha w) as [Hw1 Hw2]; [lia|]. pose proof (umapped_vpage _ _ _ Hw1).
      split; [split|]; rewrite ?P1 by assumption; [apply Hw1|apply Hw1|exact Hw2].
    + rewrite Ediv, Hld. replace ((v + 1) * PGSIZE + (len - k)) with (va + len) by lia. left. lia.
    + exists t. rewrite Hld in R2. split_and!; [|exact O2| | |rewrite T2; reflexivity].
      * unfold mem_put. kstep. exact E.
      * intros w Hw. rewrite P2, P1 by exact Hw. reflexivity.
      * intros x Hx. pose proof (umapped_vpage _ _ _ Hx) as Hr.
        rewrite R2 by (destruct Hx as [Hx1 Hx2]; split; [exact Hx1|rewrite P1 by exact Hr; exact Hx2]).
        rewrite R1 by exact Hx. unfold byte_at. destruct (decide (va <= x < va + k)) as [D1|D1].
        -- rewrite decide_False by lia. rewrite decide_True by lia. rewrite lookup_take_lt by lia. reflexivity.
        -- destruct (decide (va <= x < va + len)).
           ++ rewrite decide_True by lia. rewrite lookup_drop. do 2 f_equal. lia.
           ++ rewrite decide_False by lia. reflexivity.
Qed.

End UserSpace.
