(* ===== verification/AddressSpace.v ===== *)
(** * Properties of address spaces

    What [mappages], [allocuvm], [deallocuvm], [freevm] and [copyout] do to
    a process's memory, with an example address space for the witnesses. *)

From S2P Require Import Prelude Params Bytes CString Kernel Print Kalloc Vm VmSpec UserSpace.

(** ** An example

    One user page, [ex_frame], mapped at address 0 through the page table
    [ex_table] of the directory [ex_dir]; two pages are free. *)

Definition ex_dir : Z := 0x80200000.
Definition ex_table : Z := 0x80201000.
Definition ex_frame : Z := 0x80202000.
Definition ex_free1 : Z := 0x80203000.
Definition ex_free2 : Z := 0x80204000.

Definition ex_mem : gmap Z Z :=
  wr32 ex_free1 ex_free2 (wr32 ex_free2 0
    (wr32 ex_table (user_entry ex_frame) (wr32 ex_dir (user_entry ex_table) ∅))).

Definition ex_vm : kernel := kernel0 <| k_mem := ex_mem |> <| k_freelist := ex_free1 |>.

Lemma rd32_empty (a : Z) : rd32 ∅ a = 0.
Proof. reflexivity. Qed.

Lemma ex_dir_entry (d : Z) :
  0 <= d < 1024 -> rd32 ex_mem (ex_dir + 4 * d) = if decide (d = 0) then user_entry ex_table else 0.
Proof.
  intros Hd. unfold ex_mem, ex_dir, ex_table, ex_frame, ex_free1, ex_free2.
  rewrite !(rd32_wr32_other _ 0x80203000), !(rd32_wr32_other _ 0x80204000), !(rd32_wr32_other _ 0x80201000) by lia.
  case_decide; [subst d; vm_compute; reflexivity|]. rewrite rd32_wr32_other by lia. reflexivity.
Qed.

Lemma ex_table_entry (i : Z) :
  0 <= i < 1024 -> rd32 ex_mem (ex_table + 4 * i) = if decide (i = 0) then user_entry ex_frame else 0.
Proof.
  intros Hd. unfold ex_mem, ex_dir, ex_table, ex_frame, ex_free1, ex_free2.
  rewrite !(rd32_wr32_other _ 0x80203000), !(rd32_wr32_other _ 0x80204000) by lia.
  case_decide; [subst i; vm_compute; reflexivity|]. rewrite !rd32_wr32_other by lia. reflexivity.
Qed.

Lemma ex_has_table (d : Z) : 0 <= d < 1024 -> has_table ex_mem ex_dir d = bool_decide (d = 0).
Proof.
  intros Hd. unfold has_table. rewrite ex_dir_entry by exact Hd.
  case_decide as E; [rewrite bool_decide_eq_true_2 by exact E|rewrite bool_decide_eq_false_2 by exact E]; reflexivity.
Qed.

Lemma ex_pte (v : Z) : 0 <= v < NVPAGE -> pte ex_mem ex_dir v = if decide (v = 0) then user_entry ex_frame else 0.
Proof.
  intros Hv. destruct (vpage_split v Hv) as [H1 H2]. unfold pte. rewrite ex_has_table by exact H1.
  case_bool_decide as E.
  - unfold table. rewrite E. change (P2V (PTE_ADDR (rd32 ex_mem (ex_dir + 4 * 0)))) with ex_table.
    rewrite ex_table_entry by exact H2. repeat case_decide; try reflexivity; Z.div_mod_to_equations; lia.
  - rewrite decide_False; [reflexivity|]. intros ->. apply E. reflexivity.
Qed.

Lemma ex_page (v : Z) :
  v ∈ [ex_dir; ex_table; ex_frame; ex_free1; ex_free2] -> page (L := ex_linker) v.
Proof.
  intros H. repeat (apply elem_of_cons in H as [->|H]; [vm_compute; intuition discriminate|]).
  apply elem_of_nil in H as [].
Qed.

Lemma ex_table0 (d : Z) : 0 <= d < 1024 -> has_table ex_mem ex_dir d = true -> d = 0 /\ table ex_mem ex_dir d = ex_table.
Proof.
  intros Hd H. rewrite ex_has_table in H by exact Hd. apply bool_decide_eq_true in H. subst d.
  split; reflexivity.
Qed.

Lemma ex_umapped (v : Z) : umapped ex_mem ex_dir v -> v = 0.
Proof.
  intros H. pose proof (umapped_vpage _ _ _ H) as Hr. destruct H as [_ H]. rewrite ex_pte in H by exact Hr.
  case_decide; [assumption|discriminate].
Qed.

Lemma ex_space_ok : space_ok (L := ex_linker) ex_vm ex_dir [ex_free1; ex_free2].
Proof.
  split; [split|..].
  - split_and!; [repeat split|apply (bool_decide_unpack _); vm_compute; exact I|].
    apply Forall_forall. intros v Hv. apply ex_page. set_solver.
  - split; [apply ex_page; set_solver|]. apply (bool_decide_unpack _). vm_compute. exact I.
  - intros d Hd Hh. destruct (ex_table0 d Hd Hh) as [_ E]. simpl. rewrite E.
    split_and!; [apply ex_page; set_solver|discriminate|apply (bool_decide_unpack _); vm_compute; exact I].
  - intros d d' Hd Hd' Hne Hh Hh'. destruct (ex_table0 d Hd Hh), (ex_table0 d' Hd' Hh'). congruence.
  - intros v Hv. apply ex_umapped in Hv. subst v. change (frame_at (k_mem ex_vm) ex_dir 0) with ex_frame.
    split_and!; [apply ex_page; set_solver|apply (bool_decide_unpack _); vm_compute; exact I|].
    intros [H|(d & Hd & Hh & H)]; [discriminate H|]. destruct (ex_table0 d Hd Hh) as [_ E].
    simpl in H. rewrite E in H. discriminate H.
  - intros v w Hv Hw _. apply ex_umapped in Hv, Hw. congruence.
Qed.

Lemma ex_unmapped (v : Z) : 1 <= v < NVPAGE -> present (pte (k_mem ex_vm) ex_dir v) = false.
Proof.
  intros Hv. change (k_mem ex_vm) with ex_mem. rewrite ex_pte by lia.
  rewrite decide_False by lia. reflexivity.
Qed.

(** ** Properties *)

(** [mappages] on [n] unmapped pages: it maps them all, in order, with
    the given permissions and returns 0, or memory for a page table runs out
    and it returns -1 with the first [k < n] pages mapped and the free list
    empty.  Every other entry, and every page outside the page table that was
    not free, is left as it was. *)
Theorem mappages_maps_range {L : Linker} (pgdir v0 n pa perm : Z) (s : kernel) (l : list Z)
    (Hok : vm_ok s pgdir l) (Hl : kmem_lock ∉ k_held s) (H0 : 0 <= v0) (Hn0 : 0 < n)
    (Hn : v0 + n <= NVPAGE) (Hpa : 0 <= pa < 2 ^ 32)
    (Hnp : forall v, v0 <= v < v0 + n -> present (pte (k_mem s) pgdir v) = false) :
  exists r t l' k,
    mappages pgdir (v0 * PGSIZE) (n * PGSIZE) pa perm s = Done r t /\
    vm_step pgdir s t l l' /\ mapped (k_mem s) (k_mem t) pgdir v0 k pa perm /\
    (r = 0 /\ k = n \/ r = -1 /\ 0 <= k < n /\ l' = []).
Proof. apply mappages_run; assumption. Qed.

Lemma mappages_maps_range_witness :
  let L := ex_linker in
  exists r t l' k,
    mappages ex_dir (5 * PGSIZE) (2 * PGSIZE) 0x300000 PTE_W ex_vm = Done r t /\
    vm_step ex_dir ex_vm t [ex_free1; ex_free2] l' /\
    mapped (k_mem ex_vm) (k_mem t) ex_dir 5 k 0x300000 PTE_W /\
    (r = 0 /\ k = 2 \/ r = -1 /\ 0 <= k < 2 /\ l' = []).
Proof.
  intros L. apply (mappages_maps_range (L := ex_linker)).
  - apply ex_space_ok.
  - apply not_elem_of_nil.
  - discriminate.
  - reflexivity.
  - discriminate.
  - split; [discriminate|reflexivity].
  - intros v Hv. apply ex_unmapped. unfold NVPAGE. lia.
Defined.

(** C18. [allocuvm] either returns the new size, and every page between the two
    sizes is a zeroed page that was free, mapped writable for the user; or it
    returns 0, and the address space is as before: nothing mapped between the
    two sizes, the same entries and the same contents elsewhere, and every
    page that was free is still free or has become a page table. *)
Theorem allocuvm_grows_or_undoes {L : Linker} (pgdir oldsz newsz : Z) (s : kernel) (l : list Z)
    (Hok : space_ok s pgdir l) (Hl : kmem_lock ∉ k_held s) (Hc : cons_lock ∉ k_held s)
    (Hco : console_ok s) (Ho : 0 <= oldsz <= newsz) (Hn : newsz < KERNBASE)
    (Hnp : forall v, npages oldsz <= v < npages newsz -> present (pte (k_mem s) pgdir v) = false) :
  exists r t l', allocuvm pgdir oldsz newsz s = Done r t /\
    ((r = newsz /\ grown pgdir (npages oldsz) (npages newsz) s t l l') \/
     (r = 0 /\ alloc_failed pgdir (npages oldsz) (npages newsz) s t l l' [])).
Proof. apply allocuvm_run; assumption. Qed.

Lemma allocuvm_grows_or_undoes_witness :
  let L := ex_linker in
  exists r t l', allocuvm ex_dir 4000 8000 ex_vm = Done r t /\
    ((r = 8000 /\ grown ex_dir 1 2 ex_vm t [ex_free1; ex_free2] l') \/
     (r = 0 /\ alloc_failed ex_dir 1 2 ex_vm t [ex_free1; ex_free2] l' [])).
Proof.
  intros L. apply (allocuvm_grows_or_undoes (L := ex_linker)).
  - apply ex_space_ok.
  - apply not_elem_of_nil.
  - apply not_elem_of_nil.
  - vm_compute. intuition discriminate.
  - split; discriminate.
  - reflexivity.
  - change (npages 4000) with 1. change (npages 8000) with 2. intros v Hv. apply ex_unmapped. unfold NVPAGE. lia.
Defined.

(** C19. Growing and shrinking.  When [allocuvm] has grown the memory from
    [oldsz] to [newsz], [deallocuvm] back to [oldsz] takes every page in
    between out again and leaves all other entries and the contents of the
    other user pages as they were before; each page that was free at the start
    is free again or has become a page table. *)
Theorem grow_shrink_roundtrip {L : Linker} (pgdir oldsz newsz : Z) (s t : kernel) (l : list Z)
    (Hok : space_ok s pgdir l) (Hl : kmem_lock ∉ k_held s) (Hc : cons_lock ∉ k_held s)
    (Hco : console_ok s) (Ho : 0 <= oldsz < newsz) (Hn : newsz < KERNBASE)
    (Hnp : forall v, npages oldsz <= v < npages newsz -> present (pte (k_mem s) pgdir v) = false)
    (Ha : allocuvm pgdir oldsz newsz s = Done newsz t) :
  exists u l', deallocuvm pgdir newsz oldsz t = Done oldsz u /\ space_ok u pgdir l' /\
    (forall v, npages oldsz <= v < npages newsz -> present (pte (k_mem u) pgdir v) = false) /\
    (forall v, 0 <= v < NVPAGE -> ~ (npages oldsz <= v < npages newsz) ->
       pte (k_mem u) pgdir v = pte (k_mem s) pgdir v) /\
    (forall v, umapped (k_mem s) pgdir v -> agree (k_mem s) (k_mem u) (frame_at (k_mem s) pgdir v)) /\
    (forall w, w ∈ l -> w ∈ l' \/ in_table (k_mem u) pgdir w).
Proof.
  pose proof (npages_user newsz ltac:(lia)) as Hb. pose proof (npages_user oldsz ltac:(lia)) as Hb'.
  destruct (allocuvm_run pgdir oldsz newsz s l) as (r & t' & l1 & E & Hr); try assumption; [lia|].
  rewrite Ha in E. injection E as <- <-. destruct Hr as [ [_ Hg]|[H _] ]; [|lia].
  pose proof (grown_partial pgdir _ _ (npages newsz) s t l l1 (proj1 Hb') (Z.le_refl _) (proj2 Hb) Hnp Hg) as Hp.
  destruct (deallocuvm_run pgdir newsz oldsz t l1) as (u & l' & E & R);
    [apply (gr_ok _ _ _ _ _ _ _ Hg)|rewrite (mem_only_held _ _ (gr_only _ _ _ _ _ _ _ Hg)); exact Hl|lia|lia|].
  exists u, l'. split; [exact E|].
  destruct (undo_failed pgdir (npages oldsz) (npages newsz) s t t u l l1 l' []) as [O _ _ G P A _ _ U];
    try assumption; try lia; [split; [reflexivity|] |].
  { unfold console_ok. rewrite (gr_only _ _ _ _ _ _ _ Hg). exact Hco. }
  split_and!; [exact O|exact G|exact P|exact A|]. intros w Hw. destruct (U w Hw) as [H|[H|H] ]; auto.
  apply elem_of_nil in H as [].
Qed.

Definition ex_grown : kernel :=
  match allocuvm (L := ex_linker) ex_dir 4000 8000 ex_vm with Done _ t => t | _ => ex_vm end.

Lemma ex_grown_run : allocuvm (L := ex_linker) ex_dir 4000 8000 ex_vm = Done 8000 ex_grown.
Proof.
  assert (H : match allocuvm (L := ex_linker) ex_dir 4000 8000 ex_vm with
              | Done r _ => r =? 8000 | _ => false end = true) by (vm_compute; reflexivity).
  unfold ex_grown. destruct (allocuvm (L := ex_linker) ex_dir 4000 8000 ex_vm); try discriminate.
  apply Z.eqb_eq in H. rewrite H. reflexivity.
Qed.

Lemma grow_shrink_roundtrip_witness :
  let L := ex_linker in
  exists u l', deallocuvm ex_dir 8000 4000 ex_grown = Done 4000 u /\ space_ok u ex_dir l' /\
    (forall v, 1 <= v < 2 -> present (pte (k_mem u) ex_dir v) = false) /\
    (forall v, 0 <= v < NVPAGE -> ~ (1 <= v < 2) ->
       pte (k_mem u) ex_dir v = pte (k_mem ex_vm) ex_dir v) /\
    (forall v, umapped (k_mem ex_vm) ex_dir v ->
       agree (k_mem ex_vm) (k_mem u) (frame_at (k_mem ex_vm) ex_dir v)) /\
    (forall w, w ∈ [ex_free1; ex_free2] -> w ∈ l' \/ in_table (k_mem u) ex_dir w).
Proof.
  intros L. apply (grow_shrink_roundtrip (L := ex_linker) ex_dir 4000 8000 ex_vm ex_grown [ex_free1; ex_free2]).
  - apply ex_space_ok.
  - apply not_elem_of_nil.
  - apply not_elem_of_nil.
  - vm_compute. intuition discriminate.
  - split; [discriminate|reflexivity].
  - reflexivity.
  - change (npages 4000) with 1. change (npages 8000) with 2. intros v Hv. apply ex_unmapped. unfold NVPAGE. lia.
  - exact ex_grown_run.
Defined.

(** C20. [freevm] gives every page of an address space back exactly once: the
    pages mapped below [KERNBASE], the page tables and the page directory are
    added to the free list, which stays free of duplicates, and no other page
    is touched. *)
Theorem freevm_returns_every_page {L : Linker} (pgdir : Z) (s : kernel) (l : list Z)
    (Hok : space_ok s pgdir l) (Hl : kmem_lock ∉ k_held s) :
  exists t l0, freevm pgdir s = Done tt t /\ free_pages t (l0 ++ l) /\
    (forall w, w ∈ l0 <-> in_table (k_mem s) pgdir w \/
       exists v, umapped (k_mem s) pgdir v /\ w = frame_at (k_mem s) pgdir v) /\
    (forall w, page w -> w ∉ l0 -> agree (k_mem s) (k_mem t) w).
Proof.
  destruct (freevm_run pgdir s l Hok Hl) as (t & l0 & E & F & _ & M & A). eauto 10.
Qed.

Lemma freevm_returns_every_page_witness :
  let L := ex_linker in
  exists t l0, freevm ex_dir ex_vm = Done tt t /\ free_pages t (l0 ++ [ex_free1; ex_free2]) /\
    (forall w, w ∈ l0 <-> in_table (k_mem ex_vm) ex_dir w \/
       exists v, umapped (k_mem ex_vm) ex_dir v /\ w = frame_at (k_mem ex_vm) ex_dir v) /\
    (forall w, page w -> w ∉ l0 -> agree (k_mem ex_vm) (k_mem t) w).
Proof.
  intros L. apply (freevm_returns_every_page (L := ex_linker) ex_dir ex_vm [ex_free1; ex_free2]).
  - apply ex_space_ok.
  - apply not_elem_of_nil.
Defined.

(** [copyout] to pages the user may access returns 0; the user then reads
    the copied bytes at the target range and what was there before at every
    other address, and the page table is unchanged. *)
Theorem copyout_writes_user_memory {L : Linker} (pgdir va : Z) (buf : list Z) (s : kernel) (l : list Z)
    (Hok : space_ok s pgdir l) (H0 : 0 <= va) (H1 : va + Z.of_nat (length buf) <= KERNBASE)
    (Ha : forall v, va / PGSIZE <= v < npages (va + Z.of_nat (length buf)) -> uaccess (k_mem s) pgdir v) :
  exists t, copyout pgdir va buf s = Done 0 t /\ space_ok t pgdir l /\
    (forall w, 0 <= w < NVPAGE -> pte (k_mem t) pgdir w = pte (k_mem s) pgdir w) /\
    (forall x, umapped (k_mem s) pgdir (x / PGSIZE) ->
       uread (k_mem t) pgdir x =
         if decide (va <= x < va + Z.of_nat (length buf)) then byte_at buf (x - va)
         else uread (k_mem s) pgdir x) /\
    t = s <| k_mem := k_mem t |>.
Proof.
  apply copyout_loop_run; try assumption. left. unfold npages, PGSIZE.
  rewrite !Nat2Z.inj_succ, Z2Nat.id by (Z.div_mod_to_equations; lia). Z.div_mod_to_equations. lia.
Qed.

Lemma copyout_writes_user_memory_witness :
  let L := ex_linker in
  exists t, copyout ex_dir 4000 [104; 105] ex_vm = Done 0 t /\ space_ok t ex_dir [ex_free1; ex_free2] /\
    (forall w, 0 <= w < NVPAGE -> pte (k_mem t) ex_dir w = pte (k_mem ex_vm) ex_dir w) /\
    (forall x, umapped (k_mem ex_vm) ex_dir (x / PGSIZE) ->
       uread (k_mem t) ex_dir x =
         if decide (4000 <= x < 4002) then byte_at [104; 105] (x - 4000)
         else uread (k_mem ex_vm) ex_dir x) /\
    t = ex_vm <| k_mem := k_mem t |>.
Proof.
  intros L. apply (copyout_writes_user_memory (L := ex_linker) ex_dir 4000 [104; 105] ex_vm).
  - apply ex_space_ok.
  - discriminate.
  - discriminate.
  - change (4000 / PGSIZE) with 0. change (npages (4000 + Z.of_nat (length [104; 105]))) with 1. intros v Hv.
    assert (v = 0) as -> by lia. vm_compute. intuition discriminate.
Defined.
