(* ===== verification/VmCopy.v ===== *)
(** * setupkvm and copyuvm: the address space of a new process

    [fork] copies the parent's memory: a new page directory with the kernel's
    mappings, and below them a copy of every page.  The proofs reuse the steps
    of VmSpec.v and UserSpace.v; all pages come from the free list, so nothing
    the parent uses is touched. *)

From S2P Require Import Prelude Params Bytes CString Kernel Print Kalloc Vm VmSpec UserSpace AddressSpace.

Section VmCopy.
Context {L : Linker}.

(** ** The kernel's mappings *)

Definition ent_page (k : kmap_ent) : Z := virt k / PGSIZE.
Definition ent_pages (k : kmap_ent) : Z := u32 (phys_end k - phys_start k) / PGSIZE.

(** The entries after the ranges of [ks] are mapped over [f]. *)
Fixpoint kmapped (ks : list kmap_ent) (f : Z -> Z) : Z -> Z :=
  match ks with
  | [] => f
  | k :: ks' => kmapped ks' (fun v =>
      if decide (ent_page k <= v < ent_page k + ent_pages k)
      then u32 (Z.lor (Z.lor (u32 (phys_start k + (v - ent_page k) * PGSIZE)) (perm k)) PTE_P)
      else f v)
  end.

(** The kernel's part of every address space; 0 for the pages of the user. *)
Definition kernel_pte : Z -> Z := kmapped kmap (fun _ => 0).

(** Whole pages above the user's, none of them mapped before. *)
Record ent_ok (k : kmap_ent) (f : Z -> Z) : Prop := {
  eo_virt : virt k = ent_page k * PGSIZE;
  eo_size : u32 (phys_end k - phys_start k) = ent_pages k * PGSIZE;
  eo_some : 0 < ent_pages k;
  eo_range : UPAGES <= ent_page k /\ ent_page k + ent_pages k <= NVPAGE;
  eo_phys : 0 <= phys_start k < 2 ^ 32;
  eo_new : forall v, ent_page k <= v < ent_page k + ent_pages k -> present (f v) = false
}.

Fixpoint kmap_ok (ks : list kmap_ent) (f : Z -> Z) : Prop :=
  match ks with
  | [] => True
  | k :: ks' => ent_ok k f /\ kmap_ok ks' (kmapped [k] f)
  end.

Lemma kmapped_user (ks : list kmap_ent) (v : Z) : v < UPAGES -> forall f, kmap_ok ks f -> kmapped ks f v = f v.
Proof.
  intros Hv. induction ks as [|k ks IH]; intros f Hk; [reflexivity|]. destruct Hk as [Ho Hk]. cbn [kmapped].
  rewrite IH by exact Hk. rewrite decide_False by (pose proof (eo_range _ _ Ho); lia). reflexivity.
Qed.

Lemma kernel_map_ok : kdata < KERNBASE + PHYSTOP -> kmap_ok kmap (fun _ => 0).
Proof.
  intros Hd. pose proof kdata_range as Hr. pose proof kdata_page as Hp. unfold KERNLINK, KERNBASE, EXTMEM, PHYSTOP in *.
  assert (E : exists n, kdata = n * 4096) by (exists (kdata / 4096); unfold PGSIZE in Hp; Z.div_mod_to_equations; lia).
  destruct E as [n En]. unfold kmap. cbn [kmap_ok kmapped].
  assert (V : V2P kdata = kdata - 0x80000000) by (unfold V2P, KERNBASE; apply u32_small; lia).
  assert (P2 : ent_page (mk_kmap_ent KERNLINK (V2P KERNLINK) (V2P kdata) 0) = 0x80100) by reflexivity.
  assert (P3 : ent_page (mk_kmap_ent kdata (V2P kdata) PHYSTOP PTE_W) = n) by (unfold ent_page; cbn; unfold PGSIZE; rewrite En; apply Z.div_mul; lia).
  assert (N2 : ent_pages (mk_kmap_ent KERNLINK (V2P KERNLINK) (V2P kdata) 0) = n - 0x80100).
  { unfold ent_pages. cbn [phys_end phys_start]. rewrite V. change (V2P KERNLINK) with 0x100000. rewrite u32_small by lia. unfold PGSIZE. Z.div_mod_to_equations. lia. }
  assert (N3 : ent_pages (mk_kmap_ent kdata (V2P kdata) PHYSTOP PTE_W) = 0x8e000 - n).
  { unfold ent_pages. cbn [phys_end phys_start]. rewrite V. unfold PHYSTOP. rewrite u32_small by lia. unfold PGSIZE. Z.div_mod_to_equations. lia. }
  change (ent_page (mk_kmap_ent KERNBASE 0 EXTMEM PTE_W)) with 0x80000. change (ent_pages (mk_kmap_ent KERNBASE 0 EXTMEM PTE_W)) with 0x100.
  split_and!; [| | | |exact I].
  - split; try reflexivity; split; vm_compute; congruence.
  - split; rewrite ?P2, ?N2; [reflexivity| |lia|unfold UPAGES, NVPAGE; lia|vm_compute; split; congruence|].
    + cbn [phys_end phys_start]. rewrite V. change (V2P KERNLINK) with 0x100000. unfold PGSIZE. rewrite u32_small; lia.
    + intros v Hv. rewrite decide_False by lia. reflexivity.
  - split; rewrite ?P3, ?N3; [exact En| |lia|unfold UPAGES, NVPAGE; lia|cbn; rewrite V; lia|].
    + cbn [phys_end phys_start]. rewrite V. unfold PGSIZE, PHYSTOP. rewrite u32_small; lia.
    + intros v Hv. rewrite P2, N2, !decide_False by lia. reflexivity.
  - split; try reflexivity; [split; vm_compute; congruence|split; vm_compute; congruence|].
    change (ent_page (mk_kmap_ent DEVSPACE DEVSPACE 0 PTE_W)) with 0xfe000. change (ent_pages (mk_kmap_ent DEVSPACE DEVSPACE 0 PTE_W)) with 0x2000.
    intros v Hv. rewrite P3, N3, P2, N2, !decide_False by lia. reflexivity.
Qed.

(** ** setupkvm *)

(** A step that adds mappings neither loses nor invents a page. *)
Lemma vm_step_pages (d : Z) (s t : kernel) (l l' : list Z) : vm_step d s t l l' ->
  forall w, (w ∈ l' \/ in_table (k_mem t) d w) <-> (w ∈ l \/ in_table (k_mem s) d w).
Proof.
  intros [O [l0 F] T K N U A] w. split.
  - intros [H|[->|(x & Hx & Hh & ->)] ]; [left; rewrite F; apply elem_of_app; auto|right; left; reflexivity|].
    destruct (N x Hx Hh) as [Hs|Hs]; [|auto]. right; right. exists x. destruct (K x Hx Hs) as [_ ->]. auto.
  - intros [H|[->|(x & Hx & Hh & ->)] ].
    + destruct (U w H) as [H'|(x & Hx & Hh & ->)]; [auto|]. right; right. eauto.
    + right; left. reflexivity.
    + right; right. exists x. destruct (K x Hx Hh) as [H1 ->]. auto.
Qed.

(** All pages of the address space [d] are on the free list. *)
Record given_back (d : Z) (s t : kernel) (l l' : list Z) : Prop := {
  gb_free : free_pages t l';
  gb_only : mem_only s t;
  gb_pages : forall w, w ∈ l' <-> w ∈ l \/ in_table (k_mem s) d w;
  gb_agree : forall w, page w -> w ∉ l' -> agree (k_mem s) (k_mem t) w
}.

Lemma no_user_ok (s : kernel) (d : Z) (l : list Z) : vm_ok s d l -> (forall v, 0 <= v < UPAGES -> present (pte (k_mem s) d v) = false) -> space_ok s d l.
Proof. intros H Hn. split; [exact H|intros v [Hv Hp]|intros v w [Hv Hp] ]; rewrite Hn in Hp by exact Hv; discriminate. Qed.

Lemma freevm_empty (d : Z) (s t : kernel) (l l' : list Z) : vm_step d s t l l' -> (forall v, 0 <= v < UPAGES -> present (pte (k_mem t) d v) = false) ->
  kmem_lock ∉ k_held s -> exists u l'', freevm d t = Done tt u /\ given_back d s u l l''.
Proof.
  intros St Hn Hl. destruct (freevm_run d t l' (no_user_ok t d l' (vs_ok _ _ _ _ _ St) Hn)) as (u & l0 & E & Fu & Mo & Pg & Ag).
  { rewrite (vm_step_held _ _ _ _ _ St). exact Hl. }
  assert (Hw : forall w, w ∈ l0 ++ l' <-> w ∈ l \/ in_table (k_mem s) d w).
  { intros w. rewrite <- (vm_step_pages d s t l l' St w), elem_of_app, Pg. split; [intros [ [H|(v & [Hv Hp] & _)]|H]; auto|intros [H|H]; auto].
    rewrite Hn in Hp by exact Hv. discriminate. }
  exists u, (l0 ++ l'). split; [exact E|]. split; [exact Fu| |exact Hw|].
  - eapply mem_only_trans; [exact (vs_only _ _ _ _ _ St)|exact Mo].
  - intros w Hp Hnl. rewrite Hw in Hnl. eapply agree_trans.
    + apply (vs_agree _ _ _ _ _ St); [exact Hp|intros ->; apply Hnl; right; left; reflexivity|tauto|]. intros x Hx Hh ->. apply Hnl. right; right. eauto.
    + apply Ag; [exact Hp|]. intros H. apply Hnl, Hw, elem_of_app. auto.
Qed.

Lemma setupkvm_loop_run (d : Z) (s0 : kernel) (l0 : list Z) (ks : list kmap_ent) : kmem_lock ∉ k_held s0 -> forall f s l,
  vm_step d s0 s l0 l -> (forall v, 0 <= v < UPAGES -> f v = 0) -> (forall v, 0 <= v < NVPAGE -> pte (k_mem s) d v = f v) -> kmap_ok ks f ->
  d <> 0 -> exists r t l', setupkvm_loop ks d s = Done r t /\
    (r = d /\ vm_step d s0 t l0 l' /\ (forall v, 0 <= v < NVPAGE -> pte (k_mem t) d v = kmapped ks f v) \/
     r = 0 /\ given_back d s0 t l0 l').
Proof.
  intros Hl. induction ks as [|k ks IH]; intros f s l St Hu Hf Hk Hd.
  { exists d, s, l. split; [reflexivity|]. left. auto. }
  destruct Hk as [ [E1 E2 E3 [E4 E4'] E5 E6] Hk]. cbn [setupkvm_loop kmapped].
  destruct (mappages_run d (ent_page k) (ent_pages k) (phys_start k) (perm k) s l) as (r & t & l' & n & E & S1 & Mp & R); try assumption.
  { apply (vs_ok _ _ _ _ _ St). }
  { rewrite (vm_step_held _ _ _ _ _ St). exact Hl. }
  { unfold UPAGES in E4. lia. }
  { intros v Hv. rewrite Hf by (unfold UPAGES in E4; lia). apply E6, Hv. }
  rewrite E1, E2, (bind_Done _ _ _ _ _ E). pose proof (vm_step_trans _ _ _ _ _ _ _ St S1) as St'.
  destruct R as [ [-> ->]|(-> & Hn & ->)].
  - cbn [Z.ltb Z.compare]. apply (IH _ t l'); try assumption.
    + intros v Hv. rewrite decide_False by lia. apply Hu, Hv.
    + intros v Hv. rewrite Mp by exact Hv. destruct (decide _); [reflexivity|]. apply Hf, Hv.
  - cbn [Z.ltb Z.compare]. destruct (freevm_empty d s0 t l0 [] St') as (u & l'' & Ef & G).
    + intros v Hv. unfold UPAGES, NVPAGE in *. rewrite Mp, decide_False, Hf, Hu by (unfold NVPAGE, UPAGES; lia). reflexivity.
    + exact Hl.
    + exists 0, u, l''. rewrite (bind_Done _ _ _ _ _ Ef). split; [reflexivity|]. right. auto.
Qed.

(** A zeroed page is a page directory without tables. *)
Lemma zero_dir_ok (d : Z) (s : kernel) (l : list Z) : free_pages s (d :: l) ->
  let s1 := s <| k_freelist := rd32 (k_mem s) d |> <| k_mem := memset d 0 PGSIZE (k_mem s) |> in
  vm_ok s1 d l /\ (forall x, 0 <= x < 1024 -> has_table (k_mem s1) d x = false) /\ (forall v, 0 <= v < NVPAGE -> pte (k_mem s1) d v = 0).
Proof.
  intros ([Hh Hc] & Hn & Hp) s1. apply Forall_cons in Hp as [Hd Hp]. apply NoDup_cons in Hn as [Hnd Hn].
  assert (Ht : forall x, 0 <= x < 1024 -> has_table (k_mem s1) d x = false).
  { intros x Hx. unfold has_table, rd32. cbn [k_mem]. simpl. rewrite !rd_memset, !decide_True by (unfold PGSIZE; lia). reflexivity. }
  split_and!; [|exact Ht|].
  - split; [|split; assumption|intros x Hx H; rewrite Ht in H by exact Hx; discriminate|intros x y Hx Hy _ H; rewrite Ht in H by exact Hx; discriminate].
    split_and!; [|exact Hn|exact Hp]. eapply freechain_frame; [|exact Hc]. intros w b Hw Hb. rewrite Forall_forall in Hp.
    apply (agree_memset (k_mem s) w d 0 (Hp w Hw) Hd); [intros ->; done|unfold PGSIZE; lia].
  - intros v Hv. destruct (vpage_split v Hv) as [H1 _]. unfold pte. rewrite Ht by exact H1. reflexivity.
Qed.

(** What [setupkvm] returns: a new address space, or 0 and all the pages. *)
Record kernel_space (d : Z) (s t : kernel) (l l' : list Z) : Prop := {
  ks_ok : space_ok t d l';
  ks_only : mem_only s t;
  ks_pte : forall v, 0 <= v < NVPAGE -> pte (k_mem t) d v = kernel_pte v;
  ks_pages : forall w, w ∈ l <-> w ∈ l' \/ in_table (k_mem t) d w;
  ks_agree : forall w, page w -> w ∉ l -> agree (k_mem s) (k_mem t) w
}.

(** Nothing but the contents and the order of free pages has changed, up to the pages of [x]. *)
Record no_memory (s t : kernel) (l l' x : list Z) : Prop := {
  nm_free : free_pages t l';
  nm_only : mem_only s t;
  nm_pages : l' ++ x ≡ₚ l;
  nm_agree : forall w, page w -> w ∉ l -> agree (k_mem s) (k_mem t) w
}.

Lemma page_nonzero (v : Z) : page v -> v <> 0.
Proof. intros H. apply page_high in H. unfold KERNLINK, KERNBASE, EXTMEM, PHYSTOP in *. lia. Qed.

Lemma kernel_user (v : Z) : kdata < KERNBASE + PHYSTOP -> 0 <= v < UPAGES -> kernel_pte v = 0.
Proof. intros Hd Hv. unfold kernel_pte. apply (kmapped_user kmap v ltac:(lia) (fun _ => 0)), kernel_map_ok, Hd. Qed.

Lemma setupkvm_run (s : kernel) (l : list Z) : free_pages s l -> kmem_lock ∉ k_held s ->
  exists r t l', setupkvm s = Done r t /\ (r <> 0 /\ kernel_space r s t l l' \/ r = 0 /\ no_memory s t l l' []).
Proof.
  intros Hf Hl. pose proof (kalloc_free_pages s l Hf Hl) as Hk. unfold setupkvm. destruct l as [|d l].
  { exists 0, s, []. rewrite (bind_Done _ _ _ _ _ Hk). split; [reflexivity|]. right. split; [reflexivity|]. split; [exact Hf|reflexivity|reflexivity|auto using agree_refl]. }
  destruct Hk as (Hp & Hn & Ek & _). rewrite (bind_Done _ _ _ _ _ Ek). rewrite (proj2 (Z.eqb_neq d 0)) by apply page_nonzero, Hp.
  unfold mem_set. kstep. change (P2V PHYSTOP >? DEVSPACE) with false. cbv iota.
  set (s1 := upd k_mem _ _). change s1 with (s <| k_freelist := rd32 (k_mem s) d |> <| k_mem := memset d 0 PGSIZE (k_mem s) |>) in *.
  destruct (zero_dir_ok d s l Hf) as (Ok & Ht & Hpt). fold s1 in Ok, Ht, Hpt |- *.
  assert (Hkd : kdata < KERNBASE + PHYSTOP) by (destruct Hp as [_ Hp]; pose proof kdata_range; lia).
  assert (Hin : forall w, in_table (k_mem s1) d w <-> w = d).
  { intros w. split; [intros [->|(x & Hx & Hh & _)]; [reflexivity|rewrite Ht in Hh by exact Hx; discriminate]|intros ->; left; reflexivity]. }
  assert (A1 : forall w, page w -> w ∉ d :: l -> agree (k_mem s) (k_mem s1) w).
  { intros w Hw Hnl. apply agree_memset; [exact Hw|exact Hp|]. intros ->. apply Hnl, elem_of_cons. auto. }
  destruct (setupkvm_loop_run d s1 l kmap Hl (fun _ => 0) s1 l (vm_step_refl d s1 l Ok)) as (r & t & l' & E & R);
    [reflexivity|exact Hpt|apply kernel_map_ok, Hkd|apply page_nonzero, Hp|].
  exists r, t, l'. split; [exact E|]. destruct R as [(-> & St & Hv)|(-> & [G1 G2 G3 G4])]; [left|right]; (split; [apply page_nonzero, Hp || reflexivity|]).
  - split.
    + apply no_user_ok; [apply (vs_ok _ _ _ _ _ St)|]. intros v Hr. rewrite Hv by (unfold UPAGES, NVPAGE in *; lia). fold kernel_pte. rewrite kernel_user by assumption. reflexivity.
    + eapply mem_only_trans; [|exact (vs_only _ _ _ _ _ St)]. reflexivity.
    + exact Hv.
    + intros w. rewrite (vm_step_pages _ _ _ _ _ St w), Hin, elem_of_cons. tauto.
    + intros w Hw Hnl. eapply agree_trans; [apply A1; assumption|]. rewrite not_elem_of_cons in Hnl. destruct Hnl as [N1 N2].
      apply (vs_agree _ _ _ _ _ St); try assumption. intros x Hx Hh. rewrite Ht in Hh by exact Hx. discriminate.
  - split; [exact G1|eapply mem_only_trans; [|exact G2]; reflexivity| |].
    + rewrite app_nil_r. apply NoDup_Permutation; [apply G1|apply Hf|]. intros w. rewrite G3, Hin, elem_of_cons. tauto.
    + intros w Hw Hnl. eapply agree_trans; [apply A1; assumption|]. apply G4; [exact Hw|]. rewrite G3, Hin. intros H. apply Hnl, elem_of_cons. tauto.
Qed.

(** ** The copy *)

(** The entry of a copied page: another page, the same flags. *)
Lemma copy_entry (f e : Z) : page f -> present e = true -> let e' := u32 (Z.lor (Z.lor (V2P f) (PTE_FLAGS e)) PTE_P) in
  present e' = true /\ P2V (PTE_ADDR e') = f /\ PTE_FLAGS e' = PTE_FLAGS e.
Proof.
  intros Hf He e'. destruct (page_V2P f Hf) as [Ha Hr]. unfold PHYSTOP in Hr.
  assert (Ef : PTE_FLAGS e = u32 e mod 4096) by (unfold PTE_FLAGS; exact (Z.land_ones (u32 e) 12 ltac:(lia))).
  assert (Hb : 0 <= PTE_FLAGS e < PGSIZE) by (rewrite Ef; unfold PGSIZE; apply Z.mod_pos_bound; lia).
  assert (H0 : Z.testbit (PTE_FLAGS e) 0 = true).
  { rewrite Ef. change 4096 with (2 ^ 12). rewrite Z.mod_pow2_bits_low, pow2_testbit_u32, <- present_testbit by lia. exact He. }
  assert (El : Z.lor (PTE_FLAGS e) PTE_P = PTE_FLAGS e).
  { apply Z.bits_inj'. intros n Hn. rewrite Z.lor_spec. destruct (decide (n = 0)) as [->|Hn0]; [rewrite H0; reflexivity|].
    change PTE_P with (2 ^ 0). rewrite Z.pow2_bits_false by lia. apply orb_false_r. }
  assert (E : e' = V2P f + PTE_FLAGS e).
  { unfold e'. rewrite <- Z.lor_assoc, El, lor_flags by assumption. apply u32_small. unfold PGSIZE in Hb. lia. }
  split_and!.
  - rewrite present_testbit, E, <- lor_flags, Z.lor_spec, H0 by assumption. apply orb_true_r.
  - rewrite E, <- lor_flags by assumption. apply frame_of_entry; assumption.
  - assert (Ee : PTE_FLAGS e' = u32 e' mod 4096) by (unfold PTE_FLAGS; exact (Z.land_ones (u32 e') 12 ltac:(lia))).
    rewrite Ee, E, u32_small by (unfold PGSIZE in Hb; lia). unfold PGSIZE in Ha, Hb. rewrite Z.add_mod, Ha, Z.add_0_l, Z.mod_mod, Z.mod_small by lia. reflexivity.
Qed.

Section Copy.
Context (s0 : kernel) (pgdir : Z) (l0 : list Z).
Hypothesis Hok0 : space_ok s0 pgdir l0.

Let m0 : gmap Z Z := k_mem s0.

(** The parent's pages are not free, so they stay as they are. *)
Lemma parent_same (m : gmap Z Z) : (forall w, page w -> w ∉ l0 -> agree m0 m w) ->
  (forall x, 0 <= x < 1024 -> has_table m pgdir x = has_table m0 pgdir x /\ table m pgdir x = table m0 pgdir x) /\
  (forall v, 0 <= v < NVPAGE -> pte m pgdir v = pte m0 pgdir v).
Proof.
  intros H. destruct Hok0 as [ [_ [Hp Hn] Ht _] _ _]. assert (Hd : agree m0 m pgdir) by (apply H; assumption).
  split; [intros x; apply agree_table, Hd|]. intros v. apply agree_pte; [exact Hd|]. intros x Hx Hh. destruct (Ht x Hx Hh) as (H1 & _ & H2). apply H; assumption.
Qed.

(** The first [k] pages are copied; the pages of [x] are taken and not used. *)
Record copied (d k : Z) (s : kernel) (l x : list Z) : Prop := {
  cp_ok : space_ok s d l;
  cp_only : mem_only s0 s;
  cp_pages : forall w, w ∈ l0 <-> w ∈ l \/ in_table (k_mem s) d w \/ (exists v, 0 <= v < k /\ w = frame_at (k_mem s) d v) \/ w ∈ x;
  cp_user : forall v, 0 <= v < k -> umapped (k_mem s) d v /\ PTE_FLAGS (pte (k_mem s) d v) = PTE_FLAGS (pte m0 pgdir v) /\
    forall c, 0 <= c < PGSIZE -> rd (k_mem s) (frame_at (k_mem s) d v + c) = rd m0 (frame_at m0 pgdir v + c);
  cp_rest : forall v, k <= v < NVPAGE -> pte (k_mem s) d v = kernel_pte v;
  cp_agree : forall w, page w -> w ∉ l0 -> agree m0 (k_mem s) w;
  cp_apart : NoDup x /\ forall w, w ∈ x -> (w ∉ l) /\ ~ in_table (k_mem s) d w /\ forall v, 0 <= v < k -> w <> frame_at (k_mem s) d v
}.

Lemma copied_mapped (d k : Z) (s : kernel) (l x : list Z) (v : Z) : kdata < KERNBASE + PHYSTOP -> 0 <= k ->
  copied d k s l x -> umapped (k_mem s) d v <-> 0 <= v < k.
Proof.
  intros Hd Hk C. split.
  - intros [Hv Hp]. destruct (decide (v < k)); [lia|]. rewrite (cp_rest _ _ _ _ _ C), kernel_user in Hp by (unfold UPAGES, NVPAGE in *; lia). discriminate.
  - intros Hv. apply (cp_user _ _ _ _ _ C), Hv.
Qed.

(** Giving up: everything but [x] goes back. *)
Lemma copied_free (d k : Z) (s : kernel) (l x : list Z) : kdata < KERNBASE + PHYSTOP -> 0 <= k -> kmem_lock ∉ k_held s0 ->
  copied d k s l x -> NoDup l0 -> exists u l', freevm d s = Done tt u /\ no_memory s0 u l0 l' x.
Proof.
  intros Hd Hk Hl C Hn. pose proof C as [O T P U R A [X1 X2] ].
  destruct (freevm_run d s l O) as (u & l1 & E & Fu & Mo & Pg & Ag); [rewrite (mem_only_held _ _ T); exact Hl|].
  assert (Hw : forall w, w ∈ l1 ++ l <-> w ∈ l \/ in_table (k_mem s) d w \/ exists v, 0 <= v < k /\ w = frame_at (k_mem s) d v).
  { intros w. rewrite elem_of_app, Pg. setoid_rewrite (copied_mapped d k s l x _ Hd Hk C). tauto. }
  exists u, (l1 ++ l). split; [exact E|]. split; [exact Fu|eapply mem_only_trans; eassumption| |].
  - apply NoDup_Permutation; [|exact Hn|intros w; rewrite elem_of_app, Hw, P; tauto].
    apply NoDup_app. split_and!; [apply Fu| |exact X1]. intros w H1 H2. apply Hw in H1. destruct (X2 w H2) as (Y1 & Y2 & Y3).
    destruct H1 as [H1|[H1|(v & Hv & ->)] ]; [tauto|tauto|]. exact (Y3 v Hv eq_refl).
  - intros w Hw' Hnl. eapply agree_trans; [apply A; assumption|]. apply Ag; [exact Hw'|]. intros H. apply Hnl, P. assert (w ∈ l1 ++ l) as H' by (apply elem_of_app; auto). apply Hw in H'. tauto.
Qed.

(** Taking a page and filling it. *)
Lemma copied_take (d k f : Z) (s : kernel) (l : list Z) (m : gmap Z Z) : 0 <= k <= UPAGES ->
  copied d k s (f :: l) [] -> (forall w, page w -> w <> f -> agree (k_mem s) m w) -> copied d k (take_page s f m) l [f].
Proof.
  intros Hk [O T P U R A _] Hm. destruct (take_page_fresh s d f l O) as (Hp & Hn & Ht & Hu).
  pose proof (take_page_pte s d f l m O Hm) as P1. pose proof (take_page_umapped s d f l m O Hm) as U1.
  pose proof (take_page_frame s d f l m O Hm) as F1. pose proof (take_page_in_table s d f l m O Hm) as T1.
  assert (Hr : forall v, 0 <= v < k -> 0 <= v < NVPAGE) by (intros v Hv; unfold UPAGES, NVPAGE in *; lia).
  assert (Hfr : forall w, (exists v, 0 <= v < k /\ w = frame_at m d v) <-> exists v, 0 <= v < k /\ w = frame_at (k_mem s) d v).
  { intros w. split; intros (v & Hv & ->); exists v; (split; [exact Hv|]); rewrite F1 by apply Hr, Hv; reflexivity. }
  split; cbn [take_page k_mem].
  - apply take_page_ok; assumption.
  - eapply mem_only_trans; [exact T|]. reflexivity.
  - intros w. simpl. rewrite P, T1, Hfr, !elem_of_cons. set_solver.
  - intros v Hv. simpl. rewrite U1, P1, F1 by apply Hr, Hv. destruct (U v Hv) as (V1 & V2 & V3). split_and!; [exact V1|exact V2|].
    intros c Hc. rewrite (Hm (frame_at (k_mem s) d v)); [apply V3, Hc|apply (so_page _ _ _ O v V1)|apply Hu, V1|lia].
  - intros v Hv. simpl. rewrite P1 by lia. apply R, Hv.
  - intros w Hw Hnl. simpl. eapply agree_trans; [apply A; assumption|]. apply Hm; [exact Hw|]. intros ->. apply Hnl, P. set_solver.
  - split; [apply NoDup_singleton|]. intros w Hw. apply list_elem_of_singleton in Hw as ->. simpl. rewrite T1. split_and!; [exact Hn|exact Ht|].
    intros v Hv. rewrite F1 by apply Hr, Hv. apply not_eq_sym, Hu, U, Hv.
Qed.

(** Mapping the filled page. *)
Lemma copied_map (d k f : Z) (s : kernel) (l : list Z) : kdata < KERNBASE + PHYSTOP -> 0 <= k < UPAGES -> kmem_lock ∉ k_held s0 -> page f ->
  copied d k s l [f] -> present (pte m0 pgdir k) = true ->
  (forall c, 0 <= c < PGSIZE -> rd (k_mem s) (f + c) = rd m0 (frame_at m0 pgdir k + c)) ->
  (mappages d (k * PGSIZE) PGSIZE (V2P f) (PTE_FLAGS (pte m0 pgdir k)) s = Done (-1) s /\ l = []) \/
  exists t l', mappages d (k * PGSIZE) PGSIZE (V2P f) (PTE_FLAGS (pte m0 pgdir k)) s = Done 0 t /\ copied d (k + 1) t l' [].
Proof.
  intros Hkd Hk Hl Hp C He Hc. pose proof C as [O T P U R A [_ X] ]. destruct (X f ltac:(set_solver)) as (Y1 & Y2 & Y3).
  assert (Hkr : 0 <= k < NVPAGE) by (unfold UPAGES, NVPAGE in *; lia).
  assert (Hno : ~ umapped (k_mem s) d k) by (rewrite (copied_mapped d k s l [f] k Hkd ltac:(lia) C); lia).
  destruct (copy_entry f (pte m0 pgdir k) Hp He) as (E1 & E2 & E3).
  destruct (mappages_page d k (V2P f) (PTE_FLAGS (pte m0 pgdir k)) s l) as [H|(t & l' & E & St & Pt)];
    [apply O|rewrite (mem_only_held _ _ T); exact Hl|exact Hkr|rewrite R, kernel_user by (assumption || lia); reflexivity|left; exact H|].
  right. exists t, l'. split; [exact E|]. set (e := u32 _) in *.
  destruct (map_taken_ok s t d k f e l l') as (Hok2 & B2 & K2 & Ef & Em); try assumption.
  { intros w Hw. apply not_eq_sym, Y3, (copied_mapped d k s l [f] w Hkd ltac:(lia) C), Hw. }
  assert (Old : forall v, 0 <= v < k -> pte (k_mem t) d v = pte (k_mem s) d v /\ frame_at (k_mem t) d v = frame_at (k_mem s) d v).
  { intros v Hv. unfold frame_at. rewrite Pt, decide_False by (unfold NVPAGE in *; lia). auto. }
  assert (Keep : forall w, page w -> (w ∉ l) -> ~ in_table (k_mem s) d w -> agree (k_mem s) (k_mem t) w).
  { intros w Hw Hnl Hnt. apply (vs_agree _ _ _ _ _ St); [exact Hw|intros ->; apply Hnt; left; reflexivity|exact Hnl|]. intros x Hx Hh ->. apply Hnt. right. eauto. }
  split; [exact Hok2|eapply mem_only_trans; [exact T|exact (vs_only _ _ _ _ _ St)]| | | | |split; [constructor|set_solver] ].
  - intros w. pose proof (vm_step_pages d s t l l' St w) as Hs. rewrite P. split.
    + intros [H|[H|[(v & Hv & ->)|H] ] ]; [tauto|tauto| |].
      * right; right; left. exists v. rewrite (proj2 (Old v Hv)). split; [lia|reflexivity].
      * apply list_elem_of_singleton in H as ->. right; right; left. exists k. rewrite Ef. split; [lia|reflexivity].
    + intros [H|[H|[(v & Hv & ->)|H] ] ]; [tauto|tauto| |set_solver]. destruct (decide (v = k)) as [->|Hne]; [rewrite Ef; set_solver|].
      right; right; left. exists v. rewrite (proj2 (Old v ltac:(lia))). split; [lia|reflexivity].
  - intros v Hv. destruct (decide (v = k)) as [->|Hne].
    + rewrite Ef. split_and!; [exact Em|rewrite Pt, decide_True by (exact Hkr || reflexivity); exact E3|].
      intros c Hr. rewrite (Keep f Hp Y1 Y2) by lia. apply Hc, Hr.
    + destruct (Old v ltac:(lia)) as [Op Of]. destruct (U v ltac:(lia)) as (V1 & V2 & V3). rewrite Op, Of. split_and!; [split; [apply V1|rewrite Op; apply V1]|exact V2|].
      destruct (so_page _ _ _ O v V1) as (W1 & W2 & W3). intros c Hr. rewrite (Keep _ W1 W2 W3) by lia. apply V3, Hr.
  - intros v Hv. rewrite Pt, decide_False by lia. apply R. lia.
  - intros w Hw Hnl. eapply agree_trans; [apply A; assumption|]. rewrite P in Hnl. apply Keep; [exact Hw|tauto|tauto].
Qed.

(** The panics of [copyuvm] at a page that is not there. *)
Definition hole_panic {A : Type} (o : outcome kernel A) : Prop :=
  o = Halt (Panic "copyuvm: pte should exist") \/ o = Halt (Panic "copyuvm: page not present").

(** The loop: the whole copy, or no memory and at most one page lost, or a
    panic at a page of the parent that is not there. *)
Lemma copyuvm_loop_run (d sz : Z) : d <> 0 -> kdata < KERNBASE + PHYSTOP -> kmem_lock ∉ k_held s0 -> NoDup l0 -> 0 <= sz <= KERNBASE ->
  forall n k s l, 0 <= k <= npages sz -> npages sz - k < Z.of_nat n -> copied d k s l [] ->
  (exists r t l' x, copyuvm_loop n pgdir d (k * PGSIZE) sz s = Done r t /\
    (r = d /\ copied d (npages sz) t l' [] \/ r = 0 /\ no_memory s0 t l0 l' x /\ (length x <= 1)%nat)) \/
  (exists v, 0 <= v < npages sz /\ present (pte m0 pgdir v) = false /\ hole_panic (copyuvm_loop n pgdir d (k * PGSIZE) sz s)).
Proof.
  intros Hd Hkd Hl Hn Hsz. pose proof (npages_user sz Hsz) as Hup. induction n as [|n IH]; intros k s l Hk Hf C; [lia|]. cbn [copyuvm_loop].
  destruct (Z.ltb_spec (k * PGSIZE) sz) as [Hlt|Hge]; cbn [negb].
  2: { assert (k = npages sz) as -> by (pose proof (npages_lt sz k); lia). left. exists d, s, l, []. split; [reflexivity|]. left. auto. }
  apply npages_lt in Hlt. pose proof C as [O T P U R A _]. destruct (parent_same (k_mem s) A) as [Tb Pt].
  assert (Hkr : 0 <= k < NVPAGE) by (unfold UPAGES, NVPAGE in *; lia). assert (Hdiv : k * PGSIZE / PGSIZE = k) by (apply Z.div_mul; discriminate).
  destruct (vpage_split k Hkr) as [Hk1 _]. assert (Hva : 0 <= k * PGSIZE < 2 ^ 32) by (unfold PGSIZE, UPAGES in *; lia).
  destruct (has_table m0 pgdir (k / 1024)) eqn:Hh.
  2: { right. exists k. split; [lia|]. split; [unfold pte; rewrite Hh; reflexivity|left].
       rewrite (bind_Done _ _ _ _ _ (walk_miss s pgdir (k * PGSIZE) Hva ltac:(rewrite Hdiv, (proj1 (Tb _ Hk1)); exact Hh))). reflexivity. }
  assert (Hh' : has_table (k_mem s) pgdir (k / 1024) = true) by (rewrite (proj1 (Tb _ Hk1)); exact Hh).
  assert (Ew : walkpgdir pgdir (k * PGSIZE) false s = Done (slot (k_mem s) pgdir k) s).
  { rewrite walk_hit; rewrite ?Hdiv; [reflexivity|exact Hva|exact Hh']. }
  assert (Es : slot (k_mem s) pgdir k = slot m0 pgdir k) by (unfold slot; rewrite (proj2 (Tb _ Hk1)); reflexivity).
  assert (En : (slot m0 pgdir k =? 0) = false) by exact (slot_nonzero s0 pgdir k l0 (so_vm _ _ _ Hok0) Hkr Hh).
  rewrite (bind_Done _ _ _ _ _ Ew), Es, En. unfold ld32.
  rewrite (bind_Done (gets (fun s => rd32 (k_mem s) (slot m0 pgdir k))) _ s s (pte m0 pgdir k)) by (rewrite <- Pt, pte_slot, Es by assumption; reflexivity).
  destruct (present (pte m0 pgdir k)) eqn:He; cbn [negb]; cbv zeta.
  2: { right. exists k. split; [lia|]. split; [exact He|right; reflexivity]. }
  assert (Hu0 : umapped m0 pgdir k) by (split; [lia|exact He]).
  assert (Hls : kmem_lock ∉ k_held s) by (rewrite (mem_only_held _ _ T); exact Hl).
  pose proof (kalloc_free_pages s l (vo_free _ _ _ (so_vm _ _ _ O)) Hls) as Hka. destruct l as [|f l].
  { rewrite (bind_Done _ _ _ _ _ Hka). destruct (copied_free d k s [] [] Hkd ltac:(lia) Hl C Hn) as (u & l' & Ef & G). cbn [Z.eqb].
    rewrite (bind_Done _ _ _ _ _ Ef). left. exists 0, u, l', []. split; [reflexivity|]. right. split_and!; [reflexivity|exact G|cbn; lia]. }
  destruct Hka as (Hp & _ & Ek & _). rewrite (bind_Done _ _ _ _ _ Ek), (proj2 (Z.eqb_neq f 0)) by apply page_nonzero, Hp.
  unfold mem_move. kstep. fold (frame_at m0 pgdir k). set (m := memmove f (frame_at m0 pgdir k) PGSIZE (k_mem s)).
  change (upd k_mem _ _) with (take_page s f m).
  assert (C1 : copied d k (take_page s f m) l [f]) by (apply copied_take; [lia|exact C|intros w Hw Hne; apply agree_memmove; assumption]).
  destruct (so_page _ _ _ Hok0 k Hu0) as (W1 & W2 & _).
  destruct (copied_map d k f (take_page s f m) l) as [ [E ->]|(t1 & l1 & E & C2)]; try assumption; try lia.
  { intros c Hc. change (k_mem (take_page s f m)) with m. unfold m. rewrite rd_memmove, decide_True by (unfold PGSIZE in *; lia).
    replace (frame_at m0 pgdir k + (f + c - f)) with (frame_at m0 pgdir k + c) by lia. apply (A (frame_at m0 pgdir k) W1 W2). lia. }
  - rewrite (bind_Done _ _ _ _ _ E). cbn [Z.ltb Z.compare]. destruct (copied_free d k _ [] [f] Hkd ltac:(lia) Hl C1 Hn) as (u & l' & Ef & G).
    rewrite (bind_Done _ _ _ _ _ Ef). left. exists 0, u, l', [f]. split; [reflexivity|]. right. split_and!; [reflexivity|exact G|cbn; lia].
  - rewrite (bind_Done _ _ _ _ _ E). cbn [Z.ltb Z.compare].
    replace (u32 (k * PGSIZE + PGSIZE)) with ((k + 1) * PGSIZE) by (rewrite u32_small; unfold PGSIZE, UPAGES in *; lia).
    apply (IH (k + 1) t1 l1); [lia|lia|exact C2].
Qed.

Lemma copied_start (d : Z) (s : kernel) (l : list Z) : kernel_space d s0 s l0 l -> copied d 0 s l [].
Proof.
  intros [K1 K2 K3 K4 K5]. split; try assumption.
  - intros w. rewrite K4. split; [tauto|]. intros [H|[H|[(v & Hv & _)|H] ] ]; [tauto|tauto|lia|set_solver].
  - intros v Hv. lia.
  - split; [constructor|set_solver].
Qed.

(** The parent's address space is what it was, with fewer free pages. *)
Lemma parent_ok (t : kernel) (l : list Z) : (forall w, page w -> w ∉ l0 -> agree m0 (k_mem t) w) -> free_pages t l -> (forall w, w ∈ l -> w ∈ l0) ->
  space_ok t pgdir l.
Proof.
  intros A Hf Hin. destruct (parent_same _ A) as [Tb Pt]. pose proof Hok0 as [ [_ [Hp Hn] Ht Hi] Hu Hj].
  assert (U : forall v, umapped (k_mem t) pgdir v -> umapped m0 pgdir v) by (intros v [Hv H]; split; [exact Hv|rewrite <- Pt; [exact H|unfold UPAGES, NVPAGE in *; lia] ]).
  assert (Fr : forall v, umapped m0 pgdir v -> frame_at (k_mem t) pgdir v = frame_at m0 pgdir v) by (intros v H; unfold frame_at; rewrite Pt by apply (umapped_vpage _ _ _ H); reflexivity).
  split; [split; [exact Hf|split; auto| |]| |].
  - intros x Hx. rewrite (proj1 (Tb x Hx)), (proj2 (Tb x Hx)). intros Hh. destruct (Ht x Hx Hh) as (H1 & H2 & H3). split_and!; auto.
  - intros x y Hx Hy Hne. rewrite (proj1 (Tb x Hx)), (proj2 (Tb x Hx)), (proj1 (Tb y Hy)), (proj2 (Tb y Hy)). apply Hi; assumption.
  - intros v Hv. apply U in Hv. rewrite (Fr v Hv). destruct (Hu v Hv) as (H1 & H2 & H3). split_and!; auto. intros H. apply H3.
    destruct H as [H|(x & Hx & Hh & H)]; [left; exact H|]. right. exists x. destruct (Tb x Hx) as [G1 G2]. rewrite G1 in Hh. rewrite G2 in H. auto.
  - intros v w Hv Hw. apply U in Hv, Hw. rewrite (Fr v Hv), (Fr w Hw). apply Hj; assumption.
Qed.
End Copy.

(** [copyuvm], by which [fork] copies the memory of the parent: it ends, and nothing but pages that were free has changed, or it panics because a page of the parent below [sz] is not there.  When it ends, either it returns a new page directory that maps exactly the pages below [sz] for the user and exactly the kernel's ranges above; the child reads at each address the byte the parent reads there, with the same flags, from pages of its own: the free pages of before are the free pages of after, the child's page tables and the child's pages.  Or it returns 0 because memory ran out, and all the pages are free again, but for at most one (the page it could not map is never given back). *)
Theorem copyuvm_copies (pgdir sz : Z) (s : kernel) (l : list Z) (Hok : space_ok s pgdir l) (Hl : kmem_lock ∉ k_held s) (Hsz : 0 <= sz <= KERNBASE) :
  (exists r t l', copyuvm pgdir sz s = Done r t /\ mem_only s t /\ (forall w, page w -> w ∉ l -> agree (k_mem s) (k_mem t) w) /\
    (r <> 0 /\ space_ok t r l' /\ space_ok t pgdir l' /\
     (forall v, umapped (k_mem t) r v <-> 0 <= v < npages sz) /\
     (forall v, UPAGES <= v < NVPAGE -> pte (k_mem t) r v = kernel_pte v) /\
     (forall x, 0 <= x < npages sz * PGSIZE -> uread (k_mem t) r x = uread (k_mem s) pgdir x /\
        PTE_FLAGS (pte (k_mem t) r (x / PGSIZE)) = PTE_FLAGS (pte (k_mem s) pgdir (x / PGSIZE))) /\
     (forall w, w ∈ l <-> w ∈ l' \/ in_table (k_mem t) r w \/ exists v, umapped (k_mem t) r v /\ w = frame_at (k_mem t) r v)
     \/ r = 0 /\ free_pages t l' /\ exists x, l' ++ x ≡ₚ l /\ (length x <= 1)%nat)) \/
  (exists v, 0 <= v < npages sz /\ present (pte (k_mem s) pgdir v) = false /\ hole_panic (copyuvm pgdir sz s)).
Proof.
  assert (Hkd : kdata < KERNBASE + PHYSTOP) by (destruct (vo_dir _ _ _ (so_vm _ _ _ Hok)) as [ [_ H] _]; pose proof kdata_range; lia).
  pose proof (vo_free _ _ _ (so_vm _ _ _ Hok)) as Hf. pose proof (npages_user sz Hsz) as Hup. unfold copyuvm.
  destruct (setupkvm_run s l Hf Hl) as (d & s1 & l1 & E1 & [ [Hd K]|[-> K] ]); rewrite (bind_Done _ _ _ _ _ E1).
  2: { left. exists 0, s1, l1. destruct K as [K1 K2 K3 K4]. split_and!; [reflexivity|exact K2|exact K4|]. right. split_and!; [reflexivity|exact K1|]. exists []. split; [exact K3|cbn; lia]. }
  rewrite (proj2 (Z.eqb_neq d 0)) by exact Hd. assert (Hn : NoDup l) by apply Hf.
  destruct (copyuvm_loop_run s pgdir l Hok d sz Hd Hkd Hl Hn Hsz (S (Z.to_nat (sz / PGSIZE + 1))) 0 s1 l1) as [(r & t & l' & x & E & R)|Hp];
    [lia|unfold npages, PGSIZE in *; Z.div_mod_to_equations; lia|exact (copied_start s pgdir l Hok d s1 l1 K)| |right; exact Hp].
  left. exists r, t, l'. split; [exact E|]. destruct R as [ [-> C]|(-> & [G1 G2 G3 G4] & Hx)]; [|split_and!; eauto 10].
  pose proof (copied_mapped s pgdir l d (npages sz) t l' [] ) as Hm. pose proof C as [O T P U Rs A _]. split_and!; [exact T|exact A|]. left.
  split_and!; [exact Hd|exact O| | | | |].
  - apply (parent_ok s pgdir l Hok t l' A); [apply (vo_free _ _ _ (so_vm _ _ _ O))|]. intros w Hw. apply P. auto.
  - intros v. apply Hm; [exact Hkd|lia|exact C].
  - intros v Hv. apply Rs. lia.
  - intros y Hy. assert (Hv : 0 <= y / PGSIZE < npages sz) by (unfold PGSIZE in *; Z.div_mod_to_equations; lia). destruct (U _ Hv) as (_ & V2 & V3). split; [|exact V2].
    unfold uread. apply V3, Z.mod_pos_bound. reflexivity.
  - intros w. rewrite P. setoid_rewrite (Hm _ Hkd ltac:(lia) C). set_solver.
Qed.
End VmCopy.

Lemma copyuvm_copies_witness : let L := ex_linker in
  exists r t, copyuvm ex_dir 4000 ex_vm = Done r t /\ (r <> 0 -> uread (k_mem t) r 17 = uread ex_mem ex_dir 17) /\
    (forall w, page w -> w ∉ [ex_free1; ex_free2] -> agree ex_mem (k_mem t) w).
Proof.
  intros L. destruct (copyuvm_copies (L := ex_linker) ex_dir 4000 ex_vm [ex_free1; ex_free2]) as [(r & t & l' & E & _ & A & R)|(v & Hv & Hp & _)].
  - apply ex_space_ok.
  - apply not_elem_of_nil.
  - split; discriminate.
  - exists r, t. split_and!; [exact E| |exact A]. intros Hr. destruct R as [(_ & _ & _ & _ & _ & H & _)|[H _] ]; [|exact (False_ind _ (Hr H))].
    refine (proj1 (H 17 _)). split; [discriminate|reflexivity].
  - change (npages 4000) with 1 in Hv. replace v with 0 in Hp by lia. discriminate Hp.
Defined.
