(* ===== verification/ForkSpec.v ===== *)
(** * fork: the child is a copy of the parent

    [fork] puts together the process table, the page allocator, the copy of
    the address space, the table of open files and the inode cache. *)

From S2P Require Import Prelude Params Bytes CString Kernel Print Kalloc Vm Umem Sleep Ide Bio Log Fs Pipe File Proc VmSpec UserSpace AddressSpace VmCopy.

(** ** One slot of the process table *)

Lemma upd_slot (i : nat) (f : proc -> proc) (x : proc) (P : list proc) (s : kernel) : (i < length P)%nat -> k_procs s = <[i := x]> P ->
  upd_proc i f s = Done tt (s <| k_procs := <[i := f x]> P |>).
Proof.
  intros Hi E. refine (f_equal (fun Q => Done tt (s <| k_procs := Q |>)) _). rewrite E. apply list_eq. intros j. destruct (decide (i = j)) as [<-|Hj].
  - rewrite list_lookup_alter_eq, !list_lookup_insert_eq by (rewrite ?length_insert; exact Hi). reflexivity.
  - rewrite list_lookup_alter_ne, !list_lookup_insert_ne by exact Hj. reflexivity.
Qed.

Lemma slot_same (i : nat) (x : proc) (P : list proc) : P !! i = Some x -> P = <[i := x]> P.
Proof. intros H. symmetry. apply list_insert_id, H. Qed.

Ltac slot_step P := erewrite (bind_Done (upd_proc _ _)) by (eapply (upd_slot _ _ _ P); [assumption|reflexivity]).

Section Fork.
Context {L : Linker}.

(** The slot [allocproc] returns, with a kernel stack at [ks]. *)
Definition embryo (n ks : Z) (q : proc) : proc :=
  q <| state := EMBRYO |> <| pid := n |> <| kstack := ks |> <| cx := context0 <| cx_eip := kforkret |> |>.

Definition next_pid (s : kernel) : Z := wrap_pid (k_nextpid s).

(** The table has a free slot [i]. *)
Definition unused_slot (s : kernel) (i : nat) (q : proc) : Prop :=
  k_procs s !! i = Some q /\ state q = UNUSED /\ find_idx (fun p => bool_decide (state p = UNUSED)) (k_procs s) = Some i.

Lemma find_slot (s : kernel) : find_idx (fun p => bool_decide (state p = UNUSED)) (k_procs s) = None \/ exists i q, unused_slot s i q.
Proof.
  destruct (find_idx _ (k_procs s)) as [i|] eqn:E; [right|left; reflexivity]. pose proof E as E'. apply find_idx_Some in E' as [(q & Hq & Hu) _].
  exists i, q. split; [exact Hq|]. split; [exact (bool_decide_eq_true_1 _ Hu)|exact E].
Qed.

Lemma allocproc_run (s : kernel) (i : nat) (q : proc) (l : list Z) : k_held s = [] -> free_pages s l -> unused_slot s i q ->
  let s1 := s <| k_nextpid := s32 (next_pid s + 1) |> in
  match l with
  | [] => allocproc s = Done None (s1 <| k_procs := <[i := q <| pid := next_pid s |> <| kstack := 0 |>]> (k_procs s) |>)
  | v :: l' => allocproc s = Done (Some i) (s1 <| k_procs := <[i := embryo (next_pid s) v q]> (k_procs s) |> <| k_freelist := rd32 (k_mem s) v |>)
  end.
Proof.
  intros Hh Hf (Hq & Hu & Hi) s1. pose proof (lookup_lt_Some _ _ _ Hq) as Hlt. unfold allocproc.
  erewrite bind_Done by (apply acquire_free; rewrite Hh; set_solver). rewrite (bind_Done get _ _ _ _ eq_refl). cbv beta.
  match goal with |- context [find_idx ?f ?l] => change (find_idx f l) with (find_idx f (k_procs s)) end. rewrite Hi.
  erewrite (bind_Done (upd_proc _ _)) by (apply (upd_slot i _ q (k_procs s)); [exact Hlt|exact (slot_same _ _ _ Hq)]).
  erewrite (bind_Done (modify _)) by reflexivity. rewrite (bind_Done get _ _ _ _ eq_refl). cbv beta.
  slot_step (k_procs s).
  erewrite (bind_Done (modify _)) by reflexivity.
  erewrite (bind_Done (release _)) by (apply (release_head ptable_lock []); [cbn; rewrite Hh; reflexivity|set_solver]).
  match goal with |- context [(kalloc ≫= _) ?st] => set (s2 := st) end.
  assert (F2 : free_pages s2 l) by exact Hf. assert (L2 : kmem_lock ∉ k_held s2) by (cbn; set_solver).
  pose proof (kalloc_free_pages s2 l F2 L2) as A. destruct l as [|v l'].
  - rewrite (bind_Done _ _ _ _ _ A). slot_step (k_procs s). rewrite Z.eqb_refl.
    slot_step (k_procs s). unfold mret, M_ret. f_equal.
    match goal with |- context [<[i := ?x]> _] => replace x with (q <| pid := next_pid s |> <| kstack := 0 |>) by (destruct q; cbn in *; subst; reflexivity) end.
    unfold s1, s2. cbn. rewrite <- Hh. reflexivity.
  - destruct A as (A1 & A2 & A3 & _). rewrite (bind_Done _ _ _ _ _ A3).
    slot_step (k_procs s).
    rewrite (proj2 (Z.eqb_neq v 0)) by (pose proof (page_high v A1); unfold KERNLINK, KERNBASE, EXTMEM, PHYSTOP in *; lia).
    slot_step (k_procs s). unfold mret, M_ret. f_equal.
    unfold s1, s2. cbn. rewrite <- Hh. reflexivity.
Qed.

(** ** The open files *)

(** How many descriptors refer to file [f]. *)
Definition uses (f : nat) (fds : list (option nat)) : Z := Z.of_nat (length (filter (fun o => o = Some f) fds)).

Lemma uses_cons (f : nat) (o : option nat) (fds : list (option nat)) : uses f (o :: fds) = (if decide (o = Some f) then 1 else 0) + uses f fds.
Proof. unfold uses. rewrite filter_cons. destruct (decide (o = Some f)); cbn [length]; lia. Qed.

Lemma filedup_run (f : nat) (x : file) (s : kernel) : k_held s = [] -> k_files s !! f = Some x -> 1 <= fref x < 2 ^ 31 - 1 ->
  filedup f s = Done f (s <| k_files := <[f := x <| fref := fref x + 1 |>]> (k_files s) |>).
Proof.
  intros Hh Hx Hr. unfold filedup. erewrite bind_Done by (apply acquire_free; rewrite Hh; set_solver).
  erewrite (bind_Done (file_at f)) by (apply file_at_some; exact Hx). rewrite (proj2 (Z.ltb_ge _ _)) by lia.
  erewrite (bind_Done (upd_file _ _)) by reflexivity. erewrite bind_Done by (apply (release_head ftable_lock []); [cbn; rewrite Hh; reflexivity|set_solver]).
  unfold mret, M_ret. f_equal. set (g := fun f0 => f0 <| fref := s32 (fref f0 + 1) |>).
  assert (E : alter g f (k_files s) = <[f := x <| fref := fref x + 1 |>]> (k_files s)); [|rewrite <- E, <- Hh; reflexivity].
  apply list_eq. intros j. destruct (decide (f = j)) as [<-|Hj].
  - rewrite list_lookup_alter_eq, Hx, list_lookup_insert_eq by exact (lookup_lt_Some _ _ _ Hx). cbn. unfold g. rewrite s32_small by lia. reflexivity.
  - rewrite list_lookup_alter_ne, list_lookup_insert_ne by exact Hj. reflexivity.
Qed.

(** Every file gets as many references more as there are descriptors. *)
Definition more_refs (fds : list (option nat)) (G G' : list file) : Prop :=
  forall f, G' !! f = (fun x => x <| fref := fref x + uses f fds |>) <$> G !! f.

Definition files_ok (fds : list (option nat)) (G : list file) : Prop :=
  forall f, Some f ∈ fds -> exists x, G !! f = Some x /\ 1 <= fref x /\ fref x + uses f fds <= 2 ^ 31 - 1.

Lemma more_refs_nil (G : list file) : more_refs [] G G.
Proof. intros f. destruct (G !! f) as [x|]; [|reflexivity]. cbn [fmap option_fmap option_map]. change (uses f []) with 0. rewrite Z.add_0_r. destruct x. reflexivity. Qed.

Lemma more_refs_cons (f : nat) (x : file) (fds : list (option nat)) (G G' : list file) : G !! f = Some x ->
  more_refs fds (<[f := x <| fref := fref x + 1 |>]> G) G' -> more_refs (Some f :: fds) G G'.
Proof.
  intros Hx H g. rewrite H, uses_cons. destruct (decide (f = g)) as [<-|Hg].
  - rewrite list_lookup_insert_eq by exact (lookup_lt_Some _ _ _ Hx). rewrite Hx, decide_True by reflexivity.
    refine (f_equal (fun n => Some (x <| fref := n |>)) _). cbn. lia.
  - rewrite list_lookup_insert_ne, decide_False by congruence. reflexivity.
Qed.

Lemma more_refs_skip (fds : list (option nat)) (G G' : list file) : more_refs fds G G' -> more_refs (None :: fds) G G'.
Proof. intros H f. rewrite H, uses_cons, decide_False by discriminate. reflexivity. Qed.

Lemma dup_files_run (c np : nat) (pr q : proc) (P : list proc) (s : kernel) : k_held s = [] -> P !! c = Some pr -> c <> np -> (np < length P)%nat ->
  forall (fds pre : list (option nat)) (G : list file), ofile pr = pre ++ fds -> files_ok fds G ->
  exists G', for_each (length fds) (length pre) (fun fd =>
      pr ← proc_at c;
      match mjoin (ofile pr !! fd) with
      | Some f => f' ← filedup f; upd_proc np (fun q => q <| ofile ::= <[fd := Some f']> |>)
      | None => mret tt
      end) (s <| k_files := G |> <| k_procs := <[np := q <| ofile := pre ++ replicate (length fds) None |>]> P |>) =
    Done tt (s <| k_files := G' |> <| k_procs := <[np := q <| ofile := ofile pr |>]> P |>) /\ more_refs fds G G'.
Proof.
  intros Hh Hc Hne Hnp. induction fds as [|o fds IH]; intros pre G Ho Hok; cbn [for_each length].
  { exists G. split; [|apply more_refs_nil]. rewrite Ho. reflexivity. }
  match goal with |- context [(_ ≫= _) ?st] => set (s1 := st) end.
  assert (E1 : proc_at c s1 = Done pr s1) by (apply proc_at_some; cbn; rewrite list_lookup_insert_ne by congruence; exact Hc).
  assert (E2 : mjoin (ofile pr !! length pre) = o) by (rewrite Ho, lookup_app_r, Nat.sub_diag by lia; reflexivity).
  assert (Ho' : ofile pr = (pre ++ [o]) ++ fds) by (rewrite <- app_assoc; exact Ho).
  assert (El : length (pre ++ [o]) = S (length pre)) by (rewrite length_app; cbn; lia).
  destruct o as [f|].
  - destruct (Hok f ltac:(set_solver)) as (x & Hx & Hr1 & Hr2). rewrite uses_cons, decide_True in Hr2 by reflexivity. assert (0 <= uses f fds) by (unfold uses; lia).
    assert (Eo : <[length pre := Some f]> (pre ++ replicate (S (length fds)) None) = (pre ++ [Some f]) ++ replicate (length fds) None)
      by (rewrite insert_app_r_alt, Nat.sub_diag by lia; rewrite <- app_assoc; reflexivity).
    destruct (IH (pre ++ [Some f]) (<[f := x <| fref := fref x + 1 |>]> G) Ho') as (G' & E & Hm).
    { intros g Hg. destruct (Hok g ltac:(set_solver)) as (y & Hy & Hy1 & Hy2). rewrite uses_cons in Hy2. destruct (decide (f = g)) as [<-|Hfg].
      - rewrite decide_True in Hy2 by reflexivity. assert (y = x) by congruence. subst y. eexists. rewrite list_lookup_insert_eq by exact (lookup_lt_Some _ _ _ Hx). split; [reflexivity|]. cbn. lia.
      - rewrite decide_False in Hy2 by congruence. exists y. rewrite list_lookup_insert_ne by exact Hfg. split; [exact Hy|lia]. }
    exists G'. split; [|exact (more_refs_cons _ _ _ _ _ Hx Hm)]. rewrite El in E.
    match type of E with _ ?st = _ => set (s2 := st) in E end. refine (eq_trans (bind_Done _ _ s1 s2 tt _) E).
    rewrite (bind_Done _ _ _ _ _ E1), E2, (bind_Done _ _ _ _ _ (filedup_run f x s1 Hh Hx ltac:(lia))).
    erewrite (upd_slot np _ (q <| ofile := pre ++ replicate (S (length fds)) None |>) P) by (exact Hnp || reflexivity).
    unfold s2. rewrite <- Eo. reflexivity.
  - destruct (IH (pre ++ [None]) G Ho') as (G' & E & Hm).
    { intros g Hg. destruct (Hok g ltac:(set_solver)) as (y & Hy & Hy1 & Hy2). rewrite uses_cons, decide_False in Hy2 by discriminate. exists y. auto. }
    exists G'. split; [|exact (more_refs_skip _ _ _ Hm)]. rewrite El in E.
    match type of E with _ ?st = _ => set (s2 := st) in E end. refine (eq_trans (bind_Done _ _ s1 s2 tt _) E).
    rewrite (bind_Done _ _ _ _ _ E1), E2. unfold s1, s2. rewrite <- app_assoc. reflexivity.
Qed.

(** ** fork *)

(** The parent [c], a process with its memory mapped and its files open; [l]
    are the free pages. *)
Record can_fork (s : kernel) (c : nat) (pr : proc) (l : list Z) : Prop := {
  cf_held : k_held s = [];
  cf_cur : k_cur s = Some c;
  cf_proc : k_procs s !! c = Some pr;
  cf_used : state pr <> UNUSED;
  cf_space : space_ok s (pgdir pr) l;
  cf_sz : 0 <= sz pr <= KERNBASE;
  cf_nofile : length (ofile pr) = NOFILE;
  cf_files : files_ok (ofile pr) (k_files s);
  cf_cwd : is_Some (cwd pr);
  cf_free : forall i q, k_procs s !! i = Some q -> state q = UNUSED -> ofile q = replicate NOFILE None
}.

(** The child, in a slot that held [q]: with a stack at [ks] and the page
    directory [d]. *)
Definition child_of (c : nat) (pr : proc) (n ks d : Z) (q : proc) : proc :=
  set_name (name pr) (embryo n ks q <| pgdir := d |> <| sz := sz pr |> <| parent := Some c |> <| tf := (tf pr) <| tf_eax := 0 |> |>
    <| ofile := ofile pr |> <| cwd := cwd pr |>) <| state := RUNNABLE |>.

(** The child's memory is a copy of the parent's; the parent's is as before. *)
Record copied_space (s t : kernel) (pr : proc) (d ks : Z) (l : list Z) : Prop := {
  cs_child : exists l', space_ok t d l' /\ space_ok t (pgdir pr) l' /\ (ks ∉ l') /\ l' ⊆ l;
  cs_mapped : forall v, umapped (k_mem t) d v <-> 0 <= v < npages (sz pr);
  cs_kernel : forall v, UPAGES <= v < NVPAGE -> pte (k_mem t) d v = kernel_pte v;
  cs_bytes : forall x, 0 <= x < npages (sz pr) * PGSIZE -> uread (k_mem t) d x = uread (k_mem s) (pgdir pr) x;
  cs_other : forall w, page w -> w ∉ l -> agree (k_mem s) (k_mem t) w
}.

Lemma space_ext (s t : kernel) (d : Z) (l : list Z) : space_ok s d l -> k_mem t = k_mem s -> k_freelist t = k_freelist s -> space_ok t d l.
Proof.
  intros H Em Ef. apply (parent_ok s d l H t l); [intros w _ _; rewrite Em; apply agree_refl| |auto].
  pose proof (vo_free _ _ _ (so_vm _ _ _ H)) as Hf. unfold free_pages in *. rewrite Em, Ef. exact Hf.
Qed.

Lemma idup_run (w : nat) (s : kernel) : k_held s = [] -> idup w s = Done w (s <| k_inodes ::= alter (fun ip => ip <| iref := s32 (iref ip + 1) |>) w |>).
Proof.
  intros Hh. unfold idup. erewrite bind_Done by (apply acquire_free; rewrite Hh; set_solver). erewrite (bind_Done (upd_inode _ _)) by reflexivity.
  erewrite bind_Done by (apply (release_head icache_lock []); [cbn; rewrite Hh; reflexivity|set_solver]). unfold mret, M_ret. rewrite <- Hh. reflexivity.
Qed.

(** From the copy of the address space on. *)
Lemma fork_success (s s1 t1 : kernel) (c np : nat) (pr e : proc) (P : list proc) (d : Z) (w : nat) : k_cur s = Some c ->
  allocproc s = Done (Some np) s1 -> k_procs s1 !! c = Some pr -> copyuvm (pgdir pr) (sz pr) s1 = Done d t1 -> d <> 0 -> k_held t1 = [] ->
  k_procs t1 = <[np := e]> P -> P !! c = Some pr -> c <> np -> (np < length P)%nat -> ofile e = replicate NOFILE None ->
  length (ofile pr) = NOFILE -> files_ok (ofile pr) (k_files t1) -> cwd pr = Some w ->
  exists G', more_refs (ofile pr) (k_files t1) G' /\
    fork s = Done (pid e) (t1 <| k_files := G' |> <| k_inodes ::= alter (fun ip => ip <| iref := s32 (iref ip + 1) |>) w |>
      <| k_procs := <[np := set_name (name pr) (e <| pgdir := d |> <| sz := sz pr |> <| parent := Some c |> <| tf := (tf pr) <| tf_eax := 0 |> |>
          <| ofile := ofile pr |> <| cwd := Some w |>) <| state := RUNNABLE |>]> P |>).
Proof.
  intros Hc Ea Hp Ec Hd Hh Ep HP Hne Hnp He Hl Hf Hw.
  assert (Hlk : forall x, <[np := x]> P !! c = Some pr) by (intros x; rewrite list_lookup_insert_ne by congruence; exact HP).
  set (q := e <| pgdir := d |> <| sz := sz pr |> <| parent := Some c |> <| tf := (tf pr) <| tf_eax := 0 |> |>).
  destruct (dup_files_run c np pr q P t1 Hh HP Hne Hnp (ofile pr) [] (k_files t1) eq_refl Hf) as (G' & Ed & Hm). exists G'. split; [exact Hm|].
  unfold fork. erewrite (bind_Done curproc) by (unfold curproc, mbind, M_bind, get; cbn; rewrite Hc; reflexivity). rewrite (bind_Done _ _ _ _ _ Ea).
  erewrite (bind_Done (proc_at c)) by (apply proc_at_some; exact Hp). rewrite (bind_Done _ _ _ _ _ Ec).
  rewrite (bind_Done _ _ _ _ _ (upd_slot np _ e P t1 Hnp Ep)), (proj2 (Z.eqb_neq d 0)) by exact Hd.
  erewrite (bind_Done (proc_at c)) by (apply proc_at_some; apply Hlk). slot_step P.
  erewrite (bind_Done (dup_files c np)).
  2: { unfold dup_files. rewrite <- Hl. refine (eq_trans _ Ed). cbn [length app]. rewrite Hl, <- He. reflexivity. }
  erewrite (bind_Done (proc_at c)) by (apply proc_at_some; apply Hlk). rewrite Hw. erewrite (bind_Done (deref _)) by reflexivity.
  erewrite (bind_Done (idup w)) by (apply idup_run; exact Hh). slot_step P. slot_step P.
  erewrite (bind_Done (proc_at np)) by (apply proc_at_some; apply list_lookup_insert_eq; exact Hnp).
  erewrite (bind_Done (acquire _)) by (apply acquire_free; cbn; rewrite Hh; set_solver). slot_step P.
  erewrite (bind_Done (release _)) by (apply (release_head ptable_lock []); [cbn; rewrite Hh; reflexivity|set_solver]).
  unfold mret, M_ret. rewrite <- Hh. reflexivity.
Qed.

Lemma allocproc_full (s : kernel) : k_held s = [] -> find_idx (fun p => bool_decide (state p = UNUSED)) (k_procs s) = None -> allocproc s = Done None s.
Proof.
  intros Hh Hn. unfold allocproc. erewrite bind_Done by (apply acquire_free; rewrite Hh; set_solver). rewrite (bind_Done get _ _ _ _ eq_refl). cbv beta.
  match goal with |- context [find_idx ?f ?l] => change (find_idx f l) with (find_idx f (k_procs s)) end. rewrite Hn.
  erewrite bind_Done by (apply (release_head ptable_lock []); [cbn; rewrite Hh; reflexivity|set_solver]). unfold mret, M_ret. rewrite <- Hh. reflexivity.
Qed.

(** [fork] fails when [allocproc] does. *)
Lemma fork_no_slot (s s1 : kernel) (c : nat) : k_cur s = Some c -> allocproc s = Done None s1 -> fork s = Done (-1) s1.
Proof.
  intros Hc Ea. unfold fork. erewrite (bind_Done curproc) by (unfold curproc, mbind, M_bind, get; cbn; rewrite Hc; reflexivity). rewrite (bind_Done _ _ _ _ _ Ea). reflexivity.
Qed.

(** What a failed [fork] leaves: a slot that is still free, and the pages, of
    which at most one is lost. *)
Definition fork_failed (s t : kernel) (l : list Z) : Prop :=
  k_files t = k_files s /\ k_inodes t = k_inodes s /\
  (forall i p, k_procs s !! i = Some p -> state p <> UNUSED -> k_procs t !! i = Some p) /\
  (forall i p, k_procs t !! i = Some p -> k_procs s !! i = Some p \/ state p = UNUSED) /\
  exists l' x, free_pages t l' /\ l' ++ x ≡ₚ l /\ (length x <= 1)%nat.

Lemma slot_failed (s t : kernel) (np : nat) (q q' : proc) : k_procs s !! np = Some q -> state q = UNUSED -> state q' = UNUSED -> k_procs t = <[np := q']> (k_procs s) ->
  (forall i p, k_procs s !! i = Some p -> state p <> UNUSED -> k_procs t !! i = Some p) /\
  (forall i p, k_procs t !! i = Some p -> k_procs s !! i = Some p \/ state p = UNUSED).
Proof.
  intros Hq Hu Hu' E. rewrite E. split; intros i p Hi.
  - intros Hp. rewrite list_lookup_insert_ne; [exact Hi|]. intros ->. congruence.
  - destruct (decide (np = i)) as [<-|Hne]; [|rewrite list_lookup_insert_ne in Hi by exact Hne; left; exact Hi].
    rewrite list_lookup_insert_eq in Hi by exact (lookup_lt_Some _ _ _ Hq). right. congruence.
Qed.

(** The copy failed: the slot and the stack are given back. *)
Lemma fork_no_memory (s s1 t1 : kernel) (c np : nat) (pr e : proc) (P : list proc) (l' : list Z) : k_cur s = Some c ->
  allocproc s = Done (Some np) s1 -> k_procs s1 !! c = Some pr -> copyuvm (pgdir pr) (sz pr) s1 = Done 0 t1 -> k_held t1 = [] ->
  k_procs t1 = <[np := e]> P -> (np < length P)%nat -> free_pages t1 l' -> page (kstack e) -> (kstack e ∉ l') ->
  exists t, fork s = Done (-1) t /\ k_procs t = <[np := e <| pgdir := 0 |> <| kstack := 0 |> <| state := UNUSED |>]> P /\
    free_pages t (kstack e :: l') /\ k_files t = k_files t1 /\ k_inodes t = k_inodes t1.
Proof.
  intros Hc Ea Hp Ec Hh Ep Hnp Hf Hk Hn. unfold fork. erewrite (bind_Done curproc) by (unfold curproc, mbind, M_bind, get; cbn; rewrite Hc; reflexivity).
  rewrite (bind_Done _ _ _ _ _ Ea). erewrite (bind_Done (proc_at c)) by (apply proc_at_some; exact Hp). rewrite (bind_Done _ _ _ _ _ Ec).
  rewrite (bind_Done _ _ _ _ _ (upd_slot np _ e P t1 Hnp Ep)), Z.eqb_refl.
  erewrite (bind_Done (proc_at np)) by (apply proc_at_some; apply list_lookup_insert_eq; exact Hnp).
  match goal with |- context [(kfree _ ≫= _) ?st] => set (s2 := st) end.
  destruct (kfree_free_pages (kstack e) s2 l' Hf Hk Hn ltac:(cbn; rewrite Hh; set_solver)) as (t2 & E2 & F2 & _ & T2).
  rewrite (bind_Done (kfree _) _ s2 t2 tt E2). erewrite (bind_Done (upd_proc _ _)) by (eapply (upd_slot np _ (e <| pgdir := 0 |>) P); [exact Hnp|rewrite T2; reflexivity]).
  eexists. split; [reflexivity|]. split; [reflexivity|]. split; [exact F2|]. cbn. rewrite T2. split; reflexivity.
Qed.

(** A panic of [copyuvm] is one of [fork]. *)
Lemma fork_hole (s s1 : kernel) (c np : nat) (pr : proc) : k_cur s = Some c -> allocproc s = Done (Some np) s1 -> k_procs s1 !! c = Some pr ->
  hole_panic (copyuvm (pgdir pr) (sz pr) s1) -> hole_panic (fork s).
Proof.
  intros Hc Ea Hp Hpn. unfold fork, hole_panic. erewrite (bind_Done curproc) by (unfold curproc, mbind, M_bind, get; cbn; rewrite Hc; reflexivity).
  rewrite (bind_Done _ _ _ _ _ Ea). erewrite (bind_Done (proc_at c)) by (apply proc_at_some; exact Hp).
  destruct Hpn as [E|E]; rewrite (bind_Halt _ _ _ _ E); auto.
Qed.

(** C21. [fork] makes a copy of the calling process, and it returns if every
    page of the process below its size is there.  When
    it returns a process number, a slot that was free holds the child: ready to
    run, with that number, its parent, the parent's registers except that the
    call returns 0 there, the same open files, directory, size and name, a stack
    of its own and a page directory in which the child reads at every address
    the byte the parent reads; the parent's memory and every other process are
    as before; each open file has one reference more for each descriptor and the
    directory one more.  Otherwise it returns -1: no process but the free slot
    has changed, no reference either, and the pages are free again, but for at
    most one.  If a page below the size is missing, as it is for a thread above
    the stack of one that has been joined, [fork] may instead stop the kernel,
    with one of the two panics of [copyuvm] and no other. *)
Theorem fork_copies_process (s : kernel) (c : nat) (pr : proc) (l : list Z) (H : can_fork s c pr l) :
  (exists r t, fork s = Done r t /\
    ((exists np q ks d w, unused_slot s np q /\ np <> c /\ cwd pr = Some w /\ ks ∈ l /\ page ks /\ r = next_pid s /\
        k_procs t = <[np := child_of c pr r ks d q]> (k_procs s) /\
        more_refs (ofile pr) (k_files s) (k_files t) /\
        k_inodes t = alter (fun ip => ip <| iref := s32 (iref ip + 1) |>) w (k_inodes s) /\
        copied_space s t pr d ks l)
     \/ r = -1 /\ fork_failed s t l)) \/
  (exists v, 0 <= v < npages (sz pr) /\ present (pte (k_mem s) (pgdir pr) v) = false /\ hole_panic (fork s)).
Proof.
  destruct H as [Hh Hc Hp Hu Hs Hsz Hnf Hfl [w Hw] Hfree]. pose proof (vo_free _ _ _ (so_vm _ _ _ Hs)) as Hf.
  destruct (find_slot s) as [Hnone|(np & q & Hslot)].
  { left. exists (-1), s. split; [exact (fork_no_slot s s c Hc (allocproc_full s Hh Hnone))|right; split; [reflexivity|] ].
    split_and!; [reflexivity|reflexivity|auto|auto|]. exists l, []. split; [exact Hf|]. split; [rewrite app_nil_r; reflexivity|cbn; lia]. }
  pose proof Hslot as (Hq & Hqu & _). assert (Hne : c <> np) by (intros ->; congruence). pose proof (lookup_lt_Some _ _ _ Hq) as Hlt.
  pose proof (allocproc_run s np q l Hh Hf Hslot) as Ea. destruct l as [|ks l1]; cbv zeta in Ea.
  { left. eexists (-1), _. split; [exact (fork_no_slot s _ c Hc Ea)|]. right. split; [reflexivity|]. split; [reflexivity|]. split; [reflexivity|].
    assert (Hq' : state (q <| pid := next_pid s |> <| kstack := 0 |>) = UNUSED) by exact Hqu.
    match type of Ea with _ = Done _ ?st => destruct (slot_failed s st np q _ Hq Hqu Hq' eq_refl) as [S1 S2] end.
    split; [exact S1|split; [exact S2|] ]. exists [], []. split; [exact Hf|]. split; [reflexivity|cbn; lia]. }
  match type of Ea with _ = Done _ ?st => set (s1 := st) in Ea end.
  assert (Hks : page ks /\ (ks ∉ l1) /\ free_pages s1 l1) by (pose proof (kalloc_free_pages s _ Hf ltac:(rewrite Hh; set_solver)) as (A1 & A2 & _ & A4); split; [exact A1|split; [exact A2|exact A4] ]).
  destruct Hks as (Hk1 & Hk2 & Hk3).
  assert (Hs1 : space_ok s1 (pgdir pr) l1) by (apply (parent_ok s (pgdir pr) (ks :: l1) Hs s1 l1); [intros; apply agree_refl|exact Hk3|set_solver]).
  assert (Hp1 : k_procs s1 !! c = Some pr) by (cbn; rewrite list_lookup_insert_ne by congruence; exact Hp).
  destruct (copyuvm_copies (pgdir pr) (sz pr) s1 l1 Hs1 ltac:(cbn; rewrite Hh; set_solver) Hsz) as [(d & t1 & l' & Ec & Hmo & Hag & Hcase)|(v & Hv & Hm & Hpn)].
  2: { right. exists v. split; [exact Hv|]. split; [exact Hm|]. exact (fork_hole s s1 c np pr Hc Ea Hp1 Hpn). }
  left.
  assert (Hh1 : k_held t1 = []) by (rewrite Hmo; exact Hh). assert (Ep1 : k_procs t1 = <[np := embryo (next_pid s) ks q]> (k_procs s)) by (rewrite Hmo; reflexivity).
  assert (Hag' : forall w0, page w0 -> w0 ∉ ks :: l1 -> agree (k_mem s) (k_mem t1) w0) by (intros w0 P0 N0; apply Hag; [exact P0|set_solver]).
  destruct Hcase as [(Hd & O1 & O2 & U1 & U2 & U3 & U4)|(-> & F1 & x & Hx & Hx')].
  - destruct (fork_success s s1 t1 c np pr (embryo (next_pid s) ks q) (k_procs s) d w Hc Ea Hp1 Ec Hd Hh1 Ep1 Hp Hne Hlt (Hfree np q Hq Hqu) Hnf ltac:(rewrite Hmo; exact Hfl) Hw) as (G' & Hm & E).
    eexists _, _. split; [exact E|]. left. exists np, q, ks, d, w.
    split_and!; [exact Hslot|congruence|exact Hw|set_solver|exact Hk1|reflexivity|unfold child_of; rewrite Hw; reflexivity|rewrite Hmo in Hm; exact Hm|cbn; rewrite Hmo; reflexivity|].
    split; [|exact U1|exact U2|intros y Hy; apply U3, Hy|exact Hag']. exists l'. assert (Hin : l' ⊆ l1) by (intros y Hy; apply U4; auto).
    split; [apply (space_ext t1); [exact O1|reflexivity|reflexivity]|]. split; [apply (space_ext t1); [exact O2|reflexivity|reflexivity]|]. split; set_solver.
  - destruct (fork_no_memory s s1 t1 c np pr (embryo (next_pid s) ks q) (k_procs s) l' Hc Ea Hp1 Ec Hh1 Ep1 Hlt F1 Hk1) as (t & E & Et & Ft & G1 & G2).
    { intros Hin. apply Hk2. rewrite <- Hx. apply elem_of_app. left. exact Hin. }
    exists (-1), t. split; [exact E|]. right. split; [reflexivity|]. rewrite Hmo in G1, G2.
    split; [exact G1|]. split; [exact G2|].
    match type of Et with _ = <[np := ?x]> _ => assert (Hx1 : state x = UNUSED) by reflexivity end.
    destruct (slot_failed s t np q _ Hq Hqu Hx1 Et) as [S1 S2]. split; [exact S1|split; [exact S2|] ].
    exists (ks :: l'), x. split; [exact Ft|]. split; [cbn; rewrite Hx; reflexivity|exact Hx'].
Qed.
End Fork.

(** A process of one page with an open file, in slot 0. *)
Definition ex_parent : proc := proc0 <| sz := 4000 |> <| pgdir := ex_dir |> <| state := RUNNING |> <| pid := 1 |>
  <| ofile := <[0%nat := Some 0%nat]> (replicate NOFILE None) |> <| cwd := Some 0%nat |>.

Definition ex_fork : kernel := ex_vm <| k_cur := Some 0%nat |> <| k_procs ::= <[0%nat := ex_parent]> |>
  <| k_files ::= alter (fun f => f <| fref := 1 |>) 0%nat |>.

Lemma ex_can_fork : can_fork (L := ex_linker) ex_fork 0 ex_parent [ex_free1; ex_free2].
Proof.
  split; try reflexivity.
  - discriminate.
  - apply (space_ext (L := ex_linker) ex_vm); [apply ex_space_ok|reflexivity|reflexivity].
  - split; discriminate.
  - intros f Hf. cbn in Hf. repeat (apply elem_of_cons in Hf as [Hf|Hf]; [try discriminate Hf|]); [|apply elem_of_nil in Hf; destruct Hf].
    injection Hf as ->. eexists. split; [reflexivity|]. vm_compute. split; discriminate.
  - eexists. reflexivity.
  - intros i q Hi Hu. cbn in Hi. destruct i as [|i]; [injection Hi as <-; discriminate Hu|].
    assert (Hq : q ∈ replicate 63 proc0) by (apply list_elem_of_lookup; exists i; exact Hi). apply elem_of_replicate in Hq as [-> _]. reflexivity.
Qed.

Lemma fork_copies_process_witness : exists r t, fork (L := ex_linker) ex_fork = Done r t /\
  (r = 1 \/ r = -1).
Proof.
  destruct (fork_copies_process (L := ex_linker) ex_fork 0 ex_parent _ ex_can_fork) as [(r & t & E & H)|(v & Hv & Hm & _)].
  - exists r, t. split; [exact E|]. destruct H as [(np & q & ks & d & w & _ & _ & _ & _ & _ & -> & _)|[-> _] ]; auto.
  - change (npages (sz ex_parent)) with 1 in Hv. replace v with 0 in Hm by lia. discriminate Hm.
Defined.
