(* ===== verification/ThreadSpec.v ===== *)
(** * Threads: thread_create

    A new thread runs in the address space of its maker, on two pages of its
    own: a guard page and a stack.  The kernel stores the thread's number and
    reads the argument through the page table in use, so the file starts with
    accesses to user memory. *)

From S2P Require Import Prelude Params Bytes CString Kernel Print Kalloc Vm Umem Sleep Ide Bio Log Fs Pipe File Proc Thread VmSpec UserSpace AddressSpace VmCopy ForkSpec.

Section Access.
Context {L : Linker}.

Lemma translate_frame (m : gmap Z Z) (d x a : Z) (w : bool) : 0 <= x < KERNBASE -> translate m d x w = Some a ->
  umapped m d (x / PGSIZE) /\ a = frame_at m d (x / PGSIZE) + x mod PGSIZE.
Proof.
  intros Hx. unfold translate. rewrite PDX_vpage, PTX_eq by (unfold KERNBASE in Hx; lia).
  destruct (present (rd32 m (d + _))) eqn:Ep; [|discriminate]. cbn [andb].
  assert (Eq : pte m d (x / PGSIZE) = rd32 m (P2V (PTE_ADDR (rd32 m (d + 4 * (x / PGSIZE / 1024)))) + 4 * (x / PGSIZE mod 1024))) by (apply pte_slot; exact Ep).
  rewrite <- Eq. destruct (present (pte _ _ _)) eqn:Et; [|discriminate]. destruct (negb w || _); [|discriminate]. intros [= <-].
  split; [|reflexivity]. split; [|exact Et]. unfold UPAGES, PGSIZE, KERNBASE in *. Z.div_mod_to_equations. lia.
Qed.

Lemma translate_ext (m m' : gmap Z Z) (d x : Z) (w : bool) : 0 <= x < 2 ^ 32 -> rd32 m' (d + 4 * PDX x) = rd32 m (d + 4 * PDX x) ->
  pte m' d (x / PGSIZE) = pte m d (x / PGSIZE) -> translate m' d x w = translate m d x w.
Proof.
  intros Hx E1. unfold translate, pte, has_table, table. rewrite <- PDX_vpage, <- PTX_eq by exact Hx. rewrite E1.
  destruct (present (rd32 m _)) eqn:Ep; [|reflexivity]. intros ->. reflexivity.
Qed.

(** Every page that is mapped can be read. *)
Lemma translate_read (m : gmap Z Z) (d x : Z) : 0 <= x < KERNBASE -> umapped m d (x / PGSIZE) -> translate m d x false = Some (frame_at m d (x / PGSIZE) + x mod PGSIZE).
Proof.
  intros Hx [_ Hm]. unfold translate, frame_at, pte, has_table, table in *. rewrite <- PDX_vpage, <- PTX_eq in * by (unfold KERNBASE in Hx; lia).
  destruct (present (rd32 m _)) eqn:Ep in Hm |- *; [|discriminate]. rewrite Hm. reflexivity.
Qed.

(** [d] is written at [va] in the address space: the user reads it there, the
    page table is as before, and so is every page that is not mapped. *)
Record wrote (pgdir va : Z) (d : list Z) (s t : kernel) (l : list Z) : Prop := {
  wo_ok : space_ok t pgdir l;
  wo_only : t = s <| k_mem := k_mem t |>;
  wo_pte : forall v, 0 <= v < NVPAGE -> pte (k_mem t) pgdir v = pte (k_mem s) pgdir v;
  wo_trans : forall x w, 0 <= x < KERNBASE -> translate (k_mem t) pgdir x w = translate (k_mem s) pgdir x w;
  wo_table : forall w, in_table (k_mem t) pgdir w -> in_table (k_mem s) pgdir w;
  wo_read : forall x, umapped (k_mem s) pgdir (x / PGSIZE) ->
    uread (k_mem t) pgdir x = if decide (va <= x < va + Z.of_nat (length d)) then byte_at d (x - va) else uread (k_mem s) pgdir x;
  wo_agree : forall w, page w -> (forall v, umapped (k_mem s) pgdir v -> w <> frame_at (k_mem s) pgdir v) -> agree (k_mem s) (k_mem t) w
}.

Lemma wrote_nothing (pgdir va : Z) (s : kernel) (l : list Z) : space_ok s pgdir l -> wrote pgdir va [] s s l.
Proof. intros H. split; auto using agree_refl. intros x _. rewrite decide_False by (cbn; lia). reflexivity. Qed.

Lemma wrote_umapped (pgdir va : Z) (d : list Z) (s t : kernel) (l : list Z) (v : Z) : wrote pgdir va d s t l ->
  umapped (k_mem s) pgdir v -> umapped (k_mem t) pgdir v /\ frame_at (k_mem t) pgdir v = frame_at (k_mem s) pgdir v.
Proof.
  intros W Hv. pose proof (wo_pte _ _ _ _ _ _ W v (umapped_vpage _ _ _ Hv)) as E. unfold umapped, frame_at. rewrite E. split; [exact Hv|reflexivity].
Qed.

Lemma wrote_umapped_inv (pgdir va : Z) (d : list Z) (s t : kernel) (l : list Z) (v : Z) : wrote pgdir va d s t l -> umapped (k_mem t) pgdir v -> umapped (k_mem s) pgdir v.
Proof. intros W Hv. pose proof (wo_pte _ _ _ _ _ _ W v (umapped_vpage _ _ _ Hv)) as E. unfold umapped in *. rewrite E in Hv. exact Hv. Qed.

Lemma wrote_app (pgdir va : Z) (d d' : list Z) (s t u : kernel) (l : list Z) :
  wrote pgdir va d s t l -> wrote pgdir (va + Z.of_nat (length d)) d' t u l -> wrote pgdir va (d ++ d') s u l.
Proof.
  intros W1 W2. split.
  - exact (wo_ok _ _ _ _ _ _ W2).
  - rewrite (wo_only _ _ _ _ _ _ W2), (wo_only _ _ _ _ _ _ W1). reflexivity.
  - intros v Hv. rewrite (wo_pte _ _ _ _ _ _ W2), (wo_pte _ _ _ _ _ _ W1) by exact Hv. reflexivity.
  - intros x w Hx. rewrite (wo_trans _ _ _ _ _ _ W2), (wo_trans _ _ _ _ _ _ W1) by exact Hx. reflexivity.
  - intros w Hw. apply (wo_table _ _ _ _ _ _ W1), (wo_table _ _ _ _ _ _ W2), Hw.
  - intros x Hx. rewrite (wo_read _ _ _ _ _ _ W2) by (apply (wrote_umapped _ _ _ _ _ _ _ W1 Hx)). rewrite (wo_read _ _ _ _ _ _ W1) by exact Hx.
    rewrite length_app, Nat2Z.inj_add. unfold byte_at.
    destruct (decide (va + Z.of_nat (length d) <= x < _)).
    + rewrite decide_True by lia. rewrite lookup_app_r by lia. do 2 f_equal. lia.
    + destruct (decide (va <= x < va + Z.of_nat (length d))).
      * rewrite decide_True by lia. rewrite lookup_app_l by lia. reflexivity.
      * rewrite decide_False by lia. reflexivity.
  - intros w Hw Hv. eapply agree_trans; [apply (wo_agree _ _ _ _ _ _ W1 w Hw Hv)|]. apply (wo_agree _ _ _ _ _ _ W2 w Hw).
    intros v Hm. pose proof (wrote_umapped_inv _ _ _ _ _ _ _ W1 Hm) as Hm'. rewrite (proj2 (wrote_umapped _ _ _ _ _ _ _ W1 Hm')). apply Hv, Hm'.
Qed.

(** One store inside a page. *)
Lemma put_wrote (s : kernel) (pgdir v off : Z) (d : list Z) (l : list Z) : space_ok s pgdir l -> umapped (k_mem s) pgdir v ->
  0 <= off -> off + Z.of_nat (length d) <= PGSIZE ->
  wrote pgdir (v * PGSIZE + off) d s (s <| k_mem ::= wr_list (frame_at (k_mem s) pgdir v + off) d |>) l.
Proof.
  intros Hok Hv H0 H1. destruct (put_user s pgdir v off d l Hok Hv H0 H1) as (O & P & R). destruct (so_page _ _ _ Hok v Hv) as (Hp & Hnl & Hnt).
  assert (Hm : forall w, page w -> w <> frame_at (k_mem s) pgdir v -> agree (k_mem s) (wr_list (frame_at (k_mem s) pgdir v + off) d (k_mem s)) w).
  { intros w Hw Hne. apply (agree_wr_list _ w (frame_at (k_mem s) pgdir v)); try assumption; lia. }
  pose proof (vo_dir _ _ _ (so_vm _ _ _ Hok)) as [Hd _].
  assert (Hdir : agree (k_mem s) (wr_list (frame_at (k_mem s) pgdir v + off) d (k_mem s)) pgdir) by (apply Hm; [exact Hd|intros E; apply Hnt; left; congruence]).
  split; [exact O|reflexivity|exact P| | |exact R|intros w Hw Hf; apply Hm; [exact Hw|apply Hf, Hv] ].
  - intros x w Hx. assert (Hx' : 0 <= x < 2 ^ 32) by (unfold KERNBASE in Hx; lia). apply translate_ext; [exact Hx'| |apply P, vpage_range, Hx'].
    rewrite PDX_vpage by exact Hx'. destruct (vpage_split (x / PGSIZE) (vpage_range x Hx')) as [D1 D2]. assert (PGSIZE = 4096) by reflexivity.
    apply (agree_rd32 _ _ pgdir); [exact Hdir|lia|lia].
  - intros w [->|(d' & Hd' & Hh & ->)]; [left; reflexivity|]. right. exists d'. destruct (agree_table _ _ pgdir d' Hdir Hd') as [E1 E2]. cbn in *. rewrite E1 in Hh. rewrite E2. auto.
Qed.

(** The kernel may store through the user's addresses from [va] on. *)
Definition writable (s : kernel) (pgdir va n : Z) : Prop :=
  0 <= va /\ va + n <= KERNBASE /\ forall x, va <= x < va + n -> is_Some (translate (k_mem s) pgdir x true).

Lemma ustore_run (pgdir : Z) (d : list Z) (va : Z) (s : kernel) (l : list Z) : space_ok s pgdir l -> P2V (k_cr3 s) = pgdir -> Forall is_byte d ->
  writable s pgdir va (Z.of_nat (length d)) -> exists t, ustore va d s = Done tt t /\ wrote pgdir va d s t l.
Proof.
  revert va s. induction d as [|c d IH]; intros va s Hok Hc Hb (H0 & H1 & Hr); cbn [ustore].
  { exists s. split; [reflexivity|apply wrote_nothing, Hok]. }
  cbn [length] in *. apply Forall_cons in Hb as [Hb Hbs]. destruct (Hr va ltac:(lia)) as [a Ha].
  destruct (translate_frame _ _ va a _ ltac:(lia) Ha) as [Hm ->]. pose proof (Z.mod_pos_bound va PGSIZE eq_refl) as Ho.
  pose proof (put_wrote s pgdir (va / PGSIZE) (va mod PGSIZE) [c] l Hok Hm ltac:(lia) ltac:(cbn; lia)) as W.
  replace (va / PGSIZE * PGSIZE + va mod PGSIZE) with va in W by (pose proof (Z.div_mod va PGSIZE); unfold PGSIZE in *; lia).
  match type of W with wrote _ _ _ _ ?st _ => set (s1 := st) in W end.
  destruct (IH (va + 1) s1 (wo_ok _ _ _ _ _ _ W) Hc Hbs) as (t & E & W2).
  { split; [lia|split; [lia|] ]. intros x Hx. rewrite (wo_trans _ _ _ _ _ _ W) by lia. apply Hr. lia. }
  exists t. split; [|exact (wrote_app _ _ [c] d _ _ _ _ W W2)]. rewrite <- E. rewrite u32_small by (unfold KERNBASE in *; lia).
  apply (bind_Done (ustore8 va c) (fun _ => ustore (va + 1) d) s s1 tt). unfold ustore8, uaddr. erewrite bind_Done; [|rewrite (bind_Done get _ _ _ _ eq_refl), Hc, Ha; reflexivity].
  unfold modify. rewrite u8_small by exact Hb. reflexivity.
Qed.

(** The user's addresses from [va] on are mapped. *)
Definition readable (s : kernel) (pgdir va n : Z) : Prop :=
  0 <= va /\ va + n <= KERNBASE /\ forall x, va <= x < va + n -> umapped (k_mem s) pgdir (x / PGSIZE).

Lemma uload_run (pgdir : Z) (n : nat) (va : Z) (s : kernel) : P2V (k_cr3 s) = pgdir -> readable s pgdir va (Z.of_nat n) ->
  uload n va s = Done (map (uread (k_mem s) pgdir) (seqZ va (Z.of_nat n))) s.
Proof.
  intros Hc. revert va. induction n as [|n IH]; intros va (H0 & H1 & Hr); [reflexivity|]. cbn [uload].
  pose proof (translate_read _ _ va ltac:(lia) (Hr va ltac:(lia))) as Ha.
  assert (E1 : uload8 va s = Done (uread (k_mem s) pgdir va) s).
  { unfold uload8, uaddr. erewrite bind_Done; [|rewrite (bind_Done get _ _ _ _ eq_refl), Hc, Ha; reflexivity]. reflexivity. }
  rewrite (bind_Done _ _ _ _ _ E1), u32_small by (unfold KERNBASE in *; lia).
  erewrite bind_Done; [|apply IH; split; [lia|split; [lia|] ]; intros x Hx; apply Hr; lia].
  rewrite Nat2Z.inj_succ, (seqZ_cons va) by lia. rewrite Z.pred_succ. reflexivity.
Qed.

(** [copyout] inside one page. *)
Lemma copyout_page (s : kernel) (pgdir v off : Z) (d : list Z) (l : list Z) : space_ok s pgdir l -> uaccess (k_mem s) pgdir v ->
  d <> [] -> 0 <= off -> off + Z.of_nat (length d) <= PGSIZE ->
  exists t, copyout pgdir (v * PGSIZE + off) d s = Done 0 t /\ wrote pgdir (v * PGSIZE + off) d s t l.
Proof.
  intros Hok [Hm Hu] Hd H0 H1. eexists. split; [|exact (put_wrote s pgdir v off d l Hok Hm H0 H1)].
  assert (Hlen : 0 < Z.of_nat (length d)) by (destruct d; [done|cbn; lia]). destruct (Hm) as [Hv _].
  unfold copyout. cbn [copyout_loop]. rewrite Z.gtb_ltb, (proj2 (Z.ltb_lt _ _)) by exact Hlen. cbn [negb]. cbv zeta.
  assert (Hv0 : PGROUNDDOWN (v * PGSIZE + off) = v * PGSIZE).
  { rewrite PGROUNDDOWN_eq. destruct (decide (off = PGSIZE)); [lia|]. unfold PGSIZE in *. Z.div_mod_to_equations. lia. }
  rewrite Hv0. erewrite bind_Done by (eapply uva2ka_run; [apply Hm|apply umapped_has_table, Hm|apply Hok]).
  rewrite Hu, (proj2 Hm). cbn [andb]. destruct (so_page _ _ _ Hok v Hm) as (Hp & _).
  rewrite (proj2 (Z.eqb_neq _ 0)) by (apply page_high in Hp; unfold KERNLINK, KERNBASE, EXTMEM, PHYSTOP in *; lia).
  replace (v * PGSIZE + off - v * PGSIZE) with off by lia. rewrite Z.min_r by lia. rewrite Nat2Z.id, firstn_all, drop_all.
  erewrite bind_Done by reflexivity. reflexivity.
Qed.

(** The guard page: the user may no longer access page [v]. *)
Record guarded (pgdir v : Z) (s t : kernel) (l : list Z) : Prop := {
  gd_ok : space_ok t pgdir l;
  gd_only : t = s <| k_mem := k_mem t |>;
  gd_pte : forall v', 0 <= v' < NVPAGE -> v' <> v -> pte (k_mem t) pgdir v' = pte (k_mem s) pgdir v';
  gd_page : umapped (k_mem t) pgdir v /\ user_ok (pte (k_mem t) pgdir v) = false;
  gd_frame : forall v', umapped (k_mem t) pgdir v' -> umapped (k_mem s) pgdir v' /\ frame_at (k_mem t) pgdir v' = frame_at (k_mem s) pgdir v';
  gd_read : forall x, umapped (k_mem s) pgdir (x / PGSIZE) -> uread (k_mem t) pgdir x = uread (k_mem s) pgdir x;
  gd_agree : forall w, page w -> ~ in_table (k_mem s) pgdir w -> agree (k_mem s) (k_mem t) w
}.

Lemma user_entry_guard (f : Z) : page f -> let e := Z.land (user_entry f) (Z.lnot PTE_U) in
  u32 e = e /\ present e = true /\ user_ok e = false /\ P2V (PTE_ADDR e) = f.
Proof.
  intros Hp e. destruct (page_V2P f Hp) as [Ha Hr]. assert (E : e = Z.lor (V2P f) 3).
  { unfold e, user_entry. rewrite <- lor_flags by (assumption || (unfold PGSIZE; lia)). change (Z.lnot PTE_U) with (-5). rewrite Z.land_lor_distr_l. change (Z.land 7 (-5)) with 3. f_equal.
    change (-5) with (Z.lnot 4). rewrite <- Z.ldiff_land. 
    apply Z.bits_inj'. intros n Hn. rewrite Z.ldiff_spec. destruct (decide (n = 2)) as [->|Hne].
    - rewrite <- Z.mod_pow2_bits_low with (n := 12) by lia. change (2 ^ 12) with PGSIZE. rewrite Ha. reflexivity.
    - change 4 with (2 ^ 2). rewrite Z.pow2_bits_false by congruence. apply andb_true_r. }
  rewrite E. split; [|split; [|split] ].
  - rewrite lor_flags by (assumption || (unfold PGSIZE; lia)). apply u32_small. unfold PHYSTOP in *. lia.
  - rewrite present_testbit, Z.lor_spec. apply orb_true_r.
  - rewrite user_ok_testbit, Z.lor_spec. rewrite <- Z.mod_pow2_bits_low with (n := 12) by lia. change (2 ^ 12) with PGSIZE. rewrite Ha. reflexivity.
  - apply frame_of_entry; [exact Hp|unfold PGSIZE; lia].
Qed.

Lemma clearpteu_run (s : kernel) (pgdir v : Z) (l : list Z) : space_ok s pgdir l -> umapped (k_mem s) pgdir v -> pte (k_mem s) pgdir v = user_entry (frame_at (k_mem s) pgdir v) ->
  exists t, clearpteu pgdir (v * PGSIZE) s = Done tt t /\ guarded pgdir v s t l.
Proof.
  intros Hok Hm He. pose proof (umapped_vpage _ _ _ Hm) as Hv. pose proof (umapped_has_table _ _ _ Hm) as Ht. set (f := frame_at (k_mem s) pgdir v) in *.
  destruct (so_page _ _ _ Hok v Hm) as (Hp & _). destruct (user_entry_guard f Hp) as (E1 & E2 & E3 & E4). set (e := Z.land (user_entry f) (Z.lnot PTE_U)) in *.
  pose proof (so_vm _ _ _ Hok) as Hvm. exists (set_pte v e pgdir s).
  assert (P : forall v', 0 <= v' < NVPAGE -> pte (k_mem (set_pte v e pgdir s)) pgdir v' = if decide (v' = v) then e else pte (k_mem s) pgdir v')
    by (intros v' Hv'; rewrite (set_pte_pte s pgdir v e l Hvm Hv Ht v' Hv'), E1; reflexivity).
  assert (U : forall v', umapped (k_mem (set_pte v e pgdir s)) pgdir v' <-> umapped (k_mem s) pgdir v').
  { intros v'. unfold umapped. split; intros [H1 H2]; (split; [exact H1|]); rewrite P in * by (unfold UPAGES, NVPAGE in *; lia); case_decide; subst; try assumption. apply Hm. }
  assert (F : forall v', umapped (k_mem s) pgdir v' -> frame_at (k_mem (set_pte v e pgdir s)) pgdir v' = frame_at (k_mem s) pgdir v').
  { intros v' Hv'. unfold frame_at at 1. rewrite P by exact (umapped_vpage _ _ _ Hv'). case_decide; [subst; exact E4|reflexivity]. }
  assert (A : forall w, page w -> ~ in_table (k_mem s) pgdir w -> agree (k_mem s) (k_mem (set_pte v e pgdir s)) w).
  { intros w Hw Hn. apply (set_pte_agree s pgdir v e l Hvm Hv Ht w Hw). intros ->. apply Hn. right. exists (v / 1024). split; [apply vpage_split, Hv|auto]. }
  split.
  { unfold clearpteu. assert (Ev : v * PGSIZE / PGSIZE = v) by (apply Z.div_mul; discriminate).
    erewrite bind_Done by (apply walk_hit; [destruct Hm as [Hm _]; unfold UPAGES, PGSIZE in *; lia|rewrite Ev; exact Ht]).
    rewrite Ev, (slot_nonzero s pgdir v l Hvm Hv Ht). unfold ld32. kstep. rewrite <- pte_slot, He by exact Ht. reflexivity. }
  split; [|reflexivity|intros v' Hv' Hne; rewrite P by exact Hv'; rewrite decide_False by exact Hne; reflexivity| |intros v' Hv'; apply U in Hv'; split; [exact Hv'|apply F, Hv']|intros x Hx; unfold uread; rewrite F by exact Hx|exact A].
  - split; [exact (set_pte_ok s pgdir v e l Hvm Hv Ht)| |].
    + intros v' Hv'. apply U in Hv'. rewrite F by exact Hv'. destruct (so_page _ _ _ Hok v' Hv') as (H1 & H2 & H3). split; [exact H1|split; [exact H2|] ].
      intros [Hi|(d & Hd & Hh & Hi)]; apply H3; [left; exact Hi|right]. destruct (set_pte_tables s pgdir v e l Hvm Hv Ht d Hd) as [T1 T2]. exists d. rewrite <- T1, <- T2. auto.
    + intros a b Ha Hb. apply U in Ha, Hb. rewrite !F by assumption. apply (so_inj _ _ _ Hok); assumption.
  - split; [apply U, Hm|]. rewrite P by exact Hv. rewrite decide_True by reflexivity. exact E3.
  - destruct (so_page _ _ _ Hok _ Hx) as (H1 & _ & H3). apply (A _ H1 H3). pose proof (Z.mod_pos_bound x PGSIZE eq_refl). lia.
Qed.

End Access.

(** ** The slot of the new thread *)

Section Create.
Context {L : Linker}.

(** The size of the process before its first thread, and the slot, 1 to 99,
    of the next one; its stack ends at [stack_top]. *)
Definition orig_size (pr : proc) : Z := if osz pr =? 0 then PGROUNDUP (sz pr) else osz pr.
Definition thread_slot (pr : proc) : Z := free_slot (thread pr).
Definition stack_page (pr : proc) : Z := orig_size pr / PGSIZE + 2 * (thread_slot pr - 1).
Definition stack_top (pr : proc) : Z := (stack_page pr + 2) * PGSIZE.

(** The maker with the slot taken for the thread with number [n]. *)
Definition slot_taken (n : Z) (pr : proc) : proc :=
  let i := thread_slot pr in
  pr <| osz := orig_size pr |> <| thread ::= <[Z.to_nat i := 1]> |> <| thread_p ::= <[Z.to_nat i := n]> |>
     <| mtid := if mtid pr <=? i then i else mtid pr |>.

Lemma upd_second (c np : nat) (f : proc -> proc) (x y : proc) (P : list proc) (s : kernel) : c <> np -> (c < length P)%nat ->
  k_procs s = <[np := x]> (<[c := y]> P) -> upd_proc c f s = Done tt (s <| k_procs := <[np := x]> (<[c := f y]> P) |>).
Proof.
  intros Hne Hc E. rewrite (upd_slot c f y (<[np := x]> P)).
  - rewrite list_insert_insert_ne by congruence. reflexivity.
  - rewrite length_insert. exact Hc.
  - rewrite E. apply list_insert_insert_ne. congruence.
Qed.

Lemma second_at (c np : nat) (x y : proc) (P : list proc) : c <> np -> (c < length P)%nat -> <[np := x]> (<[c := y]> P) !! c = Some y.
Proof. intros Hne Hc. rewrite list_lookup_insert_ne by congruence. apply list_lookup_insert_eq, Hc. Qed.

Lemma thread_slot_pos (pr : proc) : 1 <= thread_slot pr.
Proof. unfold thread_slot, free_slot. destruct (find_idx _ _); [lia|vm_compute; discriminate]. Qed.

Lemma mapper_run (c np : nat) (x y : proc) (P : list proc) (s : kernel) : c <> np -> (c < length P)%nat -> (np < length P)%nat ->
  k_procs s = <[np := x]> (<[c := y]> P) -> osz y = orig_size y -> thread_slot y < Z.of_nat NTHREAD ->
  mapper c np s = Done (thread_slot y) (s <| k_procs := <[np := x]> (<[c := slot_taken (pid x) y]> P) |>).
Proof.
  intros Hne Hc Hnp E Ho Hi. unfold mapper. erewrite (bind_Done (proc_at c)) by (apply proc_at_some; rewrite E; apply second_at; assumption).
  erewrite (bind_Done (proc_at np)) by (apply proc_at_some; rewrite E; apply list_lookup_insert_eq; rewrite length_insert; exact Hnp).
  fold (thread_slot y). cbv zeta. rewrite (proj2 (Z.ltb_lt _ _)) by exact Hi. unfold when.
  rewrite (bind_Done _ _ _ _ _ (upd_second c np _ x y P s Hne Hc E)). unfold mret, M_ret, slot_taken. rewrite <- Ho. destruct y. reflexivity.
Qed.

Lemma orig_size_set (pr : proc) : orig_size (pr <| osz := orig_size pr |>) = orig_size pr.
Proof. unfold orig_size. cbn. destruct (osz pr =? 0) eqn:E; [destruct (PGROUNDUP (sz pr) =? 0); reflexivity|rewrite E; reflexivity]. Qed.

(** Up to the allocation of the stack. *)
Lemma create_prepares (s s1 s2 : kernel) (c np : nat) (pr e : proc) (P : list proc) (w : nat) (th start arg : Z) : k_cur s = Some c ->
  allocproc s = Done (Some np) s1 -> k_procs s1 = <[np := e]> P -> ustore32 th (pid e) s1 = Done tt s2 -> k_procs s2 = <[np := e]> P -> k_held s2 = [] ->
  P !! c = Some pr -> c <> np -> (np < length P)%nat -> ofile e = replicate NOFILE None ->
  length (ofile pr) = NOFILE -> files_ok (ofile pr) (k_files s2) -> cwd pr = Some w -> thread_slot pr < Z.of_nat NTHREAD ->
  exists G', more_refs (ofile pr) (k_files s2) G' /\
    thread_create_os th start arg s = create_stack c np (thread_slot pr) start arg
      (s2 <| k_files := G' |> <| k_inodes ::= alter (fun ip => ip <| iref := s32 (iref ip + 1) |>) w |>
          <| k_procs := <[np := set_name (name pr) (e <| tf := tf pr |> <| sz := sz pr |> <| parent := Some c |> <| ofile := ofile pr |> <| cwd := Some w |>)
                                  <| tid := thread_slot pr |>]> (<[c := slot_taken (pid e) pr]> P) |>).
Proof.
  intros Hc Ea Ep1 Es Ep2 Hh HP Hne Hnp He Hl Hf Hw Hi.
  assert (Hlk : forall x, <[np := x]> P !! c = Some pr) by (intros x; rewrite list_lookup_insert_ne by congruence; exact HP).
  pose proof (lookup_lt_Some _ _ _ HP) as Hcl. assert (HcP : <[c := pr]> P = P) by (apply list_insert_id, HP).
  set (q := e <| tf := tf pr |> <| sz := sz pr |> <| parent := Some c |>).
  destruct (dup_files_run c np pr q P s2 Hh HP Hne Hnp (ofile pr) [] (k_files s2) eq_refl Hf) as (G' & Ed & Hm). exists G'. split; [exact Hm|].
  unfold thread_create_os. erewrite (bind_Done curproc) by (unfold curproc, mbind, M_bind, get; cbn; rewrite Hc; reflexivity). rewrite (bind_Done _ _ _ _ _ Ea).
  erewrite (bind_Done (proc_at np)) by (apply proc_at_some; rewrite Ep1; apply list_lookup_insert_eq, Hnp). rewrite (bind_Done _ _ _ _ _ Es).
  erewrite (bind_Done (proc_at c)) by (apply proc_at_some; rewrite Ep2; apply Hlk).
  rewrite (bind_Done _ _ _ _ _ (upd_slot np _ e P s2 Hnp Ep2)).
  erewrite (bind_Done (dup_files c np)).
  2: { unfold dup_files. rewrite <- Hl. refine (eq_trans _ Ed). cbn [length app]. rewrite Hl, <- He. reflexivity. }
  rewrite Hw. erewrite (bind_Done (deref _)) by reflexivity. erewrite (bind_Done (idup w)) by (apply idup_run; exact Hh). slot_step P. slot_step P.
  match goal with |- context [<[np := ?x]> P] => set (x0 := x) end.
  match goal with |- context [(when _ _ ≫= _) ?st] => set (s3 := st) end.
  erewrite (bind_Done (when _ _) _ s3 (s3 <| k_procs := <[np := x0]> (<[c := pr <| osz := orig_size pr |>]> P) |>)).
  2: { unfold orig_size, when. destruct (osz pr =? 0).
       - rewrite (upd_second c np _ x0 pr P s3 Hne Hcl); [reflexivity|]. rewrite HcP. reflexivity.
       - unfold mret, M_ret. replace (pr <| osz := osz pr |>) with pr by (destruct pr; reflexivity). rewrite HcP. reflexivity. }
  assert (Hlen : (np < length (<[c := slot_taken (pid e) pr]> P))%nat) by (rewrite length_insert; exact Hnp).
  erewrite (bind_Done (mapper c np)) by (apply (mapper_run c np x0 (pr <| osz := orig_size pr |>) P); [assumption..|reflexivity|symmetry; apply orig_size_set|exact Hi]).
  assert (Et : slot_taken (pid x0) (pr <| osz := orig_size pr |>) = slot_taken (pid e) pr) by (unfold slot_taken; rewrite orig_size_set; reflexivity).
  rewrite Et. slot_step (<[c := slot_taken (pid e) pr]> P). reflexivity.
Qed.

(** ** The stack *)

Lemma user_entry_user (f : Z) : page f -> user_ok (user_entry f) = true.
Proof. intros Hp. rewrite user_ok_testbit. unfold user_entry. rewrite <- lor_flags by (apply page_V2P, Hp || (unfold PGSIZE; lia)). rewrite Z.lor_spec. apply orb_true_r. Qed.

(** Pages [b] and [b+1] of the address space [d] are the guard page and the
    stack of a new thread; the rest of the address space is as before. *)
Record stack_made (d b arg : Z) (m : gmap Z Z) (t : kernel) (l l' : list Z) : Prop := {
  sm_ok : space_ok t d l';
  sm_free : l' ⊆ l;
  sm_guard : umapped (k_mem t) d b /\ user_ok (pte (k_mem t) d b) = false;
  sm_stack : uaccess (k_mem t) d (b + 1);
  sm_args : forall i, 0 <= i < 16 -> uread (k_mem t) d ((b + 2) * PGSIZE - 16 + i) =
    byte_at ((le32 0xffffffff ++ le32 arg ++ le32 0) ++ map (uread (k_mem t) d) (seqZ arg 4)) i;
  sm_zero : forall x, (b + 1) * PGSIZE <= x < (b + 2) * PGSIZE - 16 -> uread (k_mem t) d x = 0;
  sm_old : forall x, umapped m d (x / PGSIZE) -> uread (k_mem t) d x = uread m d x;
  sm_pte : forall v, 0 <= v < NVPAGE -> v <> b -> v <> b + 1 -> pte (k_mem t) d v = pte m d v;
  sm_other : forall w, page w -> w ∉ l -> ~ in_table m d w -> (forall v, umapped m d v -> w <> frame_at m d v) -> agree m (k_mem t) w
}.

Section Stack.
Context (d b arg : Z) (s g g1 g2 g3 : kernel) (l l' : list Z) (data : list Z).
Context (Hb : 0 <= b) (Hb2 : b + 2 <= UPAGES) (Hok : space_ok s d l).
Context (Hnew : forall v, b <= v < b + 2 -> present (pte (k_mem s) d v) = false).
Context (G : grown d b (b + 2) s g l l') (G1 : guarded d b g g1 l') (Hd : length data = 4%nat).
Context (W2 : wrote d ((b + 1) * PGSIZE + (PGSIZE - 4)) data g1 g2 l').
Context (W3 : wrote d ((b + 1) * PGSIZE + (PGSIZE - 16)) (le32 0xffffffff ++ le32 arg ++ le32 0) g2 g3 l').

Lemma old_page (v : Z) : umapped (k_mem s) d v -> ~ (b <= v < b + 2).
Proof. intros [_ Hm] Hv. rewrite Hnew in Hm by exact Hv. discriminate. Qed.

Lemma g_old (v : Z) : umapped (k_mem s) d v -> umapped (k_mem g) d v /\ frame_at (k_mem g) d v = frame_at (k_mem s) d v.
Proof.
  intros Hv. pose proof (gr_pte _ _ _ _ _ _ _ G v (umapped_vpage _ _ _ Hv) (old_page v Hv)) as E. unfold umapped, frame_at. rewrite E. split; [exact Hv|reflexivity].
Qed.

Lemma g1_mapped (v : Z) : umapped (k_mem g) d v -> umapped (k_mem g1) d v.
Proof.
  intros Hv. destruct (decide (v = b)) as [->|Hne]; [apply (gd_page _ _ _ _ _ G1)|]. unfold umapped. rewrite (gd_pte _ _ _ _ _ G1 v (umapped_vpage _ _ _ Hv) Hne). exact Hv.
Qed.

Lemma g2_mapped (v : Z) : umapped (k_mem g) d v -> umapped (k_mem g2) d v.
Proof. intros Hv. apply (wrote_umapped _ _ _ _ _ _ _ W2), g1_mapped, Hv. Qed.

(** What is read at the end, in terms of the new pages. *)
Lemma stack_read (x : Z) : umapped (k_mem g) d (x / PGSIZE) ->
  uread (k_mem g3) d x = if decide ((b + 2) * PGSIZE - 16 <= x < (b + 2) * PGSIZE - 4) then byte_at (le32 0xffffffff ++ le32 arg ++ le32 0) (x - ((b + 2) * PGSIZE - 16))
    else if decide ((b + 2) * PGSIZE - 4 <= x < (b + 2) * PGSIZE) then byte_at data (x - ((b + 2) * PGSIZE - 4)) else uread (k_mem g) d x.
Proof.
  intros Hx. rewrite (wo_read _ _ _ _ _ _ W3) by (apply g2_mapped, Hx). rewrite (wo_read _ _ _ _ _ _ W2) by (apply g1_mapped, Hx). rewrite (gd_read _ _ _ _ _ G1) by exact Hx. rewrite Hd.
  replace ((b + 1) * PGSIZE + (PGSIZE - 16)) with ((b + 2) * PGSIZE - 16) by lia. replace ((b + 1) * PGSIZE + (PGSIZE - 4)) with ((b + 2) * PGSIZE - 4) by lia.
  cbn [length le32 app]. replace ((b + 2) * PGSIZE - 16 + Z.of_nat 12) with ((b + 2) * PGSIZE - 4) by lia. replace ((b + 2) * PGSIZE - 4 + Z.of_nat 4) with ((b + 2) * PGSIZE) by lia. reflexivity.
Qed.

Lemma stack_div (x : Z) : (b + 1) * PGSIZE <= x < (b + 2) * PGSIZE -> x / PGSIZE = b + 1.
Proof. intros Hx. symmetry. apply (Z.div_unique x PGSIZE (b + 1) (x - (b + 1) * PGSIZE)); unfold PGSIZE in *; lia. Qed.

Lemma stack_old (x : Z) : umapped (k_mem s) d (x / PGSIZE) -> uread (k_mem g3) d x = uread (k_mem s) d x.
Proof.
  intros Hx. assert (Hn : ~ ((b + 1) * PGSIZE <= x < (b + 2) * PGSIZE)) by (intros Hr; apply (old_page _ Hx); rewrite (stack_div x Hr); lia).
  destruct (g_old _ Hx) as [Hm Hf]. rewrite stack_read by exact Hm. rewrite !decide_False by (unfold PGSIZE in *; lia).
  unfold uread. rewrite Hf. destruct (so_page _ _ _ Hok _ Hx) as (P1 & P2 & P3). apply (gr_agree _ _ _ _ _ _ _ G _ P1 P2 P3). pose proof (Z.mod_pos_bound x PGSIZE eq_refl). lia.
Qed.

Lemma stack_is_made : data = map (uread (k_mem g1) d) (seqZ arg 4) -> readable s d arg 4 -> stack_made d b arg (k_mem s) g3 l l'.
Proof.
  intros Ed (A0 & A1 & A2). destruct (gr_new _ _ _ _ _ _ _ G (b + 1) ltac:(lia)) as (N1 & N2 & N3 & N4).
  assert (Hpte : forall v, 0 <= v < NVPAGE -> v <> b -> pte (k_mem g3) d v = pte (k_mem g) d v)
    by (intros v Hv Hne; rewrite (wo_pte _ _ _ _ _ _ W3), (wo_pte _ _ _ _ _ _ W2), (gd_pte _ _ _ _ _ G1) by assumption; reflexivity).
  assert (Hs : forall x, (b + 1) * PGSIZE <= x < (b + 2) * PGSIZE -> umapped (k_mem g) d (x / PGSIZE)) by (intros x Hx; rewrite (stack_div x Hx); exact N1).
  assert (Hdata : data = map (uread (k_mem g3) d) (seqZ arg 4)).
  { rewrite Ed. apply map_ext_in. intros x Hx. apply list_elem_of_In, elem_of_seqZ in Hx. rewrite stack_old by (apply A2; lia).
    destruct (g_old _ (A2 x ltac:(lia))) as [Hm _]. rewrite (gd_read _ _ _ _ _ G1 x Hm). pose proof (stack_old x (A2 x ltac:(lia))) as E.
    rewrite stack_read in E by exact Hm. assert (Hn : ~ ((b + 1) * PGSIZE <= x < (b + 2) * PGSIZE)) by (intros Hr; apply (old_page _ (A2 x ltac:(lia))); rewrite (stack_div x Hr); lia).
    rewrite !decide_False in E by (unfold PGSIZE in *; lia). exact E. }
  split.
  - exact (wo_ok _ _ _ _ _ _ W3).
  - destruct (gr_free _ _ _ _ _ _ _ G) as [l0 ->]. set_solver.
  - pose proof (gd_page _ _ _ _ _ G1) as [M1 M2]. destruct (wrote_umapped _ _ _ _ _ _ _ W2 M1) as [M3 _]. destruct (wrote_umapped _ _ _ _ _ _ _ W3 M3) as [M4 _]. split; [exact M4|].
    rewrite (wo_pte _ _ _ _ _ _ W3), (wo_pte _ _ _ _ _ _ W2) by exact (umapped_vpage _ _ _ M1). exact M2.
  - unfold uaccess, umapped. rewrite Hpte by (try lia; exact (umapped_vpage _ _ _ N1)). split; [exact N1|]. rewrite N2.
    destruct (so_page _ _ _ (gr_ok _ _ _ _ _ _ _ G) _ N1) as (Hp & _). exact (user_entry_user _ Hp).
  - intros i Hi. rewrite <- Hdata. rewrite stack_read by (apply Hs; unfold PGSIZE in *; lia). unfold byte_at.
    assert (E12 : length (le32 0xffffffff ++ le32 arg ++ le32 0) = 12%nat) by reflexivity.
    set (d12 := le32 0xffffffff ++ le32 arg ++ le32 0) in *. destruct (decide (i < 12)).
    + rewrite decide_True by lia. rewrite lookup_app_l by lia. do 2 f_equal. lia.
    + rewrite decide_False, decide_True by lia. rewrite lookup_app_r by lia. rewrite E12. do 2 f_equal. lia.
  - intros x Hx. rewrite stack_read by (apply Hs; unfold PGSIZE in *; lia). rewrite !decide_False by lia. unfold uread. rewrite stack_div by lia. apply N4. apply Z.mod_pos_bound. reflexivity.
  - exact stack_old.
  - intros v Hv H1 H2. rewrite Hpte by assumption. apply (gr_pte _ _ _ _ _ _ _ G v Hv). lia.
  - intros w Hw Hl Ht Hf. assert (Hg : forall v, umapped (k_mem g) d v -> w <> frame_at (k_mem g) d v).
    { intros v Hv. destruct (decide (b <= v < b + 2)) as [Hr|Hr].
      - destruct (gr_new _ _ _ _ _ _ _ G v Hr) as (_ & _ & Hin & _). intros ->. contradiction.
      - assert (Hv' : umapped (k_mem s) d v) by (unfold umapped in *; rewrite <- (gr_pte _ _ _ _ _ _ _ G v) by (exact Hr || (unfold UPAGES, NVPAGE in *; lia)); exact Hv).
        rewrite (proj2 (g_old v Hv')). apply Hf, Hv'. }
    assert (Hg1 : forall v, umapped (k_mem g1) d v -> w <> frame_at (k_mem g1) d v) by (intros v Hv; destruct (gd_frame _ _ _ _ _ G1 v Hv) as [Hv1 ->]; apply Hg, Hv1).
    assert (Hg2 : forall v, umapped (k_mem g2) d v -> w <> frame_at (k_mem g2) d v)
      by (intros v Hv; pose proof (wrote_umapped_inv _ _ _ _ _ _ _ W2 Hv) as Hv1; rewrite (proj2 (wrote_umapped _ _ _ _ _ _ _ W2 Hv1)); apply Hg1, Hv1).
    eapply agree_trans; [exact (gr_agree _ _ _ _ _ _ _ G w Hw Hl Ht)|]. eapply agree_trans; [apply (gd_agree _ _ _ _ _ G1 w Hw)|].
    { intros Hi. destruct (gr_table _ _ _ _ _ _ _ G w Hi); contradiction. }
    eapply agree_trans; [exact (wo_agree _ _ _ _ _ _ W2 w Hw Hg1)|exact (wo_agree _ _ _ _ _ _ W3 w Hw Hg2)].
Qed.

End Stack.

Lemma word_aligned (x : Z) : x mod 4 = 0 -> Z.land x (Z.lnot 3) = x.
Proof.
  intros H. rewrite <- Z.ldiff_land. change 3 with (Z.ones 2). rewrite Z.ldiff_ones_r by lia. rewrite Z.shiftl_mul_pow2, Z.shiftr_div_pow2 by lia.
  change (2 ^ 2) with 4. Z.div_mod_to_equations. lia.
Qed.

Lemma failed_console (d a b : Z) (s t u : kernel) (l l' x : list Z) : alloc_failed d a b s t l l' x -> console_only t u -> alloc_failed d a b s u l l' x.
Proof.
  intros [O T Co G P A B F U] [E C]. assert (Em : k_mem u = k_mem t) by (rewrite E; reflexivity). split; rewrite ?Em; try assumption.
  - apply (space_ok_ext t); [exact Em|rewrite E; reflexivity|exact O].
  - rewrite E, T. reflexivity.
Qed.

(** The new thread and its maker. *)
Definition thread_ready (d top start : Z) (x : proc) : proc :=
  (x <| pgdir := d |> <| sz := top |>) <| tf ::= fun t => t <| tf_eip := start |> <| tf_esp := top - 16 |> |> <| state := RUNNABLE |>.

Definition maker_grown (y : proc) : proc := y <| sz := u32 (osz y + 2 * mtid y * PGSIZE) |>.

Lemma finish_run (g : kernel) (c np : nat) (x y : proc) (P : list proc) (d top start : Z) : k_held g = [] -> k_procs g = <[np := x]> (<[c := y]> P) ->
  c <> np -> (c < length P)%nat -> (np < length P)%nat ->
  (upd_proc np (fun q => q <| pgdir := d |> <| sz := top |>);;
   upd_proc c (fun pr => pr <| sz := u32 (osz pr + 2 * mtid pr * PGSIZE) |>);;
   upd_proc np (fun q => q <| tf ::= fun t => t <| tf_eip := start |> <| tf_esp := top - 16 |> |>);;
   acquire ptable_lock;;
   upd_proc np (fun q => q <| state := RUNNABLE |>);;
   release ptable_lock;;
   mret 0) g = Done 0 (g <| k_procs := <[np := thread_ready d top start x]> (<[c := maker_grown y]> P) |>).
Proof.
  intros Hh Ep Hne Hc Hnp.
  assert (Hnp' : (np < length (<[c := y]> P))%nat) by (rewrite length_insert; exact Hnp).
  assert (Hnp2 : (np < length (<[c := maker_grown y]> P))%nat) by (rewrite length_insert; exact Hnp).
  erewrite (bind_Done (upd_proc np _)) by (apply (upd_slot np _ x (<[c := y]> P)); [exact Hnp'|exact Ep]).
  erewrite (bind_Done (upd_proc c _)) by (eapply (upd_second c np _ _ y P); [exact Hne|exact Hc|reflexivity]). fold (maker_grown y).
  slot_step (<[c := maker_grown y]> P). erewrite (bind_Done (acquire _)) by (apply acquire_free; cbn; rewrite Hh; set_solver).
  slot_step (<[c := maker_grown y]> P). erewrite (bind_Done (release _)) by (apply (release_head ptable_lock []); [cbn; rewrite Hh; reflexivity|set_solver]).
  unfold mret, M_ret. f_equal. rewrite <- Hh. reflexivity.
Qed.

Lemma create_stack_run (u : kernel) (c np : nat) (x y : proc) (P : list proc) (b t start arg : Z) (l : list Z) : k_held u = [] -> console_ok u ->
  k_procs u = <[np := x]> (<[c := y]> P) -> c <> np -> (c < length P)%nat -> (np < length P)%nat ->
  space_ok u (pgdir y) l -> P2V (k_cr3 u) = pgdir y -> readable u (pgdir y) arg 4 ->
  osz y + 2 * (t - 1) * PGSIZE = b * PGSIZE -> 0 <= b -> b + 2 < UPAGES ->
  (forall v, b <= v < b + 2 -> present (pte (k_mem u) (pgdir y) v) = false) ->
  exists v l',
    (create_stack c np t start arg u = Done 0 (v <| k_procs := <[np := thread_ready (pgdir y) ((b + 2) * PGSIZE) start x]> (<[c := maker_grown y]> P) |>) /\
       mem_only u v /\ stack_made (pgdir y) b arg (k_mem u) v l l') \/
    (create_stack c np t start arg u = Done (-1) v /\ alloc_failed (pgdir y) b (b + 2) u v l l' []).
Proof.
  intros Hh Hco Ep Hne Hc Hnp Hok Hcr Harg Hb Hb0 Hb2 Hnew. set (d := pgdir y) in *.
  assert (Hr : 0 <= b * PGSIZE /\ (b + 2) * PGSIZE < KERNBASE) by (unfold UPAGES, PGSIZE, KERNBASE in *; lia).
  assert (En : npages (b * PGSIZE) = b /\ npages ((b + 2) * PGSIZE) = b + 2) by (unfold npages, PGSIZE; split; Z.div_mod_to_equations; lia).
  unfold create_stack. erewrite (bind_Done (proc_at c)) by (apply proc_at_some; rewrite Ep; apply second_at; assumption). fold d. rewrite Hb.
  assert (Eb : PGROUNDUP (u32 (b * PGSIZE)) = b * PGSIZE) by (rewrite u32_small by (unfold KERNBASE, PGSIZE in *; lia); rewrite npages_roundup by (unfold PGSIZE in *; lia); rewrite (proj1 En); reflexivity).
  cbv zeta. rewrite Eb. replace (b * PGSIZE + 2 * PGSIZE) with ((b + 2) * PGSIZE) by lia. rewrite (u32_small ((b + 2) * PGSIZE)) by (unfold KERNBASE, PGSIZE in *; lia).
  destruct (allocuvm_run d (b * PGSIZE) ((b + 2) * PGSIZE) u l Hok) as (r & g & l' & Ea & Hres); [rewrite Hh; set_solver|rewrite Hh; set_solver|exact Hco|unfold PGSIZE in *; lia|lia|rewrite !(proj1 En), !(proj2 En); exact Hnew|].
  rewrite (bind_Done _ _ _ _ _ Ea). unfold alloc_result in Hres. rewrite !(proj1 En), !(proj2 En) in Hres. destruct Hres as [ [-> G]|[-> Fl] ].
  2: { destruct (cprintf_run ("allocuvm: error!" ++ nl) [] g eq_refl (af_console _ _ _ _ _ _ _ _ Fl)) as (v & Ev & Cv); [rewrite (af_only _ _ _ _ _ _ _ _ Fl); cbn; rewrite Hh; set_solver|].
       exists v, l'. right. rewrite Z.eqb_refl. rewrite (bind_Done _ _ _ _ _ Ev). split; [reflexivity|exact (failed_console _ _ _ _ _ _ _ _ _ Fl Cv)]. }
  rewrite (proj2 (Z.eqb_neq _ 0)) by (unfold PGSIZE in *; lia). pose proof (gr_only _ _ _ _ _ _ _ G) as Tg.
  replace (u32 ((b + 2) * PGSIZE - 2 * PGSIZE)) with (b * PGSIZE) by (rewrite u32_small; unfold KERNBASE, PGSIZE in *; lia).
  destruct (gr_new _ _ _ _ _ _ _ G b ltac:(lia)) as (N1 & N2 & _).
  destruct (clearpteu_run g d b l' (gr_ok _ _ _ _ _ _ _ G) N1 N2) as (g1 & E1 & G1). rewrite (bind_Done _ _ _ _ _ E1).
  assert (Harg1 : readable g1 d arg 4).
  { destruct Harg as (A0 & A1 & A2). split; [exact A0|split; [exact A1|] ]. intros z Hz. apply (g1_mapped d b g g1 l' G1), (g_old d b u g l l' Hnew G), A2, Hz. }
  assert (Hcr1 : P2V (k_cr3 g1) = d) by (rewrite (gd_only _ _ _ _ _ G1), Tg; exact Hcr).
  rewrite (bind_Done _ _ _ _ _ (uload_run d 4 arg g1 Hcr1 Harg1)). set (data := map _ _).
  assert (Hd : length data = 4%nat) by (unfold data; rewrite length_map; reflexivity).
  assert (Esp : Z.land (u32 ((b + 2) * PGSIZE - 4)) (Z.lnot 3) = (b + 1) * PGSIZE + (PGSIZE - 4)).
  { rewrite u32_small by (unfold KERNBASE, PGSIZE in *; lia). rewrite word_aligned by (unfold PGSIZE; Z.div_mod_to_equations; lia). lia. }
  rewrite Esp. destruct (gr_new _ _ _ _ _ _ _ G (b + 1) ltac:(lia)) as (N1' & N2' & _). destruct (so_page _ _ _ (gr_ok _ _ _ _ _ _ _ G) _ N1') as (Hp & _).
  assert (Hacc : uaccess (k_mem g1) d (b + 1)).
  { split; [exact (g1_mapped d b g g1 l' G1 _ N1')|]. rewrite (gd_pte _ _ _ _ _ G1) by (lia || exact (umapped_vpage _ _ _ N1')). rewrite N2'. exact (user_entry_user _ Hp). }
  destruct (copyout_page g1 d (b + 1) (PGSIZE - 4) data l' (gd_ok _ _ _ _ _ G1) Hacc) as (g2 & E2 & W2); [intros En'; rewrite En' in Hd; discriminate|unfold PGSIZE; lia|rewrite Hd; lia|].
  rewrite (bind_Done _ _ _ _ _ E2). change (0 <? 0) with false. cbv iota.
  replace (u32 ((b + 1) * PGSIZE + (PGSIZE - 4) - 3 * 4)) with ((b + 1) * PGSIZE + (PGSIZE - 16)) by (rewrite u32_small; unfold KERNBASE, PGSIZE in *; lia).
  assert (Hacc2 : uaccess (k_mem g2) d (b + 1)).
  { split; [exact (proj1 (wrote_umapped _ _ _ _ _ _ _ W2 (proj1 Hacc)))|]. rewrite (wo_pte _ _ _ _ _ _ W2) by exact (umapped_vpage _ _ _ N1'). exact (proj2 Hacc). }
  destruct (copyout_page g2 d (b + 1) (PGSIZE - 16) (le32 0xffffffff ++ le32 arg ++ le32 0) l' (wo_ok _ _ _ _ _ _ W2) Hacc2) as (g3 & E3 & W3); [discriminate|unfold PGSIZE; lia|cbn [length le32 app]; unfold PGSIZE; lia|].
  rewrite (bind_Done _ _ _ _ _ E3). change (0 <? 0) with false. cbv iota.
  assert (T3 : mem_only u g3) by (unfold mem_only; rewrite (wo_only _ _ _ _ _ _ W3), (wo_only _ _ _ _ _ _ W2), (gd_only _ _ _ _ _ G1), Tg; reflexivity).
  exists g3, l'. left. split; [|split; [exact T3|apply (stack_is_made d b arg u g g1 g2 g3 l l' data); try assumption; try lia; reflexivity] ].
  assert (H3 : k_held g3 = []) by (rewrite T3; exact Hh). assert (P3 : k_procs g3 = <[np := x]> (<[c := y]> P)) by (rewrite T3; exact Ep).
  rewrite <- (finish_run g3 c np x y P d ((b + 2) * PGSIZE) start H3 P3 Hne Hc Hnp). replace ((b + 2) * PGSIZE - 16) with ((b + 1) * PGSIZE + (PGSIZE - 16)) by lia. reflexivity.
Qed.

(** mappages on a page that is mapped. *)
Lemma mappages_remap (d v pa perm : Z) (s : kernel) (l : list Z) : space_ok s d l -> 0 <= v < NVPAGE - 1 ->
  present (pte (k_mem s) d v) = true -> mappages d (v * PGSIZE) PGSIZE pa perm s = Halt (Panic "remap").
Proof.
  intros Hok Hv Hm. unfold mappages. rewrite !PGROUNDDOWN_eq. rewrite (u32_small (v * PGSIZE)) by (unfold PGSIZE, NVPAGE in *; lia).
  rewrite Z.mod_mul, Z.sub_0_r by discriminate. cbn [mappages_loop].
  assert (Ht : has_table (k_mem s) d (v / 1024) = true) by (unfold pte in Hm; destruct (has_table _ _ _); [reflexivity|discriminate]).
  assert (Ev : v * PGSIZE / PGSIZE = v) by (apply Z.div_mul; discriminate).
  erewrite bind_Done by (apply walk_hit; [unfold NVPAGE, PGSIZE in *; lia|rewrite Ev; exact Ht]).
  rewrite Ev, (slot_nonzero s d v l) by (exact Ht || exact (so_vm _ _ _ Hok) || lia). unfold ld32. kstep. rewrite <- pte_slot by exact Ht. rewrite Hm. reflexivity.
Qed.

(** A page of the new stack that is mapped already stops the kernel. *)
Lemma create_stack_remap (u : kernel) (c np : nat) (y : proc) (b t start arg f : Z) (l : list Z) : k_held u = [] ->
  k_procs u !! c = Some y -> space_ok u (pgdir y) (f :: l) -> osz y + 2 * (t - 1) * PGSIZE = b * PGSIZE -> 0 <= b -> b + 2 < UPAGES ->
  present (pte (k_mem u) (pgdir y) b) = true -> create_stack c np t start arg u = Halt (Panic "remap").
Proof.
  intros Hh Hy Hok Hb Hb0 Hb2 Hm. set (d := pgdir y) in *.
  assert (Hr : 0 <= b * PGSIZE /\ (b + 2) * PGSIZE < KERNBASE) by (unfold UPAGES, PGSIZE, KERNBASE in *; lia).
  assert (En : PGROUNDUP (b * PGSIZE) = b * PGSIZE) by (rewrite npages_roundup by (unfold PGSIZE in *; lia); unfold npages, PGSIZE; Z.div_mod_to_equations; lia).
  unfold create_stack. rewrite (bind_Done _ _ _ _ _ (proc_at_some _ _ _ Hy)). fold d. rewrite Hb. cbv zeta.
  rewrite (u32_small (b * PGSIZE)) by (unfold KERNBASE, PGSIZE in *; lia). rewrite En. replace (b * PGSIZE + 2 * PGSIZE) with ((b + 2) * PGSIZE) by lia.
  rewrite (u32_small ((b + 2) * PGSIZE)) by (unfold KERNBASE, PGSIZE in *; lia). apply bind_Halt. unfold allocuvm.
  rewrite Z.geb_leb, (proj2 (Z.leb_gt _ _)) by lia. rewrite (proj2 (Z.ltb_ge _ _)) by (unfold PGSIZE in *; lia). rewrite En.
  cbn [allocuvm_loop]. rewrite (proj2 (Z.ltb_lt (b * PGSIZE) _)) by (unfold PGSIZE in *; lia). cbn [negb].
  destruct (kalloc_free_pages u _ (vo_free _ _ _ (so_vm _ _ _ Hok)) ltac:(rewrite Hh; set_solver)) as (Hp & _ & Ek & _).
  erewrite bind_Done by exact Ek.
  rewrite (proj2 (Z.eqb_neq f 0)) by (apply page_high in Hp; unfold KERNLINK, KERNBASE, EXTMEM, PHYSTOP in *; lia).
  unfold mem_set. kstep. change (upd k_mem _ _) with (take_page u f (memset f 0 PGSIZE (k_mem u))).
  assert (Ha : forall w, page w -> w <> f -> agree (k_mem u) (memset f 0 PGSIZE (k_mem u)) w) by (intros w Hw Hne; apply agree_memset; assumption).
  apply bind_Halt. apply (mappages_remap _ _ _ _ _ l (take_page_ok u d f l _ Hok Ha)); [unfold UPAGES, NVPAGE in *; lia|].
  cbn [take_page k_mem]. refine (eq_trans (f_equal present (take_page_pte u d f l _ Hok Ha b _)) Hm). unfold UPAGES, NVPAGE in *. lia.
Qed.

(** ** thread_create *)

(** Process [c] can make a thread: its memory is in use, its files are open,
    one of its [NTHREAD] slots is free, and the addresses [th], for the number,
    and [arg] are mapped. *)
Record can_create (s : kernel) (c : nat) (pr : proc) (l : list Z) (th arg : Z) : Prop := {
  cc_held : k_held s = [];
  cc_console : console_ok s;
  cc_cur : k_cur s = Some c;
  cc_proc : k_procs s !! c = Some pr;
  cc_used : state pr <> UNUSED;
  cc_space : space_ok s (pgdir pr) l;
  cc_cr3 : P2V (k_cr3 s) = pgdir pr;
  cc_slot : thread_slot pr < Z.of_nat NTHREAD;
  cc_size : 0 <= orig_size pr /\ orig_size pr mod PGSIZE = 0;
  cc_top : stack_top pr < KERNBASE;
  cc_th : writable s (pgdir pr) th 4;
  cc_arg : readable s (pgdir pr) arg 4;
  cc_nofile : length (ofile pr) = NOFILE;
  cc_files : files_ok (ofile pr) (k_files s);
  cc_cwd : is_Some (cwd pr);
  cc_free : forall i q, k_procs s !! i = Some q -> state q = UNUSED -> ofile q = replicate NOFILE None
}.

(** The address space afterwards: number [n] is stored at [th]; above a guard
    page there is a stack with the return address, the argument and, above
    them, the word the argument points to. *)
Record thread_space (m : gmap Z Z) (t : kernel) (pr : proc) (th n arg ks : Z) (l : list Z) : Prop := {
  ts_ok : exists l', space_ok t (pgdir pr) l' /\ (ks ∉ l') /\ l' ⊆ l;
  ts_guard : umapped (k_mem t) (pgdir pr) (stack_page pr) /\ user_ok (pte (k_mem t) (pgdir pr) (stack_page pr)) = false;
  ts_stack : uaccess (k_mem t) (pgdir pr) (stack_page pr + 1);
  ts_args : forall i, 0 <= i < 16 -> uread (k_mem t) (pgdir pr) (stack_top pr - 16 + i) =
    byte_at ((le32 0xffffffff ++ le32 arg ++ le32 0) ++ map (uread (k_mem t) (pgdir pr)) (seqZ arg 4)) i;
  ts_zero : forall x, stack_top pr - PGSIZE <= x < stack_top pr - 16 -> uread (k_mem t) (pgdir pr) x = 0;
  ts_old : forall x, umapped m (pgdir pr) (x / PGSIZE) ->
    uread (k_mem t) (pgdir pr) x = if decide (th <= x < th + 4) then byte_at (le32 n) (x - th) else uread m (pgdir pr) x;
  ts_pte : forall v, 0 <= v < NVPAGE -> v <> stack_page pr -> v <> stack_page pr + 1 -> pte (k_mem t) (pgdir pr) v = pte m (pgdir pr) v;
  ts_other : forall w, page w -> w ∉ l -> ~ in_table m (pgdir pr) w -> (forall v, umapped m (pgdir pr) v -> w <> frame_at m (pgdir pr) v) ->
    agree m (k_mem t) w
}.

(** The thread, in a slot that held [q]. *)
Definition thread_of (c : nat) (pr : proc) (n ks start : Z) (q : proc) : proc :=
  thread_ready (pgdir pr) (stack_top pr) start
    (set_name (name pr) (embryo n ks q <| tf := tf pr |> <| sz := sz pr |> <| parent := Some c |> <| ofile := ofile pr |> <| cwd := cwd pr |>) <| tid := thread_slot pr |>).

(** Without memory for the stack the new slot is never given back. *)
Definition create_leaks (s t : kernel) (c : nat) (pr : proc) (n : Z) : Prop :=
  (exists np q, np <> c /\ k_procs t !! np = Some q /\ state q = EMBRYO /\ pid q = n /\ ofile q = ofile pr) /\ k_procs t !! c = Some (slot_taken n pr) /\
  more_refs (ofile pr) (k_files s) (k_files t) /\
  (forall v, stack_page pr <= v < stack_page pr + 2 -> present (pte (k_mem t) (pgdir pr) v) = false).

Definition create_refused (s t : kernel) : Prop :=
  k_files t = k_files s /\ k_inodes t = k_inodes s /\ k_mem t = k_mem s /\
  (forall i p, k_procs s !! i = Some p -> state p <> UNUSED -> k_procs t !! i = Some p).

Lemma create_no_slot (s s1 : kernel) (c : nat) (th start arg : Z) : k_cur s = Some c -> allocproc s = Done None s1 -> thread_create_os th start arg s = Done (-1) s1.
Proof.
  intros Hc Ea. unfold thread_create_os. erewrite (bind_Done curproc) by (unfold curproc, mbind, M_bind, get; cbn; rewrite Hc; reflexivity). rewrite (bind_Done _ _ _ _ _ Ea). reflexivity.
Qed.

(** The store of the number and the stack together. *)
Lemma thread_space_made (s s2 v t : kernel) (pr : proc) (th n arg ks : Z) (l l1 l' : list Z) : wrote (pgdir pr) th (le32 n) s s2 l1 ->
  stack_made (pgdir pr) (stack_page pr) arg (k_mem s2) v l1 l' -> k_mem t = k_mem v -> k_freelist t = k_freelist v -> l1 ⊆ l -> ks ∉ l1 -> thread_space (k_mem s) t pr th n arg ks l.
Proof.
  intros W M Em Ef Hl Hk. destruct M as [O F Gd St Ar Ze Ol Pt Ot].
  split; rewrite ?Em; try assumption.
  - exists l'. split; [exact (space_ext v t _ l' O Em Ef)|]. set_solver.
  - intros x Hx. apply Ze. unfold stack_top in Hx. lia.
  - intros x Hx. rewrite Ol by exact (proj1 (wrote_umapped _ _ _ _ _ _ _ W Hx)). exact (wo_read _ _ _ _ _ _ W x Hx).
  - intros w Hw H1 H2. rewrite Pt by assumption. exact (wo_pte _ _ _ _ _ _ W w Hw).
  - intros w Hw H1 H2 H3. eapply agree_trans; [exact (wo_agree _ _ _ _ _ _ W w Hw H3)|]. apply Ot; [exact Hw|set_solver| |].
    + intros Hi. apply H2, (wo_table _ _ _ _ _ _ W), Hi.
    + intros x Hx. pose proof (wrote_umapped_inv _ _ _ _ _ _ _ W Hx) as Hx'. rewrite (proj2 (wrote_umapped _ _ _ _ _ _ _ W Hx')). apply H3, Hx'.
Qed.

(** A slot and a kernel stack were free: all is done but the thread's stack. *)
Lemma create_reaches_stack (s : kernel) (c : nat) (pr : proc) (ks : Z) (l : list Z) (th start arg : Z) (np : nat) (q : proc) (w : nat) :
  can_create s c pr (ks :: l) th arg -> unused_slot s np q -> cwd pr = Some w ->
  let y := slot_taken (next_pid s) pr in
  let x := set_name (name pr) (embryo (next_pid s) ks q <| tf := tf pr |> <| sz := sz pr |> <| parent := Some c |> <| ofile := ofile pr |> <| cwd := Some w |>) <| tid := thread_slot pr |> in
  exists s1 s2 u, k_mem s1 = k_mem s /\ wrote (pgdir pr) th (le32 (next_pid s)) s1 s2 l /\
    thread_create_os th start arg s = create_stack c np (thread_slot pr) start arg u /\
    k_held u = [] /\ console_ok u /\ P2V (k_cr3 u) = pgdir pr /\ k_mem u = k_mem s2 /\ space_ok u (pgdir pr) l /\
    k_procs u = <[np := x]> (<[c := y]> (k_procs s)) /\ more_refs (ofile pr) (k_files s) (k_files u) /\
    k_inodes u = alter (fun ip => ip <| iref := s32 (iref ip + 1) |>) w (k_inodes s).
Proof.
  intros [Hh Hco Hc Hp Hu Hs Hcr Hsl [Ho Hom] Htop Hth Harg Hnf Hfl _ Hfree] Hslot Hw y x. pose proof (vo_free _ _ _ (so_vm _ _ _ Hs)) as Hf.
  pose proof Hslot as (Hq & Hqu & _). assert (Hne : c <> np) by (intros ->; congruence). pose proof (lookup_lt_Some _ _ _ Hq) as Hlt.
  pose proof (allocproc_run s np q _ Hh Hf Hslot) as Ea. cbv beta iota zeta in Ea. match type of Ea with _ = Done _ ?st => set (s1 := st) in Ea end.
  destruct (kalloc_free_pages s _ Hf ltac:(rewrite Hh; set_solver)) as (Hk1 & Hk2 & _ & Hk3).
  assert (Hs1 : space_ok s1 (pgdir pr) l) by (apply (parent_ok s (pgdir pr) (ks :: l) Hs s1 l); [intros; apply agree_refl|exact Hk3|set_solver]).
  destruct (ustore_run (pgdir pr) (le32 (next_pid s)) th s1 l Hs1 Hcr (Forall_le32 _) Hth) as (s2 & Es & W).
  pose proof (wo_only _ _ _ _ _ _ W) as T2. set (e := embryo (next_pid s) ks q).
  destruct (create_prepares s s1 s2 c np pr e (k_procs s) w th start arg Hc Ea eq_refl Es) as (G' & Hm & E); try assumption; [rewrite T2; reflexivity|rewrite T2; exact Hh|exact (Hfree np q Hq Hqu)|rewrite T2; exact Hfl|].
  change (pid e) with (next_pid s) in E. match type of E with _ = create_stack _ _ _ _ _ ?st => set (u := st) in E end.
  exists s1, s2, u. rewrite T2 in Hm. split_and!; [reflexivity|exact W|exact E|unfold u; cbn; rewrite T2; assumption..|reflexivity| |reflexivity|exact Hm|unfold u; cbn; rewrite T2; reflexivity].
  apply (space_ext s2); [exact (wo_ok _ _ _ _ _ _ W)|reflexivity|reflexivity].
Qed.

Lemma create_at (s : kernel) (c : nat) (pr : proc) (l : list Z) (th arg : Z) (n : Z) : can_create s c pr l th arg ->
  osz (slot_taken n pr) + 2 * (thread_slot pr - 1) * PGSIZE = stack_page pr * PGSIZE /\ 0 <= stack_page pr /\ stack_page pr + 2 < UPAGES.
Proof.
  intros H. pose proof (cc_size _ _ _ _ _ _ H) as [Ho Hom]. pose proof (cc_top _ _ _ _ _ _ H) as Htop. pose proof (thread_slot_pos pr).
  pose proof (Z.div_mod (orig_size pr) PGSIZE ltac:(discriminate)) as Dm. rewrite Hom in Dm. pose proof (Z.div_pos (orig_size pr) PGSIZE Ho eq_refl).
  change (osz (slot_taken n pr)) with (orig_size pr). unfold stack_top, stack_page, KERNBASE, PGSIZE, UPAGES in *. lia.
Qed.

(** The pages for the stack are unmapped: the thread is made. *)
Definition created (s t : kernel) (c : nat) (pr : proc) (l : list Z) (th start arg : Z) : Prop :=
  exists np q ks w, unused_slot s np q /\ np <> c /\ cwd pr = Some w /\ ks ∈ l /\ page ks /\
    k_procs t = <[np := thread_of c pr (next_pid s) ks start q]> (<[c := maker_grown (slot_taken (next_pid s) pr)]> (k_procs s)) /\
    more_refs (ofile pr) (k_files s) (k_files t) /\
    k_inodes t = alter (fun ip => ip <| iref := s32 (iref ip + 1) |>) w (k_inodes s) /\
    thread_space (k_mem s) t pr th (next_pid s) arg ks l.

Lemma thread_create_new (s : kernel) (c : nat) (pr : proc) (l : list Z) (th start arg : Z) : can_create s c pr l th arg ->
  (forall v, stack_page pr <= v < stack_page pr + 2 -> present (pte (k_mem s) (pgdir pr) v) = false) ->
  exists r t, thread_create_os th start arg s = Done r t /\
    ((r = 0 /\ created s t c pr l th start arg) \/ (r = -1 /\ (create_refused s t \/ create_leaks s t c pr (next_pid s)))).
Proof.
  intros H Hnew. pose proof H as [Hh _ Hc Hp Hu Hs _ _ _ _ _ Harg _ _ [w Hw] _]. pose proof (vo_free _ _ _ (so_vm _ _ _ Hs)) as Hf.
  destruct (find_slot s) as [Hnone|(np & q & Hslot)].
  { exists (-1), s. split; [exact (create_no_slot s s c _ _ _ Hc (allocproc_full s Hh Hnone))|]. right. split; [reflexivity|left]. split_and!; auto. }
  pose proof Hslot as (Hq & Hqu & _). assert (Hne : c <> np) by (intros ->; congruence). pose proof (lookup_lt_Some _ _ _ Hq) as Hlt. pose proof (lookup_lt_Some _ _ _ Hp) as Hclt.
  destruct l as [|ks l1].
  { pose proof (allocproc_run s np q [] Hh Hf Hslot) as Ea. cbv beta iota zeta in Ea. eexists (-1), _. split; [exact (create_no_slot s _ c _ _ _ Hc Ea)|]. right. split; [reflexivity|left]. split_and!; [reflexivity..|].
    intros i p Hi Hpu. cbn. rewrite list_lookup_insert_ne; [exact Hi|intros ->; congruence]. }
  destruct (kalloc_free_pages s _ Hf ltac:(rewrite Hh; set_solver)) as (Hk1 & Hk2 & _). destruct (create_at _ _ _ _ _ _ (next_pid s) H) as (Eb & Hb0 & Hb2).
  destruct (create_reaches_stack s c pr ks l1 th start arg np q w H Hslot Hw) as (s1 & s2 & u & Em1 & W & E & Hhu & Hcou & Hcru & Emu & Hsu & Hpu & Hm & Hi).
  set (y := slot_taken (next_pid s) pr) in *. match type of Hpu with context [<[np := ?x]> _] => set (x0 := x) in Hpu end.
  assert (Hargu : readable u (pgdir y) arg 4).
  { destruct Harg as (A0 & A1 & A2). split; [exact A0|split; [exact A1|] ]. intros x Hx. rewrite Emu. apply (wrote_umapped _ _ _ _ _ _ _ W). rewrite Em1. exact (A2 x Hx). }
  assert (Hnewu : forall v, stack_page pr <= v < stack_page pr + 2 -> present (pte (k_mem u) (pgdir y) v) = false).
  { intros v Hv. rewrite Emu. refine (eq_trans (f_equal present (wo_pte _ _ _ _ _ _ W v _)) _); [unfold UPAGES, NVPAGE in *; lia|]. rewrite Em1. exact (Hnew v Hv). }
  destruct (create_stack_run u c np x0 y (k_procs s) (stack_page pr) (thread_slot pr) start arg l1) as (v & l' & [(E1 & T1 & M)|(E1 & Fl)]); try assumption.
  - eexists 0, _. split; [rewrite E; exact E1|]. left. split; [reflexivity|]. exists np, q, ks, w. unfold mem_only in T1.
    split_and!; [exact Hslot|congruence|exact Hw|set_solver|exact Hk1|unfold thread_of; rewrite Hw; reflexivity| | |].
    + cbn. rewrite T1. exact Hm.
    + cbn. rewrite T1. exact Hi.
    + rewrite <- Em1. apply (thread_space_made s1 s2 v _ pr th (next_pid s) arg ks (ks :: l1) l1 l' W); [rewrite <- Emu; exact M|reflexivity|reflexivity|set_solver|exact Hk2].
  - exists (-1), v. split; [rewrite E; exact E1|]. right. split; [reflexivity|right]. pose proof (af_only _ _ _ _ _ _ _ _ Fl) as Tv.
    split; [exists np, x0; split; [congruence|]; split; [rewrite Tv; cbn; rewrite Hpu; apply list_lookup_insert_eq; rewrite length_insert; exact Hlt|split_and!; reflexivity]|].
    split; [rewrite Tv; cbn; rewrite Hpu; apply second_at; assumption|]. split; [rewrite Tv; exact Hm|exact (af_gone _ _ _ _ _ _ _ _ Fl)].
Qed.

(** C23. [thread_create] by a process with one of its [NTHREAD] thread slots
    free, with [th] and [arg] mapped.  When the two pages of the slot's stack
    are not mapped, it always returns.  When it returns 0, a slot that was
    free holds the new thread: ready to run at [start] with a kernel stack of
    its own, the maker's page directory, files, directory and name; its number
    is stored at [th]; it has two pages that were not mapped before, of which
    the user cannot touch the lower one, and its stack pointer is at a false
    return address followed by the argument; the maker's slot is taken and its
    size adjusted; all other user memory, page table entries, processes and
    pages are as before, and the references to files and directory are counted.
    Otherwise it returns -1: no slot or kernel stack was free and nothing in use
    has changed, or there was no memory for the thread's stack, and then the new
    process, the maker's slot and the references are never given back.
    When the first of the two pages is mapped already, as after a thread grew
    the memory, the kernel panics on "remap" as soon as a process slot and two
    pages are free. *)
Theorem thread_create_starts_thread (s : kernel) (c : nat) (pr : proc) (l : list Z) (th start arg : Z) (H : can_create s c pr l th arg) :
  ((forall v, stack_page pr <= v < stack_page pr + 2 -> present (pte (k_mem s) (pgdir pr) v) = false) ->
   exists r t, thread_create_os th start arg s = Done r t /\
    ((r = 0 /\ created s t c pr l th start arg) \/ (r = -1 /\ (create_refused s t \/ create_leaks s t c pr (next_pid s))))) /\
  (present (pte (k_mem s) (pgdir pr) (stack_page pr)) = true -> (exists np q, unused_slot s np q) -> (2 <= length l)%nat ->
   thread_create_os th start arg s = Halt (Panic "remap")).
Proof.
  split; [apply thread_create_new, H|]. intros Hm (np & q & Hslot) Hl. destruct l as [|ks [|f l] ]; cbn in Hl; [lia..|].
  destruct (cc_cwd _ _ _ _ _ _ H) as [w Hw]. destruct (create_at _ _ _ _ _ _ (next_pid s) H) as (Eb & Hb0 & Hb2).
  destruct (create_reaches_stack s c pr ks _ th start arg np q w H Hslot Hw) as (s1 & s2 & u & Em1 & W & -> & Hhu & _ & _ & Emu & Hsu & Hpu & _).
  apply (create_stack_remap u c np (slot_taken (next_pid s) pr) (stack_page pr) _ start arg f l); try assumption.
  - rewrite Hpu. pose proof Hslot as (Hq & Hqu & _). apply second_at; [intros <-; pose proof (cc_proc _ _ _ _ _ _ H); pose proof (cc_used _ _ _ _ _ _ H); congruence|].
    exact (lookup_lt_Some _ _ _ (cc_proc _ _ _ _ _ _ H)).
  - rewrite Emu. refine (eq_trans (f_equal present (wo_pte _ _ _ _ _ _ W _ _)) _); [unfold UPAGES, NVPAGE in *; lia|]. rewrite Em1. exact Hm.
Qed.

End Create.

(** The process of ForkSpec.v, running, stores the number at 100; the argument
    is at 200. *)
Definition ex_create : kernel := ex_fork <| k_cr3 := V2P ex_dir |>.

Lemma ex_can_create : can_create (L := ex_linker) ex_create 0 ex_parent [ex_free1; ex_free2] 100 200.
Proof.
  pose proof ex_can_fork as [Hh Hc Hp Hu Hs _ Hn Hf Hw Hfree].
  assert (Hx : forall x, 100 <= x < 204 -> x / PGSIZE = 0) by (intros x H; apply Z.div_small; unfold PGSIZE; lia).
  split; try assumption.
  - split; reflexivity || discriminate.
  - apply (space_ext (L := ex_linker) ex_fork); [exact Hs|reflexivity|reflexivity].
  - reflexivity.
  - reflexivity.
  - split; [discriminate|reflexivity].
  - reflexivity.
  - split; [discriminate|split; [discriminate|] ]. intros x H. assert (x = 100 \/ x = 101 \/ x = 102 \/ x = 103) as [->|[->|[->| ->] ] ] by lia; vm_compute; eexists; reflexivity.
  - split; [discriminate|split; [discriminate|] ]. intros x H. rewrite Hx by lia. split; [unfold UPAGES; lia|reflexivity].
Qed.

(** The same process had its first stack where page 0 is now mapped. *)
Definition ex_maker : proc := ex_parent <| sz := 0 |>.
Definition ex_mapped : kernel := ex_create <| k_procs ::= <[0%nat := ex_maker]> |>.

Lemma ex_can_create_mapped : can_create (L := ex_linker) ex_mapped 0 ex_maker [ex_free1; ex_free2] 100 200.
Proof.
  pose proof ex_can_create as [Hh Hco Hc Hp Hu Hs Hcr Hsl Ho Htop Hth Harg Hnf Hfl Hcw Hfree]. split; try assumption; try reflexivity.
  - apply (space_ext (L := ex_linker) ex_create); [exact Hs|reflexivity|reflexivity].
  - split; [discriminate|reflexivity].
  - intros i q. destruct i as [|i]; [intros [= <-]; discriminate|]. intros Hi. apply (Hfree (S i) q Hi).
Qed.

Lemma thread_create_starts_thread_witness : (exists r t, thread_create_os (L := ex_linker) 100 64 200 ex_create = Done r t /\ (r = 0 \/ r = -1)) /\
  thread_create_os (L := ex_linker) 100 64 200 ex_mapped = Halt (Panic "remap").
Proof.
  split.
  - destruct (proj1 (thread_create_starts_thread (L := ex_linker) ex_create 0 ex_parent _ 100 64 200 ex_can_create)) as (r & t & E & H).
    { change (stack_page ex_parent) with 1. intros v Hv. apply ex_unmapped. unfold NVPAGE. lia. }
    exists r, t. split; [exact E|]. destruct H as [ [-> _]|[-> _] ]; auto.
  - apply (proj2 (thread_create_starts_thread (L := ex_linker) ex_mapped 0 ex_maker _ 100 64 200 ex_can_create_mapped)).
    + reflexivity.
    + exists 1%nat. eexists. split_and!; reflexivity.
    + reflexivity.
Defined.
