(* ===== verification/FsDisk.v ===== *)
(** * The file system on a plain disk: blocks and the bitmap

    [raw_disk] is the block layer without cache, locks and log: the contents
    of a block are on the disk at once.  The properties of fs.c are proved on
    it.  [used] is the bitmap as a predicate on block numbers; [fs_ok] says
    how the disk is laid out. *)

From S2P Require Import Prelude Params Bytes CString Kernel Print Sleep Ide Bio Log Fs.

Definition raw_disk : BlockDev := {|
  handle := Z * Z;
  bd_read := fun dev b =>
    if b >=? FSSIZE then panic "incorrect blockno" else mret (Z.land dev 1, b);
  bd_data := fun h => gets (fun s => disk_block s h);
  bd_log := fun h d => modify (fun s => s <| k_disk ::= <[h := d]> |>);
  bd_relse := fun _ => mret tt
|}.

(** The contents of block [b] of the root device. *)
Definition Blk (s : kernel) (b : Z) : list Z := disk_block s (1, b).
Definition set_blk (b : Z) (d : list Z) (s : kernel) : kernel := s <| k_disk ::= <[(1, b) := d]> |>.

Lemma Blk_set (s : kernel) (b c : Z) (d : list Z) :
  Blk (set_blk b d s) c = if decide (c = b) then d else Blk s c.
Proof.
  unfold Blk, disk_block, set_blk. simpl. rewrite lookup_insert. repeat case_decide; simplify_eq; auto; congruence.
Qed.

#[global] Arguments Blk : simpl never.
#[global] Arguments set_blk : simpl never.

(** ** Bits *)

Lemma testbit_bit_set (d : list Z) (bi : Z) :
  0 <= bi -> bit_set d bi = Z.testbit (byte_at d (bi / 8)) (bi mod 8).
Proof.
  intros H. unfold bit_set. rewrite Z.shiftl_1_l. pose proof (Z.mod_pos_bound bi 8 eq_refl) as Hm.
  destruct (Z.testbit (byte_at d (bi / 8)) (bi mod 8)) eqn:E.
  - apply negb_true_iff, Z.eqb_neq. intros E'.
    apply (f_equal (fun x => Z.testbit x (bi mod 8))) in E'.
    rewrite Z.land_spec, E, Z.pow2_bits_true, Z.testbit_0_l in E' by lia. discriminate.
  - apply negb_false_iff, Z.eqb_eq, Z.bits_inj'. intros i Hi. rewrite Z.land_spec, Z.testbit_0_l.
    destruct (decide (i = bi mod 8)) as [->|Hne]; [rewrite E; reflexivity|].
    rewrite Z.pow2_bits_false by lia. apply andb_false_r.
Qed.

Lemma bit_index (bi bj : Z) : bi / 8 = bj / 8 -> bi mod 8 = bj mod 8 -> bi = bj.
Proof. intros H1 H2. rewrite (Z.div_mod bi 8), (Z.div_mod bj 8) by lia. congruence. Qed.

Section Bits.
Context (d : list Z) (bi : Z).
Context (Hd : length d = 512%nat) (Hb : 0 <= bi < BPB).

Let Hidx : 0 <= bi / 8 < 512.
Proof. unfold BPB, BSIZE in Hb. Z.div_mod_to_equations. lia. Qed.

Lemma mark_bit_spec (bj : Z) :
  0 <= bj < BPB -> bit_set (mark_bit d bi) bj = if decide (bj = bi) then true else bit_set d bj.
Proof.
  intros Hj. rewrite !testbit_bit_set by lia. unfold mark_bit.
  rewrite splice_byte by (simpl length; unfold BPB, BSIZE in *; Z.div_mod_to_equations; lia). simpl length.
  pose proof (Z.mod_pos_bound bi 8 eq_refl). pose proof (Z.mod_pos_bound bj 8 eq_refl).
  destruct (decide (bj / 8 = bi / 8)) as [E|E].
  - rewrite decide_True by lia. rewrite E, Z.sub_diag.
    unfold byte_at at 1. simpl. rewrite Z.shiftl_1_l, Z.lor_spec.
    destruct (decide (bj = bi)) as [->|Hne].
    + rewrite Z.pow2_bits_true by lia. apply orb_true_r.
    + rewrite Z.pow2_bits_false, orb_false_r; [reflexivity|].
      intros E'. apply Hne, bit_index; congruence.
  - rewrite decide_False by lia. rewrite decide_False by congruence. reflexivity.
Qed.

Lemma clear_bit_spec (bj : Z) :
  0 <= bj < BPB -> bit_set (clear_bit d bi) bj = if decide (bj = bi) then false else bit_set d bj.
Proof.
  intros Hj. rewrite !testbit_bit_set by lia. unfold clear_bit.
  rewrite splice_byte by (simpl length; unfold BPB, BSIZE in *; Z.div_mod_to_equations; lia). simpl length.
  pose proof (Z.mod_pos_bound bi 8 eq_refl). pose proof (Z.mod_pos_bound bj 8 eq_refl).
  destruct (decide (bj / 8 = bi / 8)) as [E|E].
  - rewrite decide_True by lia. rewrite E, Z.sub_diag. unfold byte_at at 1. simpl.
    rewrite Z.shiftl_1_l, Z.land_spec, Z.lnot_spec by lia.
    destruct (decide (bj = bi)) as [->|Hne].
    + rewrite Z.pow2_bits_true by lia. apply andb_false_r.
    + rewrite Z.pow2_bits_false, andb_true_r; [reflexivity|].
      intros E'. apply Hne, bit_index; congruence.
  - rewrite decide_False by lia. rewrite decide_False by congruence. reflexivity.
Qed.

Lemma length_mark_bit : length (mark_bit d bi) = 512%nat.
Proof. unfold mark_bit. rewrite length_splice; [exact Hd|lia|simpl; lia]. Qed.

Lemma length_clear_bit : length (clear_bit d bi) = 512%nat.
Proof. unfold clear_bit. rewrite length_splice; [exact Hd|lia|simpl; lia]. Qed.

End Bits.

Lemma free_bit_spec (n : nat) (bi : Z) (d : list Z) :
  match free_bit n bi d with
  | Some bj => bi <= bj < bi + Z.of_nat n /\ bit_set d bj = false /\
               forall bk, bi <= bk < bj -> bit_set d bk = true
  | None => forall bk, bi <= bk < bi + Z.of_nat n -> bit_set d bk = true
  end.
Proof.
  revert bi. induction n as [|n IH]; intros bi; cbn [free_bit]; [lia|].
  destruct (bit_set d bi) eqn:E; [|split_and!; [lia|lia|exact E|lia] ].
  specialize (IH (bi + 1)). destruct (free_bit n (bi + 1) d) as [bj|].
  - destruct IH as (H1 & H2 & H3). split_and!; [lia|lia|exact H2|]. intros bk Hk.
    destruct (decide (bk = bi)) as [->|]; [exact E|apply H3; lia].
  - intros bk Hk. destruct (decide (bk = bi)) as [->|]; [exact E|apply IH; lia].
Qed.

(** ** The layout of the disk *)

(** Block [b] is marked in the bitmap. *)
Definition used (s : kernel) (b : Z) : bool :=
  bit_set (Blk s (BBLOCK b (k_sb s))) (b mod BPB).

(** The first block after the bitmap. *)
Definition data_start (sb : superblock) : Z := sb_bmapstart sb + sb_size sb / BPB + 1.

Definition is_block (d : list Z) : Prop := length d = 512%nat /\ Forall is_byte d.

(** The superblock, the inodes, the bitmap and the data lie on the disk in this
    order; the kernel has read the superblock; what comes before the data is
    marked used. *)
Record fs_ok (s : kernel) : Prop := {
  fs_block : forall b, is_block (Blk s b);
  fs_sb : k_sb s = read_superblock (Blk s 1);
  fs_size : sb_size (k_sb s) <= FSSIZE;
  fs_inodes : 1 < sb_inodestart (k_sb s);
  fs_bmap : sb_inodestart (k_sb s) + sb_ninodes (k_sb s) / IPB < sb_bmapstart (k_sb s);
  fs_data : data_start (k_sb s) <= sb_size (k_sb s);
  fs_meta : forall b, 0 <= b < data_start (k_sb s) -> used s b = true
}.

Lemma is_block_zero : is_block zero_block.
Proof. split; [reflexivity|]. apply Forall_replicate. unfold is_byte. lia. Qed.

Lemma lor_byte (a b : Z) : is_byte a -> is_byte b -> is_byte (Z.lor a b).
Proof.
  unfold is_byte. intros Ha Hb.
  assert (Z.lor a b = Z.lor a b mod 2 ^ 8) as ->.
  { rewrite <- Z.land_ones, Z.land_lor_distr_l, !Z.land_ones by lia.
    rewrite !Z.mod_small by (change (2 ^ 8) with 256; lia). reflexivity. }
  apply Z.mod_pos_bound. reflexivity.
Qed.

Lemma land_byte (a b : Z) : is_byte a -> is_byte (Z.land a b).
Proof.
  unfold is_byte. intros Ha.
  assert (Z.land a b = Z.land a b mod 2 ^ 8) as ->.
  { rewrite <- Z.land_ones, (Z.land_comm a b), <- Z.land_assoc, Z.land_ones by lia.
    rewrite (Z.mod_small a) by (change (2 ^ 8) with 256; lia). reflexivity. }
  apply Z.mod_pos_bound. reflexivity.
Qed.

Lemma bit_byte (bi : Z) : is_byte (Z.shiftl 1 (bi mod 8)).
Proof.
  pose proof (Z.mod_pos_bound bi 8 eq_refl) as Hm. rewrite Z.shiftl_1_l. unfold is_byte.
  split; [apply Z.pow_nonneg; lia|]. change 256 with (2 ^ 8). apply Z.pow_lt_mono_r; lia.
Qed.

Lemma is_block_mark (d : list Z) (bi : Z) : 0 <= bi < BPB -> is_block d -> is_block (mark_bit d bi).
Proof.
  intros Hb [H1 H2]. split; [apply length_mark_bit; assumption|].
  apply Forall_splice; [exact H2|]. apply Forall_singleton, lor_byte; [apply byte_at_byte; exact H2|apply bit_byte].
Qed.

Lemma is_block_clear (d : list Z) (bi : Z) : 0 <= bi < BPB -> is_block d -> is_block (clear_bit d bi).
Proof.
  intros Hb [H1 H2]. split; [apply length_clear_bit; assumption|].
  apply Forall_splice; [exact H2|]. apply Forall_singleton, land_byte, byte_at_byte; exact H2.
Qed.

Lemma is_block_put32 (d : list Z) (off v : Z) : 0 <= off <= 508 -> is_block d -> is_block (put32 d off v).
Proof.
  intros Ho [H1 H2]. split; [rewrite length_put32; [exact H1|lia|rewrite H1; lia]|].
  apply Forall_splice; [exact H2|apply Forall_le32].
Qed.

Lemma sb_size_nonneg (s : kernel) : fs_ok s -> 0 <= sb_size (k_sb s).
Proof.
  intros H. rewrite (fs_sb _ H). apply get32_range. apply (fs_block _ H).
Qed.

Lemma data_start_pos (s : kernel) :
  fs_ok s -> 0 <= sb_ninodes (k_sb s) / IPB /\ 2 < data_start (k_sb s).
Proof.
  intros H. pose proof (fs_inodes _ H). pose proof (fs_bmap _ H).
  assert (0 <= sb_ninodes (k_sb s) / IPB).
  { apply Z.div_pos; [|unfold IPB, BSIZE, DINODE_SIZE; reflexivity].
    rewrite (fs_sb _ H). apply get32_range, (fs_block _ H). }
  assert (0 <= sb_size (k_sb s) / BPB) by (apply Z.div_pos; [apply sb_size_nonneg; exact H|reflexivity]).
  unfold data_start. lia.
Qed.

(** The bitmap block of [b] lies between the inodes and the data. *)
Lemma BBLOCK_range (s : kernel) (b : Z) :
  fs_ok s -> 0 <= b < sb_size (k_sb s) ->
  1 < BBLOCK b (k_sb s) < data_start (k_sb s) /\
  sb_inodestart (k_sb s) + sb_ninodes (k_sb s) / IPB < BBLOCK b (k_sb s).
Proof.
  intros H Hb. pose proof (fs_inodes _ H). pose proof (fs_bmap _ H).
  assert (0 <= b / BPB <= sb_size (k_sb s) / BPB).
  { split; [apply Z.div_pos; unfold BPB, BSIZE; lia|]. apply Z.div_le_mono; unfold BPB, BSIZE; lia. }
  pose proof (data_start_pos _ H). unfold BBLOCK, data_start. lia.
Qed.

Lemma used_set_other (s : kernel) (b c : Z) (d : list Z) :
  c <> BBLOCK b (k_sb s) -> used (set_blk c d s) b = used s b.
Proof. intros H. unfold used. rewrite Blk_set, decide_False by (intros E; apply H; exact (eq_sym E)). reflexivity. Qed.

(** Marking a block used or free. *)
Definition set_used (b : Z) (u : bool) (s : kernel) : kernel :=
  set_blk (BBLOCK b (k_sb s))
    ((if u then mark_bit else clear_bit) (Blk s (BBLOCK b (k_sb s))) (b mod BPB)) s.

Lemma BPB_mod (b : Z) : 0 <= b mod BPB < BPB.
Proof. apply Z.mod_pos_bound. reflexivity. Qed.

Lemma used_set_used (s : kernel) (b c : Z) (u : bool) :
  fs_ok s -> used (set_used b u s) c = if decide (c = b) then u else used s c.
Proof.
  intros H. unfold used, set_used. change (k_sb (set_blk _ _ s)) with (k_sb s). rewrite Blk_set.
  pose proof (BPB_mod b). pose proof (BPB_mod c).
  pose proof (proj1 (fs_block _ H (BBLOCK b (k_sb s)))) as Hl.
  destruct (decide (BBLOCK c (k_sb s) = BBLOCK b (k_sb s))) as [E|E].
  - destruct u; [rewrite mark_bit_spec by assumption|rewrite clear_bit_spec by assumption].
    all: destruct (decide (c = b)) as [->|Hne]; [rewrite decide_True by reflexivity; reflexivity|].
    all: rewrite decide_False; [rewrite E; reflexivity|].
    all: intros E'; apply Hne; unfold BBLOCK in E;
      rewrite (Z.div_mod c BPB), (Z.div_mod b BPB) by discriminate; rewrite E'; lia.
  - rewrite decide_False by congruence. reflexivity.
Qed.

Lemma Blk_set_used (s : kernel) (b c : Z) (u : bool) :
  fs_ok s -> 0 <= b < sb_size (k_sb s) -> data_start (k_sb s) <= c -> Blk (set_used b u s) c = Blk s c.
Proof.
  intros H Hb Hc. unfold set_used. rewrite Blk_set, decide_False; [reflexivity|].
  pose proof (BBLOCK_range _ _ H Hb). lia.
Qed.

Lemma fs_ok_set_used (s : kernel) (b : Z) (u : bool) :
  fs_ok s -> data_start (k_sb s) <= b < sb_size (k_sb s) -> fs_ok (set_used b u s).
Proof.
  intros H Hb. pose proof (sb_size_nonneg _ H) as H0. pose proof (fs_inodes _ H). pose proof (fs_bmap _ H).
  pose proof (data_start_pos _ H). assert (0 <= b < sb_size (k_sb s)) as Hb' by lia.
  pose proof (BBLOCK_range _ _ H Hb') as HB.
  split; try apply H.
  - intros c. unfold set_used. rewrite Blk_set. case_decide; [|apply H].
    destruct u; [apply is_block_mark|apply is_block_clear]; (apply BPB_mod || apply H).
  - unfold set_used at 2. rewrite Blk_set, decide_False by lia. apply H.
  - intros c Hc. rewrite used_set_used by exact H. change (k_sb (set_used b u s)) with (k_sb s) in Hc.
    rewrite decide_False by lia. apply H. exact Hc.
Qed.

Lemma used_set_data (s : kernel) (b c : Z) (d : list Z) :
  fs_ok s -> data_start (k_sb s) <= b -> 0 <= c < sb_size (k_sb s) ->
  used (set_blk b d s) c = used s c.
Proof. intros H Hb Hc. apply used_set_other. pose proof (BBLOCK_range _ _ H Hc). lia. Qed.

(** A change of a data block keeps the layout. *)
Lemma fs_ok_set_blk (s : kernel) (b : Z) (d : list Z) :
  fs_ok s -> data_start (k_sb s) <= b -> is_block d -> fs_ok (set_blk b d s).
Proof.
  intros H Hb Hd. pose proof (data_start_pos _ H). split; try apply H.
  - intros c. rewrite Blk_set. case_decide; [exact Hd|apply H].
  - rewrite Blk_set, decide_False by lia. apply H.
  - intros c Hc. change (k_sb (set_blk b d s)) with (k_sb s) in Hc. pose proof (fs_data _ H).
    rewrite used_set_data by (assumption || lia). apply H. exact Hc.
Qed.

Definition alloc_block (b : Z) (s : kernel) : kernel := set_blk b zero_block (set_used b true s).

Section Alloc.
Context {F : Fuel} {DV : Devsw}.
#[local] Existing Instance raw_disk.

Lemma raw_read (b : Z) (s : kernel) : b < FSSIZE -> bd_read 1 b s = Done (1, b) s.
Proof. intros H. unfold bd_read, raw_disk. rewrite Z.geb_leb, (proj2 (Z.leb_gt _ _)) by lia. reflexivity. Qed.

Lemma raw_data (b : Z) (s : kernel) : bd_data (1, b) s = Done (Blk s b) s.
Proof. reflexivity. Qed.

Lemma raw_log (b : Z) (d : list Z) (s : kernel) : bd_log (1, b) d s = Done tt (set_blk b d s).
Proof. reflexivity. Qed.

Lemma raw_relse (h : Z * Z) (s : kernel) : bd_relse h s = Done tt s.
Proof. reflexivity. Qed.

Lemma bzero_run (b : Z) (s : kernel) : b < FSSIZE -> bzero 1 b s = Done tt (set_blk b zero_block s).
Proof.
  intros H. unfold bzero. rewrite (bind_Done _ _ _ _ _ (raw_read b s H)). reflexivity.
Qed.

(** The block the scan of the bitmap finds, or that there is none. *)
Definition least_free (s : kernel) (from b : Z) : Prop :=
  from <= b < sb_size (k_sb s) /\ used s b = false /\ forall c, from <= c < b -> used s c = true.

Lemma used_in_block (s : kernel) (k bi : Z) :
  0 <= bi < BPB -> used s (k * BPB + bi) = bit_set (Blk s (BBLOCK (k * BPB) (k_sb s))) bi.
Proof.
  intros H. unfold used, BBLOCK.
  rewrite (Z.add_comm (k * BPB) bi), Z.div_add, Z.mod_add, (Z.div_small bi), (Z.mod_small bi), Z.div_mul
    by (discriminate || lia).
  reflexivity.
Qed.

Lemma balloc_loop_run (s : kernel) : fs_ok s -> forall (n : nat) (k : Z),
  0 <= k -> sb_size (k_sb s) <= (k + Z.of_nat n) * BPB ->
  (exists b, least_free s (k * BPB) b /\ balloc_loop (S n) 1 (k * BPB) s = Done b (alloc_block b s)) \/
  ((forall b, k * BPB <= b < sb_size (k_sb s) -> used s b = true) /\
   balloc_loop (S n) 1 (k * BPB) s = Halt (Panic "balloc: out of blocks")).
Proof.
  intros H. pose proof (fs_size _ H) as Hsz. pose proof (fs_data _ H) as Hds.
  induction n as [|n IH]; [|remember (S n) as n1 eqn:En1]; intros k Hk Hn; cbn [balloc_loop];
    rewrite (bind_Done _ _ _ _ _ (gets_run _ s)).
  { right. split; [lia|]. rewrite (proj2 (Z.ltb_ge _ _)) by lia. reflexivity. }
  destruct (Z.ltb_spec (k * BPB) (sb_size (k_sb s))) as [Hlt|Hge]; cbn [negb].
  2:{ right. split; [lia|]. reflexivity. }
  pose proof (BBLOCK_range s (k * BPB) H ltac:(unfold BPB, BSIZE in *; lia)) as HB.
  rewrite (bind_Done _ _ _ _ _ (raw_read (BBLOCK (k * BPB) (k_sb s)) s ltac:(lia))), (bind_Done _ _ _ _ _ (raw_data _ s)).
  pose proof (free_bit_spec (Z.to_nat (Z.min BPB (sb_size (k_sb s) - k * BPB))) 0
                (Blk s (BBLOCK (k * BPB) (k_sb s)))) as Hf.
  destruct (free_bit _ _ _) as [bi|].
  - destruct Hf as (Hb & Hfree & Hleast). left. exists (k * BPB + bi). split.
    + split_and!; [lia|lia|rewrite used_in_block by lia; exact Hfree|].
      intros c Hc. replace c with (k * BPB + (c - k * BPB)) by lia. rewrite used_in_block by lia. apply Hleast. lia.
    + rewrite (bind_Done _ _ _ _ _ (raw_log _ _ s)), (bind_Done _ _ _ _ _ (raw_relse _ _)).
      rewrite (bind_Done _ _ _ _ _ (bzero_run (k * BPB + bi) _ ltac:(lia))). unfold alloc_block, set_used.
      replace (BBLOCK (k * BPB + bi) (k_sb s)) with (BBLOCK (k * BPB) (k_sb s)).
      * rewrite (Z.add_comm (k * BPB) bi), Z.mod_add, Z.mod_small by (discriminate || lia). reflexivity.
      * unfold BBLOCK. rewrite (Z.add_comm (k * BPB) bi), (Z.div_add bi), (Z.div_small bi), Z.div_mul by (discriminate || lia). reflexivity.
  - assert (Hall : forall c, k * BPB <= c < (k + 1) * BPB -> c < sb_size (k_sb s) -> used s c = true).
    { intros c Hc Hc'. replace c with (k * BPB + (c - k * BPB)) by lia. rewrite used_in_block by lia. apply Hf. lia. }
    rewrite (bind_Done _ _ _ _ _ (raw_relse _ _)). replace (k * BPB + BPB) with ((k + 1) * BPB) by lia.
    destruct (IH (k + 1)) as [ (b & (Hr & Hu & Hl) & Hrun) | [Hu Hrun] ]; [lia|lia| |].
    + left. exists b. split; [|exact Hrun]. split_and!; [unfold BPB, BSIZE in *; lia|lia|exact Hu|].
      intros c Hc. destruct (Z.lt_ge_cases c ((k + 1) * BPB)); [apply Hall; lia|apply Hl; lia].
    + right. split; [|exact Hrun]. intros c Hc.
      destruct (Z.lt_ge_cases c ((k + 1) * BPB)); [apply Hall; lia|apply Hu; lia].
Qed.

(** [balloc] takes the least free block and clears it, or panics when the disk
    is full. *)
Lemma balloc_run (s : kernel) :
  fs_ok s ->
  (exists b, least_free s 0 b /\ data_start (k_sb s) <= b /\ balloc 1 s = Done b (alloc_block b s)) \/
  ((forall b, 0 <= b < sb_size (k_sb s) -> used s b = true) /\
   balloc 1 s = Halt (Panic "balloc: out of blocks")).
Proof.
  intros H. unfold balloc. rewrite (bind_Done _ _ _ _ _ (gets_run _ s)).
  pose proof (sb_size_nonneg _ H) as H0.
  assert (Hn : sb_size (k_sb s) <= (0 + Z.of_nat (S (Z.to_nat (sb_size (k_sb s) / BPB)))) * BPB).
  { pose proof (Z.div_mod (sb_size (k_sb s)) BPB ltac:(discriminate)). pose proof (BPB_mod (sb_size (k_sb s))).
    assert (0 <= sb_size (k_sb s) / BPB) by (apply Z.div_pos; [exact H0|reflexivity]). change BPB with 4096 in *. lia. }
  destruct (balloc_loop_run s H _ 0 ltac:(lia) Hn) as [ (b & Hb & Hrun) | Hfull ]; [|right; exact Hfull].
  left. exists b. split_and!; [exact Hb| |exact Hrun].
  destruct (Z.lt_ge_cases b (data_start (k_sb s))) as [Hlt|]; [|assumption].
  destruct Hb as (Hb & Hf & _). rewrite (fs_meta _ H) in Hf by lia. discriminate.
Qed.

Lemma readsb_run (s : kernel) : readsb 1 s = Done (read_superblock (Blk s 1)) s.
Proof. unfold readsb. rewrite (bind_Done _ _ _ _ _ (raw_read 1 s ltac:(reflexivity))). reflexivity. Qed.

(** [bfree] clears the mark of a used block, and panics on a free one. *)
Lemma bfree_run (s : kernel) (b : Z) :
  fs_ok s -> 0 <= b < sb_size (k_sb s) ->
  bfree 1 b s = if used s b then Done tt (set_used b false s) else Halt (Panic "freeing free block").
Proof.
  intros H Hb. unfold bfree. rewrite (bind_Done _ _ _ _ _ (readsb_run s)), <- (fs_sb _ H).
  rewrite (bind_Done _ _ _ _ _ (modify_run _ s)). change (s <| k_sb := k_sb s |>) with s.
  pose proof (BBLOCK_range _ _ H Hb). pose proof (fs_size _ H). pose proof (fs_data _ H).
  rewrite (bind_Done _ _ _ _ _ (raw_read (BBLOCK b (k_sb s)) s ltac:(lia))), (bind_Done _ _ _ _ _ (raw_data _ s)).
  unfold used. destruct (bit_set _ _); reflexivity.
Qed.

End Alloc.
