(* ===== verification/Bmap.v ===== *)
(** * Inode block trees: bmap

    An inode has thirteen roots: ten data blocks, and tables of one, two and
    three levels.  A position in the tree is a root and the indices followed
    from there; [blk_at] is the block at a position, 0 when there is none.
    [inode_ok] says that the blocks of an inode are marked used and pairwise
    different.  [bmap] fills the positions on the way to a file block and leaves
    every other position and the contents of the file as they are. *)

From S2P Require Import Prelude Params Bytes CString Kernel Print Sleep Ide Bio Log Fs FsDisk.

Abbreviation pos := (nat * list Z)%type.

Definition follow (s : kernel) (a j : Z) : Z := if a =? 0 then 0 else get32 (Blk s a) (4 * j).
Definition root_of (ip : inode) (r : nat) : Z := default 0 (iaddrs ip !! r).
Definition blk_at (s : kernel) (ip : inode) (p : pos) : Z := foldl (follow s) (root_of ip p.1) p.2.

(** The number of table levels below a root. *)
Definition levels (r : nat) : nat := r - 9.

Definition valid_pos (p : pos) : Prop :=
  (p.1 < 13)%nat /\ (length p.2 <= levels p.1)%nat /\ Forall (fun j => 0 <= j < 128) p.2.

Definition leaf (p : pos) : Prop := length p.2 = levels p.1.

Record inode_ok (s : kernel) (ip : inode) : Prop := {
  io_len : length (iaddrs ip) = NADDRS;
  io_dev : idev ip = 1;
  io_blk : forall p, valid_pos p -> blk_at s ip p <> 0 ->
    data_start (k_sb s) <= blk_at s ip p < sb_size (k_sb s) /\ used s (blk_at s ip p) = true;
  io_inj : forall p q, valid_pos p -> valid_pos q -> blk_at s ip p <> 0 ->
    blk_at s ip p = blk_at s ip q -> p = q
}.

(** [s'] is [s] with blocks added to the inode at positions of [P]. *)
Record extends (P : pos -> Prop) (s : kernel) (ip : inode) (s' : kernel) (ip' : inode) : Prop := {
  ex_out : forall q, valid_pos q -> ~ P q -> blk_at s' ip' q = blk_at s ip q;
  ex_old : forall q, valid_pos q -> blk_at s ip q <> 0 -> blk_at s' ip' q = blk_at s ip q;
  ex_new : forall q, valid_pos q -> blk_at s ip q = 0 -> blk_at s' ip' q <> 0 ->
    used s (blk_at s' ip' q) = false;
  ex_zero : forall q, valid_pos q -> leaf q -> blk_at s ip q = 0 -> blk_at s' ip' q <> 0 ->
    Blk s' (blk_at s' ip' q) = zero_block;
  ex_used : forall c, 0 <= c < sb_size (k_sb s) -> used s c = true -> used s' c = true;
  ex_blk : forall c, data_start (k_sb s) <= c < sb_size (k_sb s) -> used s c = true ->
    (forall q, valid_pos q -> ~ leaf q -> blk_at s ip q <> c) -> Blk s' c = Blk s c;
  ex_meta : forall c, c < sb_bmapstart (k_sb s) -> Blk s' c = Blk s c;
  ex_sb : k_sb s' = k_sb s;
  ex_ip : ip' = ip <| iaddrs := iaddrs ip' |>
}.

Lemma blk_at_snoc (s : kernel) (ip : inode) (r : nat) (l : list Z) (j : Z) :
  blk_at s ip (r, l ++ [j]) = follow s (blk_at s ip (r, l)) j.
Proof. unfold blk_at. simpl. rewrite foldl_app. reflexivity. Qed.

Lemma valid_snoc (r : nat) (l : list Z) (j : Z) :
  valid_pos (r, l ++ [j]) -> valid_pos (r, l) /\ ~ leaf (r, l) /\ 0 <= j < 128.
Proof.
  unfold valid_pos, leaf. simpl. rewrite length_app, Forall_app, Forall_singleton. simpl.
  intros (H1 & H2 & H3 & H4). split_and!; try (assumption || lia).
Qed.

(** The tree depends on its tables only. *)
Lemma blk_at_same (s s' : kernel) (ip : inode) (q : pos) :
  (forall q', valid_pos q' -> ~ leaf q' -> blk_at s ip q' <> 0 -> Blk s' (blk_at s ip q') = Blk s (blk_at s ip q')) ->
  valid_pos q -> blk_at s' ip q = blk_at s ip q.
Proof.
  intros H. destruct q as [r l]. revert r. induction l as [|j l IH] using rev_ind; intros r Hq; [reflexivity|].
  destruct (valid_snoc _ _ _ Hq) as (Hq' & Hl & _). rewrite !blk_at_snoc, IH by exact Hq'. unfold follow.
  destruct (Z.eqb_spec (blk_at s ip (r, l)) 0) as [|Hn]; [reflexivity|]. rewrite H by assumption. reflexivity.
Qed.

Lemma extends_refl (P : pos -> Prop) (s : kernel) (ip : inode) : extends P s ip s ip.
Proof. split; auto; intros; congruence. Qed.

Lemma extends_mono (P Q : pos -> Prop) (s s' : kernel) (ip ip' : inode) :
  (forall q, P q -> Q q) -> extends P s ip s' ip' -> extends Q s ip s' ip'.
Proof. intros HPQ [H1 H2 H3 H4 H5 H6 H7 H8 H9]. split; auto. Qed.

Lemma extends_trans (P : pos -> Prop) (s s1 s2 : kernel) (ip ip1 ip2 : inode) :
  fs_ok s1 -> inode_ok s1 ip1 -> inode_ok s2 ip2 ->
  extends P s ip s1 ip1 -> extends P s1 ip1 s2 ip2 -> extends P s ip s2 ip2.
Proof.
  intros Hf1 Ho1 Ho2 H1 H2. pose proof (ex_sb _ _ _ _ _ H1) as Hsb.
  pose proof (ex_sb _ _ _ _ _ H2) as Hsb2. pose proof (data_start_pos _ Hf1).
  assert (Hback : forall q, valid_pos q -> blk_at s ip q = 0 -> blk_at s2 ip2 q <> 0 ->
            blk_at s1 ip1 q = 0 \/ blk_at s1 ip1 q <> 0 /\ blk_at s2 ip2 q = blk_at s1 ip1 q).
  { intros q Hq H0 Hn. destruct (decide (blk_at s1 ip1 q = 0)); [left; assumption|right].
    split; [assumption|apply (ex_old _ _ _ _ _ H2); assumption]. }
  split.
  - intros q Hq Hp. rewrite (ex_out _ _ _ _ _ H2), (ex_out _ _ _ _ _ H1); auto.
  - intros q Hq Hn. pose proof (ex_old _ _ _ _ _ H1 q Hq Hn) as E. rewrite (ex_old _ _ _ _ _ H2); congruence.
  - intros q Hq H0 Hn. destruct (Hback q Hq H0 Hn) as [E|[Hn1 E] ].
    + pose proof (ex_new _ _ _ _ _ H2 q Hq E Hn) as Hu.
      destruct (used s (blk_at s2 ip2 q)) eqn:E'; [|reflexivity].
      destruct (io_blk _ _ Ho2 q Hq Hn) as [Hr _].
      rewrite (ex_used _ _ _ _ _ H1) in Hu; [discriminate| |exact E']. rewrite Hsb2, Hsb in *. lia.
    + rewrite E. apply (ex_new _ _ _ _ _ H1); assumption.
  - intros q Hq Hl H0 Hn. destruct (Hback q Hq H0 Hn) as [E|[Hn1 E] ].
    + apply (ex_zero _ _ _ _ _ H2); assumption.
    + rewrite E. destruct (io_blk _ _ Ho1 q Hq Hn1) as [Hr Hu].
      rewrite (ex_blk _ _ _ _ _ H2 _ Hr Hu); [apply (ex_zero _ _ _ _ _ H1); assumption|].
      intros q' Hq' Hl' E'. apply Hl'. rewrite (io_inj _ _ Ho1 q' q); congruence.
  - intros c Hc Hu. apply (ex_used _ _ _ _ _ H2); [congruence|]. apply (ex_used _ _ _ _ _ H1); assumption.
  - intros c Hc Hu Hn. rewrite (ex_blk _ _ _ _ _ H2); [apply (ex_blk _ _ _ _ _ H1); assumption|congruence| |].
    + apply (ex_used _ _ _ _ _ H1); [|assumption]. rewrite Hsb in *. lia.
    + intros q Hq Hl E. destruct (decide (blk_at s ip q = 0)) as [E0|E0].
      * rewrite <- E, (ex_new _ _ _ _ _ H1) in Hu; [discriminate|assumption..|].
        rewrite Hsb in *. lia.
      * rewrite (ex_old _ _ _ _ _ H1) in E by assumption. apply (Hn q); assumption.
  - intros c Hc. rewrite (ex_meta _ _ _ _ _ H2), (ex_meta _ _ _ _ _ H1) by (rewrite ?Hsb; exact Hc). reflexivity.
  - rewrite (ex_sb _ _ _ _ _ H2). exact Hsb.
  - rewrite (ex_ip _ _ _ _ _ H2), (ex_ip _ _ _ _ _ H1). reflexivity.
Qed.

(** ** Filling one position *)

Section Fill.
Context (s s' : kernel) (ip ip' : inode) (p : pos) (b : Z).
Context (Hf : fs_ok s) (Ho : inode_ok s ip) (Hp : valid_pos p) (Hp0 : blk_at s ip p = 0).
Context (Hb : data_start (k_sb s) <= b < sb_size (k_sb s)) (Hfree : used s b = false).
Context (Hpar : forall l j, p.2 = l ++ [j] -> blk_at s ip (p.1, l) <> 0).
Context (Hsb : k_sb s' = k_sb s) (Hip : ip' = ip <| iaddrs := iaddrs ip' |>).
Context (Hlen : length (iaddrs ip') = NADDRS).
Context (Hused : forall c, 0 <= c < sb_size (k_sb s) -> used s' c = if decide (c = b) then true else used s c).
Context (Hzero : Blk s' b = zero_block).
Context (Hroot : forall r, (r < 13)%nat -> root_of ip' r = if decide ((r, []) = p) then b else root_of ip r).
Context (Hstep : forall r l j, valid_pos (r, l ++ [j]) -> blk_at s ip (r, l) <> 0 ->
  get32 (Blk s' (blk_at s ip (r, l))) (4 * j) =
  if decide ((r, l ++ [j]) = p) then b else get32 (Blk s (blk_at s ip (r, l))) (4 * j)).
Context (Hblk : forall c, data_start (k_sb s) <= c < sb_size (k_sb s) -> used s c = true ->
  (forall q, valid_pos q -> ~ leaf q -> blk_at s ip q <> c) -> Blk s' c = Blk s c).
Context (Hmeta : forall c, c < sb_bmapstart (k_sb s) -> Blk s' c = Blk s c).

Lemma get32_zero (j : Z) : get32 zero_block j = 0.
Proof.
  unfold get32. assert (E : forall i, byte_at zero_block i = 0).
  { intros i. unfold byte_at, zero_block. destruct (replicate _ 0 !! _) eqn:E; [|reflexivity].
    apply lookup_replicate in E. destruct E as [-> _]. reflexivity. }
  rewrite !E. reflexivity.
Qed.

Lemma fill_at (q : pos) :
  valid_pos q -> blk_at s' ip' q = if decide (q = p) then b else blk_at s ip q.
Proof.
  pose proof (data_start_pos _ Hf). destruct q as [r l]. revert r. induction l as [|j l IH] using rev_ind; intros r Hq.
  { apply Hroot, Hq. }
  rewrite !blk_at_snoc. destruct (valid_snoc _ _ _ Hq) as (Hq' & _ & Hj). rewrite IH by exact Hq'.
  unfold follow. destruct (decide ((r, l) = p)) as [E|Hne].
  - rewrite (proj2 (Z.eqb_neq b 0)), Hzero, get32_zero by lia.
    rewrite E, Hp0. rewrite decide_False; [reflexivity|].
    intros E'. rewrite <- E in E'. apply (f_equal (length ∘ snd)) in E'. simpl in E'. rewrite length_app in E'. simpl in E'. lia.
  - destruct (Z.eqb_spec (blk_at s ip (r, l)) 0) as [E|E]; [|apply Hstep; assumption].
    rewrite decide_False; [reflexivity|]. intros E'. apply (Hpar l j); [rewrite <- E'; reflexivity|].
    rewrite <- E'. exact E.
Qed.

Lemma fill_ok : inode_ok s' ip'.
Proof.
  pose proof (data_start_pos _ Hf) as Hds.
  assert (Hnb : forall q, valid_pos q -> blk_at s ip q <> b).
  { intros q Hq E. destruct (io_blk _ _ Ho q Hq) as [_ Hu]; [lia|]. rewrite E in Hu. congruence. }
  split.
  - exact Hlen.
  - rewrite Hip. apply Ho.
  - intros q Hq. rewrite fill_at, Hsb by exact Hq. case_decide.
    + intros _. rewrite Hused, decide_True by lia. auto.
    + intros Hn. destruct (io_blk _ _ Ho q Hq Hn) as [Hr Hu]. rewrite Hused by lia. split; [exact Hr|].
      case_decide; auto.
  - intros q q' Hq Hq'. rewrite !fill_at by assumption. repeat case_decide; subst; auto.
    + intros _ E. destruct (Hnb q' Hq'). auto.
    + intros _ E. destruct (Hnb q Hq). auto.
    + apply Ho; assumption.
Qed.

Lemma fill_extends : extends (fun q => q = p) s ip s' ip'.
Proof.
  split.
  - intros q Hq Hn. rewrite fill_at, decide_False by assumption. reflexivity.
  - intros q Hq Hn. rewrite fill_at, decide_False by congruence. reflexivity.
  - intros q Hq H0. rewrite fill_at by assumption. case_decide; congruence.
  - intros q Hq Hl H0. rewrite fill_at by assumption. case_decide; congruence.
  - intros c Hc Hu. rewrite Hused by exact Hc. case_decide; auto.
  - exact Hblk.
  - exact Hmeta.
  - exact Hsb.
  - exact Hip.
Qed.

End Fill.

(** ** What one step and the whole of bmap return *)

(** At most [n] blocks of the disk are free. *)
Definition few_free (n : nat) (s : kernel) : Prop :=
  exists l : list Z, (length l <= n)%nat /\
    forall c, 0 <= c < sb_size (k_sb s) -> used s c = false -> c ∈ l.

(** At most [n] blocks have been taken between [s] and [s']. *)
Definition took (n : nat) (s s' : kernel) : Prop :=
  exists l : list Z, (length l <= n)%nat /\
    forall c, 0 <= c < sb_size (k_sb s) -> used s' c = true -> used s c = true \/ c ∈ l.

(** Only the disk and inode [i] differ. *)
Definition only_inode (i : nat) (ip' : inode) (s s' : kernel) : Prop :=
  s' = s <| k_disk := k_disk s' |> <| k_inodes := <[i := ip']> (k_inodes s) |>.

Record slot_post (n i : nat) (P : pos -> Prop) (p : pos) (s : kernel) (ip : inode) (a : Z) (s' : kernel)
  (ip' : inode) : Prop := {
  sp_fs : fs_ok s';
  sp_ok : inode_ok s' ip';
  sp_at : blk_at s' ip' p = a;
  sp_nz : a <> 0;
  sp_ext : extends P s ip s' ip';
  sp_took : took n s s';
  sp_only : only_inode i ip' s s';
  sp_ip : k_inodes s' !! i = Some ip'
}.

(** The step returns, or the kernel stops because at most [n - 1] blocks were
    free. *)
Definition slot_runs (n i : nat) (P : pos -> Prop) (p : pos) (s : kernel) (ip : inode)
  (o : outcome kernel Z) : Prop :=
  (exists a s' ip', o = Done a s' /\ slot_post n i P p s ip a s' ip') \/
  (few_free (n - 1) s /\ o = Halt (Panic "balloc: out of blocks")).

Lemma few_free_back (n m : nat) (s s' : kernel) :
  k_sb s' = k_sb s -> took n s s' -> few_free m s' -> few_free (n + m) s.
Proof.
  intros Hsb (l & Hl & Ht) (l' & Hl' & Hf). exists (l ++ l'). split; [rewrite length_app; lia|].
  intros c Hc Hu. rewrite elem_of_app. destruct (used s' c) eqn:E.
  - destruct (Ht c Hc E) as [|]; [congruence|auto].
  - right. apply Hf; [rewrite Hsb; exact Hc|exact E].
Qed.

Lemma took_trans (n m : nat) (s s1 s2 : kernel) :
  k_sb s1 = k_sb s -> took n s s1 -> took m s1 s2 -> took (n + m) s s2.
Proof.
  intros Hsb (l & Hl & Ht) (l' & Hl' & Ht'). exists (l ++ l'). split; [rewrite length_app; lia|].
  intros c Hc Hu. rewrite elem_of_app. destruct (Ht' c) as [H|H]; [rewrite Hsb; exact Hc|exact Hu| |auto].
  destruct (Ht c Hc H); auto.
Qed.

Lemma took_refl (n : nat) (s : kernel) : took n s s.
Proof. exists []. split; [simpl; lia|auto]. Qed.

Lemma slot_post_refl (n i : nat) (P : pos -> Prop) (p : pos) (s : kernel) (ip : inode) :
  fs_ok s -> inode_ok s ip -> k_inodes s !! i = Some ip -> blk_at s ip p <> 0 ->
  slot_post n i P p s ip (blk_at s ip p) s ip.
Proof.
  intros Hf Ho Hi Hn. split; auto using extends_refl, took_refl.
  unfold only_inode. rewrite list_insert_id by exact Hi. reflexivity.
Qed.

Lemma slot_post_trans (n m i : nat) (P : pos -> Prop) (p p' : pos) (s s1 s2 : kernel) (ip ip1 ip2 : inode) (a a' : Z) :
  slot_post n i P p s ip a s1 ip1 -> slot_post m i P p' s1 ip1 a' s2 ip2 ->
  slot_post (n + m) i P p' s ip a' s2 ip2.
Proof.
  intros H1 H2. split; try apply H2.
  - eapply extends_trans; [apply H1|apply H1|apply H2|apply H1|apply H2].
  - eapply took_trans; [apply (ex_sb _ _ _ _ _ (sp_ext _ _ _ _ _ _ _ _ _ H1))|apply H1|apply H2].
  - pose proof (sp_only _ _ _ _ _ _ _ _ _ H1) as E1. pose proof (sp_only _ _ _ _ _ _ _ _ _ H2) as E2.
    unfold only_inode in *. rewrite E2, E1. simpl. rewrite list_insert_insert_eq. reflexivity.
Qed.

Lemma slot_then (n m i : nat) (P : pos -> Prop) (p p' : pos) (s : kernel) (ip : inode) (e : K Z) (f : Z -> K Z) :
  (0 < m)%nat -> slot_runs n i P p s ip (e s) ->
  (forall a s' ip', slot_post n i P p s ip a s' ip' -> slot_runs m i P p' s' ip' (f a s')) ->
  slot_runs (n + m) i P p' s ip ((e ≫= f) s).
Proof.
  intros Hm [ (a & s1 & ip1 & E & H1) | [Hfew E] ] Hnext.
  - rewrite (bind_Done _ _ _ _ _ E). destruct (Hnext a s1 ip1 H1) as [ (a2 & s2 & ip2 & E2 & H2) | [Hfew E2] ].
    + left. exists a2, s2, ip2. split; [exact E2|]. eapply slot_post_trans; eassumption.
    + right. split; [|exact E2]. replace (n + m - 1)%nat with (n + (m - 1))%nat by lia.
      eapply few_free_back; [apply (ex_sb _ _ _ _ _ (sp_ext _ _ _ _ _ _ _ _ _ H1))|apply H1|exact Hfew].
  - right. split; [|apply bind_Halt; exact E]. destruct Hfew as (l & Hl & H). exists l. split; [lia|exact H].
Qed.

Section Slots.
Context {F : Fuel} {DV : Devsw}.
#[local] Existing Instance raw_disk.

Section AllocFacts.
Context (s : kernel) (b : Z).
Context (Hf : fs_ok s) (Hb : data_start (k_sb s) <= b < sb_size (k_sb s)).

Lemma alloc_used (c : Z) :
  0 <= c < sb_size (k_sb s) -> used (alloc_block b s) c = if decide (c = b) then true else used s c.
Proof.
  intros Hc. unfold alloc_block.
  rewrite used_set_data by (try apply fs_ok_set_used; try assumption; change (k_sb (set_used b true s)) with (k_sb s); lia).
  apply used_set_used. exact Hf.
Qed.

Lemma alloc_blk (c : Z) :
  data_start (k_sb s) <= c -> Blk (alloc_block b s) c = if decide (c = b) then zero_block else Blk s c.
Proof.
  intros Hc. pose proof (data_start_pos _ Hf). unfold alloc_block. rewrite Blk_set. case_decide; [reflexivity|].
  apply Blk_set_used; [exact Hf|lia|exact Hc].
Qed.

Lemma bmapstart_data (c : Z) : c < sb_bmapstart (k_sb s) -> c < data_start (k_sb s).
Proof.
  unfold data_start. assert (0 <= sb_size (k_sb s) / BPB); [|lia].
  apply Z.div_pos; [apply sb_size_nonneg; exact Hf|reflexivity].
Qed.

Lemma alloc_meta (c : Z) : c < sb_bmapstart (k_sb s) -> Blk (alloc_block b s) c = Blk s c.
Proof.
  intros Hc. pose proof (bmapstart_data _ Hc). pose proof (data_start_pos _ Hf). unfold alloc_block, set_used.
  rewrite !Blk_set, !decide_False; [reflexivity| |lia].
  unfold BBLOCK. assert (0 <= b / BPB) by (apply Z.div_pos; [lia|reflexivity]). lia.
Qed.

Lemma alloc_fs_ok : fs_ok (alloc_block b s).
Proof.
  apply fs_ok_set_blk; [apply fs_ok_set_used; assumption|apply Hb|apply is_block_zero].
Qed.

Lemma alloc_took (s' : kernel) :
  (forall c, 0 <= c < sb_size (k_sb s) -> used s' c = if decide (c = b) then true else used s c) ->
  took 1 s s'.
Proof.
  intros H. exists [b]. split; [simpl; lia|]. intros c Hc Hu. rewrite H in Hu by exact Hc.
  case_decide; [right; subst c; constructor|left; exact Hu].
Qed.

End AllocFacts.

Lemma fill_post (i : nat) (P : pos -> Prop) (s s' : kernel) (ip ip' : inode) (p : pos) (b : Z) :
  fs_ok s -> inode_ok s ip -> valid_pos p -> blk_at s ip p = 0 -> P p ->
  data_start (k_sb s) <= b < sb_size (k_sb s) -> used s b = false ->
  (forall l j, p.2 = l ++ [j] -> blk_at s ip (p.1, l) <> 0) ->
  k_sb s' = k_sb s -> ip' = ip <| iaddrs := iaddrs ip' |> -> length (iaddrs ip') = NADDRS ->
  (forall c, 0 <= c < sb_size (k_sb s) -> used s' c = if decide (c = b) then true else used s c) ->
  Blk s' b = zero_block ->
  (forall r, (r < 13)%nat -> root_of ip' r = if decide ((r, []) = p) then b else root_of ip r) ->
  (forall r l j, valid_pos (r, l ++ [j]) -> blk_at s ip (r, l) <> 0 ->
     get32 (Blk s' (blk_at s ip (r, l))) (4 * j) =
     if decide ((r, l ++ [j]) = p) then b else get32 (Blk s (blk_at s ip (r, l))) (4 * j)) ->
  fs_ok s' ->
  (forall c, data_start (k_sb s) <= c < sb_size (k_sb s) -> used s c = true ->
     (forall q, valid_pos q -> ~ leaf q -> blk_at s ip q <> c) -> Blk s' c = Blk s c) ->
  (forall c, c < sb_bmapstart (k_sb s) -> Blk s' c = Blk s c) ->
  only_inode i ip' s s' -> k_inodes s' !! i = Some ip' ->
  slot_post 1 i P p s ip b s' ip'.
Proof.
  intros Hf Ho Hp Hp0 HP Hb Hu Hpar Hsb Hip Hlen Hused Hz Hroot Hstep Hf' Hblk Hmeta Honly Hi'.
  split; try assumption.
  - apply (fill_ok s s' ip ip' p b); assumption.
  - rewrite (fill_at s s' ip ip' p b) by assumption. rewrite decide_True by reflexivity. reflexivity.
  - pose proof (data_start_pos _ Hf). lia.
  - eapply extends_mono; [|apply (fill_extends s s' ip ip' p b); assumption]. intros q ->. exact HP.
  - exact (alloc_took s b s' Hused).
Qed.

Lemma full_few (s : kernel) :
  (forall b, 0 <= b < sb_size (k_sb s) -> used s b = true) -> few_free 0 s.
Proof. intros H. exists []. split; [simpl; lia|]. intros c Hc Hu. rewrite H in Hu by exact Hc. discriminate. Qed.

Lemma fs_ok_inodes (s : kernel) (l : list inode) : fs_ok s -> fs_ok (s <| k_inodes := l |>).
Proof. intros [H1 H2 H3 H4 H5 H6 H7]. split; assumption. Qed.

Lemma put_alter (s : kernel) (i : nat) (ip : inode) (f : inode -> inode) :
  k_inodes s !! i = Some ip -> upd_inode i f s = Done tt (s <| k_inodes := <[i := f ip]> (k_inodes s) |>).
Proof.
  intros H. unfold upd_inode. rewrite modify_run. f_equal.
  assert (E : alter f i (k_inodes s) = <[i := f ip]> (k_inodes s)).
  { apply list_eq. intros k. destruct (decide (k = i)) as [->|Hne].
    - rewrite list_lookup_alter_eq, list_lookup_insert_eq, H by (eapply lookup_lt_Some; exact H). reflexivity.
    - rewrite list_lookup_alter_ne, list_lookup_insert_ne by congruence. reflexivity. }
  rewrite <- E. reflexivity.
Qed.

Lemma data_not_free (s : kernel) (ip : inode) (p : pos) (b : Z) :
  inode_ok s ip -> valid_pos p -> blk_at s ip p <> 0 -> used s b = false -> blk_at s ip p <> b.
Proof. intros Ho Hp Hn Hu E. destruct (io_blk _ _ Ho p Hp Hn) as [_ H]. congruence. Qed.

Lemma root_slot_run (i : nat) (P : pos -> Prop) (r : nat) (s : kernel) (ip : inode) :
  fs_ok s -> inode_ok s ip -> k_inodes s !! i = Some ip -> (r < 13)%nat -> P (r, []) ->
  slot_runs 1 i P (r, []) s ip (root_slot i (Z.of_nat r) s).
Proof.
  intros Hf Ho Hi Hr HP. unfold root_slot. rewrite (bind_Done _ _ _ _ _ (inode_at_some _ _ _ Hi)).
  destruct (lookup_lt_is_Some_2 (iaddrs ip) r) as [a Ha]; [rewrite (io_len _ _ Ho); exact Hr|].
  rewrite Nat2Z.id, (bind_Done _ _ _ _ _ (deref_run _ _ s Ha)).
  assert (Hra : blk_at s ip (r, []) = a) by (unfold blk_at, root_of; simpl; rewrite Ha; reflexivity).
  assert (Hv : valid_pos (r, [])) by (split_and!; [exact Hr|simpl; lia|constructor]).
  destruct (Z.eqb_spec a 0) as [E0|Hn].
  2:{ left. exists a, s, ip. split; [reflexivity|]. subst a. apply slot_post_refl; assumption. }
  rewrite (io_dev _ _ Ho). destruct (balloc_run s Hf) as [ (b & (Hb & Hu & _) & Hd & E) | [Hfull E] ].
  2:{ right. split; [apply full_few; exact Hfull|apply bind_Halt; exact E]. }
  rewrite (bind_Done _ _ _ _ _ E). assert (Hb' : data_start (k_sb s) <= b < sb_size (k_sb s)) by lia.
  rewrite (bind_Done _ _ _ _ _ (put_alter (alloc_block b s) i ip _ Hi)).
  set (ip' := ip <| iaddrs ::= _ |>). left. eexists b, _, ip'. split; [reflexivity|].
  set (s' := alloc_block b s <| k_inodes := _ |>).
  assert (Hlen : length (iaddrs ip') = NADDRS) by (simpl; rewrite length_insert; apply Ho).
  assert (Hused : forall c, 0 <= c < sb_size (k_sb s) -> used s' c = if decide (c = b) then true else used s c)
    by (intros c Hc; apply alloc_used; assumption).
  assert (Hblk : forall c, data_start (k_sb s) <= c -> Blk s' c = if decide (c = b) then zero_block else Blk s c)
    by (intros c Hc; apply alloc_blk; assumption).
  assert (Hz : Blk s' b = zero_block) by (rewrite Hblk, decide_True by lia; reflexivity).
  assert (Hp0 : blk_at s ip (r, []) = 0) by congruence.
  assert (Hpar : forall l j, ((r, []) : pos).2 = l ++ [j] -> blk_at s ip (r, l) <> 0)
    by (intros l j Habs; destruct l; discriminate Habs).
  assert (Hroot : forall k, (k < 13)%nat -> root_of ip' k = if decide (((k, []) : pos) = (r, [])) then b else root_of ip k).
  { intros k Hk. unfold root_of. simpl. destruct (decide (k = r)) as [->|Hne].
    - rewrite list_lookup_insert_eq, decide_True by (reflexivity || rewrite (io_len _ _ Ho); exact Hr). reflexivity.
    - rewrite list_lookup_insert_ne, decide_False by congruence. reflexivity. }
  assert (Hstep : forall k l j, valid_pos (k, l ++ [j]) -> blk_at s ip (k, l) <> 0 ->
    get32 (Blk s' (blk_at s ip (k, l))) (4 * j) =
    if decide (((k, l ++ [j]) : pos) = (r, [])) then b else get32 (Blk s (blk_at s ip (k, l))) (4 * j)).
  { intros k l j Hq Hn. destruct (valid_snoc _ _ _ Hq) as (Hq' & _).
    rewrite decide_False by (intros Habs; destruct l; discriminate Habs).
    rewrite Hblk, decide_False by (apply (io_blk _ _ Ho) || (apply data_not_free); assumption). reflexivity. }
  apply (fill_post i P s s' ip ip' (r, []) b); auto.
  - apply fs_ok_inodes, alloc_fs_ok; assumption.
  - intros c Hc Huc _. rewrite Hblk, decide_False by (congruence || lia). reflexivity.
  - intros c Hc. apply alloc_meta; assumption.
  - reflexivity.
  - simpl. apply list_lookup_insert_eq. eapply lookup_lt_Some. exact Hi.
Qed.

Lemma table_slot_run (i : nat) (P : pos -> Prop) (r : nat) (l : list Z) (j : Z) (s : kernel) (ip : inode) :
  fs_ok s -> inode_ok s ip -> k_inodes s !! i = Some ip -> valid_pos (r, l ++ [j]) -> P (r, l ++ [j]) ->
  blk_at s ip (r, l) <> 0 ->
  slot_runs 1 i P (r, l ++ [j]) s ip (table_slot 1 (blk_at s ip (r, l)) j s).
Proof.
  intros Hf Ho Hi Hv HP Ht. set (t := blk_at s ip (r, l)) in *.
  destruct (valid_snoc _ _ _ Hv) as (Hv' & Hl' & Hj). destruct (io_blk _ _ Ho _ Hv' Ht) as [Hr Hut]. fold t in Hr, Hut.
  pose proof (data_start_pos _ Hf) as Hds. pose proof (fs_size _ Hf) as Hsz.
  unfold table_slot. rewrite (bind_Done _ _ _ _ _ (raw_read t s ltac:(lia))), (bind_Done _ _ _ _ _ (raw_data t s)).
  cbv zeta. assert (Hat : blk_at s ip (r, l ++ [j]) = get32 (Blk s t) (4 * j)).
  { rewrite blk_at_snoc. unfold follow. fold t. rewrite (proj2 (Z.eqb_neq t 0)) by exact Ht. reflexivity. }
  rewrite <- Hat. destruct (Z.eqb_spec (blk_at s ip (r, l ++ [j])) 0) as [E0|Hn].
  2:{ left. eexists _, s, ip. split; [reflexivity|]. apply slot_post_refl; assumption. }
  destruct (balloc_run s Hf) as [ (b & (Hb & Hu & _) & Hd & E) | [Hfull E] ].
  2:{ right. split; [apply full_few; exact Hfull|]. apply bind_Halt, bind_Halt. exact E. }
  assert (Hb' : data_start (k_sb s) <= b < sb_size (k_sb s)) by lia.
  assert (Hbt : b <> t) by congruence.
  set (s' := set_blk t (put32 (Blk (alloc_block b s) t) (4 * j) b) (alloc_block b s)).
  left. exists b, s', ip. split.
  { erewrite bind_Done; [reflexivity|]. rewrite (bind_Done _ _ _ _ _ E). reflexivity. }
  assert (Hused : forall c, 0 <= c < sb_size (k_sb s) -> used s' c = if decide (c = b) then true else used s c).
  { intros c Hc. unfold s'. rewrite used_set_data by (apply alloc_fs_ok || apply Hr || assumption; assumption).
    apply alloc_used; assumption. }
  assert (Htab : Blk (alloc_block b s) t = Blk s t) by (rewrite alloc_blk, decide_False by (assumption || lia); reflexivity).
  assert (Hblk : forall c, data_start (k_sb s) <= c -> c <> t ->
    Blk s' c = if decide (c = b) then zero_block else Blk s c).
  { intros c Hc Hct. unfold s'. rewrite Blk_set, decide_False by exact Hct. apply alloc_blk; assumption. }
  assert (Hlen : length (Blk s t) = 512%nat) by apply (fs_block _ Hf).
  apply (fill_post i P s s' ip ip (r, l ++ [j]) b); auto.
  - intros l' j' Hlj. simpl in Hlj. apply app_inj_tail in Hlj. destruct Hlj as [<- <-]. exact Ht.
  - apply Ho.
  - rewrite Hblk, decide_True by (assumption || lia). reflexivity.
  - intros k Hk. rewrite decide_False; [reflexivity|]. intros Habs. destruct l; discriminate Habs.
  - intros k l' j' Hq Hnz. destruct (valid_snoc _ _ _ Hq) as (Hq' & _ & Hj').
    destruct (decide (blk_at s ip (k, l') = t)) as [Et|Et].
    + assert (Ekl : (k, l') = (r, l)) by (apply (io_inj _ _ Ho); assumption). injection Ekl as -> ->.
      fold t. unfold s'. rewrite Blk_set, decide_True, Htab by reflexivity.
      destruct (decide (j' = j)) as [->|Hne].
      * rewrite decide_True, get_put32_same by (reflexivity || (rewrite ?Hlen; lia)).
        apply u32_small. unfold FSSIZE in Hsz. lia.
      * rewrite decide_False, get_put32_other by ((rewrite ?Hlen; lia) || (intros Habs; apply Hne; injection Habs as Habs; apply app_inj_tail in Habs; apply Habs)). reflexivity.
    + rewrite decide_False by (intros Habs; apply Et; injection Habs as -> Habs; apply app_inj_tail in Habs; destruct Habs as [-> _]; reflexivity).
      destruct (io_blk _ _ Ho _ Hq' Hnz) as [Hr' Hu']. rewrite Hblk, decide_False by (congruence || lia). reflexivity.
  - apply fs_ok_set_blk; [apply alloc_fs_ok; assumption|apply Hr|]. rewrite Htab. apply is_block_put32; [lia|apply Hf].
  - intros c Hc Huc Hnt. rewrite Hblk, decide_False by (congruence || lia || (intros Ec; apply (Hnt (r, l)); auto)). reflexivity.
  - intros c Hc. pose proof (bmapstart_data s Hf c Hc). unfold s'.
    rewrite Blk_set, decide_False by lia. apply alloc_meta; assumption.
  - unfold only_inode. rewrite list_insert_id by exact Hi. reflexivity.
Qed.

(** ** bmap *)

Lemma slot_runs_mono (n m i : nat) (P : pos -> Prop) (p : pos) (s : kernel) (ip : inode) (o : outcome kernel Z) :
  (n <= m)%nat -> slot_runs n i P p s ip o -> slot_runs m i P p s ip o.
Proof.
  intros Hnm [ (a & s' & ip' & E & H) | [ (l & Hl & H) E] ].
  - left. exists a, s', ip'. split; [exact E|]. destruct H as [H1 H2 H3 H4 H5 (l & Hl & H6) H7 H8].
    split; auto. exists l. split; [lia|exact H6].
  - right. split; [|exact E]. exists l. split; [lia|exact H].
Qed.

(** The position of file block [bn]. *)
Definition pos_of (bn : Z) : pos :=
  if bn <? 10 then (Z.to_nat bn, [])
  else if bn <? 138 then (10%nat, [bn - 10])
  else if bn <? 16522 then (11%nat, [(bn - 138) / 128; (bn - 138) mod 128])
  else (12%nat, [(bn - 16522) / 16384; (bn - 16522) mod 16384 / 128; (bn - 16522) mod 128]).

Lemma pos_of_valid (bn : Z) : 0 <= bn < MAXFILE -> valid_pos (pos_of bn) /\ leaf (pos_of bn).
Proof.
  change MAXFILE with 2113674. unfold pos_of, valid_pos, leaf, levels. intros H.
  repeat case_match; simpl; rewrite ?Forall_cons, ?Forall_nil; Z.div_mod_to_equations; lia.
Qed.

Definition on_path (bn : Z) (q : pos) : Prop := q.1 = (pos_of bn).1 /\ q.2 `prefix_of` (pos_of bn).2.

(** One more table below a block that has just been found. *)
Lemma table_next (n i : nat) (P : pos -> Prop) (r : nat) (l : list Z) (j a : Z) (s s' : kernel) (ip ip' : inode) :
  slot_post n i P (r, l) s ip a s' ip' -> valid_pos (r, l ++ [j]) -> P (r, l ++ [j]) ->
  slot_runs 1 i P (r, l ++ [j]) s' ip' (table_slot 1 a j s').
Proof.
  intros H Hv HP. rewrite <- (sp_at _ _ _ _ _ _ _ _ _ H).
  apply table_slot_run; try apply H; try assumption.
  rewrite (sp_at _ _ _ _ _ _ _ _ _ H). apply H.
Qed.

(** The first step of an indirect block: the root, then the tables with the
    device of the inode. *)
Lemma root_then (m i : nat) (P : pos -> Prop) (r : nat) (p : pos) (s : kernel) (ip : inode) (f : Z -> Z -> K Z) :
  fs_ok s -> inode_ok s ip -> k_inodes s !! i = Some ip -> (r < 13)%nat -> P (r, []) -> (0 < m)%nat ->
  (forall a s' ip', slot_post 1 i P (r, []) s ip a s' ip' -> slot_runs m i P p s' ip' (f 1 a s')) ->
  slot_runs (S m) i P p s ip ((a ← root_slot i (Z.of_nat r); ip ← inode_at i; f (idev ip) a) s).
Proof.
  intros Hf Ho Hi Hr HP Hm H. apply (slot_then 1 m i P (r, [])); [exact Hm|apply root_slot_run; assumption|].
  intros a s' ip' H1. rewrite (bind_Done _ _ _ _ _ (inode_at_some _ _ _ (sp_ip _ _ _ _ _ _ _ _ _ H1))).
  rewrite (io_dev _ _ (sp_ok _ _ _ _ _ _ _ _ _ H1)). apply H. exact H1.
Qed.

Lemma valid_prefix (r : nat) (l l' : list Z) : valid_pos (r, l ++ l') -> valid_pos (r, l).
Proof.
  unfold valid_pos. simpl. rewrite length_app, Forall_app. intros (H1 & H2 & H3 & _). split_and!; try assumption; lia.
Qed.

Lemma bmap_run (i : nat) (bn : Z) (s : kernel) (ip : inode) :
  fs_ok s -> inode_ok s ip -> k_inodes s !! i = Some ip -> 0 <= bn < MAXFILE ->
  slot_runs 4 i (on_path bn) (pos_of bn) s ip (bmap i bn s).
Proof.
  intros Hf Ho Hi Hbn. destruct (pos_of_valid bn Hbn) as [Hv _]. change MAXFILE with 2113674 in Hbn.
  assert (HP : forall r l l', pos_of bn = (r, l ++ l') -> on_path bn (r, l)).
  { unfold on_path. intros r l l' ->. split; [reflexivity|]. apply prefix_app_r. reflexivity. }
  unfold pos_of in Hv, HP |- *. unfold bmap. change NDIRECT with 10. change NINDIRECT with 128.
  change (128 * 128) with 16384. change (16384 * 128) with 2097152.
  destruct (Z.ltb_spec bn 10) as [L0|L0].
  { apply (slot_runs_mono 1); [lia|]. rewrite <- (Z2Nat.id bn) at 3 by lia.
    apply root_slot_run; try assumption; [lia|]. apply (HP _ [] [] eq_refl). }
  destruct (Z.ltb_spec bn 138) as [L1|L1].
  { rewrite (proj2 (Z.ltb_lt _ _)) by lia. apply (slot_runs_mono 2); [lia|].
    apply (root_then 1 i _ 10 _ s ip (fun d a => table_slot d a (bn - 10))); try assumption; try lia.
    - apply (HP _ [] _ eq_refl).
    - intros a s' ip' H1. apply (table_next 1 i _ 10 [] _ _ _ _ _ _ H1 Hv). apply (HP _ [_] [] eq_refl). }
  rewrite (proj2 (Z.ltb_ge (bn - 10) _)) by lia. replace (bn - 10 - 128) with (bn - 138) by lia.
  destruct (Z.ltb_spec bn 16522) as [L2|L2].
  { rewrite (proj2 (Z.ltb_lt _ _)) by lia. apply (slot_runs_mono 3); [lia|].
    apply (root_then 2 i _ 11 _ s ip (fun d a => a ← table_slot d a ((bn - 138) / 128); table_slot d a ((bn - 138) mod 128)));
      try assumption; try lia; [apply (HP _ [] _ eq_refl)|].
    intros a s' ip' H1. apply (slot_then 1 1 i _ (11%nat, [(bn - 138) / 128])); [lia| |].
    - apply (table_next 1 i _ 11 [] _ _ _ _ _ _ H1); [exact (valid_prefix _ [_] [_] Hv)|exact (HP _ [_] [_] eq_refl)].
    - intros b s2 ip2 H2. apply (table_next 1 i _ 11 [_] _ _ _ _ _ _ H2 Hv). exact (HP _ [_; _] [] eq_refl). }
  rewrite (proj2 (Z.ltb_ge (bn - 138) _)) by lia. replace (bn - 138 - 16384) with (bn - 16522) by lia.
  rewrite (proj2 (Z.ltb_lt _ _)) by lia. cbv zeta.
  rewrite <- (Z.mod_eq (bn - 16522) 16384) by discriminate.
  replace ((bn - 16522) mod 16384 mod 128) with ((bn - 16522) mod 128) by (Z.div_mod_to_equations; lia).
  apply (root_then 3 i _ 12 _ s ip (fun d a => a ← table_slot d a ((bn - 16522) / 16384);
      a ← table_slot d a ((bn - 16522) mod 16384 / 128); table_slot d a ((bn - 16522) mod 128)));
    try assumption; try lia; [apply (HP _ [] _ eq_refl)|].
  intros a s' ip' H1. apply (slot_then 1 2 i _ (12%nat, [(bn - 16522) / 16384])); [lia| |].
  { apply (table_next 1 i _ 12 [] _ _ _ _ _ _ H1); [exact (valid_prefix _ [_] [_; _] Hv)|exact (HP _ [_] [_; _] eq_refl)]. }
  intros b s2 ip2 H2. apply (slot_then 1 1 i _ (12%nat, [(bn - 16522) / 16384; (bn - 16522) mod 16384 / 128])); [lia| |].
  { apply (table_next 1 i _ 12 [_] _ _ _ _ _ _ H2); [exact (valid_prefix _ [_; _] [_] Hv)|exact (HP _ [_; _] [_] eq_refl)]. }
  intros c s3 ip3 H3. apply (table_next 1 i _ 12 [_; _] _ _ _ _ _ _ H3 Hv). exact (HP _ [_; _; _] [] eq_refl).
Qed.

(** ** A block that is there *)

Lemma follow_nz (s : kernel) (a j : Z) : follow s a j <> 0 -> a <> 0 /\ follow s a j = get32 (Blk s a) (4 * j).
Proof. unfold follow. destruct (Z.eqb_spec a 0); [congruence|auto]. Qed.

Lemma root_slot_present (i r : nat) (s : kernel) (ip : inode) :
  k_inodes s !! i = Some ip -> root_of ip r <> 0 -> root_slot i (Z.of_nat r) s = Done (root_of ip r) s.
Proof.
  unfold root_of. intros Hi Hn. unfold root_slot. rewrite (bind_Done _ _ _ _ _ (inode_at_some _ _ _ Hi)), Nat2Z.id.
  destruct (iaddrs ip !! r) as [a|] eqn:E; [|simpl in Hn; congruence].
  change (default 0 (Some a)) with a in *. rewrite (bind_Done _ _ _ _ _ (deref_run _ _ s eq_refl)), (proj2 (Z.eqb_neq a 0)) by exact Hn. reflexivity.
Qed.

Lemma table_slot_present (s : kernel) (a j : Z) :
  a < FSSIZE -> follow s a j <> 0 -> table_slot 1 a j s = Done (follow s a j) s.
Proof.
  intros Ha Hn. destruct (follow_nz _ _ _ Hn) as [_ E]. unfold table_slot.
  rewrite (bind_Done _ _ _ _ _ (raw_read a s Ha)), (bind_Done _ _ _ _ _ (raw_data a s)). cbv zeta.
  rewrite <- E, (proj2 (Z.eqb_neq _ 0)) by exact Hn. reflexivity.
Qed.

(** [bmap] of a block that the file has returns it and changes nothing. *)
Lemma bmap_present (i : nat) (bn : Z) (s : kernel) (ip : inode) :
  fs_ok s -> inode_ok s ip -> k_inodes s !! i = Some ip -> 0 <= bn < MAXFILE ->
  blk_at s ip (pos_of bn) <> 0 -> bmap i bn s = Done (blk_at s ip (pos_of bn)) s.
Proof.
  intros Hf Ho Hi Hbn Hn. destruct (pos_of_valid bn Hbn) as [Hv _]. change MAXFILE with 2113674 in Hbn.
  assert (Hsz : forall r l, valid_pos (r, l) -> blk_at s ip (r, l) <> 0 -> blk_at s ip (r, l) < FSSIZE).
  { intros r l Hq Hnq. pose proof (fs_size _ Hf). pose proof (io_blk _ _ Ho _ Hq Hnq). lia. }
  assert (Hin : forall r k f, k = Z.of_nat r -> root_of ip r <> 0 ->
    (a ← root_slot i k; ip ← inode_at i; f (idev ip) a : K Z) s = f 1 (root_of ip r) s).
  { intros r k f -> Hnr. rewrite (bind_Done _ _ _ _ _ (root_slot_present i r s ip Hi Hnr)).
    rewrite (bind_Done _ _ _ _ _ (inode_at_some _ _ _ Hi)), (io_dev _ _ Ho). reflexivity. }
  unfold pos_of in Hv, Hn |- *. unfold bmap. change NDIRECT with 10. change NINDIRECT with 128.
  change (128 * 128) with 16384. change (16384 * 128) with 2097152.
  destruct (Z.ltb_spec bn 10) as [L0|L0].
  { rewrite <- (Z2Nat.id bn) at 1 by lia. apply root_slot_present; [exact Hi|exact Hn]. }
  destruct (Z.ltb_spec bn 138) as [L1|L1].
  { rewrite (proj2 (Z.ltb_lt _ _)) by lia. destruct (follow_nz _ _ _ Hn) as [N0 _].
    rewrite (Hin 10%nat _ (fun d a => table_slot d a (bn - 10)) eq_refl N0).
    apply table_slot_present; [|exact Hn]. exact (Hsz 10%nat [] (valid_prefix _ [] _ Hv) N0). }
  rewrite (proj2 (Z.ltb_ge (bn - 10) _)) by lia. replace (bn - 10 - 128) with (bn - 138) by lia.
  destruct (Z.ltb_spec bn 16522) as [L2|L2].
  { rewrite (proj2 (Z.ltb_lt _ _)) by lia. destruct (follow_nz _ _ _ Hn) as [N1 _]. destruct (follow_nz _ _ _ N1) as [N0 _].
    rewrite (Hin 11%nat _ (fun d a => a ← table_slot d a ((bn - 138) / 128); table_slot d a ((bn - 138) mod 128)) eq_refl N0).
    rewrite (bind_Done _ _ _ _ _ (table_slot_present s _ _ (Hsz 11%nat [] (valid_prefix _ [] _ Hv) N0) N1)).
    apply table_slot_present; [|exact Hn]. exact (Hsz 11%nat [_] (valid_prefix _ [_] [_] Hv) N1). }
  rewrite (proj2 (Z.ltb_ge (bn - 138) _)) by lia. replace (bn - 138 - 16384) with (bn - 16522) by lia.
  rewrite (proj2 (Z.ltb_lt _ _)) by lia. cbv zeta. rewrite <- (Z.mod_eq (bn - 16522) 16384) by discriminate.
  replace ((bn - 16522) mod 16384 mod 128) with ((bn - 16522) mod 128) by (Z.div_mod_to_equations; lia).
  destruct (follow_nz _ _ _ Hn) as [N2 _]. destruct (follow_nz _ _ _ N2) as [N1 _]. destruct (follow_nz _ _ _ N1) as [N0 _].
  rewrite (Hin 12%nat _ (fun d a => a ← table_slot d a ((bn - 16522) / 16384);
      a ← table_slot d a ((bn - 16522) mod 16384 / 128); table_slot d a ((bn - 16522) mod 128)) eq_refl N0).
  rewrite (bind_Done _ _ _ _ _ (table_slot_present s _ _ (Hsz 12%nat [] (valid_prefix _ [] _ Hv) N0) N1)).
  rewrite (bind_Done _ _ _ _ _ (table_slot_present s _ _ (Hsz 12%nat [_] (valid_prefix _ [_] [_; _] Hv) N1) N2)).
  apply table_slot_present; [|exact Hn]. exact (Hsz 12%nat [_; _] (valid_prefix _ [_; _] [_] Hv) N2).
Qed.

End Slots.
