(* ===== verification/Dinode.v ===== *)
(** * Inodes on disk

    The sixteen-word encoding of an inode and its decoding, and [iupdate],
    which stores the inode of the cache in its place on the disk. *)

From S2P Require Import Prelude Params Bytes CString Kernel Print Sleep Ide Bio Log Fs FsDisk.

Definition is_short (x : Z) : Prop := - 32768 <= x < 32768.
Definition is_uint (x : Z) : Prop := 0 <= x < 2 ^ 32.

Record dinode_ok (di : dinode) : Prop := {
  dk_type : is_short (d_type di); dk_major : is_short (d_major di); dk_minor : is_short (d_minor di);
  dk_nlink : is_short (d_nlink di); dk_size : is_uint (d_size di);
  dk_len : length (d_addrs di) = NADDRS; dk_addrs : Forall is_uint (d_addrs di)
}.

Lemma s16_le16 (x : Z) : is_short x -> s16 (u8 x + 256 * u8 (x / 256)) = x.
Proof. intros H. rewrite le16_sum. unfold is_short, s16, u16 in *. Z.div_mod_to_equations. lia. Qed.

Lemma get16_splice (d b : list Z) (off k : Z) :
  0 <= off -> off + Z.of_nat (length b) <= Z.of_nat (length d) -> 0 <= k -> k + 2 <= Z.of_nat (length b) ->
  get16 (splice d off b) (off + k) = get16 b k.
Proof.
  intros H0 H1 H2 H3. unfold get16. rewrite !splice_byte by lia. rewrite !decide_True by lia.
  do 2 f_equal; [|f_equal]; lia.
Qed.

Lemma get32_splice (d b : list Z) (off k : Z) :
  0 <= off -> off + Z.of_nat (length b) <= Z.of_nat (length d) -> 0 <= k -> k + 4 <= Z.of_nat (length b) ->
  get32 (splice d off b) (off + k) = get32 b k.
Proof.
  intros H0 H1 H2 H3. unfold get32. rewrite !splice_byte by lia. rewrite !decide_True by lia.
  replace (off + k - off) with k by lia. replace (off + k + 1 - off) with (k + 1) by lia.
  replace (off + k + 2 - off) with (k + 2) by lia. replace (off + k + 3 - off) with (k + 3) by lia. reflexivity.
Qed.

Lemma concat_le32_length (l : list Z) : length (concat (map le32 l)) = (4 * length l)%nat.
Proof. induction l; [reflexivity|]. cbn [map concat]. rewrite length_app, IHl. simpl length. lia. Qed.

Lemma length_dinode_bytes (di : dinode) : dinode_ok di -> length (dinode_bytes di) = 64%nat.
Proof.
  intros H. unfold dinode_bytes. rewrite !length_app, concat_le32_length, (dk_len _ H). reflexivity.
Qed.

Lemma get32_cons4 (v : Z) (l : list Z) : get32 (le32 v ++ l) 0 = u32 v.
Proof. unfold get32. exact (le32_sum v). Qed.

Lemma get32_drop (h l : list Z) (k : Z) :
  0 <= k -> get32 (h ++ l) (Z.of_nat (length h) + k) = get32 l k.
Proof.
  intros Hk. unfold get32, byte_at.
  assert (E : forall j, 0 <= j -> (h ++ l) !! Z.to_nat (Z.of_nat (length h) + k + j) = l !! Z.to_nat (k + j)).
  { intros j Hj. rewrite lookup_app_r by lia. f_equal. lia. }
  pose proof (E 0 ltac:(lia)) as E0. rewrite !Z.add_0_r in E0. rewrite E0, !E by lia. reflexivity.
Qed.

Lemma get32_concat (l : list Z) (k : nat) (v : Z) :
  l !! k = Some v -> get32 (concat (map le32 l)) (4 * Z.of_nat k) = u32 v.
Proof.
  revert k. induction l as [|w l IH]; intros k H; [discriminate|]. destruct k as [|k].
  - injection H as ->. apply get32_cons4.
  - cbn [map concat]. replace (4 * Z.of_nat (S k)) with (Z.of_nat (length (le32 w)) + 4 * Z.of_nat k) by (simpl length; lia).
    rewrite get32_drop by lia. apply IH. exact H.
Qed.

Lemma get_addrs_bytes (di : dinode) :
  dinode_ok di -> get_addrs (dinode_bytes di) 12 = d_addrs di.
Proof.
  intros H. unfold get_addrs. apply list_eq. intros k. rewrite list_lookup_fmap.
  destruct (decide (k < NADDRS)%nat) as [Hk|Hk].
  - rewrite lookup_seq_lt by exact Hk. simpl.
    destruct (lookup_lt_is_Some_2 (d_addrs di) k) as [v Hv]; [rewrite (dk_len _ H); exact Hk|]. rewrite Hv. f_equal.
    unfold dinode_bytes. rewrite !app_assoc. change 12 with (Z.of_nat (length
      ((((le16 (d_type di) ++ le16 (d_major di)) ++ le16 (d_minor di)) ++ le16 (d_nlink di)) ++ le32 (d_size di)))).
    rewrite get32_drop, (get32_concat _ _ _ Hv) by lia. apply u32_small.
    exact (Forall_lookup_1 _ _ _ _ (dk_addrs _ H) Hv).
  - rewrite (proj2 (lookup_ge_None (seq 0 NADDRS) k)) by (rewrite length_seq; lia). symmetry. apply lookup_ge_None.
    rewrite (dk_len _ H). lia.
Qed.

(** Decoding an encoded inode gives it back. *)
Lemma get_put_dinode (d : list Z) (off : Z) (di : dinode) :
  dinode_ok di -> 0 <= off -> off + 64 <= Z.of_nat (length d) ->
  get_dinode (put_dinode d off di) off = di.
Proof.
  intros H H0 Hl. pose proof (length_dinode_bytes _ H) as Hb. unfold get_dinode, put_dinode.
  rewrite <- (Z.add_0_r off) at 2. rewrite !get16_splice, get32_splice by lia.
  assert (E : get_addrs (splice d off (dinode_bytes di)) (off + 12) = get_addrs (dinode_bytes di) 12).
  { unfold get_addrs. apply list_fmap_ext. intros j k Hk. apply lookup_seq in Hk. unfold NADDRS in Hk.
    rewrite <- Z.add_assoc. apply get32_splice; lia. }
  rewrite E, get_addrs_bytes by exact H. destruct di as [t mj mn nl sz ad].
  unfold get16, get32, dinode_bytes, byte_at. simpl in *.
  rewrite !s16_le16, le32_sum, u32_small by apply H. reflexivity.
Qed.

(** The other inodes of the block keep their contents. *)
Lemma get_put_dinode_other (d : list Z) (off off' : Z) (di : dinode) :
  dinode_ok di -> 0 <= off -> off + 64 <= Z.of_nat (length d) ->
  0 <= off' -> off' + 64 <= off \/ off + 64 <= off' ->
  get_dinode (put_dinode d off di) off' = get_dinode d off'.
Proof.
  intros H H0 Hl H1 H2. pose proof (length_dinode_bytes _ H) as Hb. unfold get_dinode, put_dinode.
  assert (E : forall k, 0 <= k < 64 -> byte_at (splice d off (dinode_bytes di)) (off' + k) = byte_at d (off' + k)).
  { intros k Hk. rewrite splice_byte, decide_False by lia. reflexivity. }
  assert (E32 : forall k, 0 <= k -> k + 4 <= 64 -> get32 (splice d off (dinode_bytes di)) (off' + k) = get32 d (off' + k)).
  { intros k Hk Hk'. unfold get32. rewrite <- !Z.add_assoc, !E by lia. reflexivity. }
  assert (E16 : forall k, 0 <= k -> k + 2 <= 64 -> get16 (splice d off (dinode_bytes di)) (off' + k) = get16 d (off' + k)).
  { intros k Hk Hk'. unfold get16. rewrite <- !Z.add_assoc, !E by lia. reflexivity. }
  pose proof (E16 0 ltac:(lia) ltac:(lia)) as E0. rewrite Z.add_0_r in E0. rewrite E0, !E16, E32 by lia. f_equal.
  unfold get_addrs. apply list_fmap_ext. intros j k Hk. apply lookup_seq in Hk. unfold NADDRS in Hk.
  rewrite <- Z.add_assoc. apply E32; lia.
Qed.

(** ** iupdate *)

Section Iupdate.
Context {F : Fuel} {DV : Devsw}.
#[local] Existing Instance raw_disk.

(** The inode stored on the disk under number [k]. *)
Definition disk_inode (s : kernel) (k : Z) : dinode :=
  get_dinode (Blk s (IBLOCK k (k_sb s))) (inode_off k).

Definition store_inode (ip : inode) (s : kernel) : kernel :=
  set_blk (IBLOCK (inum ip) (k_sb s))
    (put_dinode (Blk s (IBLOCK (inum ip) (k_sb s))) (inode_off (inum ip)) (dinode_of ip)) s.

Lemma inode_off_range (k : Z) : 0 <= inode_off k <= 448.
Proof. unfold inode_off. change IPB with 8. change DINODE_SIZE with 64. Z.div_mod_to_equations. lia. Qed.

Lemma IBLOCK_range (s : kernel) (k : Z) :
  0 <= k < sb_ninodes (k_sb s) ->
  sb_inodestart (k_sb s) <= IBLOCK k (k_sb s) <= sb_inodestart (k_sb s) + sb_ninodes (k_sb s) / IPB.
Proof. unfold IBLOCK. change IPB with 8. intros H. Z.div_mod_to_equations. lia. Qed.

Lemma is_block_put_dinode (d : list Z) (off : Z) (di : dinode) :
  0 <= off <= 448 -> dinode_ok di -> is_block d -> is_block (put_dinode d off di).
Proof.
  intros Ho Hd [H1 H2]. split.
  - unfold put_dinode. rewrite length_splice; [exact H1|lia|rewrite length_dinode_bytes by exact Hd; lia].
  - apply Forall_splice; [exact H2|]. unfold dinode_bytes.
    repeat apply Forall_app_2; try apply Forall_le16; try apply Forall_le32.
    apply Forall_concat, Forall_fmap, Forall_true. intros x. apply Forall_le32.
Qed.

(** What [iupdate] changes is outside the bitmap and the data. *)
Record stored (ip : inode) (s s' : kernel) : Prop := {
  st_fs : fs_ok s';
  st_only : s' = s <| k_disk := k_disk s' |>;
  st_blk : forall c, data_start (k_sb s) <= c -> Blk s' c = Blk s c;
  st_used : forall c, 0 <= c < sb_size (k_sb s) -> used s' c = used s c;
  st_same : disk_inode s' (inum ip) = dinode_of ip;
  st_other : forall k, 0 <= k -> k <> inum ip -> disk_inode s' k = disk_inode s k
}.

Lemma store_inode_stored (s : kernel) (ip : inode) :
  fs_ok s -> 0 <= inum ip < sb_ninodes (k_sb s) -> dinode_ok (dinode_of ip) -> stored ip s (store_inode ip s).
Proof.
  intros Hf Hn Hd. pose proof (IBLOCK_range s _ Hn) as HI. pose proof (fs_inodes _ Hf). pose proof (fs_bmap _ Hf).
  pose proof (inode_off_range (inum ip)) as Ho. pose proof (fs_data _ Hf). pose proof (data_start_pos _ Hf).
  assert (Hds : sb_bmapstart (k_sb s) < data_start (k_sb s)).
  { unfold data_start. assert (0 <= sb_size (k_sb s) / BPB); [|lia].
    apply Z.div_pos; [apply sb_size_nonneg; exact Hf|reflexivity]. }
  pose proof (fs_block _ Hf (IBLOCK (inum ip) (k_sb s))) as Hb.
  assert (Hu : forall c, 0 <= c < sb_size (k_sb s) -> used (store_inode ip s) c = used s c).
  { intros c Hc. apply used_set_other. pose proof (BBLOCK_range _ _ Hf Hc). lia. }
  assert (Hl : inode_off (inum ip) + 64 <= Z.of_nat (length (Blk s (IBLOCK (inum ip) (k_sb s))))).
  { rewrite (proj1 Hb). lia. }
  split.
  - split; try apply Hf.
    + intros c. unfold store_inode. rewrite Blk_set. case_decide; [apply is_block_put_dinode|]; auto using fs_block.
    + unfold store_inode. rewrite Blk_set, decide_False by lia. apply Hf.
    + intros c Hc. change (k_sb (store_inode ip s)) with (k_sb s) in Hc. rewrite Hu by lia. apply Hf. exact Hc.
  - reflexivity.
  - intros c Hc. unfold store_inode. rewrite Blk_set, decide_False by lia. reflexivity.
  - exact Hu.
  - unfold disk_inode, store_inode. change (k_sb (set_blk _ _ s)) with (k_sb s).
    rewrite Blk_set, decide_True by reflexivity. apply get_put_dinode; [exact Hd|lia|exact Hl].
  - intros k Hk Hne. unfold disk_inode, store_inode. change (k_sb (set_blk _ _ s)) with (k_sb s). rewrite Blk_set.
    case_decide as E; [|reflexivity]. rewrite E. apply get_put_dinode_other; [exact Hd|lia|exact Hl|apply inode_off_range|].
    unfold IBLOCK, inode_off in *. change IPB with 8 in *. change DINODE_SIZE with 64 in *.
    Z.div_mod_to_equations. lia.
Qed.

Lemma iupdate_run (i : nat) (s : kernel) (ip : inode) :
  fs_ok s -> k_inodes s !! i = Some ip -> idev ip = 1 -> 0 <= inum ip < sb_ninodes (k_sb s) ->
  iupdate i s = Done tt (store_inode ip s).
Proof.
  intros Hf Hi Hdev Hn. unfold iupdate. rewrite (bind_Done _ _ _ _ _ (inode_at_some _ _ _ Hi)).
  rewrite (bind_Done _ _ _ _ _ (gets_run _ s)), Hdev.
  pose proof (IBLOCK_range s _ Hn). pose proof (fs_bmap _ Hf). pose proof (fs_data _ Hf). pose proof (fs_size _ Hf).
  assert (0 <= sb_size (k_sb s) / BPB) by (apply Z.div_pos; [apply sb_size_nonneg; exact Hf|reflexivity]).
  unfold data_start in *.
  rewrite (bind_Done _ _ _ _ _ (raw_read (IBLOCK (inum ip) (k_sb s)) s ltac:(lia))).
  rewrite (bind_Done _ _ _ _ _ (inode_at_some _ _ _ Hi)). reflexivity.
Qed.

End Iupdate.
