(* ===== verification/Itrunc.v ===== *)
(** * Inode block trees: itrunc

    [itrunc] frees every block of the inode, tables included, each exactly
    once, and no other block. *)

From S2P Require Import Prelude Params Bytes CString Kernel Print Sleep Ide Bio Log Fs FsDisk Bmap Dinode.

(** [s'] is [s] with the blocks of [X] marked free. *)
Record freed (X : Z -> Prop) (s s' : kernel) : Prop := {
  fr_fs : fs_ok s';
  fr_only : s' = s <| k_disk := k_disk s' |>;
  fr_blk : forall c, data_start (k_sb s) <= c -> Blk s' c = Blk s c;
  fr_used : forall c, 0 <= c < sb_size (k_sb s) -> used s' c = true <-> used s c = true /\ ~ X c
}.

Lemma freed_none (X : Z -> Prop) (s : kernel) : fs_ok s -> (forall c, ~ X c) -> freed X s s.
Proof. intros H HX. split; auto. intros c _. specialize (HX c). tauto. Qed.

Lemma freed_trans (X Y Z : Z -> Prop) (s s1 s2 : kernel) :
  (forall c, Z c <-> X c \/ Y c) -> freed X s s1 -> freed Y s1 s2 -> freed Z s s2.
Proof.
  intros HZ H1 H2. assert (Hsb : k_sb s1 = k_sb s) by (rewrite (fr_only _ _ _ H1); reflexivity). split.
  - apply H2.
  - rewrite (fr_only _ _ _ H2), (fr_only _ _ _ H1). reflexivity.
  - intros c Hc. rewrite (fr_blk _ _ _ H2), (fr_blk _ _ _ H1) by (rewrite ?Hsb; assumption). reflexivity.
  - intros c Hc. rewrite (fr_used _ _ _ H2), (fr_used _ _ _ H1), HZ by (rewrite ?Hsb; assumption). tauto.
Qed.

Lemma freed_ext (X Y : Z -> Prop) (s s' : kernel) : (forall c, X c <-> Y c) -> freed X s s' -> freed Y s s'.
Proof. intros HX [H1 H2 H3 H4]. split; auto. intros c Hc. rewrite (H4 c Hc), HX. reflexivity. Qed.

(** ** Trees below a block *)

Definition sub (s : kernel) (a : Z) (l : list Z) : Z := foldl (follow s) a l.
Definition path_ok (d : nat) (l : list Z) : Prop := (length l <= d)%nat /\ Forall (fun j => 0 <= j < 128) l.
Definition in_tree (s : kernel) (d : nat) (a c : Z) : Prop := c <> 0 /\ exists l, path_ok d l /\ sub s a l = c.

Record tree_ok (s : kernel) (d : nat) (a : Z) : Prop := {
  to_blk : forall c, in_tree s d a c -> data_start (k_sb s) <= c < sb_size (k_sb s) /\ used s c = true;
  to_inj : forall l l', path_ok d l -> path_ok d l' -> sub s a l <> 0 -> sub s a l = sub s a l' -> l = l'
}.

Lemma sub_zero (s : kernel) (l : list Z) : sub s 0 l = 0.
Proof. induction l; [reflexivity|assumption]. Qed.

Lemma path_cons (d : nat) (j : Z) (l : list Z) : path_ok (S d) (j :: l) <-> 0 <= j < 128 /\ path_ok d l.
Proof. unfold path_ok. rewrite Forall_cons. simpl. intuition lia. Qed.

Lemma path_nil (d : nat) : path_ok d [].
Proof. split; [simpl; lia|constructor]. Qed.

(** Two states with the same tables have the same trees. *)
Lemma sub_same (s s' : kernel) (l : list Z) : forall a,
  (forall k, (k < length l)%nat -> sub s a (take k l) <> 0 ->
     Blk s' (sub s a (take k l)) = Blk s (sub s a (take k l))) ->
  sub s' a l = sub s a l.
Proof.
  induction l as [|j l IH]; intros a H; [reflexivity|]. unfold sub. simpl.
  assert (E : follow s' a j = follow s a j).
  { unfold follow. destruct (Z.eqb_spec a 0) as [|Hn]; [reflexivity|].
    pose proof (H 0%nat ltac:(simpl; lia) Hn) as E0. simpl in E0. rewrite E0. reflexivity. }
  rewrite E. apply IH. intros k Hk Hn. apply (H (S k)); [simpl; lia|exact Hn].
Qed.

Lemma tree_ok_same (s s' : kernel) (d : nat) (a : Z) :
  k_sb s' = k_sb s -> (forall c, data_start (k_sb s) <= c -> Blk s' c = Blk s c) ->
  (forall c, in_tree s d a c -> used s' c = true) -> tree_ok s d a ->
  tree_ok s' d a /\ forall l, path_ok d l -> sub s' a l = sub s a l.
Proof.
  intros Hsb Hblk Hu Ho.
  assert (Hsub : forall l, path_ok d l -> sub s' a l = sub s a l).
  { intros l [Hl HF]. apply sub_same. intros k Hk Hn. apply Hblk.
    apply (to_blk _ _ _ Ho). split; [exact Hn|]. exists (take k l).
    split; [|reflexivity]. split; [rewrite length_take; lia|apply Forall_take; exact HF]. }
  split; [|exact Hsub]. split.
  - intros c [Hc (l & Hl & E)]. rewrite Hsub in E by exact Hl.
    assert (Hin : in_tree s d a c) by (split; eauto). split; [|apply Hu; exact Hin].
    rewrite Hsb. apply (to_blk _ _ _ Ho). exact Hin.
  - intros l l' Hl Hl'. rewrite !Hsub by assumption. apply Ho; assumption.
Qed.

Lemma in_tree_same (s s' : kernel) (d : nat) (a c : Z) :
  (forall l, path_ok d l -> sub s' a l = sub s a l) -> in_tree s' d a c <-> in_tree s d a c.
Proof.
  intros H. unfold in_tree.
  split; intros (Hc & l & Hl & E); (split; [exact Hc|]); exists l; (split; [exact Hl|]); rewrite <- E;
    [symmetry|]; apply H, Hl.
Qed.

(** The subtree at entry [j] of the table [a]. *)
Lemma tree_ok_entry (s : kernel) (d : nat) (a j : Z) :
  a <> 0 -> tree_ok s (S d) a -> 0 <= j < 128 -> tree_ok s d (follow s a j).
Proof.
  intros Ha Ho Hj. split.
  - intros c [Hc (l & Hl & E)]. apply (to_blk _ _ _ Ho). split; [exact Hc|]. exists (j :: l).
    split; [apply path_cons; auto|exact E].
  - intros l l' Hl Hl' Hn E. assert (H : j :: l = j :: l'); [|congruence].
    apply (to_inj _ _ _ Ho); [apply path_cons; auto..|exact Hn|exact E].
Qed.

Section Trunc.
Context {F : Fuel} {DV : Devsw}.
#[local] Existing Instance raw_disk.

(** The three loops of [itrunc] are one, at different depths. *)
Fixpoint free_tree (d : nat) (dev a : Z) : K unit :=
  match d with
  | O => bfree dev a
  | S d' => bp ← bd_read dev a; for_entries bp (free_tree d' dev);; bd_relse bp;; bfree dev a
  end.

Lemma itrunc_indirect_tree (dev a : Z) : itrunc_indirect dev a = free_tree 1 dev a.
Proof. reflexivity. Qed.
Lemma itrunc_double_tree (dev a : Z) : itrunc_double dev a = free_tree 2 dev a.
Proof. reflexivity. Qed.
Lemma itrunc_triple_tree (dev a : Z) : itrunc_triple dev a = free_tree 3 dev a.
Proof. reflexivity. Qed.

Lemma bfree_freed (s : kernel) (b : Z) :
  fs_ok s -> data_start (k_sb s) <= b < sb_size (k_sb s) -> used s b = true ->
  exists s', bfree 1 b s = Done tt s' /\ freed (fun c => c = b) s s'.
Proof.
  intros Hf Hb Hu. pose proof (data_start_pos _ Hf). rewrite bfree_run, Hu by (assumption || lia).
  exists (set_used b false s). split; [reflexivity|]. split.
  - apply fs_ok_set_used; assumption.
  - reflexivity.
  - intros c Hc. apply Blk_set_used; [assumption|lia|exact Hc].
  - intros c Hc. rewrite used_set_used by exact Hf. case_decide; intuition congruence.
Qed.

(** The blocks below the entries [j0 .. j) of table [a]. *)
Definition in_entries (s : kernel) (d : nat) (a : Z) (n : Z) (c : Z) : Prop :=
  exists j, 0 <= j < n /\ in_tree s d (follow s a j) c.

Lemma in_entries_S (s : kernel) (d : nat) (a j c : Z) :
  0 <= j -> in_entries s d a (j + 1) c <-> in_entries s d a j c \/ in_tree s d (follow s a j) c.
Proof.
  intros Hj. unfold in_entries. split.
  - intros (j' & Hr & H). destruct (decide (j' = j)) as [->|]; [right; exact H|].
    left. exists j'. split; [lia|exact H].
  - intros [ (j' & Hr & H) | H ]; [exists j'; split; [lia|exact H]|exists j; split; [lia|exact H] ].
Qed.

(** Different entries have different blocks. *)
Lemma in_entries_disj (s : kernel) (d : nat) (a j c : Z) :
  tree_ok s (S d) a -> 0 <= j < 128 -> in_tree s d (follow s a j) c -> ~ in_entries s d a j c.
Proof.
  intros Ho Hj [Hc (l & Hl & E)] (j' & Hj' & _ & l' & Hl' & E').
  assert (H : j' :: l' = j :: l); [|injection H; lia].
  apply (to_inj _ _ _ Ho); [apply path_cons; split; [lia|assumption]..| |].
  - change (sub s a (j' :: l')) with (sub s (follow s a j') l'). congruence.
  - change (sub s (follow s a j') l' = sub s (follow s a j) l). congruence.
Qed.

Lemma root_not_below (s : kernel) (d : nat) (a : Z) :
  a <> 0 -> tree_ok s (S d) a -> ~ in_entries s d a 128 a.
Proof.
  intros Ha Ho (j & Hj & _ & l & Hl & E). assert (H : [] = j :: l); [|discriminate].
  apply (to_inj _ _ _ Ho); [apply path_nil|apply path_cons; auto|exact Ha|]. symmetry. exact E.
Qed.

Section Entries.
Context (d : nat) (s : kernel) (a : Z).
Context (Hf : fs_ok s) (Ho : tree_ok s (S d) a) (Ha : a <> 0).
Context (IH : forall s a, fs_ok s -> tree_ok s d a -> a <> 0 ->
  exists s', free_tree d 1 a s = Done tt s' /\ freed (in_tree s d a) s s').

Lemma for_entries_from (n : nat) : forall (j : nat) (s1 : kernel),
  (j + n = 128)%nat -> freed (in_entries s d a (Z.of_nat j)) s s1 ->
  exists s', for_each n j (fun j =>
      d' ← bd_data (1, a); let e := get32 d' (4 * Z.of_nat j) in
      when (negb (e =? 0)) (free_tree d 1 e)) s1 = Done tt s' /\ freed (in_entries s d a 128) s s'.
Proof.
  induction n as [|n IHn]; intros j s1 Hj Hs1; cbn [for_each].
  { exists s1. split; [reflexivity|]. replace 128 with (Z.of_nat j) by lia. exact Hs1. }
  assert (Hsb : k_sb s1 = k_sb s) by (rewrite (fr_only _ _ _ Hs1); reflexivity).
  assert (Hra : data_start (k_sb s) <= a)
    by (apply (to_blk _ _ _ Ho); split; [exact Ha|exists []; split; [apply path_nil|reflexivity] ]).
  assert (He : get32 (Blk s1 a) (4 * Z.of_nat j) = follow s a (Z.of_nat j)).
  { rewrite (fr_blk _ _ _ Hs1) by exact Hra. unfold follow. rewrite (proj2 (Z.eqb_neq a 0)) by exact Ha. reflexivity. }
  assert (Hbody : exists s2, (d' ← bd_data (1, a); let e := get32 d' (4 * Z.of_nat j) in
      when (negb (e =? 0)) (free_tree d 1 e)) s1 = Done tt s2 /\
      freed (in_entries s d a (Z.of_nat (S j))) s s2).
  { rewrite (bind_Done _ _ _ _ _ (raw_data a s1)). cbv zeta. rewrite He.
    replace (Z.of_nat (S j)) with (Z.of_nat j + 1) by lia.
    destruct (Z.eqb_spec (follow s a (Z.of_nat j)) 0) as [E0|Hn].
    - exists s1. split; [reflexivity|]. eapply freed_ext; [|exact Hs1]. intros c. rewrite in_entries_S by lia.
      split; [auto|]. intros [H|[Hc (l & Hl & E)] ]; [exact H|]. rewrite E0, sub_zero in E. congruence.
    - pose proof (tree_ok_entry s d a (Z.of_nat j) Ha Ho ltac:(lia)) as Hoe.
      destruct (tree_ok_same s s1 d (follow s a (Z.of_nat j)) Hsb) as [Ho1 Hsub];
        [apply Hs1| |exact Hoe|].
      { intros c Hin. destruct (to_blk _ _ _ Hoe c Hin) as [Hr Hu]. pose proof (data_start_pos _ Hf).
        apply (fr_used _ _ _ Hs1); [lia|]. split; [exact Hu|]. apply in_entries_disj; [exact Ho|lia|exact Hin]. }
      destruct (IH s1 _ (fr_fs _ _ _ Hs1) Ho1 Hn) as (s2 & E2 & H2).
      exists s2. split; [exact E2|]. eapply freed_trans; [|exact Hs1|exact H2].
      intros c. rewrite in_entries_S, (in_tree_same s s1 _ _ _ Hsub) by lia. reflexivity. }
  destruct Hbody as (s2 & E2 & H2). rewrite (bind_Done _ _ _ _ _ E2). apply IHn; [lia|exact H2].
Qed.

End Entries.

Lemma free_tree_run (d : nat) : forall (s : kernel) (a : Z),
  fs_ok s -> tree_ok s d a -> a <> 0 ->
  exists s', free_tree d 1 a s = Done tt s' /\ freed (in_tree s d a) s s'.
Proof.
  induction d as [|d IH]; intros s a Hf Ho Ha.
  - assert (Hin : in_tree s 0 a a) by (split; [exact Ha|exists []; split; [apply path_nil|reflexivity] ]).
    destruct (to_blk _ _ _ Ho a Hin) as [Hr Hu]. destruct (bfree_freed s a Hf Hr Hu) as (s' & E & H).
    exists s'. split; [exact E|]. eapply freed_ext; [|exact H]. intros c. split; [intros ->; exact Hin|].
    intros [_ (l & [Hl _] & E')]. destruct l; [symmetry; exact E'|simpl in Hl; lia].
  - assert (Hin : in_tree s (S d) a a) by (split; [exact Ha|exists []; split; [apply path_nil|reflexivity] ]).
    destruct (to_blk _ _ _ Ho a Hin) as [Hr Hu]. pose proof (fs_size _ Hf). pose proof (data_start_pos _ Hf).
    cbn [free_tree]. rewrite (bind_Done _ _ _ _ _ (raw_read a s ltac:(lia))).
    destruct (for_entries_from d s a Hf Ho Ha IH 128 0 s eq_refl) as (s1 & E1 & H1).
    { apply freed_none; [exact Hf|]. intros c (j & Hj & _). lia. }
    erewrite bind_Done by exact E1. rewrite (bind_Done _ _ _ _ _ (raw_relse _ _)).
    assert (Hsb : k_sb s1 = k_sb s) by (rewrite (fr_only _ _ _ H1); reflexivity).
    destruct (bfree_freed s1 a (fr_fs _ _ _ H1)) as (s2 & E2 & H2).
    { rewrite Hsb. exact Hr. }
    { apply (fr_used _ _ _ H1); [lia|]. split; [exact Hu|]. apply root_not_below; assumption. }
    exists s2. split; [exact E2|]. eapply freed_trans; [|exact H1|exact H2]. intros c. split.
    + intros [Hc (l & Hl & E)]. destruct l as [|j l]; [right; symmetry; exact E|]. left.
      apply path_cons in Hl. exists j. split; [apply Hl|]. split; [exact Hc|]. exists l. split; [apply Hl|exact E].
    + intros [ (j & Hj & Hc & l & Hl & E) | -> ]; [|exact Hin].
      split; [exact Hc|]. exists (j :: l). split; [apply path_cons; auto|exact E].
Qed.

(** ** The roots *)

Definition in_roots (s : kernel) (ip : inode) (k : nat) (c : Z) : Prop :=
  c <> 0 /\ exists p, valid_pos p /\ (p.1 < k)%nat /\ blk_at s ip p = c.

(** The inode with its first [k] roots cleared. *)
Definition clear_roots (k : nat) (ip : inode) : inode :=
  ip <| iaddrs := replicate k 0 ++ drop k (iaddrs ip) |>.

(** [s'] after the first [k] roots have been freed. *)
Record truncated (i k : nat) (s : kernel) (ip : inode) (s' : kernel) : Prop := {
  tr_fs : fs_ok s';
  tr_only : only_inode i (clear_roots k ip) s s';
  tr_blk : forall c, data_start (k_sb s) <= c -> Blk s' c = Blk s c;
  tr_used : forall c, 0 <= c < sb_size (k_sb s) ->
    used s' c = true <-> used s c = true /\ ~ in_roots s ip k c
}.

Lemma valid_path (r : nat) (l : list Z) : (r < 13)%nat -> valid_pos (r, l) <-> path_ok (levels r) l.
Proof. unfold valid_pos, path_ok. simpl. tauto. Qed.

Lemma inode_tree (s : kernel) (ip : inode) (r : nat) :
  inode_ok s ip -> (r < 13)%nat -> tree_ok s (levels r) (root_of ip r).
Proof.
  intros Ho Hr. split.
  - intros c [Hc (l & Hl & <-)]. apply (io_blk _ _ Ho (r, l)); [apply valid_path; assumption|exact Hc].
  - intros l l' Hl Hl' Hn E. assert (H : (r, l) = (r, l')); [|congruence].
    apply (io_inj _ _ Ho); [apply valid_path; assumption..|exact Hn|exact E].
Qed.

Lemma in_roots_S (s : kernel) (ip : inode) (k : nat) (c : Z) :
  (k < 13)%nat -> in_roots s ip (S k) c <-> in_roots s ip k c \/ in_tree s (levels k) (root_of ip k) c.
Proof.
  intros Hk. split.
  - intros [Hc ([r l] & Hv & Hr & E)]. simpl in Hr. destruct (decide (r = k)) as [->|Hne].
    + right. split; [exact Hc|]. exists l. split; [exact (proj1 (valid_path k l Hk) Hv)|exact E].
    + left. split; [exact Hc|]. exists (r, l). split_and!; [exact Hv|simpl; lia|exact E].
  - intros [ [Hc (p & Hv & Hr & E)] | [Hc (l & Hl & E)] ].
    + split; [exact Hc|]. exists p. split_and!; [exact Hv|lia|exact E].
    + split; [exact Hc|]. exists (k, l). split_and!; [apply valid_path; assumption|simpl; lia|exact E].
Qed.

Lemma in_roots_disj (s : kernel) (ip : inode) (k : nat) (c : Z) :
  inode_ok s ip -> (k < 13)%nat -> in_tree s (levels k) (root_of ip k) c -> ~ in_roots s ip k c.
Proof.
  intros Ho Hk [Hc (l & Hl & E)] [_ ([r l'] & Hv & Hr & E')]. simpl in Hr.
  assert (H : (r, l') = (k, l)); [|injection H; lia].
  assert (E2 : blk_at s ip (k, l) = c) by exact E.
  apply (io_inj _ _ Ho); [exact Hv|apply valid_path; assumption|congruence|congruence].
Qed.

Lemma clear_roots_S (k : nat) (ip : inode) :
  (k < length (iaddrs ip))%nat ->
  <[k := 0]> (replicate k 0 ++ drop k (iaddrs ip)) = replicate (S k) 0 ++ drop (S k) (iaddrs ip).
Proof.
  intros Hk. destruct (lookup_lt_is_Some_2 _ _ Hk) as [a Ha]. rewrite (drop_S _ _ _ Ha).
  rewrite insert_app_r_alt by (rewrite length_replicate; lia). rewrite length_replicate, Nat.sub_diag.
  rewrite replicate_S_end, <- app_assoc. reflexivity.
Qed.

Lemma clear_one (k : nat) (ip : inode) :
  (k < length (iaddrs ip))%nat -> clear_roots k ip <| iaddrs ::= <[k := 0]> |> = clear_roots (S k) ip.
Proof. intros Hk. unfold clear_roots. rewrite <- clear_roots_S by exact Hk. reflexivity. Qed.

Lemma itrunc_root_run (i k : nat) (s s1 : kernel) (ip : inode) :
  fs_ok s -> inode_ok s ip -> k_inodes s !! i = Some ip -> (k < 13)%nat -> truncated i k s ip s1 ->
  exists s', itrunc_root i k (free_tree (levels k)) s1 = Done tt s' /\ truncated i (S k) s ip s'.
Proof.
  intros Hf Ho Hi Hk H1. pose proof (tr_only _ _ _ _ _ H1) as E1.
  assert (Hsb : k_sb s1 = k_sb s) by (rewrite E1; reflexivity).
  assert (Hi1 : k_inodes s1 !! i = Some (clear_roots k ip))
    by (rewrite E1; apply list_lookup_insert_eq; eapply lookup_lt_Some; exact Hi).
  assert (Hlen : (k < length (iaddrs ip))%nat) by (rewrite (io_len _ _ Ho); exact Hk).
  destruct (lookup_lt_is_Some_2 _ _ Hlen) as [a Ha].
  assert (Hroot : root_of ip k = a) by (unfold root_of; rewrite Ha; reflexivity).
  unfold itrunc_root. rewrite (bind_Done _ _ _ _ _ (inode_at_some _ _ _ Hi1)).
  assert (Ha1 : iaddrs (clear_roots k ip) !! k = Some a).
  { simpl. rewrite lookup_app_r, length_replicate, Nat.sub_diag, lookup_drop, Nat.add_0_r
      by (rewrite length_replicate; lia). exact Ha. }
  rewrite (bind_Done _ _ _ _ _ (deref_run _ _ s1 Ha1)). change (idev (clear_roots k ip)) with (idev ip).
  rewrite (io_dev _ _ Ho). pose proof (inode_tree s ip k Ho Hk) as Hot. rewrite Hroot in Hot.
  destruct (Z.eqb_spec a 0) as [->|Hn]; cbn [negb when].
  - exists s1. split; [reflexivity|]. split; try apply H1.
    + unfold clear_roots. rewrite <- clear_roots_S by exact Hlen. rewrite list_insert_id by exact Ha1. exact E1.
    + intros c Hc. rewrite (tr_used _ _ _ _ _ H1), in_roots_S, Hroot by assumption.
      enough (~ in_tree s (levels k) 0 c) by tauto. intros [Hc0 (l & _ & E)]. rewrite sub_zero in E. congruence.
  - destruct (tree_ok_same s s1 (levels k) a Hsb (tr_blk _ _ _ _ _ H1)) as [Ho1 Hsub]; [|exact Hot|].
    { intros c Hin. destruct (to_blk _ _ _ Hot c Hin) as [Hr Hu]. pose proof (data_start_pos _ Hf).
      apply (tr_used _ _ _ _ _ H1); [lia|]. split; [exact Hu|]. apply in_roots_disj; congruence. }
    destruct (free_tree_run (levels k) s1 a (tr_fs _ _ _ _ _ H1) Ho1 Hn) as (s2 & E2 & H2).
    rewrite (bind_Done _ _ _ _ _ E2). pose proof (fr_only _ _ _ H2) as Eo2.
    assert (Hi2 : k_inodes s2 !! i = Some (clear_roots k ip)) by (rewrite Eo2; exact Hi1).
    rewrite (put_alter s2 i _ _ Hi2). eexists. split; [reflexivity|]. split.
    + apply fs_ok_inodes. apply H2.
    + unfold only_inode in *. rewrite clear_one by exact Hlen. rewrite Eo2, E1. simpl.
      rewrite list_insert_insert_eq. reflexivity.
    + intros c Hc. change (Blk s2 c = Blk s c). rewrite (fr_blk _ _ _ H2) by (rewrite Hsb; exact Hc). apply H1. exact Hc.
    + intros c Hc. change (used s2 c = true <-> used s c = true /\ ~ in_roots s ip (S k) c).
      rewrite (fr_used _ _ _ H2), (tr_used _ _ _ _ _ H1), in_roots_S, Hroot by (rewrite ?Hsb; assumption).
      rewrite (in_tree_same s s1 _ _ _ Hsub). tauto.
Qed.

Lemma truncated_0 (i : nat) (s : kernel) (ip : inode) :
  fs_ok s -> k_inodes s !! i = Some ip -> truncated i 0 s ip s.
Proof.
  intros Hf Hi. split; auto.
  - unfold only_inode. change (clear_roots 0 ip) with ip. rewrite list_insert_id by exact Hi. reflexivity.
  - intros c _. split; [|tauto]. intros H. split; [exact H|]. intros [_ (p & _ & Hp & _)]. lia.
Qed.

Lemma itrunc_direct_run (i : nat) (s : kernel) (ip : inode) (n : nat) :
  fs_ok s -> inode_ok s ip -> k_inodes s !! i = Some ip -> forall (k : nat) (s1 : kernel),
  (k + n = 10)%nat -> truncated i k s ip s1 ->
  exists s', for_each n k (fun k => itrunc_root i k bfree) s1 = Done tt s' /\ truncated i 10 s ip s'.
Proof.
  intros Hf Ho Hi. induction n as [|n IH]; intros k s1 Hk H1; cbn [for_each].
  - exists s1. split; [reflexivity|]. replace 10%nat with k by lia. exact H1.
  - destruct (itrunc_root_run i k s s1 ip Hf Ho Hi ltac:(lia) H1) as (s2 & E2 & H2).
    replace (levels k) with 0%nat in E2 by (unfold levels; lia).
    rewrite (bind_Done _ _ _ _ _ E2). apply IH; [lia|exact H2].
Qed.

(** What is left of the inode. *)
Definition emptied (ip : inode) : inode := ip <| iaddrs := replicate NADDRS 0 |> <| isize := 0 |>.

Lemma itrunc_run (i : nat) (s : kernel) (ip : inode) :
  fs_ok s -> inode_ok s ip -> k_inodes s !! i = Some ip ->
  0 <= inum ip < sb_ninodes (k_sb s) -> dinode_ok (dinode_of ip) ->
  exists s1 s', truncated i 13 s ip s1 /\ itrunc i s = Done tt s' /\
    s' = store_inode (emptied ip) (s1 <| k_inodes := <[i := emptied ip]> (k_inodes s) |>) /\
    stored (emptied ip) (s1 <| k_inodes := <[i := emptied ip]> (k_inodes s) |>) s'.
Proof.
  intros Hf Ho Hi Hn Hd. unfold itrunc.
  destruct (itrunc_direct_run i s ip 10 Hf Ho Hi 0 s eq_refl (truncated_0 i s ip Hf Hi)) as (s1 & E1 & H1).
  rewrite (bind_Done _ _ _ _ _ E1).
  destruct (itrunc_root_run i 10 s s1 ip Hf Ho Hi ltac:(lia) H1) as (s2 & E2 & H2).
  erewrite bind_Done by exact E2.
  destruct (itrunc_root_run i 11 s s2 ip Hf Ho Hi ltac:(lia) H2) as (s3 & E3 & H3).
  erewrite bind_Done by exact E3.
  destruct (itrunc_root_run i 12 s s3 ip Hf Ho Hi ltac:(lia) H3) as (s4 & E4 & H4).
  erewrite bind_Done by exact E4.
  pose proof (tr_only _ _ _ _ _ H4) as Eo. unfold only_inode in Eo.
  assert (Hlt : (i < length (k_inodes s))%nat) by (eapply lookup_lt_Some; exact Hi).
  assert (Hi4 : k_inodes s4 !! i = Some (clear_roots 13 ip)) by (rewrite Eo; apply list_lookup_insert_eq; exact Hlt).
  rewrite (bind_Done _ _ _ _ _ (put_alter s4 i _ _ Hi4)).
  assert (Ei : clear_roots 13 ip <| isize := 0 |> = emptied ip).
  { unfold clear_roots, emptied. rewrite drop_ge, app_nil_r by (rewrite (io_len _ _ Ho); reflexivity). reflexivity. }
  rewrite Ei. replace (<[i:=emptied ip]> (k_inodes s4)) with (<[i := emptied ip]> (k_inodes s))
    by (rewrite Eo; simpl; rewrite list_insert_insert_eq; reflexivity).
  set (s5 := s4 <| k_inodes := _ |>).
  assert (Hf5 : fs_ok s5) by (apply fs_ok_inodes; apply H4).
  assert (Hsb : k_sb s5 = k_sb s) by (simpl; rewrite Eo; reflexivity).
  exists s4, (store_inode (emptied ip) s5). split_and!; [exact H4| |reflexivity|].
  - apply iupdate_run; [exact Hf5|apply list_lookup_insert_eq; exact Hlt|apply Ho|rewrite Hsb; exact Hn].
  - apply store_inode_stored; [exact Hf5|rewrite Hsb; exact Hn|].
    destruct Hd as [D1 D2 D3 D4 D5 D6 D7]. split; try assumption.
    + simpl. unfold is_uint. lia.
    + reflexivity.
    + simpl. repeat constructor; unfold is_uint; lia.
Qed.

End Trunc.
