(* ===== verification/FileData.v ===== *)
(** * The contents of files: readi and writei

    [file_byte] is the contents of a file as a function of the offset; a hole
    reads as zeros.  [readi] returns it, [writei] replaces the bytes of the range
    it writes and keeps the others, and neither changes a block that is not the
    inode's. *)

From S2P Require Import Prelude Params Bytes CString Kernel Print Sleep Ide Bio Log Fs FsDisk Bmap Dinode.

Definition file_block (s : kernel) (ip : inode) (bn : Z) : list Z :=
  let a := blk_at s ip (pos_of bn) in if a =? 0 then zero_block else Blk s a.

Definition file_byte (s : kernel) (ip : inode) (i : Z) : Z := byte_at (file_block s ip (i / BSIZE)) (i mod BSIZE).

Definition content (s : kernel) (ip : inode) (off n : Z) : list Z :=
  map (fun k => file_byte s ip (off + Z.of_nat k)) (seq 0 (Z.to_nat n)).

(** [s'] differs from [s] in the blocks of the inode only; at most [n] blocks
    are new. *)
Record fstep (n i : nat) (s : kernel) (ip : inode) (s' : kernel) (ip' : inode) : Prop := {
  fp_fs : fs_ok s';
  fp_ok : inode_ok s' ip';
  fp_old : forall q, valid_pos q -> blk_at s ip q <> 0 -> blk_at s' ip' q = blk_at s ip q;
  fp_new : forall q, valid_pos q -> blk_at s ip q = 0 -> blk_at s' ip' q <> 0 -> used s (blk_at s' ip' q) = false;
  fp_used : forall c, 0 <= c < sb_size (k_sb s) -> used s c = true -> used s' c = true;
  fp_blk : forall c, data_start (k_sb s) <= c < sb_size (k_sb s) -> used s c = true ->
    (forall q, valid_pos q -> blk_at s ip q <> c) -> Blk s' c = Blk s c;
  fp_meta : forall c, c < sb_bmapstart (k_sb s) -> Blk s' c = Blk s c;
  fp_took : took n s s';
  fp_only : only_inode i ip' s s';
  fp_at : k_inodes s' !! i = Some ip';
  fp_sb : k_sb s' = k_sb s;
  fp_ip : ip' = ip <| iaddrs := iaddrs ip' |>
}.

Lemma fstep_refl (n i : nat) (s : kernel) (ip : inode) :
  fs_ok s -> inode_ok s ip -> k_inodes s !! i = Some ip -> fstep n i s ip s ip.
Proof.
  intros Hf Ho Hi. split; auto using took_refl; try congruence.
  unfold only_inode. rewrite list_insert_id by exact Hi. reflexivity.
Qed.

Lemma fstep_trans (n m i : nat) (s s1 s2 : kernel) (ip ip1 ip2 : inode) :
  fstep n i s ip s1 ip1 -> fstep m i s1 ip1 s2 ip2 -> fstep (n + m) i s ip s2 ip2.
Proof.
  intros H1 H2. pose proof (fp_sb _ _ _ _ _ _ H1) as Hsb. pose proof (fp_sb _ _ _ _ _ _ H2) as Hsb2.
  pose proof (data_start_pos _ (fp_fs _ _ _ _ _ _ H1)) as Hds. rewrite Hsb in Hds. split; try apply H2.
  - intros q Hq Hn. pose proof (fp_old _ _ _ _ _ _ H1 q Hq Hn) as E. rewrite (fp_old _ _ _ _ _ _ H2); congruence.
  - intros q Hq H0 Hn. destruct (decide (blk_at s1 ip1 q = 0)) as [E|E].
    + pose proof (fp_new _ _ _ _ _ _ H2 q Hq E Hn) as Hu. destruct (used s (blk_at s2 ip2 q)) eqn:E'; [|reflexivity].
      destruct (io_blk _ _ (fp_ok _ _ _ _ _ _ H2) q Hq Hn) as [Hr _]. rewrite Hsb2, Hsb in Hr.
      rewrite (fp_used _ _ _ _ _ _ H1) in Hu; [discriminate|lia|exact E'].
    + rewrite (fp_old _ _ _ _ _ _ H2) by assumption. apply (fp_new _ _ _ _ _ _ H1); assumption.
  - intros c Hc Hu. apply (fp_used _ _ _ _ _ _ H2); [rewrite Hsb; exact Hc|]. apply (fp_used _ _ _ _ _ _ H1); assumption.
  - intros c Hc Hu Hn. rewrite (fp_blk _ _ _ _ _ _ H2); [apply (fp_blk _ _ _ _ _ _ H1); assumption|rewrite Hsb; exact Hc| |].
    + apply (fp_used _ _ _ _ _ _ H1); [lia|exact Hu].
    + intros q Hq E. destruct (decide (blk_at s ip q = 0)) as [E0|E0].
      * rewrite <- E, (fp_new _ _ _ _ _ _ H1) in Hu; [discriminate|assumption..|lia].
      * rewrite (fp_old _ _ _ _ _ _ H1) in E by assumption. apply (Hn q); assumption.
  - intros c Hc. rewrite (fp_meta _ _ _ _ _ _ H2), (fp_meta _ _ _ _ _ _ H1) by (rewrite ?Hsb; exact Hc). reflexivity.
  - eapply took_trans; [exact Hsb|apply H1|apply H2].
  - pose proof (fp_only _ _ _ _ _ _ H1) as E1. pose proof (fp_only _ _ _ _ _ _ H2) as E2.
    unfold only_inode in *. rewrite E2, E1. simpl. rewrite list_insert_insert_eq. reflexivity.
  - rewrite Hsb2. exact Hsb.
  - rewrite (fp_ip _ _ _ _ _ _ H2), (fp_ip _ _ _ _ _ _ H1). reflexivity.
Qed.

Lemma slot_fstep (n i : nat) (P : pos -> Prop) (p : pos) (s : kernel) (ip : inode) (a : Z) (s' : kernel) (ip' : inode) :
  slot_post n i P p s ip a s' ip' -> fstep n i s ip s' ip'.
Proof.
  intros [H1 H2 H3 H4 [E1 E2 E3 E4 E5 E6 E7 E8 E9] H6 H7 H8]. split; auto.
Qed.

(** [bmap] does not change the contents. *)
Lemma slot_file_block (n i : nat) (P : pos -> Prop) (p : pos) (s : kernel) (ip : inode) (a : Z) (s' : kernel)
  (ip' : inode) (bn : Z) :
  inode_ok s ip -> slot_post n i P p s ip a s' ip' -> 0 <= bn < MAXFILE ->
  file_block s' ip' bn = file_block s ip bn.
Proof.
  intros Ho H Hbn. destruct (pos_of_valid bn Hbn) as [Hv Hl]. pose proof (sp_ext _ _ _ _ _ _ _ _ _ H) as He.
  unfold file_block. destruct (Z.eqb_spec (blk_at s ip (pos_of bn)) 0) as [E|E].
  - destruct (Z.eqb_spec (blk_at s' ip' (pos_of bn)) 0) as [E'|E']; [reflexivity|].
    apply (ex_zero _ _ _ _ _ He); assumption.
  - rewrite (ex_old _ _ _ _ _ He), (proj2 (Z.eqb_neq _ _)) by assumption.
    destruct (io_blk _ _ Ho _ Hv E) as [Hr Hu]. apply (ex_blk _ _ _ _ _ He); [exact Hr|exact Hu|].
    intros q Hq Hnl Eq. apply Hnl. rewrite (io_inj _ _ Ho q (pos_of bn)); congruence.
Qed.

Lemma file_block_length (s : kernel) (ip : inode) (bn : Z) : fs_ok s -> length (file_block s ip bn) = 512%nat.
Proof. intros H. unfold file_block. case_match; [reflexivity|apply (fs_block _ H)]. Qed.

Lemma pos_of_inj (b1 b2 : Z) : 0 <= b1 < MAXFILE -> 0 <= b2 < MAXFILE -> pos_of b1 = pos_of b2 -> b1 = b2.
Proof.
  change MAXFILE with 2113674. intros H1 H2. unfold pos_of.
  repeat case_match; intros E; simplify_eq; try lia; Z.div_mod_to_equations; lia.
Qed.

(** ** Chunks of contents *)

Lemma length_content (s : kernel) (ip : inode) (off n : Z) : length (content s ip off n) = Z.to_nat n.
Proof. unfold content. rewrite length_map, length_seq. reflexivity. Qed.

Lemma content_lookup (s : kernel) (ip : inode) (off n : Z) (k : nat) :
  (Z.of_nat k < n) -> content s ip off n !! k = Some (file_byte s ip (off + Z.of_nat k)).
Proof. intros H. unfold content. rewrite list_lookup_fmap, lookup_seq_lt by lia. reflexivity. Qed.

Lemma content_app (s : kernel) (ip : inode) (off n m : Z) :
  0 <= n -> 0 <= m -> content s ip off (n + m) = content s ip off n ++ content s ip (off + n) m.
Proof.
  intros Hn Hm. unfold content. rewrite Z2Nat.inj_add, seq_app, map_app by assumption. f_equal.
  apply list_eq. intros k. rewrite !list_lookup_fmap.
  destruct (decide (k < Z.to_nat m)%nat) as [Hk|Hk].
  - rewrite !lookup_seq_lt by exact Hk. simpl. do 2 f_equal. lia.
  - rewrite !(proj2 (lookup_ge_None (seq _ _) k)) by (rewrite length_seq; lia). reflexivity.
Qed.

Lemma slice_content (s : kernel) (ip : inode) (off m : Z) :
  fs_ok s -> 0 <= off -> 0 <= m -> off mod BSIZE + m <= BSIZE ->
  slice (file_block s ip (off / BSIZE)) (off mod BSIZE) m = content s ip off m.
Proof.
  intros Hf Ho Hm Hb. pose proof (file_block_length s ip (off / BSIZE) Hf) as Hl.
  change BSIZE with 512 in *. pose proof (Z.mod_pos_bound off 512 eq_refl).
  apply list_eq. intros k. destruct (decide (Z.of_nat k < m)) as [Hk|Hk].
  - rewrite content_lookup by exact Hk. unfold slice. rewrite lookup_take_lt, lookup_drop by lia.
    unfold file_byte, byte_at. change BSIZE with 512.
    replace ((off + Z.of_nat k) / 512) with (off / 512) by (Z.div_mod_to_equations; lia).
    replace ((off + Z.of_nat k) mod 512) with (off mod 512 + Z.of_nat k) by (Z.div_mod_to_equations; lia).
    replace (Z.to_nat (off mod 512 + Z.of_nat k)) with (Z.to_nat (off mod 512) + k)%nat by lia.
    destruct (lookup_lt_is_Some_2 (file_block s ip (off / 512)) (Z.to_nat (off mod 512) + k)) as [v Hv]; [lia|].
    rewrite Hv. reflexivity.
  - rewrite !(proj2 (lookup_ge_None _ k)); [reflexivity|rewrite length_content; lia|rewrite length_slice; lia].
Qed.

Lemma content_ext (s s' : kernel) (ip ip' : inode) (off n : Z) :
  (forall k, off <= k < off + n -> file_byte s' ip' k = file_byte s ip k) -> content s' ip' off n = content s ip off n.
Proof.
  intros H. unfold content. apply list_fmap_ext. intros j k Hk. apply lookup_seq in Hk. apply H. lia.
Qed.

(** ** Reading *)

Section Data.
Context {F : Fuel} {DV : Devsw}.
#[local] Existing Instance raw_disk.

(** The operation returns with [Q], or the disk had at most [n] free blocks and
    the kernel stops. *)
Definition fruns {A : Type} (n i : nat) (s : kernel) (ip : inode) (Q : A -> kernel -> inode -> Prop)
  (o : outcome kernel A) : Prop :=
  (exists a s' ip', o = Done a s' /\ fstep n i s ip s' ip' /\ Q a s' ip') \/
  (few_free n s /\ o = Halt (Panic "balloc: out of blocks")).

Lemma few_free_mono (n m : nat) (s : kernel) : (n <= m)%nat -> few_free n s -> few_free m s.
Proof. intros Hnm (l & Hl & H). exists l. split; [lia|exact H]. Qed.

Lemma fruns_after {A : Type} (n m i : nat) (s : kernel) (ip : inode) (s1 : kernel) (ip1 : inode)
  (Q : A -> kernel -> inode -> Prop) (o : outcome kernel A) :
  fstep n i s ip s1 ip1 -> fruns m i s1 ip1 Q o -> fruns (n + m) i s ip Q o.
Proof.
  intros H1 [ (b & s2 & ip2 & E2 & H2 & HR) | [Hfew E2] ].
  - left. exists b, s2, ip2. split_and!; [exact E2|eapply fstep_trans; eassumption|exact HR].
  - right. split; [|exact E2]. eapply few_free_back; [apply (fp_sb _ _ _ _ _ _ H1)|apply H1|exact Hfew].
Qed.

Lemma fruns_bind {A B : Type} (n m i : nat) (s : kernel) (ip : inode) (Q : A -> kernel -> inode -> Prop)
  (R : B -> kernel -> inode -> Prop) (e : K A) (f : A -> K B) :
  fruns n i s ip Q (e s) ->
  (forall a s' ip', fstep n i s ip s' ip' -> Q a s' ip' -> fruns m i s' ip' R (f a s')) ->
  fruns (n + m) i s ip R ((e ≫= f) s).
Proof.
  intros [ (a & s1 & ip1 & E & H1 & HQ) | [Hfew E] ] Hf.
  - rewrite (bind_Done _ _ _ _ _ E). eapply fruns_after; [exact H1|]. apply Hf; assumption.
  - right. split; [eapply few_free_mono; [|exact Hfew]; lia|apply bind_Halt; exact E].
Qed.

(** What [bmap] gives to its callers. *)
Lemma bmap_fruns (i : nat) (bn : Z) (s : kernel) (ip : inode) :
  fs_ok s -> inode_ok s ip -> k_inodes s !! i = Some ip -> 0 <= bn < MAXFILE ->
  fruns 4 i s ip (fun a s' ip' => a = blk_at s' ip' (pos_of bn) /\ a <> 0 /\
      forall b, 0 <= b < MAXFILE -> file_block s' ip' b = file_block s ip b) (bmap i bn s).
Proof.
  intros Hf Ho Hi Hbn. destruct (bmap_run i bn s ip Hf Ho Hi Hbn) as [ (a & s' & ip' & E & H) | [Hfew E] ].
  - left. exists a, s', ip'. split_and!; [exact E|eapply slot_fstep; exact H|symmetry; apply H|apply H|].
    intros b Hb. eapply slot_file_block; eassumption.
  - right. split; [|exact E]. eapply few_free_mono; [|exact Hfew]. lia.
Qed.

Lemma fstep_mono (n m i : nat) (s s' : kernel) (ip ip' : inode) :
  (n <= m)%nat -> fstep n i s ip s' ip' -> fstep m i s ip s' ip'.
Proof.
  intros Hnm H. split; try apply H. destruct (fp_took _ _ _ _ _ _ H) as (l & Hl & Ht). exists l. split; [lia|exact Ht].
Qed.

Lemma fruns_mono {A : Type} (n m i : nat) (s : kernel) (ip : inode) (Q : A -> kernel -> inode -> Prop)
  (o : outcome kernel A) : (n <= m)%nat -> fruns n i s ip Q o -> fruns m i s ip Q o.
Proof.
  intros Hnm [ (a & s' & ip' & E & H & HQ) | [Hfew E] ].
  - left. exists a, s', ip'. split_and!; [exact E|eapply fstep_mono; eassumption|exact HQ].
  - right. split; [eapply few_free_mono; eassumption|exact E].
Qed.

Lemma fruns_ret {A : Type} (n i : nat) (s : kernel) (ip : inode) (Q : A -> kernel -> inode -> Prop) (a : A) :
  fs_ok s -> inode_ok s ip -> k_inodes s !! i = Some ip -> Q a s ip -> fruns n i s ip Q (Done a s).
Proof. intros Hf Ho Hi HQ. left. exists a, s, ip. split_and!; [reflexivity|apply fstep_refl; assumption|exact HQ]. Qed.

(** The turns left of a loop over [n] bytes from [off] on. *)
Definition turns_le (fu : nat) (off n : Z) : Prop :=
  (0 < fu)%nat /\ (0 < n -> off mod BSIZE + n <= BSIZE * (Z.of_nat fu - 1)).

Lemma turns_next (fu : nat) (off n : Z) :
  turns_le (S fu) off n -> 0 < n -> let m := Z.min n (BSIZE - off mod BSIZE) in
  0 < m <= n /\ off mod BSIZE + m <= BSIZE /\ turns_le fu (off + m) (n - m).
Proof.
  unfold turns_le. change BSIZE with 512. intros [_ H] Hn. specialize (H Hn).
  pose proof (Z.mod_pos_bound off 512 eq_refl). cbv zeta. split_and!; try lia.
  intros Hm. replace ((off + Z.min n (512 - off mod 512)) mod 512) with 0; [lia|].
  Z.div_mod_to_equations. lia.
Qed.

Lemma turns_blocks_fuel (off n : Z) : 0 <= n -> turns_le (blocks_fuel n) off n.
Proof.
  intros Hn. unfold turns_le, blocks_fuel. change BSIZE with 512. split; [lia|]. intros _.
  assert (0 <= n / 512) by (apply Z.div_pos; lia). Z.div_mod_to_equations. lia.
Qed.

Lemma block_in_file (off n : Z) : 0 <= off -> 0 < n -> off + n <= MAXFILE * BSIZE -> 0 <= off / BSIZE < MAXFILE.
Proof. change BSIZE with 512. change MAXFILE with 2113674. intros. Z.div_mod_to_equations. lia. Qed.

Lemma fstep_blk_range (n i : nat) (s s' : kernel) (ip ip' : inode) (p : pos) :
  fstep n i s ip s' ip' -> valid_pos p -> blk_at s' ip' p <> 0 ->
  data_start (k_sb s') <= blk_at s' ip' p < sb_size (k_sb s') /\ blk_at s' ip' p < FSSIZE.
Proof.
  intros H Hp Hn. pose proof (fs_size _ (fp_fs _ _ _ _ _ _ H)).
  destruct (io_blk _ _ (fp_ok _ _ _ _ _ _ H) p Hp Hn). lia.
Qed.

Definition same_file (s : kernel) (ip : inode) (s' : kernel) (ip' : inode) : Prop :=
  forall b, 0 <= b < MAXFILE -> file_block s' ip' b = file_block s ip b.

Lemma same_content (s s' : kernel) (ip ip' : inode) (off n : Z) :
  same_file s ip s' ip' -> 0 <= off -> off + n <= MAXFILE * BSIZE -> content s' ip' off n = content s ip off n.
Proof.
  intros H Ho Hn. apply content_ext. intros k Hk. unfold file_byte. rewrite H; [reflexivity|].
  apply (block_in_file k 1); lia.
Qed.

Lemma readi_loop_run (fu : nat) : forall (i : nat) (tot off n : Z) (acc : list Z) (s : kernel) (ip : inode),
  fs_ok s -> inode_ok s ip -> k_inodes s !! i = Some ip ->
  0 <= off -> tot <= n -> off + (n - tot) <= MAXFILE * BSIZE -> turns_le fu off (n - tot) ->
  fruns (4 * fu) i s ip (fun r s' ip' => r = acc ++ content s ip off (n - tot) /\ same_file s ip s' ip')
    (readi_loop fu i tot off n acc s).
Proof.
  induction fu as [|fu IH]; intros i tot off n acc s ip Hf Ho Hi Hoff Htot Hmax Hfu; [destruct Hfu; lia|].
  cbn [readi_loop]. destruct (Z.ltb_spec tot n) as [Hlt|Hge]; cbn [negb].
  2:{ apply fruns_ret; try assumption. replace (n - tot) with 0 by lia. rewrite app_nil_r.
      split; [reflexivity|]. intros b _. reflexivity. }
  destruct (turns_next fu off (n - tot) Hfu ltac:(lia)) as (Hm & Hmb & Hfu').
  set (m := Z.min (n - tot) (BSIZE - off mod BSIZE)) in *.
  pose proof (block_in_file off (n - tot) Hoff ltac:(lia) Hmax) as Hbn.
  replace (4 * S fu)%nat with (4 + 4 * fu)%nat by lia.
  eapply fruns_bind; [apply bmap_fruns; eassumption|].
  intros a s1 ip1 H1 (Ea & Hna & Hsame). cbv beta in *.
  destruct (pos_of_valid _ Hbn) as [Hv _]. subst a. destruct (fstep_blk_range _ _ _ _ _ _ _ H1 Hv Hna) as [_ Hlt1].
  rewrite (bind_Done _ _ _ _ _ (inode_at_some _ _ _ (fp_at _ _ _ _ _ _ H1))), (io_dev _ _ (fp_ok _ _ _ _ _ _ H1)).
  rewrite (bind_Done _ _ _ _ _ (raw_read _ s1 Hlt1)). cbv zeta.
  rewrite (bind_Done _ _ _ _ _ (raw_data _ s1)), (bind_Done _ _ _ _ _ (raw_relse _ _)). fold m.
  assert (Ed : slice (Blk s1 (blk_at s1 ip1 (pos_of (off / BSIZE)))) (off mod BSIZE) m = content s ip off m).
  { rewrite <- (same_content s s1 ip ip1) by (assumption || lia).
    rewrite <- slice_content by (apply H1 || lia). unfold file_block.
    rewrite (proj2 (Z.eqb_neq _ 0)) by exact Hna. reflexivity. }
  rewrite Ed. replace (n - tot - m) with (n - (tot + m)) in Hfu' by lia.
  destruct (IH i (tot + m) (off + m) n (acc ++ content s ip off m) s1 ip1) as [ (r & s2 & ip2 & E & H2 & Er & Hs2) | H2 ];
    [apply H1|apply H1|apply H1|lia|lia|lia|exact Hfu'| |right; exact H2].
  left. exists r, s2, ip2. split_and!; [exact E|exact H2| |].
  - rewrite Er, <- app_assoc, (same_content s s1 ip ip1) by (assumption || lia). f_equal.
    replace (n - tot) with (m + (n - (tot + m))) by lia. symmetry. apply content_app; lia.
  - intros b Hb. rewrite Hs2, Hsame by exact Hb. reflexivity.
Qed.

(** A read of blocks that are all there changes nothing. *)
Lemma readi_loop_present (fu : nat) : forall (i : nat) (tot off n : Z) (acc : list Z) (s : kernel) (ip : inode),
  fs_ok s -> inode_ok s ip -> k_inodes s !! i = Some ip ->
  0 <= off -> tot <= n -> off + (n - tot) <= MAXFILE * BSIZE -> turns_le fu off (n - tot) ->
  (forall k, off <= k < off + (n - tot) -> blk_at s ip (pos_of (k / BSIZE)) <> 0) ->
  readi_loop fu i tot off n acc s = Done (acc ++ content s ip off (n - tot)) s.
Proof.
  induction fu as [|fu IH]; intros i tot off n acc s ip Hf Ho Hi Hoff Htot Hmax Hfu Hpres; [destruct Hfu; lia|].
  cbn [readi_loop]. destruct (Z.ltb_spec tot n) as [Hlt|Hge]; cbn [negb].
  2:{ replace (n - tot) with 0 by lia. rewrite app_nil_r. reflexivity. }
  destruct (turns_next fu off (n - tot) Hfu ltac:(lia)) as (Hm & Hmb & Hfu').
  set (m := Z.min (n - tot) (BSIZE - off mod BSIZE)) in *.
  pose proof (block_in_file off (n - tot) Hoff ltac:(lia) Hmax) as Hbn. pose proof (Hpres off ltac:(lia)) as Hna.
  rewrite (bind_Done _ _ _ _ _ (bmap_present i (off / BSIZE) s ip Hf Ho Hi Hbn Hna)).
  destruct (pos_of_valid _ Hbn) as [Hv _].
  destruct (fstep_blk_range _ _ _ _ _ _ _ (fstep_refl 0 i s ip Hf Ho Hi) Hv Hna) as [_ Hlt1].
  rewrite (bind_Done _ _ _ _ _ (inode_at_some _ _ _ Hi)), (io_dev _ _ Ho).
  rewrite (bind_Done _ _ _ _ _ (raw_read _ s Hlt1)). cbv zeta.
  rewrite (bind_Done _ _ _ _ _ (raw_data _ s)), (bind_Done _ _ _ _ _ (raw_relse _ _)). fold m.
  assert (Ed : slice (Blk s (blk_at s ip (pos_of (off / BSIZE)))) (off mod BSIZE) m = content s ip off m).
  { rewrite <- slice_content by (assumption || lia). unfold file_block. rewrite (proj2 (Z.eqb_neq _ 0)) by exact Hna. reflexivity. }
  rewrite Ed. replace (n - tot - m) with (n - (tot + m)) in Hfu' by lia.
  rewrite (IH _ _ _ _ _ s ip) by (assumption || lia || (intros k Hk; apply Hpres; lia)).
  rewrite <- app_assoc. replace (n - tot) with (m + (n - (tot + m))) by lia. rewrite <- content_app by lia. reflexivity.
Qed.

(** ** Writing *)

(** New contents for one data block of the file. *)
Lemma set_file_block (i : nat) (s : kernel) (ip : inode) (bn : Z) (d : list Z) :
  fs_ok s -> inode_ok s ip -> k_inodes s !! i = Some ip -> 0 <= bn < MAXFILE -> is_block d ->
  blk_at s ip (pos_of bn) <> 0 ->
  let s' := set_blk (blk_at s ip (pos_of bn)) d s in
  fstep 0 i s ip s' ip /\
  (forall q, valid_pos q -> blk_at s' ip q = blk_at s ip q) /\
  (forall b, 0 <= b < MAXFILE -> file_block s' ip b = if decide (b = bn) then d else file_block s ip b).
Proof.
  intros Hf Ho Hi Hbn Hd Hn s'. destruct (pos_of_valid _ Hbn) as [Hv Hl]. destruct (io_blk _ _ Ho _ Hv Hn) as [Hr Hu].
  assert (Hat : forall q, valid_pos q -> blk_at s' ip q = blk_at s ip q).
  { intros q Hq. apply blk_at_same; [|exact Hq]. intros q' Hq' Hl' Hn'. unfold s'. rewrite Blk_set, decide_False; [reflexivity|].
    intros E. apply Hl'. rewrite (io_inj _ _ Ho q' (pos_of bn)) by assumption. exact Hl. }
  assert (Hus : forall c, 0 <= c < sb_size (k_sb s) -> used s' c = used s c) by (intros; apply used_set_data; tauto || lia).
  assert (Hf' : fs_ok s') by (apply fs_ok_set_blk; tauto). pose proof (data_start_pos _ Hf).
  split_and!; [|exact Hat|].
  - split; auto.
    + split; try apply Ho.
      * intros q Hq. rewrite Hat by exact Hq. intros Hnq. destruct (io_blk _ _ Ho q Hq Hnq) as [Hrq Huq].
        rewrite Hus by lia. auto.
      * intros q q' Hq Hq'. rewrite !Hat by assumption. apply Ho; assumption.
    + intros q Hq H0. rewrite Hat by exact Hq. congruence.
    + intros c Hc. rewrite Hus by exact Hc. auto.
    + intros c Hc Huc Hnc. unfold s'. rewrite Blk_set, decide_False; [reflexivity|]. intros E. apply (Hnc (pos_of bn)); auto.
    + intros c Hc. pose proof (bmapstart_data s Hf c Hc). unfold s'. rewrite Blk_set, decide_False by lia. reflexivity.
    + exists []. split; [simpl; lia|]. intros c Hc. rewrite Hus by exact Hc. auto.
    + unfold only_inode. rewrite list_insert_id by exact Hi. reflexivity.
  - intros b Hb. unfold file_block. destruct (pos_of_valid _ Hb) as [Hvb _]. rewrite Hat by exact Hvb.
    destruct (decide (b = bn)) as [->|Hne].
    + rewrite (proj2 (Z.eqb_neq _ 0)) by exact Hn. unfold s'. rewrite Blk_set, decide_True by reflexivity. reflexivity.
    + destruct (Z.eqb_spec (blk_at s ip (pos_of b)) 0) as [|Hnb]; [reflexivity|].
      unfold s'. rewrite Blk_set, decide_False; [reflexivity|]. intros E. apply Hne.
      apply pos_of_inj; [assumption..|]. apply (io_inj _ _ Ho); assumption.
Qed.

(** The bytes [src] from index [tot] on are at [off ..]. *)
Definition wrote (src : list Z) (tot off n : Z) (s : kernel) (ip : inode) (s' : kernel) (ip' : inode) : Prop :=
  (forall k, 0 <= k < MAXFILE * BSIZE ->
     file_byte s' ip' k = if decide (off <= k < off + n) then byte_at src (tot + (k - off)) else file_byte s ip k) /\
  (forall k, off <= k < off + n -> blk_at s' ip' (pos_of (k / BSIZE)) <> 0).

Lemma splice_file_block (s : kernel) (ip : inode) (src : list Z) (tot off m k : Z) :
  fs_ok s -> 0 <= off -> 0 <= k -> 0 <= tot -> tot + m <= Z.of_nat (length src) -> 0 < m -> off mod BSIZE + m <= BSIZE ->
  k / BSIZE = off / BSIZE ->
  byte_at (splice (file_block s ip (off / BSIZE)) (off mod BSIZE) (slice src tot m)) (k mod BSIZE) =
  if decide (off <= k < off + m) then byte_at src (tot + (k - off)) else file_byte s ip k.
Proof.
  intros Hf Hoff Hk Htot Hsrc Hm Hmb Ek. pose proof (file_block_length s ip (off / BSIZE) Hf) as Hl.
  assert (Hsl : length (slice src tot m) = Z.to_nat m) by (apply length_slice; lia).
  unfold file_byte. rewrite Ek. change BSIZE with 512 in *.
  rewrite splice_byte, Hsl, Z2Nat.id by (rewrite ?Hsl; Z.div_mod_to_equations; lia).
  destruct (decide (off <= k < off + m)) as [Hin|Hout].
  - rewrite decide_True by (Z.div_mod_to_equations; lia). unfold byte_at, slice.
    rewrite lookup_take_lt, lookup_drop by (Z.div_mod_to_equations; lia). do 2 f_equal. Z.div_mod_to_equations. lia.
  - rewrite decide_False by (Z.div_mod_to_equations; lia). reflexivity.
Qed.

Lemma is_block_splice (d src : list Z) (o tot m : Z) :
  is_block d -> Forall is_byte src -> 0 <= tot -> 0 <= o -> 0 <= m -> tot + m <= Z.of_nat (length src) -> o + m <= 512 ->
  is_block (splice d o (slice src tot m)).
Proof.
  intros [H1 H2] Hs Ht Ho Hm Hl Hom. split.
  - rewrite length_splice; [exact H1|lia|rewrite length_slice by lia; lia].
  - apply Forall_splice; [exact H2|]. apply Forall_take, Forall_drop. exact Hs.
Qed.

(** New bytes in a block the file has. *)
Lemma splice_wrote (i : nat) (src : list Z) (tot off m : Z) (s s1 : kernel) (ip ip1 : inode) :
  fs_ok s1 -> inode_ok s1 ip1 -> k_inodes s1 !! i = Some ip1 -> Forall is_byte src ->
  0 <= off -> 0 <= tot -> 0 < m -> tot + m <= Z.of_nat (length src) ->
  off mod BSIZE + m <= BSIZE -> off + m <= MAXFILE * BSIZE ->
  (forall b, 0 <= b < MAXFILE -> file_block s1 ip1 b = file_block s ip b) ->
  let a := blk_at s1 ip1 (pos_of (off / BSIZE)) in
  let s2 := set_blk a (splice (Blk s1 a) (off mod BSIZE) (slice src tot m)) s1 in
  a <> 0 ->
  fstep 0 i s1 ip1 s2 ip1 /\ wrote src tot off m s ip s2 ip1 /\
  (forall q, valid_pos q -> blk_at s2 ip1 q = blk_at s1 ip1 q).
Proof.
  intros Hf1 Ho1 Hi1 Hs Hoff Htot Hm Hl Hmb Hmax Hsame a s2 Hna.
  pose proof (block_in_file off m Hoff Hm Hmax) as Hbn. destruct (pos_of_valid _ Hbn) as [Hv _].
  assert (Ed : Blk s1 a = file_block s1 ip1 (off / BSIZE))
    by (unfold file_block; fold a; rewrite (proj2 (Z.eqb_neq _ 0)) by exact Hna; reflexivity).
  unfold s2. rewrite Ed. set (d := splice _ _ _).
  assert (Hd : is_block d).
  { pose proof (Z.mod_pos_bound off BSIZE eq_refl).
    apply is_block_splice; [rewrite <- Ed; apply Hf1|assumption|lia|lia|lia|lia|exact Hmb]. }
  destruct (set_file_block i s1 ip1 _ d Hf1 Ho1 Hi1 Hbn Hd Hna) as (H2 & Hat & Hfb). fold a in H2, Hat, Hfb.
  split_and!; [exact H2| |exact Hat]. split.
  - intros k Hk. pose proof (block_in_file k 1 ltac:(lia) ltac:(lia) ltac:(lia)) as Hkb.
    unfold file_byte at 1. rewrite Hfb by exact Hkb. destruct (decide (k / BSIZE = off / BSIZE)) as [E|E].
    + unfold d. rewrite splice_file_block by (assumption || lia). case_decide; [reflexivity|].
      unfold file_byte. rewrite Hsame by exact Hkb. reflexivity.
    + rewrite decide_False; [unfold file_byte; rewrite Hsame by exact Hkb; reflexivity|].
      change BSIZE with 512 in *. intros Hin. apply E. Z.div_mod_to_equations. lia.
  - intros k Hk. replace (k / BSIZE) with (off / BSIZE); [rewrite Hat by exact Hv; exact Hna|].
    change BSIZE with 512 in *. Z.div_mod_to_equations. lia.
Qed.

(** One turn: the block, then the new bytes in it, then the rest. *)
Lemma writei_turn {A : Type} (n i : nat) (src : list Z) (tot off m : Z) (s : kernel) (ip : inode)
  (R : A -> kernel -> inode -> Prop) (f : K A) :
  fs_ok s -> inode_ok s ip -> k_inodes s !! i = Some ip -> Forall is_byte src ->
  0 <= off -> 0 <= tot -> 0 < m -> tot + m <= Z.of_nat (length src) ->
  off mod BSIZE + m <= BSIZE -> off + m <= MAXFILE * BSIZE ->
  (forall s' ip', fstep 4 i s ip s' ip' -> wrote src tot off m s ip s' ip' -> fruns n i s' ip' R (f s')) ->
  fruns (4 + n) i s ip R
    ((b ← bmap i (off / BSIZE); ip ← inode_at i; bp ← bd_read (idev ip) b; d ← bd_data bp;
      bd_log bp (splice d (off mod BSIZE) (slice src tot m));; bd_relse bp;; f) s).
Proof.
  intros Hf Ho Hi Hs Hoff Htot Hm Hl Hmb Hmax Hnext.
  pose proof (block_in_file off m Hoff Hm Hmax) as Hbn. destruct (pos_of_valid _ Hbn) as [Hv _].
  apply (fruns_bind 4 n i s ip _ _ _ _ (bmap_fruns i _ s ip Hf Ho Hi Hbn)).
  intros a s1 ip1 H1 (Ea & Hna & Hsame). subst a. destruct (fstep_blk_range _ _ _ _ _ _ _ H1 Hv Hna) as [_ Hlt1].
  pose proof (fp_fs _ _ _ _ _ _ H1) as Hf1. pose proof (fp_ok _ _ _ _ _ _ H1) as Ho1. pose proof (fp_at _ _ _ _ _ _ H1) as Hi1.
  rewrite (bind_Done _ _ _ _ _ (inode_at_some _ _ _ Hi1)), (io_dev _ _ Ho1).
  rewrite (bind_Done _ _ _ _ _ (raw_read _ s1 Hlt1)), (bind_Done _ _ _ _ _ (raw_data _ s1)).
  rewrite (bind_Done _ _ _ _ _ (raw_log _ _ s1)), (bind_Done _ _ _ _ _ (raw_relse _ _)).
  destruct (splice_wrote i src tot off m s s1 ip ip1) as (H2 & W & _); try assumption.
  apply (fruns_after 0 n _ _ _ _ ip1 _ _ H2).
  apply Hnext; [exact (fstep_trans 4 0 _ _ _ _ _ _ _ H1 H2)|exact W].
Qed.

Lemma wrote_trans (src : list Z) (tot off n m : Z) (s s1 s2 : kernel) (ip ip1 ip2 : inode) (k i : nat) :
  0 <= n -> 0 <= m -> 0 <= off -> off + (n + m) <= MAXFILE * BSIZE -> fstep k i s1 ip1 s2 ip2 ->
  wrote src tot off n s ip s1 ip1 -> wrote src (tot + n) (off + n) m s1 ip1 s2 ip2 ->
  wrote src tot off (n + m) s ip s2 ip2.
Proof.
  intros Hn Hm Hoff Hmax H2 [W1 P1] [W2 P2]. split.
  - intros j Hj. rewrite W2, W1 by exact Hj. destruct (decide (off + n <= j < off + n + m)).
    + rewrite decide_True by lia. f_equal. lia.
    + destruct (decide (off <= j < off + n)); [rewrite decide_True by lia|rewrite decide_False by lia]; reflexivity.
  - intros j Hj. destruct (decide (off + n <= j)); [apply P2; lia|].
    pose proof (P1 j ltac:(lia)) as Hp. pose proof (block_in_file j 1 ltac:(lia) ltac:(lia) ltac:(lia)) as Hb.
    rewrite (fp_old _ _ _ _ _ _ H2); [exact Hp|apply pos_of_valid; exact Hb|exact Hp].
Qed.

Lemma writei_loop_run (fu : nat) : forall (i : nat) (src : list Z) (tot off n : Z) (s : kernel) (ip : inode),
  fs_ok s -> inode_ok s ip -> k_inodes s !! i = Some ip -> Forall is_byte src ->
  0 <= off -> 0 <= tot <= n -> n <= Z.of_nat (length src) ->
  off + (n - tot) <= MAXFILE * BSIZE -> turns_le fu off (n - tot) ->
  fruns (4 * fu) i s ip (fun r s' ip' => r = off + (n - tot) /\ wrote src tot off (n - tot) s ip s' ip')
    (writei_loop fu i src tot off n s).
Proof.
  induction fu as [|fu IH]; intros i src tot off n s ip Hf Ho Hi Hs Hoff Htot Hlen Hmax Hfu; [destruct Hfu; lia|].
  cbn [writei_loop]. destruct (Z.ltb_spec tot n) as [Hlt|Hge]; cbn [negb].
  2:{ apply fruns_ret; try assumption. split; [lia|]. split; [|lia]. intros k Hk. rewrite decide_False by lia. reflexivity. }
  destruct (turns_next fu off (n - tot) Hfu ltac:(lia)) as (Hm & Hmb & Hfu').
  cbv zeta. set (m := Z.min (n - tot) (BSIZE - off mod BSIZE)) in *.
  replace (4 * S fu)%nat with (4 + 4 * fu)%nat by lia.
  apply (writei_turn (4 * fu)); try (assumption || lia). intros s1 ip1 H1 W1.
  replace (n - tot - m) with (n - (tot + m)) in Hfu' by lia.
  destruct (IH i src (tot + m) (off + m) n s1 ip1) as [ (r & s2 & ip2 & E & H2 & Er & W2) | H2 ];
    [apply H1|apply H1|apply H1|assumption|lia|lia|lia|lia|exact Hfu'| |right; exact H2].
  left. exists r, s2, ip2. split_and!; [exact E|exact H2|lia|].
  replace (n - tot) with (m + (n - (tot + m))) by lia. eapply wrote_trans; try eassumption; lia.
Qed.

(** ** readi and writei *)

(** The number of bytes a read at [off] gives. *)
Definition read_len (ip : inode) (off n : Z) : Z := Z.min n (isize ip - off).

Lemma readi_unfold (i : nat) (off n : Z) (s : kernel) (ip : inode) :
  k_inodes s !! i = Some ip -> itype ip <> T_DEV -> 0 <= off <= isize ip -> 0 <= n -> off + n < 2 ^ 32 ->
  isize ip <= MAXFILE * BSIZE ->
  readi i off n s = (d ← readi_loop (blocks_fuel (read_len ip off n)) i 0 off (read_len ip off n) [];
                     mret (read_len ip off n, d)) s.
Proof.
  intros Hi Ht Hoff Hn Hov Hsz. unfold readi. rewrite (bind_Done _ _ _ _ _ (inode_at_some _ _ _ Hi)).
  rewrite (proj2 (Z.eqb_neq _ _)) by exact Ht. rewrite u32_small by lia. rewrite !Z.gtb_ltb.
  rewrite (proj2 (Z.ltb_ge (isize ip) off)), (proj2 (Z.ltb_ge (off + n) off)) by lia. cbv [orb]. cbv zeta.
  assert (E : (if isize ip <? off + n then isize ip - off else n) = read_len ip off n)
    by (unfold read_len; destruct (Z.ltb_spec (isize ip) (off + n)); lia).
  rewrite E, s32_small; [reflexivity|]. unfold read_len. change MAXFILE with 2113674 in *. change BSIZE with 512 in *. lia.
Qed.

Lemma readi_run (i : nat) (off n : Z) (s : kernel) (ip : inode) :
  fs_ok s -> inode_ok s ip -> k_inodes s !! i = Some ip -> itype ip <> T_DEV ->
  0 <= off <= isize ip -> 0 <= n -> off + n < 2 ^ 32 -> isize ip <= MAXFILE * BSIZE ->
  fruns (4 * blocks_fuel (read_len ip off n)) i s ip
    (fun r s' ip' => r = (read_len ip off n, content s ip off (read_len ip off n)) /\ same_file s ip s' ip')
    (readi i off n s).
Proof.
  intros Hf Ho Hi Ht Hoff Hn Hov Hsz. rewrite (readi_unfold i off n s ip) by assumption.
  assert (Hr : 0 <= read_len ip off n <= isize ip - off) by (unfold read_len; lia).
  set (m := read_len ip off n) in *.
  destruct (readi_loop_run (blocks_fuel m) i 0 off m [] s ip) as [ (r & s' & ip' & E & H & Er & Hs) | [Hfew E] ];
    try (assumption || lia).
  { rewrite Z.sub_0_r. apply turns_blocks_fuel. lia. }
  - left. exists (m, r), s', ip'. rewrite (bind_Done _ _ _ _ _ E). split_and!; [reflexivity|exact H| |exact Hs].
    rewrite Er, Z.sub_0_r. reflexivity.
  - right. split; [exact Hfew|]. apply bind_Halt. exact E.
Qed.

Lemma readi_present (i : nat) (off n : Z) (s : kernel) (ip : inode) :
  fs_ok s -> inode_ok s ip -> k_inodes s !! i = Some ip -> itype ip <> T_DEV ->
  0 <= off <= isize ip -> 0 <= n -> off + n < 2 ^ 32 -> isize ip <= MAXFILE * BSIZE ->
  (forall k, off <= k < off + read_len ip off n -> blk_at s ip (pos_of (k / BSIZE)) <> 0) ->
  readi i off n s = Done (read_len ip off n, content s ip off (read_len ip off n)) s.
Proof.
  intros Hf Ho Hi Ht Hoff Hn Hov Hsz Hp. rewrite (readi_unfold i off n s ip) by assumption.
  assert (Hr : 0 <= read_len ip off n <= isize ip - off) by (unfold read_len; lia).
  erewrite bind_Done; [|apply (readi_loop_present _ _ _ _ _ _ s ip); try (assumption || lia)].
  - rewrite Z.sub_0_r. reflexivity.
  - rewrite Z.sub_0_r. apply turns_blocks_fuel. lia.
  - rewrite Z.sub_0_r. exact Hp.
Qed.

(** The state a write leaves, with the inode in the cache and on the disk. *)
Record written (i : nat) (src : list Z) (off n : Z) (s : kernel) (ip : inode) (s' : kernel) (ip' : inode) : Prop := {
  wr_fs : fs_ok s';
  wr_ok : inode_ok s' ip';
  wr_only : s' = s <| k_disk := k_disk s' |> <| k_inodes := k_inodes s' |>;
  wr_at : k_inodes s' !! i = Some ip';
  wr_ip : ip' = ip <| iaddrs := iaddrs ip' |> <| isize := if 0 <? n then Z.max (isize ip) (off + n) else isize ip |>;
  wr_old : forall q, valid_pos q -> blk_at s ip q <> 0 -> blk_at s' ip' q = blk_at s ip q;
  wr_bytes : wrote src 0 off n s ip s' ip';
  wr_used : forall c, 0 <= c < sb_size (k_sb s) -> used s c = true -> used s' c = true;
  wr_blk : forall c, data_start (k_sb s) <= c < sb_size (k_sb s) -> used s c = true ->
    (forall q, valid_pos q -> blk_at s ip q <> c) -> Blk s' c = Blk s c;
  wr_inodes : forall j, j <> i -> k_inodes s' !! j = k_inodes s !! j;
  wr_grown : 0 < n -> isize ip < off + n -> disk_inode s' (inum ip) = dinode_of ip';
  wr_kept : off + n <= isize ip -> forall k, 0 <= k < sb_ninodes (k_sb s) -> disk_inode s' k = disk_inode s k
}.

(** An inode whose size changes in the cache and that is stored on the disk
    keeps its blocks and its contents. *)
Lemma resize_store (i : nat) (s : kernel) (ip : inode) (sz : Z) :
  fs_ok s -> inode_ok s ip -> k_inodes s !! i = Some ip -> 0 <= inum ip < sb_ninodes (k_sb s) ->
  dinode_ok (dinode_of (ip <| isize := sz |>)) ->
  let ip' := ip <| isize := sz |> in
  let s1 := s <| k_inodes := <[i := ip']> (k_inodes s) |> in
  stored ip' s1 (store_inode ip' s1) /\
  (forall p, valid_pos p -> blk_at (store_inode ip' s1) ip' p = blk_at s ip p) /\
  inode_ok (store_inode ip' s1) ip'.
Proof.
  intros Hf Ho Hi Hn Hd ip' s1.
  assert (Hst : stored ip' s1 (store_inode ip' s1)) by (apply store_inode_stored; [apply fs_ok_inodes; exact Hf|exact Hn|exact Hd]).
  assert (Hat : forall p, valid_pos p -> blk_at (store_inode ip' s1) ip' p = blk_at s ip p).
  { intros p Hp. change (blk_at s ip p) with (blk_at s1 ip' p). apply blk_at_same; [|exact Hp].
    intros q Hq _ Hnq. apply (st_blk _ _ _ Hst). apply (io_blk _ _ Ho q Hq Hnq). }
  split_and!; [exact Hst|exact Hat|]. pose proof (data_start_pos _ Hf). split; try apply Ho.
  - intros p Hp. rewrite Hat by exact Hp. intros Hnp. destruct (io_blk _ _ Ho p Hp Hnp) as [Hr Hu].
    split; [exact Hr|]. rewrite (st_used _ _ _ Hst) by (change (k_sb s1) with (k_sb s); lia). exact Hu.
  - intros p q Hp Hq. rewrite !Hat by assumption. apply Ho; assumption.
Qed.

Lemma inode_ok_addrs (s : kernel) (ip : inode) : fs_ok s -> inode_ok s ip -> Forall is_uint (iaddrs ip).
Proof.
  intros Hf Ho. apply Forall_lookup_2. intros r a Ha. unfold is_uint.
  destruct (decide (a = 0)) as [->|Hn]; [lia|].
  assert (E : blk_at s ip (r, []) = a) by (unfold blk_at, root_of; simpl; rewrite Ha; reflexivity).
  assert (Hr : (r < 13)%nat) by (change 13%nat with NADDRS; rewrite <- (io_len _ _ Ho); eapply lookup_lt_Some; exact Ha).
  destruct (io_blk _ _ Ho (r, [])) as [Hb _]; [split_and!; [exact Hr|simpl; lia|constructor]|congruence|].
  pose proof (fs_size _ Hf). pose proof (data_start_pos _ Hf). unfold FSSIZE in *. lia.
Qed.

Lemma fstep_disk_inode (n i : nat) (s s' : kernel) (ip ip' : inode) (k : Z) :
  fs_ok s -> fstep n i s ip s' ip' -> 0 <= k < sb_ninodes (k_sb s) -> disk_inode s' k = disk_inode s k.
Proof.
  intros Hf H Hk. unfold disk_inode. rewrite (fp_sb _ _ _ _ _ _ H), (fp_meta _ _ _ _ _ _ H); [reflexivity|].
  pose proof (IBLOCK_range s k Hk). pose proof (fs_bmap _ Hf). lia.
Qed.

Lemma fstep_dinode (n i : nat) (s s' : kernel) (ip ip' : inode) (sz : Z) :
  fstep n i s ip s' ip' -> dinode_ok (dinode_of ip) -> is_uint sz -> dinode_ok (dinode_of (ip' <| isize := sz |>)).
Proof.
  intros H [D1 D2 D3 D4 D5 D6 D7] Hsz. pose proof (fp_ip _ _ _ _ _ _ H) as E. split.
  - rewrite E. exact D1.
  - rewrite E. exact D2.
  - rewrite E. exact D3.
  - rewrite E. exact D4.
  - exact Hsz.
  - exact (io_len _ _ (fp_ok _ _ _ _ _ _ H)).
  - exact (inode_ok_addrs _ _ (fp_fs _ _ _ _ _ _ H) (fp_ok _ _ _ _ _ _ H)).
Qed.

(** The size and the disk after the loop of [writei]. *)
Lemma writei_finish (k i : nat) (src : list Z) (off n : Z) (s s1 : kernel) (ip ip1 : inode) :
  fs_ok s -> fstep k i s ip s1 ip1 -> wrote src 0 off n s ip s1 ip1 -> 0 <= off <= isize ip -> 0 <= n ->
  off + n <= MAXFILE * BSIZE -> 0 <= inum ip < sb_ninodes (k_sb s) -> dinode_ok (dinode_of ip) ->
  exists s' ip', when ((n >? 0) && (off + n >? isize ip1))
      (upd_inode i (fun ip => ip <| isize := off + n |>);; iupdate i) s1 = Done tt s' /\
    written i src off n s ip s' ip'.
Proof.
  intros Hf H1 [W P] Hoff Hn Hmax Hk Hd. pose proof (fp_ip _ _ _ _ _ _ H1) as Eip.
  pose proof (fp_sb _ _ _ _ _ _ H1) as Hsb. pose proof (fp_fs _ _ _ _ _ _ H1) as Hf1.
  pose proof (fp_at _ _ _ _ _ _ H1) as Hi1. pose proof (fp_ok _ _ _ _ _ _ H1) as Ho1.
  assert (Hsz : isize ip1 = isize ip) by (rewrite Eip; reflexivity).
  assert (Hin : inum ip1 = inum ip) by (rewrite Eip; reflexivity).
  assert (Hother : forall j, j <> i -> k_inodes s1 !! j = k_inodes s !! j).
  { intros j Hj. rewrite (fp_only _ _ _ _ _ _ H1). simpl. apply list_lookup_insert_ne. congruence. }
  assert (Honly : s1 = s <| k_disk := k_disk s1 |> <| k_inodes := k_inodes s1 |>).
  { pose proof (fp_only _ _ _ _ _ _ H1) as E. unfold only_inode in E.
    assert (Ei : k_inodes s1 = <[i := ip1]> (k_inodes s)) by (rewrite E; reflexivity). rewrite Ei. exact E. }
  rewrite Hsz, !Z.gtb_ltb. destruct (Z.ltb_spec 0 n) as [Hn0|Hn0]; [destruct (Z.ltb_spec (isize ip) (off + n)) as [Hg|Hg] |]; cbn [andb when].
  2,3: exists s1, ip1; split; [reflexivity|]; split; try apply H1; try (split; assumption); try assumption; try lia.
  2:{ rewrite (proj2 (Z.ltb_lt 0 n)), Z.max_l by lia. rewrite Eip at 1. reflexivity. }
  2:{ intros _ j Hj. eapply fstep_disk_inode; eassumption. }
  2:{ rewrite (proj2 (Z.ltb_ge 0 n)) by lia. rewrite Eip at 1. reflexivity. }
  2:{ intros _ j Hj. eapply fstep_disk_inode; eassumption. }
  rewrite (bind_Done _ _ _ _ _ (put_alter s1 i _ _ Hi1)). set (ip' := ip1 <| isize := off + n |>).
  assert (Hd' : dinode_ok (dinode_of ip')).
  { eapply fstep_dinode; [exact H1|exact Hd|]. unfold is_uint. change MAXFILE with 2113674 in *. change BSIZE with 512 in *. lia. }
  assert (Hk' : 0 <= inum ip1 < sb_ninodes (k_sb s1)) by (rewrite Hin, Hsb; exact Hk).
  destruct (resize_store i s1 ip1 (off + n) Hf1 Ho1 Hi1 Hk' Hd') as (Hst & Hat & Hok). fold ip' in Hst, Hat, Hok.
  set (s2 := s1 <| k_inodes := _ |>) in *.
  assert (Hi2 : k_inodes s2 !! i = Some ip') by (apply list_lookup_insert_eq; eapply lookup_lt_Some; exact Hi1).
  assert (Hf2 : fs_ok s2) by (apply fs_ok_inodes; exact Hf1). pose proof (data_start_pos _ Hf).
  exists (store_inode ip' s2), ip'. split; [apply iupdate_run; [exact Hf2|exact Hi2|apply Ho1|exact Hk']|].
  assert (Hfb : forall b, 0 <= b < MAXFILE -> file_block (store_inode ip' s2) ip' b = file_block s1 ip1 b).
  { intros b Hb. destruct (pos_of_valid b Hb) as [Hv _]. unfold file_block. rewrite Hat by exact Hv.
    destruct (Z.eqb_spec (blk_at s1 ip1 (pos_of b)) 0) as [|Hnb]; [reflexivity|].
    rewrite (st_blk _ _ _ Hst) by (apply (io_blk _ _ Ho1 _ Hv Hnb)). reflexivity. }
  split; try assumption.
  - apply Hst.
  - unfold s2. rewrite Honly. reflexivity.
  - rewrite (proj2 (Z.ltb_lt 0 n)), Z.max_r by lia. unfold ip'. rewrite Eip. reflexivity.
  - intros q Hq Hnq. rewrite Hat by exact Hq. apply (fp_old _ _ _ _ _ _ H1); assumption.
  - split.
    + intros j Hj. unfold file_byte at 1. rewrite Hfb by (apply (block_in_file j 1); lia). apply W. exact Hj.
    + intros j Hj. rewrite Hat by (apply pos_of_valid, (block_in_file j 1); lia). apply P. exact Hj.
  - intros c Hc Hu. rewrite (st_used _ _ _ Hst) by (change (k_sb s2) with (k_sb s1); rewrite Hsb; exact Hc).
    apply (fp_used _ _ _ _ _ _ H1); assumption.
  - intros c Hc Hu Hnc. rewrite (st_blk _ _ _ Hst) by (change (k_sb s2) with (k_sb s1); rewrite Hsb; apply Hc).
    apply (fp_blk _ _ _ _ _ _ H1); assumption.
  - intros j Hj. change (k_inodes s2 !! j = k_inodes s !! j). rewrite <- Hother by exact Hj.
    apply list_lookup_insert_ne. congruence.
  - intros _ _. rewrite <- Hin. exact (st_same _ _ _ Hst).
  - lia.
Qed.

Lemma writei_run (i : nat) (src : list Z) (off n : Z) (s : kernel) (ip : inode) :
  fs_ok s -> inode_ok s ip -> k_inodes s !! i = Some ip -> itype ip <> T_DEV ->
  0 <= inum ip < sb_ninodes (k_sb s) -> dinode_ok (dinode_of ip) ->
  Forall is_byte src -> 0 <= n <= Z.of_nat (length src) -> 0 <= off <= isize ip -> off + n <= MAXFILE * BSIZE ->
  (exists s' ip', writei i src off n s = Done n s' /\ written i src off n s ip s' ip') \/
  (few_free (4 * blocks_fuel n) s /\ writei i src off n s = Halt (Panic "balloc: out of blocks")).
Proof.
  intros Hf Ho Hi Ht Hk Hd Hs Hn Hoff Hmax. unfold writei. rewrite (bind_Done _ _ _ _ _ (inode_at_some _ _ _ Hi)).
  rewrite (proj2 (Z.eqb_neq _ _)) by exact Ht.
  assert (Hb : off + n < 2 ^ 31) by (change MAXFILE with 2113674 in *; change BSIZE with 512 in *; lia).
  rewrite u32_small, !Z.gtb_ltb by lia.
  rewrite (proj2 (Z.ltb_ge (isize ip) off)), (proj2 (Z.ltb_ge (off + n) off)), (proj2 (Z.ltb_ge (MAXFILE * BSIZE) _)) by lia.
  cbv [orb]. destruct (writei_loop_run (blocks_fuel n) i src 0 off n s ip) as [ (r & s1 & ip1 & E & H1 & Er & W) | [Hfew E] ];
    try (assumption || lia).
  { rewrite Z.sub_0_r. apply turns_blocks_fuel. lia. }
  2:{ right. split; [exact Hfew|]. apply bind_Halt. exact E. }
  left. rewrite Z.sub_0_r in Er, W. subst r.
  destruct (writei_finish _ i src off n s s1 ip ip1 Hf H1 W Hoff) as (s' & ip' & E' & H'); try (assumption || lia).
  exists s', ip'. split; [|exact H']. rewrite (bind_Done _ _ _ _ _ E).
  rewrite (bind_Done _ _ _ _ _ (inode_at_some _ _ _ (fp_at _ _ _ _ _ _ H1))).
  rewrite !Z.gtb_ltb in E'. rewrite !Z.gtb_ltb. rewrite (bind_Done _ _ _ _ _ E'), s32_small by lia. reflexivity.
Qed.

(** The bytes just written are the ones read back. *)
Lemma written_content (i : nat) (src : list Z) (off n : Z) (s s' : kernel) (ip ip' : inode) :
  written i src off n s ip s' ip' -> 0 <= off -> n = Z.of_nat (length src) -> off + n <= MAXFILE * BSIZE ->
  content s' ip' off n = src.
Proof.
  intros H Hoff Hn Hmax. destruct (wr_bytes _ _ _ _ _ _ _ _ H) as [W _]. apply list_eq. intros k.
  destruct (decide (Z.of_nat k < n)) as [Hk|Hk].
  - rewrite content_lookup, W, decide_True by lia. unfold byte_at.
    replace (Z.to_nat (0 + (off + Z.of_nat k - off))) with k by lia.
    destruct (lookup_lt_is_Some_2 src k) as [v Hv]; [lia|]. rewrite Hv. reflexivity.
  - rewrite !(proj2 (lookup_ge_None _ k)); [reflexivity|lia|rewrite length_content; lia].
Qed.

End Data.
