(* ===== verification/Dir.v ===== *)
(** * Directories: dirlookup and dirlink

    A directory is a file of sixteen-byte entries; [dirents] is the list of
    them.  [dirlookup] finds the first entry with the name, [dirlink] stores a
    new one in the first free place or at the end. *)

From S2P Require Import Prelude Params Bytes CString Kernel Print Sleep Ide Bio Log Fs FsDisk Bmap Dinode FileData.

Definition dirent_at (s : kernel) (ip : inode) (k : nat) : dirent :=
  get_dirent (content s ip (16 * Z.of_nat k) 16).

Definition dirents (s : kernel) (ip : inode) : list dirent :=
  map (dirent_at s ip) (seq 0 (Z.to_nat (isize ip / 16))).

(** A directory whose size is a whole number of entries and that has all its
    blocks. *)
Record dir_ok (s : kernel) (ip : inode) : Prop := {
  dr_type : itype ip = T_DIR;
  dr_size : isize ip mod 16 = 0;
  dr_max : 0 <= isize ip <= MAXFILE * BSIZE;
  dr_blk : forall k, 0 <= k < isize ip -> blk_at s ip (pos_of (k / BSIZE)) <> 0
}.

(** The entry is in use and has the name. *)
Definition entry_is (name : list Z) (e : dirent) : bool :=
  negb (de_inum e =? 0) && (namecmp name (de_name e) =? 0).

Lemma get_dirent_bytes (e : dirent) :
  0 <= de_inum e < 65536 -> length (de_name e) = Z.to_nat DIRSIZ -> get_dirent (dirent_bytes e) = e.
Proof.
  intros Hi Hl. destruct e as [n nm]. unfold get_dirent, dirent_bytes in *. simpl in *. f_equal.
  - transitivity (u16 n); [exact (le16_sum n)|]. apply Z.mod_small. exact Hi.
  - unfold slice. change (drop (Z.to_nat 2) (le16 n ++ nm)) with nm. apply take_ge. rewrite Hl. reflexivity.
Qed.

Lemma length_dirents (s : kernel) (ip : inode) : length (dirents s ip) = Z.to_nat (isize ip / 16).
Proof. unfold dirents. rewrite length_map, length_seq. reflexivity. Qed.

Lemma dirents_lookup (s : kernel) (ip : inode) (k : nat) :
  (k < Z.to_nat (isize ip / 16))%nat -> dirents s ip !! k = Some (dirent_at s ip k).
Proof. intros H. unfold dirents. rewrite list_lookup_fmap, lookup_seq_lt by exact H. reflexivity. Qed.

(** [find_idx] from an index on. *)
Lemma find_idx_drop {A : Type} (f : A -> bool) (l : list A) (k : nat) (x : A) :
  l !! k = Some x -> find_idx f (drop k l) = if f x then Some 0%nat else S <$> find_idx f (drop (S k) l).
Proof. intros H. rewrite (drop_S _ _ _ H). simpl. destruct (f x); [reflexivity|]. destruct (find_idx f (drop (S k) l)); reflexivity. Qed.

Section Dirs.
Context {F : Fuel} {DV : Devsw}.
#[local] Existing Instance raw_disk.

Section Scan.
Context (i : nat) (s : kernel) (ip : inode).
Context (Hf : fs_ok s) (Ho : inode_ok s ip) (Hi : k_inodes s !! i = Some ip) (Hd : dir_ok s ip).

(** The read of one entry. *)
Lemma readi_entry (k : nat) :
  (k < Z.to_nat (isize ip / 16))%nat ->
  readi i (16 * Z.of_nat k) DIRENT_SIZE s = Done (DIRENT_SIZE, content s ip (16 * Z.of_nat k) 16) s.
Proof.
  intros Hk. destruct Hd as [H1 H2 H3 H4]. change MAXFILE with 2113674 in *. change BSIZE with 512 in *.
  assert (Hk' : 16 * Z.of_nat k + 16 <= isize ip) by (Z.div_mod_to_equations; lia).
  change DIRENT_SIZE with 16.
  assert (E : read_len ip (16 * Z.of_nat k) 16 = 16) by (unfold read_len; lia).
  rewrite (readi_present i (16 * Z.of_nat k) 16 s ip); rewrite ?E; try assumption; try lia; try reflexivity.
  - rewrite H1. discriminate.
  - change MAXFILE with 2113674. change BSIZE with 512. lia.
  - intros j Hj. apply H4. lia.
Qed.

Lemma entry_end (k : nat) :
  (16 * Z.of_nat k <? isize ip) = bool_decide (k < Z.to_nat (isize ip / 16))%nat.
Proof.
  pose proof (dr_size _ _ Hd). pose proof (dr_max _ _ Hd).
  case_bool_decide; [apply Z.ltb_lt|apply Z.ltb_ge]; Z.div_mod_to_equations; lia.
Qed.

Lemma dirlookup_loop_run (name : list Z) (fu : nat) : forall k : nat,
  (S (Z.to_nat (isize ip / 16)) <= k + fu)%nat -> (0 < fu)%nat ->
  dirlookup_loop fu i name (16 * Z.of_nat k) s =
  match find_idx (entry_is name) (drop k (dirents s ip)) with
  | None => Done None s
  | Some j => (ino ← iget (idev ip) (de_inum (dirent_at s ip (k + j)));
               mret (Some (ino, 16 * Z.of_nat (k + j)))) s
  end.
Proof.
  induction fu as [|fu IH]; intros k Hk Hpos; [lia|]. cbn [dirlookup_loop].
  rewrite (bind_Done _ _ _ _ _ (inode_at_some _ _ _ Hi)), entry_end. case_bool_decide as Hlt; cbn [negb].
  2:{ rewrite drop_ge by (rewrite length_dirents; lia). reflexivity. }
  rewrite (bind_Done _ _ _ _ _ (readi_entry k Hlt)). cbn [fst snd]. rewrite Z.eqb_refl. cbn [negb]. cbv zeta.
  rewrite (find_idx_drop _ _ _ _ (dirents_lookup s ip k Hlt)). fold (dirent_at s ip k). unfold entry_is at 1.
  destruct (_ && _); [rewrite Nat.add_0_r; reflexivity|].
  change DIRENT_SIZE with 16. replace (16 * Z.of_nat k + 16) with (16 * Z.of_nat (S k)) by lia. rewrite IH by lia.
  destruct (find_idx _ _) as [j|]; [|reflexivity]. cbn [fmap option_fmap option_map].
  replace (S k + j)%nat with (k + S j)%nat by lia. reflexivity.
Qed.

Lemma dirlookup_run (name : list Z) :
  dirlookup i name s =
  match find_idx (entry_is name) (dirents s ip) with
  | None => Done None s
  | Some j => (ino ← iget (idev ip) (de_inum (dirent_at s ip j)); mret (Some (ino, 16 * Z.of_nat j))) s
  end.
Proof.
  unfold dirlookup. rewrite (bind_Done _ _ _ _ _ (inode_at_some _ _ _ Hi)), (dr_type _ _ Hd). cbn [negb].
  rewrite Z.eqb_refl. cbn [negb]. change DIRENT_SIZE with 16.
  change 0 with (16 * Z.of_nat 0) at 1. rewrite dirlookup_loop_run by lia. reflexivity.
Qed.

Lemma dirlink_loop_run (fu : nat) : forall k : nat,
  (S (Z.to_nat (isize ip / 16)) <= k + fu)%nat -> (0 < fu)%nat ->
  (k <= Z.to_nat (isize ip / 16))%nat ->
  dirlink_loop fu i (16 * Z.of_nat k) s =
  Done (match find_idx (fun e => de_inum e =? 0) (drop k (dirents s ip)) with
        | None => isize ip
        | Some j => 16 * Z.of_nat (k + j)
        end) s.
Proof.
  induction fu as [|fu IH]; intros k Hk Hpos Hle; [lia|]. cbn [dirlink_loop].
  rewrite (bind_Done _ _ _ _ _ (inode_at_some _ _ _ Hi)), entry_end. case_bool_decide as Hlt; cbn [negb].
  2:{ rewrite drop_ge by (rewrite length_dirents; lia). simpl. pose proof (dr_size _ _ Hd). pose proof (dr_max _ _ Hd).
      replace (16 * Z.of_nat k) with (isize ip) by (Z.div_mod_to_equations; lia). reflexivity. }
  rewrite (bind_Done _ _ _ _ _ (readi_entry k Hlt)). cbn [fst snd]. rewrite Z.eqb_refl. cbn [negb].
  rewrite (find_idx_drop _ _ _ _ (dirents_lookup s ip k Hlt)). fold (dirent_at s ip k).
  destruct (_ =? 0); [rewrite Nat.add_0_r; reflexivity|].
  change DIRENT_SIZE with 16. replace (16 * Z.of_nat k + 16) with (16 * Z.of_nat (S k)) by lia. rewrite IH by lia.
  destruct (find_idx _ _) as [j|]; [|reflexivity]. cbn [fmap option_fmap option_map].
  replace (S k + j)%nat with (k + S j)%nat by lia. reflexivity.
Qed.

End Scan.
(** ** Linking *)

(** The place of a new entry, and the directory with it. *)
Definition free_place (l : list dirent) : nat :=
  match find_idx (fun e => de_inum e =? 0) l with Some k => k | None => length l end.

Definition place (k : nat) (e : dirent) (l : list dirent) : list dirent :=
  if decide (k < length l)%nat then <[k := e]> l else l ++ [e].

Lemma free_place_le (l : list dirent) : (free_place l <= length l)%nat.
Proof.
  unfold free_place. destruct (find_idx _ l) eqn:E; [|lia].
  apply find_idx_Some in E. destruct E as [(x & Hx & _) _]. apply lookup_lt_Some in Hx. lia.
Qed.

Definition new_entry (name : list Z) (inum_ : Z) : dirent := mk_dirent (u16 inum_) (strncpy (Z.to_nat DIRSIZ) name).

Lemma entry_is_new (name : list Z) (inum_ : Z) :
  Forall is_byte name -> u16 inum_ <> 0 -> entry_is name (new_entry name inum_) = true.
Proof.
  intros Hb Hn. unfold entry_is, new_entry, namecmp. cbn [de_inum de_name].
  rewrite (proj2 (Z.eqb_neq _ _)) by exact Hn. apply Z.eqb_eq, strncmp_eq; [exact Hb|apply Forall_strncpy, Hb|].
  rewrite cstr_strncpy, take_take, Nat.min_id. reflexivity.
Qed.

Lemma find_idx_place (f : dirent -> bool) (l : list dirent) (k : nat) (e : dirent) :
  (k <= length l)%nat -> find_idx f l = None -> f e = true -> find_idx f (place k e l) = Some k.
Proof.
  intros Hk Hn He. unfold place. case_decide as Hlt.
  - clear Hk. revert k Hlt. induction l as [|x l IH]; intros k Hlt; [simpl in Hlt; lia|].
    simpl in Hn. destruct (f x) eqn:Ex; [discriminate|]. destruct (find_idx f l) eqn:El; [discriminate|].
    destruct k as [|k]; simpl; [rewrite He; reflexivity|]. rewrite Ex, IH; [reflexivity|reflexivity|simpl in Hlt; lia].
  - assert (k = length l) as -> by lia. clear Hk Hlt. induction l as [|x l IH]; simpl; [rewrite He; reflexivity|].
    simpl in Hn. destruct (f x) eqn:Ex; [discriminate|]. destruct (find_idx f l) eqn:El; [discriminate|].
    rewrite IH by reflexivity. reflexivity.
Qed.

Lemma new_entry_ok (name : list Z) (inum_ : Z) :
  0 <= de_inum (new_entry name inum_) < 65536 /\ length (de_name (new_entry name inum_)) = Z.to_nat DIRSIZ.
Proof. split; [apply Z.mod_pos_bound; reflexivity|apply length_strncpy]. Qed.

Lemma new_entry_bytes (name : list Z) (inum_ : Z) :
  length (dirent_bytes (new_entry name inum_)) = 16%nat /\
  (Forall is_byte name -> Forall is_byte (dirent_bytes (new_entry name inum_))).
Proof.
  unfold dirent_bytes, new_entry. cbn [de_inum de_name]. split.
  - rewrite length_app, length_strncpy. reflexivity.
  - intros H. apply Forall_app_2; [apply Forall_le16|apply Forall_strncpy; exact H].
Qed.

(** The directory after the write of one entry at place [k]. *)
Lemma written_dirents (i : nat) (e : dirent) (k : nat) (s s' : kernel) (ip ip' : inode) :
  dir_ok s ip -> 0 <= de_inum e < 65536 -> length (de_name e) = Z.to_nat DIRSIZ ->
  (k <= Z.to_nat (isize ip / 16))%nat -> isize ip + 16 <= MAXFILE * BSIZE ->
  written i (dirent_bytes e) (16 * Z.of_nat k) 16 s ip s' ip' ->
  dirents s' ip' = place k e (dirents s ip) /\ dir_ok s' ip'.
Proof.
  intros Hd Hin Hnm Hk Hmax H. pose proof (dr_size _ _ Hd) as Hsz. pose proof (dr_max _ _ Hd) as Hmx.
  assert (Hlen : length (dirent_bytes e) = 16%nat) by (unfold dirent_bytes; rewrite length_app, Hnm; reflexivity).
  pose proof (wr_ip _ _ _ _ _ _ _ _ H) as Eip. destruct (wr_bytes _ _ _ _ _ _ _ _ H) as [W P].
  assert (Hs' : isize ip' = Z.max (isize ip) (16 * Z.of_nat k + 16)) by (rewrite Eip; reflexivity).
  assert (Hkm : 16 * Z.of_nat k <= isize ip) by (Z.div_mod_to_equations; lia).
  assert (Hnew : dirent_at s' ip' k = e).
  { unfold dirent_at. rewrite (written_content _ _ _ _ _ _ _ _ H) by lia. apply get_dirent_bytes; assumption. }
  assert (Hoth : forall j, j <> k -> (j < Z.to_nat (isize ip / 16))%nat -> dirent_at s' ip' j = dirent_at s ip j).
  { intros j Hj Hlt. unfold dirent_at. f_equal. apply content_ext. intros b Hb.
    assert (b < isize ip) by (Z.div_mod_to_equations; lia). rewrite W, decide_False by lia. reflexivity. }
  split.
  - apply list_eq. intros j. unfold place. rewrite length_dirents. case_decide as Hkl.
    + assert (isize ip' = isize ip) as E by (rewrite Hs'; Z.div_mod_to_equations; lia).
      destruct (decide (j < Z.to_nat (isize ip / 16))%nat) as [Hj|Hj].
      * rewrite dirents_lookup by (rewrite E; exact Hj). destruct (decide (j = k)) as [->|Hne].
        -- rewrite list_lookup_insert_eq by (rewrite length_dirents; exact Hj). rewrite Hnew. reflexivity.
        -- rewrite list_lookup_insert_ne, dirents_lookup, Hoth by (congruence || assumption). reflexivity.
      * rewrite !(proj2 (lookup_ge_None _ j)); [reflexivity|rewrite length_insert, length_dirents; lia|rewrite length_dirents, E; lia].
    + assert (k = Z.to_nat (isize ip / 16)) as Ek by lia.
      assert (Z.to_nat (isize ip' / 16) = S k) as E by (rewrite Hs'; Z.div_mod_to_equations; lia).
      destruct (decide (j < k)%nat) as [Hj|Hj]; [|destruct (decide (j = k)) as [->|Hne] ].
      * rewrite dirents_lookup by lia. rewrite lookup_app_l by (rewrite length_dirents; lia).
        rewrite dirents_lookup, Hoth by lia. reflexivity.
      * rewrite dirents_lookup by lia. rewrite lookup_app_r, length_dirents, <- Ek, Nat.sub_diag by (rewrite length_dirents; lia).
        rewrite Hnew. reflexivity.
      * rewrite !(proj2 (lookup_ge_None _ j)); [reflexivity|rewrite length_app, length_dirents; simpl; lia|rewrite length_dirents; lia].
  - split.
    + rewrite Eip. apply Hd.
    + rewrite Hs'. Z.div_mod_to_equations. lia.
    + rewrite Hs'. lia.
    + intros b Hb. destruct (decide (b < isize ip)).
      * pose proof (dr_blk _ _ Hd b ltac:(lia)) as Hb'.
        rewrite (wr_old _ _ _ _ _ _ _ _ H); [exact Hb'|apply pos_of_valid, (block_in_file b 1); lia|exact Hb'].
      * apply P. lia.
Qed.

(** [dirlink] of a name that is not in the directory. *)
Lemma dirlink_run (i : nat) (name : list Z) (inum_ : Z) (s : kernel) (ip : inode) :
  fs_ok s -> inode_ok s ip -> k_inodes s !! i = Some ip -> dir_ok s ip ->
  0 <= inum ip < sb_ninodes (k_sb s) -> dinode_ok (dinode_of ip) -> Forall is_byte name ->
  isize ip + 16 <= MAXFILE * BSIZE -> find_idx (entry_is name) (dirents s ip) = None ->
  let k := free_place (dirents s ip) in
  (exists s' ip', dirlink i name inum_ s = Done 0 s' /\
     written i (dirent_bytes (new_entry name inum_)) (16 * Z.of_nat k) 16 s ip s' ip' /\
     dirents s' ip' = place k (new_entry name inum_) (dirents s ip) /\ dir_ok s' ip') \/
  (few_free (4 * blocks_fuel 16) s /\ dirlink i name inum_ s = Halt (Panic "balloc: out of blocks")).
Proof.
  intros Hf Ho Hi Hd Hk Hdi Hb Hmax Hnone k. pose proof (dr_size _ _ Hd) as Hsz. pose proof (dr_max _ _ Hd) as Hmx.
  assert (Hkl : (k <= Z.to_nat (isize ip / 16))%nat) by (rewrite <- (length_dirents s ip); apply free_place_le).
  assert (Ek : match find_idx (fun e => de_inum e =? 0) (drop 0 (dirents s ip)) with
    | Some j => 16 * Z.of_nat (0 + j) | None => isize ip end = 16 * Z.of_nat k).
  { unfold k, free_place. rewrite drop_0. destruct (find_idx (fun e => de_inum e =? 0) (dirents s ip)); [reflexivity|].
    rewrite length_dirents. Z.div_mod_to_equations. lia. }
  assert (E0 : dirlink i name inum_ s = (r ← writei i (dirent_bytes (new_entry name inum_)) (16 * Z.of_nat k) 16;
      if negb (r =? 16) then panic "dirlink" else mret 0) s).
  { unfold dirlink. pose proof (dirlookup_run i s ip Hf Ho Hi Hd name) as El. rewrite Hnone in El.
    rewrite (bind_Done _ _ _ _ _ El), (bind_Done _ _ _ _ _ (inode_at_some _ _ _ Hi)). change DIRENT_SIZE with 16.
    pose proof (dirlink_loop_run i s ip Hf Ho Hi Hd (S (S (Z.to_nat (isize ip / 16)))) 0%nat
      ltac:(lia) ltac:(lia) ltac:(lia)) as Es. rewrite Ek in Es. rewrite (bind_Done _ _ _ _ _ Es). reflexivity. }
  rewrite E0. destruct (new_entry_bytes name inum_) as [Hel Heb].
  destruct (writei_run i (dirent_bytes (new_entry name inum_)) (16 * Z.of_nat k) 16 s ip) as [ (s' & ip' & E & H) | [Hfew E] ];
    try assumption; try lia.
  - rewrite (dr_type _ _ Hd). discriminate.
  - apply Heb. exact Hb.
  - Z.div_mod_to_equations. lia.
  - Z.div_mod_to_equations. lia.
  - left. exists s', ip'. rewrite (bind_Done _ _ _ _ _ E). split_and!; [reflexivity|exact H|..];
      eapply (written_dirents i (new_entry name inum_) k); try eassumption; apply new_entry_ok.
  - right. split; [exact Hfew|]. apply bind_Halt. exact E.
Qed.

(** ** The inode cache *)

Definition holds_inode (dev n : Z) (ip : inode) : Prop := idev ip = dev /\ inum ip = n /\ iref ip > 0.

(** [iget] finds the inode in the cache or takes an entry without references;
    no other entry changes. *)
Lemma iget_run (dev n : Z) (s : kernel) (j0 : nat) (x0 : inode) :
  icache_lock ∉ k_held s -> k_inodes s !! j0 = Some x0 -> iref x0 = 0 ->
  (forall j x, k_inodes s !! j = Some x -> 0 <= iref x < 2 ^ 31 - 1) ->
  exists j x t, iget dev n s = Done j t /\ k_inodes t !! j = Some x /\ holds_inode dev n x /\
    (forall j', j' <> j -> k_inodes t !! j' = k_inodes s !! j') /\
    t = s <| k_inodes := k_inodes t |>.
Proof.
  intros Hl Hj0 Hx0 Href. unfold iget. rewrite (bind_Done _ _ _ _ _ (acquire_free _ _ Hl)).
  rewrite (bind_Done _ _ _ _ _ (get_run _)). cbn [k_inodes upd]. simpl.
  assert (Hrel : forall f j, (upd_inode j f;; release icache_lock;; mret j)
      (s <| k_held := icache_lock :: k_held s |>) = Done j (s <| k_inodes ::= alter f j |>)).
  { intros f j. unfold upd_inode. rewrite (bind_Done _ _ _ _ _ (modify_run _ _)).
    erewrite bind_Done by (eapply release_head; [reflexivity|exact Hl]). reflexivity. }
  unfold iget_slot. destruct (find_idx (fun ip => _ && _ && _) (k_inodes s)) as [j|] eqn:E1.
  - apply find_idx_Some in E1 as [(x & Hx & Hm) _]. apply andb_true_iff in Hm as [Hm Hn]. apply andb_true_iff in Hm as [Hr Hd].
    exists j, (x <| iref := s32 (iref x + 1) |>). eexists. split; [apply Hrel|]. cbn. split_and!.
    + rewrite list_lookup_alter_eq, Hx. reflexivity.
    + unfold holds_inode. cbn. pose proof (Href j x Hx). rewrite s32_small by lia. lia.
    + intros j' Hj'. apply list_lookup_alter_ne. congruence.
    + reflexivity.
  - destruct (find_idx (fun ip => iref ip =? 0) (k_inodes s)) as [j|] eqn:E2.
    2:{ rewrite find_idx_None in E2. specialize (E2 j0 x0 Hj0). cbv beta in E2. lia. }
    apply find_idx_Some in E2 as [(x & Hx & Hm) _].
    eexists j, _. eexists. split; [apply Hrel|]. cbn. split_and!.
    + rewrite list_lookup_alter_eq, Hx. reflexivity.
    + unfold holds_inode. cbn. lia.
    + intros j' Hj'. apply list_lookup_alter_ne. congruence.
    + reflexivity.
Qed.

End Dirs.
