(* ===== verification/Path.v ===== *)
(** * Path names: skipelem

    [path_elems] is the reference: the elements between the slashes of a path up
    to its end.  [skipelem] takes them off one by one. *)

From S2P Require Import Prelude Params Bytes CString Kernel Print Sleep Ide Bio Log Fs.

Definition flush (cur : list Z) : list (list Z) := match cur with [] => [] | _ => [cur] end.

(** The elements of a path when [cur] has been read of the current one. *)
Fixpoint elems_from (cur path : list Z) : list (list Z) :=
  match path with
  | [] => flush cur
  | c :: path' =>
      if c =? 0 then flush cur
      else if c =? slash then flush cur ++ elems_from [] path'
      else elems_from (cur ++ [c]) path'
  end.

Definition path_elems (path : list Z) : list (list Z) := elems_from [] path.

Lemma elems_skip (path : list Z) : path_elems (skip_slashes path) = path_elems path.
Proof.
  induction path as [|c path IH]; [reflexivity|]. cbn [skip_slashes]. destruct (Z.eqb_spec c slash) as [->|]; [|reflexivity].
  rewrite IH. reflexivity.
Qed.

Lemma span_elem_spec (path e r : list Z) :
  span_elem path = (e, r) ->
  Forall (fun c => c <> 0 /\ c <> slash) e /\ path = e ++ r /\
  (forall cur, elems_from cur path = flush (cur ++ e) ++ path_elems r).
Proof.
  revert e r. induction path as [|c path IH]; intros e r; cbn [span_elem].
  - intros [= <- <-]. split_and!; [constructor|reflexivity|]. intros cur. rewrite !app_nil_r. reflexivity.
  - destruct (Z.eqb_spec c slash) as [->|Hs]; [|destruct (Z.eqb_spec c 0) as [->|Hz] ]; cbn [orb].
    + intros [= <- <-]. split_and!; [constructor|reflexivity|]. intros cur. rewrite app_nil_r. reflexivity.
    + intros [= <- <-]. split_and!; [constructor|reflexivity|]. intros cur. rewrite !app_nil_r. reflexivity.
    + destruct (span_elem path) as [e' r'] eqn:E. intros [= <- <-]. destruct (IH _ _ eq_refl) as (H1 & -> & H3).
      split_and!; [constructor; auto|reflexivity|]. intros cur. cbn [elems_from].
      rewrite (proj2 (Z.eqb_neq c 0)), (proj2 (Z.eqb_neq c slash)) by assumption.
      rewrite H3, <- app_assoc. reflexivity.
Qed.

Lemma skip_slashes_head (path : list Z) : byte_at (skip_slashes path) 0 <> slash.
Proof.
  induction path as [|c path IH]; [discriminate|]. cbn [skip_slashes]. destruct (Z.eqb_spec c slash); [exact IH|assumption].
Qed.

Lemma skip_slashes_length (path : list Z) : (length (skip_slashes path) <= length path)%nat.
Proof. induction path as [|c path IH]; [reflexivity|]. cbn [skip_slashes]. destruct (_ =? _); simpl; lia. Qed.

Lemma cstr_no_zero (e l : list Z) : Forall (fun c => c <> 0 /\ c <> slash) e -> cstr (e ++ 0 :: l) = e /\ cstr e = e.
Proof.
  induction 1 as [|c e [Hc _] _ IH]; [split; reflexivity|]. cbn [cstr app].
  rewrite (proj2 (Z.eqb_neq c 0)) by exact Hc. destruct IH as [-> ->]. split; reflexivity.
Qed.

(** The name buffer after [skipelem]. *)
Lemma name_of_elem (name e : list Z) :
  length name = Z.to_nat DIRSIZ -> Forall (fun c => c <> 0 /\ c <> slash) e ->
  let name' := if Z.of_nat (length e) >=? DIRSIZ then splice name 0 (take (Z.to_nat DIRSIZ) e)
               else splice name 0 (e ++ [0]) in
  length name' = Z.to_nat DIRSIZ /\ take (Z.to_nat DIRSIZ) (cstr name') = take (Z.to_nat DIRSIZ) e.
Proof.
  intros Hn He. cbv zeta. rewrite Z.geb_leb. change DIRSIZ with 14 in *. destruct (Z.leb_spec 14 (Z.of_nat (length e))) as [Hl|Hl].
  - assert (Hs : splice name 0 (take (Z.to_nat 14) e) = take (Z.to_nat 14) e).
    { unfold splice. rewrite drop_ge by (rewrite Hn, length_take; lia). rewrite app_nil_r. reflexivity. }
    rewrite Hs. split; [rewrite length_take; lia|].
    rewrite (proj2 (cstr_no_zero _ [] (Forall_take _ _ _ He))), take_take, Nat.min_id. reflexivity.
  - split; [rewrite length_splice; [exact Hn|lia|rewrite length_app, Hn; simpl length; lia]|].
    unfold splice. change (take (Z.to_nat 0) name) with (@nil Z). rewrite app_nil_l, <- app_assoc. cbn [app].
    rewrite (proj1 (cstr_no_zero e _ He)). reflexivity.
Qed.

(** [skipelem] enumerates the elements of a path: it fails exactly when
    none is left; otherwise it stores the next element, cut to [DIRSIZ] bytes,
    in the name buffer and returns a shorter path with the remaining elements,
    which does not start with a slash. *)
Theorem skipelem_enumerates_elements (path name : list Z) (Hn : length name = Z.to_nat DIRSIZ) :
  match skipelem path name with
  | None => path_elems path = []
  | Some (rest, name') =>
      exists e, path_elems path = e :: path_elems rest /\ e <> [] /\
        length name' = Z.to_nat DIRSIZ /\ take (Z.to_nat DIRSIZ) (cstr name') = take (Z.to_nat DIRSIZ) e /\
        (length rest < length path)%nat /\ byte_at rest 0 <> slash
  end.
Proof.
  unfold skipelem. rewrite <- (elems_skip path). pose proof (skip_slashes_length path) as Hlen.
  pose proof (skip_slashes_head path) as Hh. set (p := skip_slashes path) in *.
  destruct (Z.eqb_spec (byte_at p 0) 0) as [E|E].
  { destruct p as [|c p']; [reflexivity|]. unfold byte_at in E. simpl in E. subst c. reflexivity. }
  destruct (span_elem p) as [e r] eqn:Esp. destruct (span_elem_spec _ _ _ Esp) as (He & Ep & Hel).
  assert (Hne : e <> []).
  { intros ->. destruct p as [|c p']; [unfold byte_at in E; simpl in E; congruence|]. cbn [span_elem] in Esp.
    unfold byte_at in E, Hh. simpl in E, Hh. rewrite (proj2 (Z.eqb_neq c slash)), (proj2 (Z.eqb_neq c 0)) in Esp by assumption.
    cbn [orb] in Esp. destruct (span_elem p'). discriminate. }
  destruct (name_of_elem name e Hn He) as [Hl Ht]. exists e. split_and!; [|exact Hne|exact Hl|exact Ht| |apply skip_slashes_head].
  - unfold path_elems at 1. rewrite Hel, elems_skip. destruct e; [congruence|reflexivity].
  - pose proof (skip_slashes_length r). assert (length p = length e + length r)%nat by (rewrite Ep, length_app; reflexivity).
    destruct e; [congruence|simpl in *; lia].
Qed.

Lemma skipelem_enumerates_elements_witness :
  exists rest name', skipelem [47; 47; 97; 47; 98; 98; 0] (replicate 14 0) = Some (rest, name') /\
    path_elems [47; 47; 97; 47; 98; 98; 0] = [[97]; [98; 98]] /\ path_elems rest = [[98; 98]].
Proof.
  pose proof (skipelem_enumerates_elements [47; 47; 97; 47; 98; 98; 0] (replicate 14 0) eq_refl) as H.
  destruct (skipelem _ _) as [ [rest name'] |]; [|discriminate H].
  destruct H as (e & H & _). exists rest, name'. split_and!; [reflexivity|reflexivity|].
  change (path_elems [47; 47; 97; 47; 98; 98; 0]) with [[97]; [98; 98]] in H. injection H as _ H. symmetry. exact H.
Defined.
