(* ===== verification/FsSpec.v ===== *)
(** * Properties of the file system

    The block allocator, the block trees of inodes, the contents of files and
    directories, on the plain disk of [FsDisk], with a small file system on
    which they are evaluated. *)

From S2P Require Import Prelude Params Bytes CString Kernel Print Sleep Ide Bio Log Fs FsDisk Bmap Dinode Itrunc FileData Dir.

(** ** An example file system

    Two hundred blocks: the superblock, two inode blocks from 12 on, the bitmap
    in block 15, and data from block 16 on.  Inode 2 is a file with a direct
    block 16, an indirect table in block 17 and its first block 18; inode 3 is
    a directory with one entry in block 19. *)

Definition ex_super : list Z :=
  concat (map le32 [200; 184; 16; 10; 2; 12; 15]) ++ replicate 484 0.
Definition ex_bitmap : list Z := [255; 255; 15] ++ replicate 509 0.
Definition ex_indirect : list Z := le32 18 ++ replicate 508 0.
Definition ex_dirblock : list Z := dirent_bytes (mk_dirent 2 (97 :: replicate 13 0)) ++ replicate 496 0.

Definition ex_file : inode :=
  mk_inode 1 2 1 sleeplock0 1 T_FILE 0 0 1 600 (<[10%nat := 17]> (<[0%nat := 16]> (replicate NADDRS 0))).
Definition ex_dir1 : inode :=
  mk_inode 1 3 1 sleeplock0 1 T_DIR 0 0 1 32 (<[0%nat := 19]> (replicate NADDRS 0)).

Definition ex_disk : gmap (Z * Z) (list Z) :=
  <[(1, 1) := ex_super]> (<[(1, 15) := ex_bitmap]> (<[(1, 17) := ex_indirect]> (<[(1, 19) := ex_dirblock]> ∅))).

Definition ex_fs : kernel :=
  kernel0 <| k_disk := ex_disk |> <| k_sb := mk_superblock 200 184 16 10 2 12 15 |>
          <| k_inodes := [ex_file; ex_dir1] ++ replicate 48 inode0 |>.

Lemma ex_Blk (b : Z) :
  Blk ex_fs b = if decide (b = 1) then ex_super else if decide (b = 15) then ex_bitmap
                else if decide (b = 17) then ex_indirect else if decide (b = 19) then ex_dirblock else zero_block.
Proof.
  unfold Blk, disk_block, ex_fs. cbn [k_disk upd]. simpl. unfold ex_disk.
  repeat (case_decide; [subst b; rewrite lookup_insert_eq; reflexivity|]; rewrite lookup_insert_ne by congruence).
  reflexivity.
Qed.

Lemma ex_fs_ok : fs_ok ex_fs.
Proof.
  split.
  - intros b. rewrite ex_Blk. repeat case_decide; (split; [reflexivity|]);
      apply (bool_decide_unpack _); vm_compute; exact I.
  - reflexivity.
  - discriminate.
  - reflexivity.
  - reflexivity.
  - discriminate.
  - intros b Hb. assert (H : Forall (fun b => used ex_fs b = true) (map Z.of_nat (seq 0 16))).
    { apply (bool_decide_unpack _). vm_compute. exact I. }
    rewrite Forall_forall in H. apply H. apply list_elem_of_fmap. exists (Z.to_nat b).
    assert (0 <= b < 16) by exact Hb. split; [lia|]. apply elem_of_seq. lia.
Qed.

Lemma follow_zero (s : kernel) (l : list Z) : foldl (follow s) 0 l = 0.
Proof. exact (sub_zero s l). Qed.

Lemma ex_entry (j : Z) : 0 <= j < 128 -> get32 ex_indirect (4 * j) = if decide (j = 0) then 18 else 0.
Proof.
  intros Hj. assert (H : Forall (fun j => get32 ex_indirect (4 * j) = if decide (j = 0) then 18 else 0) (map Z.of_nat (seq 0 128))).
  { apply (bool_decide_unpack _). vm_compute. exact I. }
  rewrite Forall_forall in H. apply H. apply list_elem_of_fmap. exists (Z.to_nat j). split; [lia|]. apply elem_of_seq. lia.
Qed.

(** The blocks of an inode whose roots are all 0 but for a direct block and,
    in the file, the table. *)
Lemma ex_file_at (p : pos) :
  valid_pos p ->
  blk_at ex_fs ex_file p = if decide (p = (0%nat, [])) then 16 else if decide (p = (10%nat, [])) then 17
                           else if decide (p = (10%nat, [0])) then 18 else 0.
Proof.
  destruct p as [r l]. intros (Hr & Hl & Hj). cbn [fst snd] in *. unfold levels in Hl.
  destruct l as [|j l].
  - do 13 (destruct r as [|r]; [reflexivity|]). lia.
  - rewrite !(decide_False (P := (_, j :: l) = (_, []))) by congruence.
    destruct (decide (r = 10%nat)) as [->|Hne].
    + destruct l; [|simpl in Hl; lia]. apply Forall_cons in Hj as [Hj _].
      change (follow ex_fs 17 j = if decide ((10%nat, [j]) = (10%nat, [0])) then 18 else 0).
      unfold follow. cbn [Z.eqb]. rewrite ex_Blk. cbn [decide]. change (get32 ex_indirect (4 * j) = if decide ((10%nat, [j]) = (10%nat, [0])) then 18 else 0).
      rewrite ex_entry by exact Hj. repeat case_decide; congruence.
    + rewrite decide_False by congruence. unfold blk_at. cbn [fst snd].
      assert (root_of ex_file r = 0) as ->; [|apply follow_zero].
      do 10 (destruct r as [|r]; [simpl in Hl; lia|]). destruct r as [|r]; [congruence|].
      do 2 (destruct r as [|r]; [reflexivity|]). lia.
Qed.

Lemma ex_dir1_at (p : pos) :
  valid_pos p -> blk_at ex_fs ex_dir1 p = if decide (p = (0%nat, [])) then 19 else 0.
Proof.
  destruct p as [r l]. intros (Hr & Hl & _). cbn [fst snd] in *. unfold levels in Hl. destruct l as [|j l].
  - do 13 (destruct r as [|r]; [reflexivity|]). lia.
  - rewrite decide_False by congruence. unfold blk_at. cbn [fst snd].
    assert (root_of ex_dir1 r = 0) as ->; [|apply follow_zero].
    do 10 (destruct r as [|r]; [simpl in Hl; lia|]). do 3 (destruct r as [|r]; [reflexivity|]). lia.
Qed.

Lemma ex_file_ok : inode_ok ex_fs ex_file.
Proof.
  split; [reflexivity|reflexivity|..].
  - intros p Hp. rewrite ex_file_at by exact Hp.
    repeat case_decide; intros Hn; try congruence; (split; [|reflexivity]); 
      change (data_start (k_sb ex_fs)) with 16; change (sb_size (k_sb ex_fs)) with 200; lia.
  - intros p q Hp Hq. rewrite !ex_file_at by assumption. repeat case_decide; congruence.
Qed.

Lemma ex_dir1_ok : inode_ok ex_fs ex_dir1.
Proof.
  split; [reflexivity|reflexivity|..].
  - intros p Hp. rewrite ex_dir1_at by exact Hp. case_decide; intros Hn; [|congruence]. split; [|reflexivity].
    change (data_start (k_sb ex_fs)) with 16; change (sb_size (k_sb ex_fs)) with 200; lia.
  - intros p q Hp Hq. rewrite !ex_dir1_at by assumption. repeat case_decide; congruence.
Qed.

Lemma ex_dir1_dir : dir_ok ex_fs ex_dir1.
Proof.
  split; [reflexivity|reflexivity|split; discriminate|].
  intros k Hk. change (isize ex_dir1) with 32 in Hk. replace (k / BSIZE) with 0; [discriminate|].
  change BSIZE with 512. Z.div_mod_to_equations. lia.
Qed.

Lemma ex_dinodes : dinode_ok (dinode_of ex_file) /\ dinode_ok (dinode_of ex_dir1).
Proof.
  split; split; cbn; unfold is_short, is_uint, T_FILE, T_DIR; try reflexivity; rewrite ?Forall_cons, ?Forall_nil; cbv beta; lia.
Qed.

(** ** Properties *)

Section Claims.
Context {F : Fuel} {DV : Devsw}.
#[local] Existing Instance raw_disk.

(** C25. The block allocator refines a set of free blocks.  [balloc] takes the
    least free block of the data area, fills it with zeros and changes no other
    data block, and [bfree] of that block gives the old set back; when no block
    is free the kernel panics. *)
Theorem block_allocator_refines_set (s : kernel) (Hf : fs_ok s) :
  (exists b t u, balloc 1 s = Done b t /\ least_free s 0 b /\ data_start (k_sb s) <= b /\ fs_ok t /\
     (forall c, 0 <= c < sb_size (k_sb s) -> used t c = if decide (c = b) then true else used s c) /\
     (forall c, data_start (k_sb s) <= c -> Blk t c = if decide (c = b) then zero_block else Blk s c) /\
     bfree 1 b t = Done tt u /\ fs_ok u /\
     (forall c, 0 <= c < sb_size (k_sb s) -> used u c = used s c)) \/
  ((forall b, 0 <= b < sb_size (k_sb s) -> used s b = true) /\
   balloc 1 s = Halt (Panic "balloc: out of blocks")).
Proof.
  destruct (balloc_run s Hf) as [ (b & Hl & Hd & E) | H ]; [left|right; exact H].
  pose proof Hl as [Hb [Hu _] ]. assert (Hb' : data_start (k_sb s) <= b < sb_size (k_sb s)) by lia.
  pose proof (alloc_fs_ok s b Hf Hb') as Hf'. pose proof (alloc_used s b Hf Hb') as Hus.
  exists b, (alloc_block b s), (set_used b false (alloc_block b s)).
  split_and!; [exact E|exact Hl|exact Hd|exact Hf'|exact Hus|..].
  - intros c Hc. apply alloc_blk; assumption.
  - rewrite bfree_run by assumption. rewrite Hus, decide_True by (reflexivity || lia). reflexivity.
  - apply fs_ok_set_used; assumption.
  - intros c Hc. rewrite used_set_used by exact Hf'. destruct (decide (c = b)) as [->|]; [congruence|].
    rewrite Hus, decide_False by assumption. reflexivity.
Qed.

(** C26. [bmap] of any block of the largest possible file, through up to three
    levels of tables: it returns the block's number on disk, adding it and the
    tables on the way if they are missing, and keeps the inode well formed (no
    block used twice), the contents of the whole file, every block the inode
    already had, and every block in use that is not one of its tables.  It
    stops the kernel only when fewer than four blocks are free, and returns a
    block that is there without changing anything. *)
Theorem bmap_maps_file_block (i : nat) (bn : Z) (s : kernel) (ip : inode)
    (Hf : fs_ok s) (Ho : inode_ok s ip) (Hi : k_inodes s !! i = Some ip) (Hbn : 0 <= bn < MAXFILE) :
  (exists a s' ip', bmap i bn s = Done a s' /\ fs_ok s' /\ inode_ok s' ip' /\ k_inodes s' !! i = Some ip' /\
     blk_at s' ip' (pos_of bn) = a /\ a <> 0 /\
     (forall b, 0 <= b < MAXFILE -> file_block s' ip' b = file_block s ip b) /\
     (forall p, valid_pos p -> blk_at s ip p <> 0 -> blk_at s' ip' p = blk_at s ip p) /\
     (forall c, data_start (k_sb s) <= c < sb_size (k_sb s) -> used s c = true ->
        (forall q, valid_pos q -> ~ leaf q -> blk_at s ip q <> c) -> Blk s' c = Blk s c) /\
     (blk_at s ip (pos_of bn) <> 0 -> s' = s)) \/
  (few_free 3 s /\ blk_at s ip (pos_of bn) = 0 /\ bmap i bn s = Halt (Panic "balloc: out of blocks")).
Proof.
  destruct (bmap_run i bn s ip Hf Ho Hi Hbn) as [ (a & s' & ip' & E & H) | [Hfew E] ].
  - left. pose proof (sp_ext _ _ _ _ _ _ _ _ _ H) as He. exists a, s', ip'.
    split_and!; [exact E|apply H|apply H|apply H|apply H|apply H|..].
    + intros b Hb. eapply slot_file_block; eassumption.
    + exact (ex_old _ _ _ _ _ He).
    + exact (ex_blk _ _ _ _ _ He).
    + intros Hn. rewrite (bmap_present i bn s ip) in E by assumption. congruence.
  - right. split_and!; [exact Hfew| |exact E].
    destruct (decide (blk_at s ip (pos_of bn) = 0)) as [|Hn]; [assumption|].
    rewrite (bmap_present i bn s ip) in E by assumption. discriminate.
Qed.

(** C27. [itrunc] returns, for a well-formed inode of any size: every block of
    the inode, data and tables of all three levels, is marked free, every other
    block keeps its mark, no data block is written, and the inode, empty and
    without blocks, is stored in its place on the disk. *)
Theorem itrunc_frees_inode_blocks (i : nat) (s : kernel) (ip : inode)
    (Hf : fs_ok s) (Ho : inode_ok s ip) (Hi : k_inodes s !! i = Some ip)
    (Hn : 0 <= inum ip < sb_ninodes (k_sb s)) (Hd : dinode_ok (dinode_of ip)) :
  exists s', itrunc i s = Done tt s' /\ fs_ok s' /\
    k_inodes s' = <[i := emptied ip]> (k_inodes s) /\
    (forall c, 0 <= c < sb_size (k_sb s) ->
       used s' c = true <-> used s c = true /\ ~ (c <> 0 /\ exists p, valid_pos p /\ blk_at s ip p = c)) /\
    (forall c, data_start (k_sb s) <= c -> Blk s' c = Blk s c) /\
    disk_inode s' (inum ip) = dinode_of (emptied ip).
Proof.
  destruct (itrunc_run i s ip Hf Ho Hi Hn Hd) as (s1 & s' & H1 & E & Es & Hst).
  pose proof (tr_only _ _ _ _ _ H1) as Eo. assert (Hsb : k_sb s1 = k_sb s) by (rewrite Eo; reflexivity).
  exists s'. split_and!; [exact E|apply Hst|rewrite Es; reflexivity|..].
  - intros c Hc. rewrite (st_used _ _ _ Hst) by (change (0 <= c < sb_size (k_sb s1)); rewrite Hsb; exact Hc).
    change (used (s1 <| k_inodes := <[i := emptied ip]> (k_inodes s) |>) c) with (used s1 c).
    rewrite (tr_used _ _ _ _ _ H1) by exact Hc. unfold in_roots.
    assert (Hex : (exists p, valid_pos p /\ (p.1 < 13)%nat /\ blk_at s ip p = c) <->
                  (exists p, valid_pos p /\ blk_at s ip p = c))
      by (split; [intros (p & Hp & _ & Ep); eauto|intros (p & Hp & Ep); exists p; split_and!; auto; apply Hp]).
    rewrite Hex. reflexivity.
  - intros c Hc. rewrite (st_blk _ _ _ Hst) by (change (data_start (k_sb s1) <= c); rewrite Hsb; exact Hc).
    apply (tr_blk _ _ _ _ _ H1). exact Hc.
  - exact (st_same _ _ _ Hst).
Qed.

(** C28. [readi] of a file returns the bytes of the range that lie below its
    size, a hole as zeros.  A file without holes there is read without any change
    of the state; a hole gets blocks, which leaves the contents as they were. *)
Theorem readi_returns_contents (i : nat) (off n : Z) (s : kernel) (ip : inode)
    (Hf : fs_ok s) (Ho : inode_ok s ip) (Hi : k_inodes s !! i = Some ip) (Ht : itype ip <> T_DEV)
    (Hoff : 0 <= off <= isize ip) (Hn : 0 <= n) (Hov : off + n < 2 ^ 32) (Hsz : isize ip <= MAXFILE * BSIZE) :
  let m := Z.min n (isize ip - off) in
  (exists s' ip', readi i off n s = Done (m, content s ip off m) s' /\
     fs_ok s' /\ inode_ok s' ip' /\ k_inodes s' !! i = Some ip' /\
     (forall b, 0 <= b < MAXFILE -> file_block s' ip' b = file_block s ip b) /\
     ((forall k, off <= k < off + m -> blk_at s ip (pos_of (k / BSIZE)) <> 0) -> s' = s)) \/
  (few_free (4 * blocks_fuel m) s /\ readi i off n s = Halt (Panic "balloc: out of blocks")).
Proof.
  intros m. destruct (readi_run i off n s ip Hf Ho Hi Ht Hoff Hn Hov Hsz) as [ (r & s' & ip' & E & H & Er & Hs) | H ];
    [left|right; exact H]. subst r. exists s', ip'. split_and!; [exact E|apply H|apply H|apply H|exact Hs|].
  intros Hp. rewrite (readi_present i off n s ip) in E by assumption. congruence.
Qed.

(** C29. [writei] stores the bytes: it returns their number, afterwards [readi]
    of the same range gives exactly these bytes and changes nothing, every other
    byte of the file and every used block of other files is as before, the size
    grows to the end of the write, and a size that grew is stored on the disk
    with the block numbers.  Only a disk with too few free blocks stops it. *)
Theorem writei_then_readi (i : nat) (src : list Z) (off : Z) (s : kernel) (ip : inode)
    (Hf : fs_ok s) (Ho : inode_ok s ip) (Hi : k_inodes s !! i = Some ip) (Ht : itype ip <> T_DEV)
    (Hk : 0 <= inum ip < sb_ninodes (k_sb s)) (Hd : dinode_ok (dinode_of ip)) (Hs : Forall is_byte src)
    (Hoff : 0 <= off <= isize ip) (Hsz : isize ip <= MAXFILE * BSIZE)
    (Hmax : off + Z.of_nat (length src) <= MAXFILE * BSIZE) :
  let n := Z.of_nat (length src) in
  (exists s' ip', writei i src off n s = Done n s' /\ readi i off n s' = Done (n, src) s' /\
     (forall k, 0 <= k < MAXFILE * BSIZE -> ~ off <= k < off + n -> file_byte s' ip' k = file_byte s ip k) /\
     (forall c, data_start (k_sb s) <= c < sb_size (k_sb s) -> used s c = true ->
        (forall q, valid_pos q -> blk_at s ip q <> c) -> Blk s' c = Blk s c) /\
     (0 < n -> isize ip' = Z.max (isize ip) (off + n)) /\
     (0 < n -> isize ip < off + n -> disk_inode s' (inum ip) = dinode_of ip')) \/
  (few_free (4 * blocks_fuel n) s /\ writei i src off n s = Halt (Panic "balloc: out of blocks")).
Proof.
  intros n. destruct (writei_run i src off n s ip) as [ (s' & ip' & E & H) | H ]; try assumption; [lia| |right; exact H].
  left. exists s', ip'. pose proof (wr_ip _ _ _ _ _ _ _ _ H) as Eip. destruct (wr_bytes _ _ _ _ _ _ _ _ H) as [W P].
  assert (Hsz' : isize ip' = if 0 <? n then Z.max (isize ip) (off + n) else isize ip) by (rewrite Eip; reflexivity).
  assert (Em : read_len ip' off n = n) by (unfold read_len; rewrite Hsz'; destruct (Z.ltb_spec 0 n); lia).
  split_and!; [exact E|..].
  - rewrite (readi_present i off n s' ip').
    + rewrite Em, (written_content _ _ _ _ _ _ _ _ H) by (reflexivity || lia). reflexivity.
    + apply H.
    + apply H.
    + apply H.
    + rewrite Eip. exact Ht.
    + rewrite Hsz'. destruct (Z.ltb_spec 0 n); lia.
    + lia.
    + change MAXFILE with 2113674 in *. change BSIZE with 512 in *. lia.
    + rewrite Hsz'. destruct (Z.ltb_spec 0 n); lia.
    + rewrite Em. exact P.
  - intros k Hkr Hout. rewrite W, decide_False by assumption. reflexivity.
  - exact (wr_blk _ _ _ _ _ _ _ _ H).
  - intros Hn0. rewrite Hsz', (proj2 (Z.ltb_lt 0 n)) by exact Hn0. reflexivity.
  - exact (wr_grown _ _ _ _ _ _ _ _ H).
Qed.

(** C30. A name linked into a directory is found there: when [dirlookup] does
    not find the name, [dirlink] puts the entry in the first free place (or at
    the end), keeps every other entry, and [dirlookup] of the name then returns
    that place and an entry of the inode cache for the linked inode. *)
Theorem dirlink_then_dirlookup (i : nat) (name : list Z) (n : Z) (s : kernel) (ip : inode) (j0 : nat) (x0 : inode)
    (Hf : fs_ok s) (Ho : inode_ok s ip) (Hi : k_inodes s !! i = Some ip) (Hdir : dir_ok s ip)
    (Hk : 0 <= inum ip < sb_ninodes (k_sb s)) (Hd : dinode_ok (dinode_of ip)) (Hb : Forall is_byte name)
    (Hmax : isize ip + 16 <= MAXFILE * BSIZE) (Hn : 0 < n < 65536)
    (Hl : icache_lock ∉ k_held s) (Hj : j0 <> i) (Hj0 : k_inodes s !! j0 = Some x0) (Hx0 : iref x0 = 0)
    (Href : forall j x, k_inodes s !! j = Some x -> 0 <= iref x < 2 ^ 31 - 1)
    (Hnot : find_idx (entry_is name) (dirents s ip) = None) :
  let k := free_place (dirents s ip) in
  (dirlookup i name s = Done None s /\
   exists s' ip' j x t, dirlink i name n s = Done 0 s' /\
     dirents s' ip' = place k (new_entry name n) (dirents s ip) /\
     dirlookup i name s' = Done (Some (j, 16 * Z.of_nat k)) t /\
     k_inodes t !! j = Some x /\ holds_inode 1 n x) \/
  (few_free (4 * blocks_fuel 16) s /\ dirlink i name n s = Halt (Panic "balloc: out of blocks")).
Proof.
  intros k. destruct (dirlink_run i name n s ip) as [ (s' & ip' & E & H & Hds & Hdir') | H ]; try assumption; [left|right; exact H].
  split; [rewrite (dirlookup_run i s ip) by assumption; rewrite Hnot; reflexivity|].
  pose proof (wr_ip _ _ _ _ _ _ _ _ H) as Eip.
  assert (Hfind : find_idx (entry_is name) (dirents s' ip') = Some k).
  { rewrite Hds. apply find_idx_place; [apply free_place_le|exact Hnot|]. apply entry_is_new; [exact Hb|].
    unfold u16. rewrite Z.mod_small by lia. lia. }
  assert (Hent : dirent_at s' ip' k = new_entry name n).
  { apply find_idx_Some in Hfind as [(e & He & _) _]. pose proof He as He'.
    rewrite dirents_lookup in He' by (rewrite <- (length_dirents s' ip'); eapply lookup_lt_Some; exact He).
    assert (Hp : place k (new_entry name n) (dirents s ip) !! k = Some (new_entry name n)).
    { pose proof (free_place_le (dirents s ip)) as H0. change (free_place (dirents s ip)) with k in H0. unfold place. case_decide.
      - apply list_lookup_insert_eq. assumption.
      - replace k with (length (dirents s ip)) by lia. rewrite lookup_app_r, Nat.sub_diag by lia. reflexivity. }
    change (dirents s' ip' = place k (new_entry name n) (dirents s ip)) in Hds.
    rewrite Hds, Hp in He. congruence. }
  destruct (iget_run 1 n s' j0 x0) as (j & x & t & Eg & Hx & Hh & _); [rewrite (wr_only _ _ _ _ _ _ _ _ H); exact Hl| |exact Hx0| |].
  { rewrite (wr_inodes _ _ _ _ _ _ _ _ H) by exact Hj. exact Hj0. }
  { intros j x Hx. destruct (decide (j = i)) as [->|Hne].
    - rewrite (wr_at _ _ _ _ _ _ _ _ H) in Hx. injection Hx as <-. rewrite Eip. exact (Href i ip Hi).
    - rewrite (wr_inodes _ _ _ _ _ _ _ _ H) in Hx by exact Hne. exact (Href j x Hx). }
  exists s', ip', j, x, t. split_and!; [exact E|exact Hds| |exact Hx|exact Hh].
  rewrite (dirlookup_run i s' ip' (wr_fs _ _ _ _ _ _ _ _ H) (wr_ok _ _ _ _ _ _ _ _ H) (wr_at _ _ _ _ _ _ _ _ H) Hdir').
  rewrite Hfind, Hent.
  replace (idev ip') with 1 by (rewrite Eip; symmetry; apply Ho). change (de_inum (new_entry name n)) with (u16 n).
  unfold u16. rewrite Z.mod_small by lia. rewrite (bind_Done _ _ _ _ _ Eg). reflexivity.
Qed.

End Claims.

(** ** The properties on the example *)

Definition ex_fuel : Fuel := {| fuel_pred := 0 |}.
Definition ex_devsw : Devsw := {| dev_read := fun _ => None; dev_write := fun _ => None |}.

Lemma block_allocator_refines_set_witness :
  fs_ok ex_fs /\ exists t, balloc (BD := raw_disk) 1 ex_fs = Done 20 t /\ used t 20 = true.
Proof.
  split; [exact ex_fs_ok|].
  destruct (block_allocator_refines_set ex_fs ex_fs_ok) as [ (b & t & u & E & (Hb & Hu & Hl) & _ & _ & Hus & _) | [H _] ].
  - assert (b = 20) as ->.
    { destruct (Z.lt_trichotomy b 20) as [H|[H|H] ]; [|exact H|].
      - assert (Hall : Forall (fun c => used ex_fs c = true) (map Z.of_nat (seq 0 20)))
          by (apply (bool_decide_unpack _); vm_compute; exact I).
        rewrite Forall_forall in Hall. rewrite (Hall b) in Hu; [discriminate|].
        apply list_elem_of_fmap. exists (Z.to_nat b). split; [lia|]. apply elem_of_seq. lia.
      - specialize (Hl 20 ltac:(lia)). discriminate Hl. }
    exists t. split; [exact E|]. rewrite Hus by exact Hb. reflexivity.
  - specialize (H 20 ltac:(split; [discriminate|reflexivity])). discriminate H.
Defined.

Lemma bmap_maps_file_block_witness :
  0 <= 10 < MAXFILE /\ blk_at ex_fs ex_file (pos_of 10) = 18 /\
  bmap (BD := raw_disk) 0 10 ex_fs = Done 18 ex_fs.
Proof.
  split; [split; [discriminate|reflexivity]|split; [reflexivity|] ].
  destruct (bmap_maps_file_block 0 10 ex_fs ex_file ex_fs_ok ex_file_ok eq_refl ltac:(split; [discriminate|reflexivity]))
    as [ (a & s' & ip' & E & _ & _ & _ & Ha & _ & _ & Hold & _ & Hs) | (_ & H & _) ]; [|discriminate H].
  rewrite E, Hs by discriminate. f_equal. rewrite <- Ha. apply (Hold (pos_of 10)); [|discriminate].
  apply pos_of_valid. split; [discriminate|reflexivity].
Defined.

Lemma itrunc_frees_inode_blocks_witness :
  inode_ok ex_fs ex_file /\ exists s', itrunc (BD := raw_disk) 0 ex_fs = Done tt s' /\ used ex_fs 18 = true /\ used s' 18 = false.
Proof.
  split; [exact ex_file_ok|].
  destruct (itrunc_frees_inode_blocks 0 ex_fs ex_file ex_fs_ok ex_file_ok eq_refl
    ltac:(split; [discriminate|reflexivity]) (proj1 ex_dinodes)) as (s' & E & _ & _ & Hu & _).
  exists s'. split_and!; [exact E|reflexivity|]. destruct (used s' 18) eqn:E18; [|reflexivity]. exfalso.
  apply Hu in E18; [|split; [discriminate|reflexivity]]. destruct E18 as [_ Hn]. apply Hn. split; [discriminate|].
  exists (10%nat, [0]). split; [|reflexivity]. split_and!; [cbn; lia|cbn; unfold levels; lia|].
  constructor; [split; [discriminate|reflexivity]|constructor].
Defined.

Lemma ex_size : isize ex_file <= MAXFILE * BSIZE.
Proof. discriminate. Qed.

Lemma readi_returns_contents_witness :
  exists s' ip', readi (BD := raw_disk) (DV := ex_devsw) 0 0 4 ex_fs
                 = Done (4, [0; 0; 0; 0]) s' /\ inode_ok s' ip'.
Proof.
  destruct (readi_returns_contents (DV := ex_devsw)
    0 0 4 ex_fs ex_file ex_fs_ok ex_file_ok eq_refl ltac:(discriminate)
    ltac:(split; discriminate) ltac:(discriminate) ltac:(reflexivity) ex_size) as [ (s' & ip' & E & _ & H & _) | [_ E] ].
  - exists s', ip'. split; [exact E|exact H].
  - vm_compute in E. discriminate E.
Defined.

Lemma writei_then_readi_witness :
  exists s', writei (BD := raw_disk) (DV := ex_devsw) 0 [1; 2; 3] 510 3 ex_fs = Done 3 s' /\
    readi (BD := raw_disk) (DV := ex_devsw) 0 510 3 s' = Done (3, [1; 2; 3]) s'.
Proof.
  destruct (writei_then_readi (DV := ex_devsw) 0 [1; 2; 3] 510 ex_fs ex_file ex_fs_ok ex_file_ok eq_refl
    ltac:(discriminate) ltac:(split; [discriminate|reflexivity]) (proj1 ex_dinodes)
    ltac:(rewrite !Forall_cons, Forall_nil; unfold is_byte; lia) ltac:(split; discriminate) ex_size ltac:(discriminate))
    as [ (s' & ip' & E & E' & _) | [_ E] ].
  - exists s'. split; [exact E|exact E'].
  - vm_compute in E. discriminate E.
Defined.

Lemma ex_refs (j : nat) (x : inode) : k_inodes ex_fs !! j = Some x -> 0 <= iref x < 2 ^ 31 - 1.
Proof.
  intros H. assert (Hall : Forall (fun x => 0 <= iref x < 2 ^ 31 - 1) (k_inodes ex_fs))
    by (apply (bool_decide_unpack _); vm_compute; exact I).
  exact (Forall_lookup_1 _ _ _ _ Hall H).
Qed.

Lemma dirlink_then_dirlookup_witness :
  exists s' j t, dirlink (F := ex_fuel) (BD := raw_disk) (DV := ex_devsw) 1 [98; 0] 5 ex_fs = Done 0 s' /\
    dirlookup (BD := raw_disk) (DV := ex_devsw) 1 [98; 0] s' = Done (Some (j, 16)) t.
Proof.
  destruct (dirlink_then_dirlookup (DV := ex_devsw) (F := ex_fuel) 1 [98; 0] 5 ex_fs ex_dir1 2 inode0 ex_fs_ok ex_dir1_ok eq_refl
    ex_dir1_dir ltac:(split; [discriminate|reflexivity]) (proj2 ex_dinodes)
    ltac:(rewrite !Forall_cons, Forall_nil; unfold is_byte; lia) ltac:(discriminate) ltac:(lia)
    ltac:(set_solver) ltac:(discriminate) eq_refl eq_refl ex_refs ltac:(vm_compute; reflexivity))
    as [ [_ (s' & ip' & j & x & t & E & _ & E' & _)] | [_ E] ].
  - exists s', j, t. split; [exact E|exact E'].
  - vm_compute in E. discriminate E.
Defined.
