(* ===== verification/Frame.v ===== *)
(** * What the kernel leaves alone

    Most of the kernel touches the process table only through [sleep] and
    [wakeup] and through fields that say nothing about scheduling.  An invariant
    of the table that does not depend on the rest ([FrameInv]) is therefore
    preserved by the memory, file, pipe and console code, whatever the other
    processes do while it sleeps ([SleepInv]). *)

From S2P Require Import Prelude Params Bytes CString Kernel Print Kalloc Vm Umem Sleep Args.
From S2P Require Import Ide Bio Log Fs Pipe File Console.

(** An update of fields other than [state], [pid], [parent] and [pchan]. *)
Definition benign (f : proc -> proc) : Prop :=
  forall p, state (f p) = state p /\ pid (f p) = pid p /\ parent (f p) = parent p /\ pchan (f p) = pchan p.

Class FrameInv (I : kernel -> Prop) : Prop := {
  fi_frame : forall s t, k_procs t = k_procs s -> k_initproc t = k_initproc s ->
    k_nextpid t = k_nextpid s -> k_lev t = k_lev s -> k_cur t = k_cur s -> k_max_pid t = k_max_pid s -> I s -> I t;
  fi_benign : forall s i f, benign f -> I s -> I (s <| k_procs ::= alter f i |>);
  fi_wake : forall s ch, I s -> I (s <| k_procs ::= map (wake ch) |>)
}.

(** The channels other than a waiting parent. *)
Definition fs_chan (ch : chan) : Prop := match ch with CProc _ => False | _ => True end.

Class SleepInv (G I : kernel -> Prop) : Prop :=
  si_sleep : forall ch lk, fs_chan ch -> inv G I (sleep ch lk).

Section Frame.
Context (G I : kernel -> Prop) {FI : FrameInv I}.

Lemma frame_modify (f : kernel -> kernel) :
  (forall s, k_procs (f s) = k_procs s /\ k_initproc (f s) = k_initproc s /\ k_nextpid (f s) = k_nextpid s /\
             k_lev (f s) = k_lev s /\ k_cur (f s) = k_cur s /\ k_max_pid (f s) = k_max_pid s) -> inv G I (modify f).
Proof.
  intros H. apply keeps_modify. intros s. destruct (H s) as (H1 & H2 & H3 & H4 & H5 & H6). apply fi_frame; assumption.
Qed.

Lemma frame_upd_proc (i : nat) (f : proc -> proc) : benign f -> inv G I (upd_proc i f).
Proof. intros H. apply keeps_modify. intros s. apply fi_benign. exact H. Qed.

Lemma frame_wakeup1 (ch : option chan) : inv G I (wakeup1 ch).
Proof. apply keeps_modify. intros s. apply fi_wake. Qed.

End Frame.

#[export] Hint Extern 1 (inv _ _ (modify _)) => apply frame_modify; [typeclasses eauto|intros; split_and!; reflexivity] : keeps.
#[export] Hint Extern 1 (inv _ _ (upd_proc _ _)) =>
  apply frame_upd_proc; [typeclasses eauto|intros ?; split_and!; reflexivity] : keeps.
#[export] Hint Resolve frame_wakeup1 : keeps.
#[export] Hint Extern 2 (inv _ _ (sleep _ _)) => apply si_sleep; exact Logic.I : keeps.
#[export] Hint Extern 1 (FrameInv _) => typeclasses eauto : keeps.

(** ** Console output, memory *)

Section Quiet.
Context (G I : kernel -> Prop) {FI : FrameInv I}.

Lemma frame_acquire (l : lockid) : inv G I (acquire l).
Proof. keeps_auto. Qed.
Lemma frame_release (l : lockid) : inv G I (release l).
Proof. keeps_auto. Qed.
Hint Resolve frame_acquire frame_release : keeps.

Lemma frame_wakeup (ch : chan) : inv G I (wakeup ch).
Proof. keeps_auto. Qed.
Hint Resolve frame_wakeup : keeps.

Lemma frame_cgaputc (c : Z) : inv G I (cgaputc c).
Proof. keeps_auto. Qed.
Hint Resolve frame_cgaputc : keeps.

Lemma frame_put_all (cs : list Z) : inv G I (put_all cs).
Proof. induction cs as [|c cs IH]; cbn [put_all]; keeps_auto. Qed.
Hint Resolve frame_put_all : keeps.

Lemma frame_cprintf_loop (n : nat) : forall fmt args, (length fmt <= n)%nat -> inv G I (cprintf_loop fmt args).
Proof.
  induction n as [|n IH]; intros fmt args Hn; (destruct fmt as [|c fmt]; [cbn [cprintf_loop]; keeps_auto|]);
    [simpl in Hn; lia|].
  destruct fmt as [|d fmt]; cbn [cprintf_loop]; keeps_auto; apply IH; simpl in *; lia.
Qed.

Lemma frame_cprintf (fmt : string) (args : list carg) : inv G I (cprintf fmt args).
Proof. unfold cprintf. keeps_auto. eapply frame_cprintf_loop. reflexivity. Qed.
Hint Resolve frame_cprintf : keeps.

Context {L : Linker}.

Lemma frame_kalloc : inv G I kalloc.
Proof. keeps_auto. Qed.
Lemma frame_kfree (v : Z) : inv G I (kfree v).
Proof. keeps_auto. Qed.
Hint Resolve frame_kalloc frame_kfree : keeps.

Lemma frame_walkpgdir (d va : Z) (alloc : bool) : inv G I (walkpgdir d va alloc).
Proof. keeps_auto. Qed.
Hint Resolve frame_walkpgdir : keeps.

Lemma frame_mappages_loop (n : nat) : forall d a last pa perm, inv G I (mappages_loop n d a last pa perm).
Proof. induction n as [|n IH]; intros; cbn [mappages_loop]; keeps_auto. Qed.
Hint Resolve frame_mappages_loop : keeps.

Lemma frame_deallocuvm_loop (n : nat) : forall d a oldsz, inv G I (deallocuvm_loop n d a oldsz).
Proof. induction n as [|n IH]; intros; cbn [deallocuvm_loop]; keeps_auto. Qed.
Hint Resolve frame_deallocuvm_loop : keeps.

Lemma frame_deallocuvm (d oldsz newsz : Z) : inv G I (deallocuvm d oldsz newsz).
Proof. keeps_auto. Qed.
Lemma frame_mappages (d va size pa perm : Z) : inv G I (mappages d va size pa perm).
Proof. keeps_auto. Qed.
Hint Resolve frame_deallocuvm frame_mappages : keeps.

Lemma frame_allocuvm_loop (n : nat) : forall d a oldsz newsz, inv G I (allocuvm_loop n d a oldsz newsz).
Proof. induction n as [|n IH]; intros; cbn [allocuvm_loop]; keeps_auto. Qed.
Hint Resolve frame_allocuvm_loop : keeps.

Lemma frame_allocuvm (d oldsz newsz : Z) : inv G I (allocuvm d oldsz newsz).
Proof. keeps_auto. Qed.
Lemma frame_freevm (d : Z) : inv G I (freevm d).
Proof. keeps_auto. Qed.
Hint Resolve frame_allocuvm frame_freevm : keeps.

Lemma frame_setupkvm_loop (ks : list kmap_ent) : forall d, inv G I (setupkvm_loop ks d).
Proof. induction ks as [|k ks IH]; intros; cbn [setupkvm_loop]; keeps_auto. Qed.
Hint Resolve frame_setupkvm_loop : keeps.

Lemma frame_copyuvm_loop (n : nat) : forall d e i sz, inv G I (copyuvm_loop n d e i sz).
Proof. induction n as [|n IH]; intros; cbn [copyuvm_loop]; keeps_auto. Qed.
Hint Resolve frame_copyuvm_loop : keeps.

Lemma frame_setupkvm : inv G I setupkvm.
Proof. keeps_auto. Qed.
Hint Resolve frame_setupkvm : keeps.
Lemma frame_copyuvm (d sz : Z) : inv G I (copyuvm d sz).
Proof. keeps_auto. Qed.

Lemma frame_copyout_loop (n : nat) : forall d va buf, inv G I (copyout_loop n d va buf).
Proof. induction n as [|n IH]; intros; cbn [copyout_loop]; cbv zeta; keeps_auto. Qed.
Hint Resolve frame_copyout_loop : keeps.

Lemma frame_inituvm (d : Z) (init : list Z) (sz : Z) : inv G I (inituvm d init sz).
Proof. keeps_auto. Qed.
Lemma frame_clearpteu (d va : Z) : inv G I (clearpteu d va).
Proof. keeps_auto. Qed.
Lemma frame_copyout (d va : Z) (buf : list Z) : inv G I (copyout d va buf).
Proof. keeps_auto. Qed.

Lemma frame_uload (n : nat) : forall va, inv G I (uload n va).
Proof. induction n as [|n IH]; intros; cbn [uload]; keeps_auto. Qed.
Lemma frame_ustore (d : list Z) : forall va, inv G I (ustore va d).
Proof. induction d as [|c d IH]; intros; cbn [ustore]; keeps_auto. Qed.
Hint Resolve frame_uload frame_ustore : keeps.

Lemma frame_fetchstr_loop (n : nat) : forall s acc, inv G I (fetchstr_loop n s acc).
Proof. induction n as [|n IH]; intros; cbn [fetchstr_loop]; keeps_auto. Qed.
Hint Resolve frame_fetchstr_loop : keeps.

Lemma frame_argint (n : Z) : inv G I (argint n).
Proof. keeps_auto. Qed.
Hint Resolve frame_argint : keeps.
Lemma frame_argptr (n size : Z) : inv G I (argptr n size).
Proof. keeps_auto. Qed.
Lemma frame_argstr (n : Z) : inv G I (argstr n).
Proof. keeps_auto. Qed.

Lemma frame_switchuvm (p : nat) : inv G I (switchuvm p).
Proof. keeps_auto. Qed.

(** ** The disk driver's interrupt and the buffer list *)

Lemma frame_idestart (i : nat) : inv G I (idestart i).
Proof. keeps_auto. Qed.
Hint Resolve frame_idestart : keeps.
Lemma frame_ideintr : inv G I ideintr.
Proof. keeps_auto. Qed.
Lemma frame_ide_last (n : nat) : forall i, inv G I (ide_last n i).
Proof. induction n as [|n IH]; intros; cbn [ide_last]; keeps_auto. Qed.
Lemma frame_bget_cached (n : nat) : forall i dev b, inv G I (bget_cached n i dev b).
Proof. induction n as [|n IH]; intros; cbn [bget_cached]; keeps_auto. Qed.
Lemma frame_bget_unused (n : nat) : forall i, inv G I (bget_unused n i).
Proof. induction n as [|n IH]; intros; cbn [bget_unused]; keeps_auto. Qed.

Lemma frame_upd_sl (l : sleepid) (f : sleeplock -> sleeplock) : inv G I (upd_sl l f).
Proof. keeps_auto. Qed.
Hint Resolve frame_upd_sl : keeps.
Lemma frame_releasesleep (l : sleepid) : inv G I (releasesleep l).
Proof. keeps_auto. Qed.
Lemma frame_holdingsleep (l : sleepid) : inv G I (holdingsleep l).
Proof. keeps_auto. Qed.
Hint Resolve frame_releasesleep frame_holdingsleep : keeps.
Lemma frame_brelse (i : nat) : inv G I (brelse i).
Proof. keeps_auto. Qed.
Lemma frame_log_write (i : nat) : inv G I (log_write i).
Proof. keeps_auto. Qed.
End Quiet.

#[export] Hint Resolve frame_acquire frame_release frame_wakeup frame_cgaputc frame_put_all frame_cprintf
  frame_kalloc frame_kfree frame_walkpgdir frame_mappages frame_deallocuvm frame_allocuvm frame_freevm
  frame_setupkvm frame_copyuvm frame_inituvm frame_clearpteu frame_copyout frame_uload frame_ustore
  frame_argint frame_argptr frame_argstr frame_fetchstr_loop frame_switchuvm frame_idestart frame_ideintr
  frame_ide_last frame_bget_cached frame_bget_unused frame_upd_sl frame_releasesleep frame_holdingsleep
  frame_brelse frame_log_write : keeps.

(** ** Code that sleeps *)

Section Sleepers.
Context (G I : kernel -> Prop) {FI : FrameInv I} {SI : SleepInv G I} {F : Fuel}.

Lemma frame_acquiresleep (l : sleepid) : inv G I (acquiresleep l).
Proof. keeps_auto. Qed.
Hint Resolve frame_acquiresleep : keeps.
Lemma frame_iderw (i : nat) : inv G I (iderw i).
Proof. keeps_auto. Qed.
Hint Resolve frame_iderw : keeps.
Lemma frame_bget (dev b : Z) : inv G I (bget dev b).
Proof. keeps_auto. Qed.
Hint Resolve frame_bget : keeps.
Lemma frame_bread (dev b : Z) : inv G I (bread dev b).
Proof. keeps_auto. Qed.
Lemma frame_bwrite (i : nat) : inv G I (bwrite i).
Proof. keeps_auto. Qed.
Hint Resolve frame_bread frame_bwrite : keeps.
Lemma frame_write_head : inv G I write_head.
Proof. keeps_auto. Qed.
Lemma frame_install_trans : inv G I install_trans.
Proof. keeps_auto. Qed.
Lemma frame_write_log : inv G I write_log.
Proof. keeps_auto. Qed.
Hint Resolve frame_write_head frame_install_trans frame_write_log : keeps.
Lemma frame_recover_from_log : inv G I recover_from_log.
Proof. keeps_auto. Qed.
Lemma frame_begin_op : inv G I begin_op.
Proof. keeps_auto. Qed.
Lemma frame_end_op : inv G I end_op.
Proof. keeps_auto. Qed.
End Sleepers.

#[export] Hint Extern 1 (SleepInv _ _) => typeclasses eauto : keeps.
#[export] Hint Resolve frame_acquiresleep frame_iderw frame_bread frame_bwrite frame_recover_from_log frame_begin_op
  frame_end_op : keeps.

(** ** The block layer and the device table as interfaces *)

Class BlockInv (G I : kernel -> Prop) (BD : BlockDev) : Prop := {
  bi_read : forall dev b, inv G I (bd_read dev b);
  bi_data : forall h, inv G I (bd_data h);
  bi_log : forall h d, inv G I (bd_log h d);
  bi_relse : forall h, inv G I (bd_relse h)
}.

Class DevInv (G I : kernel -> Prop) (DV : Devsw) : Prop := {
  di_read : forall m f i n, dev_read m = Some f -> inv G I (f i n);
  di_write : forall m f i d n, dev_write m = Some f -> inv G I (f i d n)
}.

#[export] Hint Resolve bi_read bi_data bi_log bi_relse : keeps.
#[export] Hint Extern 1 (BlockInv _ _ _) => typeclasses eauto : keeps.

#[export] Instance bcache_block_inv (G I : kernel -> Prop) {FI : FrameInv I} {SI : SleepInv G I} {F : Fuel} :
  BlockInv G I bcache_dev.
Proof. split; cbn; intros; keeps_auto. Qed.

Section FsFrame.
Context (G I : kernel -> Prop) {FI : FrameInv I} {SI : SleepInv G I} {F : Fuel} {BD : BlockDev} {DV : Devsw}.
Context {BI : BlockInv G I BD} {DI : DevInv G I DV}.

Lemma frame_bzero (dev b : Z) : inv G I (bzero dev b).
Proof. keeps_auto. Qed.
Hint Resolve frame_bzero : keeps.
Lemma frame_balloc_loop (n : nat) : forall dev b, inv G I (balloc_loop n dev b).
Proof. induction n as [|n IH]; intros; cbn [balloc_loop]; keeps_auto. Qed.
Hint Resolve frame_balloc_loop : keeps.
Lemma frame_balloc (dev : Z) : inv G I (balloc dev).
Proof. keeps_auto. Qed.
Lemma frame_bfree (dev b : Z) : inv G I (bfree dev b).
Proof. keeps_auto. Qed.
Hint Resolve frame_balloc frame_bfree : keeps.
Lemma frame_iget (dev n : Z) : inv G I (iget dev n).
Proof. keeps_auto. Qed.
Hint Resolve frame_iget : keeps.
Lemma frame_ialloc_loop (n : nat) : forall dev ty k, inv G I (ialloc_loop n dev ty k).
Proof. induction n as [|n IH]; intros; cbn [ialloc_loop]; keeps_auto. Qed.
Hint Resolve frame_ialloc_loop : keeps.
Lemma frame_iupdate (i : nat) : inv G I (iupdate i).
Proof. keeps_auto. Qed.
Hint Resolve frame_iupdate : keeps.
Lemma frame_ilock (i : nat) : inv G I (ilock i).
Proof. keeps_auto. Qed.
Lemma frame_iunlock (i : nat) : inv G I (iunlock i).
Proof. keeps_auto. Qed.
Hint Resolve frame_ilock frame_iunlock : keeps.
Lemma frame_bmap (i : nat) (bn : Z) : inv G I (bmap i bn).
Proof. keeps_auto. Qed.
Hint Resolve frame_bmap : keeps.
Lemma frame_itrunc (i : nat) : inv G I (itrunc i).
Proof. keeps_auto. Qed.
Hint Resolve frame_itrunc : keeps.
Lemma frame_iput (i : nat) : inv G I (iput i).
Proof. keeps_auto. Qed.
Hint Resolve frame_iput : keeps.
Lemma frame_readi_loop (fu : nat) : forall i tot off n acc, inv G I (readi_loop fu i tot off n acc).
Proof. induction fu as [|fu IH]; intros; cbn [readi_loop]; keeps_auto. Qed.
Lemma frame_writei_loop (fu : nat) : forall i src tot off n, inv G I (writei_loop fu i src tot off n).
Proof. induction fu as [|fu IH]; intros; cbn [writei_loop]; keeps_auto. Qed.
Hint Resolve frame_readi_loop frame_writei_loop : keeps.

Lemma frame_readi (i : nat) (off n : Z) : inv G I (readi i off n).
Proof.
  unfold readi. apply keeps_bind; [keeps_auto|]. intros ip. destruct (itype ip =? T_DEV); [|keeps_auto].
  match goal with |- inv _ _ (match ?x with _ => _ end) => destruct x as [f|] eqn:E end; [|keeps_auto].
  destruct (_ || _); [discriminate|]. eapply di_read. exact E.
Qed.

Lemma frame_writei (i : nat) (src : list Z) (off n : Z) : inv G I (writei i src off n).
Proof.
  unfold writei. apply keeps_bind; [keeps_auto|]. intros ip. destruct (itype ip =? T_DEV); [|keeps_auto].
  match goal with |- inv _ _ (match ?x with _ => _ end) => destruct x as [f|] eqn:E end; [|keeps_auto].
  destruct (_ || _); [discriminate|]. eapply di_write. exact E.
Qed.
Hint Resolve frame_readi frame_writei : keeps.

Lemma frame_dirlookup_loop (fu : nat) : forall i name off, inv G I (dirlookup_loop fu i name off).
Proof. induction fu as [|fu IH]; intros; cbn [dirlookup_loop]; keeps_auto. Qed.
Hint Resolve frame_dirlookup_loop : keeps.
Lemma frame_dirlookup (i : nat) (name : list Z) : inv G I (dirlookup i name).
Proof. keeps_auto. Qed.
Hint Resolve frame_dirlookup : keeps.
Lemma frame_dirlink_loop (fu : nat) : forall i off, inv G I (dirlink_loop fu i off).
Proof. induction fu as [|fu IH]; intros; cbn [dirlink_loop]; keeps_auto. Qed.
Hint Resolve frame_dirlink_loop : keeps.
Lemma frame_dirlink (i : nat) (name : list Z) (n : Z) : inv G I (dirlink i name n).
Proof. keeps_auto. Qed.
Lemma frame_namex_loop (fu : nat) : forall i path parent name, inv G I (namex_loop fu i path parent name).
Proof. induction fu as [|fu IH]; intros; cbn [namex_loop]; keeps_auto. Qed.
Hint Resolve frame_namex_loop : keeps.
Lemma frame_namei (path : list Z) : inv G I (namei path).
Proof. keeps_auto. Qed.
Lemma frame_nameiparent (path : list Z) : inv G I (nameiparent path).
Proof. keeps_auto. Qed.
Lemma frame_ialloc (dev ty : Z) : inv G I (ialloc dev ty).
Proof. keeps_auto. Qed.
Lemma frame_iinit (dev : Z) : inv G I (iinit dev).
Proof. keeps_auto. Qed.
Lemma frame_initlog (dev : Z) : inv G I (initlog dev).
Proof. keeps_auto. Qed.
Lemma frame_idup (i : nat) : inv G I (idup i).
Proof. keeps_auto. Qed.
End FsFrame.

#[export] Hint Resolve frame_bfree frame_iget frame_iupdate frame_ilock frame_iunlock frame_iput frame_readi frame_writei
  frame_dirlookup frame_dirlink frame_namei frame_nameiparent frame_ialloc frame_iinit frame_initlog frame_idup : keeps.
#[export] Hint Extern 1 (DevInv _ _ _) => typeclasses eauto : keeps.

(** ** The console *)

Section ConsoleFrame.
Context (G I : kernel -> Prop) {FI : FrameInv I} {F : Fuel}.

Lemma frame_kill_line (n : nat) : inv G I (kill_line n).
Proof. induction n as [|n IH]; cbn [kill_line]; keeps_auto. Qed.
Hint Resolve frame_kill_line : keeps.
Lemma frame_console_char (c : Z) : inv G I (console_char c).
Proof. keeps_auto. Qed.
Hint Resolve frame_console_char : keeps.
Lemma frame_console_chars (cs : list Z) : forall dump, inv G I (console_chars cs dump).
Proof. induction cs as [|c cs IH]; intros; cbn [console_chars]; keeps_auto. Qed.
Hint Resolve frame_console_chars : keeps.
Lemma frame_print_pcs (l : list Z) : inv G I (print_pcs l).
Proof. induction l as [|c l IH]; cbn [print_pcs]; keeps_auto. Qed.
Hint Resolve frame_print_pcs : keeps.
Lemma frame_consoleintr (cs : list Z) : inv G I (consoleintr cs).
Proof. keeps_auto. Qed.

Context {SI : SleepInv G I} {BD : BlockDev} {BI : BlockInv G I BD}.

Lemma frame_console_wait (i : nat) : inv G I (console_wait i).
Proof. keeps_auto. Qed.
Hint Resolve frame_console_wait : keeps.
Lemma frame_consoleread_loop (m : nat) : forall i n target acc, inv G I (consoleread_loop m i n target acc).
Proof. induction m as [|m IH]; intros; cbn [consoleread_loop]; cbv zeta; keeps_auto. Qed.
Hint Resolve frame_consoleread_loop : keeps.

#[export] Instance console_dev_inv : DevInv G I console_devsw.
Proof. split; cbn; intros m f **; destruct (m =? CONSOLE); simplify_eq; keeps_auto. Qed.
End ConsoleFrame.

#[export] Hint Resolve frame_consoleintr : keeps.

(** ** Pipes and files *)

Section FileFrame.
Context (G I : kernel -> Prop) {FI : FrameInv I} {SI : SleepInv G I} {F : Fuel} {L : Linker} {BD : BlockDev} {DV : Devsw}.
Context {BI : BlockInv G I BD} {DI : DevInv G I DV}.

Lemma frame_pipeclose (p w : Z) : inv G I (pipeclose p w).
Proof. keeps_auto. Qed.
Hint Resolve frame_pipeclose : keeps.
Lemma frame_pipe_room (p : Z) : inv G I (pipe_room p).
Proof. keeps_auto. Qed.
Hint Resolve frame_pipe_room : keeps.
Lemma frame_pipewrite_loop (m : nat) : forall p addr i, inv G I (pipewrite_loop m p addr i).
Proof. induction m as [|m IH]; intros; cbn [pipewrite_loop]; keeps_auto. Qed.
Lemma frame_piperead_loop (m : nat) : forall p addr i, inv G I (piperead_loop m p addr i).
Proof. induction m as [|m IH]; intros; cbn [piperead_loop]; keeps_auto. Qed.
Hint Resolve frame_pipewrite_loop frame_piperead_loop : keeps.
Lemma frame_pipewrite (p addr n : Z) : inv G I (pipewrite p addr n).
Proof. keeps_auto. Qed.
Lemma frame_piperead (p addr n : Z) : inv G I (piperead p addr n).
Proof. keeps_auto. Qed.
Hint Resolve frame_pipewrite frame_piperead : keeps.

Lemma frame_filealloc : inv G I filealloc.
Proof. keeps_auto. Qed.
Lemma frame_filedup (i : nat) : inv G I (filedup i).
Proof. keeps_auto. Qed.
Lemma frame_fileclose (i : nat) : inv G I (fileclose i).
Proof. keeps_auto. Qed.
Hint Resolve frame_filealloc frame_fileclose : keeps.
Lemma frame_filestat (i : nat) (st : Z) : inv G I (filestat i st).
Proof. keeps_auto. Qed.
Lemma frame_fileread (i : nat) (addr n : Z) : inv G I (fileread i addr n).
Proof. keeps_auto. Qed.
Lemma frame_filewrite_loop (fu : nat) : forall fi ip addr n i, inv G I (filewrite_loop fu fi ip addr n i).
Proof. induction fu as [|fu IH]; intros; cbn [filewrite_loop]; cbv zeta; keeps_auto. Qed.
Hint Resolve frame_filewrite_loop : keeps.
Lemma frame_filewrite (i : nat) (addr n : Z) : inv G I (filewrite i addr n).
Proof. keeps_auto. Qed.
Lemma frame_pwrite_loop (fu : nat) : forall fi ip addr n off i, inv G I (pwrite_loop fu fi ip addr n off i).
Proof. induction fu as [|fu IH]; intros; cbn [pwrite_loop]; cbv zeta; keeps_auto. Qed.
Hint Resolve frame_pwrite_loop : keeps.
Lemma frame_pwrite_os (fd addr n off : Z) : inv G I (pwrite_os fd addr n off).
Proof. keeps_auto. Qed.
Lemma frame_pread_os (fd addr n off : Z) : inv G I (pread_os fd addr n off).
Proof. keeps_auto. Qed.
Lemma frame_pipealloc : inv G I pipealloc.
Proof. keeps_auto. Qed.
End FileFrame.

#[export] Hint Resolve frame_filealloc frame_filedup frame_fileclose frame_filestat frame_fileread frame_filewrite
  frame_pwrite_os frame_pread_os frame_pipealloc : keeps.
