(* ===== verification/Calls.v ===== *)
(** * What system calls and traps preserve

    The process operations that change scheduling state are an interface,
    [ProcInv]: an invariant they preserve is preserved by every system call and
    every trap, whatever the other processes do in between. *)

From S2P Require Import Prelude Params Bytes CString Kernel Print Kalloc Vm Umem Sleep Args Sched.
From S2P Require Import Ide Bio Log Fs Pipe File Console Proc Thread Exec Sysfile Syscall Frame.

Class ProcInv (G I : kernel -> Prop) {F : Fuel} {L : Linker} {BD : BlockDev} {DV : Devsw} : Prop := {
  pi_fork : inv G I fork;
  pi_exit : inv G I exit;
  pi_wait : inv G I wait;
  pi_yield : inv G I yield;
  pi_kill : forall pd, inv G I (kill pd);
  pi_share : forall a, inv G I (set_cpu_share a);
  pi_create : forall t f a, inv G I (thread_create_os t f a);
  pi_join : forall t r sel o, inv G I (thread_join_os t r sel o);
  pi_thread_exit : forall r t, inv G I (thread_exit_os r t)
}.

Section Calls.
Context (G I : kernel -> Prop) {FI : FrameInv I} {SI : SleepInv G I} {F : Fuel} {L : Linker} {BD : BlockDev} {DV : Devsw}.
Context {BI : BlockInv G I BD} {DI : DevInv G I DV} {PI : ProcInv G I}.
Hint Extern 0 (inv _ _ fork) => apply pi_fork : keeps.
Hint Extern 0 (inv _ _ exit) => apply pi_exit : keeps.
Hint Extern 0 (inv _ _ wait) => apply pi_wait : keeps.
Hint Extern 0 (inv _ _ yield) => apply pi_yield : keeps.
Hint Extern 0 (inv _ _ (kill _)) => apply pi_kill : keeps.
Hint Extern 0 (inv _ _ (set_cpu_share _)) => apply pi_share : keeps.
Hint Extern 0 (inv _ _ (thread_create_os _ _ _)) => apply pi_create : keeps.
Hint Extern 0 (inv _ _ (thread_join_os _ _ _ _)) => apply pi_join : keeps.
Hint Extern 0 (inv _ _ (thread_exit_os _ _)) => apply pi_thread_exit : keeps.

(** ** exec *)

Lemma calls_loaduvm_loop (n : nat) : forall d a ip off sz i, inv G I (loaduvm_loop n d a ip off sz i).
Proof. induction n as [|n IH]; intros; cbn [loaduvm_loop]; cbv zeta; keeps_auto. Qed.
Hint Resolve calls_loaduvm_loop : keeps.
Lemma calls_load_segments (n : nat) : forall d ip off sz, inv G I (load_segments n d ip off sz).
Proof. induction n as [|n IH]; intros; cbn [load_segments]; cbv zeta; keeps_auto. Qed.
Lemma calls_push_args (argv : list (list Z)) : forall d sp argc acc, inv G I (push_args d sp argc argv acc).
Proof. induction argv as [|a argv IH]; intros; cbn [push_args]; cbv zeta; keeps_auto. Qed.
Hint Resolve calls_load_segments calls_push_args : keeps.
Lemma calls_exec_bad (d : Z) (ip : option nat) : inv G I (exec_bad d ip).
Proof. keeps_auto. Qed.
Hint Resolve calls_exec_bad : keeps.
Lemma calls_exec (path : list Z) (argv : list (list Z)) : inv G I (exec path argv).
Proof. keeps_auto. Qed.
Hint Resolve calls_exec : keeps.

(** ** File system calls *)

Lemma calls_argfd (n : Z) : inv G I (argfd n).
Proof. keeps_auto. Qed.
Lemma calls_fdalloc (f : nat) : inv G I (fdalloc f).
Proof. keeps_auto. Qed.
Lemma calls_with_arg {A : Type} (m : K (option A)) (k : A -> K Z) :
  inv G I m -> (forall a, inv G I (k a)) -> inv G I (with_arg m k).
Proof. intros Hm Hk. apply keeps_bind; [exact Hm|]. intros [a|]; [apply Hk|apply keeps_ret]. Qed.
Hint Resolve calls_argfd calls_fdalloc : keeps.
Lemma calls_add_nlink (ip : nat) (d : Z) : inv G I (add_nlink ip d).
Proof. keeps_auto. Qed.
Lemma calls_isdirempty_loop (fu : nat) : forall dp off, inv G I (isdirempty_loop fu dp off).
Proof. induction fu as [|fu IH]; intros; cbn [isdirempty_loop]; keeps_auto. Qed.
Hint Resolve calls_add_nlink calls_isdirempty_loop : keeps.
Lemma calls_create (path : list Z) (ty ma mi : Z) : inv G I (create path ty ma mi).
Proof. keeps_auto. Qed.
Lemma calls_open_inode (ip : nat) (om : Z) : inv G I (open_inode ip om).
Proof. keeps_auto. Qed.
Lemma calls_fetch_argv (n : nat) : forall u acc, inv G I (fetch_argv n u acc).
Proof. induction n as [|n IH]; intros; cbn [fetch_argv]; keeps_auto. Qed.
Hint Resolve calls_create calls_open_inode calls_fetch_argv : keeps.

(** ** The dispatch *)

Lemma calls_syscalls (num : Z) (f : K Z) : syscalls num = Some f -> inv G I f.
Proof.
  unfold syscalls. intros H.
  repeat match goal with H : match ?x with _ => _ end = _ |- _ => destruct x; try discriminate H end;
    injection H as <-; keeps_auto.
Qed.

Lemma calls_syscall : inv G I syscall.
Proof.
  unfold syscall. apply keeps_bind; [keeps_auto|]. intros p. apply keeps_bind; [keeps_auto|]. intros pr.
  cbv zeta. destruct (syscalls _) as [f|] eqn:E; [|keeps_auto].
  apply keeps_bind; [eapply calls_syscalls, E|keeps_auto].
Qed.
Hint Resolve calls_syscall : keeps.

Lemma calls_trap (t : trapframe) (input : list Z) (cr2 : Z) : inv G I (trap t input cr2).
Proof. keeps_auto. Qed.

Lemma calls_forkret : inv G I forkret.
Proof. keeps_auto. Qed.
End Calls.
