(* ===== verification/KernelInv.v ===== *)
(** * Invariants of the scheduling tables

    [table_ok]: the process table has its fixed size, pids stay within the
    range [allocproc] deals out, so that every index into the tables
    [stride_table] and [mlfq] is in bounds, and the levels of the feedback
    queue are empty.  It holds when the kernel starts, and every system call,
    every trap and the scheduler preserve it, whatever runs in between. *)

From S2P Require Import Prelude Params Bytes CString Kernel Print Kalloc Vm Umem Sleep Args Sched.
From S2P Require Import Ide Bio Log Fs Pipe File Console Proc Thread Exec Sysfile Syscall Frame Calls.

Definition pid_ok (p : proc) : Prop := 0 <= pid p <= MAXPID.

Record table_ok (s : kernel) : Prop := mk_table_ok {
  to_idle : mlfq_idle s;
  to_next : 1 <= k_nextpid s <= MAXPID + 1;
  to_pids : Forall pid_ok (k_procs s);
  to_len : length (k_procs s) = NPROC;
  to_max : 0 <= k_max_pid s <= MAXPID
}.

(** Only these fields matter. *)
Lemma table_ext (s t : kernel) :
  k_lev t = k_lev s -> k_nextpid t = k_nextpid s -> k_max_pid t = k_max_pid s ->
  map pid (k_procs t) = map pid (k_procs s) -> table_ok s -> table_ok t.
Proof.
  intros H1 H2 H3 H4 [I N P L M]. split; [exact (idle_ext s t H1 I)|congruence| | |congruence].
  - apply (List.Forall_map pid (fun n => 0 <= n <= MAXPID)). rewrite H4. apply List.Forall_map. exact P.
  - rewrite <- (length_map pid), H4, length_map. exact L.
Qed.

Lemma map_pid_alter (f : proc -> proc) (i : nat) (ps : list proc) :
  (forall p, pid (f p) = pid p) -> map pid (alter f i ps) = map pid ps.
Proof.
  intros H. revert i. induction ps as [|p ps IH]; intros [|i]; simpl; [reflexivity..|rewrite H; reflexivity|].
  f_equal. apply IH.
Qed.

Lemma table_alter (s : kernel) (f : proc -> proc) (i : nat) :
  (forall p, pid_ok p -> pid_ok (f p)) -> table_ok s -> table_ok (s <| k_procs ::= alter f i |>).
Proof.
  intros H [I N P L M]. split; cbn; [exact I|exact N| |rewrite length_alter; exact L|exact M].
  apply Forall_alter; [exact P|]. intros p _ Hp. apply H, Hp.
Qed.

#[export] Instance table_frame : FrameInv table_ok.
Proof.
  split.
  - intros s t H1 H2 H3 H4 _ H6. apply table_ext; congruence.
  - intros s i f Hf. apply table_alter. intros p. unfold pid_ok. destruct (Hf p) as (_ & -> & _). auto.
  - intros s ch. apply table_ext; try reflexivity. cbn. rewrite map_map. apply map_ext. intros p.
    unfold wake. destruct (bool_decide _); reflexivity.
Qed.

Lemma table_upd_proc (G : kernel -> Prop) (i : nat) (f : proc -> proc) :
  (forall p, pid_ok p -> pid_ok (f p)) -> inv G table_ok (upd_proc i f).
Proof. intros H. apply keeps_modify. intros s. apply table_alter, H. Qed.

#[export] Hint Extern 2 (inv _ table_ok (upd_proc _ _)) =>
  apply table_upd_proc; intros ? ?; first [assumption | split; discriminate] : keeps.

(** A process read from the table has a pid in range. *)
Lemma table_proc_at {A : Type} (G : kernel -> Prop) (i : nat) (k : proc -> K A) :
  (forall p, pid_ok p -> inv G table_ok (k p)) -> inv G table_ok (proc_at i ≫= k).
Proof.
  intros H s Hs. unfold proc_at, mbind, M_bind. cbn. destruct (k_procs s !! i) as [p|] eqn:E; [|exact Logic.I].
  apply H; [|exact Hs]. destruct Hs as [_ _ P _ _]. exact (Forall_lookup_1 _ _ _ _ P E).
Qed.

(** ** Sleeping and running *)

Lemma table_sched : keeps table_ok sched.
Proof. keeps_auto. Qed.
#[export] Hint Resolve table_sched : keeps.
Lemma table_yield : keeps table_ok yield.
Proof. keeps_auto. Qed.
#[export] Instance table_sleep : SleepInv table_ok table_ok.
Proof. intros ch lk _. keeps_auto. Qed.
Lemma table_sleep_any (ch : chan) (lk : lockid) : keeps table_ok (sleep ch lk).
Proof. keeps_auto. Qed.
Lemma table_kill (pd : Z) : keeps table_ok (kill pd).
Proof. keeps_auto. Qed.
#[export] Hint Resolve table_sleep_any table_kill table_yield : keeps.

(** ** New pids *)

Lemma wrap_pid_range (n : Z) : 1 <= n <= MAXPID + 1 -> 1 <= wrap_pid n <= MAXPID.
Proof. unfold wrap_pid, MAXPID. intros H. destruct (Z.gtb_spec n 10000); lia. Qed.

Lemma table_new_pid {A : Type} (G : kernel -> Prop) (i : nat) (k : K A) :
  inv G table_ok k ->
  inv G table_ok (modify (fun s => s <| k_nextpid ::= wrap_pid |>);; s ← get;
    upd_proc i (fun p => p <| pid := k_nextpid s |>);;
    modify (fun s => s <| k_nextpid := s32 (k_nextpid s + 1) |>);; k).
Proof.
  intros Hk s Hs. apply Hk. pose proof (wrap_pid_range _ (to_next _ Hs)) as W. destruct Hs as [I N P L M].
  split; cbn; [exact I| | |rewrite length_alter; exact L|exact M].
  - unfold MAXPID in *. rewrite s32_small by lia. lia.
  - apply Forall_alter; [exact P|]. intros p _ _. unfold pid_ok. cbn. lia.
Qed.

Section Proc.
Context {F : Fuel} {L : Linker} {BD : BlockDev} {DV : Devsw}.
Context {BI : BlockInv table_ok table_ok BD} {DI : DevInv table_ok table_ok DV}.

Lemma table_allocproc : keeps table_ok allocproc.
Proof.
  unfold allocproc. repeat (apply keeps_bind; [solve [keeps_auto]|intros ?]).
  destruct (find_idx _ _) as [i|]; [|keeps_auto]. apply keeps_bind; [keeps_auto|intros _].
  apply table_new_pid. keeps_auto.
Qed.
Hint Resolve table_allocproc : keeps.

Lemma table_fork : keeps table_ok fork.
Proof. keeps_auto. Qed.
Lemma table_close_files (c : nat) : keeps table_ok (close_files c).
Proof. keeps_auto. Qed.
Hint Resolve table_close_files : keeps.
Lemma table_exit : keeps table_ok exit.
Proof. keeps_auto. Qed.
Lemma table_wait : keeps table_ok wait.
Proof. keeps_auto. Qed.
Lemma table_create (t f a : Z) : keeps table_ok (thread_create_os t f a).
Proof. keeps_auto. Qed.
Lemma table_join (t r sel o : Z) : keeps table_ok (thread_join_os t r sel o).
Proof. keeps_auto. Qed.
Lemma table_thread_exit (r t : Z) : keeps table_ok (thread_exit_os r t).
Proof. keeps_auto. Qed.
End Proc.
#[export] Hint Resolve table_allocproc : keeps.

(** ** The tables of the scheduler *)

Lemma table_modify (G : kernel -> Prop) (f : kernel -> kernel) :
  (forall s, k_lev (f s) = k_lev s /\ k_nextpid (f s) = k_nextpid s /\ k_max_pid (f s) = k_max_pid s /\
             k_procs (f s) = k_procs s) -> inv G table_ok (modify f).
Proof.
  intros H. apply keeps_modify. intros s. destruct (H s) as (H1 & H2 & H3 & H4). apply table_ext; congruence.
Qed.
#[export] Hint Extern 2 (inv _ table_ok (modify _)) => apply table_modify; intros; split_and!; reflexivity : keeps.

Lemma table_set_table (input : Z) : keeps table_ok (set_table input).
Proof.
  unfold set_table. apply keeps_bind; [keeps_auto|intros s]. do 2 (case_match; [keeps_auto|]).
  do 3 (apply keeps_bind; [keeps_auto|intros ?]). apply table_proc_at. intros p Hp. cbv zeta.
  apply keeps_bind; [|keeps_auto]. apply keeps_when, keeps_modify. intros t [I N P L M]. split; auto.
Qed.
#[export] Hint Resolve table_set_table : keeps.

(** While the levels are empty the queue operations change nothing here. *)
Lemma table_idle {A : Type} (G : kernel -> Prop) (m : K A) :
  (forall s, mlfq_idle s -> exists a t, m s = Done a t /\ k_lev t = k_lev s /\ k_nextpid t = k_nextpid s /\
     k_max_pid t = k_max_pid s /\ k_procs t = k_procs s) -> inv G table_ok m.
Proof.
  intros H s Hs. destruct (H s (to_idle _ Hs)) as (a & t & E & H1 & H2 & H3 & H4). rewrite E.
  cbn. apply (table_ext s); congruence.
Qed.

Lemma table_MLFQ_in (p : nat) (l c : Z) : keeps table_ok (MLFQ_in p l c).
Proof. apply table_idle. intros s Hs. exists tt, s. auto 10 using MLFQ_in_idle. Qed.
Lemma table_MLFQ_out (p : nat) (l c : Z) : keeps table_ok (MLFQ_out p l c).
Proof. apply table_idle. intros s Hs. exists tt, s. auto 10 using MLFQ_out_idle. Qed.
Lemma table_MLFQ : keeps table_ok MLFQ.
Proof. apply table_idle. intros s Hs. eexists _, _. rewrite MLFQ_idle by exact Hs. auto 10. Qed.
#[export] Hint Resolve table_MLFQ_in table_MLFQ_out table_MLFQ : keeps.

Lemma table_upd_lev (G : kernel -> Prop) (i : Z) (f : mlfq_level -> mlfq_level) :
  (forall l, lhead (f l) = lhead l /\ lend (f l) = lend l /\ lsize (f l) = lsize l) ->
  inv G table_ok (upd_lev i f).
Proof.
  intros Hf. apply keeps_modify. intros s [I N P L M]. split; auto. intros l. rewrite lev_at_insert.
  case_decide as E; [|apply I]. destruct (Hf (lev_at i s)) as (-> & -> & ->). apply I.
Qed.
#[export] Hint Extern 2 (inv _ table_ok (upd_lev _ _)) =>
  apply table_upd_lev; intros; split_and!; reflexivity : keeps.

Section Scheduler.
Context {F : Fuel} {L : Linker} {BD : BlockDev} {DV : Devsw}.
Context {BI : BlockInv table_ok table_ok BD} {DI : DevInv table_ok table_ok DV}.

#[export] Instance table_procs : ProcInv table_ok table_ok.
Proof.
  split; auto using table_fork, table_exit, table_wait, table_create, table_join, table_thread_exit with keeps.
  intros a. keeps_auto.
Qed.

Lemma table_scan (n p : nat) : keeps table_ok (scheduler_scan n p).
Proof.
  revert p. induction n as [|n IH]; intros p; simpl; destruct (negb _); auto with keeps.
  apply keeps_bind; [keeps_auto|auto].
Qed.
Hint Resolve table_scan : keeps.

Lemma table_scheduler (rounds n : nat) : keeps table_ok (scheduler rounds n).
Proof. keeps_auto. Qed.

Lemma table_binit : keeps table_ok binit.
Proof. keeps_auto. Qed.
Lemma table_kinit (a b : Z) : keeps table_ok (kinit1 a b) /\ keeps table_ok (kinit2 a b).
Proof. split; keeps_auto. Qed.

Lemma table_main (initcode : list Z) (rounds n : nat) : keeps table_ok (main initcode rounds n).
Proof. keeps_auto. Qed.
End Scheduler.

Lemma table_ok_boot : table_ok kernel0.
Proof.
  split; cbn; [intros l; split_and!; reflexivity|unfold MAXPID; lia| |reflexivity|unfold MAXPID; lia].
  apply (Forall_replicate pid_ok 64). unfold pid_ok, MAXPID. cbn. lia.
Qed.

(** C9. The multi-level feedback queue is never used: its levels are empty when
    the kernel starts, start-up and the scheduler keep them empty, and so does
    every trap (system calls and interrupts), whatever runs while it sleeps.
    While they are empty [MLFQ] finds no process and [MLFQ_in], which refuses
    to insert into an empty level, changes nothing. *)
Theorem mlfq_never_used {F : Fuel} {L : Linker} :
  let BD := bcache_dev in
  let DV := console_devsw in
  mlfq_idle kernel0 /\
  (forall initcode rounds n, keeps table_ok (main initcode rounds n)) /\
  (forall t input cr2, keeps table_ok (trap t input cr2)) /\
  (forall s, table_ok s ->
     MLFQ s = Done None (s <| k_tick_mlfq ::= fun t => s32 (t + 1) |>) /\
     forall p level code, MLFQ_in p level code s = Done tt s).
Proof.
  cbv zeta. split_and!.
  - apply to_idle, table_ok_boot.
  - intros. apply table_main.
  - intros. apply (calls_trap table_ok table_ok).
  - intros s [Hs _ _ _ _]. split; [apply MLFQ_idle, Hs|]. intros. apply MLFQ_in_idle, Hs.
Qed.

(** C10. Indices of the scheduling tables.  When the kernel starts, and after
    every system call, however it is interleaved with others, all pids in the
    process table lie in the range [allocproc] deals out, so each index into
    [stride_table] and [mlfq], which have [NSTRIDE] entries, is in bounds; the
    bound [max_pid] of the loops over the stride table is as well. *)
Theorem table_indices_in_bounds {F : Fuel} {L : Linker} :
  let BD := bcache_dev in
  let DV := console_devsw in
  table_ok kernel0 /\
  (forall num f, syscalls num = Some f -> keeps table_ok f) /\
  keeps table_ok forkret /\
  (forall rounds n, keeps table_ok (scheduler rounds n)) /\
  (forall s i p, table_ok s -> k_procs s !! i = Some p -> 0 <= pid p < NSTRIDE) /\
  (forall s, table_ok s -> 0 <= k_max_pid s < NSTRIDE).
Proof.
  cbv zeta. split_and!.
  - apply table_ok_boot.
  - intros num f. apply (calls_syscalls table_ok table_ok).
  - apply (calls_forkret table_ok table_ok).
  - apply table_scheduler.
  - intros s i p [_ _ P _ _] E. pose proof (Forall_lookup_1 _ _ _ _ P E) as H.
    unfold pid_ok, MAXPID, NSTRIDE in *. lia.
  - intros s [_ _ _ _ M]. unfold MAXPID, NSTRIDE in *. lia.
Qed.
