(* ===== verification/Rely.v ===== *)
(** * Running code that sleeps

    [runs G R o Q]: the outcome [o] returns with [Q], without stopping the
    machine.  Each time it gives up the processor the state satisfies [G], the
    rest of the system can go on ([R] leads somewhere), and it is resumed in any
    state [R] leads to. *)

From S2P Require Import Prelude Params Kernel Sleep.

Section Runs.
Context {S : Type} (G : S -> Prop) (R : S -> S -> Prop).

Fixpoint runs {A : Type} (o : outcome S A) (Q : A -> S -> Prop) : Prop :=
  match o with
  | Done a s => Q a s
  | Halt _ => False
  | Switch s k => G s /\ (exists s', R s s') /\ forall s', R s s' -> runs (k s') Q
  end.

Lemma runs_mono {A : Type} (o : outcome S A) (Q Q' : A -> S -> Prop) :
  runs o Q -> (forall a s, Q a s -> Q' a s) -> runs o Q'.
Proof.
  intros H HQ. induction o as [a s|r|s k IH]; simpl in *; [auto|exact H|].
  destruct H as (Hs & He & Hk). split_and!; [exact Hs|exact He|]. intros s' Hs'. apply IH, Hk, Hs'.
Qed.

Lemma runs_bind {A B : Type} (m : M S A) (f : A -> M S B) (s : S) (Q : B -> S -> Prop) :
  runs (m s) (fun a t => runs (f a t) Q) -> runs ((m ≫= f) s) Q.
Proof.
  unfold mbind, M_bind. generalize (m s). intros o H. induction o as [a t|r|t k IH]; simpl in *; [exact H|exact H|].
  destruct H as (Hs & He & Hk). split_and!; [exact Hs|exact He|]. intros s' Hs'. apply IH, Hk, Hs'.
Qed.

Lemma runs_seq {A B : Type} (m : M S A) (f : A -> M S B) (s : S) (P : A -> S -> Prop) (Q : B -> S -> Prop) :
  runs (m s) P -> (forall a t, P a t -> runs (f a t) Q) -> runs ((m ≫= f) s) Q.
Proof. intros H Hf. apply runs_bind. eapply runs_mono; [exact H|exact Hf]. Qed.

Lemma runs_done {A B : Type} (m : M S A) (f : A -> M S B) (s t : S) (a : A) (Q : B -> S -> Prop) :
  m s = Done a t -> runs (f a t) Q -> runs ((m ≫= f) s) Q.
Proof. intros E H. rewrite (bind_Done m f s t a E). exact H. Qed.

Lemma runs_return {A : Type} (o : outcome S A) (a : A) (s : S) (Q : A -> S -> Prop) :
  o = Done a s -> Q a s -> runs o Q.
Proof. intros -> H. exact H. Qed.

(** A counting loop with a fixed bound [N] and an invariant. *)
Lemma runs_for_lt (I : Z -> S -> Prop) (N : Z) (bound : S -> Z) (body : Z -> M S unit) (n : nat) :
  (forall i s, I i s -> bound s = N) ->
  (forall i s, I i s -> i < N -> runs (body i s) (fun _ t => I (i + 1) t)) ->
  forall i s (Q : unit -> S -> Prop), I i s -> i <= N -> N - i < Z.of_nat n -> (forall t, I N t -> Q tt t) ->
  runs (for_lt n i bound body s) Q.
Proof.
  intros Hb Hbody. induction n as [|n IH]; intros i s Q Hi Hle Hn HQ; [lia|]. cbn [for_lt].
  apply (runs_done _ _ _ s N); [unfold gets; rewrite (Hb i s Hi); reflexivity|].
  destruct (Z.ltb_spec i N) as [Hlt|Hge].
  - apply (runs_seq _ _ _ (fun _ t => I (i + 1) t)); [apply Hbody; [exact Hi|exact Hlt]|]. intros ? t Ht. apply IH; [exact Ht|lia|lia|exact HQ].
  - assert (i = N) by lia. subst i. apply HQ, Hi.
Qed.

End Runs.

Lemma runs_guard {S A : Type} (G G' : S -> Prop) (R : S -> S -> Prop) (o : outcome S A) (Q : A -> S -> Prop) :
  (forall s, G s -> G' s) -> runs G R o Q -> runs G' R o Q.
Proof.
  intros HG. induction o as [a s|r|s k IH]; simpl; [auto|auto|].
  intros (Hs & He & Hk). split_and!; [apply HG, Hs|exact He|]. intros s' Hs'. apply IH, Hk, Hs'.
Qed.

(** ** [sleep] *)

(** The state in which process [p] gives up the processor, and the one in which
    it goes on after it was resumed in state [s']. *)
Definition slept (p : nat) (ch : chan) (s : kernel) : kernel :=
  s <| k_held := [ptable_lock] |>
    <| k_procs ::= alter (fun pr => pr <| pchan := Some ch |>) p |>
    <| k_procs ::= alter (fun pr => pr <| state := SLEEPING |>) p |>.

Definition awake (p : nat) (lk : lockid) (s' : kernel) : kernel :=
  s' <| k_procs ::= alter (fun pr => pr <| pchan := None |>) p |> <| k_held := [lk] |>.

Lemma slept_proc (p : nat) (ch : chan) (s : kernel) (pr : proc) :
  k_procs s !! p = Some pr ->
  k_procs (slept p ch s) !! p = Some (pr <| pchan := Some ch |> <| state := SLEEPING |>).
Proof. intros H. unfold slept. cbn. rewrite list_lookup_alter_eq, list_lookup_alter_eq, H. reflexivity. Qed.

Lemma release_second (a l : lockid) (s : kernel) :
  k_held s = [a; l] -> a <> l -> release l s = Done tt (s <| k_held := [a] |>).
Proof.
  intros H Hn. unfold release, mbind, M_bind, get. simpl. unfold holding.
  rewrite bool_decide_eq_true_2 by (rewrite H; set_solver). simpl. unfold modify.
  rewrite H, filter_cons_True, filter_cons_False by naive_solver. reflexivity.
Qed.

Lemma sched_runs (G : kernel -> Prop) (R : kernel -> kernel -> Prop) (s : kernel) (p : nat) (pr : proc)
    (Q : unit -> kernel -> Prop) :
  k_held s = [ptable_lock] -> k_cur s = Some p -> k_procs s !! p = Some pr -> state pr <> RUNNING ->
  G s -> (exists s', R s s') -> (forall s', R s s' -> Q tt s') -> runs G R (sched s) Q.
Proof.
  intros Hh Hc Hp Hr HG HR HQ. unfold sched.
  eapply runs_done; [apply curproc_some, Hc|]. eapply runs_done; [apply get_run|]. cbv beta.
  unfold holding. rewrite bool_decide_eq_true_2 by (rewrite Hh; set_solver). rewrite Hh. cbn [negb length Nat.eqb].
  eapply runs_done; [apply proc_at_some, Hp|]. cbv beta. rewrite bool_decide_eq_false_2 by exact Hr.
  cbn. auto.
Qed.

Lemma myproc_some (p : nat) (s : kernel) : k_cur s = Some p -> myproc s = Done (Some p) s.
Proof. intros H. unfold myproc, gets. f_equal. exact H. Qed.

Lemma sleep_runs (G : kernel -> Prop) (R : kernel -> kernel -> Prop) (ch : chan) (lk : lockid) (s : kernel)
    (p : nat) (pr : proc) (Q : unit -> kernel -> Prop) :
  lk <> ptable_lock -> k_held s = [lk] -> k_cur s = Some p -> k_procs s !! p = Some pr ->
  G (slept p ch s) -> (exists s', R (slept p ch s) s') ->
  (forall s', R (slept p ch s) s' -> k_held s' = [ptable_lock] /\ Q tt (awake p lk s')) ->
  runs G R (sleep ch lk s) Q.
Proof.
  intros Hlk Hh Hc Hp HG HR HQ. unfold sleep.
  eapply runs_done; [apply (myproc_some p), Hc|].
  rewrite bool_decide_eq_false_2 by exact Hlk.
  eapply runs_done.
  { eapply bind_Done_trans; [apply acquire_free; rewrite Hh; set_solver|].
    apply (release_second ptable_lock); [cbn; rewrite Hh; reflexivity|congruence]. }
  do 2 (eapply runs_done; [apply upd_proc_run|]). change (runs G R ((sched ≫= fun _ : unit =>
    upd_proc p (fun pr0 : proc => pr0 <| pchan := None |>) ≫= fun _ : unit =>
    release ptable_lock ≫= fun _ : unit => acquire lk) (slept p ch s)) Q).
  eapply runs_bind, sched_runs; [reflexivity|exact Hc|apply slept_proc, Hp|discriminate|exact HG|exact HR|].
  intros s' Hs'. destruct (HQ s' Hs') as [Hh' HQ'].
  eapply runs_done; [apply upd_proc_run|].
  eapply runs_done; [apply (release_head ptable_lock []); [exact Hh'|set_solver]|].
  eapply runs_return; [apply acquire_free; cbn; set_solver|]. exact HQ'.
Qed.
