(* ===== verification/BufSpec.v ===== *)
(** * The disk driver and the buffer cache, run by one process

    A process that transfers a buffer sleeps until the disk's interrupt.  The
    theorems here run the code of ide.c and bio.c with the interrupt handler as
    the only other code that touches buffers and disk ([disk_intr]); other
    processes may run as well.  The property [G] of the states in which the
    process sleeps is a property of the disk, so that it covers what a crash may
    find there. *)

From S2P Require Import Prelude Params Bytes Kernel Sleep Ide Bio Rely.

(** ** The interrupt *)

(** What is kept while the process sleeps, apart from buffers and disk. *)
Definition kept (s t : kernel) : Prop :=
  k_log t = k_log s /\ k_sb t = k_sb s /\ k_ideerr t = k_ideerr s /\ k_havedisk1 t = k_havedisk1 s.

(** From the state [s] in which process [p] sleeps, the interrupt handler runs
    and wakes it; [s'] is the state in which the scheduler resumes it. *)
Definition disk_intr (s s' : kernel) : Prop :=
  exists t p pr, ideintr (s <| k_held := [] |>) = Done tt t /\ k_cur s = Some p /\
    k_procs t !! p = Some pr /\ state pr = RUNNABLE /\
    k_bufs s' = k_bufs t /\ k_disk s' = k_disk t /\ k_idequeue s' = k_idequeue t /\ kept t s' /\
    k_held s' = k_held s /\ k_cur s' = k_cur s /\ is_Some (k_procs s' !! p).

(** A process runs, holds no spin-lock, and the disk is idle and works. *)
Record solo (s : kernel) : Prop := mk_solo {
  so_held : k_held s = [];
  so_cur : exists p, k_cur s = Some p /\ is_Some (k_procs s !! p);
  so_err : k_ideerr s = false;
  so_disk1 : k_havedisk1 s = true;
  so_queue : k_idequeue s = None
}.

(** The buffer when its transfer is done: written to the disk, or read. *)
Definition done_buf (s : kernel) (b : buf) : buf :=
  b <| bqnext := None |>
    <| bdata := if is_dirty b then bdata b else disk_block s (drive_block b) |>
    <| bflags := Z.land (Z.lnot B_DIRTY) (Z.lor B_VALID (bflags b)) |>.

Definition done_disk (s : kernel) (b : buf) : gmap (Z * Z) (list Z) :=
  if is_dirty b then <[drive_block b := bdata b]> (k_disk s) else k_disk s.

Lemma alter_some {A : Type} (f : A -> A) (i : nat) (l : list A) (x : A) :
  l !! i = Some x -> alter f i l = <[i := f x]> l.
Proof.
  revert i. induction l as [|y l IH]; intros [|i] H; simpl in *; try discriminate; [congruence|].
  f_equal. apply IH, H.
Qed.

Lemma alter_insert {A : Type} (f : A -> A) (i : nat) (l : list A) (x : A) :
  alter f i (<[i := x]> l) = <[i := f x]> l.
Proof. revert i. induction l as [|y l IH]; intros [|i]; simpl; [reflexivity..|f_equal; apply IH]. Qed.

Lemma upd_buf_run (i : nat) (f : buf -> buf) (s : kernel) :
  upd_buf i f s = Done tt (s <| k_bufs ::= alter f i |>).
Proof. reflexivity. Qed.

Lemma when_upd_buf_run (c : bool) (i : nat) (f : buf -> buf) (s : kernel) :
  when c (upd_buf i f) s = Done tt (if c then s <| k_bufs ::= alter f i |> else s).
Proof. destruct c; reflexivity. Qed.

Lemma wakeup_run (ch : chan) (s : kernel) :
  ptable_lock ∉ k_held s -> wakeup ch s = Done tt (s <| k_procs ::= map (wake (Some ch)) |>).
Proof.
  intros H. unfold wakeup, wakeup1. erewrite (bind_Done _ _ _ _ _ (acquire_free ptable_lock s H)).
  rewrite (bind_Done _ _ _ _ _ (modify_run _ _)).
  rewrite (release_head ptable_lock (k_held s)); [reflexivity|reflexivity|exact H].
Qed.

#[export] Hint Resolve upd_buf_run : krun.

Lemma ideintr_run (s : kernel) (i : nat) (b : buf) :
  k_held s = [] -> k_idequeue s = Some i -> k_bufs s !! i = Some b -> bqnext b = None ->
  k_ideerr s = false -> k_ide s = drive_block b ->
  exists t, ideintr s = Done tt t /\ k_bufs t = <[i := done_buf s b]> (k_bufs s) /\
    k_procs t = map (wake (Some (CBuf i))) (k_procs s) /\
    k_idequeue t = None /\ k_disk t = k_disk s /\ kept s t.
Proof.
  intros Hh Hq Hb Hn He Hi. unfold ideintr.
  rewrite (bind_Done _ _ _ _ _ (acquire_free idelock s ltac:(rewrite Hh; set_solver))).
  rewrite (bind_Done _ _ _ _ _ (gets_run _ _)). cbv beta.
  change (k_idequeue (s <| k_held := idelock :: k_held s |>)) with (k_idequeue s). rewrite Hq.
  erewrite (bind_Done (buf_at i)) by (apply (buf_at_some i b); exact Hb).
  rewrite (bind_Done _ _ _ _ _ (modify_run _ _)), (bind_Done _ _ _ _ _ (get_run _)). cbv beta.
  rewrite (bind_Done _ _ _ _ _ (when_upd_buf_run _ _ _ _)).
  rewrite 2!(bind_Done _ _ _ _ _ (upd_buf_run _ _ _)).
  set (s1 := s <| k_held := idelock :: k_held s |> <| k_idequeue := bqnext b |>).
  set (s2 := if _ : bool then _ else _).
  assert (E2 : s2 <| k_bufs := [] |> = s1 <| k_bufs := [] |>) by (unfold s2; case_match; reflexivity).
  assert (B2 : alter (fun b0 => b0 <| bflags ::= Z.land (Z.lnot B_DIRTY) |>) i
                 (alter (fun b0 => b0 <| bflags ::= Z.lor B_VALID |>) i (k_bufs s2)) = <[i := done_buf s b]> (k_bufs s)).
  { unfold s2, s1, done_buf. cbn [k_ideerr upd]. rewrite He, <- Hi. destruct (is_dirty b); cbn.
    - rewrite (alter_some _ i _ b Hb), alter_insert. destruct b; cbn in *. subst. reflexivity.
    - rewrite (alter_some _ i _ b Hb), !alter_insert. destruct b; cbn in *. subst. reflexivity. }
  assert (H2 : k_held s2 = [idelock]) by (apply (f_equal k_held) in E2; cbn in E2; rewrite Hh in E2; exact E2).
  erewrite (bind_Done (wakeup _)) by (apply wakeup_run; cbn; rewrite H2; set_solver).
  rewrite (bind_Done _ _ _ _ _ (gets_run _ _)). cbv beta. cbn [k_idequeue k_held upd].
  assert (Q2 : k_idequeue s2 = None) by (apply (f_equal k_idequeue) in E2; cbn in E2; congruence).
  rewrite Q2, (bind_Done _ _ _ _ _ (ret_run _ _)).
  rewrite (release_head idelock []); [|exact H2|set_solver].
  eexists. split; [reflexivity|]. cbn. rewrite B2.
  split_and!; [reflexivity|apply (f_equal k_procs) in E2; cbn in E2; congruence|exact Q2
              |exact (f_equal k_disk E2)|].
  unfold kept. cbn. split_and!; [exact (f_equal k_log E2)|exact (f_equal k_sb E2)|exact (f_equal k_ideerr E2)
              |exact (f_equal k_havedisk1 E2)].
Qed.

(** ** A transfer *)

Lemma holdingsleep_buf (i : nat) (b : buf) (s : kernel) :
  sleep_lk (SBuf i) ∉ k_held s -> k_bufs s !! i = Some b ->
  holdingsleep (SBuf i) s = Done (sl_locked (blk b)) s.
Proof.
  intros Hh Hb. unfold holdingsleep.
  rewrite (bind_Done _ _ _ _ _ (acquire_free _ s Hh)).
  erewrite (bind_Done (sl_at _)) by (unfold sl_at; erewrite (bind_Done (buf_at i)) by
    (apply (buf_at_some i b); exact Hb); reflexivity).
  erewrite (bind_Done (release _)) by (apply (release_head _ (k_held s)); [reflexivity|exact Hh]). reflexivity.
Qed.

Lemma done_synced (s : kernel) (b : buf) : synced (done_buf s b) = true.
Proof.
  unfold synced, done_buf, B_VALID, B_DIRTY. cbn [bflags upd]. apply Z.eqb_eq.
  rewrite (Z.land_comm (Z.lnot 4)), <- Z.land_assoc. change (Z.land (Z.lnot 4) (Z.lor 2 4)) with 2.
  apply Z.bits_inj'. intros n Hn. rewrite Z.land_spec, Z.lor_spec. destruct (Z.testbit 2 n); [|apply andb_false_r].
  reflexivity.
Qed.

Section Transfer.
Context {F : Fuel} (C : gmap (Z * Z) (list Z) -> Prop).
Hypothesis Hfuel : (1 <= fuel_pred)%nat.

Abbreviation runsC := (runs (fun s => C (k_disk s)) disk_intr).

(** The state in which [iderw] starts to wait. *)
Definition waiting (i : nat) (b : buf) (s : kernel) : kernel :=
  s <| k_held := [idelock] |> <| k_bufs := <[i := b <| bqnext := None |> ]> (k_bufs s) |>
    <| k_idequeue := Some i |> <| k_ide := drive_block b |> <| k_disk := done_disk s b |>.

Lemma waiting_intr (i : nat) (b : buf) (s : kernel) (p : nat) (pr : proc) :
  solo s -> k_bufs s !! i = Some b -> k_cur s = Some p -> k_procs s !! p = Some pr ->
  exists t q, ideintr (slept p (CBuf i) (waiting i b s) <| k_held := [] |>) = Done tt t /\
    k_procs t !! p = Some q /\ state q = RUNNABLE /\
    k_bufs t = <[i := done_buf s b]> (k_bufs s) /\ k_disk t = done_disk s b /\ k_idequeue t = None /\ kept s t.
Proof.
  intros Hs Hb Hc Hp.
  destruct (ideintr_run (slept p (CBuf i) (waiting i b s) <| k_held := [] |>) i (b <| bqnext := None |>))
    as (t & E & B & P & Q & D & K); try reflexivity.
  - cbn. apply list_lookup_insert_eq. apply lookup_lt_Some in Hb. exact Hb.
  - apply Hs.
  - exists t, (wake (Some (CBuf i)) (pr <| pchan := Some (CBuf i) |> <| state := SLEEPING |>)).
    split_and!; [exact E| | | |exact D|exact Q|exact K].
    + rewrite P. unfold slept. cbn. rewrite list_lookup_fmap, !list_lookup_alter_eq, Hp. reflexivity.
    + unfold wake. rewrite bool_decide_eq_true_2 by (split; reflexivity). reflexivity.
    + rewrite B. cbn. rewrite list_insert_insert_eq. f_equal. unfold done_buf, disk_block. cbn. unfold done_disk.
      destruct b; cbn. unfold is_dirty. cbn. destruct (negb _); reflexivity.
Qed.

Lemma idestart_run (i : nat) (b : buf) (s : kernel) :
  k_bufs s !! i = Some b -> bblockno b < FSSIZE ->
  idestart i s = Done tt (s <| k_ide := drive_block b |> <| k_disk := done_disk s b |>).
Proof.
  intros Hb Hr. unfold idestart. rewrite (bind_Done _ _ _ _ _ (buf_at_some i b s Hb)).
  destruct (bblockno b >=? FSSIZE) eqn:E; [apply Z.geb_le in E; lia|].
  rewrite (bind_Done _ _ _ _ _ (modify_run _ _)). rewrite when_modify_run. unfold done_disk.
  destruct (is_dirty b); reflexivity.
Qed.

Lemma iderw_runs (i : nat) (b : buf) (s : kernel) (Q : unit -> kernel -> Prop) :
  solo s -> k_bufs s !! i = Some b -> sl_locked (blk b) <> 0 -> synced b = false -> bblockno b < FSSIZE ->
  C (done_disk s b) ->
  (forall t, solo t -> k_bufs t = <[i := done_buf s b]> (k_bufs s) -> k_disk t = done_disk s b -> kept s t -> Q tt t) ->
  runsC (iderw i s) Q.
Proof.
  intros Hs Hb Hl Hn Hr HC HQ. destruct (so_cur _ Hs) as (p & Hc & pr & Hp). pose proof (so_held _ Hs) as Hh.
  unfold iderw. eapply runs_done; [apply (holdingsleep_buf i b); [rewrite Hh; set_solver|exact Hb]|].
  cbv beta. rewrite (proj2 (Z.eqb_neq _ _) Hl).
  eapply runs_done; [apply (buf_at_some i b), Hb|]. eapply runs_done; [apply get_run|]. cbv beta.
  rewrite Hn, (so_disk1 _ Hs), andb_false_r.
  eapply runs_done; [apply acquire_free; rewrite Hh; set_solver|].
  eapply runs_done; [apply upd_buf_run|]. eapply runs_done; [apply gets_run|]. cbv beta.
  match goal with |- context [k_idequeue ?x] => change (k_idequeue x) with (k_idequeue s) end. rewrite (so_queue _ Hs).
  eapply runs_done; [apply modify_run|]. eapply runs_done; [apply gets_run|]. cbv beta.
  rewrite bool_decide_eq_true_2 by reflexivity.
  assert (Hw : k_bufs (waiting i b s) !! i = Some (b <| bqnext := None |>)).
  { cbn. apply list_lookup_insert_eq. apply lookup_lt_Some in Hb. exact Hb. }
  apply (runs_done _ _ _ _ _ (waiting i b s) tt).
  { unfold when. rewrite Hh. erewrite (idestart_run i (b <| bqnext := None |>)); [|cbn; rewrite list_lookup_alter_eq, Hb; reflexivity|exact Hr].
    unfold waiting. rewrite <- (alter_some (fun b0 => b0 <| bqnext := None |>) i _ b Hb). reflexivity. }
  destruct (waiting_intr i b s p pr Hs Hb Hc Hp) as (t0 & q & E0 & P0 & S0 & B0 & D0 & Q0 & K0).
  unfold fuel. destruct fuel_pred as [|f]; [lia|]. cbn [while_loop].
  eapply runs_seq with (P := fun _ s' => exists t, s' = t <| k_held := [idelock] |> /\ solo t /\
    k_bufs t = <[i := done_buf s b]> (k_bufs s) /\ k_disk t = done_disk s b /\ kept s t).
  - eapply runs_seq with (P := fun r s' => r = inl tt /\ exists t, s' = t <| k_held := [idelock] |> /\ solo t /\
      k_bufs t = <[i := done_buf s b]> (k_bufs s) /\ k_disk t = done_disk s b /\ kept s t).
    + eapply runs_done; [apply buf_at_some, Hw|]. cbv beta. change (synced (b <| bqnext := None |>)) with (synced b).
      rewrite Hn. eapply runs_seq; [|intros ? s' H; cbn; split; [reflexivity|exact H] ].
      eapply (sleep_runs _ _ _ _ _ p pr); [discriminate|reflexivity|exact Hc|exact Hp|exact HC| |].
      { exists (t0 <| k_held := [ptable_lock] |> <| k_cur := Some p |>). exists t0, p, q.
        split_and!; try assumption; try reflexivity; [split_and!; reflexivity|cbn; congruence|eauto]. }
      intros s' (t1 & p' & q' & E1 & Hc1 & P1 & S1 & B1 & D1 & Q1 & (K1 & K2 & K3 & K4) & H1 & C1 & I1).
      rewrite E0 in E1. injection E1 as <-. split; [exact H1|].
      exists (awake p idelock s' <| k_held := [] |>). destruct K0 as (K5 & K6 & K7 & K8). split_and!.
      * reflexivity.
      * split; [reflexivity| |cbn; rewrite K3, K7; apply Hs|cbn; rewrite K4, K8; apply Hs|cbn; congruence].
        exists p. cbn. split; [rewrite C1; exact Hc|]. cbn in Hc1. assert (p' = p) by congruence. subst p'.
        rewrite list_lookup_alter_eq. destruct I1 as [x ->]. eauto.
      * cbn. congruence.
      * cbn. congruence.
      * unfold kept. cbn. split_and!; congruence.
    + intros r s' (-> & t & -> & Ht & B & D & K).
      assert (Hi : k_bufs (t <| k_held := [idelock] |>) !! i = Some (done_buf s b)).
      { cbn. rewrite B. apply list_lookup_insert_eq. apply lookup_lt_Some in Hb. exact Hb. }
      eapply runs_done; [eapply bind_Done_trans; [apply buf_at_some, Hi|cbv beta; rewrite done_synced; reflexivity]|].
      cbn. eauto 10.
  - intros _ s' (t & -> & Ht & B & D & K).
    eapply runs_return; [apply (release_head idelock []); [reflexivity|set_solver]|].
    apply HQ; try assumption. destruct Ht as [H1 H2 H3 H4 H5]. split; try assumption. reflexivity.
Qed.
End Transfer.
