(* ===== verification/PipeSpec.v ===== *)
(** * Pipes between two processes

    The buffer of a pipe is a queue of at most 512 bytes.  A writer and a reader
    call [pipewrite] and [piperead] as often as they like; each call runs until
    it returns or sleeps, and is resumed at any time, in any order; either end may
    be closed and either process killed.  In every
    state of this system the bytes written are the bytes read followed by the
    bytes in the buffer. *)

From S2P Require Import Prelude Params Bytes CString Kernel Print Kalloc Vm VmSpec UserSpace AddressSpace Umem Sleep Rely Ide Bio BufSpec Pipe.

(** ** The buffer as a queue *)

Definition pcount (q : pipe) : Z := u32 (nwrite q - nread q).

Definition pqueue (q : pipe) : list Z :=
  map (fun k => byte_at (pdata q) ((nread q + Z.of_nat k) mod PIPESIZE)) (seq 0 (Z.to_nat (pcount q))).

Record pipe_ok (q : pipe) : Prop := {
  po_len : length (pdata q) = Z.to_nat PIPESIZE;
  po_read : 0 <= nread q < 2 ^ 32;
  po_write : 0 <= nwrite q < 2 ^ 32;
  po_count : pcount q <= PIPESIZE
}.

Lemma length_pqueue (q : pipe) : Z.of_nat (length (pqueue q)) = pcount q.
Proof. unfold pqueue. rewrite length_map, length_seq. apply Z2Nat.id. unfold pcount, u32. apply Z.mod_pos_bound. reflexivity. Qed.

Lemma queue_nil (q : pipe) : pqueue q = [] <-> pcount q = 0.
Proof.
  pose proof (length_pqueue q) as H. split; intros E; [rewrite E in H; cbn in H; lia|]. apply length_zero_iff_nil. lia.
Qed.

Lemma queue_full (q : pipe) : pipe_ok q -> (nwrite q =? u32 (nread q + PIPESIZE)) = (pcount q =? PIPESIZE).
Proof.
  intros [_ Hr Hw Hc]. unfold pcount, u32, PIPESIZE in *. destruct (Z.eqb_spec (nwrite q) ((nread q + 512) mod 2 ^ 32)) as [E|E]; symmetry;
    [apply Z.eqb_eq|apply Z.eqb_neq]; Z.div_mod_to_equations; lia.
Qed.

Lemma queue_empty (q : pipe) : pipe_ok q -> (nread q =? nwrite q) = (pcount q =? 0).
Proof.
  intros [_ Hr Hw Hc]. unfold pcount, u32 in *. destruct (Z.eqb_spec (nread q) (nwrite q)) as [E|E]; symmetry;
    [apply Z.eqb_eq|apply Z.eqb_neq]; Z.div_mod_to_equations; lia.
Qed.

Lemma queue_put (q : pipe) (c : Z) : pipe_ok q -> pcount q < PIPESIZE ->
  pipe_ok (pipe_put c q) /\ pcount (pipe_put c q) = pcount q + 1 /\ pqueue (pipe_put c q) = pqueue q ++ [c].
Proof.
  intros [Hl Hr Hw Hc] Hlt. unfold PIPESIZE in *.
  assert (Ec : pcount (pipe_put c q) = pcount q + 1) by (unfold pcount, pipe_put, u32 in *; cbn; Z.div_mod_to_equations; lia).
  assert (Hn : 0 <= pcount q) by (unfold pcount, u32; apply Z.mod_pos_bound; reflexivity).
  split_and!; [split| |].
  - cbn. rewrite length_insert. exact Hl.
  - exact Hr.
  - unfold pipe_put, u32. cbn. apply Z.mod_pos_bound. reflexivity.
  - rewrite Ec. unfold PIPESIZE. lia.
  - exact Ec.
  - unfold pqueue. rewrite Ec. replace (Z.to_nat (pcount q + 1)) with (S (Z.to_nat (pcount q))) by lia. rewrite seq_S, map_app. cbn [map]. unfold PIPESIZE. f_equal.
    + apply map_ext_in. intros k Hk. apply in_seq in Hk. unfold byte_at, pipe_put, PIPESIZE. cbn [pdata nread]. simpl. rewrite list_lookup_insert_ne; [reflexivity|].
      unfold pcount, u32 in *. intros E. apply Z2Nat.inj in E; Z.div_mod_to_equations; lia.
    + f_equal. unfold byte_at, pipe_put, PIPESIZE. cbn [pdata nread]. simpl.
      replace ((nread q + Z.of_nat (Z.to_nat (pcount q))) mod 512) with (nwrite q mod 512) by (unfold pcount, u32 in *; Z.div_mod_to_equations; lia).
      rewrite list_lookup_insert_eq; [reflexivity|]. rewrite Hl. Z.div_mod_to_equations. lia.
Qed.

Definition pipe_take (q : pipe) : pipe := q <| nread := u32 (nread q + 1) |>.

Lemma queue_take (q : pipe) : pipe_ok q -> 0 < pcount q ->
  pipe_ok (pipe_take q) /\ pcount (pipe_take q) = pcount q - 1 /\ pqueue q = byte_at (pdata q) (nread q mod PIPESIZE) :: pqueue (pipe_take q).
Proof.
  intros [Hl Hr Hw Hc] Hlt. unfold PIPESIZE in *.
  assert (Ec : pcount (pipe_take q) = pcount q - 1) by (unfold pcount, pipe_take, u32 in *; cbn; Z.div_mod_to_equations; lia).
  split_and!; [split; [exact Hl| |exact Hw|rewrite Ec; unfold PIPESIZE; lia]|exact Ec|].
  - unfold pipe_take, u32. cbn. apply Z.mod_pos_bound. reflexivity.
  - unfold pqueue. rewrite Ec. replace (Z.to_nat (pcount q)) with (S (Z.to_nat (pcount q - 1))) by lia. cbn [seq map]. f_equal; [f_equal; f_equal; lia|].
    rewrite <- seq_shift, map_map. apply map_ext. intros k. unfold pipe_take, PIPESIZE. cbn [pdata nread]. simpl. f_equal. unfold u32. Z.div_mod_to_equations. lia.
Qed.

(** ** User memory *)

Section Memory.
Context {L : Linker}.

Lemma user_page (x : Z) : 0 <= x < KERNBASE -> 0 <= x / PGSIZE < UPAGES /\ 0 <= x < 2 ^ 32.
Proof. unfold KERNBASE, PGSIZE, UPAGES. intros H. Z.div_mod_to_equations. lia. Qed.

Definition uwritable (m : gmap Z Z) (d v : Z) : Prop :=
  umapped m d v /\ writable_pte (rd32 m (d + 4 * (v / 1024))) = true /\ writable_pte (pte m d v) = true.

Lemma translate_user (m : gmap Z Z) (d x : Z) (w : bool) : 0 <= x < KERNBASE -> umapped m d (x / PGSIZE) ->
  (w = true -> uwritable m d (x / PGSIZE)) -> translate m d x w = Some (frame_at m d (x / PGSIZE) + x mod PGSIZE).
Proof.
  intros Hx Hu Hw. destruct (user_page x Hx) as [_ Hx']. pose proof (umapped_has_table m d _ Hu) as Ht. destruct Hu as [_ Hp].
  unfold translate. rewrite PDX_vpage, PTX_eq by exact Hx'. unfold has_table in Ht. rewrite Ht.
  assert (Ep : rd32 m (P2V (PTE_ADDR (rd32 m (d + 4 * (x / PGSIZE / 1024)))) + 4 * (x / PGSIZE mod 1024)) = pte m d (x / PGSIZE)).
  { unfold pte, has_table. rewrite Ht. reflexivity. }
  rewrite Ep, Hp. cbn [andb]. destruct w; [|reflexivity]. destruct (Hw eq_refl) as (_ & H1 & H2). rewrite H1, H2. reflexivity.
Qed.

Lemma uload8_run (s : kernel) (d x : Z) : page d -> k_cr3 s = V2P d -> 0 <= x < KERNBASE -> umapped (k_mem s) d (x / PGSIZE) ->
  uload8 x s = Done (uread (k_mem s) d x) s.
Proof.
  intros Hd Hc Hx Hu. unfold uload8, uaddr, mbind, M_bind, get. cbn. rewrite Hc, P2V_V2P by exact Hd.
  rewrite (translate_user _ d x false Hx Hu) by discriminate. reflexivity.
Qed.

Lemma ustore8_run (s : kernel) (d x c : Z) : page d -> k_cr3 s = V2P d -> 0 <= x < KERNBASE -> uwritable (k_mem s) d (x / PGSIZE) ->
  ustore8 x c s = Done tt (s <| k_mem ::= wr (frame_at (k_mem s) d (x / PGSIZE) + x mod PGSIZE) (u8 c) |>).
Proof.
  intros Hd Hc Hx Hu. unfold ustore8, uaddr, mbind, M_bind, get. cbn. rewrite Hc, P2V_V2P by exact Hd.
  rewrite (translate_user _ d x true Hx (proj1 Hu) (fun _ => Hu)). reflexivity.
Qed.

(** The mappings of an address space. *)
Definition same_map (d : Z) (m m' : gmap Z Z) : Prop :=
  (forall v, 0 <= v < NVPAGE -> pte m' d v = pte m d v) /\ (forall x, 0 <= x < 1024 -> rd32 m' (d + 4 * x) = rd32 m (d + 4 * x)).

Lemma same_map_refl (d : Z) (m : gmap Z Z) : same_map d m m.
Proof. split; reflexivity. Qed.

Lemma same_map_trans (d : Z) (m1 m2 m3 : gmap Z Z) : same_map d m1 m2 -> same_map d m2 m3 -> same_map d m1 m3.
Proof. intros [A1 B1] [A2 B2]. split; intros x Hx; [rewrite A2, A1|rewrite B2, B1]; auto. Qed.

Lemma same_umapped (d v : Z) (m m' : gmap Z Z) : same_map d m m' -> umapped m' d v <-> umapped m d v.
Proof. intros [A _]. unfold umapped. split; intros [H1 H2]; (split; [exact H1|]); rewrite A in * by (unfold UPAGES, NVPAGE in *; lia); exact H2. Qed.

Lemma same_frame (d v : Z) (m m' : gmap Z Z) : same_map d m m' -> umapped m d v -> frame_at m' d v = frame_at m d v.
Proof. intros [A _] Hu. unfold frame_at. rewrite A by apply (umapped_vpage _ _ _ Hu). reflexivity. Qed.

Lemma same_writable (d v : Z) (m m' : gmap Z Z) : same_map d m m' -> uwritable m d v -> uwritable m' d v.
Proof.
  intros H (H1 & H2 & H3). pose proof (umapped_vpage _ _ _ H1) as Hv. destruct (vpage_split v Hv) as [Hv1 _].
  split_and!; [apply (same_umapped d v m m' H), H1|rewrite (proj2 H) by exact Hv1; exact H2|rewrite (proj1 H) by exact Hv; exact H3].
Qed.

(** A page that is not part of the address space. *)
Definition outside (m : gmap Z Z) (d f : Z) : Prop := ~ in_table m d f /\ forall v, umapped m d v -> frame_at m d v <> f.

(** A byte is stored in a page of another address space. *)
Lemma store_outside (s : kernel) (d f off c : Z) (l : list Z) : space_ok s d l -> page f -> (f ∉ l) -> outside (k_mem s) d f -> 0 <= off < PGSIZE ->
  let t := s <| k_mem ::= wr (f + off) c |> in
  space_ok t d l /\ same_map d (k_mem s) (k_mem t) /\ (forall x, umapped (k_mem s) d (x / PGSIZE) -> uread (k_mem t) d x = uread (k_mem s) d x).
Proof.
  intros Hok Hp Hn [Ht Hu] Ho t. assert (Hm : forall w, page w -> w <> f -> agree (k_mem s) (k_mem t) w).
  { intros w Hw Hne. apply (agree_wr_list (k_mem s) w f (f + off) [c]); try assumption; cbn; lia. }
  pose proof Hok as [ [Hf [Hd Hnd] Htab Hinj] Hfr Hui].
  assert (Ad : agree (k_mem s) (k_mem t) d) by (apply Hm; [exact Hd|intros ->; apply Ht; left; reflexivity]).
  assert (Sm : same_map d (k_mem s) (k_mem t)).
  { split.
    - intros v. apply agree_pte; [exact Ad|]. intros x Hx Hh. apply Hm; [apply Htab; assumption|]. intros <-. apply Ht. right. eauto.
    - intros x Hx. apply (agree_rd32 _ _ d); [exact Ad|lia|unfold PGSIZE; lia]. }
  assert (In : forall w, in_table (k_mem t) d w -> in_table (k_mem s) d w).
  { intros w [->|(x & Hx & Hh & ->)]; [left; reflexivity|]. right. exists x. destruct (agree_table _ _ d x Ad Hx) as [G1 G2]. rewrite G1 in Hh. rewrite G2. auto. }
  split_and!; [split| exact Sm|].
  - apply (vm_ok_frame s); [apply Hok|reflexivity|exact Ad|]. intros w Hw. destruct Hf as (_ & _ & Hf). rewrite Forall_forall in Hf. apply Hm; [apply Hf, Hw|intros ->; done].
  - intros v Hv. apply (same_umapped d v _ _ Sm) in Hv. rewrite (same_frame d v _ _ Sm Hv). destruct (Hfr v Hv) as (H1 & H2 & H3). split_and!; auto.
  - intros v w Hv Hw. apply (same_umapped d _ _ _ Sm) in Hv, Hw. rewrite (same_frame d v _ _ Sm Hv), (same_frame d w _ _ Sm Hw). apply Hui; assumption.
  - intros x Hx. unfold uread. rewrite (same_frame d _ _ _ Sm Hx). pose proof (Z.mod_pos_bound x PGSIZE eq_refl) as Hb.
    apply (Hm (frame_at (k_mem s) d (x / PGSIZE))); [apply (Hfr _ Hx)|apply Hu, Hx|lia].
Qed.

(** A byte is stored in user memory. *)
Lemma store_inside (s : kernel) (d x c : Z) (l : list Z) : space_ok s d l -> umapped (k_mem s) d (x / PGSIZE) ->
  let t := s <| k_mem ::= wr (frame_at (k_mem s) d (x / PGSIZE) + x mod PGSIZE) c |> in
  space_ok t d l /\ same_map d (k_mem s) (k_mem t) /\
  (forall y, umapped (k_mem s) d (y / PGSIZE) -> uread (k_mem t) d y = if decide (y = x) then c else uread (k_mem s) d y).
Proof.
  intros Hok Hu t. pose proof (Z.mod_pos_bound x PGSIZE eq_refl) as Hb. pose proof (Z.div_mod x PGSIZE ltac:(discriminate)) as Ex.
  destruct (put_user s d (x / PGSIZE) (x mod PGSIZE) [c] l Hok Hu) as (O & P & U); [lia|cbn; lia|]. change (s <| k_mem ::= _ |>) with t in O, P, U.
  split_and!; [exact O|split; [exact P|]|].
  - intros y Hy. destruct (so_page _ _ _ Hok _ Hu) as (Hp & _ & Ht). destruct (vo_dir _ _ _ (so_vm _ _ _ Hok)) as [Hd _].
    apply (agree_rd32 (k_mem s) (k_mem t) d); [|lia|unfold PGSIZE; lia].
    apply (agree_wr_list (k_mem s) d (frame_at (k_mem s) d (x / PGSIZE)) _ [c]); [exact Hd|exact Hp|intros E; apply Ht; left; symmetry; exact E|lia|cbn; lia].
  - intros y Hy. rewrite U by exact Hy. cbn [length]. destruct (decide (y = x)) as [->|Hne].
    + rewrite decide_True by lia. replace (x - (x / PGSIZE * PGSIZE + x mod PGSIZE)) with 0 by lia. reflexivity.
    + rewrite decide_False by lia. reflexivity.
Qed.
End Memory.

(** ** Runs that sleep

    [segs enter adv ok o g Q]: the outcome [o] of a piece of code that started
    in the state [sg_start g] when it had done [sg_done g] of its work.  Each
    time it sleeps, [adv] relates that to the work done and the state now; it is
    resumed in any state that satisfies [ok].  It ends with [Q]; it may run out
    of fuel, but only after it has slept. *)

Record seg : Type := mk_seg { sg_slept : bool; sg_done : nat; sg_start : kernel }.

Section Segs.
Context (enter : kernel -> kernel) (adv : seg -> nat -> kernel -> Prop) (ok : kernel -> Prop).

Fixpoint segs {A : Type} (o : outcome kernel A) (g : seg) (Q : A -> seg -> kernel -> Prop) : Prop :=
  match o with
  | Done a t => Q a g t
  | Halt r => r = NoFuel /\ sg_slept g = true
  | Switch t k => exists j, adv g j t /\ forall s, ok s -> segs (k (enter s)) (mk_seg true j s) Q
  end.

Lemma segs_mono {A : Type} (o : outcome kernel A) (Q Q' : A -> seg -> kernel -> Prop) : (forall a g t, Q a g t -> Q' a g t) ->
  forall g, segs o g Q -> segs o g Q'.
Proof.
  intros H. induction o as [a t|r|t k IH]; intros g Ho; simpl in *; [auto|exact Ho|].
  destruct Ho as (j & Ha & Hk). exists j. split; [exact Ha|]. intros s Hs. apply IH, Hk, Hs.
Qed.

Lemma segs_bind {A B : Type} (m : K A) (f : A -> K B) (s : kernel) (g : seg) (Q : B -> seg -> kernel -> Prop) :
  segs (m s) g (fun a g' t => segs (f a t) g' Q) -> segs ((m ≫= f) s) g Q.
Proof.
  unfold mbind, M_bind. generalize (m s). intros o. revert g. induction o as [a t|r|t k IH]; intros g Ho; simpl in *; [exact Ho|exact Ho|].
  destruct Ho as (j & Ha & Hk). exists j. split; [exact Ha|]. intros s' Hs. apply IH, Hk, Hs.
Qed.

Lemma segs_seq {A B : Type} (m : K A) (f : A -> K B) (s : kernel) (g : seg) (P : A -> seg -> kernel -> Prop) (Q : B -> seg -> kernel -> Prop) :
  segs (m s) g P -> (forall a g' t, P a g' t -> segs (f a t) g' Q) -> segs ((m ≫= f) s) g Q.
Proof. intros H Hf. apply segs_bind. eapply segs_mono; [exact Hf|exact H]. Qed.

Lemma segs_done {A B : Type} (m : K A) (f : A -> K B) (s t : kernel) (a : A) (g : seg) (Q : B -> seg -> kernel -> Prop) :
  m s = Done a t -> segs (f a t) g Q -> segs ((m ≫= f) s) g Q.
Proof. intros E H. rewrite (bind_Done m f s t a E). exact H. Qed.
End Segs.

(** [sleep] gives up the processor once, and returns when it is resumed. *)
Lemma sleep_switch (ch : chan) (lk : lockid) (s : kernel) (i : nat) (pr : proc) :
  lk <> ptable_lock -> k_held s = [lk] -> k_cur s = Some i -> k_procs s !! i = Some pr ->
  exists k, sleep ch lk s = Switch (slept i ch s) k /\ forall s', k_held s' = [ptable_lock] -> k s' = Done tt (awake i lk s').
Proof.
  intros Hlk Hh Hc Hp. unfold sleep. rewrite (bind_Done _ _ _ _ _ (myproc_some i s Hc)). rewrite bool_decide_eq_false_2 by exact Hlk.
  assert (E : (acquire ptable_lock;; release lk) s = Done tt (s <| k_held := [ptable_lock] |>)).
  { rewrite (bind_Done _ _ _ _ _ (acquire_free ptable_lock s ltac:(rewrite Hh; set_solver))).
    rewrite (release_second ptable_lock lk); [reflexivity|cbn; rewrite Hh; reflexivity|congruence]. }
  rewrite (bind_Done _ _ _ _ _ E). do 2 rewrite (bind_Done _ _ _ _ _ (upd_proc_run _ _ _)).
  change (upd k_procs (alter (fun p0 => p0 <| state := SLEEPING |>) i) (upd k_procs _ _)) with (slept i ch s).
  assert (Es : sched (slept i ch s) = Switch (slept i ch s) (fun s' => Done tt s')).
  { unfold sched. rewrite (bind_Done _ _ _ _ _ (curproc_some i (slept i ch s) Hc)), (bind_Done _ _ _ _ _ (get_run _)).
    unfold holding. rewrite bool_decide_eq_true_2 by (cbn; set_solver). cbn [negb k_held slept]. simpl.
    rewrite (bind_Done _ _ _ _ _ (proc_at_some i _ (slept i ch s) (slept_proc i ch s pr Hp))). rewrite bool_decide_eq_false_2 by discriminate. reflexivity. }
  unfold mbind at 1, M_bind at 1. rewrite Es. simpl. eexists. split; [reflexivity|]. intros s' Hh'. cbv beta.
  rewrite (bind_Done _ _ _ _ _ (upd_proc_run _ _ _)).
  set (s1 := upd k_procs _ s'). rewrite (bind_Done _ _ _ _ _ (release_head ptable_lock [] s1 Hh' ltac:(set_solver))).
  apply acquire_free. cbn. set_solver.
Qed.

(** A process that sleeps in a call goes on: the scheduler takes ptable.lock,
    which the process releases when it is back from [sched].  When it has
    switched to the scheduler again, that one releases the lock.  The locks that
    are held are those of the state, no more and no less. *)
Definition resume {A : Type} (enter : kernel -> kernel) (c : K A) : K A := acquire ptable_lock;; modify enter;; c.

Definition asleep {A : Type} (c : kernel -> outcome kernel A) : K A := fun t => Switch t c.

Definition handed_back {A : Type} (o : outcome kernel A) : outcome kernel A :=
  match o with Switch t c => (release ptable_lock;; asleep c) t | _ => o end.

Lemma resume_run {A : Type} (enter : kernel -> kernel) (c : K A) (s : kernel) : k_held s = [] ->
  resume enter c s = c (enter (s <| k_held ::= cons ptable_lock |>)).
Proof. intros H. unfold resume. rewrite (bind_Done _ _ _ _ _ (acquire_free ptable_lock s ltac:(rewrite H; set_solver))). reflexivity. Qed.

Lemma handed_back_run {A : Type} (t : kernel) (c : kernel -> outcome kernel A) : k_held t = [ptable_lock] -> handed_back (Switch t c) = Switch (t <| k_held := [] |>) c.
Proof. intros H. unfold handed_back. rewrite (bind_Done _ _ _ _ _ (release_head ptable_lock [] t H ltac:(set_solver))). reflexivity. Qed.

(** ** The two processes and the pipe *)

Definition killed_in (s : kernel) (i : nat) : Prop := exists pr, k_procs s !! i = Some pr /\ killed pr <> 0.

(** The process is in the table. *)
Definition alive (ps : list proc) (i : nat) : Prop := is_Some (ps !! i).

Lemma alive_alter (ps : list proc) (i j : nat) (f : proc -> proc) : alive ps i -> alive (alter f j ps) i.
Proof.
  intros [pr Hp]. destruct (decide (i = j)) as [->|Hne]; unfold alive.
  - rewrite list_lookup_alter_eq, Hp. eauto.
  - rewrite list_lookup_alter_ne by congruence. eauto.
Qed.

Lemma alive_wake (ps : list proc) (i : nat) (ch : option chan) : alive ps i -> alive (map (wake ch) ps) i.
Proof. intros [pr Hp]. unfold alive. rewrite list_lookup_fmap, Hp. eauto. Qed.

(** The scheduler switches to process [i]. *)
Definition dispatch (i : nat) (d : Z) (s : kernel) : kernel :=
  s <| k_cur := Some i |> <| k_cr3 := V2P d |> <| k_procs ::= alter (fun pr => pr <| state := RUNNING |>) i |>.

Definition resumed (i : nat) (d : Z) (s : kernel) : kernel := dispatch i d (s <| k_held ::= cons ptable_lock |>).

Definition on_cpu (i : nat) (d : Z) (held : list lockid) (s : kernel) : Prop := k_cur s = Some i /\ k_cr3 s = V2P d /\ k_held s = held.

(** [n] bytes of user memory. *)
Definition ubytes (m : gmap Z Z) (d addr : Z) (n : nat) : list Z := map (fun i => uread m d (addr + Z.of_nat i)) (seq 0 n).

Section Pair.
Context {F : Fuel} {L : Linker} (p : Z) (wp rp : nat) (wdir rdir : Z).

(** The pipe, its writer [wp] and its reader [rp] in the table of processes, and
    their pages, which are different.  Either end may have been closed and
    either process killed. *)
Record pstate (s : kernel) (q : pipe) : Prop := {
  ps_pipe : k_pipes s !! p = Some q;
  ps_ok : pipe_ok q;
  ps_bytes : Forall is_byte (pqueue q);
  ps_alive : alive (k_procs s) wp /\ alive (k_procs s) rp;
  ps_space : exists l, space_ok s wdir l /\ space_ok s rdir l;
  ps_apart : forall v, umapped (k_mem s) rdir v -> outside (k_mem s) wdir (frame_at (k_mem s) rdir v)
}.

(** What changes neither the pipe nor memory. *)
Lemma pstate_ext (s t : kernel) (q : pipe) : k_pipes t = k_pipes s -> k_mem t = k_mem s -> k_freelist t = k_freelist s ->
  (forall i, alive (k_procs s) i -> alive (k_procs t) i) -> pstate s q -> pstate t q.
Proof.
  intros E1 E2 E3 Ha [H1 H2 H3 [H5 H5'] (l & H6 & H6') H7]. split; rewrite ?E1, ?E2; auto.
  exists l. split; eapply space_ok_ext; eassumption.
Qed.

Lemma pstate_pipe (s : kernel) (q q' : pipe) : pstate s q -> pipe_ok q' -> Forall is_byte (pqueue q') ->
  pstate (s <| k_pipes ::= <[p := q']> |>) q'.
Proof.
  intros [H1 H2 H3 H5 (l & H6 & H6') H7] Ho Hb. split; [|exact Ho|exact Hb|exact H5| |exact H7].
  - cbn. apply lookup_insert_eq.
  - exists l. split; [apply (space_ok_ext s); [reflexivity|reflexivity|exact H6]|apply (space_ok_ext s); [reflexivity|reflexivity|exact H6']].
Qed.

Lemma alter_pipe (f : pipe -> pipe) (s : kernel) (q : pipe) : k_pipes s !! p = Some q -> upd_pipe p f s = Done tt (s <| k_pipes ::= <[p := f q]> |>).
Proof.
  intros H. unfold upd_pipe. rewrite modify_run. f_equal. unfold upd. f_equal. f_equal. apply map_eq. intros i.
  destruct (decide (i = p)) as [->|Hne]; [rewrite lookup_alter_eq, lookup_insert_eq, H; reflexivity|rewrite lookup_alter_ne, lookup_insert_ne by congruence; reflexivity].
Qed.

Lemma pipe_at_some (s : kernel) (q : pipe) : k_pipes s !! p = Some q -> pipe_at p s = Done q s.
Proof. intros H. unfold pipe_at, mbind, M_bind, get. simpl. rewrite H. reflexivity. Qed.

Lemma dispatch_pstate (i : nat) (d : Z) (s : kernel) (q : pipe) : pstate s q -> pstate (dispatch i d s) q.
Proof. apply pstate_ext; try reflexivity. intros j. apply alive_alter. Qed.

Lemma resumed_pstate (i : nat) (d : Z) (s : kernel) (q : pipe) : pstate s q -> pstate (resumed i d s) q.
Proof. apply pstate_ext; try reflexivity. intros j. apply alive_alter. Qed.

Lemma held_pstate (held : list lockid) (s : kernel) (q : pipe) : pstate s q -> pstate (s <| k_held := held |>) q.
Proof. apply pstate_ext; auto. Qed.

Lemma wake_pstate (ch : option chan) (s : kernel) (q : pipe) : pstate s q -> pstate (s <| k_procs ::= map (wake ch) |>) q.
Proof. apply pstate_ext; try reflexivity. intros j. apply alive_wake. Qed.

Lemma slept_pstate (i : nat) (ch : chan) (s : kernel) (q : pipe) : pstate s q -> pstate (slept i ch s) q.
Proof. apply pstate_ext; try reflexivity. intros j Hj. apply alive_alter, alive_alter, Hj. Qed.

Lemma awake_pstate (i : nat) (lk : lockid) (s : kernel) (q : pipe) : pstate s q -> pstate (awake i lk s) q.
Proof. apply pstate_ext; try reflexivity. intros j. apply alive_alter. Qed.

(** The ends that are open. *)
Definition same_ends (q q' : pipe) : Prop := readopen q' = readopen q /\ writeopen q' = writeopen q.

(** ** The writer *)

Section Writer.
Context (addr : Z) (data : list Z).

(** The data is in the writer's memory. *)
Record wbuf (m : gmap Z Z) : Prop := {
  wb_range : 0 <= addr /\ addr + Z.of_nat (length data) <= KERNBASE;
  wb_bytes : Forall is_byte data;
  wb_data : forall i b, data !! i = Some b -> umapped m wdir ((addr + Z.of_nat i) / PGSIZE) /\ uread m wdir (addr + Z.of_nat i) = b
}.

(** Since the last time the writer was resumed, bytes [j] to [i] have been added. *)
Definition added (s t : kernel) (j i : nat) : Prop :=
  exists q q', pstate s q /\ pstate t q' /\ k_mem t = k_mem s /\ (j <= i <= length data)%nat /\
    pqueue q' = pqueue q ++ take (i - j) (drop j data) /\ same_ends q q'.

Definition wok (s : kernel) : Prop := (exists q, pstate s q) /\ wbuf (k_mem s) /\ k_held s = [].

(** The writer sleeps: the buffer is full. *)
Definition wadv (g : seg) (j : nat) (t : kernel) : Prop :=
  added (sg_start g) t (sg_done g) j /\ (j < length data)%nat /\ k_held t = [ptable_lock] /\ exists q, k_pipes t !! p = Some q /\ pcount q = PIPESIZE.

(** The writer has given up after [i] bytes: the buffer is full and nobody will
    read, or the process has been killed. *)
Definition wleft (g : seg) (i : nat) (t : kernel) : Prop :=
  added (sg_start g) t (sg_done g) i /\ (i < length data)%nat /\ k_held t = [] /\
  exists q, k_pipes t !! p = Some q /\ pcount q = PIPESIZE /\ (readopen q = 0 \/ killed_in t wp).

Definition wmid (g : seg) (i : nat) (t : kernel) : Prop :=
  added (sg_start g) t (sg_done g) i /\ wbuf (k_mem (sg_start g)) /\ on_cpu wp wdir [pipe_lock p] t.

Definition wsegs {A : Type} := @segs (resumed wp wdir) wadv wok A.

Lemma added_next (s t t' : kernel) (j i : nat) (q : pipe) : added s t j i -> k_pipes t !! p = Some q -> pstate t' q -> k_mem t' = k_mem t -> added s t' j i.
Proof.
  intros (q0 & q1 & H1 & H2 & H3 & H4 & H5 & H6) Hq Hp Hm. assert (q1 = q) as -> by (pose proof (ps_pipe _ _ H2); congruence).
  exists q0, q. split_and!; auto; try lia. congruence.
Qed.

Lemma added_state (s t : kernel) (j i : nat) : added s t j i -> exists q, pstate t q.
Proof. intros (q0 & q1 & _ & H & _). eauto. Qed.

(** [pipe_room] returns when the buffer has room. *)
Lemma pipe_room_segs (n : nat) : forall g i t, (n = 0%nat -> sg_slept g = true) -> wmid g i t -> (i < length data)%nat ->
  wsegs (while_loop n (fun _ : unit =>
    q ← pipe_at p;
    if nwrite q =? u32 (nread q + PIPESIZE) then
      c ← curproc; pr ← proc_at c;
      if (readopen q =? 0) || negb (killed pr =? 0) then
        release (pipe_lock p);; mret (inr false)
      else
        wakeup (CPipeRead p);;
        sleep (CPipeWrite p) (pipe_lock p);;
        mret (inl tt)
    else mret (inr true)) tt t) g (fun ok g' t' => if ok : bool then wmid g' i t' /\ exists q, k_pipes t' !! p = Some q /\ pcount q < PIPESIZE else wleft g' i t').
Proof.
  induction n as [|n IH]; intros g i t Hn Hm Hi; [split; [reflexivity|apply Hn; reflexivity]|]. destruct Hm as (Ha & Hb & Hc & Hr & Hh).
  destruct (added_state _ _ _ _ Ha) as [q Hq]. pose proof (ps_pipe _ _ Hq) as Hp. cbn [while_loop]. apply segs_bind.
  eapply segs_done; [apply pipe_at_some, Hp|]. rewrite (queue_full q (ps_ok _ _ Hq)). destruct (Z.eqb_spec (pcount q) PIPESIZE) as [Ef|Ef].
  - eapply segs_done; [apply curproc_some, Hc|]. destruct (proj1 (ps_alive _ _ Hq)) as (pr & Hpr). eapply segs_done; [apply proc_at_some, Hpr|].
    destruct ((readopen q =? 0) || negb (killed pr =? 0)) eqn:Eg.
    { eapply segs_done; [apply (release_head (pipe_lock p) []); [exact Hh|set_solver]|]. cbn. split_and!; [|exact Hi|reflexivity|exists q; split_and!; [exact Hp|exact Ef|] ].
      - apply (added_next _ t _ _ _ q Ha Hp); [apply held_pstate, Hq|reflexivity].
      - apply orb_prop in Eg as [Eg|Eg]; [left; apply Z.eqb_eq, Eg|right]. exists pr. split; [exact Hpr|]. apply Z.eqb_neq, negb_true_iff, Eg. }
    eapply segs_done; [apply wakeup_run; rewrite Hh; set_solver|]. set (t1 := t <| k_procs ::= _ |>). pose proof (wake_pstate (Some (CPipeRead p)) t q Hq) as Hq1. fold t1 in Hq1.
    destruct (proj1 (ps_alive _ _ Hq1)) as (pr1 & Hpr1).
    destruct (sleep_switch (CPipeWrite p) (pipe_lock p) t1 wp pr1) as (k & Ek & Hk'); [discriminate|exact Hh|exact Hc|exact Hpr1|].
    apply segs_bind. rewrite Ek. exists i. split.
    { split_and!; [|exact Hi|reflexivity|exists q; split; [exact Hp|exact Ef] ]. apply (added_next _ t _ _ _ q Ha Hp); [apply slept_pstate, Hq1|reflexivity]. }
    intros s ([q2 Hq2] & Hb2 & Hh2). rewrite Hk' by (cbn; rewrite Hh2; reflexivity). apply (IH (mk_seg true i s) i); [reflexivity| |exact Hi].
    split_and!; [|exact Hb2|split_and!; reflexivity]. exists q2, q2. split_and!; [exact Hq2|apply awake_pstate, resumed_pstate, Hq2|reflexivity|cbn; lia|cbn; lia| |split; reflexivity].
    cbn [sg_done sg_start]. rewrite Nat.sub_diag. symmetry. apply app_nil_r.
  - cbn. split_and!; [split; [exact Ha|split; [exact Hb|split_and!; assumption] ]|]. exists q. split; [exact Hp|]. pose proof (po_count _ (ps_ok _ _ Hq)). lia.
Qed.

Lemma segs_wroom (g : seg) (i : nat) (t : kernel) : wmid g i t -> (i < length data)%nat ->
  wsegs (pipe_room p t) g (fun ok g' t' => if ok : bool then wmid g' i t' /\ exists q, k_pipes t' !! p = Some q /\ pcount q < PIPESIZE else wleft g' i t').
Proof. intros Hm Hi. apply (pipe_room_segs fuel g i t); [discriminate|exact Hm|exact Hi]. Qed.

(** A byte goes into the buffer. *)
Lemma put_added (s t : kernel) (j i : nat) (c : Z) (q : pipe) : added s t j i -> k_pipes t !! p = Some q -> pcount q < PIPESIZE -> data !! i = Some c -> is_byte c ->
  added s (t <| k_pipes ::= <[p := pipe_put c q]> |>) j (S i).
Proof.
  intros (q0 & q1 & H1 & H2 & H3 & [H4 H4'] & H5 & H6) Hq Hc Hd Hb. assert (q1 = q) as -> by (pose proof (ps_pipe _ _ H2); congruence).
  destruct (queue_put q c (ps_ok _ _ H2) Hc) as (O & _ & Eq). exists q0, (pipe_put c q). pose proof (lookup_lt_Some _ _ _ Hd) as Hi.
  split_and!; [exact H1| |exact H3|lia|lia| |exact H6].
  - apply pstate_pipe with (q := q); [exact H2|exact O|]. rewrite Eq. apply Forall_app. split; [apply H2|]. constructor; [exact Hb|constructor].
  - rewrite Eq, H5, <- app_assoc. f_equal. replace (S i - j)%nat with (S (i - j)) by lia.
    rewrite (take_S_r _ _ c); [reflexivity|]. rewrite lookup_drop. replace (j + (i - j))%nat with i by lia. exact Hd.
Qed.

Lemma pipewrite_loop_segs (m : nat) : forall g i t, wmid g i t -> (i + m = length data)%nat ->
  wsegs (pipewrite_loop m p addr (Z.of_nat i) t) g (fun ok g' t' => if ok : bool then wmid g' (length data) t' else exists i', wleft g' i' t').
Proof.
  induction m as [|m IH]; intros g i t Hm Hi; cbn [pipewrite_loop].
  { replace (length data) with i by lia. exact Hm. }
  eapply segs_seq; [apply segs_wroom; [exact Hm|lia]|]. intros [|] g' t' Hok; cbn [negb]; [|cbn; exists i; exact Hok]. destruct Hok as ((Ha & Hb & Hc & Hr & Hh) & q & Hq & Hl).
  destruct (lookup_lt_is_Some_2 data i ltac:(lia)) as [c Hd]. pose proof Hb as [ [R1 R2] By Wd]. destruct (Wd i c Hd) as [Um Er].
  assert (Ek : k_mem t' = k_mem (sg_start g')) by (destruct Ha as (q0 & q1 & _ & _ & H & _); exact H).
  assert (Hi' : 0 <= addr + Z.of_nat i < KERNBASE) by lia.
  assert (Hpd : page wdir) by (destruct (added_state _ _ _ _ Ha) as [q1 Hq1]; destruct (ps_space _ _ Hq1) as (l & Hs & _); apply (vo_dir _ _ _ (so_vm _ _ _ Hs))).
  eapply segs_done.
  { rewrite u32_small by (unfold KERNBASE in Hi'; lia). apply (uload8_run t' wdir); [exact Hpd|exact Hr|exact Hi'|rewrite Ek; exact Um]. }
  rewrite Ek, Er. eapply segs_done; [apply alter_pipe, Hq|]. replace (Z.of_nat i + 1) with (Z.of_nat (S i)) by lia.
  apply IH; [|lia]. split; [|split; [exact Hb|split_and!; assumption] ].
  apply put_added; [exact Ha|exact Hq|exact Hl|exact Hd|]. rewrite Forall_forall in By. apply By, (list_elem_of_lookup_2 _ _ _ Hd).
Qed.

(** The call: all the data has been added, the rest of it since the last sleep,
    or the call has failed. *)
Definition wpost (r : Z) (g : seg) (t : kernel) : Prop :=
  (r = Z.of_nat (length data) /\ added (sg_start g) t (sg_done g) (length data) /\ k_held t = []) \/ (r = -1 /\ exists i, wleft g i t).

Lemma pipewrite_segs (s : kernel) : wok s -> wsegs (pipewrite p addr (Z.of_nat (length data)) (dispatch wp wdir s)) (mk_seg false 0 s) wpost.
Proof.
  intros ([q Hq] & Hb & Hn). unfold pipewrite. eapply segs_done; [apply acquire_free; cbn; rewrite Hn; set_solver|].
  eapply segs_seq.
  - rewrite Nat2Z.id. apply (pipewrite_loop_segs (length data) _ 0); [|reflexivity]. split_and!; [|exact Hb|split_and!; [reflexivity|reflexivity|cbn; rewrite Hn; reflexivity] ].
    exists q, q. split_and!; [exact Hq|apply held_pstate, dispatch_pstate, Hq|reflexivity|cbn; lia|cbn; lia|symmetry; apply app_nil_r|split; reflexivity].
  - intros [|] g t Hok; cbn [negb]; [|right; split; [reflexivity|exact Hok] ]. destruct Hok as (Ha & Hb' & Hc & Hr & Hh). destruct (added_state _ _ _ _ Ha) as [q1 Hq1]. pose proof (ps_pipe _ _ Hq1) as Hp1.
    eapply segs_done; [apply wakeup_run; rewrite Hh; set_solver|]. eapply segs_done; [apply (release_head (pipe_lock p) []); [exact Hh|set_solver]|].
    left. split_and!; [reflexivity| |reflexivity]. apply (added_next _ t _ _ _ q1 Ha Hp1); [apply held_pstate, wake_pstate, Hq1|reflexivity].
Qed.
End Writer.

(** ** The reader *)

(** Memory has changed in the reader's pages only. *)
Definition kept_spaces (m m' : gmap Z Z) : Prop :=
  same_map wdir m m' /\ same_map rdir m m' /\ forall x, umapped m wdir (x / PGSIZE) -> uread m' wdir x = uread m wdir x.

Lemma spaces_refl (m : gmap Z Z) : kept_spaces m m.
Proof. split_and!; [apply same_map_refl..|reflexivity]. Qed.

Lemma spaces_trans (m1 m2 m3 : gmap Z Z) : kept_spaces m1 m2 -> kept_spaces m2 m3 -> kept_spaces m1 m3.
Proof.
  intros (A1 & B1 & C1) (A2 & B2 & C2). split_and!; [eapply same_map_trans; eassumption..|]. intros x Hx.
  rewrite C2 by (apply (same_umapped _ _ _ _ A1); exact Hx). apply C1, Hx.
Qed.

(** A store of the reader. *)
Lemma reader_store (s : kernel) (q : pipe) (x c : Z) : pstate s q -> umapped (k_mem s) rdir (x / PGSIZE) ->
  let t := s <| k_mem ::= wr (frame_at (k_mem s) rdir (x / PGSIZE) + x mod PGSIZE) c |> in
  pstate t q /\ kept_spaces (k_mem s) (k_mem t) /\
  (forall y, umapped (k_mem s) rdir (y / PGSIZE) -> uread (k_mem t) rdir y = if decide (y = x) then c else uread (k_mem s) rdir y).
Proof.
  intros [H1 H2 H3 H5 (l & H6 & H6') H7] Hu t. destruct (so_page _ _ _ H6' _ Hu) as (Hp & Hn & _). pose proof (Z.mod_pos_bound x PGSIZE eq_refl) as Hb.
  destruct (store_outside s wdir _ (x mod PGSIZE) c l H6 Hp Hn (H7 _ Hu) Hb) as (O1 & M1 & U1).
  destruct (store_inside s rdir x c l H6' Hu) as (O2 & M2 & U2). fold t in O1, M1, U1, O2, M2, U2.
  split_and!; [|split_and!; assumption|exact U2]. split; [exact H1|exact H2|exact H3|exact H5|exists l; split; assumption|].
  intros v Hv. apply (same_umapped _ _ _ _ M2) in Hv. rewrite (same_frame _ _ _ _ M2 Hv). destruct (H7 v Hv) as [N1 N2]. split.
  - intros [E|(y & Hy & Hh & E)]; [apply N1; left; exact E|]. apply N1. right. exists y. unfold has_table, table in *.
    rewrite (proj2 M1) in Hh by exact Hy. rewrite (proj2 M1) in E by exact Hy. auto.
  - intros w Hw. apply (same_umapped _ _ _ _ M1) in Hw. rewrite (same_frame _ _ _ _ M1 Hw). apply N2, Hw.
Qed.

Section Reader.
Context (addr n : Z).

Record rbuf (m : gmap Z Z) : Prop := {
  rb_range : 0 <= addr /\ 0 <= n /\ addr + n <= KERNBASE;
  rb_pages : forall i, 0 <= i < n -> uwritable m rdir ((addr + i) / PGSIZE)
}.

(** [i] bytes have been taken out of the buffer, and are in the reader's memory. *)
Definition took (s t : kernel) (i : nat) : Prop :=
  exists q q', pstate s q /\ pstate t q' /\ pqueue q = ubytes (k_mem t) rdir addr i ++ pqueue q' /\ same_ends q q' /\ kept_spaces (k_mem s) (k_mem t).

Definition rok (s : kernel) : Prop := (exists q, pstate s q) /\ rbuf (k_mem s) /\ k_held s = [].

(** Nothing has changed, and there is nothing to read but there may be later. *)
Definition unread (g : seg) (t : kernel) : Prop :=
  k_mem t = k_mem (sg_start g) /\ exists q, pstate (sg_start g) q /\ pstate t q /\ pcount q = 0 /\ writeopen q <> 0.

(** The reader sleeps: the buffer is empty and may be written. *)
Definition radv (g : seg) (j : nat) (t : kernel) : Prop :=
  j = 0%nat /\ unread g t /\ k_held t = [ptable_lock].

(** The reader has given up: its process has been killed. *)
Definition rleft (g : seg) (t : kernel) : Prop := unread g t /\ k_held t = [] /\ killed_in t rp.

Definition rmid (g : seg) (t : kernel) : Prop :=
  k_mem t = k_mem (sg_start g) /\ (exists q, pstate (sg_start g) q /\ pstate t q) /\ rbuf (k_mem t) /\ on_cpu rp rdir [pipe_lock p] t.

Definition rsegs {A : Type} := @segs (resumed rp rdir) radv rok A.

(** There is a byte, or no more will come. *)
Definition filled (q : pipe) : Prop := 0 < pcount q \/ writeopen q = 0.

(** [pipe_filled] returns when there is a byte to read. *)
Lemma pipe_filled_segs (k : nat) : forall g t, (k = 0%nat -> sg_slept g = true) -> rmid g t ->
  rsegs (while_loop k (fun _ : unit =>
    q ← pipe_at p;
    if (nread q =? nwrite q) && negb (writeopen q =? 0) then
      c ← curproc; pr ← proc_at c;
      if negb (killed pr =? 0) then release (pipe_lock p);; mret (inr false)
      else sleep (CPipeRead p) (pipe_lock p);; mret (inl tt)
    else mret (inr true)) tt t) g (fun ok g' t' => if ok : bool then rmid g' t' /\ exists q, k_pipes t' !! p = Some q /\ filled q else rleft g' t').
Proof.
  induction k as [|k IH]; intros g t Hk Hm; [split; [reflexivity|apply Hk; reflexivity]|]. destruct Hm as (Em & (q & Hs & Hq) & Hb & Hc & Hr & Hh).
  pose proof (ps_pipe _ _ Hq) as Hp. cbn [while_loop]. apply segs_bind.
  eapply segs_done; [apply pipe_at_some, Hp|]. rewrite (queue_empty q (ps_ok _ _ Hq)). destruct (Z.eqb_spec (pcount q) 0) as [Ef|Ef].
  - destruct (Z.eqb_spec (writeopen q) 0) as [Ew|Ew]; cbn [andb negb].
    { cbn. split_and!; [split; [exact Em|split; [eauto|split; [exact Hb|split_and!; assumption] ] ]|]. exists q. split; [exact Hp|right; exact Ew]. }
    eapply segs_done; [apply curproc_some, Hc|]. destruct (proj2 (ps_alive _ _ Hq)) as (pr & Hpr). eapply segs_done; [apply proc_at_some, Hpr|].
    destruct (Z.eqb_spec (killed pr) 0) as [Ek|Ek]; cbn [negb].
    2: { eapply segs_done; [apply (release_head (pipe_lock p) []); [exact Hh|set_solver]|]. cbn. split_and!; [split; [exact Em|exists q; split_and!; [exact Hs|apply held_pstate, Hq|exact Ef|exact Ew] ]|reflexivity|].
         exists pr. split; [exact Hpr|exact Ek]. }
    destruct (sleep_switch (CPipeRead p) (pipe_lock p) t rp pr) as (f & Ek' & Hk'); [discriminate|exact Hh|exact Hc|exact Hpr|].
    apply segs_bind. rewrite Ek'. exists 0%nat. split.
    { split_and!; [reflexivity|split; [exact Em|exists q; split_and!; [exact Hs|apply slept_pstate, Hq|exact Ef|exact Ew] ]|reflexivity]. }
    intros s ([q2 Hq2] & Hb2 & Hh2). rewrite Hk' by (cbn; rewrite Hh2; reflexivity). apply (IH (mk_seg true 0 s)); [reflexivity|].
    split_and!; [reflexivity| |exact Hb2|split_and!; reflexivity]. exists q2. split; [exact Hq2|apply awake_pstate, resumed_pstate, Hq2].
  - cbn. split_and!; [split; [exact Em|split; [eauto|split; [exact Hb|split_and!; assumption] ] ]|]. exists q. split; [exact Hp|].
    assert (0 <= pcount q) by (unfold pcount, u32; apply Z.mod_pos_bound; reflexivity). left. lia.
Qed.

Lemma ubytes_S (m : gmap Z Z) (d a : Z) (i : nat) : ubytes m d a (S i) = ubytes m d a i ++ [uread m d (a + Z.of_nat i)].
Proof. unfold ubytes. rewrite seq_S, map_app. reflexivity. Qed.

(** The loop that copies runs to its end without sleeping. *)
Lemma piperead_loop_run (s : kernel) (m : nat) : forall i t, took s t i -> rbuf (k_mem t) -> Z.of_nat i + Z.of_nat m = n -> on_cpu rp rdir [pipe_lock p] t ->
  exists i' t' q, piperead_loop m p addr (Z.of_nat i) t = Done (Z.of_nat i') t' /\ took s t' i' /\ on_cpu rp rdir [pipe_lock p] t' /\
    k_pipes t' !! p = Some q /\ Z.of_nat i' <= n /\ (Z.of_nat i' = n \/ pqueue q = []).
Proof.
  induction m as [|m IH]; intros i t (q0 & q & Hs & Hq & Eq & Es & Ks) Hb Hi Hcpu; pose proof (ps_pipe _ _ Hq) as Hp.
  { exists i, t, q. split_and!; [reflexivity|exists q0, q; auto|exact Hcpu|exact Hp|lia|lia]. }
  cbn [piperead_loop]. rewrite (bind_Done _ _ _ _ _ (pipe_at_some t q Hp)), (queue_empty q (ps_ok _ _ Hq)).
  assert (Hc0 : 0 <= pcount q) by (unfold pcount, u32; apply Z.mod_pos_bound; reflexivity).
  destruct (Z.eqb_spec (pcount q) 0) as [Ef|Ef].
  { exists i, t, q. split_and!; [reflexivity|exists q0, q; auto|exact Hcpu|exact Hp|lia|]. right. apply length_zero_iff_nil. pose proof (length_pqueue q). lia. }
  destruct (queue_take q (ps_ok _ _ Hq) ltac:(lia)) as (O & _ & Et). set (c := byte_at (pdata q) (nread q mod PIPESIZE)) in *.
  pose proof Hb as [ (R1 & R2 & R3) Pg]. pose proof (Pg (Z.of_nat i) ltac:(lia)) as Hw. pose proof (proj1 Hw) as Hu. destruct Hcpu as (Hc & Hr & Hh).
  assert (Hx : 0 <= addr + Z.of_nat i < KERNBASE) by lia.
  assert (Hpd : page rdir) by (destruct (ps_space _ _ Hq) as (l & _ & Hsp); apply (vo_dir _ _ _ (so_vm _ _ _ Hsp))).
  assert (Hby : Forall is_byte (c :: pqueue (pipe_take q))) by (rewrite <- Et; apply (ps_bytes _ _ Hq)). apply Forall_cons in Hby as [Hcb Hby].
  assert (Est : ustore8 (u32 (addr + Z.of_nat i)) c t = Done tt (t <| k_mem ::= wr (frame_at (k_mem t) rdir ((addr + Z.of_nat i) / PGSIZE) + (addr + Z.of_nat i) mod PGSIZE) c |>)).
  { rewrite u32_small by (unfold KERNBASE in Hx; lia). rewrite (ustore8_run t rdir _ c Hpd Hr Hx Hw). rewrite u8_small by exact Hcb. reflexivity. }
  destruct (reader_store t q (addr + Z.of_nat i) c Hq Hu) as (Hq1 & K1 & U1). set (t1 := t <| k_mem ::= _ |>) in *.
  rewrite (bind_Done _ _ _ _ _ Est). fold (pipe_take). rewrite (bind_Done _ _ _ _ _ (alter_pipe pipe_take t1 q (ps_pipe _ _ Hq1))).
  set (t2 := t1 <| k_pipes ::= _ |>). replace (Z.of_nat i + 1) with (Z.of_nat (S i)) by lia. apply IH; [| |lia|split_and!; assumption].
  - exists q0, (pipe_take q). split_and!; [exact Hs|apply pstate_pipe with (q := q); [exact Hq1|exact O|exact Hby]| |exact Es|exact (spaces_trans _ _ _ Ks K1)].
    rewrite Eq, Et, ubytes_S, <- app_assoc. change (k_mem t2) with (k_mem t1). rewrite U1, decide_True by (exact Hu || reflexivity). cbn [app]. f_equal.
    unfold ubytes. apply map_ext_in. intros j Hj. apply in_seq in Hj. rewrite U1, decide_False by (lia || apply (Pg (Z.of_nat j)); lia). reflexivity.
  - split; [auto|]. intros j Hj. apply (same_writable _ _ _ _ (proj1 (proj2 K1))), Pg, Hj.
Qed.

(** The call: it returns as many bytes as there are, at most [n], or fails. *)
Definition rpost (r : Z) (g : seg) (t : kernel) : Prop :=
  k_held t = [] /\ took (sg_start g) t (Z.to_nat r) /\
  exists q, pstate (sg_start g) q /\ ((r = Z.min n (pcount q) /\ filled q) \/ (r = -1 /\ pcount q = 0 /\ writeopen q <> 0 /\ killed_in t rp)).

Lemma piperead_segs (s : kernel) : rok s -> rsegs (piperead p addr n (dispatch rp rdir s)) (mk_seg false 0 s) rpost.
Proof.
  intros ([q Hq] & Hb & Hn). unfold piperead. eapply segs_done; [apply acquire_free; cbn; rewrite Hn; set_solver|].
  eapply segs_seq.
  - apply (pipe_filled_segs fuel (mk_seg false 0 s)); [discriminate|]. split_and!; [reflexivity| |exact Hb|split_and!; [reflexivity|reflexivity|cbn; rewrite Hn; reflexivity] ].
    exists q. split; [exact Hq|apply held_pstate, dispatch_pstate, Hq].
  - intros [|] g t Hok; cbn [negb].
    2: { destruct Hok as ((Em & q1 & Hs1 & Hq1 & E0 & Ew) & Hh & Hk). cbn. split_and!; [exact Hh| |exists q1; split; [exact Hs1|right; auto] ].
         exists q1, q1. split_and!; [exact Hs1|exact Hq1|reflexivity|split; reflexivity|rewrite Em; apply spaces_refl]. }
    destruct Hok as ((Em & (q1 & Hs1 & Hq1) & Hb1 & Hcpu) & q2 & Hq2 & Hpos).
    assert (q2 = q1) as -> by (pose proof (ps_pipe _ _ Hq1); congruence). pose proof Hb1 as [ (R1 & R2 & R3) _].
    destruct (piperead_loop_run (sg_start g) (Z.to_nat n) 0 t) as (i & t' & q3 & E & Tk & Hc' & Hp3 & Hle & Hend); [|exact Hb1|lia|exact Hcpu|].
    { exists q1, q1. split_and!; [exact Hs1|exact Hq1|reflexivity|split; reflexivity|rewrite Em; apply spaces_refl]. }
    eapply segs_done; [exact E|]. destruct Hc' as (_ & _ & Hh). eapply segs_done; [apply wakeup_run; rewrite Hh; set_solver|].
    eapply segs_done; [apply (release_head (pipe_lock p) []); [exact Hh|set_solver]|].
    destruct Tk as (qa & qb & T1 & T2 & T3 & Te & T4). assert (qa = q1) as -> by (pose proof (ps_pipe _ _ T1); pose proof (ps_pipe _ _ Hs1); congruence).
    assert (qb = q3) as -> by (pose proof (ps_pipe _ _ T2); congruence). cbn. split_and!; [reflexivity| |].
    + rewrite Nat2Z.id. exists q1, q3. split_and!; [exact T1|apply held_pstate, wake_pstate, T2|exact T3|exact Te|exact T4].
    + exists q1. split; [exact Hs1|left]. split; [|exact Hpos]. pose proof (length_pqueue q1) as Hl. rewrite T3, length_app in Hl. unfold ubytes in Hl. rewrite length_map, length_seq in Hl.
      destruct Hend as [E0|E0]; [lia|]. rewrite E0 in Hl. cbn in Hl. lia.
Qed.
End Reader.

(** ** The system *)

Record wcall : Type := mk_wcall { wc_addr : Z; wc_data : list Z; wc_rest : kernel -> outcome kernel Z }.
Record rcall : Type := mk_rcall { rc_addr : Z; rc_n : Z; rc_rest : kernel -> outcome kernel Z }.

(** The kernel, the calls that sleep, the ends that have not been closed, the
    data and the results of the completed writes, and what has been read. *)
Record sys : Type := mk_sys {
  sy_k : kernel;
  sy_w : option wcall;
  sy_r : option rcall;
  sy_wopen : bool;
  sy_ropen : bool;
  sy_calls : list (list Z * Z);
  sy_recv : list Z
}.

Definition after_write (addr : Z) (data : list Z) (y : sys) (o : outcome kernel Z) : option sys :=
  match o with
  | Done r t => Some (mk_sys t None (sy_r y) (sy_wopen y) (sy_ropen y) (sy_calls y ++ [(data, r)]) (sy_recv y))
  | Switch t k => Some (mk_sys t (Some (mk_wcall addr data k)) (sy_r y) (sy_wopen y) (sy_ropen y) (sy_calls y) (sy_recv y))
  | Halt _ => None
  end.

Definition after_read (addr n : Z) (y : sys) (o : outcome kernel Z) : option sys :=
  match o with
  | Done r t => Some (mk_sys t (sy_w y) None (sy_wopen y) (sy_ropen y) (sy_calls y) (sy_recv y ++ ubytes (k_mem t) rdir addr (Z.to_nat r)))
  | Switch t k => Some (mk_sys t (sy_w y) (Some (mk_rcall addr n k)) (sy_wopen y) (sy_ropen y) (sy_calls y) (sy_recv y))
  | Halt _ => None
  end.

Definition after_close (w : bool) (y : sys) (o : outcome kernel unit) : option sys :=
  match o with
  | Done _ t => Some (mk_sys t (sy_w y) (sy_r y) (if w then false else sy_wopen y) (if w then sy_ropen y else false) (sy_calls y) (sy_recv y))
  | _ => None
  end.

(** The writer runs: it makes a call, or goes on with the call it sleeps in. *)
Inductive wturn (y : sys) : Z -> list Z -> outcome kernel Z -> Prop :=
| wturn_call addr data : sy_wopen y = true -> sy_w y = None -> wbuf addr data (k_mem (sy_k y)) ->
    wturn y addr data (handed_back (pipewrite p addr (Z.of_nat (length data)) (dispatch wp wdir (sy_k y))))
| wturn_on c : sy_w y = Some c -> wturn y (wc_addr c) (wc_data c) (handed_back (resume (dispatch wp wdir) (wc_rest c) (sy_k y))).

Inductive rturn (y : sys) : Z -> Z -> outcome kernel Z -> Prop :=
| rturn_call addr n : sy_ropen y = true -> sy_r y = None -> rbuf addr n (k_mem (sy_k y)) ->
    rturn y addr n (handed_back (piperead p addr n (dispatch rp rdir (sy_k y))))
| rturn_on c : sy_r y = Some c -> rturn y (rc_addr c) (rc_n c) (handed_back (resume (dispatch rp rdir) (rc_rest c) (sy_k y))).

(** An end that is not in use is closed. *)
Inductive cturn (y : sys) : bool -> outcome kernel unit -> Prop :=
| cturn_write : sy_wopen y = true -> sy_w y = None -> cturn y true (handed_back (pipeclose p 1 (sy_k y)))
| cturn_read : sy_ropen y = true -> sy_r y = None -> cturn y false (handed_back (pipeclose p 0 (sy_k y))).

(** Other code runs, the two programs included, and may kill a process: it
    leaves the pipe alone, the memory that a call in progress uses, and no lock
    held. *)
Definition others (y : sys) (s : kernel) : Prop :=
  k_held s = k_held (sy_k y) /\ k_pipes s !! p = k_pipes (sy_k y) !! p /\ (forall q, k_pipes s !! p = Some q -> pstate s q) /\
  (forall c, sy_w y = Some c -> wbuf (wc_addr c) (wc_data c) (k_mem s)) /\ (forall c, sy_r y = Some c -> rbuf (rc_addr c) (rc_n c) (k_mem s)).

Inductive pstep (y : sys) : sys -> Prop :=
| pstep_write addr data o y' : wturn y addr data o -> after_write addr data y o = Some y' -> pstep y y'
| pstep_read addr n o y' : rturn y addr n o -> after_read addr n y o = Some y' -> pstep y y'
| pstep_close w o y' : cturn y w o -> after_close w y o = Some y' -> pstep y y'
| pstep_others s : others y s -> pstep y (mk_sys s (sy_w y) (sy_r y) (sy_wopen y) (sy_ropen y) (sy_calls y) (sy_recv y)).

(** What is known of the calls in progress: the writer has added [j] bytes. *)
Definition winv (w : option wcall) (m : gmap Z Z) (j : nat) : Prop :=
  match w with
  | None => j = 0%nat
  | Some c => wbuf (wc_addr c) (wc_data c) m /\ forall s, wok (wc_addr c) (wc_data c) s ->
      wsegs (wc_addr c) (wc_data c) (wc_rest c (resumed wp wdir s)) (mk_seg true j s) (wpost (wc_data c))
  end.

Definition rinv (r : option rcall) (m : gmap Z Z) : Prop :=
  match r with
  | None => True
  | Some c => rbuf (rc_addr c) (rc_n c) m /\ forall s, rok (rc_addr c) (rc_n c) s ->
      rsegs (rc_addr c) (rc_n c) (rc_rest c (resumed rp rdir s)) (mk_seg true 0 s) (rpost (rc_addr c) (rc_n c))
  end.

Definition pending (w : option wcall) (j : nat) : list Z := match w with None => [] | Some c => take j (wc_data c) end.

(** What a completed write has put into the pipe: its data, or a part of it when
    it has failed. *)
Definition part_of (c : list Z * Z) (d : list Z) : Prop :=
  (snd c = Z.of_nat (length (fst c)) /\ d = fst c) \/ (snd c = -1 /\ d `prefix_of` fst c).

(** What is left in the pipe, which is there as long as one end is open. *)
Definition pipe_has (s : kernel) (wopen ropen : bool) (rest : list Z) : Prop :=
  match k_pipes s !! p with
  | Some q => pstate s q /\ rest = pqueue q /\ (writeopen q <> 0 <-> wopen = true) /\ (readopen q <> 0 <-> ropen = true) /\ (wopen || ropen) = true
  | None => wopen = false /\ ropen = false
  end.

Record sys_ok (y : sys) : Prop := {
  syo_held : k_held (sy_k y) = [];
  syo_ends : (sy_wopen y = false -> sy_w y = None) /\ (sy_ropen y = false -> sy_r y = None);
  syo_hist : exists parts rest j, winv (sy_w y) (k_mem (sy_k y)) j /\ rinv (sy_r y) (k_mem (sy_k y)) /\ Forall2 part_of (sy_calls y) parts /\
    concat parts ++ pending (sy_w y) j = sy_recv y ++ rest /\ pipe_has (sy_k y) (sy_wopen y) (sy_ropen y) rest
}.

Lemma same_pipe (s : kernel) (q q' : pipe) : pstate s q -> pstate s q' -> q = q'.
Proof. intros H H'. pose proof (ps_pipe _ _ H). pose proof (ps_pipe _ _ H'). congruence. Qed.

Lemma pipe_has_some (s : kernel) (wo ro : bool) (rest : list Z) : pipe_has s wo ro rest -> (wo || ro) = true ->
  exists q, pstate s q /\ rest = pqueue q /\ (writeopen q <> 0 <-> wo = true) /\ (readopen q <> 0 <-> ro = true).
Proof. unfold pipe_has. destruct (k_pipes s !! p) as [q|]; intros H Ho; [exists q; tauto|destruct H as [-> ->]; discriminate Ho]. Qed.

Lemma pipe_has_next (s t : kernel) (wo ro : bool) (q q' : pipe) : pstate t q' -> same_ends q q' -> (writeopen q <> 0 <-> wo = true) -> (readopen q <> 0 <-> ro = true) ->
  (wo || ro) = true -> pipe_has t wo ro (pqueue q').
Proof. intros H [E1 E2] Hw Hr Ho. unfold pipe_has. rewrite (ps_pipe _ _ H), E1, E2. auto. Qed.

(** ** A turn of the writer *)

Section WriteTurn.
Context (y : sys) (addr : Z) (data : list Z) (b : bool) (j : nat) (o : outcome kernel Z) (q : pipe) (parts : list (list Z)).
Hypothesis Hq : pstate (sy_k y) q.
Hypothesis Hb : wbuf addr data (k_mem (sy_k y)).
Hypothesis Hr : rinv (sy_r y) (k_mem (sy_k y)).
Hypothesis Hre : sy_ropen y = false -> sy_r y = None.
Hypothesis Hwo : sy_wopen y = true.
Hypothesis Hends : (writeopen q <> 0 <-> sy_wopen y = true) /\ (readopen q <> 0 <-> sy_ropen y = true).
Hypothesis Hp : Forall2 part_of (sy_calls y) parts.
Hypothesis Hh : concat parts ++ take j data = sy_recv y ++ pqueue q.
Hypothesis Ho : wsegs addr data o (mk_seg b j (sy_k y)) (wpost data).

Lemma write_turn_halt (r : stop) : handed_back o = Halt r -> r = NoFuel /\ b = true.
Proof.
  destruct o as [r' t|r'|t k]; intros E; [discriminate E|injection E as <-; exact Ho|].
  destruct Ho as (j' & (_ & _ & Hn & _) & _). rewrite (handed_back_run t k Hn) in E. discriminate E.
Qed.

(** The result of a call. *)
Lemma write_turn_done (r : Z) (t : kernel) : handed_back o = Done r t ->
  r = Z.of_nat (length data) \/ (r = -1 /\ (sy_ropen y = false \/ killed_in t wp)).
Proof.
  clear Hre.
  destruct o as [r' t'|r'|t' k]; intros E; [|discriminate E|].
  - injection E as <- <-. destruct Ho as [ (-> & _)|(-> & i & (q0 & q1 & H1 & H2 & _ & _ & _ & [He _]) & _ & _ & q2 & Hq2 & _ & Hc)]; [left; reflexivity|right; split; [reflexivity|] ].
    cbn [sg_start] in H1. assert (q0 = q) as -> by exact (same_pipe _ _ _ H1 Hq). assert (q2 = q1) as -> by (pose proof (ps_pipe _ _ H2); congruence).
    destruct Hc as [Hc|Hc]; [left|right; exact Hc]. destruct (sy_ropen y); [|reflexivity]. destruct Hends as [_ [_ Hx]]. destruct (Hx eq_refl). congruence.
  - destruct Ho as (j' & (_ & _ & Hn & _) & _). rewrite (handed_back_run t' k Hn) in E. discriminate E.
Qed.

(** The bytes up to [i], given those up to [j]. *)
Lemma history_next (t : kernel) (i : nat) : added data (sy_k y) t j i -> exists q', pstate t q' /\ same_ends q q' /\ k_mem t = k_mem (sy_k y) /\
  concat parts ++ take i data = sy_recv y ++ pqueue q'.
Proof.
  intros (q0 & q1 & H1 & H2 & H3 & [H4 H4'] & H5 & H6). assert (q0 = q) as -> by exact (same_pipe _ _ _ H1 Hq). exists q1. split_and!; [exact H2|exact H6|exact H3|].
  rewrite H5, app_assoc, <- Hh, <- app_assoc. f_equal. rewrite <- (take_drop j data) at 1. rewrite take_app_ge by (rewrite length_take; lia). f_equal. f_equal. rewrite length_take. lia.
Qed.

(** A call returns with [i] bytes in the pipe. *)
Lemma write_returns (r : Z) (t : kernel) (i : nat) : k_held t = [] -> added data (sy_k y) t j i -> part_of (data, r) (take i data) ->
  sys_ok (mk_sys t None (sy_r y) (sy_wopen y) (sy_ropen y) (sy_calls y ++ [(data, r)]) (sy_recv y)).
Proof.
  intros Hn Ha Hpt. destruct (history_next t i Ha) as (q1 & H1 & H2 & H3 & H4). split; [exact Hn|split; [reflexivity|exact Hre]|]. exists (parts ++ [take i data]), (pqueue q1), 0%nat.
  cbn [sy_w sy_r sy_k sy_calls sy_recv sy_wopen sy_ropen]. split_and!; [reflexivity|rewrite H3; exact Hr|apply Forall2_app; [exact Hp|constructor; [exact Hpt|constructor] ]| |].
  - rewrite concat_app. cbn. rewrite !app_nil_r. exact H4.
  - apply (pipe_has_next (sy_k y) t _ _ q q1 H1 H2); [apply Hends|apply Hends|rewrite Hwo; reflexivity].
Qed.

Lemma write_turn_ok (y' : sys) : after_write addr data y (handed_back o) = Some y' -> sys_ok y'.
Proof.
  destruct o as [r t|r|t k]; intros E; [|discriminate E|].
  - injection E as <-. destruct Ho as [ (-> & Ha & Hn)|(-> & i & Ha & Hi & Hn & _)]; cbn [sg_start sg_done] in Ha.
    + apply (write_returns _ t (length data) Hn Ha). left. split; [reflexivity|]. exact (take_ge data (length data) (Nat.le_refl _)).
    + apply (write_returns _ t i Hn Ha). right. split; [reflexivity|]. exists (drop i data). symmetry. apply take_drop.
  - destruct Ho as (i & (Ha & _ & Hn & _) & Hk). cbn [sg_start sg_done] in Ha. rewrite (handed_back_run t k Hn) in E. injection E as <-.
    destruct (history_next t i Ha) as (q1 & H1 & H2 & H3 & H4). split; [reflexivity|split; [rewrite Hwo; discriminate|exact Hre]|]. exists parts, (pqueue q1), i.
    cbn [sy_w sy_r sy_k sy_calls sy_recv sy_wopen sy_ropen]. split_and!; [split; [cbn; rewrite H3; exact Hb|exact Hk]|cbn; rewrite H3; exact Hr|exact Hp|exact H4|].
    apply (pipe_has_next (sy_k y) _ _ _ q q1 (held_pstate [] t q1 H1) H2); [apply Hends|apply Hends|rewrite Hwo; reflexivity].
Qed.
End WriteTurn.

(** ** A turn of the reader *)

Lemma wbuf_kept (addr : Z) (data : list Z) (m m' : gmap Z Z) : kept_spaces m m' -> wbuf addr data m -> wbuf addr data m'.
Proof.
  intros (Mw & _ & U) [R B D]. split; [exact R|exact B|]. intros i b Hi. destruct (D i b Hi) as [D1 D2]. split; [apply (same_umapped _ _ _ _ Mw), D1|rewrite U by exact D1; exact D2].
Qed.

Section ReadTurn.
Context (y : sys) (addr n : Z) (b : bool) (j : nat) (o : outcome kernel Z) (q : pipe) (parts : list (list Z)).
Hypothesis Hq : pstate (sy_k y) q.
Hypothesis Hb : rbuf addr n (k_mem (sy_k y)).
Hypothesis Hw : winv (sy_w y) (k_mem (sy_k y)) j.
Hypothesis Hwe : sy_wopen y = false -> sy_w y = None.
Hypothesis Hro : sy_ropen y = true.
Hypothesis Hends : (writeopen q <> 0 <-> sy_wopen y = true) /\ (readopen q <> 0 <-> sy_ropen y = true).
Hypothesis Hp : Forall2 part_of (sy_calls y) parts.
Hypothesis Hh : concat parts ++ pending (sy_w y) j = sy_recv y ++ pqueue q.
Hypothesis Ho : rsegs addr n o (mk_seg b 0 (sy_k y)) (rpost addr n).

Lemma read_turn_halt (r : stop) : handed_back o = Halt r -> r = NoFuel /\ b = true.
Proof.
  destruct o as [r' t|r'|t k]; intros E; [discriminate E|injection E as <-; exact Ho|].
  destruct Ho as (j' & (_ & _ & Hn) & _). rewrite (handed_back_run t k Hn) in E. discriminate E.
Qed.

(** The result of a call. *)
Lemma read_turn_done (r : Z) (t : kernel) : handed_back o = Done r t ->
  (r = Z.min n (pcount q) /\ (0 < pcount q \/ sy_wopen y = false)) \/ (r = -1 /\ pcount q = 0 /\ sy_wopen y = true /\ killed_in t rp).
Proof.
  clear Hwe.
  destruct o as [r' t'|r'|t' k]; intros E; [|discriminate E|].
  - injection E as <- <-. destruct Ho as (_ & _ & q1 & H1 & Hc). cbn [sg_start] in H1. assert (q1 = q) as -> by exact (same_pipe _ _ _ H1 Hq).
    destruct Hc as [ [-> Hf]|Hc]; [left; split; [reflexivity|]|right; destruct Hc as (C1 & C2 & C3 & C4); split_and!; [exact C1|exact C2|apply Hends, C3|exact C4] ]. destruct Hf as [Hf|Hf]; [left; exact Hf|right].
    destruct (sy_wopen y); [|reflexivity]. destruct Hends as [ [_ Hx] _]. destruct (Hx eq_refl Hf).
  - destruct Ho as (j' & (_ & _ & Hn) & _). rewrite (handed_back_run t' k Hn) in E. discriminate E.
Qed.

Lemma read_turn_ok (y' : sys) : after_read addr n y (handed_back o) = Some y' -> sys_ok y'.
Proof.
  destruct o as [r t|r|t k]; intros E; [|discriminate E|].
  - injection E as <-. destruct Ho as (Hn & (q0 & q1 & H1 & H2 & H3 & H4 & H5) & _). cbn [sg_start] in *. assert (q0 = q) as -> by exact (same_pipe _ _ _ H1 Hq).
    split; [exact Hn|split; [exact Hwe|reflexivity]|]. exists parts, (pqueue q1), j. cbn [sy_w sy_r sy_k sy_calls sy_recv sy_wopen sy_ropen].
    split_and!; [|exact I|exact Hp|rewrite Hh, H3, app_assoc; reflexivity|].
    + destruct (sy_w y) as [c|]; cbn in *; [|exact Hw]. destruct Hw as [Hw1 Hw2]. split; [exact (wbuf_kept _ _ _ _ H5 Hw1)|exact Hw2].
    + apply (pipe_has_next (sy_k y) t _ _ q q1 H2 H4); [apply Hends|apply Hends|rewrite Hro; apply orb_true_r].
  - destruct Ho as (i & (-> & (Em & q1 & H1 & H2 & _) & Hn) & Hk). cbn [sg_start] in *. assert (q1 = q) as -> by exact (same_pipe _ _ _ H1 Hq).
    rewrite (handed_back_run t k Hn) in E. injection E as <-. split; [reflexivity|split; [exact Hwe|rewrite Hro; discriminate]|]. exists parts, (pqueue q), j.
    cbn [sy_w sy_r sy_k sy_calls sy_recv sy_wopen sy_ropen]. split_and!; [cbn; rewrite Em; exact Hw|split; [cbn; rewrite Em; exact Hb|exact Hk]|exact Hp|exact Hh|].
    apply (pipe_has_next (sy_k y) _ _ _ q q (held_pstate [] t q H2)); [split; reflexivity|apply Hends|apply Hends|rewrite Hro; apply orb_true_r].
Qed.
End ReadTurn.

(** ** Closing an end *)

(** The pipe with the end closed. *)
Definition shut (w : Z) (q : pipe) : pipe := if negb (w =? 0) then q <| writeopen := 0 |> else q <| readopen := 0 |>.

Lemma shut_ok (w : Z) (s : kernel) (q : pipe) : pstate s q -> pstate (s <| k_pipes ::= <[p := shut w q]> |>) (shut w q) /\ pqueue (shut w q) = pqueue q.
Proof.
  intros H. pose proof (ps_ok _ _ H) as [O1 O2 O3 O4]. unfold shut. destruct (negb (w =? 0)); (split; [|reflexivity]); (apply pstate_pipe with (q := q); [exact H|split; assumption|apply (ps_bytes _ _ H)]).
Qed.

Hypothesis Hpage : page p.

(** The other end is still open: the pipe stays.  Otherwise its page is freed. *)
Lemma pipeclose_run (w : Z) (s : kernel) (q : pipe) : pstate s q -> k_held s = [] -> exists t, pipeclose p w s = Done tt t /\ k_held t = [] /\
  if (readopen (shut w q) =? 0) && (writeopen (shut w q) =? 0) then k_pipes t !! p = None
  else pstate t (shut w q) /\ k_mem t = k_mem s.
Proof.
  intros Hq Hn. unfold pipeclose. erewrite bind_Done by (apply acquire_free; rewrite Hn; set_solver).
  match goal with |- context [((if _ then _ else _) ≫= _) ?st] => set (s0 := st) end.
  assert (H0 : pstate s0 q) by (apply held_pstate, Hq). destruct (shut_ok w s0 q H0) as [H1 _]. set (s1 := s0 <| k_pipes ::= _ |>) in *.
  assert (E : exists ch, (if negb (w =? 0) then upd_pipe p (fun q => q <| writeopen := 0 |>);; wakeup (CPipeRead p)
     else upd_pipe p (fun q => q <| readopen := 0 |>);; wakeup (CPipeWrite p)) s0 = Done tt (s1 <| k_procs ::= map (wake (Some ch)) |>)).
  { assert (Hh : ptable_lock ∉ k_held s1) by (cbn; rewrite Hn; set_solver). unfold s1, shut in *. destruct (negb (w =? 0)); eexists;
      (rewrite (bind_Done _ _ _ _ _ (alter_pipe _ s0 q (ps_pipe _ _ H0))); apply wakeup_run; exact Hh). }
  destruct E as (ch & E). rewrite (bind_Done _ _ _ _ _ E). set (s2 := s1 <| k_procs ::= _ |>). pose proof (wake_pstate (Some ch) s1 _ H1) as H2. fold s2 in H2.
  rewrite (bind_Done _ _ _ _ _ (pipe_at_some s2 _ (ps_pipe _ _ H2))). assert (Hh : k_held s2 = [pipe_lock p]) by (cbn; rewrite Hn; reflexivity).
  destruct ((readopen (shut w q) =? 0) && (writeopen (shut w q) =? 0)).
  - rewrite (bind_Done _ _ _ _ _ (release_head (pipe_lock p) [] s2 Hh ltac:(set_solver))), (bind_Done _ _ _ _ _ (modify_run _ _)).
    eexists. split; [apply kfree_run; [exact Hpage|cbn; set_solver]|]. split; [reflexivity|]. cbn. apply lookup_delete_eq.
  - eexists. split; [apply (release_head (pipe_lock p) []); [exact Hh|set_solver]|]. split; [reflexivity|]. split; [apply held_pstate, H2|reflexivity].
Qed.

Lemma cturn_inv (y : sys) (w : bool) (o : outcome kernel unit) : cturn y w o ->
  (if w then sy_wopen y else sy_ropen y) = true /\ (if w then sy_w y = None else sy_r y = None) /\ o = handed_back (pipeclose p (if w then 1 else 0) (sy_k y)).
Proof. intros [H1 H2|H1 H2]; auto. Qed.

Lemma close_turn_ok (y : sys) (w : bool) (o : outcome kernel unit) : sys_ok y -> cturn y w o ->
  exists t, o = Done tt t /\ sys_ok (mk_sys t (sy_w y) (sy_r y) (if w then false else sy_wopen y) (if w then sy_ropen y else false) (sy_calls y) (sy_recv y)).
Proof.
  intros [Hn [Ew Er] (parts & rest & j & Hw & Hr & Hp & Hh & Hhas)] Hc. destruct (cturn_inv y w o Hc) as (Hopen & Hidle & ->).
  destruct (pipe_has_some _ _ _ _ Hhas) as (q & Hq & -> & Fw & Fr); [destruct w; rewrite Hopen; [reflexivity|apply orb_true_r]|].
  destruct (pipeclose_run (if w then 1 else 0) (sy_k y) q Hq Hn) as (t & E & Ht & Hcase). exists t. rewrite E. split; [reflexivity|].
  destruct (shut_ok (if w then 1 else 0) (sy_k y) q Hq) as [_ Eq].
  assert (Hf : (readopen (shut (if w then 1 else 0) q) =? 0) && (writeopen (shut (if w then 1 else 0) q) =? 0) = negb (if w then sy_ropen y else sy_wopen y)).
  { unfold shut. destruct w; cbn; rewrite ?andb_true_r.
    - destruct (sy_ropen y); [apply Z.eqb_neq, Fr; reflexivity|apply Z.eqb_eq]. destruct (Z.eq_dec (readopen q) 0); [assumption|]. destruct Fr as [Fr _]. discriminate (Fr n).
    - destruct (sy_wopen y); [apply Z.eqb_neq, Fw; reflexivity|apply Z.eqb_eq]. destruct (Z.eq_dec (writeopen q) 0); [assumption|]. destruct Fw as [Fw _]. discriminate (Fw n). }
  rewrite Hf in Hcase. split; [exact Ht|destruct w; (split; [intros Hx|intros Hx]); auto|].
  exists parts, (pqueue q), j. cbn [sy_w sy_r sy_k sy_calls sy_recv sy_wopen sy_ropen]. destruct (if w then sy_ropen y else sy_wopen y) eqn:Eo; cbn [negb] in Hcase.
  - destruct Hcase as [Hq' Em]. rewrite Em. split_and!; [exact Hw|exact Hr|exact Hp|exact Hh|]. unfold pipe_has. rewrite (ps_pipe _ _ Hq'), Eq. split_and!; [exact Hq'|reflexivity|..];
      destruct w; cbn; rewrite ?Eo in *; try tauto; (split; [intros Hx; destruct (Hx eq_refl)|discriminate]).
  - assert (Hnone : sy_w y = None /\ sy_r y = None) by (destruct w; auto). destruct Hnone as [Nw Nr]. rewrite Nw, Nr in *.
    split_and!; [exact Hw|exact I|exact Hp|exact Hh|]. unfold pipe_has. rewrite Hcase. destruct w; auto.
Qed.

(** ** Every step *)

(** What a turn of the writer starts from. *)
Lemma wturn_segs (y : sys) (addr : Z) (data : list Z) (o : outcome kernel Z) : sys_ok y -> wturn y addr data o ->
  exists b j o' q parts, o = handed_back o' /\ (b = true -> sy_w y <> None) /\ pstate (sy_k y) q /\ wbuf addr data (k_mem (sy_k y)) /\ rinv (sy_r y) (k_mem (sy_k y)) /\ sy_wopen y = true /\
    ((writeopen q <> 0 <-> sy_wopen y = true) /\ (readopen q <> 0 <-> sy_ropen y = true)) /\ Forall2 part_of (sy_calls y) parts /\
    concat parts ++ take j data = sy_recv y ++ pqueue q /\ wsegs addr data o' (mk_seg b j (sy_k y)) (wpost data).
Proof.
  intros [Hn [Ew Er] (parts & rest & j & Hw & Hr & Hp & Hh & Hhas)] Ht.
  assert (Hopen : sy_wopen y = true) by (destruct Ht as [? ? H _ _|c H]; [exact H|]; destruct (sy_wopen y); [reflexivity|rewrite Ew in H by reflexivity; discriminate H]).
  destruct (pipe_has_some _ _ _ _ Hhas) as (q & Hq & -> & Fw & Fr); [rewrite Hopen; reflexivity|]. destruct Ht as [addr data _ E Hb|c E]; rewrite E in Hw, Hh; cbn in Hw, Hh.
  - exists false, 0%nat, (pipewrite p addr (Z.of_nat (length data)) (dispatch wp wdir (sy_k y))), q, parts. split_and!; try assumption; [reflexivity|discriminate|].
    apply pipewrite_segs. split_and!; eauto.
  - destruct Hw as [Hw1 Hw2]. exists true, j, (wc_rest c (resumed wp wdir (sy_k y))), q, parts. rewrite (resume_run _ _ _ Hn). split_and!; try assumption; [reflexivity|rewrite E; discriminate|].
    apply Hw2. split_and!; eauto.
Qed.

Lemma rturn_segs (y : sys) (addr n : Z) (o : outcome kernel Z) : sys_ok y -> rturn y addr n o ->
  exists b j o' q parts, o = handed_back o' /\ (b = true -> sy_r y <> None) /\ pstate (sy_k y) q /\ rbuf addr n (k_mem (sy_k y)) /\ winv (sy_w y) (k_mem (sy_k y)) j /\ sy_ropen y = true /\
    ((writeopen q <> 0 <-> sy_wopen y = true) /\ (readopen q <> 0 <-> sy_ropen y = true)) /\ Forall2 part_of (sy_calls y) parts /\
    concat parts ++ pending (sy_w y) j = sy_recv y ++ pqueue q /\ rsegs addr n o' (mk_seg b 0 (sy_k y)) (rpost addr n).
Proof.
  intros [Hn [Ew Er] (parts & rest & j & Hw & Hr & Hp & Hh & Hhas)] Ht.
  assert (Hopen : sy_ropen y = true) by (destruct Ht as [? ? H _ _|c H]; [exact H|]; destruct (sy_ropen y); [reflexivity|rewrite Er in H by reflexivity; discriminate H]).
  destruct (pipe_has_some _ _ _ _ Hhas) as (q & Hq & -> & Fw & Fr); [rewrite Hopen; apply orb_true_r|]. destruct Ht as [addr n _ E Hb|c E].
  - exists false, j, (piperead p addr n (dispatch rp rdir (sy_k y))), q, parts. split_and!; try assumption; [reflexivity|discriminate|].
    apply piperead_segs. split_and!; eauto.
  - rewrite E in Hr. destruct Hr as [Hr1 Hr2]. exists true, j, (rc_rest c (resumed rp rdir (sy_k y))), q, parts. rewrite (resume_run _ _ _ Hn). split_and!; try assumption; [reflexivity|rewrite E; discriminate|].
    apply Hr2. split_and!; eauto.
Qed.

Lemma pstep_ok (y y' : sys) : sys_ok y -> pstep y y' -> sys_ok y'.
Proof.
  intros Hy Hs. destruct Hs as [addr data o y' Ht E|addr n o y' Ht E|w o y' Ht E|s (E0 & E & Hps & Ow & Or)].
  - destruct (wturn_segs y addr data o Hy Ht) as (b & j & o' & q & parts & -> & _ & H1 & H2 & H3 & H4 & H5 & H6 & H7 & H8).
    exact (write_turn_ok y addr data b j o' q parts H1 H2 H3 (proj2 (syo_ends _ Hy)) H4 H5 H6 H7 H8 y' E).
  - destruct (rturn_segs y addr n o Hy Ht) as (b & j & o' & q & parts & -> & _ & H1 & H2 & H3 & H4 & H5 & H6 & H7 & H8).
    exact (read_turn_ok y addr n b j o' q parts H1 H2 H3 (proj1 (syo_ends _ Hy)) H4 H5 H6 H7 H8 y' E).
  - destruct (close_turn_ok y w o Hy Ht) as (t & -> & H). injection E as <-. exact H.
  - destruct Hy as [Hn He (parts & rest & j & Hw & Hr & Hp & Hh & Hhas)]. split; [cbn; congruence|exact He|]. exists parts, rest, j. cbn. split_and!; [| |exact Hp|exact Hh|].
    + destruct (sy_w y) as [c|]; [|exact Hw]. split; [apply Ow; reflexivity|apply Hw].
    + destruct (sy_r y) as [c|]; [|exact I]. split; [apply Or; reflexivity|apply Hr].
    + unfold pipe_has in *. rewrite E. rewrite E in Hps. destruct (k_pipes (sy_k y) !! p) as [q|]; [|exact Hhas]. destruct Hhas as (_ & Hx). split; [apply Hps; reflexivity|exact Hx].
Qed.

(** A call that need not wait returns at once. *)
Lemma write_now (s : kernel) (addr : Z) (data : list Z) (q : pipe) : pstate s q -> k_held s = [] -> wbuf addr data (k_mem s) ->
  Z.of_nat (length data) + pcount q <= PIPESIZE -> exists t, pipewrite p addr (Z.of_nat (length data)) (dispatch wp wdir s) = Done (Z.of_nat (length data)) t.
Proof.
  intros Hq Hn Hb Hl. pose proof (pipewrite_segs addr data s (conj (ex_intro _ q Hq) (conj Hb Hn))) as H. unfold wsegs in H.
  assert (Hno : forall j t, added data s t 0 j -> (j < length data)%nat -> forall q2, k_pipes t !! p = Some q2 -> pcount q2 <> PIPESIZE).
  { intros j t (q0 & q1 & H1 & H2 & _ & [_ H4] & H5 & _) Hj q2 Hq2 Ef. assert (q0 = q) as -> by exact (same_pipe _ _ _ H1 Hq).
    assert (q2 = q1) as -> by (pose proof (ps_pipe _ _ H2); congruence). pose proof (length_pqueue q1) as L1. pose proof (length_pqueue q) as L0.
    rewrite H5, length_app, drop_0, length_take in L1. unfold PIPESIZE in *. lia. }
  destruct (pipewrite _ _ _ _) as [r t|r|t k]; cbn in H.
  - destruct H as [ [-> _]|(_ & i & Ha & Hi & _ & q2 & Hq2 & Ef & _)]; [eauto|]. destruct (Hno i t Ha Hi q2 Hq2 Ef).
  - destruct H as [_ H]. discriminate.
  - destruct H as (j & (Ha & Hj & _ & q2 & Hq2 & Ef) & _). destruct (Hno j t Ha Hj q2 Hq2 Ef).
Qed.

Lemma read_now (s : kernel) (addr n : Z) (q : pipe) : pstate s q -> k_held s = [] -> rbuf addr n (k_mem s) -> filled q ->
  exists t, piperead p addr n (dispatch rp rdir s) = Done (Z.min n (pcount q)) t.
Proof.
  intros Hq Hn Hb Hl. pose proof (piperead_segs addr n s (conj (ex_intro _ q Hq) (conj Hb Hn))) as H. unfold rsegs in H. destruct (piperead _ _ _ _) as [r t|r|t k]; cbn in H.
  - destruct H as (_ & _ & q1 & H1 & Hc). cbn [sg_start] in H1. assert (q1 = q) as -> by exact (same_pipe _ _ _ H1 Hq). exists t. destruct Hc as [ [-> _]|(-> & C1 & C2 & _)]; [reflexivity|]. destruct Hl; [lia|congruence].
  - destruct H as [_ H]. discriminate.
  - destruct H as (j & (_ & (_ & q1 & H1 & H2 & E & Ew) & _) & _). cbn [sg_start] in H1. assert (q1 = q) as -> by exact (same_pipe _ _ _ H1 Hq). destruct Hl; [lia|congruence].
Qed.

(** C8. A pipe between a writer and a reader is a queue of at most 512 bytes,
    whatever the order in which the two and others run, whenever either end is
    closed and whoever is killed.  In every state the system reaches from an empty
    pipe: no spin-lock is held; the bytes that the writes have put into the pipe
    (all of a write that returned its length, a part of one that returned -1, a
    part of the one in progress) are exactly the bytes the reader has received
    followed by the bytes in the buffer; the pipe is there until both ends are
    closed, and its flags say which ends are open.  A write returns its length,
    or -1 when the read end is closed or the writer has been killed; a read
    returns what there is, at most what it asks for, and nothing only when the
    write end is closed, or -1 when the reader has been killed.  No call panics
    or faults (one that has slept may exceed the given number of vain wake-ups),
    and closing an end always succeeds.  A read returns at once when there are
    bytes or the write end is closed, and so does a write that fits.  The writes
    are those of one process and so are the reads, and an end is not closed while
    a call that uses it is in progress. *)
Theorem pipe_is_fifo (y0 y : sys) (q0 : pipe) (H0 : pstate (sy_k y0) q0) (Hheld : k_held (sy_k y0) = []) (Hidle : sy_w y0 = None /\ sy_r y0 = None)
    (Hopen : sy_wopen y0 = true /\ sy_ropen y0 = true /\ writeopen q0 <> 0 /\ readopen q0 <> 0)
    (Hnone : sy_calls y0 = [] /\ sy_recv y0 = [] /\ pqueue q0 = []) (Hrun : rtc pstep y0 y) :
  k_held (sy_k y) = [] /\
  (exists parts done rest, Forall2 part_of (sy_calls y) parts /\ concat parts ++ done = sy_recv y ++ rest /\
     match sy_w y with None => done = [] | Some c => done `prefix_of` wc_data c end /\
     match k_pipes (sy_k y) !! p with
     | Some q => rest = pqueue q /\ Z.of_nat (length rest) <= PIPESIZE /\ (writeopen q <> 0 <-> sy_wopen y = true) /\ (readopen q <> 0 <-> sy_ropen y = true)
     | None => sy_wopen y = false /\ sy_ropen y = false
     end) /\
  (forall addr data r t, wturn y addr data (Done r t) -> r = Z.of_nat (length data) \/ (r = -1 /\ (sy_ropen y = false \/ killed_in t wp))) /\
  (forall addr n r t q, k_pipes (sy_k y) !! p = Some q -> rturn y addr n (Done r t) ->
     (r = Z.min n (Z.of_nat (length (pqueue q))) /\ (pqueue q <> [] \/ sy_wopen y = false)) \/ (r = -1 /\ pqueue q = [] /\ sy_wopen y = true /\ killed_in t rp)) /\
  (forall addr data r, wturn y addr data (Halt r) -> r = NoFuel /\ sy_w y <> None) /\
  (forall addr n r, rturn y addr n (Halt r) -> r = NoFuel /\ sy_r y <> None) /\
  (forall w o, cturn y w o -> exists t, o = Done tt t) /\
  (forall addr n q, k_pipes (sy_k y) !! p = Some q -> rbuf addr n (k_mem (sy_k y)) -> pqueue q <> [] \/ sy_wopen y = false ->
     exists t, piperead p addr n (dispatch rp rdir (sy_k y)) = Done (Z.min n (Z.of_nat (length (pqueue q)))) t) /\
  (forall addr data q, k_pipes (sy_k y) !! p = Some q -> wbuf addr data (k_mem (sy_k y)) -> Z.of_nat (length data) + Z.of_nat (length (pqueue q)) <= PIPESIZE ->
     exists t, pipewrite p addr (Z.of_nat (length data)) (dispatch wp wdir (sy_k y)) = Done (Z.of_nat (length data)) t).
Proof.
  assert (Hok : sys_ok y).
  { assert (sys_ok y0) as Hok0.
    { destruct Hidle as [W R], Hnone as (S & V & Q), Hopen as (O1 & O2 & O3 & O4). split; [exact Hheld|auto|]. exists [], [], 0%nat. rewrite W, R, S, V.
      split_and!; [reflexivity|exact I|constructor|reflexivity|]. unfold pipe_has. rewrite (ps_pipe _ _ H0), O1, O2, Q. tauto. }
    clear -Hok0 Hrun Hpage. induction Hrun as [y|y y1 y2 Hs _ IH]; [exact Hok0|]. apply IH, (pstep_ok y); assumption. }
  pose proof Hok as [Hn _ (parts & rest & j & Hw & _ & Hp & Hh & Hhas)]. split_and!.
  - exact Hn.
  - exists parts, (pending (sy_w y) j), rest. split_and!; [exact Hp|exact Hh|destruct (sy_w y) as [c|]; cbn; [exists (drop j (wc_data c)); symmetry; apply take_drop|reflexivity]|].
    unfold pipe_has in Hhas. destruct (k_pipes (sy_k y) !! p) as [q|]; [|exact Hhas]. destruct Hhas as (Hq & -> & Fw & Fr & _). rewrite length_pqueue. pose proof (po_count _ (ps_ok _ _ Hq)). tauto.
  - intros addr data r t Ht. destruct (wturn_segs y addr data _ Hok Ht) as (b & i & o' & q & ps & E & _ & H1 & H2 & H3 & H4 & H5 & H6 & H7 & H8).
    exact (write_turn_done y addr data b i o' q H1 H5 H8 r t (eq_sym E)).
  - intros addr n r t q Hq Ht. destruct (rturn_segs y addr n _ Hok Ht) as (b & i & o' & q1 & ps & E & _ & H1 & H2 & H3 & H4 & H5 & H6 & H7 & H8).
    assert (q1 = q) as -> by (pose proof (ps_pipe _ _ H1); congruence). rewrite length_pqueue, queue_nil. destruct (read_turn_done y addr n b o' q H1 H5 H8 r t (eq_sym E)) as [ [-> [C|C] ]|C]; [left..|right; exact C].
    + split; [reflexivity|left; lia].
    + split; [reflexivity|right; exact C].
  - intros addr data r Ht. destruct (wturn_segs y addr data _ Hok Ht) as (b & i & o' & q & ps & E & Hs & H1 & H2 & H3 & H4 & H5 & H6 & H7 & H8).
    destruct (write_turn_halt y addr data b i o' H8 r (eq_sym E)) as [-> ->]. auto.
  - intros addr n r Ht. destruct (rturn_segs y addr n _ Hok Ht) as (b & i & o' & q1 & ps & E & Hs & H1 & H2 & H3 & H4 & H5 & H6 & H7 & H8).
    destruct (read_turn_halt y addr n b o' H8 r (eq_sym E)) as [-> ->]. auto.
  - intros w o Ht. destruct (close_turn_ok y w o Hok Ht) as (t & E & _). eauto.
  - intros addr n q Hq Hb Hc. unfold pipe_has in Hhas. rewrite Hq in Hhas. destruct Hhas as (Hs & _ & Fw & _). rewrite length_pqueue. apply read_now; [exact Hs|exact Hn|exact Hb|].
    destruct Hc as [Hc|Hc]; [left|right]; [rewrite queue_nil in Hc; pose proof (length_pqueue q); lia|]. destruct (Z.eq_dec (writeopen q) 0) as [?|Hx]; [assumption|]. apply Fw in Hx. congruence.
  - intros addr data q Hq Hb Hl. unfold pipe_has in Hhas. rewrite Hq in Hhas. rewrite length_pqueue in Hl. apply (write_now (sy_k y) addr data q); [apply Hhas|exact Hn|exact Hb|exact Hl].
Qed.
End Pair.

(** ** An example: two processes with a page each *)

Section OnePage.
Context {L : Linker} (s : kernel) (d t f : Z).
Hypothesis Hfree : free_pages s [].
Hypothesis Hpages : page d /\ page t /\ page f.
Hypothesis Hne : d <> t /\ d <> f /\ t <> f.
Hypothesis Hdir : forall x, 0 <= x < 1024 -> rd32 (k_mem s) (d + 4 * x) = if decide (x = 0) then user_entry t else 0.
Hypothesis Htab : forall x, 0 <= x < 1024 -> rd32 (k_mem s) (t + 4 * x) = if decide (x = 0) then user_entry f else 0.

Lemma one_table (x : Z) : 0 <= x < 1024 -> has_table (k_mem s) d x = bool_decide (x = 0) /\ (x = 0 -> table (k_mem s) d x = t).
Proof.
  intros Hx. unfold has_table, table. rewrite Hdir by exact Hx. destruct Hpages as (_ & Ht & _). destruct (decide (x = 0)) as [E|E].
  - rewrite bool_decide_eq_true_2, user_entry_present, user_entry_frame by assumption. auto.
  - rewrite bool_decide_eq_false_2 by exact E. split; [reflexivity|lia].
Qed.

Lemma one_pte (v : Z) : 0 <= v < NVPAGE -> pte (k_mem s) d v = if decide (v = 0) then user_entry f else 0.
Proof.
  intros Hv. destruct (vpage_split v Hv) as [H1 H2]. unfold pte. destruct (one_table _ H1) as [-> Et]. case_bool_decide as E.
  - rewrite Et, Htab by assumption. destruct (decide (v mod 1024 = 0)), (decide (v = 0)); try reflexivity; Z.div_mod_to_equations; lia.
  - rewrite decide_False; [reflexivity|]. intros ->. apply E. reflexivity.
Qed.

Lemma one_umapped (v : Z) : umapped (k_mem s) d v <-> v = 0.
Proof.
  destruct Hpages as (_ & _ & Hf). split.
  - intros H. pose proof (umapped_vpage _ _ _ H) as Hr. destruct H as [_ H]. rewrite one_pte in H by exact Hr. destruct (decide (v = 0)); [assumption|discriminate].
  - intros ->. split; [unfold UPAGES; lia|]. rewrite one_pte by (unfold NVPAGE; lia). apply user_entry_present, Hf.
Qed.

Lemma one_frame : frame_at (k_mem s) d 0 = f.
Proof. unfold frame_at. rewrite one_pte by (unfold NVPAGE; lia). apply user_entry_frame, Hpages. Qed.

Lemma one_in_table (w : Z) : in_table (k_mem s) d w -> w = d \/ w = t.
Proof.
  intros [->|(x & Hx & Hh & ->)]; [auto|]. destruct (one_table x Hx) as [E1 E2]. rewrite E1 in Hh. apply bool_decide_eq_true in Hh. right. apply E2, Hh.
Qed.

Lemma one_space : space_ok s d [].
Proof.
  split; [split|..].
  - exact Hfree.
  - split; [apply Hpages|set_solver].
  - intros x Hx Hh. destruct (one_table x Hx) as [E1 E2]. rewrite E1 in Hh. apply bool_decide_eq_true in Hh. rewrite (E2 Hh). split_and!; [apply Hpages|apply not_eq_sym, Hne|set_solver].
  - intros x y Hx Hy Hxy Hh Hh'. destruct (one_table x Hx) as [E1 _], (one_table y Hy) as [E2 _]. rewrite E1 in Hh. rewrite E2 in Hh'. apply bool_decide_eq_true in Hh, Hh'. congruence.
  - intros v Hv. apply one_umapped in Hv as ->. rewrite one_frame. split_and!; [apply Hpages|set_solver|]. intros H. apply one_in_table in H. destruct Hne as (_ & N1 & N2). destruct H; congruence.
  - intros v w Hv Hw _. apply one_umapped in Hv, Hw. congruence.
Qed.

Lemma one_writable : uwritable (k_mem s) d 0.
Proof.
  split_and!; [apply one_umapped; reflexivity| |].
  - change (0 / 1024) with 0. rewrite Hdir, decide_True by (reflexivity || lia). destruct (page_V2P t) as [Ha _]; [apply Hpages|]. unfold writable_pte, user_entry.
    rewrite <- lor_flags by (assumption || (unfold PGSIZE; lia)). change PTE_W with (2 ^ 1). rewrite land_pow2_bit, Z.lor_spec by lia. rewrite negb_involutive. apply orb_true_r.
  - rewrite one_pte, decide_True by (reflexivity || (unfold NVPAGE; lia)). destruct (page_V2P f) as [Ha _]; [apply Hpages|]. unfold writable_pte, user_entry.
    rewrite <- lor_flags by (assumption || (unfold PGSIZE; lia)). change PTE_W with (2 ^ 1). rewrite land_pow2_bit, Z.lor_spec by lia. rewrite negb_involutive. apply orb_true_r.
Qed.
End OnePage.

Definition ex_pages : gmap Z Z :=
  wr 0x80202000 104 (wr 0x80202001 105
    (wr32 0x80204000 (user_entry 0x80205000) (wr32 0x80203000 (user_entry 0x80204000)
      (wr32 0x80201000 (user_entry 0x80202000) (wr32 0x80200000 (user_entry 0x80201000) ∅))))).

Definition ex_pipe : kernel :=
  kernel0 <| k_mem := ex_pages |> <| k_freelist := 0 |> <| k_pipes := {[0x80206000 := mk_pipe (replicate 512 0) 0 0 1 1]} |>.

Lemma rd32_wr_other (m : gmap Z Z) (a b c : Z) : a + 4 <= b \/ b < a -> rd32 (wr b c m) a = rd32 m a.
Proof. intros H. unfold rd32. rewrite !rd_wr, !decide_False by lia. reflexivity. Qed.

Lemma ex_entries (a : Z) : a = 0x80200000 \/ a = 0x80201000 \/ a = 0x80203000 \/ a = 0x80204000 ->
  forall x, 0 <= x < 1024 -> rd32 ex_pages (a + 4 * x) = if decide (x = 0) then user_entry (a + 0x1000) else 0.
Proof.
  intros Ha x Hx. unfold ex_pages. rewrite !rd32_wr_other by lia. destruct (decide (x = 0)) as [->|Hne].
  - destruct Ha as [->|[->|[->| ->] ] ]; vm_compute; reflexivity.
  - destruct Ha as [->|[->|[->| ->] ] ]; rewrite !rd32_wr32_other by lia; reflexivity.
Qed.

Lemma ex_pipe_page (a : Z) : a mod 4096 = 0 -> 0x80200000 <= a <= 0x80206000 -> page (L := ex_linker) a.
Proof. intros H1 H2. split; [exact H1|]. cbn. unfold KERNBASE, PHYSTOP. lia. Qed.

Lemma ex_pstate : pstate (L := ex_linker) 0x80206000 0 1 0x80200000 0x80203000 ex_pipe (mk_pipe (replicate 512 0) 0 0 1 1).
Proof.
  assert (P : forall a, a mod 4096 = 0 -> 0x80200000 <= a <= 0x80206000 -> page (L := ex_linker) a) by exact ex_pipe_page.
  assert (W : space_ok (L := ex_linker) ex_pipe 0x80200000 []).
  { apply (one_space (L := ex_linker) ex_pipe 0x80200000 0x80201000 0x80202000); [split_and!; [reflexivity|apply NoDup_nil_2|apply Forall_nil_2]|split_and!; (apply P; [reflexivity|lia])|lia|apply ex_entries; lia..]. }
  assert (R : space_ok (L := ex_linker) ex_pipe 0x80203000 []).
  { apply (one_space (L := ex_linker) ex_pipe 0x80203000 0x80204000 0x80205000); [split_and!; [reflexivity|apply NoDup_nil_2|apply Forall_nil_2]|split_and!; (apply P; [reflexivity|lia])|lia|apply ex_entries; lia..]. }
  split; [reflexivity|split; [reflexivity|cbn; lia|cbn; lia|vm_compute; discriminate]|constructor| | |].
  - split; (exists proc0; reflexivity).
  - exists []. auto.
  - intros v Hv. rewrite (one_umapped (L := ex_linker) ex_pipe 0x80203000 0x80204000 0x80205000) in Hv; [|split_and!; (apply P; [reflexivity|lia])|apply ex_entries; lia..]. subst v.
    change (k_mem ex_pipe) with ex_pages. change (frame_at ex_pages 0x80203000 0) with 0x80205000. split.
    + intros H. apply (one_in_table (L := ex_linker) ex_pipe 0x80200000 0x80201000 0x80202000) in H; [|split_and!; (apply P; [reflexivity|lia])|apply ex_entries; lia..]. lia.
    + intros v Hv. rewrite (one_umapped (L := ex_linker) ex_pipe 0x80200000 0x80201000 0x80202000) in Hv; [|split_and!; (apply P; [reflexivity|lia])|apply ex_entries; lia..]. subst v.
      change (frame_at ex_pages 0x80200000 0) with 0x80202000. discriminate.
Qed.

Lemma ex_wbuf : wbuf 0x80200000 0 [104; 105] ex_pages.
Proof.
  split; [cbn; unfold KERNBASE; lia|repeat constructor; unfold is_byte; lia|]. intros i b Hi.
  destruct i as [|[|i] ]; [injection Hi as <-; split; [split; [vm_compute; intuition discriminate|reflexivity]|reflexivity]..|discriminate].
Qed.

(** A write of two bytes, and the write end is closed. *)
Lemma pipe_is_fifo_witness : let L := ex_linker in let y0 := mk_sys ex_pipe None None true true [] [] in
  exists t1 t2 q, pipewrite (F := Build_Fuel 0) 0x80206000 0 2 (dispatch 0 0x80200000 ex_pipe) = Done 2 t1 /\ pipeclose 0x80206000 1 t1 = Done tt t2 /\
    k_held t2 = [] /\ k_pipes t2 !! 0x80206000 = Some q /\ pqueue q = [104; 105] /\ writeopen q = 0 /\ readopen q <> 0.
Proof.
  intros L y0. assert (Hp : page (L := ex_linker) 0x80206000) by (apply ex_pipe_page; [reflexivity|lia]).
  pose proof (fun y => @pipe_is_fifo (Build_Fuel 0) ex_linker 0x80206000 0 1 0x80200000 0x80203000 Hp y0 y _ ex_pstate eq_refl
    (conj eq_refl eq_refl) ltac:(split_and!; (reflexivity || discriminate)) (conj eq_refl (conj eq_refl eq_refl))) as T.
  destruct (T y0 (rtc_refl _ _)) as (_ & _ & _ & _ & _ & _ & _ & _ & Hw).
  destruct (Hw 0 [104; 105] _ eq_refl ex_wbuf) as [t1 E1]; [vm_compute; discriminate|].
  set (y1 := mk_sys t1 None None true true [([104; 105], 2)] []).
  assert (S1 : pstep (F := Build_Fuel 0) (L := ex_linker) 0x80206000 0 1 0x80200000 0x80203000 y0 y1).
  { eapply pstep_write; [apply wturn_call; [reflexivity|reflexivity|exact ex_wbuf]|]. rewrite E1. reflexivity. }
  destruct (T y1 (rtc_once _ _ S1)) as (_ & _ & _ & _ & _ & _ & Hc & _). destruct (Hc true _ (cturn_write (L := ex_linker) 0x80206000 y1 eq_refl eq_refl)) as [t2 E2].
  set (y2 := mk_sys t2 None None false true [([104; 105], 2)] []).
  assert (S2 : pstep (F := Build_Fuel 0) (L := ex_linker) 0x80206000 0 1 0x80200000 0x80203000 y1 y2).
  { eapply pstep_close; [apply cturn_write; reflexivity|]. rewrite E2. reflexivity. }
  destruct (T y2 (rtc_l _ _ _ _ S1 (rtc_once _ _ S2))) as (Hn & (parts & dn & rest & F1 & F2 & F3 & F4) & _). cbn in F2, F3, F4. subst dn.
  destruct (k_pipes t2 !! 0x80206000) as [q|] eqn:Eq; [|destruct F4; discriminate]. destruct F4 as (-> & _ & F5 & F6).
  exists t1, t2, q. split_and!; [exact E1| |exact Hn|exact Eq| | |apply F6; reflexivity].
  - cbn [sy_k y1] in E2. destruct (pipeclose _ _ t1) as [ [] t|r|t k]; cbn [handed_back] in E2; [congruence|discriminate|].
    unfold release, mbind, M_bind, get in E2. cbn in E2. destruct (negb _) in E2; discriminate E2.
  - rewrite app_nil_r in F2. rewrite <- F2. inversion F1 as [|c d cs ds Hcd Hrest]; subst. inversion Hrest; subst. destruct Hcd as [ [_ ->]|[Hx _] ]; [reflexivity|discriminate Hx].
  - destruct (Z.eq_dec (writeopen q) 0) as [?|Hx]; [assumption|]. apply F5 in Hx. discriminate Hx.
Defined.
