(* ===== verification/SleepLock.v ===== *)
(** * Sleep-locks (sleeplock.c) between processes

    Any number of processes use one sleep-lock; each call runs until it
    returns or sleeps, and between two such turns any other code may run.  The
    lock never has two owners, its fields name the owner, and nobody sleeps for
    a lock that is free. *)

From S2P Require Import Prelude Params Bytes Kernel Print Kalloc Vm Sleep Sched Ide Pipe VmSpec UserSpace Rely BufSpec PipeSpec.

Section SleepLock.
Context {F : Fuel} (l : sleepid).

(** The lock in the table it is part of. *)
Definition lock_of (s : kernel) : option sleeplock :=
  match l with SBuf i => blk <$> k_bufs s !! i | SInode i => ilk <$> k_inodes s !! i end.

Lemma sl_at_run (s : kernel) (k : sleeplock) : lock_of s = Some k -> sl_at l s = Done k s.
Proof.
  unfold lock_of, sl_at. destruct l as [i|i]; intros H; apply fmap_Some in H as (x & Hx & ->).
  - rewrite (bind_Done _ _ _ _ _ (buf_at_some _ _ _ Hx)). reflexivity.
  - rewrite (bind_Done _ _ _ _ _ (inode_at_some _ _ _ Hx)). reflexivity.
Qed.

(** What a change of the lock leaves alone. *)
Definition lock_only (s t : kernel) : Prop := k_held t = k_held s /\ k_cur t = k_cur s /\ k_procs t = k_procs s.

Lemma upd_sl_run (f : sleeplock -> sleeplock) (s : kernel) (k : sleeplock) : lock_of s = Some k ->
  exists t, upd_sl l f s = Done tt t /\ lock_of t = Some (f k) /\ lock_only s t.
Proof.
  unfold lock_of, upd_sl. destruct l as [i|i]; intros H; apply fmap_Some in H as (x & Hx & ->); (eexists; split; [reflexivity|split; [|split_and!; reflexivity] ]);
    cbn; rewrite list_lookup_alter_eq, Hx; reflexivity.
Qed.

(** Process [i] sleeps for the lock. *)
Definition waits (s : kernel) (i : nat) : Prop :=
  exists pr, k_procs s !! i = Some pr /\ state pr = SLEEPING /\ pchan pr = Some (CSleep l).

(** Process [i] is given the processor. *)
Definition run_as (i : nat) (s : kernel) : kernel :=
  s <| k_cur := Some i |> <| k_procs ::= alter (fun pr => pr <| state := RUNNING |>) i |>.

(** The scheduler has done so, with ptable.lock held. *)
Definition run_on (i : nat) (s : kernel) : kernel := run_as i (s <| k_held ::= cons ptable_lock |>).

Definition present_in (i : nat) (s : kernel) : Prop := is_Some (k_procs s !! i) /\ is_Some (lock_of s) /\ k_held s = [].

(** ** A call of acquiresleep *)

Section Caller.
Context (i : nat).

(** Only process [i] has changed, and it is still the same process. *)
Definition moved (s t : kernel) (st : procstate) : Prop :=
  (forall j, j <> i -> k_procs t !! j = k_procs s !! j) /\
  exists pr pr', k_procs s !! i = Some pr /\ k_procs t !! i = Some pr' /\ pid pr' = pid pr /\ state pr' = st.

Definition fell_asleep (g : seg) (_ : nat) (t : kernel) : Prop :=
  (exists k, lock_of (sg_start g) = Some k /\ sl_locked k <> 0 /\ lock_of t = Some k) /\ moved (sg_start g) t SLEEPING /\ k_held t = [ptable_lock].

Definition got_lock (_ : unit) (g : seg) (t : kernel) : Prop :=
  exists k pr, lock_of (sg_start g) = Some k /\ sl_locked k = 0 /\ k_procs t !! i = Some pr /\ lock_of t = Some (mk_sleeplock 1 (pid pr)) /\
    moved (sg_start g) t RUNNING /\ k_held t = [].

Definition lsegs {A : Type} := @segs (run_on i) fell_asleep (present_in i) A.

(** Inside the call, with the spin-lock of the sleep-lock. *)
Definition inside (g : seg) (u : kernel) : Prop :=
  k_held u = [sleep_lk l] /\ k_cur u = Some i /\ lock_of u = lock_of (sg_start g) /\ is_Some (lock_of u) /\ moved (sg_start g) u RUNNING.

Lemma moved_running (s u : kernel) (f : proc -> proc) : is_Some (k_procs s !! i) -> (forall pr, pid (f pr) = pid pr /\ state (f pr) = RUNNING) ->
  k_procs u = alter f i (k_procs s) -> moved s u RUNNING.
Proof.
  intros [pr Hp] Hf E. split; [intros j Hj; rewrite E, list_lookup_alter_ne by congruence; reflexivity|].
  exists pr, (f pr). rewrite E, list_lookup_alter_eq, Hp. destruct (Hf pr). auto.
Qed.

Lemma lock_wait_segs (n : nat) : forall (g : seg) (u : kernel), inside g u -> (n = 0%nat -> sg_slept g = true) ->
  lsegs (while_loop n (fun _ : unit =>
    k ← sl_at l;
    if sl_locked k =? 0 then mret (inr tt)
    else sleep (CSleep l) (sleep_lk l);; mret (inl tt)) tt u) g
    (fun _ g' t => inside g' t /\ exists k, lock_of t = Some k /\ sl_locked k = 0).
Proof.
  induction n as [|n IH]; intros g u Hu Hn; [split; [reflexivity|auto]|]. cbn [while_loop]. destruct Hu as (H1 & H2 & H3 & [k Hk] & H5). unfold lsegs.
  apply segs_bind. eapply segs_done; [exact (sl_at_run u k Hk)|]. destruct (Z.eqb_spec (sl_locked k) 0) as [E|E].
  { cbn. split; [split_and!; try assumption; eauto|eauto]. }
  destruct H5 as [H5 (pr & pr' & P1 & P2 & P3 & P4)].
  destruct (sleep_switch (CSleep l) (sleep_lk l) u i pr' ltac:(discriminate) H1 H2 P2) as (c & Es & Hc).
  apply segs_bind. rewrite Es. cbn [segs]. exists 0%nat. split.
  { split; [exists k; rewrite <- H3; split_and!; [exact Hk|exact E|exact Hk]|]. split; [split|reflexivity].
    - intros j Hj. unfold slept. cbn. rewrite !list_lookup_alter_ne by congruence. apply H5, Hj.
    - exists pr. eexists. split; [exact P1|]. split; [apply slept_proc, P2|]. split; [exact P3|reflexivity]. }
  intros s (Hs1 & Hs2 & Hs3). rewrite Hc by (cbn; rewrite Hs3; reflexivity). cbn [segs]. unfold mret, M_ret. cbn [segs]. apply IH; [|discriminate || reflexivity].
  split_and!; [reflexivity|reflexivity|reflexivity|exact Hs2|].
  apply (moved_running s _ (fun p => p <| state := RUNNING |> <| pchan := None |>)); [exact Hs1|intros p; split; reflexivity|].
  unfold awake, run_on, run_as. cbn. apply list_eq. intros j. destruct (decide (i = j)) as [<-|Hj]; [rewrite !list_lookup_alter_eq; destruct (k_procs s !! i); reflexivity|rewrite !list_lookup_alter_ne by exact Hj; reflexivity].
Qed.

Lemma acquiresleep_segs (s : kernel) : present_in i s -> lsegs (acquiresleep l (run_as i s)) (mk_seg false 0 s) got_lock.
Proof.
  intros (Hp & Hl & Hn). unfold acquiresleep, lsegs. eapply segs_done; [apply acquire_free; cbn; rewrite Hn; set_solver|].
  eapply segs_seq; [apply lock_wait_segs; [|discriminate]|].
  { split_and!; [cbn; rewrite Hn; reflexivity|reflexivity|reflexivity|exact Hl|]. apply (moved_running s _ (fun p => p <| state := RUNNING |>)); [exact Hp|intros p; split; reflexivity|reflexivity]. }
  intros _ g t [(H1 & H2 & H3 & _ & H5) (k & Hk & Hz)]. destruct H5 as [H5 (pr & pr' & P1 & P2 & P3 & P4)].
  destruct (upd_sl_run (fun k => k <| sl_locked := 1 |>) t k Hk) as (t1 & E1 & L1 & A1 & A2 & A3). eapply segs_done; [exact E1|].
  eapply segs_done; [apply curproc_some; rewrite A2; exact H2|]. eapply segs_done; [apply proc_at_some; rewrite A3; exact P2|].
  destruct (upd_sl_run (fun k => k <| sl_pid := pid pr' |>) t1 _ L1) as (t2 & E2 & L2 & B1 & B2 & B3). eapply segs_done; [exact E2|].
  rewrite (release_head (sleep_lk l) [] t2) by (rewrite ?B1, ?A1; first [exact H1|set_solver]). cbn [segs].
  exists k, pr'. rewrite <- H3. split_and!; [exact Hk|exact Hz|cbn; rewrite B3, A3; exact P2|exact L2| |reflexivity].
  split; [intros j Hj; cbn; rewrite B3, A3; apply H5, Hj|]. exists pr, pr'. cbn. rewrite B3, A3. auto.
Qed.
End Caller.

(** [releasesleep] frees the lock and wakes everybody who sleeps for it. *)
Lemma releasesleep_run (i : nat) (s : kernel) (k : sleeplock) : lock_of s = Some k -> k_held s = [] ->
  exists t, releasesleep l (run_as i s) = Done tt t /\ k_held t = [] /\ lock_of t = Some (mk_sleeplock 0 0) /\
    k_procs t = map (wake (Some (CSleep l))) (alter (fun pr => pr <| state := RUNNING |>) i (k_procs s)).
Proof.
  intros Hk Hn. unfold releasesleep. erewrite bind_Done by (apply acquire_free; cbn; rewrite Hn; set_solver).
  match goal with |- context [(_ ≫= _) ?st] => set (s0 := st) end.
  destruct (upd_sl_run (fun k => k <| sl_locked := 0 |>) s0 k Hk) as (t1 & E1 & L1 & A1 & A2 & A3). rewrite (bind_Done _ _ _ _ _ E1).
  destruct (upd_sl_run (fun k => k <| sl_pid := 0 |>) t1 _ L1) as (t2 & E2 & L2 & B1 & B2 & B3). rewrite (bind_Done _ _ _ _ _ E2).
  assert (Hh : k_held t2 = [sleep_lk l]) by (rewrite B1, A1; cbn; rewrite Hn; reflexivity). unfold wakeup.
  erewrite bind_Done; [|erewrite bind_Done by (apply acquire_free; rewrite Hh; set_solver); erewrite bind_Done by reflexivity; apply (release_head ptable_lock [sleep_lk l]); [cbn; rewrite Hh; reflexivity|set_solver] ].
  eexists. split; [apply (release_head (sleep_lk l) []); [reflexivity|set_solver]|]. split; [reflexivity|]. split; [exact L2|]. cbn. rewrite B3, A3. reflexivity.
Qed.

(** How much was done before the last sleep does not matter. *)
Lemma segs_any_done (i : nat) (o : outcome kernel unit) (b : bool) (n m : nat) (s : kernel) :
  lsegs i o (mk_seg b n s) (got_lock i) -> lsegs i o (mk_seg b m s) (got_lock i).
Proof. destruct o as [u t|r|t c]; intros H; [exact H|exact H|]. destruct H as (j & Ha & Hk). exists j. split; [exact Ha|exact Hk]. Qed.

(** ** The system *)

(** The kernel, the processes that sleep inside [acquiresleep] with what is left
    of their calls, and those whose call has returned and that have not
    released the lock. *)
Record lsys : Type := mk_lsys { ls_k : kernel; ls_wait : gmap nat (kernel -> outcome kernel unit); ls_own : list nat }.

(** Process [i] takes a turn: it calls [acquiresleep], goes on with the call it
    sleeps in, or calls [releasesleep] when it has the lock. *)
Inductive lop : Type := OpAcquire | OpRelease.

Inductive lturn (y : lsys) (i : nat) : lop -> outcome kernel unit -> Prop :=
| lturn_call : ls_wait y !! i = None -> i ∉ ls_own y -> is_Some (k_procs (ls_k y) !! i) -> lturn y i OpAcquire (handed_back (acquiresleep l (run_as i (ls_k y))))
| lturn_resume (c : kernel -> outcome kernel unit) : ls_wait y !! i = Some c -> lturn y i OpAcquire (handed_back (resume (run_as i) c (ls_k y)))
| lturn_release : i ∈ ls_own y -> lturn y i OpRelease (handed_back (releasesleep l (run_as i (ls_k y)))).

Definition after_turn (y : lsys) (i : nat) (op : lop) (o : outcome kernel unit) : option lsys :=
  match o with
  | Done _ t =>
      Some (match op with
            | OpAcquire => mk_lsys t (delete i (ls_wait y)) (i :: ls_own y)
            | OpRelease => mk_lsys t (ls_wait y) (filter (fun j => j <> i) (ls_own y))
            end)
  | Halt _ => None
  | Switch t c => Some (mk_lsys t (<[i := c]> (ls_wait y)) (ls_own y))
  end.

(** Other code runs: it leaves the lock, the table of processes and their
    numbers alone, puts nobody to sleep for the lock, and leaves no spin-lock
    held. *)
Definition other_code (s t : kernel) : Prop :=
  k_held t = k_held s /\ lock_of t = lock_of s /\ (forall i, waits t i -> waits s i) /\ forall i, pid <$> k_procs t !! i = pid <$> k_procs s !! i.

Inductive lstep (y : lsys) : lsys -> Prop :=
| lstep_turn (i : nat) (op : lop) (o : outcome kernel unit) (y' : lsys) : lturn y i op o -> after_turn y i op o = Some y' -> lstep y y'
| lstep_other (t : kernel) : other_code (ls_k y) t -> lstep y (mk_lsys t (ls_wait y) (ls_own y)).

(** The fields of the lock name the owner. *)
Definition owner_ok (k : sleeplock) (own : list nat) (s : kernel) : Prop :=
  match own with
  | [] => sl_locked k = 0
  | [i] => sl_locked k <> 0 /\ pid <$> k_procs s !! i = Some (sl_pid k)
  | _ => False
  end.

Record lsys_ok (y : lsys) : Prop := {
  lo_held : k_held (ls_k y) = [];
  lo_lock : exists k, lock_of (ls_k y) = Some k /\ owner_ok k (ls_own y) (ls_k y);
  lo_awake : forall i, waits (ls_k y) i -> ls_own y <> [];
  lo_calls : forall i c, ls_wait y !! i = Some c -> is_Some (k_procs (ls_k y) !! i) /\
    forall s, present_in i s -> lsegs i (c (run_on i s)) (mk_seg true 0 s) (got_lock i)
}.

(** A turn of [acquiresleep]; a fresh call has not slept. *)
Lemma acquire_turn_segs (y : lsys) (i : nat) (o : outcome kernel unit) : lsys_ok y -> lturn y i OpAcquire o ->
  present_in i (ls_k y) /\ exists b o', o = handed_back o' /\ (b = true -> is_Some (ls_wait y !! i)) /\ lsegs i o' (mk_seg b 0 (ls_k y)) (got_lock i).
Proof.
  intros [Hn (k & Hk & _) _ Hc] H. remember OpAcquire as op eqn:Eop. destruct H as [_ _ Hp|c Hw|]; [| |discriminate Eop].
  - assert (Hi : present_in i (ls_k y)) by (split_and!; [exact Hp|eauto|exact Hn]). split; [exact Hi|]. exists false. eexists. split; [reflexivity|]. split; [discriminate|]. apply acquiresleep_segs, Hi.
  - destruct (Hc i c Hw) as [Hp Hs]. assert (Hi : present_in i (ls_k y)) by (split_and!; [exact Hp|eauto|exact Hn]). split; [exact Hi|]. exists true. eexists. split; [reflexivity|]. split; [eauto|].
    rewrite (resume_run _ _ _ Hn). apply Hs, Hi.
Qed.

(** A turn of [releasesleep] returns. *)
Lemma release_turn_run (y : lsys) (i : nat) (o : outcome kernel unit) : lsys_ok y -> lturn y i OpRelease o ->
  i ∈ ls_own y /\ exists t, o = Done tt t /\ k_held t = [] /\ lock_of t = Some (mk_sleeplock 0 0) /\
    k_procs t = map (wake (Some (CSleep l))) (alter (fun pr => pr <| state := RUNNING |>) i (k_procs (ls_k y))).
Proof.
  intros [Hn (k & Hk & _) _ _] H. remember OpRelease as op eqn:Eop. destruct H as [_ _ _|c _|Hi]; [discriminate Eop..|]. split; [exact Hi|].
  destruct (releasesleep_run i (ls_k y) k Hk Hn) as (t & E & H). exists t. rewrite E. split; [reflexivity|exact H].
Qed.

Lemma moved_pid (i : nat) (s t : kernel) (st : procstate) (j : nat) : moved i s t st -> pid <$> k_procs t !! j = pid <$> k_procs s !! j.
Proof.
  intros [H (pr & pr' & P1 & P2 & P3 & _)]. destruct (decide (j = i)) as [->|Hj]; [rewrite P1, P2; cbn; congruence|rewrite H by exact Hj; reflexivity].
Qed.

Lemma moved_is_Some (i : nat) (s t : kernel) (st : procstate) (j : nat) : moved i s t st -> is_Some (k_procs s !! j) -> is_Some (k_procs t !! j).
Proof. intros H Hs. pose proof (moved_pid i s t st j H) as E. destruct Hs as [x Hx]. rewrite Hx in E. destruct (k_procs t !! j); [eauto|discriminate]. Qed.

Lemma moved_waits (i : nat) (s t : kernel) (st : procstate) (j : nat) : moved i s t st -> waits t j -> (j = i /\ st = SLEEPING) \/ waits s j.
Proof.
  intros [H (pr & pr' & P1 & P2 & P3 & P4)] (x & X1 & X2 & X3). destruct (decide (j = i)) as [->|Hj].
  - left. split; [reflexivity|]. rewrite P2 in X1. injection X1 as <-. congruence.
  - right. exists x. rewrite <- H by exact Hj. auto.
Qed.

Lemma owner_free (k : sleeplock) (own : list nat) (s : kernel) : owner_ok k own s -> sl_locked k = 0 -> own = [].
Proof. destruct own as [|i [|j own] ]; cbn; [reflexivity|intros [H _] E; congruence|tauto]. Qed.

Lemma owner_move (k : sleeplock) (own : list nat) (s t : kernel) : (forall i, pid <$> k_procs t !! i = pid <$> k_procs s !! i) -> owner_ok k own s -> owner_ok k own t.
Proof. intros H. destruct own as [|i [|j own] ]; cbn; [auto|rewrite H; auto|tauto]. Qed.

(** The calls that sleep stay as they were when only process [i] has moved. *)
Lemma calls_move (y : lsys) (t : kernel) (j : nat) (c : kernel -> outcome kernel unit) : lsys_ok y -> (forall j, is_Some (k_procs (ls_k y) !! j) -> is_Some (k_procs t !! j)) ->
  ls_wait y !! j = Some c -> is_Some (k_procs t !! j) /\ forall s, present_in j s -> lsegs j (c (run_on j s)) (mk_seg true 0 s) (got_lock j).
Proof. intros Hy Hm Hj. destruct (lo_calls _ Hy j c Hj) as [C1 C2]. split; [exact (Hm j C1)|exact C2]. Qed.

Lemma acquire_turn_ok (y y' : lsys) (i : nat) (o : outcome kernel unit) : lsys_ok y -> lturn y i OpAcquire o -> after_turn y i OpAcquire o = Some y' -> lsys_ok y'.
Proof.
  intros Hy Ht E. destruct (acquire_turn_segs y i o Hy Ht) as [Hi (b & o' & -> & _ & Hs)]. pose proof Hy as [Hn (k & Hk & Ho) Ha Hc]. destruct o' as [u t|r|t c]; [|discriminate E|].
  - injection E as <-. destruct Hs as (k' & pr & K1 & K2 & K3 & K4 & K5 & K6). cbn [sg_start] in *. assert (k' = k) by congruence. subst k'.
    rewrite (owner_free k _ _ Ho K2) in *. split; cbn [ls_k ls_wait ls_own].
    + exact K6.
    + exists (mk_sleeplock 1 (pid pr)). split; [exact K4|]. cbn. rewrite K3. split; [discriminate|reflexivity].
    + intros j _. discriminate.
    + intros j c Hj. apply lookup_delete_Some in Hj as [_ Hj]. exact (calls_move y t j c Hy (fun j => moved_is_Some _ _ _ _ j K5) Hj).
  - destruct Hs as (n & ((k' & K1 & K2 & K3) & K5 & K6) & Hk'). cbn [sg_start] in *. assert (k' = k) by congruence. subst k'.
    rewrite (handed_back_run t c K6) in E. injection E as <-. split; cbn [ls_k ls_wait ls_own].
    + reflexivity.
    + exists k. split; [destruct l; exact K3|]. exact (owner_move _ _ _ _ (fun j => moved_pid i _ _ _ j K5) Ho).
    + intros j _ E. rewrite E in Ho. cbn in Ho. congruence.
    + intros j c' Hj. destruct (decide (i = j)) as [<-|Hne].
      * rewrite lookup_insert_eq in Hj. injection Hj as <-. split; [exact (moved_is_Some _ _ _ _ i K5 (proj1 Hi))|]. intros s Hs. specialize (Hk' s Hs).
        revert Hk'. generalize (c (run_on i s)). intros o. apply segs_any_done.
      * rewrite lookup_insert_ne in Hj by exact Hne. exact (calls_move y t j c' Hy (fun j => moved_is_Some _ _ _ _ j K5) Hj).
Qed.

Lemma release_turn_ok (y y' : lsys) (i : nat) (o : outcome kernel unit) : lsys_ok y -> lturn y i OpRelease o -> after_turn y i OpRelease o = Some y' -> lsys_ok y'.
Proof.
  intros Hy Ht E. destruct (release_turn_run y i o Hy Ht) as (Hi & t & -> & Hn & L' & P'). injection E as <-. pose proof Hy as [_ (k & Hk & Ho) _ Hc].
  assert (Hown : ls_own y = [i]) by (destruct (ls_own y) as [|j [|j' own] ]; cbn in Ho; [set_solver|assert (i = j) by set_solver; congruence|tauto]).
  split; cbn [ls_k ls_wait ls_own]; rewrite ?Hown.
  - exact Hn.
  - exists (mk_sleeplock 0 0). split; [exact L'|]. rewrite filter_cons, decide_False by tauto. reflexivity.
  - intros j (x & X1 & X2 & X3). exfalso. rewrite P', list_lookup_fmap in X1. apply fmap_Some in X1 as (z & _ & ->). unfold wake in *. destruct (bool_decide _) eqn:Eb; [discriminate|].
    apply bool_decide_eq_false_1 in Eb. tauto.
  - intros j c Hj. apply (calls_move y t j c Hy); [|exact Hj]. intros m [x Hx]. rewrite P', list_lookup_fmap. apply fmap_is_Some.
    destruct (decide (i = m)) as [<-|Hm]; [rewrite list_lookup_alter_eq|rewrite list_lookup_alter_ne by exact Hm]; rewrite Hx; eauto.
Qed.

Lemma lstep_ok (y y' : lsys) : lsys_ok y -> lstep y y' -> lsys_ok y'.
Proof.
  intros Hy Hs. destruct Hs as [i [|] o y' Ht E|t (T0 & T1 & T2 & T3)]; [exact (acquire_turn_ok y y' i o Hy Ht E)|exact (release_turn_ok y y' i o Hy Ht E)|].
  pose proof Hy as [Hn (k & Hk & Ho) Ha Hc]. split; cbn [ls_k ls_wait ls_own].
  - congruence.
  - exists k. rewrite T1. split; [exact Hk|]. exact (owner_move _ _ _ _ T3 Ho).
  - intros j Hj. exact (Ha j (T2 j Hj)).
  - intros j c Hj. apply (calls_move y t j c Hy); [|exact Hj]. intros m [x Hx]. specialize (T3 m). rewrite Hx in T3. destruct (k_procs t !! m); [eauto|discriminate].
Qed.

(** C5. A sleep-lock excludes.  Processes, as many as there are, call
    [acquiresleep] and [releasesleep] on one lock, in any order of their turns
    and with other code between them.  In every state they reach at most one of
    them is between its [acquiresleep] and its [releasesleep]; the lock is marked
    as held exactly when there is one, with the number of that process; whoever
    sleeps for the lock, the lock is held, so that a wake-up is still to come;
    no turn leaves a spin-lock held; [releasesleep] always returns, and
    [acquiresleep] never panics or faults (one that has slept may exceed the
    given number of vain wake-ups). *)
Theorem sleeplock_excludes (y0 y : lsys) (k0 : sleeplock) (H0 : lock_of (ls_k y0) = Some k0) (Hfree : sl_locked k0 = 0) (Hheld : k_held (ls_k y0) = [])
    (Hidle : ls_wait y0 = ∅ /\ ls_own y0 = []) (Hnone : forall i, ~ waits (ls_k y0) i) (Hrun : rtc lstep y0 y) :
  (length (ls_own y) <= 1)%nat /\
  (exists k, lock_of (ls_k y) = Some k /\ (sl_locked k <> 0 <-> ls_own y <> []) /\ forall i, i ∈ ls_own y -> pid <$> k_procs (ls_k y) !! i = Some (sl_pid k)) /\
  (forall i, waits (ls_k y) i -> ls_own y <> []) /\
  k_held (ls_k y) = [] /\
  (forall i r, lturn y i OpAcquire (Halt r) -> r = NoFuel /\ is_Some (ls_wait y !! i)) /\
  (forall i o, lturn y i OpRelease o -> exists t, o = Done tt t /\ lock_of t = Some (mk_sleeplock 0 0)).
Proof.
  assert (Hok : lsys_ok y).
  { assert (H : lsys_ok y0).
    { destruct Hidle as [Hw Ho]. split; rewrite ?Hw, ?Ho; [exact Hheld|exists k0; auto|intros i Hi; destruct (Hnone i Hi)|intros i c Hi; rewrite lookup_empty in Hi; discriminate]. }
    clear -H Hrun. induction Hrun as [y|y y1 y2 Hs _ IH]; [exact H|]. apply IH, (lstep_ok y); assumption. }
  pose proof Hok as [Hn (k & Hk & Ho) Ha _]. split_and!.
  - destruct (ls_own y) as [|i [|j own] ]; cbn in *; [lia|lia|tauto].
  - exists k. split; [exact Hk|]. destruct (ls_own y) as [|i [|j own] ]; cbn in *; [split; [tauto|set_solver]| |tauto].
    destruct Ho as [O1 O2]. split; [split; [discriminate|tauto]|]. intros j Hj. assert (j = i) by set_solver. subst j. exact O2.
  - exact Ha.
  - exact Hn.
  - intros i r Ht. destruct (acquire_turn_segs y i _ Hok Ht) as [_ (b & o' & E & Hb & Hs)]. destruct o' as [u t|r'|t c]; [discriminate E| |].
    + injection E as ->. destruct Hs as [-> Hs]. cbn in Hs. auto.
    + destruct Hs as (n & (_ & _ & K) & _). rewrite (handed_back_run t c K) in E. discriminate E.
  - intros i o Ht. destruct (release_turn_run y i o Hok Ht) as (_ & t & E & _ & Hl & _). eauto.
Qed.
End SleepLock.

(** Process 0 takes the lock of a buffer, process 1 wants it, and process 0
    releases it. *)
Definition ex_lock : lsys := mk_lsys kernel0 ∅ [].

Lemma sleeplock_excludes_witness : exists y y', rtc (lstep (F := Build_Fuel 0) (SBuf 0)) ex_lock y /\ ls_own y = [0%nat] /\ is_Some (ls_wait y !! 1%nat) /\
  (length (ls_own y) <= 1)%nat /\ (exists k, lock_of (SBuf 0) (ls_k y) = Some k /\ sl_locked k <> 0) /\
  lstep (F := Build_Fuel 0) (SBuf 0) y y' /\ ls_own y' = [] /\ k_held (ls_k y') = [].
Proof.
  assert (H : exists y, rtc (lstep (F := Build_Fuel 0) (SBuf 0)) ex_lock y /\ ls_own y = [0%nat] /\ is_Some (ls_wait y !! 1%nat)).
  { eexists. split.
    - eapply rtc_l; [eapply (lstep_turn _ _ 0%nat OpAcquire); [apply lturn_call; [reflexivity|apply not_elem_of_nil|eexists; reflexivity]|reflexivity]|].
      apply rtc_once. eapply (lstep_turn _ _ 1%nat OpAcquire); [apply lturn_call; [reflexivity|cbn; set_solver|eexists; reflexivity]|reflexivity].
    - split; [reflexivity|eexists; reflexivity]. }
  destruct H as (y & Hr & Ho & Hw). exists y.
  assert (T : forall y, rtc (lstep (F := Build_Fuel 0) (SBuf 0)) ex_lock y -> _) by (intros z;
    refine (sleeplock_excludes (F := Build_Fuel 0) (SBuf 0) ex_lock z sleeplock0 eq_refl eq_refl eq_refl (conj eq_refl eq_refl) _);
    intros i (pr & P1 & P2 & _); cbn in P1; assert (Hq : pr ∈ replicate NPROC proc0) by (apply list_elem_of_lookup; exists i; exact P1);
    apply elem_of_replicate in Hq as [-> _]; discriminate P2).
  destruct (T y Hr) as (A & (k & B1 & B2 & _) & _ & _ & _ & R).
  assert (Hin : 0%nat ∈ ls_own y) by (rewrite Ho; left).
  destruct (R 0%nat _ (@lturn_release (Build_Fuel 0) (SBuf 0) y 0%nat Hin)) as (t & E & _).
  assert (S1 : lstep (F := Build_Fuel 0) (SBuf 0) y (mk_lsys t (ls_wait y) (filter (fun j => j <> 0%nat) (ls_own y)))).
  { eapply (lstep_turn _ _ 0%nat OpRelease); [apply lturn_release; exact Hin|rewrite E; reflexivity]. }
  destruct (T _ (rtc_r _ _ _ Hr S1)) as (_ & _ & _ & Hn & _).
  eexists. split; [exact Hr|]. split; [exact Ho|]. split; [exact Hw|]. split; [exact A|]. split; [exists k; split; [exact B1|apply B2; rewrite Ho; discriminate]|].
  split; [exact S1|]. split; [cbn; rewrite Ho; reflexivity|exact Hn].
Defined.
