(* ===== verification/WaitSpec.v ===== *)
(** * wait: a child that has exited is taken out of the table

    What [wait] does on each of its branches; the pages of the child go back to
    the free list. *)

From S2P Require Import Prelude Params Bytes CString Kernel Print Kalloc Vm Umem Sleep Sched Ide Bio Log Fs Pipe File Proc VmSpec UserSpace AddressSpace VmCopy Rely BufSpec PipeSpec ForkSpec.

(** ** The scan *)

Definition child (c : nat) (p : proc) : Prop := parent p = Some c.

(** The first zombie among the children. *)
Definition first_zombie (ps : list proc) (c i : nat) (p : proc) : Prop :=
  ps !! i = Some p /\ child c p /\ state p = ZOMBIE /\ forall j q, (j < i)%nat -> ps !! j = Some q -> child c q -> state q <> ZOMBIE.

Lemma wait_scan_spec (c : nat) (ps : list proc) : forall (k : nat) (b : bool),
  match wait_scan ps c k b with
  | inr i => exists j p, i = (k + j)%nat /\ first_zombie ps c j p
  | inl b' => (forall p, p ∈ ps -> child c p -> state p <> ZOMBIE) /\ (b' = true <-> b = true \/ exists p, p ∈ ps /\ child c p)
  end.
Proof.
  induction ps as [|p ps IH]; intros k b; cbn [wait_scan].
  { split; [set_solver|]. split; [auto|intros [H|(p & H & _)]; [exact H|set_solver] ]. }
  assert (Hshift : forall j q, ~ (child c p /\ state p = ZOMBIE) -> first_zombie ps c j q -> first_zombie (p :: ps) c (S j) q).
  { intros j q Hp (F1 & F2 & F3 & F4). split_and!; [exact F1|exact F2|exact F3|]. intros [|j'] q' Hj Hq Hc; [injection Hq as <-; tauto|apply (F4 j' q'); [lia|exact Hq|exact Hc] ]. }
  destruct (decide (parent p = Some c)) as [E|E]; [rewrite bool_decide_eq_true_2 by exact E|rewrite bool_decide_eq_false_2 by exact E]; cbn [negb].
  - destruct (decide (state p = ZOMBIE)) as [Z|Z]; [rewrite bool_decide_eq_true_2 by exact Z|rewrite bool_decide_eq_false_2 by exact Z].
    + exists 0%nat, p. split; [lia|]. split_and!; [reflexivity|exact E|exact Z|]. intros j q Hj. lia.
    + specialize (IH (S k) true). destruct (wait_scan ps c (S k) true) as [b'|i].
      * destruct IH as [I1 I2]. split; [intros q Hq Hc; apply elem_of_cons in Hq as [->|Hq]; [exact Z|exact (I1 q Hq Hc)]|].
        split; [intros _; right; exists p; split; [set_solver|exact E]|intros _; apply I2; auto].
      * destruct IH as (j & q & -> & Hz). exists (S j), q. split; [lia|]. apply Hshift; [tauto|exact Hz].
  - specialize (IH (S k) b). destruct (wait_scan ps c (S k) b) as [b'|i].
    + destruct IH as [I1 I2]. split; [intros q Hq Hc; apply elem_of_cons in Hq as [->|Hq]; [destruct (E Hc)|exact (I1 q Hq Hc)]|].
      rewrite I2. split; (intros [H|(q & Hq & Hc)]; [auto|]); right; exists q; (split; [|exact Hc]); [set_solver|].
      apply elem_of_cons in Hq as [->|Hq]; [destruct (E Hc)|exact Hq].
    + destruct IH as (j & q & -> & Hz). exists (S j), q. split; [lia|]. apply Hshift; [intros [H _]; exact (E H)|exact Hz].
Qed.

(** ** Giving back a page that is not part of an address space *)

Section Free.
Context {L : Linker}.

Lemma space_kfree (s t : kernel) (d v : Z) (l : list Z) : space_ok s d l -> page v -> outside (k_mem s) d v -> free_pages t (v :: l) ->
  (forall b, ~ (v <= b < v + PGSIZE) -> rd (k_mem t) b = rd (k_mem s) b) ->
  space_ok t d (v :: l) /\ (forall w, in_table (k_mem t) d w <-> in_table (k_mem s) d w) /\
  (forall u, umapped (k_mem t) d u <-> umapped (k_mem s) d u) /\ (forall u, umapped (k_mem s) d u -> frame_at (k_mem t) d u = frame_at (k_mem s) d u) /\
  (forall u, 0 <= u < NVPAGE -> pte (k_mem t) d u = pte (k_mem s) d u).
Proof.
  intros Hok Hp [Ht Hu] Hf Hm0. assert (Hm : forall w, page w -> w <> v -> agree (k_mem s) (k_mem t) w).
  { intros w Hw Hne b Hb. apply Hm0. destruct (page_apart w v Hw Hp Hne); lia. }
  destruct (give_page_ok s t d v l Hok Hf Hp Ht Hu Hm) as (O & P & T).
  assert (E : forall u, 0 <= u < UPAGES -> pte (k_mem t) d u = pte (k_mem s) d u) by (intros u Hr; apply P; unfold UPAGES, NVPAGE in *; lia).
  split_and!; [exact O|exact T| | |exact P].
  - intros u. unfold umapped. split; intros [H1 H2]; rewrite (E u H1) in *; auto.
  - intros u [H1 _]. unfold frame_at. rewrite (E u H1). reflexivity.
Qed.
End Free.

(** ** wait *)

Section Wait.
Context {F : Fuel} {L : Linker}.

(** The slot of a child that has been waited for. *)
Definition reaped (p : proc) : proc :=
  p <| kstack := 0 |> <| pid := 0 |> <| parent := None |> <| name ::= <[0%nat := 0]> |> <| killed := 0 |> <| state := UNUSED |>.

(** The pages of a process: its stack, its page tables and its memory. *)
Definition pages_of (m : gmap Z Z) (p : proc) (w : Z) : Prop :=
  w = kstack p \/ in_table m (pgdir p) w \/ exists v, umapped m (pgdir p) v /\ w = frame_at m (pgdir p) v.

(** A zombie child is taken out. *)
Lemma reap_run (s : kernel) (c i : nat) (p : proc) (l : list Z) : k_held s = [ptable_lock] -> wait_scan (k_procs s) c 0 false = inr i ->
  k_procs s !! i = Some p -> space_ok s (pgdir p) l -> page (kstack p) -> (kstack p ∉ l) -> outside (k_mem s) (pgdir p) (kstack p) ->
  exists t l0, wait_turn c tt s = Done (inr (pid p)) t /\ k_held t = [] /\ k_procs t = <[i := reaped p]> (k_procs s) /\
    free_pages t (l0 ++ l) /\ (forall w, w ∈ l0 <-> pages_of (k_mem s) p w) /\ (forall w, page w -> w ∉ l0 -> agree (k_mem s) (k_mem t) w) /\
    k_files t = k_files s /\ k_inodes t = k_inodes s.
Proof.
  intros Hh Hw Hp Hs Hk Hn Ho. pose proof (lookup_lt_Some _ _ _ Hp) as Hlt. pose proof (vo_free _ _ _ (so_vm _ _ _ Hs)) as Hf. unfold wait_turn.
  rewrite (bind_Done get _ _ _ _ eq_refl), Hw, (bind_Done _ _ _ _ _ (proc_at_some _ _ _ Hp)).
  destruct (kfree_free_pages (kstack p) s l Hf Hk Hn ltac:(rewrite Hh; set_solver)) as (s1 & E1 & F1 & M1 & T1). rewrite (bind_Done _ _ _ _ _ E1).
  destruct (space_kfree s s1 (pgdir p) (kstack p) l Hs Hk Ho F1 M1) as (S1 & I1 & U1 & R1 & _).
  assert (P1 : k_procs s1 = <[i := p]> (k_procs s)) by (rewrite T1; apply slot_same, Hp). rewrite (bind_Done _ _ _ _ _ (upd_slot i _ p (k_procs s) s1 Hlt P1)).
  match goal with |- context [(freevm _ ≫= _) ?st] => set (s2 := st) end.
  destruct (freevm_run (pgdir p) s2 (kstack p :: l)) as (t & l0 & E2 & F2 & T2 & M2 & A2); [apply (space_ext s1); [exact S1|reflexivity|reflexivity]|cbn; rewrite T1; cbn; rewrite Hh; set_solver|].
  rewrite (bind_Done _ _ _ _ _ E2).
  assert (P2 : k_procs t = <[i := p <| kstack := 0 |>]> (k_procs s)) by (rewrite T2; reflexivity). rewrite (bind_Done _ _ _ _ _ (upd_slot i _ _ (k_procs s) t Hlt P2)).
  assert (Hh2 : k_held t = [ptable_lock]) by (rewrite T2; cbn; rewrite T1; exact Hh).
  erewrite bind_Done by (apply (release_head ptable_lock []); [exact Hh2|set_solver]).
  eexists _, (l0 ++ [kstack p]). split; [reflexivity|]. split; [reflexivity|]. split; [reflexivity|].
  split; [rewrite <- app_assoc; exact F2|]. change (k_mem s2) with (k_mem s1) in *. split; [|split].
  - intros w. rewrite elem_of_app, M2, I1. setoid_rewrite U1. unfold pages_of. split.
    + intros [ [H|(v & Hv & ->)]|H]; [auto|right; right; exists v; split; [exact Hv|apply R1, Hv]|left; set_solver].
    + intros [->|[H|(v & Hv & ->)] ]; [right; set_solver|auto|left; right; exists v; split; [exact Hv|symmetry; apply R1, Hv] ].
  - intros w Hpw Hnw b Hb. rewrite (A2 w Hpw) by set_solver || exact Hb. apply M1. destruct (page_apart w (kstack p) Hpw Hk); [set_solver|lia|lia].
  - cbn. rewrite T2. cbn. rewrite T1. split; reflexivity.
Qed.

Lemma sleep_table (ch : chan) (s : kernel) (i : nat) (pr : proc) : k_held s = [ptable_lock] -> k_cur s = Some i -> k_procs s !! i = Some pr ->
  exists k, sleep ch ptable_lock s = Switch (slept i ch s) k /\ forall s', k s' = Done tt (s' <| k_procs ::= alter (fun pr => pr <| pchan := None |>) i |>).
Proof.
  intros Hh Hc Hp. unfold sleep. rewrite (bind_Done _ _ _ _ _ (myproc_some i s Hc)), bool_decide_eq_true_2 by reflexivity.
  rewrite (bind_Done (mret tt) _ s s tt eq_refl). do 2 rewrite (bind_Done _ _ _ _ _ (upd_proc_run _ _ _)).
  assert (Es : sched (slept i ch s) = Switch (slept i ch s) (fun s' => Done tt s')).
  { unfold sched. rewrite (bind_Done _ _ _ _ _ (curproc_some i (slept i ch s) Hc)), (bind_Done _ _ _ _ _ (get_run _)).
    unfold holding. rewrite bool_decide_eq_true_2 by (cbn; set_solver). cbn [negb k_held slept]. simpl.
    rewrite (bind_Done _ _ _ _ _ (proc_at_some i _ (slept i ch s) (slept_proc i ch s pr Hp))). rewrite bool_decide_eq_false_2 by discriminate. reflexivity. }
  match goal with |- context [(sched ≫= _) ?st] => replace st with (slept i ch s) by (unfold slept; rewrite <- Hh; reflexivity) end.
  unfold mbind at 1, M_bind at 1. rewrite Es. simpl. eexists. split; [reflexivity|]. intros s'. reflexivity.
Qed.

(** No zombie among the children. *)
Definition no_zombie (s : kernel) (c : nat) : Prop := forall p, p ∈ k_procs s -> child c p -> state p <> ZOMBIE.
Definition has_child (s : kernel) (c : nat) : Prop := exists p, p ∈ k_procs s /\ child c p.

Lemma scan_none (s : kernel) (c : nat) : no_zombie s c -> exists b, wait_scan (k_procs s) c 0 false = inl b /\ (b = true <-> has_child s c).
Proof.
  intros Hn. pose proof (wait_scan_spec c (k_procs s) 0 false) as H. destruct (wait_scan (k_procs s) c 0 false) as [b|i].
  - exists b. split; [reflexivity|]. rewrite (proj2 H). unfold has_child. split; [intros [E|E]; [discriminate|exact E]|auto].
  - destruct H as (j & p & -> & H1 & H2 & H3 & _). destruct (Hn p); [apply list_elem_of_lookup; eauto|exact H2|exact H3].
Qed.

Lemma scan_first (s : kernel) (c i : nat) (p : proc) : first_zombie (k_procs s) c i p -> wait_scan (k_procs s) c 0 false = inr i.
Proof.
  intros (Z1 & Z2 & Z3 & Z4). pose proof (wait_scan_spec c (k_procs s) 0 false) as H. destruct (wait_scan (k_procs s) c 0 false) as [b|k].
  - destruct (proj1 H p); [apply list_elem_of_lookup; eauto|exact Z2|exact Z3].
  - destruct H as (j & q & -> & W1 & W2 & W3 & W4). f_equal. cbn. destruct (Nat.lt_trichotomy j i) as [Hlt|[E|Hlt] ]; [|exact E|].
    + destruct (Z4 j q Hlt W1 W2 W3).
    + destruct (W4 i p Hlt Z1 Z2 Z3).
Qed.

Lemma wait_enter (s : kernel) (c : nat) : k_held s = [] -> k_cur s = Some c ->
  wait s = while_loop fuel (wait_turn c) tt (s <| k_held := [ptable_lock] |>).
Proof.
  intros Hh Hc. unfold wait. rewrite (bind_Done _ _ _ _ _ (curproc_some c s Hc)). erewrite bind_Done by (apply acquire_free; rewrite Hh; set_solver). rewrite Hh. reflexivity.
Qed.

(** C22. [wait] on each of its branches, for process [c].  When a child is a
    zombie it returns the number of the first one at once; the child's slot is
    free again, every other process is as before, and its pages, the stack, the
    page tables and the memory, are added to the free list, each once, while no
    other page changes.  Without a zombie it returns -1 if there is no child or
    the process has been killed, and changes nothing.  Otherwise it gives up the
    processor, asleep on its own slot, where [exit] of a child wakes it, and
    when it is resumed it looks again. *)
Theorem wait_reaps_child (s : kernel) (c : nat) (pr : proc) : k_held s = [] -> k_cur s = Some c -> k_procs s !! c = Some pr ->
  (forall i p l, first_zombie (k_procs s) c i p -> space_ok s (pgdir p) l -> page (kstack p) -> kstack p ∉ l -> outside (k_mem s) (pgdir p) (kstack p) ->
     exists t l0, wait s = Done (pid p) t /\ k_procs t = <[i := reaped p]> (k_procs s) /\ free_pages t (l0 ++ l) /\
       (forall w, w ∈ l0 <-> pages_of (k_mem s) p w) /\ (forall w, page w -> w ∉ l0 -> agree (k_mem s) (k_mem t) w) /\ k_held t = []) /\
  (no_zombie s c -> ~ has_child s c \/ killed pr <> 0 -> wait s = Done (-1) s) /\
  (no_zombie s c -> has_child s c -> killed pr = 0 ->
     exists k, wait s = Switch (slept c (CProc c) s) k /\
       forall s', k s' = while_loop fuel_pred (wait_turn c) tt (s' <| k_procs ::= alter (fun pr => pr <| pchan := None |>) c |>)).
Proof.
  intros Hh Hc Hp. rewrite (wait_enter s c Hh Hc). unfold fuel. cbn [while_loop]. set (s0 := s <| k_held := [ptable_lock] |>). split_and!.
  - intros i p l Hz Hs Hk Hn Ho.
    destruct (reap_run s0 c i p l eq_refl (scan_first s c i p Hz) (proj1 Hz)) as (t & l0 & E & H1 & H2 & H3 & H4 & H5 & _); [apply (space_ext s); [exact Hs|reflexivity|reflexivity]|exact Hk|exact Hn|exact Ho|].
    rewrite (bind_Done _ _ _ _ _ E). exists t, l0. split; [reflexivity|]. auto 10.
  - intros Hn Hor. destruct (scan_none s c Hn) as (b & Eb & Hb). unfold wait_turn. erewrite bind_Done.
    2: { rewrite (bind_Done get _ _ _ _ eq_refl). change (k_procs s0) with (k_procs s). rewrite Eb, (bind_Done _ _ _ _ _ (proc_at_some c pr s0 Hp)).
         replace (negb b || negb (killed pr =? 0)) with true.
         - erewrite bind_Done by (apply (release_head ptable_lock []); [reflexivity|set_solver]). reflexivity.
         - destruct Hor as [H|H]; [destruct b; [destruct (H (proj1 Hb eq_refl))|reflexivity]|rewrite (proj2 (Z.eqb_neq _ _)) by exact H; rewrite orb_true_r; reflexivity]. }
    unfold mret, M_ret. f_equal. unfold s0. rewrite <- Hh. reflexivity.
  - intros Hn Hch Hk. destruct (scan_none s c Hn) as (b & Eb & Hb). destruct (sleep_table (CProc c) s0 c pr eq_refl Hc Hp) as (k & Es & Hk').
    assert (Et : wait_turn c tt s0 = obind (Switch (slept c (CProc c) s0) k) (fun _ => mret (inl tt))).
    { unfold wait_turn. rewrite (bind_Done get _ _ _ _ eq_refl). change (k_procs s0) with (k_procs s). rewrite Eb, (bind_Done _ _ _ _ _ (proc_at_some c pr s0 Hp)).
      rewrite (proj2 Hb Hch), Hk. cbn [Z.eqb negb orb]. unfold mbind, M_bind. rewrite Es. reflexivity. }
    unfold mbind, M_bind. rewrite Et. cbn [obind]. eexists. split; [reflexivity|]. intros s'. cbv beta. rewrite Hk'. reflexivity.
Qed.
End Wait.

(** Process 0 waits for process 1, a zombie with one page of memory. *)
Definition ex_stack : Z := 0x80205000.

Definition ex_zombie : proc := proc0 <| sz := 4000 |> <| pgdir := ex_dir |> <| kstack := ex_stack |> <| state := ZOMBIE |> <| pid := 7 |> <| parent := Some 0%nat |>.

Definition ex_wait : kernel := ex_vm <| k_cur := Some 0%nat |> <| k_procs ::= <[0%nat := proc0 <| state := RUNNING |> <| pid := 1 |>]> |>
  <| k_procs ::= <[1%nat := ex_zombie]> |>.

Lemma ex_stack_page : page (L := ex_linker) ex_stack.
Proof. split; [reflexivity|vm_compute; split; [discriminate|reflexivity] ]. Qed.

Lemma ex_stack_outside : outside ex_mem ex_dir ex_stack.
Proof.
  split.
  - intros [H|(d & Hd & Hh & H)]; [discriminate H|]. rewrite ex_has_table in Hh by exact Hd. apply bool_decide_eq_true_1 in Hh. subst d. discriminate H.
  - intros v [Hv Hu]. unfold frame_at. rewrite ex_pte in * by (unfold UPAGES, NVPAGE in *; lia). destruct (decide (v = 0)); [vm_compute; discriminate|discriminate Hu].
Qed.

Lemma wait_reaps_child_witness : exists t l0, wait (F := Build_Fuel 0) (L := ex_linker) ex_wait = Done 7 t /\
  free_pages (L := ex_linker) t (l0 ++ [ex_free1; ex_free2]) /\ ex_stack ∈ l0 /\ ex_frame ∈ l0.
Proof.
  destruct (wait_reaps_child (F := Build_Fuel 0) (L := ex_linker) ex_wait 0 (proc0 <| state := RUNNING |> <| pid := 1 |>)) as (H & _ & _); [reflexivity..|].
  destruct (H 1%nat ex_zombie [ex_free1; ex_free2]) as (t & l0 & E & _ & F1 & M & _).
  - split; [reflexivity|]. split; [reflexivity|]. split; [reflexivity|]. intros j q Hj Hq Hc. destruct j; [injection Hq as <-; discriminate Hc|lia].
  - apply (space_ext (L := ex_linker) ex_vm); [apply ex_space_ok|reflexivity|reflexivity].
  - apply ex_stack_page.
  - vm_compute. intros Hn. repeat (inversion Hn as [|? ? ? Hn']; subst; clear Hn; rename Hn' into Hn).
  - apply ex_stack_outside.
  - exists t, l0. split; [exact E|]. split; [exact F1|]. split; apply M; [left; reflexivity|right; right; exists 0; split; [split; [vm_compute; split; [discriminate|reflexivity]|reflexivity]|reflexivity] ].
Defined.
