(* ===== verification/JoinSpec.v ===== *)
(** * thread_join: a thread that has exited is taken out of the table

    [thread_join] waits like [wait], for one thread.  It hands over the value
    the thread returned and gives back the thread's stack, but keeps the address
    space. *)

From S2P Require Import Prelude Params Bytes CString Kernel Print Kalloc Vm Umem Sleep Sched Ide Bio Log Fs Pipe File Proc Thread VmSpec UserSpace AddressSpace VmCopy Rely BufSpec PipeSpec ForkSpec ThreadSpec WaitSpec.

(** ** The scan *)

(** The scan of [wait] on a table in which other processes have no parent. *)
Definition only_thread (th : Z) (p : proc) : proc := if pid p =? th then p else p <| parent := None |>.

Lemma join_scan_wait (c : nat) (th : Z) (ps : list proc) : forall k b, join_scan ps c k th 0 b = wait_scan (map (only_thread th) ps) c k b.
Proof.
  induction ps as [|p ps IH]; intros k b; [reflexivity|]. cbn [join_scan wait_scan map]. change (0 =? 0) with true. change (0 =? 1) with false. cbn [andb]. rewrite orb_false_r.
  destruct (pid p =? th) eqn:E; cbn [negb].
  - assert (Ho : only_thread th p = p) by (unfold only_thread; rewrite E; reflexivity). rewrite Ho, orb_false_r.
    destruct (bool_decide (parent p = Some c)); cbn [negb]; [|apply IH]. destruct (bool_decide (state p = ZOMBIE)); [reflexivity|apply IH].
  - assert (Ho : only_thread th p = p <| parent := None |>) by (unfold only_thread; rewrite E; reflexivity). rewrite Ho, orb_true_r. apply IH.
Qed.

(** Thread [th] of process [c]. *)
Definition thread_child (c : nat) (th : Z) (p : proc) : Prop := child c p /\ pid p = th.

Lemma only_thread_child (c : nat) (th : Z) (p : proc) : child c (only_thread th p) <-> thread_child c th p.
Proof. unfold thread_child, child, only_thread. destruct (Z.eqb_spec (pid p) th); cbn; intuition discriminate. Qed.

Lemma only_thread_state (th : Z) (p : proc) : state (only_thread th p) = state p.
Proof. unfold only_thread. destruct (pid p =? th); reflexivity. Qed.

(** The first slot with the thread, as a zombie. *)
Definition exited (ps : list proc) (c : nat) (th : Z) (i : nat) (p : proc) : Prop :=
  ps !! i = Some p /\ thread_child c th p /\ state p = ZOMBIE /\ forall j q, (j < i)%nat -> ps !! j = Some q -> thread_child c th q -> state q <> ZOMBIE.

Definition not_exited (s : kernel) (c : nat) (th : Z) : Prop := forall p, p ∈ k_procs s -> thread_child c th p -> state p <> ZOMBIE.
Definition has_thread (s : kernel) (c : nat) (th : Z) : Prop := exists p, p ∈ k_procs s /\ thread_child c th p.

Lemma join_scan_first (s : kernel) (c : nat) (th : Z) (i : nat) (p : proc) : exited (k_procs s) c th i p -> join_scan (k_procs s) c 0 th 0 false = inr i.
Proof.
  intros (Z1 & Z2 & Z3 & Z4). rewrite join_scan_wait. set (s' := s <| k_procs := map (only_thread th) (k_procs s) |>).
  change (map (only_thread th) (k_procs s)) with (k_procs s'). apply (scan_first s' c i (only_thread th p)). split_and!.
  - cbn. rewrite list_lookup_fmap, Z1. reflexivity.
  - apply only_thread_child, Z2.
  - rewrite only_thread_state. exact Z3.
  - intros j q Hj Hq Hc. cbn in Hq. rewrite list_lookup_fmap in Hq. apply fmap_Some in Hq as (q' & Hq' & ->). rewrite only_thread_state. apply (Z4 j q' Hj Hq'), only_thread_child, Hc.
Qed.

Lemma join_scan_none (s : kernel) (c : nat) (th : Z) : not_exited s c th -> exists b, join_scan (k_procs s) c 0 th 0 false = inl b /\ (b = true <-> has_thread s c th).
Proof.
  intros Hn. set (s' := s <| k_procs := map (only_thread th) (k_procs s) |>). destruct (scan_none s' c) as (b & E & Hb).
  - intros p Hp Hc. apply list_elem_of_fmap in Hp as (q & -> & Hq). rewrite only_thread_state. apply (Hn q Hq), only_thread_child, Hc.
  - exists b. rewrite join_scan_wait. split; [exact E|]. rewrite Hb. unfold has_child, has_thread. cbn. split.
    + intros (p & Hp & Hc). apply list_elem_of_fmap in Hp as (q & -> & Hq). exists q. split; [exact Hq|apply only_thread_child, Hc].
    + intros (q & Hq & Hc). exists (only_thread th q). split; [apply list_elem_of_fmap; eauto|apply only_thread_child, Hc].
Qed.

(** ** Taking the thread down *)

Section Join.
Context {F : Fuel} {L : Linker}.

(** The slot of a thread that has been joined. *)
Definition joined (p : proc) : proc :=
  p <| kstack := 0 |> <| pid := 0 |> <| tid := 0 |> <| parent := None |> <| name ::= <[0%nat := 0]> |> <| killed := 0 |> <| state := UNUSED |>.

(** Its maker: the slot is free, and the size is computed from the [mtid] of
    the thread, not of the maker. *)
Definition maker_joined (p pr : proc) : proc :=
  let th := <[Z.to_nat (tid p) := 0]> (thread pr) in
  pr <| thread := th |> <| mtid := if mtid pr =? tid p then last_slot (Z.to_nat (tid p)) th (tid p) (mtid pr) else mtid pr |>
     <| sz := u32 (osz pr + 2 * mtid p * PGSIZE) |>.

(** Thread [p] of [pr] in the address space of both, with a kernel stack and
    the two pages from page [b] on; the value goes to address [rv]. *)
Record can_join (s : kernel) (pr p : proc) (b rv : Z) (l : list Z) : Prop := {
  cj_dir : pgdir p = pgdir pr;
  cj_cr3 : P2V (k_cr3 s) = pgdir pr;
  cj_space : space_ok s (pgdir pr) l;
  cj_kstack : page (kstack p) /\ (kstack p ∉ l) /\ outside (k_mem s) (pgdir pr) (kstack p);
  cj_size : sz p = (b + 2) * PGSIZE /\ 0 <= b /\ b + 2 <= UPAGES;
  cj_tid : 0 <= tid p < Z.of_nat NTHREAD;
  cj_rv : writable s (pgdir pr) rv 4
}.

(** The address space afterwards. *)
Record joined_space (m : gmap Z Z) (t : kernel) (d b ks rv v : Z) (l : list Z) : Prop := {
  js_free : exists l0, space_ok t d (l0 ++ l) /\ forall w, w ∈ l0 <-> w = ks \/ exists u, b <= u < b + 2 /\ umapped m d u /\ w = frame_at m d u;
  js_gone : forall u, b <= u < b + 2 -> present (pte (k_mem t) d u) = false;
  js_pte : forall u, 0 <= u < NVPAGE -> ~ (b <= u < b + 2) -> pte (k_mem t) d u = pte m d u;
  js_read : forall x, umapped m d (x / PGSIZE) -> ~ (b <= x / PGSIZE < b + 2) ->
    uread (k_mem t) d x = if decide (rv <= x < rv + 4) then byte_at (le32 v) (x - rv) else uread m d x;
  js_other : forall w, page w -> w <> ks -> ~ in_table m d w -> (forall u, umapped m d u -> w <> frame_at m d u) -> agree m (k_mem t) w
}.

Lemma kfree_writable (s t : kernel) (d v va n : Z) (l : list Z) : space_ok s d l -> page v -> outside (k_mem s) d v ->
  (forall b, ~ (v <= b < v + PGSIZE) -> rd (k_mem t) b = rd (k_mem s) b) -> (forall u, 0 <= u < NVPAGE -> pte (k_mem t) d u = pte (k_mem s) d u) ->
  writable s d va n -> writable t d va n.
Proof.
  intros Hok Hp [Ht _] Hm P (H0 & H1 & H2). split; [exact H0|split; [exact H1|] ]. intros x Hx. assert (Hx' : 0 <= x < 2 ^ 32) by (unfold KERNBASE in H1; lia).
  rewrite (translate_ext (k_mem s)); [apply H2, Hx|exact Hx'| |apply P, vpage_range, Hx'].
  destruct (vo_dir _ _ _ (so_vm _ _ _ Hok)) as [Hd _]. rewrite PDX_vpage by exact Hx'. destruct (vpage_split (x / PGSIZE) (vpage_range x Hx')) as [D1 _].
  assert (PGSIZE = 4096) by reflexivity. apply (agree_rd32 _ _ d); [|lia|lia]. intros c Hc. apply Hm. destruct (page_apart d v Hd Hp) as [?|?]; [intros ->; apply Ht; left; reflexivity|lia|lia].
Qed.

(** The three steps together: the kernel stack is freed, the value stored, the
    two pages are taken out. *)
Lemma joined_space_made (s s2 s3 s4 t : kernel) (d b ks rv v : Z) (l l' : list Z) : page ks ->
  (forall a, ~ (ks <= a < ks + PGSIZE) -> rd (k_mem s2) a = rd (k_mem s) a) -> space_ok s d l -> outside (k_mem s) d ks ->
  (forall w, in_table (k_mem s2) d w <-> in_table (k_mem s) d w) -> (forall u, 0 <= u < NVPAGE -> pte (k_mem s2) d u = pte (k_mem s) d u) ->
  0 <= b -> b + 2 <= UPAGES -> wrote d rv (le32 v) s2 s3 (ks :: l) -> k_mem s4 = k_mem s3 -> released d b (b + 2) s4 t (ks :: l) l' ->
  joined_space (k_mem s) t d b ks rv v l.
Proof.
  intros Hks M1 Hok [Ht Hu] I1 P1 Hb Hb2 W E4 [O _ _ G4 P4 [l0 [-> F4] ] A4]. rewrite E4 in *.
  assert (P3 : forall u, 0 <= u < NVPAGE -> pte (k_mem s3) d u = pte (k_mem s) d u) by (intros u Hr; rewrite (wo_pte _ _ _ _ _ _ W), P1 by exact Hr; reflexivity).
  assert (U3 : forall u, umapped (k_mem s3) d u <-> umapped (k_mem s) d u) by (intros u; unfold umapped; split; intros [H1 H2]; rewrite P3 in * by (unfold UPAGES, NVPAGE in *; lia); auto).
  assert (U2 : forall u, umapped (k_mem s2) d u <-> umapped (k_mem s) d u) by (intros u; unfold umapped; split; intros [H1 H2]; rewrite P1 in * by (unfold UPAGES, NVPAGE in *; lia); auto).
  assert (F3 : forall u, umapped (k_mem s) d u -> frame_at (k_mem s3) d u = frame_at (k_mem s) d u) by (intros u H; unfold frame_at; rewrite P3 by exact (umapped_vpage _ _ _ H); reflexivity).
  assert (F2 : forall u, umapped (k_mem s) d u -> frame_at (k_mem s2) d u = frame_at (k_mem s) d u) by (intros u H; unfold frame_at; rewrite P1 by exact (umapped_vpage _ _ _ H); reflexivity).
  assert (T3 : forall w, in_table (k_mem s3) d w -> in_table (k_mem s) d w) by (intros w H; apply I1, (wo_table _ _ _ _ _ _ W), H).
  assert (Hfree : forall w, page w -> w <> ks -> agree (k_mem s) (k_mem s2) w) by (intros w Hw Hne a Ha; apply M1; destruct (page_apart w ks Hw Hks Hne); lia).
  split.
  - exists (l0 ++ [ks]). rewrite <- app_assoc. split; [exact O|]. intros w. rewrite elem_of_app, F4. setoid_rewrite U3. split.
    + intros [(u & H1 & H2 & ->)|H]; [right; exists u; rewrite F3 by exact H2; auto|left; set_solver].
    + intros [->|(u & H1 & H2 & ->)]; [right; set_solver|left; exists u; rewrite F3 by exact H2; auto].
  - intros u Hr. destruct (present (pte (k_mem s3) d u)) eqn:E; [rewrite G4; [reflexivity|exact Hr|split; [lia|exact E] ]|].
    rewrite P4; [exact E|unfold UPAGES, NVPAGE in *; lia|]. intros [_ [_ H] ]. congruence.
  - intros u Hr Hn. rewrite P4 by tauto. apply P3, Hr.
  - intros x Hx Hn. pose proof (umapped_vpage _ _ _ Hx) as Hr. destruct (so_page _ _ _ Hok _ Hx) as (Q1 & Q2 & Q3). pose proof (Z.mod_pos_bound x PGSIZE eq_refl).
    assert (E1 : uread (k_mem t) d x = uread (k_mem s3) d x).
    { unfold uread. assert (Ef : frame_at (k_mem t) d (x / PGSIZE) = frame_at (k_mem s3) d (x / PGSIZE)) by (unfold frame_at; rewrite P4 by tauto; reflexivity). rewrite Ef, F3 by exact Hx.
      apply (A4 _ Q1); [intros H'; exact (Q3 (T3 _ H'))| |lia]. intros u Hu1 Hu2 E. apply Hn. rewrite (so_inj _ _ _ Hok (x / PGSIZE) u Hx); [exact Hu1|apply U3, Hu2|]. rewrite E. apply F3, U3, Hu2. }
    rewrite E1, (wo_read _ _ _ _ _ _ W) by (apply U2, Hx). change (Z.of_nat (length (le32 v))) with 4. case_decide; [reflexivity|].
    unfold uread. rewrite F2 by exact Hx. apply (Hfree _ Q1); [exact (Hu _ Hx)|lia].
  - intros w Hw Hne Hnt Hf. eapply agree_trans; [exact (Hfree w Hw Hne)|]. eapply agree_trans.
    + apply (wo_agree _ _ _ _ _ _ W w Hw). intros u H. apply U2 in H. rewrite F2 by exact H. apply Hf, H.
    + apply (A4 w Hw); [intros H; exact (Hnt (T3 _ H))|]. intros u _ H. apply U3 in H. rewrite F3 by exact H. apply Hf, H.
Qed.

(** The updates of the two slots. *)
Definition slot_freed (n : Z) (y : proc) : proc :=
  let y1 := y <| thread ::= <[Z.to_nat n := 0]> |> in
  if mtid y1 =? n then y1 <| mtid ::= last_slot (Z.to_nat n) (thread y1) n |> else y1.

Lemma maker_step (p pr : proc) : let y := if sz pr =? sz p then pr <| sz := u32 (sz p - 2 * PGSIZE) |> else pr in
  slot_freed (tid p) y <| sz := u32 (osz (slot_freed (tid p) y) + 2 * mtid p * PGSIZE) |> = maker_joined p pr.
Proof. unfold maker_joined, slot_freed. destruct pr; cbn. destruct (sz =? _); cbn; destruct (mtid =? _); reflexivity. Qed.

Lemma reap_finish (t : kernel) (i c : nat) (x y p : proc) (P : list proc) : i <> c -> (i < length P)%nat -> (c < length P)%nat -> k_procs t = <[i := x]> (<[c := y]> P) ->
  0 <= tid p < Z.of_nat NTHREAD ->
  (upd_proc i (fun p => p <| pid := 0 |>);;
   set_thread c (tid p) 0;;
   pr ← proc_at c;
   when (mtid pr =? tid p) (upd_proc c (fun pr => pr <| mtid ::= last_slot (Z.to_nat (tid p)) (thread pr) (tid p) |>));;
   upd_proc c (fun pr => pr <| sz := u32 (osz pr + 2 * mtid p * PGSIZE) |>);;
   upd_proc i (fun p => p <| tid := 0 |> <| parent := None |> <| name ::= <[0%nat := 0]> |> <| killed := 0 |> <| state := UNUSED |>)) t =
  Done tt (t <| k_procs := <[i := x <| pid := 0 |> <| tid := 0 |> <| parent := None |> <| name ::= <[0%nat := 0]> |> <| killed := 0 |> <| state := UNUSED |>]>
                (<[c := slot_freed (tid p) y <| sz := u32 (osz (slot_freed (tid p) y) + 2 * mtid p * PGSIZE) |>]> P) |>).
Proof.
  intros Hne Hi Hc E Ht. assert (Hi' : forall z, (i < length (<[c := z]> P))%nat) by (intros z; rewrite length_insert; exact Hi).
  erewrite (bind_Done (upd_proc i _)) by (apply (upd_slot i _ x (<[c := y]> P)); [apply Hi'|exact E]).
  unfold set_thread. rewrite (proj2 (Z.leb_le _ _)), (proj2 (Z.ltb_lt _ _)) by lia. cbn [andb].
  erewrite (bind_Done (upd_proc c _)) by (eapply (upd_second c i _ _ y P); [congruence|exact Hc|reflexivity]).
  set (y1 := y <| thread ::= <[Z.to_nat (tid p) := 0]> |>). match goal with |- context [(proc_at c ≫= _) ?st] => set (t1 := st) end.
  erewrite (bind_Done (proc_at c)) by (apply proc_at_some; apply second_at; congruence).
  rewrite (bind_Done _ _ t1 (t1 <| k_procs := <[i := x <| pid := 0 |>]> (<[c := slot_freed (tid p) y]> P) |>) tt).
  2: { unfold when, slot_freed. fold y1. destruct (mtid y1 =? tid p); [|reflexivity]. erewrite (upd_second c i) by (congruence || exact Hc || reflexivity). reflexivity. }
  erewrite (bind_Done (upd_proc c _)) by (eapply (upd_second c i _ _ (slot_freed (tid p) y) P); [congruence|exact Hc|reflexivity]).
  erewrite (upd_slot i _ (x <| pid := 0 |>)) by (apply Hi' || reflexivity). reflexivity.
Qed.

Lemma join_reap_run (s : kernel) (c i : nat) (p pr : proc) (b rv : Z) (l : list Z) : k_held s = [ptable_lock] -> k_procs s !! i = Some p -> k_procs s !! c = Some pr -> i <> c ->
  parent p = Some c -> can_join s pr p b rv l ->
  exists t, join_reap i rv s = Done tt t /\ k_procs t = <[i := joined p]> (<[c := maker_joined p pr]> (k_procs s)) /\ k_held t = [ptable_lock] /\
    joined_space (k_mem s) t (pgdir pr) b (kstack p) rv (retval p) l.
Proof.
  intros Hh Hp Hpr Hne Hpar [Ed Hcr Hs (Hk & Hn & Ho) (Hsz & Hb & Hb2) Ht Hrv]. pose proof (lookup_lt_Some _ _ _ Hp) as Hil. pose proof (lookup_lt_Some _ _ _ Hpr) as Hcl.
  assert (HcP : forall x, <[i := x]> (k_procs s) = <[i := x]> (<[c := pr]> (k_procs s))) by (intros x; rewrite (list_insert_id (k_procs s) c pr Hpr); reflexivity).
  assert (Hil' : forall y, (i < length (<[c := y]> (k_procs s)))%nat) by (intros y; rewrite length_insert; exact Hil).
  pose proof (vo_free _ _ _ (so_vm _ _ _ Hs)) as Hf. unfold join_reap. rewrite (bind_Done _ _ _ _ _ (proc_at_some _ _ _ Hp)).
  destruct (kfree_free_pages (kstack p) s l Hf Hk Hn ltac:(rewrite Hh; set_solver)) as (s1 & E1 & F1 & M1 & T1). rewrite (bind_Done _ _ _ _ _ E1).
  destruct (space_kfree s s1 (pgdir pr) (kstack p) l Hs Hk Ho F1 M1) as (S1 & I1 & _ & _ & P1).
  assert (Q1 : k_procs s1 = <[i := p]> (k_procs s)) by (rewrite T1; apply slot_same, Hp). rewrite (bind_Done _ _ _ _ _ (upd_slot i _ p (k_procs s) s1 Hil Q1)).
  match goal with |- context [(ustore32 _ _ ≫= _) ?st] => set (s2 := st) end.
  assert (S2 : space_ok s2 (pgdir pr) (kstack p :: l)) by (apply (space_ext s1); [exact S1|reflexivity|reflexivity]).
  assert (Hcr2 : P2V (k_cr3 s2) = pgdir pr) by (cbn; rewrite T1; exact Hcr).
  destruct (ustore_run (pgdir pr) (le32 (retval p)) rv s2 (kstack p :: l) S2 Hcr2 (Forall_le32 _) (kfree_writable s s2 _ _ _ _ l Hs Hk Ho M1 P1 Hrv)) as (s3 & E3 & W).
  pose proof (wo_only _ _ _ _ _ _ W) as T3. rewrite (bind_Done (ustore32 _ _) _ _ _ _ E3), Hpar. erewrite (bind_Done (deref _)) by reflexivity.
  assert (Q3 : k_procs s3 = <[i := p <| kstack := 0 |>]> (<[c := pr]> (k_procs s))) by (rewrite T3, <- HcP; reflexivity).
  erewrite (bind_Done (proc_at c)) by (apply proc_at_some; rewrite Q3; apply second_at; congruence).
  set (y := if sz pr =? sz p then pr <| sz := u32 (sz p - 2 * PGSIZE) |> else pr). set (s4 := s3 <| k_procs := <[i := p <| kstack := 0 |>]> (<[c := y]> (k_procs s)) |>).
  rewrite (bind_Done _ _ s3 s4 tt).
  2: { unfold when, s4, y. destruct (sz pr =? sz p); [erewrite (upd_second c i _ _ pr (k_procs s) s3) by (congruence || exact Hcl || exact Q3); reflexivity|]. unfold mret, M_ret. f_equal. rewrite <- Q3. destruct s3; reflexivity. }
  assert (Hr : 0 <= b * PGSIZE < (b + 2) * PGSIZE /\ (b + 2) * PGSIZE <= KERNBASE) by (unfold UPAGES, PGSIZE, KERNBASE in *; lia).
  assert (En : npages (b * PGSIZE) = b /\ npages ((b + 2) * PGSIZE) = b + 2) by (unfold npages, PGSIZE; split; Z.div_mod_to_equations; lia).
  rewrite Ed, Hsz. replace (u32 ((b + 2) * PGSIZE - 2 * PGSIZE)) with (b * PGSIZE) by (rewrite u32_small; unfold KERNBASE, PGSIZE in *; lia).
  destruct (deallocuvm_run (pgdir pr) ((b + 2) * PGSIZE) (b * PGSIZE) s4 (kstack p :: l)) as (t & l' & E5 & R); [apply (space_ext s3); [exact (wo_ok _ _ _ _ _ _ W)|reflexivity|reflexivity]|cbn; rewrite T3; cbn; rewrite T1; cbn; rewrite Hh; set_solver|lia|lia|].
  rewrite (proj1 En), (proj2 En) in R. rewrite (bind_Done _ _ _ _ _ E5). pose proof (rl_only _ _ _ _ _ _ _ R) as T5.
  rewrite (proj2 (Z.eqb_neq _ 0)) by (destruct (vo_dir _ _ _ (so_vm _ _ _ Hs)) as [Hd _]; apply page_high in Hd; unfold KERNLINK, KERNBASE, EXTMEM, PHYSTOP in *; lia).
  eexists. split; [apply (reap_finish t i c (p <| kstack := 0 |>) y p (k_procs s) Hne Hil Hcl); [rewrite T5; reflexivity|exact Ht]|].
  split; [cbn; rewrite <- maker_step; reflexivity|]. split; [cbn; rewrite T5; cbn; rewrite T3; cbn; rewrite T1; exact Hh|].
  destruct (joined_space_made s s2 s3 s4 t (pgdir pr) b (kstack p) rv (retval p) l l' Hk M1 Hs Ho I1 P1 Hb Hb2 W eq_refl R) as [ [l0 [J1 J2] ] J3 J4 J5 J6].
  split; [|exact J3|exact J4|exact J5|exact J6]. exists l0. split; [|exact J2]. apply (space_ext t); [exact J1|reflexivity|reflexivity].
Qed.

Lemma join_enter (s : kernel) (c : nat) (th rv sel orig : Z) : k_held s = [] -> k_cur s = Some c ->
  thread_join_os th rv sel orig s = while_loop fuel (join_turn c th rv sel) tt (s <| k_held := [ptable_lock] |>).
Proof.
  intros Hh Hc. unfold thread_join_os. rewrite (bind_Done _ _ _ _ _ (curproc_some c s Hc)). erewrite bind_Done by (apply acquire_free; rewrite Hh; set_solver). rewrite Hh. reflexivity.
Qed.

(** C24. [thread_join] on each of its branches, for process [c] and its thread
    [th].  When the thread has exited it returns 0 at once: the value the thread
    returned is stored at [rv], the thread's slot in the process table and its
    slot at the maker are free again, its kernel stack and its two pages are on
    the free list and no longer mapped, and the maker reads the same bytes as
    before at every other address; the maker's size is set from the thread's
    own [mtid].  If it has not exited, the call returns -1 when there is no such
    thread or the process has been killed, and changes nothing; otherwise the
    process sleeps on its own slot and looks again when it is resumed. *)
Theorem thread_join_takes_thread (s : kernel) (c : nat) (pr : proc) (th rv orig : Z) : k_held s = [] -> k_cur s = Some c -> k_procs s !! c = Some pr -> state pr = RUNNING ->
  (forall i p b l, exited (k_procs s) c th i p -> can_join s pr p b rv l ->
     exists t, thread_join_os th rv 0 orig s = Done 0 t /\ k_procs t = <[i := joined p]> (<[c := maker_joined p pr]> (k_procs s)) /\ k_held t = [] /\
       joined_space (k_mem s) t (pgdir pr) b (kstack p) rv (retval p) l) /\
  (not_exited s c th -> ~ has_thread s c th \/ killed pr <> 0 -> thread_join_os th rv 0 orig s = Done (-1) s) /\
  (not_exited s c th -> has_thread s c th -> killed pr = 0 ->
     exists k, thread_join_os th rv 0 orig s = Switch (slept c (CProc c) s) k /\
       forall s', k s' = while_loop fuel_pred (join_turn c th rv 0) tt (s' <| k_procs ::= alter (fun pr => pr <| pchan := None |>) c |>)).
Proof.
  intros Hh Hc Hp Hrun. rewrite (join_enter s c th rv 0 orig Hh Hc). unfold fuel. cbn [while_loop]. set (s0 := s <| k_held := [ptable_lock] |>). split_and!.
  - intros i p b l Hz Hj. assert (Hne : i <> c) by (intros ->; destruct Hz as (Z1 & _ & Z3 & _); congruence).
    assert (Hj0 : can_join s0 pr p b rv l) by (destruct Hj; split; try assumption; apply (space_ext s); [assumption|reflexivity|reflexivity]).
    destruct (join_reap_run s0 c i p pr b rv l eq_refl (proj1 Hz) Hp Hne (proj1 (proj1 (proj2 Hz))) Hj0) as (t & E & H1 & H2 & H3).
    exists (t <| k_held := [] |>). split; [|split; [exact H1|split; [reflexivity|] ] ].
    + unfold join_turn. erewrite bind_Done; [|rewrite (bind_Done get _ _ _ _ eq_refl); change (k_procs s0) with (k_procs s); rewrite (join_scan_first s c th i p Hz), (bind_Done _ _ _ _ _ E); erewrite bind_Done by (apply (release_head ptable_lock []); [exact H2|set_solver]); reflexivity]. reflexivity.
    + destruct H3 as [ [l0 [J1 J2] ] J3 J4 J5 J6]. split; [|exact J3|exact J4|exact J5|exact J6]. exists l0. split; [|exact J2]. apply (space_ext t); [exact J1|reflexivity|reflexivity].
  - intros Hn Hor. destruct (join_scan_none s c th Hn) as (b & Eb & Hb). unfold join_turn. erewrite bind_Done.
    2: { rewrite (bind_Done get _ _ _ _ eq_refl). change (k_procs s0) with (k_procs s). rewrite Eb, (bind_Done _ _ _ _ _ (proc_at_some c pr s0 Hp)).
         replace ((0 =? 0) && (negb b || negb (killed pr =? 0))) with true.
         - erewrite bind_Done by (apply (release_head ptable_lock []); [reflexivity|set_solver]). reflexivity.
         - destruct Hor as [H|H]; [destruct b; [destruct (H (proj1 Hb eq_refl))|reflexivity]|rewrite (proj2 (Z.eqb_neq (killed pr) 0)) by exact H; rewrite orb_true_r; reflexivity]. }
    unfold mret, M_ret. f_equal. unfold s0. rewrite <- Hh. reflexivity.
  - intros Hn Hch Hk. destruct (join_scan_none s c th Hn) as (b & Eb & Hb). destruct (sleep_table (CProc c) s0 c pr eq_refl Hc Hp) as (k & Es & Hk').
    assert (Et : join_turn c th rv 0 tt s0 = obind (Switch (slept c (CProc c) s0) k) (fun _ => mret (inl tt))).
    { unfold join_turn. rewrite (bind_Done get _ _ _ _ eq_refl). change (k_procs s0) with (k_procs s). rewrite Eb, (bind_Done _ _ _ _ _ (proc_at_some c pr s0 Hp)).
      rewrite (proj2 Hb Hch), Hk. cbn [Z.eqb negb orb andb when]. unfold mbind, M_bind. rewrite Es. reflexivity. }
    unfold mbind, M_bind. rewrite Et. cbn [obind]. eexists. split; [reflexivity|]. intros s'. cbv beta. rewrite Hk'. reflexivity.
Qed.
End Join.

(** Process 0 joins its thread 7, which has returned 42; the value goes to
    address 100. *)
Definition ex_maker : proc := proc0 <| sz := 0x3000 |> <| pgdir := ex_dir |> <| state := RUNNING |> <| pid := 1 |> <| osz := 0x1000 |> <| mtid := 1 |>
  <| thread := <[1%nat := 1]> (replicate NTHREAD 0) |>.

Definition ex_thread : proc := proc0 <| sz := 0x3000 |> <| pgdir := ex_dir |> <| kstack := ex_stack |> <| state := ZOMBIE |> <| pid := 7 |> <| parent := Some 0%nat |>
  <| tid := 1 |> <| retval := 42 |>.

Definition ex_join : kernel := ex_vm <| k_cur := Some 0%nat |> <| k_cr3 := V2P ex_dir |> <| k_procs ::= <[0%nat := ex_maker]> |> <| k_procs ::= <[1%nat := ex_thread]> |>.

Lemma thread_join_takes_thread_witness : exists t, thread_join_os (F := Build_Fuel 0) (L := ex_linker) 7 100 0 0 ex_join = Done 0 t /\
  uread (k_mem t) ex_dir 100 = 42 /\ k_procs t !! 1%nat = Some (joined ex_thread).
Proof.
  destruct (thread_join_takes_thread (F := Build_Fuel 0) (L := ex_linker) ex_join 0 ex_maker 7 100 0) as (H & _ & _); [reflexivity..|].
  destruct (H 1%nat ex_thread 1 [ex_free1; ex_free2]) as (t & E & P & _ & J).
  - split; [reflexivity|]. split; [split; reflexivity|]. split; [reflexivity|]. intros j q Hj Hq [Hc _]. destruct j; [injection Hq as <-; discriminate Hc|lia].
  - split; [reflexivity|reflexivity| | | |vm_compute; split; [discriminate|reflexivity]|].
    + apply (space_ext (L := ex_linker) ex_vm); [apply ex_space_ok|reflexivity|reflexivity].
    + split; [apply ex_stack_page|]. split; [vm_compute; intros Hn; repeat (inversion Hn as [|? ? ? Hn']; subst; clear Hn; rename Hn' into Hn)|apply ex_stack_outside].
    + split; [reflexivity|]. split; discriminate.
    + split; [discriminate|split; [discriminate|] ]. intros x Hx. assert (x = 100 \/ x = 101 \/ x = 102 \/ x = 103) as [->|[->|[->| ->] ] ] by lia; vm_compute; eexists; reflexivity.
  - exists t. split; [exact E|]. split; [|rewrite P; reflexivity].
    refine (eq_trans (js_read _ _ _ _ _ _ _ _ J 100 _ _) _); [split; [vm_compute; split; [discriminate|reflexivity]|reflexivity]|vm_compute; intros [Hn _]; apply Hn; reflexivity|reflexivity].
Defined.
