(* ===== verification/BufRing.v ===== *)
(** * The list of buffers

    The doubly linked list of bio.c, as successor and predecessor functions. *)

From S2P Require Import Prelude Params Kernel Sleep Ide Bio BufSpec.

(** From [a] through [l] to [z] along [nx], and back along [pv]. *)
Fixpoint links (nx pv : nat -> nat) (a : nat) (l : list nat) (z : nat) : Prop :=
  match l with
  | [] => nx a = z /\ pv z = a
  | x :: l' => nx a = x /\ pv x = a /\ links nx pv x l' z
  end.

Definition fset (f : nat -> nat) (i v : nat) : nat -> nat := fun j => if decide (j = i) then v else f j.

Lemma fset_eq (f : nat -> nat) (i v : nat) : fset f i v i = v.
Proof. unfold fset. rewrite decide_True; reflexivity. Qed.

Lemma fset_ne (f : nat -> nat) (i j v : nat) : j <> i -> fset f i v j = f j.
Proof. intros H. unfold fset. rewrite decide_False; [reflexivity|exact H]. Qed.

Lemma links_app (nx pv : nat -> nat) (a x z : nat) (l1 l2 : list nat) :
  links nx pv a (l1 ++ x :: l2) z <-> links nx pv a l1 x /\ links nx pv x l2 z.
Proof. revert a. induction l1 as [|y l1 IH]; intros a; simpl; [tauto|]. rewrite IH. tauto. Qed.

Lemma links_ext (nx pv nx' pv' : nat -> nat) (a z : nat) (l : list nat) :
  (forall y, y = a \/ y ∈ l -> nx' y = nx y) -> (forall y, y = z \/ y ∈ l -> pv' y = pv y) ->
  links nx pv a l z -> links nx' pv' a l z.
Proof.
  revert a. induction l as [|x l IH]; intros a Hn Hp; simpl.
  - rewrite Hn, Hp by auto. tauto.
  - rewrite Hn, Hp by (try (right; left); auto). intros (H1 & H2 & H3). split_and!; [exact H1|exact H2|].
    apply IH; [..|exact H3].
    + intros y [->|Hy]; apply Hn; right; [left|right; exact Hy].
    + intros y [->|Hy]; apply Hp; [left; reflexivity|right; right; exact Hy].
Qed.

(** Taking an element out. *)
Lemma links_unlink (nx pv : nat -> nat) (a x z : nat) (l1 l2 : list nat) :
  links nx pv a (l1 ++ x :: l2) z -> NoDup (a :: l1 ++ x :: l2) -> z ∉ l1 ++ x :: l2 ->
  links (fset nx (pv x) (nx x)) (fset pv (nx x) (pv x)) a (l1 ++ l2) z.
Proof.
  intros [H1 H2]%links_app. revert a H1. induction l1 as [|w l1 IH]; intros a H1 Hd Hz; simpl in *.
  - destruct H1 as [_ Hpx]. rewrite Hpx. destruct l2 as [|y l2]; simpl in *.
    + destruct H2 as [-> _]. rewrite !fset_eq. auto.
    + destruct H2 as (-> & _ & H2). rewrite !fset_eq. split_and!; [reflexivity..|].
      eapply links_ext; [..|exact H2]; intros v Hv; apply fset_ne; apply NoDup_cons in Hd as [Ha Hd];
        apply NoDup_cons in Hd as [Hx Hd]; apply NoDup_cons in Hd as [Hy Hd]; set_solver.
  - destruct H1 as (E1 & E2 & H1). apply NoDup_cons in Hd as [Ha Hd].
    assert (Hpx : pv x = w \/ pv x ∈ l1).
    { clear -H1. revert w H1. induction l1 as [|v l1 IH]; intros w H1; simpl in *; [tauto|].
      destruct H1 as (_ & _ & H1). destruct (IH v H1) as [->|H]; set_solver. }
    assert (Hnx : nx x = z \/ nx x ∈ l2).
    { destruct l2 as [|v l2]; simpl in H2; [tauto|]. destruct H2 as (-> & _). set_solver. }
    split_and!.
    + rewrite fset_ne; [exact E1|]. intros ->. set_solver.
    + rewrite fset_ne; [exact E2|]. intros ->. apply NoDup_cons in Hd as [Hw _]. set_solver.
    + apply IH; [exact H1|exact Hd|set_solver].
Qed.

(** Putting an element behind the head. *)
Lemma links_push (nx pv : nat -> nat) (h x : nat) (l : list nat) :
  links nx pv h l h -> x <> h -> x ∉ l -> h ∉ l -> NoDup l ->
  links (fset (fset nx x (nx h)) h x) (fset (fset pv x h) (nx h) x) h (x :: l) h.
Proof.
  intros Hc Hx Hl Hh Hd. simpl. destruct l as [|y l]; simpl in *.
  - destruct Hc as [-> Hp]. rewrite !fset_eq, !(fset_ne _ h x) by auto. rewrite !fset_eq. auto.
  - destruct Hc as (-> & Hp & Hc). apply NoDup_cons in Hd as [Hy Hd].
    rewrite !fset_eq, (fset_ne _ h x), (fset_ne _ y x) by set_solver. rewrite !fset_eq. split_and!; try reflexivity.
    eapply links_ext; [..|exact Hc]; intros v Hv; rewrite !fset_ne; set_solver.
Qed.

(** ** Links of the buffers *)

Definition bufof (s : kernel) (i : nat) : buf := default buf0 (k_bufs s !! i).
Definition nxt (s : kernel) (i : nat) : nat := bnext (bufof s i).
Definition prv (s : kernel) (i : nat) : nat := bprev (bufof s i).

(** The first buffer of [l] that satisfies [f]. *)
Fixpoint first_of (s : kernel) (f : buf -> bool) (l : list nat) : option nat :=
  match l with
  | [] => None
  | x :: l' => if f (bufof s x) then Some x else first_of s f l'
  end.

Lemma first_of_Some (s : kernel) (f : buf -> bool) (l : list nat) (x : nat) :
  first_of s f l = Some x -> x ∈ l /\ f (bufof s x) = true.
Proof.
  induction l as [|y l IH]; simpl; [discriminate|]. destruct (f (bufof s y)) eqn:E.
  - intros [= ->]. split; [left|exact E].
  - intros H. destruct (IH H) as [H1 H2]. split; [right; exact H1|exact H2].
Qed.

Lemma first_of_None (s : kernel) (f : buf -> bool) (l : list nat) :
  first_of s f l = None -> forall x, x ∈ l -> f (bufof s x) = false.
Proof.
  induction l as [|y l IH]; simpl; intros H x Hx; [set_solver|]. destruct (f (bufof s y)) eqn:E; [discriminate|].
  apply elem_of_cons in Hx as [->|Hx]; auto.
Qed.

Lemma buf_at_in (s : kernel) (i : nat) : (i < length (k_bufs s))%nat -> buf_at i s = Done (bufof s i) s.
Proof.
  intros H. apply buf_at_some. unfold bufof. destruct (k_bufs s !! i) eqn:E; [reflexivity|].
  apply lookup_ge_None in E. lia.
Qed.

Lemma bget_cached_run (s : kernel) (dev b : Z) (l : list nat) (n a : nat) :
  links (nxt s) (prv s) a l HEAD -> (length l < n)%nat ->
  (forall x, x ∈ l -> x <> HEAD /\ (x < length (k_bufs s))%nat) ->
  bget_cached n (nxt s a) dev b s = Done (first_of s (fun bf => (bdev bf =? dev) && (bblockno bf =? b)) l) s.
Proof.
  revert n a. induction l as [|x l IH]; intros n a Hc Hn Hl; (destruct n as [|n]; [simpl in Hn; lia|]);
    cbn [bget_cached first_of].
  - destruct Hc as [-> _]. reflexivity.
  - destruct Hc as (-> & _ & Hc). destruct (Hl x) as [Hx Hx']; [left|].
    rewrite (proj2 (Nat.eqb_neq _ _) Hx).
    rewrite (bind_Done _ _ _ _ _ (buf_at_in s x Hx')). destruct (_ && _); [reflexivity|].
    apply IH; [exact Hc|simpl in Hn; lia|]. intros y Hy. apply Hl. right. exact Hy.
Qed.

Lemma bget_unused_run (s : kernel) (l : list nat) (n z : nat) :
  links (nxt s) (prv s) HEAD l z -> (length l < n)%nat ->
  (forall x, x ∈ l -> x <> HEAD /\ (x < length (k_bufs s))%nat) ->
  bget_unused n (prv s z) s = Done (first_of s (fun bf => (brefcnt bf =? 0) && negb (is_dirty bf)) (rev l)) s.
Proof.
  revert n z. induction l as [|x l IH] using rev_ind; intros n z Hc Hn Hl; (destruct n as [|n]; [simpl in Hn; lia|]);
    cbn [bget_unused].
  - destruct Hc as [_ ->]. reflexivity.
  - apply links_app in Hc as [Hc [_ ->]]. destruct (Hl x) as [Hx Hx']; [set_solver|].
    rewrite rev_unit. cbn [first_of]. rewrite (proj2 (Nat.eqb_neq _ _) Hx).
    rewrite (bind_Done _ _ _ _ _ (buf_at_in s x Hx')). destruct (_ && _); [reflexivity|].
    apply IH; [exact Hc|rewrite length_app in Hn; simpl in Hn; lia|]. intros y Hy. apply Hl. set_solver.
Qed.

(** ** Setting links *)

Definition set_next (j v : nat) (s : kernel) : kernel := s <| k_bufs ::= alter (fun b => b <| bnext := v |>) j |>.
Definition set_prev (j v : nat) (s : kernel) : kernel := s <| k_bufs ::= alter (fun b => b <| bprev := v |>) j |>.

(** A buffer without its links. *)
Definition unlinked (b : buf) : buf := b <| bnext := 0%nat |> <| bprev := 0%nat |>.

Lemma bufof_alter (s : kernel) (f : buf -> buf) (j k : nat) :
  (j < length (k_bufs s))%nat ->
  bufof (s <| k_bufs ::= alter f j |>) k = if decide (k = j) then f (bufof s j) else bufof s k.
Proof.
  intros H. unfold bufof. cbn. case_decide as D.
  - subst k. rewrite list_lookup_alter_eq. destruct (k_bufs s !! j) eqn:E; [reflexivity|].
    apply lookup_ge_None in E. lia.
  - rewrite list_lookup_alter_ne by congruence. reflexivity.
Qed.

(** [t] is [s] with other links. *)
Record relinked (s t : kernel) (nx pv : nat -> nat) : Prop := mk_relinked {
  rl_only : t = s <| k_bufs := k_bufs t |>;
  rl_len : length (k_bufs t) = length (k_bufs s);
  rl_next : forall k, nxt t k = nx k;
  rl_prev : forall k, prv t k = pv k;
  rl_rest : forall k, unlinked (bufof t k) = unlinked (bufof s k)
}.

Lemma relinked_refl (s : kernel) : relinked s s (nxt s) (prv s).
Proof. split; reflexivity. Qed.

Lemma relinked_next (s t : kernel) (nx pv : nat -> nat) (j v : nat) :
  relinked s t nx pv -> (j < length (k_bufs s))%nat -> relinked s (set_next j v t) (fset nx j v) pv.
Proof.
  intros [H1 H2 H3 H4 H5] Hj. rewrite <- H2 in Hj. unfold set_next. split.
  - rewrite H1. reflexivity.
  - cbn. rewrite length_alter. exact H2.
  - intros k. unfold nxt, fset. rewrite bufof_alter by exact Hj. case_decide; [reflexivity|apply H3].
  - intros k. unfold prv. rewrite bufof_alter by exact Hj. rewrite <- H4. case_decide; subst; reflexivity.
  - intros k. rewrite bufof_alter by exact Hj. rewrite <- H5. case_decide; subst; reflexivity.
Qed.

Lemma relinked_prev (s t : kernel) (nx pv : nat -> nat) (j v : nat) :
  relinked s t nx pv -> (j < length (k_bufs s))%nat -> relinked s (set_prev j v t) nx (fset pv j v).
Proof.
  intros [H1 H2 H3 H4 H5] Hj. rewrite <- H2 in Hj. unfold set_prev. split.
  - rewrite H1. reflexivity.
  - cbn. rewrite length_alter. exact H2.
  - intros k. unfold nxt. rewrite bufof_alter by exact Hj. rewrite <- H3. case_decide; subst; reflexivity.
  - intros k. unfold prv, fset. rewrite bufof_alter by exact Hj. case_decide; [reflexivity|apply H4].
  - intros k. rewrite bufof_alter by exact Hj. rewrite <- H5. case_decide; subst; reflexivity.
Qed.

(** Moving buffer [i] to the front of the list. *)
Definition move_front (i n p : nat) : K unit :=
  upd_buf n (fun c => c <| bprev := p |>);;
  upd_buf p (fun c => c <| bnext := n |>);;
  bcache_push i.

Lemma move_front_run (s : kernel) (l : list nat) (i : nat) :
  links (nxt s) (prv s) HEAD l HEAD -> NoDup l -> i ∈ l ->
  (forall x, x ∈ l -> x <> HEAD /\ (x < length (k_bufs s))%nat) -> (HEAD < length (k_bufs s))%nat ->
  exists t nx pv l', move_front i (nxt s i) (prv s i) s = Done tt t /\ relinked s t nx pv /\
    links nx pv HEAD l' HEAD /\ NoDup l' /\ (forall x, x ∈ l' <-> x ∈ l).
Proof.
  intros Hch Hd Hi Hl HH. apply list_elem_of_split in Hi as (l1 & l2 & ->).
  assert (Hi : i <> HEAD /\ (i < length (k_bufs s))%nat) by (apply Hl; set_solver).
  assert (HnH : HEAD ∉ l1 ++ i :: l2) by (intros H; destruct (Hl HEAD H); congruence).
  assert (Hnb : (nxt s i < length (k_bufs s))%nat /\ (prv s i < length (k_bufs s))%nat).
  { apply links_app in Hch as [H1 H2]. split.
    - destruct l2 as [|y l2]; [destruct H2 as [-> _]; exact HH|destruct H2 as (-> & _); apply Hl; set_solver].
    - destruct l1 as [|y l1 _] using rev_ind; [destruct H1 as [_ ->]; exact HH|].
      apply links_app in H1 as [_ [_ ->] ]. apply Hl. set_solver. }
  pose proof (links_unlink _ _ _ _ _ _ _ Hch (proj2 (NoDup_cons _ _) (conj HnH Hd)) HnH) as Hu.
  apply NoDup_app in Hd as (D1 & D2 & D3). apply NoDup_cons in D3 as [D3 D4].
  assert (Hd' : NoDup (l1 ++ l2)) by (apply NoDup_app; split_and!; [exact D1|set_solver|exact D4]).
  set (nx1 := fset (nxt s) (prv s i) (nxt s i)) in *. set (pv1 := fset (prv s) (nxt s i) (prv s i)) in *.
  set (s2 := set_next (prv s i) (nxt s i) (set_prev (nxt s i) (prv s i) s)).
  assert (R2 : relinked s s2 nx1 pv1) by (apply relinked_next, Hnb; apply relinked_prev, Hnb; apply relinked_refl).
  assert (Hh1 : (nx1 HEAD < length (k_bufs s))%nat).
  { destruct (l1 ++ l2) as [|y l'] eqn:E; [destruct Hu as [-> _]; exact HH|]. destruct Hu as (-> & _).
    apply Hl. assert (y ∈ l1 ++ l2) by (rewrite E; left). set_solver. }
  exists (set_next HEAD i (set_prev (nx1 HEAD) i (set_prev i HEAD (set_next i (nx1 HEAD) s2)))).
  eexists _, _, (i :: l1 ++ l2). split_and!.
  - unfold move_front, bcache_push. rewrite 2!(bind_Done _ _ _ _ _ (upd_buf_run _ _ _)).
    change (s <| k_bufs ::= _ |> <| k_bufs ::= _ |>) with s2.
    rewrite (bind_Done _ _ _ _ _ (buf_at_in s2 HEAD ltac:(rewrite (rl_len _ _ _ _ R2); exact HH))).
    change (bnext (bufof s2 HEAD)) with (nxt s2 HEAD). rewrite (rl_next _ _ _ _ R2). reflexivity.
  - apply relinked_next, HH. apply relinked_prev, Hh1. apply relinked_prev, Hi. apply relinked_next, Hi. exact R2.
  - apply links_push; [exact Hu|apply Hi|set_solver|set_solver|exact Hd'].
  - apply NoDup_cons. split; [set_solver|exact Hd'].
  - set_solver.
Qed.
