(* ===== verification/Cache.v ===== *)
(** * The buffer cache as a map with write-back

    [cached s hs]: the cache of a system in which one process holds the buffers
    [hs] (a list of buffers with their block numbers) and nobody else holds any.
    What the process sees of it is a map [view] from block numbers to contents,
    the disk [durable] below it, and the set [dirty] of blocks that the log has
    pinned.  [bread], [bwrite] and [brelse] are proved against this picture. *)

From S2P Require Import Prelude Params Bytes Kernel Sleep Ide Bio Log Rely BufSpec BufRing.

Definition durable (s : kernel) (b : Z) : list Z := disk_block s (ROOTDEV, b).

(** Buffer [i] stands for block [b] of the root device. *)
Definition holds (s : kernel) (b : Z) (i : nat) : Prop :=
  (i < NBUF)%nat /\ bdev (bufof s i) = ROOTDEV /\ bblockno (bufof s i) = b.

Definition view (s : kernel) (b : Z) : list Z :=
  match first_of s (fun bf => (bdev bf =? ROOTDEV) && (bblockno bf =? b) && is_valid bf) (seq 0 NBUF) with
  | Some i => bdata (bufof s i)
  | None => durable s b
  end.

Definition dirty (s : kernel) (b : Z) : Prop := exists i, holds s b i /\ is_dirty (bufof s i) = true.

Definition flags_ok (b : buf) : Prop := bflags b = 0 \/ bflags b = B_VALID \/ bflags b = Z.lor B_VALID B_DIRTY.

Record buf_ok (s : kernel) (hs : list (nat * Z)) (i : nat) (b : buf) : Prop := mk_buf_ok {
  bo_flags : flags_ok b;
  bo_dev : bdev b = 0 /\ bflags b = 0 \/ bdev b = ROOTDEV /\ 0 <= bblockno b < FSSIZE;
  bo_held : forall n, (i, n) ∈ hs -> brefcnt b = 1 /\ sl_locked (blk b) = 1 /\ bdev b = ROOTDEV /\ bblockno b = n /\
    is_valid b = true;
  bo_free : i ∉ hs.*1 -> brefcnt b = 0 /\ sl_locked (blk b) = 0 /\
    (bflags b = B_VALID -> bdata b = durable s (bblockno b))
}.

Record cached (s : kernel) (hs : list (nat * Z)) : Prop := mk_cached {
  ca_solo : solo s;
  ca_len : length (k_bufs s) = S NBUF;
  ca_ring : exists l, links (nxt s) (prv s) HEAD l HEAD /\ NoDup l /\ (forall i, i ∈ l <-> (i < NBUF)%nat);
  ca_bufs : forall i, (i < NBUF)%nat -> buf_ok s hs i (bufof s i);
  ca_uniq : forall i j b, holds s b i -> holds s b j -> i = j;
  ca_hs : NoDup hs.*1 /\ forall i n, (i, n) ∈ hs -> (i < NBUF)%nat
}.

Lemma is_valid_flags (b : buf) : flags_ok b -> is_valid b = negb (bflags b =? 0).
Proof. unfold is_valid. intros [ -> | [ -> | -> ] ]; reflexivity. Qed.

Lemma is_dirty_flags (b : buf) : flags_ok b -> is_dirty b = (bflags b =? 6).
Proof. unfold is_dirty. intros [ -> | [ -> | -> ] ]; reflexivity. Qed.

(** ** The view *)

Lemma view_hit (s : kernel) (hs : list (nat * Z)) (b : Z) (i : nat) :
  cached s hs -> holds s b i -> is_valid (bufof s i) = true -> view s b = bdata (bufof s i).
Proof.
  intros Hc Hi Hv. unfold view. destruct (first_of _ _ _) as [j|] eqn:E.
  - apply first_of_Some in E as [Hj E]. apply elem_of_seq in Hj.
    rewrite !andb_true_iff, !Z.eqb_eq in E. destruct E as [ [E1 E2] _ ].
    f_equal. f_equal. apply (ca_uniq _ _ Hc j i b); [|exact Hi]. split_and!; [lia|exact E1|exact E2].
  - destruct Hi as (Hi & E1 & E2). pose proof (first_of_None _ _ _ E i) as H. cbv beta in H.
    rewrite E1, E2, Hv, !Z.eqb_refl in H. discriminate H. apply elem_of_seq. lia.
Qed.

Lemma view_miss (s : kernel) (b : Z) :
  (forall i, holds s b i -> is_valid (bufof s i) = false) -> view s b = durable s b.
Proof.
  intros H. unfold view. destruct (first_of _ _ _) as [j|] eqn:E; [|reflexivity].
  apply first_of_Some in E as [Hj E]. apply elem_of_seq in Hj.
  rewrite !andb_true_iff, !Z.eqb_eq in E. destruct E as [ [E1 E2] E3 ].
  rewrite H in E3; [discriminate|]. split_and!; [lia|exact E1|exact E2].
Qed.

(** The view of a block depends on the buffer that holds it. *)
Lemma view_same (s t : kernel) (hs hs' : list (nat * Z)) (b : Z) :
  cached s hs -> cached t hs' -> durable t b = durable s b ->
  (forall i, holds t b i <-> holds s b i) ->
  (forall i, holds s b i -> is_valid (bufof t i) = is_valid (bufof s i) /\ bdata (bufof t i) = bdata (bufof s i)) ->
  view t b = view s b.
Proof.
  intros Hs Ht Hd Hh Hv.
  destruct (first_of s (fun bf => (bdev bf =? ROOTDEV) && (bblockno bf =? b) && is_valid bf) (seq 0 NBUF)) as [i|] eqn:E.
  - apply first_of_Some in E as [Hi E]. apply elem_of_seq in Hi.
    rewrite !andb_true_iff, !Z.eqb_eq in E. destruct E as [ [E1 E2] E3 ].
    assert (H : holds s b i) by (split_and!; [lia|exact E1|exact E2]).
    destruct (Hv i H) as [V1 V2]. rewrite (view_hit s hs b i Hs H E3), (view_hit t hs' b i Ht);
      [exact V2|apply Hh, H|congruence].
  - assert (N : forall i, holds s b i -> is_valid (bufof s i) = false).
    { intros i Hi. destruct (is_valid (bufof s i)) eqn:V; [|reflexivity]. destruct Hi as (Hi & E1 & E2).
      pose proof (first_of_None _ _ _ E i) as H. cbv beta in H. rewrite E1, E2, V, !Z.eqb_refl in H.
      apply H. apply elem_of_seq. lia. }
    rewrite (view_miss s b N), view_miss; [exact Hd|]. intros i Hi. apply Hh in Hi.
    destruct (Hv i Hi) as [-> _]. apply N, Hi.
Qed.

(** ** One buffer changes *)

Lemma bufof_insert (s t : kernel) (i j : nat) (nb : buf) :
  k_bufs t = <[i := nb]> (k_bufs s) -> (i < length (k_bufs s))%nat ->
  bufof t j = if decide (j = i) then nb else bufof s j.
Proof.
  intros E Hi. unfold bufof. rewrite E. case_decide as H.
  - subst j. rewrite list_lookup_insert_eq by exact Hi. reflexivity.
  - rewrite list_lookup_insert_ne by congruence. reflexivity.
Qed.

Lemma bufof_some (s : kernel) (i : nat) : (i < length (k_bufs s))%nat -> k_bufs s !! i = Some (bufof s i).
Proof.
  intros H. unfold bufof. destruct (k_bufs s !! i) eqn:E; [reflexivity|]. apply lookup_ge_None in E. lia.
Qed.

Lemma cached_in (s : kernel) (hs : list (nat * Z)) (i : nat) :
  cached s hs -> (i < NBUF)%nat -> (i < length (k_bufs s))%nat.
Proof. intros H Hi. rewrite (ca_len _ _ H). lia. Qed.

(** Buffer [i] becomes [nb], which keeps its place in the list. *)
Lemma cached_put (s t : kernel) (hs hs' : list (nat * Z)) (i : nat) (nb : buf) :
  cached s hs -> (i < NBUF)%nat -> k_bufs t = <[i := nb]> (k_bufs s) ->
  bnext nb = nxt s i -> bprev nb = prv s i -> solo t -> buf_ok t hs' i nb ->
  (forall j, (j < NBUF)%nat -> j <> i -> buf_ok t hs' j (bufof s j)) ->
  (forall j, bdev nb = ROOTDEV -> holds s (bblockno nb) j -> j = i) ->
  NoDup hs'.*1 -> (forall j n, (j, n) ∈ hs' -> (j < NBUF)%nat) -> cached t hs'.
Proof.
  intros Hc Hi E N P So Bi Bj U Hd Hn. pose proof (cached_in _ _ _ Hc Hi) as Hl.
  assert (B : forall j, bufof t j = if decide (j = i) then nb else bufof s j)
    by (intros j; apply (bufof_insert s t i j nb E Hl)).
  split; [exact So|rewrite E, length_insert; apply Hc| | | |split; assumption].
  - destruct (ca_ring _ _ Hc) as (l & Hch & Hr). exists l. split; [|exact Hr].
    eapply links_ext; [..|exact Hch]; intros y _; unfold nxt, prv; rewrite B; case_decide; subst; auto.
  - intros j Hj. rewrite B. case_decide; subst; auto.
  - intros j k b (Hj & Ej & Fj) (Hk & Ek & Fk). rewrite B in Ej, Fj, Ek, Fk. case_decide as Dj; case_decide as Dk; subst.
    + reflexivity.
    + apply U; [assumption|]. split_and!; [assumption..|congruence].
    + symmetry. apply U; [assumption|]. split_and!; [assumption..|congruence].
    + apply (ca_uniq _ _ Hc j k (bblockno (bufof s k))); split_and!; auto.
Qed.

(** The other buffers stay well formed when block [b] of the disk changes, as
    long as none of them holds that block, and when buffer [i] changes hands. *)
Lemma buf_ok_other (s t : kernel) (hs hs' : list (nat * Z)) (b : Z) (j : nat) :
  buf_ok s hs j (bufof s j) -> (j < NBUF)%nat -> ~ holds s b j ->
  (forall c, c <> b -> durable t c = durable s c) ->
  (forall n, (j, n) ∈ hs' <-> (j, n) ∈ hs) -> buf_ok t hs' j (bufof s j).
Proof.
  intros [H1 H2 H3 H4] Hj Hn Hd Hh. split; [exact H1|exact H2|intros n; rewrite Hh; apply H3|].
  intros Hf. destruct H4 as (R & L & D).
  { intros [ [j' n] [-> Hx] ]%list_elem_of_fmap. apply Hf. apply list_elem_of_fmap. exists (j', n). split; [reflexivity|].
    apply Hh, Hx. }
  split_and!; [exact R|exact L|]. intros Hv. rewrite Hd; [apply D, Hv|]. intros Eb. apply Hn.
  split_and!; [exact Hj| |exact Eb]. destruct H2 as [ [_ H2] | [H2 _] ]; [|exact H2].
  rewrite H2 in Hv. discriminate.
Qed.

(** ** The lock of a buffer *)

Lemma acquiresleep_buf {F : Fuel} (i : nat) (s : kernel) (p : nat) (pr : proc) :
  sleep_lk (SBuf i) ∉ k_held s -> (i < length (k_bufs s))%nat -> sl_locked (blk (bufof s i)) = 0 ->
  k_cur s = Some p -> k_procs s !! p = Some pr ->
  acquiresleep (SBuf i) s =
    Done tt (s <| k_bufs := <[i := (bufof s i) <| blk := mk_sleeplock 1 (pid pr) |> ]> (k_bufs s) |>).
Proof.
  intros Hh Hi Hl Hc Hp. pose proof (bufof_some s i Hi) as Hb. unfold acquiresleep.
  rewrite (bind_Done _ _ _ _ _ (acquire_free _ s Hh)).
  unfold fuel. cbn [while_loop].
  erewrite (bind_Done _ _ _ _ tt).
  2:{ erewrite (bind_Done _ _ _ _ (inr tt)); [reflexivity|]. unfold sl_at.
      erewrite (bind_Done _ _ _ _ (blk (bufof s i))); [|erewrite (bind_Done (buf_at i)) by (apply buf_at_some; exact Hb); reflexivity].
      cbv beta. rewrite Hl. reflexivity. }
  unfold upd_sl. rewrite (bind_Done _ _ _ _ _ (upd_buf_run _ _ _)).
  erewrite (bind_Done curproc) by (apply curproc_some; exact Hc).
  erewrite (bind_Done (proc_at _)) by (apply proc_at_some; exact Hp).
  rewrite (bind_Done _ _ _ _ _ (upd_buf_run _ _ _)).
  rewrite (release_head _ (k_held s)) by (reflexivity || exact Hh).
  assert (E : alter (fun b => b <| blk ::= fun k => k <| sl_pid := pid pr |> |>) i
    (alter (fun b => b <| blk ::= fun k => k <| sl_locked := 1 |> |>) i (k_bufs s)) =
    <[i := (bufof s i) <| blk := mk_sleeplock 1 (pid pr) |> ]> (k_bufs s)).
  { rewrite (alter_some _ i _ _ Hb), alter_insert. reflexivity. }
  rewrite <- E. reflexivity.
Qed.

(** ** [bget] *)

(** The buffer [bget] returns: [base] with the lock and the reference taken. *)
Definition taken (base : buf) (pd : Z) : buf := base <| brefcnt := 1 |> <| blk := mk_sleeplock 1 pd |>.

(** A clean buffer that nobody holds. *)
Definition room (s : kernel) (hs : list (nat * Z)) : Prop :=
  exists j, (j < NBUF)%nat /\ j ∉ hs.*1 /\ is_dirty (bufof s j) = false.

Lemma bget_take {F : Fuel} (s : kernel) (i : nat) (f : buf -> buf) (p : nat) (pr : proc) :
  k_held s = [] -> (i < length (k_bufs s))%nat -> sl_locked (blk (f (bufof s i))) = 0 ->
  k_cur s = Some p -> k_procs s !! p = Some pr ->
  (upd_buf i f;; release bcache_lock;; acquiresleep (SBuf i);; mret i) (s <| k_held := bcache_lock :: k_held s |>) =
    Done i (s <| k_bufs := <[i := (f (bufof s i)) <| blk := mk_sleeplock 1 (pid pr) |> ]> (k_bufs s) |>).
Proof.
  intros Hh Hi Hl Hc Hp. pose proof (bufof_some s i Hi) as Hb.
  rewrite (bind_Done _ _ _ _ _ (upd_buf_run _ _ _)).
  erewrite (bind_Done (release _)) by (apply (release_head _ (k_held s)); [reflexivity|rewrite Hh; set_solver]).
  set (t := s <| k_bufs := <[i := f (bufof s i)]> (k_bufs s) |>).
  assert (E : s <| k_held := bcache_lock :: k_held s |> <| k_bufs ::= alter f i |> <| k_held := k_held s |> = t).
  { unfold t. rewrite <- (alter_some f i _ _ Hb). reflexivity. }
  rewrite E. assert (Et : bufof t i = f (bufof s i)).
  { rewrite (bufof_insert s t i i (f (bufof s i))), decide_True by (reflexivity || exact Hi). reflexivity. }
  erewrite (bind_Done (acquiresleep _)).
  2:{ apply (acquiresleep_buf i t p pr); [cbn; rewrite Hh; set_solver|cbn; rewrite length_insert; exact Hi
        |rewrite Et; exact Hl|exact Hc|exact Hp]. }
  rewrite Et. unfold t. cbn. rewrite list_insert_insert_eq. reflexivity.
Qed.

Lemma bget_run {F : Fuel} (s : kernel) (hs : list (nat * Z)) (b : Z) :
  cached s hs -> b ∉ hs.*2 -> room s hs \/ (exists i, holds s b i) ->
  exists i pd t base, bget ROOTDEV b s = Done i t /\ t = s <| k_bufs := <[i := taken base pd]> (k_bufs s) |> /\
    (i < NBUF)%nat /\ i ∉ hs.*1 /\
    (holds s b i /\ base = bufof s i \/
     (forall j, ~ holds s b j) /\ is_dirty (bufof s i) = false /\
     base = (bufof s i) <| bdev := ROOTDEV |> <| bblockno := b |> <| bflags := 0 |>).
Proof.
  intros Hc Hb Hr. destruct (so_cur _ (ca_solo _ _ Hc)) as (p & Hcp & pr & Hp).
  pose proof (so_held _ (ca_solo _ _ Hc)) as Hh. destruct (ca_ring _ _ Hc) as (l & Hch & Hd & Hl).
  pose proof (ca_len _ _ Hc) as Hlen.
  assert (Hin : forall x, x ∈ l -> x <> HEAD /\ (x < length (k_bufs s))%nat).
  { intros x Hx. apply Hl in Hx. unfold HEAD. lia. }
  assert (Hll : (length l < S NBUF)%nat).
  { pose proof (submseteq_length l (seq 0 NBUF)) as H. rewrite length_seq in H. apply Nat.lt_succ_r, H.
    apply NoDup_submseteq; [exact Hd|]. intros x Hx. apply elem_of_seq. apply Hl in Hx. lia. }
  unfold bget. rewrite (bind_Done _ _ _ _ _ (acquire_free bcache_lock s ltac:(rewrite Hh; set_solver))).
  set (s1 := s <| k_held := bcache_lock :: k_held s |>).
  rewrite (bind_Done _ _ _ _ _ (buf_at_in s1 HEAD ltac:(cbn; rewrite Hlen; unfold HEAD; lia))).
  change (bnext (bufof s1 HEAD)) with (nxt s1 HEAD). change (bprev (bufof s1 HEAD)) with (prv s1 HEAD).
  rewrite (bind_Done _ _ _ _ _ (bget_cached_run s1 ROOTDEV b l (S NBUF) HEAD Hch Hll Hin)).
  destruct (first_of s1 _ l) as [i|] eqn:E.
  - apply first_of_Some in E as [Hi E]. pose proof (proj2 (Hin i Hi)) as Hi'. apply Hl in Hi.
    apply andb_true_iff in E as [E1 E2]. apply Z.eqb_eq in E1, E2. change (bufof s1 i) with (bufof s i) in *.
    assert (Hn : i ∉ hs.*1).
    { intros [ [i' n] [-> Hx] ]%list_elem_of_fmap. cbn in *. destruct (bo_held _ _ _ _ (ca_bufs _ _ Hc i' Hi) n Hx)
        as (_ & _ & _ & E & _). apply Hb. apply list_elem_of_fmap. exists (i', n). split; [cbn; congruence|exact Hx]. }
    destruct (bo_free _ _ _ _ (ca_bufs _ _ Hc i Hi) Hn) as (R & K & _).
    exists i, (pid pr). eexists. exists (bufof s i). split_and!; [|reflexivity|exact Hi|exact Hn|].
    + unfold s1. rewrite (bget_take s i _ p pr Hh Hi'); [|exact K|exact Hcp|exact Hp].
      unfold taken. rewrite R. reflexivity.
    + left. split; [split_and!; assumption|reflexivity].
  - rewrite (bind_Done _ _ _ _ _ (bget_unused_run s1 l (S NBUF) HEAD Hch Hll Hin)).
    assert (Hnone : forall j, ~ holds s b j).
    { intros j (Hj & E1 & E2). pose proof (first_of_None _ _ _ E j) as H. cbv beta in H.
      change (bufof s1 j) with (bufof s j) in H. rewrite E1, E2, !Z.eqb_refl in H. discriminate H. apply Hl, Hj. }
    destruct Hr as [ (j & Hj & Hjn & Hjd) | [j Hj] ]; [|destruct (Hnone j Hj)].
    destruct (first_of s1 _ (rev l)) as [i|] eqn:E'.
    + apply first_of_Some in E' as [Hi E']. apply list_elem_of_In, in_rev, list_elem_of_In in Hi.
      apply andb_true_iff in E' as [E1 E2]. apply Z.eqb_eq in E1. apply negb_true_iff in E2.
      pose proof (proj2 (Hin i Hi)) as Hi'. apply Hl in Hi. change (bufof s1 i) with (bufof s i) in *.
      assert (Hn : i ∉ hs.*1).
      { intros [ [i' n] [-> Hx] ]%list_elem_of_fmap. cbn in *.
        destruct (bo_held _ _ _ _ (ca_bufs _ _ Hc i' Hi) n Hx) as (E3 & _). congruence. }
      destruct (bo_free _ _ _ _ (ca_bufs _ _ Hc i Hi) Hn) as (R & K & _).
      exists i, (pid pr). eexists. eexists. split_and!; [|reflexivity|exact Hi|exact Hn|].
      * unfold s1. rewrite (bget_take s i _ p pr Hh Hi'); [reflexivity|exact K|exact Hcp|exact Hp].
      * right. split_and!; [exact Hnone|exact E2|reflexivity].
    + destruct (bo_free _ _ _ _ (ca_bufs _ _ Hc j Hj) Hjn) as (R & _).
      pose proof (first_of_None _ _ _ E' j) as H. cbv beta in H. change (bufof s1 j) with (bufof s j) in H.
      rewrite R, Hjd in H. discriminate H. apply list_elem_of_In. apply -> in_rev. apply list_elem_of_In, Hl, Hj.
Qed.

(** ** [bread] *)

Lemma holds_insert (s t : kernel) (hs : list (nat * Z)) (i j : nat) (nb : buf) (c : Z) :
  cached s hs -> (i < NBUF)%nat -> k_bufs t = <[i := nb]> (k_bufs s) ->
  holds t c j <-> if decide (j = i) then bdev nb = ROOTDEV /\ bblockno nb = c else holds s c j.
Proof.
  intros Hc Hi E. unfold holds. rewrite (bufof_insert s t i j nb E (cached_in _ _ _ Hc Hi)).
  case_decide; subst; tauto.
Qed.

(** What is kept when a buffer is loaded or released. *)
Definition same_view (s t : kernel) : Prop :=
  forall c, view t c = view s c /\ durable t c = durable s c /\ (dirty t c <-> dirty s c).

Section Load.
Context (s t : kernel) (hs : list (nat * Z)) (i : nat) (b : Z) (nb : buf).
Hypothesis Hc : cached s hs.
Hypothesis Hi : (i < NBUF)%nat.
Hypothesis Hn : i ∉ hs.*1.
Hypothesis Hb : 0 <= b < FSSIZE.
Hypothesis Ht : solo t.
Hypothesis HE : k_bufs t = <[i := nb]> (k_bufs s).
Hypothesis HD : k_disk t = k_disk s.
Hypothesis Hl : bnext nb = nxt s i /\ bprev nb = prv s i.
Hypothesis Hf : bflags nb = B_VALID \/ bflags nb = Z.lor B_VALID B_DIRTY.
Hypothesis Hnb : bdev nb = ROOTDEV /\ bblockno nb = b /\ brefcnt nb = 1 /\ sl_locked (blk nb) = 1 /\ bdata nb = view s b.
Hypothesis Hcase : holds s b i /\ is_dirty nb = is_dirty (bufof s i) \/
  (forall j, ~ holds s b j) /\ is_dirty (bufof s i) = false /\ is_dirty nb = false.

Lemma load_only (j : nat) : holds s b j -> j = i.
Proof.
  intros Hj. destruct Hcase as [ [Hi' _] | [H _] ]; [|destruct (H j Hj)]. exact (ca_uniq _ _ Hc j i b Hj Hi').
Qed.

Lemma load_cached : cached t ((i, b) :: hs).
Proof.
  destruct Hnb as (N1 & N2 & N3 & N4 & N5). destruct (ca_hs _ _ Hc) as [Hd1 Hd2].
  assert (Hdur : forall c, durable t c = durable s c) by (intros c; unfold durable, disk_block; rewrite HD; reflexivity).
  apply (cached_put s t hs _ i nb); try assumption; try tauto.
  - split.
    + unfold flags_ok. tauto.
    + right. rewrite N2. tauto.
    + intros n [ [= ->] | Hx ]%elem_of_cons.
      * split_and!; try assumption. destruct Hf as [E|E]; unfold is_valid; rewrite E; reflexivity.
      * destruct Hn. apply list_elem_of_fmap. exists (i, n). auto.
    + intros Hx. destruct Hx. left.
  - intros j Hj Hji. apply (buf_ok_other s t hs _ b); [apply (ca_bufs _ _ Hc j Hj)|exact Hj| |intros; apply Hdur|].
    + intros Hx. apply Hji, load_only, Hx.
    + intros n. rewrite elem_of_cons. split; [intros [ [= -> ->] | H]; [congruence|exact H]|auto].
  - intros j _. rewrite N2. apply load_only.
  - cbn. apply NoDup_cons. split; assumption.
  - intros j n [ [= -> ->] | Hx ]%elem_of_cons; [exact Hi|eapply Hd2, Hx].
Qed.

Lemma load_view : same_view s t.
Proof.
  destruct Hnb as (N1 & N2 & N3 & N4 & N5). pose proof load_cached as Hct.
  assert (Hdur : forall c, durable t c = durable s c) by (intros c; unfold durable, disk_block; rewrite HD; reflexivity).
  pose proof (cached_in _ _ _ Hc Hi) as Hlen.
  assert (Bt : forall j, bufof t j = if decide (j = i) then nb else bufof s j)
    by (intros j; apply (bufof_insert s t i j nb HE Hlen)).
  assert (Vt : is_valid nb = true) by (destruct Hf as [E|E]; unfold is_valid; rewrite E; reflexivity).
  intros c. split_and!; [|apply Hdur|].
  - destruct (decide (c = b)) as [->|Hcb].
    { rewrite (view_hit t _ b i Hct), Bt, decide_True; [exact N5|reflexivity| |].
      - apply (holds_insert s t hs i i nb b Hc Hi HE). rewrite decide_True by reflexivity. auto.
      - rewrite Bt, decide_True by reflexivity. exact Vt. }
    assert (Hti : ~ holds t c i).
    { rewrite (holds_insert s t hs i i nb c Hc Hi HE), decide_True by reflexivity. intros [_ H]. congruence. }
    destruct (decide (holds s c i)) as [Hsi|Hsi].
    + destruct Hcase as [ [ (_ & _ & H) _ ] | (_ & Hcl & _) ]; [destruct Hsi as (_ & _ & H'); congruence|].
      rewrite (view_miss t c), Hdur.
      * pose proof (ca_bufs _ _ Hc i Hi) as Bi. rewrite (is_dirty_flags _ (bo_flags _ _ _ _ Bi)) in Hcl.
        destruct (is_valid (bufof s i)) eqn:V.
        -- rewrite (view_hit s hs c i Hc Hsi V). destruct Hsi as (_ & _ & <-).
           destruct (bo_free _ _ _ _ Bi Hn) as (_ & _ & ->); [reflexivity|].
           rewrite (is_valid_flags _ (bo_flags _ _ _ _ Bi)) in V.
           destruct (bo_flags _ _ _ _ Bi) as [E|[E|E] ]; rewrite E in *; [discriminate|reflexivity|discriminate].
        -- rewrite (view_miss s c); [reflexivity|]. intros j Hj. rewrite (ca_uniq _ _ Hc j i c Hj Hsi). exact V.
      * intros j Hj. pose proof Hj as Hj'. rewrite (holds_insert s t hs i j nb c Hc Hi HE) in Hj'.
        case_decide as Dd; [subst j; destruct (Hti Hj)|]. destruct Dd. exact (ca_uniq _ _ Hc j i c Hj' Hsi).
    + assert (Hh : forall j, holds t c j <-> holds s c j).
      { intros j. rewrite (holds_insert s t hs i j nb c Hc Hi HE). case_decide as Dd; [subst j|reflexivity].
        split; [intros [_ H]; congruence|intros H; destruct (Hsi H)]. }
      apply (view_same s t hs _ c Hc Hct); [apply Hdur|exact Hh|]. intros j Hj. rewrite Bt.
      case_decide as Dd; [subst j; destruct (Hsi Hj)|auto].
  - split; intros (j & Hj & Dj).
    + rewrite (holds_insert s t hs i j nb c Hc Hi HE) in Hj. rewrite Bt in Dj. case_decide as Dd; [subst j|].
      * destruct Hj as [_ Hj]. destruct Hcase as [ [H1 H2] | (_ & _ & H) ]; [|congruence].
        exists i. split; [rewrite <- Hj, N2; exact H1|congruence].
      * exists j. auto.
    + exists j. rewrite (holds_insert s t hs i j nb c Hc Hi HE), Bt. case_decide as Dd; [subst j|auto].
      destruct Hcase as [ [H1 H2] | (_ & H & _) ]; [|congruence]. split; [|congruence].
      split; [exact N1|]. destruct Hj as (_ & _ & <-). destruct H1 as (_ & _ & <-). exact N2.
Qed.
End Load.

Lemma solo_bufs (s : kernel) (bs : list buf) : solo s -> solo (s <| k_bufs := bs |>).
Proof. intros [H1 H2 H3 H4 H5]. split; assumption. Qed.

Lemma kept_refl (s : kernel) : kept s s.
Proof. split_and!; reflexivity. Qed.

Lemma kept_trans (s t u : kernel) : kept s t -> kept t u -> kept s u.
Proof. unfold kept. intros (?&?&?&?) (?&?&?&?). split_and!; congruence. Qed.

Lemma same_view_trans (s t u : kernel) : same_view s t -> same_view t u -> same_view s u.
Proof.
  intros H1 H2 c. destruct (H1 c) as (A1 & A2 & A3), (H2 c) as (B1 & B2 & B3). split_and!; [congruence..|tauto].
Qed.

(** ** Changing a buffer that is held *)

Lemma held_buf (s : kernel) (hs : list (nat * Z)) (i : nat) (b : Z) :
  cached s hs -> (i, b) ∈ hs ->
  (i < NBUF)%nat /\ holds s b i /\ is_valid (bufof s i) = true /\ view s b = bdata (bufof s i) /\
  brefcnt (bufof s i) = 1 /\ sl_locked (blk (bufof s i)) = 1 /\ 0 <= b < FSSIZE.
Proof.
  intros Hc Hx. pose proof (proj2 (ca_hs _ _ Hc) i b Hx) as Hi. pose proof (ca_bufs _ _ Hc i Hi) as Bi.
  destruct (bo_held _ _ _ _ Bi b Hx) as (H1 & H2 & H3 & H4 & H5).
  assert (Hh : holds s b i) by (split_and!; assumption).
  split_and!; try assumption; [apply (view_hit s hs); assumption|..];
    (destruct (bo_dev _ _ _ _ Bi) as [ [H6 _] | [_ H6] ]; [rewrite H3 in H6; discriminate H6|lia]).
Qed.

Lemma held_put (s t : kernel) (hs : list (nat * Z)) (i : nat) (b : Z) (nb : buf) :
  cached s hs -> (i, b) ∈ hs -> k_bufs t = <[i := nb]> (k_bufs s) -> solo t ->
  bnext nb = nxt s i /\ bprev nb = prv s i /\ bdev nb = ROOTDEV /\ bblockno nb = b /\ brefcnt nb = 1 /\
    sl_locked (blk nb) = 1 ->
  bflags nb = B_VALID \/ bflags nb = Z.lor B_VALID B_DIRTY ->
  (forall c, c <> b -> durable t c = durable s c) ->
  cached t hs /\ view t b = bdata nb /\ (dirty t b <-> is_dirty nb = true) /\
  (forall c, c <> b -> view t c = view s c /\ (dirty t c <-> dirty s c)).
Proof.
  intros Hc Hx HE Ht (N1 & N2 & N3 & N4 & N5 & N6) Hf Hd.
  destruct (held_buf s hs i b Hc Hx) as (Hi & Hh & _ & _ & _ & _ & Hb).
  pose proof (cached_in _ _ _ Hc Hi) as Hlen.
  assert (Bt : forall j, bufof t j = if decide (j = i) then nb else bufof s j)
    by (intros j; apply (bufof_insert s t i j nb HE Hlen)).
  assert (V : is_valid nb = true) by (destruct Hf as [E|E]; unfold is_valid; rewrite E; reflexivity).
  assert (Ht' : cached t hs).
  { apply (cached_put s t hs hs i nb); try assumption; try apply (ca_hs _ _ Hc).
    - split; [unfold flags_ok; tauto|right; rewrite N4; tauto| |].
      + intros n Hn. split_and!; try assumption. rewrite N4.
        destruct (bo_held _ _ _ _ (ca_bufs _ _ Hc i Hi) n Hn) as (_ & _ & _ & H & _). destruct Hh as (_ & _ & H'). congruence.
      + intros Hn. destruct Hn. apply list_elem_of_fmap. exists (i, b). auto.
    - intros j Hj Hji. apply (buf_ok_other s t hs hs b); [apply (ca_bufs _ _ Hc j Hj)|exact Hj| |exact Hd|reflexivity].
      intros Hj'. apply Hji. exact (ca_uniq _ _ Hc j i b Hj' Hh).
    - intros j _ Hj. rewrite N4 in Hj. exact (ca_uniq _ _ Hc j i b Hj Hh). }
  assert (Hti : holds t b i).
  { apply (holds_insert s t hs i i nb b Hc Hi HE). rewrite decide_True by reflexivity. auto. }
  assert (Hhc : forall c j, c <> b -> holds t c j <-> holds s c j).
  { intros c j Hcb. rewrite (holds_insert s t hs i j nb c Hc Hi HE). case_decide as D; [subst j|reflexivity].
    destruct Hh as (_ & _ & H). split; [intros [_ H']; congruence|intros (_ & _ & H'); congruence]. }
  split_and!; [exact Ht'| | |].
  - rewrite (view_hit t hs b i Ht' Hti), Bt, decide_True by (try rewrite Bt, decide_True; auto). reflexivity.
  - split.
    + intros (j & Hj & D). rewrite (ca_uniq _ _ Ht' j i b Hj Hti), Bt, decide_True in D by reflexivity. exact D.
    + intros D. exists i. split; [exact Hti|]. rewrite Bt, decide_True by reflexivity. exact D.
  - intros c Hcb. split.
    + apply (view_same s t hs hs c Hc Ht'); [apply Hd, Hcb|intros j; apply Hhc, Hcb|]. intros j Hj. rewrite Bt.
      case_decide as D; [subst j|auto]. destruct Hh as (_ & _ & H), Hj as (_ & _ & H'). congruence.
    + split; intros (j & Hj & D); exists j; [apply Hhc in Hj; [|exact Hcb]|rewrite Hhc by exact Hcb]; split; try exact Hj;
        rewrite Bt in *; (case_decide as D'; [subst j|exact D]); destruct Hh as (_ & _ & H), Hj as (_ & _ & H'); congruence.
Qed.

Section Ops.
Context {F : Fuel} (C : gmap (Z * Z) (list Z) -> Prop).
Hypothesis Hfuel : (1 <= fuel_pred)%nat.

Abbreviation runsC := (runs (fun s => C (k_disk s)) disk_intr).

Lemma bread_runs (b : Z) (s : kernel) (hs : list (nat * Z)) (Q : nat -> kernel -> Prop) :
  cached s hs -> 0 <= b < FSSIZE -> b ∉ hs.*2 -> room s hs \/ (exists i, holds s b i) -> C (k_disk s) ->
  (forall i t, cached t ((i, b) :: hs) -> same_view s t -> kept s t -> k_disk t = k_disk s -> Q i t) ->
  runsC (bread ROOTDEV b s) Q.
Proof.
  intros Hc Hb Hn Hr HC HQ. destruct (bget_run s hs b Hc Hn Hr) as (i & pd & t & base & E & Et & Hi & Hni & Hcase).
  assert (Hli : (i < length (k_bufs s))%nat) by (eapply cached_in; eassumption).
  assert (Hst : solo t) by (subst t; apply solo_bufs, Hc).
  assert (Bt : k_bufs t = <[i := taken base pd]> (k_bufs s)) by (subst t; reflexivity).
  assert (Hti : k_bufs t !! i = Some (taken base pd)) by (rewrite Bt; apply list_lookup_insert_eq, Hli).
  assert (Hbase : bdev base = ROOTDEV /\ bblockno base = b /\ bnext base = nxt s i /\ bprev base = prv s i /\ flags_ok base).
  { pose proof (bo_flags _ _ _ _ (ca_bufs _ _ Hc i Hi)) as Hf.
    destruct Hcase as [ [ (_ & H1 & H2) -> ] | (_ & _ & ->) ]; cbn; split_and!; auto. left. reflexivity. }
  destruct Hbase as (B1 & B2 & B3 & B4 & B5).
  unfold bread. eapply runs_done; [exact E|]. eapply runs_done; [apply (buf_at_some i _ t Hti)|]. cbv beta.
  change (is_valid (taken base pd)) with (is_valid base).
  destruct (is_valid base) eqn:V; cbn [negb when].
  - eapply runs_done; [apply ret_run|]. eapply runs_return; [apply ret_run|].
    destruct Hcase as [ [Hh ->] | (_ & _ & ->) ]; [|discriminate V].
    assert (Fb : bflags (bufof s i) = B_VALID \/ bflags (bufof s i) = Z.lor B_VALID B_DIRTY).
    { rewrite (is_valid_flags _ B5) in V. destruct B5 as [H|H]; [rewrite H in V; discriminate V|exact H]. }
    assert (L : cached t ((i, b) :: hs) /\ same_view s t).
    { split; [eapply (load_cached s t hs i b)|eapply (load_view s t hs i b)]; try eassumption; try (subst t; reflexivity);
        try (split; assumption); try (left; split; [assumption|reflexivity]); split_and!; try reflexivity; try assumption;
        symmetry; apply (view_hit s hs); assumption. }
    apply HQ; [apply L|apply L|subst t; split_and!; reflexivity|subst t; reflexivity].
  - assert (F0 : bflags base = 0).
    { rewrite (is_valid_flags _ B5) in V. apply negb_false_iff, Z.eqb_eq in V. exact V. }
    assert (Dd : durable s b = view s b).
    { symmetry. apply view_miss. intros j Hj. destruct Hcase as [ [Hh Eb] | (H & _) ]; [|destruct (H j Hj)].
      rewrite (ca_uniq _ _ Hc j i b Hj Hh), <- Eb. exact V. }
    assert (Dt : is_dirty (taken base pd) = false) by (unfold is_dirty; cbn; rewrite F0; reflexivity).
    assert (Ed : done_disk t (taken base pd) = k_disk s) by (unfold done_disk; rewrite Dt; subst t; reflexivity).
    eapply runs_seq with (P := fun _ u => cached u ((i, b) :: hs) /\ same_view s u /\ kept s u /\ k_disk u = k_disk s).
    + apply (iderw_runs C Hfuel i (taken base pd)); try assumption.
      * discriminate.
      * unfold synced. cbn. rewrite F0. reflexivity.
      * cbn. lia.
      * rewrite Ed. exact HC.
      * intros u Hu Bu Du Ku. rewrite Bt, list_insert_insert_eq in Bu. rewrite Ed in Du.
        assert (L : cached u ((i, b) :: hs) /\ same_view s u).
        { split; [eapply (load_cached s u hs i b)|eapply (load_view s u hs i b)]; try exact Bu; try eassumption;
            try (split; assumption);
            try (left; cbn; rewrite F0; reflexivity);
            try (split_and!; try assumption; try reflexivity; unfold done_buf; rewrite Dt; cbn;
              unfold drive_block; cbn; rewrite B1, B2; subst t; exact Dd);
            (destruct Hcase as [ [Hh Eb] | (H1 & H2 & H3) ];
             [left; split; [exact Hh|rewrite <- Eb; unfold is_dirty; cbn; rewrite F0; reflexivity]
             |right; split_and!; [exact H1|exact H2|unfold is_dirty; cbn; rewrite F0; reflexivity] ]). }
        split_and!; [apply L|apply L|subst t; exact Ku|exact Du].
    + intros _ u (H1 & H2 & H3 & H4). eapply runs_return; [apply ret_run|]. apply HQ; assumption.
Qed.

(** ** Reading and writing the contents of a held buffer *)

Lemma data_at_held (s : kernel) (hs : list (nat * Z)) (i : nat) (b : Z) :
  cached s hs -> (i, b) ∈ hs -> data_at i s = Done (view s b) s.
Proof.
  intros Hc Hx. destruct (held_buf s hs i b Hc Hx) as (Hi & _ & _ & -> & _).
  unfold data_at. rewrite (bind_Done _ _ _ _ _ (buf_at_in s i (cached_in _ _ _ Hc Hi))). reflexivity.
Qed.

Definition fupd (f : Z -> list Z) (b : Z) (d : list Z) : Z -> list Z := fun c => if decide (c = b) then d else f c.

Lemma set_data_held (s : kernel) (hs : list (nat * Z)) (i : nat) (b : Z) (d : list Z) :
  cached s hs -> (i, b) ∈ hs ->
  exists t, set_data i d s = Done tt t /\ cached t hs /\ k_disk t = k_disk s /\ kept s t /\
    (forall c, view t c = fupd (view s) b d c) /\ (forall c, dirty t c <-> dirty s c).
Proof.
  intros Hc Hx. destruct (held_buf s hs i b Hc Hx) as (Hi & Hh & V & _ & R & L & Hb).
  pose proof (cached_in _ _ _ Hc Hi) as Hlen. pose proof (bo_flags _ _ _ _ (ca_bufs _ _ Hc i Hi)) as Hf.
  set (t := s <| k_bufs := <[i := (bufof s i) <| bdata := d |> ]> (k_bufs s) |>).
  destruct (held_put s t hs i b ((bufof s i) <| bdata := d |>)) as (H1 & H2 & H3 & H4); try assumption.
  - reflexivity.
  - apply solo_bufs, Hc.
  - destruct Hh as (_ & ? & ?). split_and!; auto.
  - cbn. rewrite (is_valid_flags _ Hf) in V. destruct Hf as [E|E]; [rewrite E in V; discriminate V|exact E].
  - reflexivity.
  - exists t. split_and!; [|exact H1|reflexivity|split_and!; reflexivity| |].
    + unfold set_data. rewrite upd_buf_run. unfold t. rewrite <- (alter_some (fun b => b <| bdata := d |>) i _ _ (bufof_some s i Hlen)).
      reflexivity.
    + intros c. unfold fupd. case_decide as D; [subst c; exact H2|apply H4, D].
    + intros c. destruct (decide (c = b)) as [->|D]; [|apply H4, D]. rewrite H3. split.
      * intros D. exists i. split; [exact Hh|exact D].
      * intros (j & Hj & D). rewrite (ca_uniq _ _ Hc j i b Hj Hh) in D. exact D.
Qed.

(** [bwrite] makes the contents durable. *)
Lemma bwrite_runs (s : kernel) (hs : list (nat * Z)) (i : nat) (b : Z) (Q : unit -> kernel -> Prop) :
  cached s hs -> (i, b) ∈ hs -> C (<[(ROOTDEV, b) := view s b]> (k_disk s)) ->
  (forall t, cached t hs -> kept s t -> k_disk t = <[(ROOTDEV, b) := view s b]> (k_disk s) ->
     (forall c, view t c = view s c) -> (forall c, dirty t c <-> dirty s c /\ c <> b) -> Q tt t) ->
  runsC (bwrite i s) Q.
Proof.
  intros Hc Hx HC HQ. destruct (held_buf s hs i b Hc Hx) as (Hi & (_ & Hh1 & Hh2) & V & Vw & R & L & Hb).
  pose proof (cached_in _ _ _ Hc Hi) as Hlen. pose proof (bo_flags _ _ _ _ (ca_bufs _ _ Hc i Hi)) as Hf.
  pose proof (bufof_some s i Hlen) as Hs. pose proof (so_held _ (ca_solo _ _ Hc)) as Hhd.
  set (db := (bufof s i) <| bflags ::= Z.lor B_DIRTY |>).
  assert (Fd : bflags db = 6).
  { unfold db. cbn. rewrite (is_valid_flags _ Hf) in V. destruct Hf as [E|[E|E] ]; rewrite E in *; [discriminate V|reflexivity..]. }
  assert (Dd : is_dirty db = true) by (unfold is_dirty; rewrite Fd; reflexivity).
  set (t := s <| k_bufs := <[i := db]> (k_bufs s) |>).
  unfold bwrite. eapply runs_done; [apply (holdingsleep_buf i (bufof s i)); [rewrite Hhd; set_solver|exact Hs]|].
  cbv beta. rewrite L. cbn [Z.eqb].
  apply (runs_done _ _ _ _ _ t tt).
  { rewrite upd_buf_run. unfold t, db. rewrite <- (alter_some (fun b => b <| bflags ::= Z.lor B_DIRTY |>) i _ _ Hs). reflexivity. }
  assert (Ed : done_disk t db = <[(ROOTDEV, b) := view s b]> (k_disk s)).
  { unfold done_disk. rewrite Dd. unfold drive_block, db. cbn. rewrite Hh1, Hh2, Vw. reflexivity. }
  apply (iderw_runs C Hfuel i db); [apply solo_bufs, Hc|apply list_lookup_insert_eq, Hlen| | | | |].
  - cbn. rewrite L. discriminate.
  - unfold synced. rewrite Fd. reflexivity.
  - cbn. lia.
  - rewrite Ed. exact HC.
  - intros u Hu Bu Du Ku. unfold t in Bu. cbn in Bu. rewrite list_insert_insert_eq in Bu. rewrite Ed in Du.
    destruct (held_put s u hs i b (done_buf t db)) as (H1 & H2 & H3 & H4); try assumption.
    + split_and!; try reflexivity; try assumption.
    + left. unfold done_buf. cbn -[db]. rewrite Fd. reflexivity.
    + intros c Hcb. unfold durable, disk_block. rewrite Du, lookup_insert_ne by congruence. reflexivity.
    + apply HQ; [exact H1|exact Ku|exact Du|..]; intros c; (destruct (decide (c = b)) as [->|D]; [|destruct (H4 c D)]).
      * rewrite H2. unfold done_buf. rewrite Dd. cbn. symmetry. exact Vw.
      * assumption.
      * rewrite H3. unfold is_dirty, done_buf. cbn -[db]. rewrite Fd. split; [discriminate|tauto].
      * tauto.
Qed.
End Ops.

(** ** [brelse] *)

Lemma cached_perm (s : kernel) (hs hs' : list (nat * Z)) : hs ≡ₚ hs' -> cached s hs -> cached s hs'.
Proof.
  intros P [H1 H2 H3 H4 H5 [H6 H7] ]. split; try assumption.
  - intros i Hi. destruct (H4 i Hi) as [B1 B2 B3 B4]. split; try assumption.
    + intros n. rewrite <- P. apply B3.
    + rewrite <- P. exact B4.
  - split; [rewrite <- P; exact H6|]. intros i n. rewrite <- P. apply H7.
Qed.

(** Only the links and fields that the cache does not look at differ. *)
Lemma cached_links (s t : kernel) (hs : list (nat * Z)) (l : list nat) :
  cached s hs -> solo t -> k_disk t = k_disk s -> length (k_bufs t) = length (k_bufs s) ->
  (forall k, unlinked (bufof t k) = unlinked (bufof s k)) ->
  links (nxt t) (prv t) HEAD l HEAD -> NoDup l -> (forall i, i ∈ l <-> (i < NBUF)%nat) ->
  cached t hs /\ same_view s t.
Proof.
  intros Hc Ht Hd Hl Hu Hch Hn Hm.
  assert (U : forall k, bflags (bufof t k) = bflags (bufof s k) /\ bdev (bufof t k) = bdev (bufof s k) /\
    bblockno (bufof t k) = bblockno (bufof s k) /\ blk (bufof t k) = blk (bufof s k) /\
    brefcnt (bufof t k) = brefcnt (bufof s k) /\ bdata (bufof t k) = bdata (bufof s k)).
  { intros k. specialize (Hu k). unfold unlinked in Hu. cbn in Hu. injection Hu as ? ? ? ? ? ? ?. auto 10. }
  assert (Hdur : forall c, durable t c = durable s c) by (intros c; unfold durable, disk_block; rewrite Hd; reflexivity).
  assert (Hh : forall c j, holds t c j <-> holds s c j).
  { intros c j. unfold holds. destruct (U j) as (_ & -> & -> & _). reflexivity. }
  assert (Ht' : cached t hs).
  { split; [exact Ht|rewrite Hl; apply Hc|eauto| | |apply (ca_hs _ _ Hc)].
    - intros i Hi. destruct (U i) as (E1 & E2 & E3 & E4 & E5 & E6). destruct (ca_bufs _ _ Hc i Hi) as [B1 B2 B3 B4].
      split; unfold flags_ok, is_valid in *; rewrite ?E1, ?E2, ?E3, ?E4, ?E5, ?E6; [exact B1|exact B2|exact B3|].
      intros Hx. destruct (B4 Hx) as (R & L & D). split_and!; [exact R|exact L|]. intros Hf. rewrite Hdur. apply D, Hf.
    - intros i j c. rewrite !Hh. apply (ca_uniq _ _ Hc). }
  split; [exact Ht'|]. intros c. split_and!; [|apply Hdur|].
  - apply (view_same s t hs hs c Hc Ht'); [apply Hdur|apply Hh|]. intros i _. destruct (U i) as (E1 & _ & _ & _ & _ & E6).
    unfold is_valid. rewrite E1. auto.
  - unfold dirty. split; intros (i & Hi & D); exists i; (split; [apply Hh, Hi|]); destruct (U i) as (E1 & _);
      unfold is_dirty in *; congruence.
Qed.

Lemma releasesleep_buf (i : nat) (s : kernel) :
  k_held s = [] -> (i < length (k_bufs s))%nat ->
  releasesleep (SBuf i) s =
    Done tt (s <| k_bufs := <[i := (bufof s i) <| blk := sleeplock0 |> ]> (k_bufs s) |>
               <| k_procs ::= map (wake (Some (CSleep (SBuf i)))) |>).
Proof.
  intros Hh Hi. pose proof (bufof_some s i Hi) as Hb. unfold releasesleep, upd_sl.
  rewrite (bind_Done _ _ _ _ _ (acquire_free (sleep_lk (SBuf i)) s ltac:(rewrite Hh; set_solver))).
  rewrite 2!(bind_Done _ _ _ _ _ (upd_buf_run _ _ _)).
  erewrite (bind_Done (wakeup _)) by (apply wakeup_run; cbn; rewrite Hh; set_solver).
  erewrite (release_head _ (k_held s)) by (reflexivity || (rewrite Hh; set_solver)).
  assert (E : alter (fun b => b <| blk ::= fun k => k <| sl_pid := 0 |> |>) i
    (alter (fun b => b <| blk ::= fun k => k <| sl_locked := 0 |> |>) i (k_bufs s)) =
    <[i := (bufof s i) <| blk := sleeplock0 |> ]> (k_bufs s)).
  { rewrite (alter_some _ i _ _ Hb), alter_insert. reflexivity. }
  rewrite <- E. reflexivity.
Qed.

(** A held buffer is given back; its contents are pinned by the log or equal
    to the disk's. *)
Lemma give_back (s t : kernel) (hs : list (nat * Z)) (i : nat) (b : Z) :
  cached s ((i, b) :: hs) -> dirty s b \/ view s b = durable s b -> solo t -> k_disk t = k_disk s ->
  k_bufs t = <[i := (bufof s i) <| blk := sleeplock0 |> <| brefcnt := 0 |> ]> (k_bufs s) ->
  cached t hs /\ same_view s t.
Proof.
  intros Hc Hd Ht HD HE. destruct (held_buf s _ i b Hc ltac:(left)) as (Hi & Hh & V & Vw & R & L & Hb).
  destruct (ca_hs _ _ Hc) as [Hn1 Hn2]. cbn in Hn1. apply NoDup_cons in Hn1 as [Hn0 Hn1].
  pose proof (cached_in _ _ _ Hc Hi) as Hlen. pose proof (ca_bufs _ _ Hc i Hi) as [B1 B2 B3 B4].
  set (nb := (bufof s i) <| blk := sleeplock0 |> <| brefcnt := 0 |>) in *.
  assert (Hdur : forall c, durable t c = durable s c) by (intros c; unfold durable, disk_block; rewrite HD; reflexivity).
  assert (Bt : forall j, bufof t j = if decide (j = i) then nb else bufof s j)
    by (intros j; apply (bufof_insert s t i j nb HE Hlen)).
  assert (Ht' : cached t hs).
  { apply (cached_put s t ((i, b) :: hs) hs i nb); try assumption; try reflexivity.
    - split; [exact B1|exact B2| |].
      + intros n Hx. destruct Hn0. apply list_elem_of_fmap. exists (i, n). auto.
      + intros _. split_and!; [reflexivity..|]. intros Hf. cbn in *. rewrite Hdur.
        destruct Hh as (_ & Hh1 & Hh2). rewrite Hh2, <- Vw. destruct Hd as [ (j & Hj & D) | E ]; [|exact E].
        rewrite (ca_uniq _ _ Hc j i b Hj ltac:(split_and!; assumption)), (is_dirty_flags _ B1), Hf in D. discriminate D.
    - intros j Hj Hji. apply (buf_ok_other s t ((i, b) :: hs) hs b); [apply (ca_bufs _ _ Hc j Hj)|exact Hj| |intros; apply Hdur|].
      + intros Hj'. apply Hji. exact (ca_uniq _ _ Hc j i b Hj' Hh).
      + intros n. rewrite elem_of_cons. split; [auto|]. intros [ [= -> ->] | H ]; [congruence|exact H].
    - intros j _ Hj. cbn in Hj. destruct Hh as (H1 & H2 & H3). rewrite H3 in Hj.
      apply (ca_uniq _ _ Hc j i b Hj). split_and!; assumption.
    - intros j n Hx. apply (Hn2 j n). right. exact Hx. }
  assert (Hhh : forall c j, holds t c j <-> holds s c j).
  { intros c j. rewrite (holds_insert s t _ i j nb c Hc Hi HE). case_decide as D; [subst j|reflexivity].
    unfold holds. cbn. tauto. }
  split; [exact Ht'|]. intros c. split_and!; [|apply Hdur|].
  - apply (view_same s t _ hs c Hc Ht'); [apply Hdur|apply Hhh|]. intros j _. rewrite Bt. case_decide; subst; auto.
  - unfold dirty. split; intros (j & Hj & D); exists j; (split; [apply Hhh, Hj|]); rewrite Bt in *;
      (case_decide; [subst j|]); exact D.
Qed.

Lemma brelse_run (s : kernel) (hs : list (nat * Z)) (i : nat) (b : Z) :
  cached s ((i, b) :: hs) -> dirty s b \/ view s b = durable s b ->
  exists t, brelse i s = Done tt t /\ cached t hs /\ same_view s t /\ kept s t /\ k_disk t = k_disk s.
Proof.
  intros Hc Hd. destruct (held_buf s _ i b Hc ltac:(left)) as (Hi & Hh & V & Vw & R & L & Hb).
  pose proof (cached_in _ _ _ Hc Hi) as Hlen. pose proof (so_held _ (ca_solo _ _ Hc)) as Hhd.
  destruct (so_cur _ (ca_solo _ _ Hc)) as (p & Hcp & pr & Hp).
  set (nb := (bufof s i) <| blk := sleeplock0 |> <| brefcnt := 0 |>).
  set (s2 := s <| k_bufs := <[i := nb]> (k_bufs s) |> <| k_procs ::= map (wake (Some (CSleep (SBuf i)))) |>).
  destruct (give_back s s2 hs i b Hc Hd) as [Hc2 Hv2]; [|reflexivity..|].
  { destruct (ca_solo _ _ Hc) as [H1 H2 H3 H4 H5]. split; try assumption. exists p. cbn. split; [exact Hcp|].
    rewrite list_lookup_fmap, Hp. cbn. eauto. }
  set (s3 := s2 <| k_held := [bcache_lock] |>).
  destruct (ca_ring _ _ Hc2) as (l & Hch & Hnd & Hl). pose proof (ca_len _ _ Hc2) as Hlen2.
  destruct (move_front_run s3 l i) as (t & nx & pv & l' & E & [R1 R2 R3 R4 R5] & Hch' & Hnd' & Hl'); try assumption.
  { apply Hl, Hi. } { intros x Hx. apply Hl in Hx. unfold HEAD. cbn in *. rewrite Hlen2. lia. }
  { cbn in *. rewrite Hlen2. unfold HEAD. lia. }
  assert (E2 : bufof s2 i = nb).
  { rewrite (bufof_insert s s2 i i nb), decide_True; [reflexivity|reflexivity|reflexivity|exact Hlen]. }
  exists (t <| k_held := [] |>).
  assert (Ht : solo (t <| k_held := [] |>)).
  { rewrite R1. destruct (ca_solo _ _ Hc2) as [H1 H2 H3 H4 H5]. split; try assumption. reflexivity. }
  assert (Dt : k_disk t = k_disk s) by (rewrite R1; reflexivity).
  destruct (cached_links s2 (t <| k_held := [] |>) hs l') as [Hct Hvt]; try assumption.
  { eapply links_ext; [..|exact Hch']; intros y _; [apply R3|apply R4]. }
  { intros x. rewrite Hl'. apply Hl. }
  split_and!; [|exact Hct|eapply same_view_trans; eassumption|rewrite R1; split_and!; reflexivity|exact Dt].
  unfold brelse.
  rewrite (bind_Done _ _ _ _ _ (holdingsleep_buf i _ s ltac:(rewrite Hhd; set_solver) (bufof_some s i Hlen))).
  rewrite L. cbn [Z.eqb]. rewrite (bind_Done _ _ _ _ _ (releasesleep_buf i s Hhd Hlen)).
  erewrite (bind_Done (acquire _)) by (apply acquire_free; cbn; rewrite Hhd; set_solver).
  rewrite (bind_Done _ _ _ _ _ (upd_buf_run _ _ _)).
  match goal with |- context [(buf_at i ≫= _) ?x] => replace x with s3 end.
  - rewrite (bind_Done _ _ _ _ _ (buf_at_in s3 i ltac:(cbn; rewrite length_insert; exact Hlen))).
    change (bufof s3 i) with (bufof s2 i). rewrite E2. cbn [brefcnt nb upd Z.eqb when].
    change (bnext nb) with (bnext (bufof s i)). change (bprev nb) with (bprev (bufof s i)).
    assert (En : nxt s3 i = bnext (bufof s i) /\ prv s3 i = bprev (bufof s i)).
    { unfold nxt, prv. change (bufof s3 i) with (bufof s2 i). rewrite E2. split; reflexivity. }
    destruct En as [En Ep]. rewrite En, Ep in E. erewrite (bind_Done _ _ _ _ tt); [|exact E].
    apply (release_head bcache_lock []); [rewrite R1; reflexivity|set_solver].
  - assert (Ea : alter (fun b => b <| brefcnt := u32 (brefcnt b - 1) |>) i
      (<[i := (bufof s i) <| blk := sleeplock0 |> ]> (k_bufs s)) = <[i := nb]> (k_bufs s)).
    { rewrite alter_insert. unfold nb. cbn. rewrite R. reflexivity. }
    unfold s3, s2. rewrite <- Ea. replace [bcache_lock] with (bcache_lock :: k_held s) by (rewrite Hhd; reflexivity).
    reflexivity.
Qed.

(** ** Counting *)

Lemma clean_view (s : kernel) (hs : list (nat * Z)) (c : Z) :
  cached s hs -> c ∉ hs.*2 -> ~ dirty s c -> view s c = durable s c.
Proof.
  intros Hc Hn Hd. unfold view. destruct (first_of _ _ _) as [i|] eqn:E; [|reflexivity].
  apply first_of_Some in E as [Hi E]. apply elem_of_seq in Hi.
  rewrite !andb_true_iff, !Z.eqb_eq in E. destruct E as [ [E1 E2] E3 ].
  assert (Hi' : (i < NBUF)%nat) by lia. destruct (ca_bufs _ _ Hc i Hi') as [B1 B2 B3 B4].
  destruct B4 as (_ & _ & D).
  { intros [ [i' n] [-> Hx] ]%list_elem_of_fmap. destruct (B3 n Hx) as (_ & _ & _ & H & _). apply Hn.
    apply list_elem_of_fmap. exists (i', n). cbn in *. split; [congruence|exact Hx]. }
  rewrite <- E2. apply D. rewrite (is_valid_flags _ B1) in E3.
  destruct B1 as [H|[H|H] ]; [rewrite H in E3; discriminate E3|exact H|].
  destruct Hd. exists i. split; [split_and!; assumption|]. unfold is_dirty. rewrite H. reflexivity.
Qed.

(** The buffers that are held or pinned do not fill the cache. *)
Lemma room_count (s : kernel) (hs : list (nat * Z)) (bs : list Z) :
  cached s hs -> (forall c, dirty s c -> c ∈ bs) -> (length hs + length bs < NBUF)%nat -> room s hs.
Proof.
  intros Hc Hd Hlt.
  destruct (find_idx (fun j => bool_decide (j ∉ hs.*1) && negb (is_dirty (bufof s j))) (seq 0 NBUF)) as [k|] eqn:E.
  - apply find_idx_Some in E as [ (j & Hj & E) _ ]. apply lookup_seq in Hj as [-> Hj].
    apply andb_true_iff in E as [E1 E2]. apply bool_decide_eq_true in E1. apply negb_true_iff in E2.
    exists (0 + k)%nat. auto.
  - exfalso. set (f := fun j => if decide (j ∈ hs.*1) then inl j else inr (bblockno (bufof s j)) : nat + Z).
    assert (H : forall j, (j < NBUF)%nat -> j ∉ hs.*1 -> holds s (bblockno (bufof s j)) j /\ is_dirty (bufof s j) = true).
    { intros j Hj Hn. pose proof (proj1 (find_idx_None _ _) E j j) as H. rewrite lookup_seq_lt in H by exact Hj.
      specialize (H eq_refl). rewrite bool_decide_eq_true_2 in H by exact Hn. cbn in H. apply negb_false_iff in H.
      split; [|exact H]. destruct (ca_bufs _ _ Hc j Hj) as [B1 B2 _ _]. rewrite (is_dirty_flags _ B1) in H.
      split_and!; [exact Hj| |reflexivity]. destruct B2 as [ [_ B2] | [B2 _] ]; [rewrite B2 in H; discriminate H|exact B2]. }
    assert (L : (length (f <$> seq 0 NBUF) <= length ((inl <$> hs.*1) ++ (inr <$> bs)))%nat).
    { apply submseteq_length, NoDup_submseteq.
      - apply NoDup_fmap_2_strong; [|apply NoDup_seq]. intros i j Hi Hj. apply elem_of_seq in Hi, Hj. unfold f.
        case_decide as Di; case_decide as Dj; intros Ef; try discriminate Ef; [congruence|]. injection Ef as Ef.
        apply (ca_uniq _ _ Hc i j (bblockno (bufof s i))); [apply H; [lia|exact Di]|]. rewrite Ef. apply H; [lia|exact Dj].
      - intros x (j & -> & Hj)%list_elem_of_fmap. apply elem_of_seq in Hj. unfold f. apply elem_of_app.
        case_decide as Dj; [left|right]; apply list_elem_of_fmap; [eauto|].
        exists (bblockno (bufof s j)). split; [reflexivity|]. apply Hd. destruct (H j ltac:(lia) Dj) as [H1 H2]. exists j. auto. }
    rewrite length_app, !length_fmap, length_seq in L. lia.
Qed.
