(* ===== verification/CacheSpec.v ===== *)
(** * The buffer cache refines the disk (bio.c)

    From the state [binit] leaves, reads and writes through the cache return and
    store what they would on the blocks themselves, whatever the cache holds. *)

From S2P Require Import Prelude Params Bytes Kernel Sleep Ide Bio Log Rely BufSpec BufRing Cache.

(** The buffers as [binit] links them, from the zeroed data segment. *)
Definition binit_bufs : list buf :=
  Eval vm_compute in match binit kernel0 with Done _ t => k_bufs t | _ => [] end.

Lemma binit_run (s : kernel) : k_bufs s = k_bufs kernel0 -> binit s = Done tt (s <| k_bufs := binit_bufs |>).
Proof.
  intros H. assert (E : s = s <| k_bufs := k_bufs kernel0 |>) by (rewrite <- H; reflexivity).
  rewrite E at 1. clear E H. vm_compute. reflexivity.
Qed.

Definition unused (b : buf) : Prop := bflags b = 0 /\ bdev b = 0 /\ brefcnt b = 0 /\ sl_locked (blk b) = 0.

Lemma binit_unused : Forall unused binit_bufs.
Proof. unfold binit_bufs. repeat constructor. Qed.

Lemma binit_cached (s : kernel) : solo s -> k_bufs s = binit_bufs -> cached s [].
Proof.
  intros Hs Hb.
  assert (U : forall i, unused (bufof s i)).
  { intros i. unfold bufof. rewrite Hb. destruct (binit_bufs !! i) as [b|] eqn:E; [|repeat split].
    pose proof binit_unused as HF. rewrite Forall_lookup in HF. exact (HF i b E). }
  split; [exact Hs|rewrite Hb; reflexivity| | | |].
  - exists (reverse (seq 0 NBUF)). split_and!.
    + assert (E : forall i, nxt s i = bnext (default buf0 (binit_bufs !! i)) /\ prv s i = bprev (default buf0 (binit_bufs !! i))).
      { intros i. unfold nxt, prv, bufof. rewrite Hb. auto. }
      eapply links_ext; [intros y _; apply E|intros y _; apply E|]. vm_compute. repeat split.
    + rewrite reverse_Permutation. apply NoDup_seq.
    + intros i. rewrite elem_of_reverse, elem_of_seq. lia.
  - intros i Hi. destruct (U i) as (U1 & U2 & U3 & U4).
    split; [left; exact U1|left; auto|set_solver|intros _; split_and!; [exact U3|exact U4|rewrite U1; discriminate]].
  - intros i j b (_ & H & _). destruct (U i) as (_ & U2 & _). rewrite U2 in H. discriminate H.
  - split; [constructor|set_solver].
Qed.

(** ** Clients *)

Inductive bop := BRead (b : Z) | BWrite (b : Z) (d : list Z).

Definition bop_block (o : bop) : Z := match o with BRead b | BWrite b _ => b end.

(** A read or write as the clients of bio.c do it. *)
Definition bop_run {F : Fuel} (o : bop) : K (list Z) :=
  match o with
  | BRead b => i ← bread ROOTDEV b; d ← data_at i; brelse i;; mret d
  | BWrite b d => i ← bread ROOTDEV b; set_data i d;; bwrite i;; brelse i;; mret d
  end.

Fixpoint bops_run {F : Fuel} (os : list bop) : K (list (list Z)) :=
  match os with
  | [] => mret []
  | o :: os' => r ← bop_run o; rs ← bops_run os'; mret (r :: rs)
  end.

(** The same on the blocks. *)
Definition bop_spec (f : Z -> list Z) (o : bop) : list Z * (Z -> list Z) :=
  match o with
  | BRead b => (f b, f)
  | BWrite b d => (d, fupd f b d)
  end.

Fixpoint bops_spec (f : Z -> list Z) (os : list bop) : list (list Z) * (Z -> list Z) :=
  match os with
  | [] => ([], f)
  | o :: os' => let '(r, f1) := bop_spec f o in let '(rs, f2) := bops_spec f1 os' in (r :: rs, f2)
  end.

(** Nothing is in use and the cache agrees with the disk. *)
Definition synced_with (f : Z -> list Z) (s : kernel) : Prop :=
  cached s [] /\ (forall c, ~ dirty s c) /\ (forall c, durable s c = f c).

Lemma synced_view (f : Z -> list Z) (s : kernel) (c : Z) : synced_with f s -> view s c = f c.
Proof. intros (H1 & H2 & H3). rewrite (clean_view s [] c H1) by (set_solver || apply H2). apply H3. Qed.

(** [binit] leaves the cache empty. *)
Lemma binit_synced (s : kernel) (f : Z -> list Z) :
  solo s -> k_bufs s = binit_bufs -> (forall c, durable s c = f c) -> synced_with f s.
Proof.
  intros Hs Hb Hf. split_and!; [apply binit_cached; assumption| |exact Hf].
  intros c (i & (_ & H & _) & _). pose proof binit_unused as HU. rewrite Forall_lookup in HU.
  unfold bufof in H. rewrite Hb in H. destruct (binit_bufs !! i) as [b|] eqn:E; [|discriminate H].
  destruct (HU i b E) as (_ & U & _). cbn in H. rewrite U in H. discriminate H.
Qed.

Section Refines.
Context {F : Fuel}.
Hypothesis Hfuel : (1 <= fuel_pred)%nat.

Abbreviation runsT := (runs (fun _ : kernel => True) disk_intr).

Lemma bop_refines (f : Z -> list Z) (o : bop) (s : kernel) :
  synced_with f s -> 0 <= bop_block o < FSSIZE ->
  runsT (bop_run o s) (fun r t => r = (bop_spec f o).1 /\ synced_with (bop_spec f o).2 t).
Proof.
  intros Hs Hb. pose proof (fun c => synced_view f s c Hs) as Hv. destruct Hs as (Hc & Hn & Hd).
  assert (Hr : room s []) by (apply (room_count s [] [] Hc); [intros c H; destruct (Hn c H)|cbn; unfold NBUF; lia]).
  destruct o as [b|b d]; cbn [bop_run bop_block bop_spec fst snd] in *;
    (eapply runs_bind, (bread_runs (fun _ => True) Hfuel b s []); [exact Hc|exact Hb|set_solver|left; exact Hr|exact I|]);
    intros i t Ct Vt Kt Dt; assert (Hx : (i, b) ∈ [(i, b)]) by left.
  - eapply runs_done; [apply (data_at_held t _ i b Ct Hx)|]. cbv beta.
    destruct (brelse_run t [] i b Ct) as (u & Eu & Cu & Vu & _).
    { right. rewrite (proj1 (Vt b)), (proj1 (proj2 (Vt b))), Hv. auto. }
    eapply runs_done; [exact Eu|]. cbn. rewrite (proj1 (Vt b)), Hv. split; [reflexivity|].
    pose proof (same_view_trans _ _ _ Vt Vu) as V. split_and!; [exact Cu|intros c H; apply (Hn c), V, H|].
    intros c. rewrite (proj1 (proj2 (V c))). apply Hd.
  - destruct (set_data_held t _ i b d Ct Hx) as (u & Eu & Cu & Du & Ku & Vu & Nu).
    eapply runs_done; [exact Eu|].
    eapply runs_bind, (bwrite_runs (fun _ => True) Hfuel u _ i b); [exact Cu|exact Hx|exact I|].
    intros w Cw Kw Dw Vw Nw.
    assert (Vb : view u b = d) by (rewrite Vu; unfold fupd; rewrite decide_True; reflexivity).
    assert (Dur : forall c, durable w c = fupd f b d c).
    { intros c. unfold durable, disk_block. rewrite Dw, Vb, Du, Dt. unfold fupd. case_decide as E.
      - subst c. rewrite lookup_insert_eq. reflexivity.
      - rewrite lookup_insert_ne by congruence. apply Hd. }
    destruct (brelse_run w [] i b Cw) as (x & Ex & Cx & Vx & _).
    { right. rewrite Vw, Vb, Dur. unfold fupd. rewrite decide_True; reflexivity. }
    eapply runs_done; [exact Ex|]. cbn. split; [reflexivity|]. split_and!; [exact Cx| |].
    + intros c H. apply Vx, Nw in H as [H _]. apply Nu, Vt in H. exact (Hn c H).
    + intros c. rewrite (proj1 (proj2 (Vx c))). apply Dur.
Qed.

Lemma bops_refine (os : list bop) : forall (f : Z -> list Z) (s : kernel),
  synced_with f s -> Forall (fun o => 0 <= bop_block o < FSSIZE) os ->
  runsT (bops_run os s) (fun rs t => rs = (bops_spec f os).1 /\ synced_with (bops_spec f os).2 t).
Proof.
  induction os as [|o os IH]; intros f s Hs HF; cbn [bops_run bops_spec]; [split; [reflexivity|exact Hs]|].
  apply Forall_cons in HF as [Ho HF]. eapply runs_seq; [apply (bop_refines f o s Hs Ho)|].
  intros r t [Hr Ht]. destruct (bop_spec f o) as [r1 f1]. cbn [fst snd] in Hr, Ht.
  eapply runs_seq; [apply (IH f1 t Ht HF)|]. intros rs u [Hrs Hu]. destruct (bops_spec f1 os) as [rs1 f2].
  cbn [fst snd] in Hrs, Hu. cbn. subst. auto.
Qed.
End Refines.

(** C3. The buffer cache behaves as the blocks themselves: after [binit], any
    sequence of reads and writes of blocks through [bread], [bwrite] and [brelse]
    (whichever buffers are recycled, with the process asleep during every transfer
    and resumed after the disk interrupt) returns, without a panic, what the same
    sequence returns on an array of blocks that starts with the contents of the
    disk, and leaves on the disk what it leaves in the array. *)
Theorem buffer_cache_refines_blocks {F : Fuel} (os : list bop) (s : kernel) :
  (1 <= fuel_pred)%nat -> solo s -> k_bufs s = k_bufs kernel0 -> Forall (fun o => 0 <= bop_block o < FSSIZE) os ->
  runs (fun _ => True) disk_intr ((binit;; bops_run os) s) (fun rs t =>
    rs = (bops_spec (durable s) os).1 /\ forall c, durable t c = (bops_spec (durable s) os).2 c).
Proof.
  intros Hfuel Hs Hb HF. eapply runs_done; [apply binit_run, Hb|]. pose (t := s <| k_bufs := binit_bufs |>). fold t.
  assert (Ht : synced_with (durable s) t) by (apply binit_synced; [destruct Hs; split; assumption|reflexivity..]).
  eapply runs_mono; [apply (bops_refine Hfuel os (durable s) t Ht HF)|]. intros rs u (-> & _ & _ & H). auto.
Qed.

(** A process that runs while the disk is idle. *)
Definition ex_solo : kernel := kernel0 <| k_cur := Some 0%nat |> <| k_havedisk1 := true |>.

Lemma buffer_cache_refines_blocks_witness :
  runs (fun _ => True) disk_intr ((binit;; bops_run (F := Build_Fuel 1) [BWrite 5 [7]; BRead 5; BRead 6]) ex_solo)
    (fun rs t => rs = [[7]; [7]; durable ex_solo 6] /\
      forall c, durable t c = (bops_spec (durable ex_solo) [BWrite 5 [7]; BRead 5; BRead 6]).2 c).
Proof.
  apply (buffer_cache_refines_blocks (F := Build_Fuel 1) [BWrite 5 [7]; BRead 5; BRead 6] ex_solo).
  - cbn. lia.
  - split; try reflexivity. exists 0%nat. split; [reflexivity|]. eexists. reflexivity.
  - reflexivity.
  - repeat constructor; cbn; discriminate.
Defined.
