(* ===== verification/LogSpec.v ===== *)
(** * Crash safety of the log (log.c)

    The disk is a function from block numbers to contents.  [recovered] is what
    the file system is after the log has been replayed.  [commit] makes the step
    from the old contents to the new ones at one write: whenever the machine
    stops, the disk recovers to all of the old or all of the new contents; and
    [recover_from_log] computes [recovered], also when it is itself interrupted. *)

From S2P Require Import Prelude Params Bytes Kernel Sleep Ide Bio Log Rely BufSpec BufRing Cache.

(** ** The header block *)

Definition hdr_n (h : list Z) : Z := s32 (get32 h 0).
Definition hdr_b (h : list Z) (i : Z) : Z := s32 (get32 h (4 + 4 * i)).
Definition entries (h : list Z) : list Z := map (fun k => hdr_b h (Z.of_nat k)) (seq 0 (Z.to_nat (hdr_n h))).

(** The block [write_head] writes over [d]. *)
Fixpoint put_entries (d : list Z) (k : Z) (bs : list Z) : list Z :=
  match bs with
  | [] => d
  | b :: bs' => put_entries (put32 d (4 + 4 * k) b) (k + 1) bs'
  end.
Definition header (d : list Z) (bs : list Z) : list Z := put_entries (put32 d 0 (Z.of_nat (length bs))) 0 bs.

Lemma put_entries_before (bs : list Z) : forall d k off,
  length d = 512%nat -> 0 <= k -> 4 + 4 * (k + Z.of_nat (length bs)) <= 512 -> 0 <= off -> off + 4 <= 4 + 4 * k ->
  get32 (put_entries d k bs) off = get32 d off.
Proof.
  induction bs as [|b bs IH]; intros d k off Hd Hk Hb H0 Ho; [reflexivity|]. cbn [put_entries length] in *.
  rewrite IH; [|rewrite length_put32; lia|lia|lia|lia|lia]. apply get_put32_other; lia.
Qed.

Lemma put_entries_get (bs : list Z) : forall d k j b,
  length d = 512%nat -> 0 <= k -> 4 + 4 * (k + Z.of_nat (length bs)) <= 512 -> bs !! j = Some b ->
  get32 (put_entries d k bs) (4 + 4 * (k + Z.of_nat j)) = u32 b.
Proof.
  induction bs as [|b0 bs IH]; intros d k j b Hd Hk Hb Hj; [discriminate|]. cbn [put_entries length] in *.
  destruct j as [|j].
  - injection Hj as ->. rewrite Z.add_0_r, put_entries_before; [|rewrite length_put32; lia|lia|lia|lia|lia].
    apply get_put32_same; lia.
  - replace (k + Z.of_nat (S j)) with (k + 1 + Z.of_nat j) by lia.
    apply IH; [rewrite length_put32; lia|lia|lia|exact Hj].
Qed.

Lemma put_entries_length (bs : list Z) : forall d k,
  length d = 512%nat -> 0 <= k -> 4 + 4 * (k + Z.of_nat (length bs)) <= 512 -> length (put_entries d k bs) = 512%nat.
Proof.
  induction bs as [|b bs IH]; intros d k Hd Hk Hb; [exact Hd|]. cbn [put_entries length] in *.
  apply IH; [rewrite length_put32; lia|lia|lia].
Qed.

Lemma s32_u32 (x : Z) : - 2 ^ 31 <= x < 2 ^ 31 -> s32 (u32 x) = x.
Proof. intros H. unfold s32, u32. Z.div_mod_to_equations. lia. Qed.

Definition block_number (b : Z) : Prop := 0 <= b < FSSIZE.

Lemma hdr_n_header (d bs : list Z) :
  length d = 512%nat -> (length bs <= 100)%nat -> hdr_n (header d bs) = Z.of_nat (length bs).
Proof.
  intros Hd Hb. unfold hdr_n, header. rewrite put_entries_before; [|rewrite length_put32; lia|lia|lia|lia|lia].
  rewrite get_put32_same by lia. apply s32_u32. lia.
Qed.

Lemma entries_header (d bs : list Z) :
  length d = 512%nat -> (length bs <= 100)%nat -> Forall block_number bs -> entries (header d bs) = bs.
Proof.
  intros Hd Hb HF. unfold entries. rewrite hdr_n_header by assumption. rewrite Nat2Z.id.
  apply list_eq. intros j. rewrite list_lookup_fmap. destruct (bs !! j) as [b|] eqn:E.
  - pose proof (lookup_lt_Some _ _ _ E) as Hj. rewrite lookup_seq_lt by exact Hj. cbn. f_equal.
    unfold hdr_b, header. replace (4 + 4 * Z.of_nat j) with (4 + 4 * (0 + Z.of_nat j)) by lia.
    rewrite (put_entries_get bs _ 0 j b); [|rewrite length_put32; lia|lia|lia|exact E].
    rewrite Forall_lookup in HF. specialize (HF j b E). unfold block_number, FSSIZE in HF. apply s32_u32. lia.
  - rewrite lookup_seq_ge by (apply lookup_ge_None; exact E). reflexivity.
Qed.

(** ** Replaying the log *)

Definition index_of (c : Z) (bs : list Z) : option nat := find_idx (fun x => x =? c) bs.

Definition recovered (D : Z -> list Z) (L : Z) (c : Z) : list Z :=
  match index_of c (entries (D L)) with
  | Some k => D (L + 1 + Z.of_nat k)
  | None => D c
  end.

Lemma index_of_lookup (c : Z) (bs : list Z) (k : nat) : NoDup bs -> bs !! k = Some c -> index_of c bs = Some k.
Proof.
  intros Hd Hk. apply find_idx_Some. split.
  - exists c. rewrite Z.eqb_refl. auto.
  - intros j y Hj Hy. apply Z.eqb_neq. intros ->. pose proof (NoDup_lookup _ _ _ _ Hd Hy Hk). lia.
Qed.

Lemma index_of_Some (c : Z) (bs : list Z) (k : nat) : index_of c bs = Some k -> bs !! k = Some c.
Proof. intros H. apply find_idx_Some in H as [ (x & Hx & E) _ ]. apply Z.eqb_eq in E. congruence. Qed.

Lemma index_of_None (c : Z) (bs : list Z) : c ∉ bs -> index_of c bs = None.
Proof.
  intros H. apply find_idx_None. intros i x Hx. apply Z.eqb_neq. intros ->. apply H.
  apply list_elem_of_lookup. eauto.
Qed.

Lemma recovered_ext (D D' : Z -> list Z) (L c : Z) : (forall x, D' x = D x) -> recovered D' L c = recovered D L c.
Proof. intros H. unfold recovered. rewrite H. destruct (index_of _ _); apply H. Qed.

Lemma recovered_empty (D : Z -> list Z) (L c : Z) : hdr_n (D L) = 0 -> recovered D L c = D c.
Proof. intros H. unfold recovered, entries. rewrite H. reflexivity. Qed.

Lemma put_entries_snoc (l : list Z) (b : Z) : forall d k,
  put_entries d k (l ++ [b]) = put32 (put_entries d k l) (4 + 4 * (k + Z.of_nat (length l))) b.
Proof.
  induction l as [|x l IH]; intros d k; cbn [put_entries app length].
  - rewrite Z.add_0_r. reflexivity.
  - rewrite IH. f_equal. lia.
Qed.

(** ** [write_head] *)

(** The disk of a state, and the log's view of its own variables. *)
Definition dk (d : gmap (Z * Z) (list Z)) (b : Z) : list Z := default zero_block (d !! (ROOTDEV, b)).

Lemma durable_dk (s : kernel) (b : Z) : durable s b = dk (k_disk s) b.
Proof. reflexivity. Qed.

Lemma dk_insert (d : gmap (Z * Z) (list Z)) (b c : Z) (x : list Z) :
  dk (<[(ROOTDEV, b) := x]> d) c = fupd (dk d) b x c.
Proof.
  unfold dk, fupd. case_decide as D; [subst c; rewrite lookup_insert_eq; reflexivity|].
  rewrite lookup_insert_ne by congruence. reflexivity.
Qed.

(** The log on disk starts at block [L]; [bs] are the logged blocks. *)
Definition logs (L : Z) (bs : list Z) (l : logst) : Prop :=
  ldev l = ROOTDEV /\ lstart l = L /\ lhn l = Z.of_nat (length bs) /\ length (lhblock l) = Z.to_nat LOGSIZE /\
  take (length bs) (lhblock l) = bs.

Lemma lhblock_at_run (L : Z) (bs : list Z) (s : kernel) (k : nat) (b : Z) :
  logs L bs (k_log s) -> bs !! k = Some b -> lhblock_at (Z.of_nat k) s = Done b s.
Proof.
  intros (_ & _ & _ & _ & H) Hk. unfold lhblock_at. rewrite (bind_Done _ _ _ _ _ (get_run _)). cbv beta.
  rewrite Nat2Z.id. apply deref_run. rewrite <- H in Hk. rewrite lookup_take_Some in Hk. apply Hk.
Qed.

Lemma logs_length (L : Z) (bs : list Z) (l : logst) : logs L bs l -> (length bs <= 30)%nat.
Proof.
  intros (_ & _ & _ & H1 & H2). rewrite <- H2. rewrite length_take. change (Z.to_nat LOGSIZE) with 30%nat in H1. lia.
Qed.

Section Run.
Context {F : Fuel} (C : gmap (Z * Z) (list Z) -> Prop).
Hypothesis Hfuel : (1 <= fuel_pred)%nat.

Abbreviation runsC := (runs (fun s => C (k_disk s)) disk_intr).

Lemma write_head_runs (L : Z) (bs : list Z) (s : kernel) (Q : unit -> kernel -> Prop) :
  cached s [] -> logs L bs (k_log s) -> block_number L -> room s [] -> view s L = durable s L ->
  length (durable s L) = 512%nat -> ~ dirty s L ->
  C (k_disk s) -> C (<[(ROOTDEV, L) := header (durable s L) bs]> (k_disk s)) ->
  (forall t, cached t [] -> kept s t -> (forall c, durable t c = fupd (durable s) L (header (durable s L) bs) c) ->
     (forall c, view t c = fupd (view s) L (header (durable s L) bs) c) ->
     (forall c, dirty t c <-> dirty s c) -> Q tt t) ->
  runsC (write_head s) Q.
Proof.
  intros Hc Hl HL Hr Hv Hlen Hnd HC HC' HQ. pose proof (logs_length _ _ _ Hl) as Hb. pose proof Hl as (L1 & L2 & L3 & L4 & L5).
  set (h := durable s L) in *. set (h0 := put32 h 0 (Z.of_nat (length bs))).
  assert (Hh0 : length h0 = 512%nat) by (unfold h0; rewrite length_put32; lia).
  unfold write_head. eapply runs_done; [apply gets_run|]. cbv beta. rewrite L1, L2.
  eapply runs_bind, (bread_runs C Hfuel L s []); [exact Hc|exact HL|set_solver|left; exact Hr|exact HC|].
  intros i t Hct Hvt Kt Dt. assert (Hx : (i, L) ∈ [(i, L)]) by left.
  eapply runs_done; [apply (data_at_held t _ i L Hct Hx)|]. cbv beta. rewrite (proj1 (Hvt L)), Hv, L3.
  destruct (set_data_held t _ i L h0 Hct Hx) as (u & Eu & Hcu & Du & Ku & Vu & Nu).
  eapply runs_done; [exact Eu|].
  eapply runs_seq with (P := fun _ w => cached w [(i, L)] /\ kept s w /\ k_disk w = k_disk s /\
    (forall c, view w c = fupd (view s) L (header h bs) c) /\ (forall c, dirty w c <-> dirty s c)).
  - unfold for_logged. eapply (runs_for_lt _ _ (fun k w => 0 <= k /\ cached w [(i, L)] /\ kept s w /\ k_disk w = k_disk s /\
      (forall c, view w c = fupd (view s) L (put_entries h0 0 (take (Z.to_nat k) bs)) c) /\
      (forall c, dirty w c <-> dirty s c)) (Z.of_nat (length bs))).
    + intros k w (_ & _ & (E & _) & _). rewrite E. exact L3.
    + intros k w (Hk & Hcw & Kw & Dw & Vw & Nw) Hlt.
      destruct (lookup_lt_is_Some_2 bs (Z.to_nat k)) as [b Eb]; [lia|].
      eapply runs_done.
      { rewrite <- (Z2Nat.id k) by lia. apply (lhblock_at_run L bs); [destruct Kw as [-> _]; exact Hl|exact Eb]. }
      eapply runs_done; [apply (data_at_held w _ i L Hcw Hx)|]. cbv beta.
      destruct (set_data_held w _ i L (put32 (view w L) (4 + 4 * k) b) Hcw Hx) as (x & Ex & Hcx & Dx & Kx & Vx & Nx).
      eapply runs_return; [exact Ex|]. split_and!; [lia|exact Hcx|exact (kept_trans _ _ _ Kw Kx)|congruence| |].
      * intros c. rewrite Vx. unfold fupd. case_decide as Dc; [subst c|].
        -- replace (Z.to_nat (k + 1)) with (S (Z.to_nat k)) by lia. rewrite (take_S_r _ _ b Eb), put_entries_snoc.
           rewrite Vw. unfold fupd. rewrite decide_True by reflexivity. f_equal.
           rewrite length_take. apply lookup_lt_Some in Eb. lia.
        -- rewrite Vw. unfold fupd. rewrite decide_False by exact Dc. reflexivity.
      * intros c. rewrite Nx. apply Nw.
    + split_and!; [lia|exact Hcu|exact (kept_trans _ _ _ Kt Ku)|congruence| |].
      * intros c. rewrite Vu. unfold fupd. case_decide; [reflexivity|apply Hvt].
      * intros c. rewrite Nu. apply Hvt.
    + lia.
    + change (Z.to_nat LOGSIZE) with 30%nat. lia.
    + intros w (_ & Hcw & Kw & Dw & Vw & Nw). rewrite Nat2Z.id, firstn_all in Vw. split_and!; assumption.
  - intros _ w (Hcw & Kw & Dw & Vw & Nw).
    assert (Ew : view w L = header h bs) by (rewrite Vw; unfold fupd; rewrite decide_True; reflexivity).
    eapply runs_bind, (bwrite_runs C Hfuel w _ i L); [exact Hcw|exact Hx|rewrite Ew, Dw; exact HC'|].
    intros x Hcx Kx Dx Vx Nx.
    assert (Dur : forall c, durable x c = fupd (durable s) L (header h bs) c).
    { intros c. rewrite durable_dk, Dx, dk_insert, Ew, Dw. reflexivity. }
    destruct (brelse_run x [] i L Hcx) as (y & Ey & Hcy & Vy & Ky & Dy).
    { right. rewrite Vx, Ew, Dur. unfold fupd. rewrite decide_True; reflexivity. }
    eapply runs_return; [exact Ey|]. apply HQ; [exact Hcy|exact (kept_trans _ _ _ Kw (kept_trans _ _ _ Kx Ky))|..].
    + intros c. rewrite (proj1 (proj2 (Vy c))). apply Dur.
    + intros c. rewrite (proj1 (Vy c)), Vx. apply Vw.
    + intros c. rewrite (proj2 (proj2 (Vy c))), Nx, Nw. split; [tauto|]. intros H. split; [exact H|]. intros ->.
      exact (Hnd H).
Qed.

(** ** Copying blocks *)

Context (L sz : Z) (bs : list Z).

Definition in_log (c : Z) : Prop := L <= c < L + sz.

(** The place of the log and of the logged blocks. *)
Record layout : Prop := mk_layout {
  ly_log : 0 <= L /\ L + sz <= FSSIZE;
  ly_size : Z.of_nat (length bs) < sz;
  ly_bufs : (length bs < NBUF)%nat;
  ly_dup : NoDup bs;
  ly_data : forall b, b ∈ bs -> block_number b /\ ~ in_log b
}.

Hypothesis HLy : layout.

Lemma slot_in_log (k : nat) : (k < length bs)%nat -> block_number (L + Z.of_nat k + 1) /\ in_log (L + Z.of_nat k + 1).
Proof using HLy. clear Hfuel. destruct HLy as [ [H1 H2] H3 _ _ _ ]. unfold block_number, in_log. lia. Qed.

Lemma number_u32 (b : Z) : block_number b -> u32 b = b.
Proof. clear. unfold block_number, FSSIZE. intros H. apply u32_small. lia. Qed.

(** One turn of [write_log]: the pinned block [b] is copied to its slot. *)
Lemma write_log_turn (s : kernel) (k : nat) (b : Z) (Q : unit -> kernel -> Prop) :
  cached s [] -> logs L bs (k_log s) -> bs !! k = Some b -> (forall c, dirty s c <-> c ∈ bs) -> C (k_disk s) ->
  C (<[(ROOTDEV, L + Z.of_nat k + 1) := view s b]> (k_disk s)) ->
  (forall t, cached t [] -> kept s t -> (forall c, durable t c = fupd (durable s) (L + Z.of_nat k + 1) (view s b) c) ->
     (forall c, ~ in_log c -> view t c = view s c) -> (forall c, dirty t c <-> dirty s c) -> Q tt t) ->
  runsC ((l ← gets (fun s => k_log s); to ← bread (ldev l) (lstart l + Z.of_nat k + 1); b ← lhblock_at (Z.of_nat k);
    from ← bread (ldev l) (u32 b); d ← data_at from; set_data to d;; bwrite to;; brelse from;; brelse to) s) Q.
Proof.
  intros Hc Hl Hk Hd HC HC' HQ. pose proof Hl as (L1 & L2 & _). pose proof (lookup_lt_Some _ _ _ Hk) as Hlt.
  destruct (slot_in_log k Hlt) as [Ha Hal]. set (a := L + Z.of_nat k + 1) in *.
  assert (Hbb : b ∈ bs) by (apply list_elem_of_lookup; eauto). destruct (ly_data HLy b Hbb) as [Hb1 Hb2].
  assert (Hab : a <> b) by congruence.
  eapply runs_done; [apply gets_run|]. cbv beta. rewrite L1, L2. fold a.
  eapply runs_bind, (bread_runs C Hfuel a s []); [exact Hc|exact Ha|set_solver| |exact HC|].
  { left. apply (room_count s [] bs Hc); [intros c; apply Hd|cbn; apply HLy]. }
  intros i1 t1 C1 V1 K1 D1. eapply runs_done; [apply (lhblock_at_run L bs); [destruct K1 as [-> _]; exact Hl|exact Hk]|].
  cbv beta. rewrite (number_u32 b Hb1). eapply runs_bind, (bread_runs C Hfuel b t1 [(i1, a)]); [exact C1|exact Hb1|cbn; set_solver| |rewrite D1; exact HC|].
  { right. assert (Db : dirty t1 b) by (apply V1, Hd, Hbb). destruct Db as (i & Hi & _). eauto. }
  intros i2 t2 C2 V2 K2 D2. pose proof (same_view_trans _ _ _ V1 V2) as V12.
  eapply runs_done; [apply (data_at_held t2 _ i2 b C2); left|]. cbv beta. rewrite (proj1 (V12 b)).
  destruct (set_data_held t2 _ i1 a (view s b) C2 ltac:(set_solver)) as (t3 & E3 & C3 & D3 & K3 & V3 & N3).
  eapply runs_done; [exact E3|].
  assert (Va : view t3 a = view s b) by (rewrite V3; unfold fupd; rewrite decide_True; reflexivity).
  eapply runs_bind, (bwrite_runs C Hfuel t3 _ i1 a); [exact C3|set_solver|rewrite Va, D3, D2, D1; exact HC'|].
  intros t4 C4 K4 D4 V4 N4.
  assert (Dur : forall c, durable t4 c = fupd (durable s) a (view s b) c).
  { intros c. rewrite durable_dk, D4, dk_insert, Va, D3, D2, D1. reflexivity. }
  assert (Nd : forall c, dirty t4 c <-> dirty s c).
  { intros c. rewrite N4, N3, (proj2 (proj2 (V12 c))). split; [tauto|]. intros H. split; [exact H|]. intros ->.
    apply Hd, (ly_data HLy) in H as [_ H]. exact (H Hal). }
  destruct (brelse_run t4 [(i1, a)] i2 b C4) as (t5 & E5 & C5 & V5 & K5 & D5).
  { left. apply Nd, Hd, Hbb. }
  eapply runs_done; [exact E5|].
  destruct (brelse_run t5 [] i1 a C5) as (t6 & E6 & C6 & V6 & K6 & D6).
  { right. rewrite (proj1 (V5 a)), (proj1 (proj2 (V5 a))), V4, Va, Dur. unfold fupd. rewrite decide_True; reflexivity. }
  eapply runs_return; [exact E6|].
  apply HQ; [exact C6|repeat (eapply kept_trans; [eassumption|]); apply kept_refl|..]; intros c.
  - rewrite (proj1 (proj2 (V6 c))), (proj1 (proj2 (V5 c))). apply Dur.
  - intros Hn. rewrite (proj1 (V6 c)), (proj1 (V5 c)), V4, V3. unfold fupd. rewrite decide_False by congruence.
    apply V12.
  - rewrite (proj2 (proj2 (V6 c))), (proj2 (proj2 (V5 c))). apply Nd.
Qed.

(** One turn of [install_trans]: the slot is copied to the block it stands for. *)
Lemma install_turn (s : kernel) (k : nat) (b : Z) (Q : unit -> kernel -> Prop) :
  cached s [] -> logs L bs (k_log s) -> bs !! k = Some b -> (forall c, dirty s c -> c ∈ bs) ->
  dirty s b \/ (forall c, ~ dirty s c) ->
  let a := L + Z.of_nat k + 1 in
  C (k_disk s) -> C (<[(ROOTDEV, b) := durable s a]> (k_disk s)) ->
  (forall t, cached t [] -> kept s t -> (forall c, durable t c = fupd (durable s) b (durable s a) c) ->
     (forall c, view t c = fupd (view s) b (durable s a) c) -> (forall c, dirty t c <-> dirty s c /\ c <> b) -> Q tt t) ->
  runsC ((l ← gets (fun s => k_log s); lbuf ← bread (ldev l) (lstart l + Z.of_nat k + 1); b ← lhblock_at (Z.of_nat k);
    dbuf ← bread (ldev l) (u32 b); d ← data_at lbuf; set_data dbuf d;; bwrite dbuf;; brelse lbuf;; brelse dbuf) s) Q.
Proof.
  intros Hc Hl Hk Hd Hdb a HC HC' HQ. pose proof Hl as (L1 & L2 & _). pose proof (lookup_lt_Some _ _ _ Hk) as Hlt.
  destruct (slot_in_log k Hlt) as [Ha Hal]. fold a in Ha, Hal.
  assert (Hbb : b ∈ bs) by (apply list_elem_of_lookup; eauto). destruct (ly_data HLy b Hbb) as [Hb1 Hb2].
  assert (Hab : a <> b) by congruence.
  assert (Nda : ~ dirty s a) by (intros H; apply Hd, (ly_data HLy) in H as [_ H]; exact (H Hal)).
  pose proof (clean_view s [] a Hc ltac:(set_solver) Nda) as Hva.
  eapply runs_done; [apply gets_run|]. cbv beta. rewrite L1, L2. fold a.
  eapply runs_bind, (bread_runs C Hfuel a s []); [exact Hc|exact Ha|set_solver| |exact HC|].
  { left. apply (room_count s [] bs Hc); [exact Hd|cbn; apply HLy]. }
  intros i1 t1 C1 V1 K1 D1. eapply runs_done; [apply (lhblock_at_run L bs); [destruct K1 as [-> _]; exact Hl|exact Hk]|].
  cbv beta. rewrite (number_u32 b Hb1). eapply runs_bind, (bread_runs C Hfuel b t1 [(i1, a)]); [exact C1|exact Hb1|cbn; set_solver| |rewrite D1; exact HC|].
  { destruct Hdb as [Hdb|Hno].
    - right. assert (Db : dirty t1 b) by (apply V1, Hdb). destruct Db as (i & Hi & _). eauto.
    - left. apply (room_count t1 _ [] C1); [|cbn; unfold NBUF; lia]. intros c H. destruct (Hno c). apply V1, H. }
  intros i2 t2 C2 V2 K2 D2. pose proof (same_view_trans _ _ _ V1 V2) as V12.
  eapply runs_done; [apply (data_at_held t2 _ i1 a C2); set_solver|]. cbv beta. rewrite (proj1 (V12 a)), Hva.
  destruct (set_data_held t2 _ i2 b (durable s a) C2 ltac:(left)) as (t3 & E3 & C3 & D3 & K3 & V3 & N3).
  eapply runs_done; [exact E3|].
  assert (Vb : view t3 b = durable s a) by (rewrite V3; unfold fupd; rewrite decide_True; reflexivity).
  eapply runs_bind, (bwrite_runs C Hfuel t3 _ i2 b); [exact C3|left|rewrite Vb, D3, D2, D1; exact HC'|].
  intros t4 C4 K4 D4 V4 N4.
  assert (Dur : forall c, durable t4 c = fupd (durable s) b (durable s a) c).
  { intros c. rewrite durable_dk, D4, dk_insert, Vb, D3, D2, D1. reflexivity. }
  assert (Vw : forall c, view t4 c = fupd (view s) b (durable s a) c).
  { intros c. rewrite V4, V3. unfold fupd. case_decide; [reflexivity|apply V12]. }
  apply (cached_perm t4 _ [(i1, a); (i2, b)] ltac:(apply Permutation_swap)) in C4.
  destruct (brelse_run t4 [(i2, b)] i1 a C4) as (t5 & E5 & C5 & V5 & K5 & D5).
  { right. rewrite Vw, Dur. unfold fupd. rewrite !decide_False by exact Hab. exact Hva. }
  eapply runs_done; [exact E5|].
  destruct (brelse_run t5 [] i2 b C5) as (t6 & E6 & C6 & V6 & K6 & D6).
  { right. rewrite (proj1 (V5 b)), (proj1 (proj2 (V5 b))), Vw, Dur. unfold fupd. rewrite !decide_True; reflexivity. }
  eapply runs_return; [exact E6|].
  apply HQ; [exact C6|repeat (eapply kept_trans; [eassumption|]); apply kept_refl|..]; intros c.
  - rewrite (proj1 (proj2 (V6 c))), (proj1 (proj2 (V5 c))). apply Dur.
  - rewrite (proj1 (V6 c)), (proj1 (V5 c)). apply Vw.
  - rewrite (proj2 (proj2 (V6 c))), (proj2 (proj2 (V5 c))), N4, N3, (proj2 (proj2 (V12 c))). tauto.
Qed.
End Run.

(** ** The disk at a crash *)

Definition agrees (L sz : Z) (f g : Z -> list Z) : Prop := forall c, ~ in_log L sz c -> f c = g c.

(** A log that can be replayed. *)
Record log_ok (L sz : Z) (D : Z -> list Z) : Prop := mk_log_ok {
  lo_layout : layout L sz (entries (D L));
  lo_count : 0 <= hdr_n (D L);
  lo_block : length (D L) = 512%nat
}.

(** The disk recovers to all of [old] or to all of [new]. *)
Definition atomic (L sz : Z) (old new : Z -> list Z) (d : gmap (Z * Z) (list Z)) : Prop :=
  log_ok L sz (dk d) /\ (agrees L sz (recovered (dk d) L) old \/ agrees L sz (recovered (dk d) L) new).

Lemma layout_nil (L sz : Z) (bs : list Z) : layout L sz bs -> layout L sz [].
Proof. intros [H1 H2 H3 H4 H5]. split; [exact H1|cbn; lia|cbn; unfold NBUF; lia|constructor|intros b Hb; set_solver]. Qed.

Section Atomic.
Context (L sz : Z) (bs : list Z) (old new : Z -> list Z) (d : gmap (Z * Z) (list Z)).
Hypothesis HLy : layout L sz bs.

Lemma log_ok_empty : hdr_n (dk d L) = 0 -> length (dk d L) = 512%nat -> log_ok L sz (dk d).
Proof.
  intros H0 Hb. split; [|lia|exact Hb]. unfold entries. rewrite H0. cbn. apply (layout_nil L sz bs HLy).
Qed.

Lemma atomic_old : hdr_n (dk d L) = 0 -> length (dk d L) = 512%nat -> agrees L sz (dk d) old -> atomic L sz old new d.
Proof.
  intros H0 Hb Ha. split; [apply log_ok_empty; assumption|]. left. intros c Hc. rewrite recovered_empty by exact H0. auto.
Qed.

Lemma atomic_done : hdr_n (dk d L) = 0 -> length (dk d L) = 512%nat -> agrees L sz (dk d) new -> atomic L sz old new d.
Proof.
  intros H0 Hb Ha. split; [apply log_ok_empty; assumption|]. right. intros c Hc. rewrite recovered_empty by exact H0. auto.
Qed.

(** The header names the blocks and the slots hold their new contents. *)
Lemma atomic_new :
  entries (dk d L) = bs -> hdr_n (dk d L) = Z.of_nat (length bs) -> length (dk d L) = 512%nat ->
  (forall k b, bs !! k = Some b -> dk d (L + Z.of_nat k + 1) = new b) ->
  (forall c, ~ in_log L sz c -> c ∉ bs -> dk d c = new c) -> atomic L sz old new d.
Proof.
  intros He Hn Hb Hs Hr. split.
  - split; [rewrite He; exact HLy|lia|exact Hb].
  - right. intros c Hc. unfold recovered. rewrite He. destruct (decide (c ∈ bs)) as [Hin|Hin].
    + apply list_elem_of_lookup in Hin as [k Hk]. rewrite (index_of_lookup c bs k (ly_dup _ _ _ HLy) Hk).
      replace (L + 1 + Z.of_nat k) with (L + Z.of_nat k + 1) by lia. apply Hs, Hk.
    + rewrite (index_of_None c bs Hin). apply Hr; assumption.
Qed.
End Atomic.

(** ** The phases of a commit *)

Section Phases.
Context {F : Fuel} (C : gmap (Z * Z) (list Z) -> Prop) (L sz : Z) (bs : list Z).
Hypothesis Hfuel : (1 <= fuel_pred)%nat.
Hypothesis HLy : layout L sz bs.

Abbreviation runsC := (runs (fun s => C (k_disk s)) disk_intr).

(** All blocks are copied to the log; the disk outside the slots is as it was. *)
Lemma write_log_runs (s : kernel) (Q : unit -> kernel -> Prop) :
  cached s [] -> logs L bs (k_log s) -> (forall c, dirty s c <-> c ∈ bs) ->
  (forall d, (forall c, ~ L < c < L + sz -> dk d c = durable s c) -> C d) ->
  (forall t, cached t [] -> kept s t -> (forall c, ~ L < c < L + sz -> durable t c = durable s c) ->
     (forall k b, bs !! k = Some b -> durable t (L + Z.of_nat k + 1) = view s b) ->
     (forall c, ~ in_log L sz c -> view t c = view s c) -> (forall c, dirty t c <-> c ∈ bs) -> Q tt t) ->
  runsC (write_log s) Q.
Proof.
  intros Hc Hl Hd HC HQ. unfold write_log, for_logged.
  eapply (runs_for_lt _ _ (fun i t => 0 <= i /\ cached t [] /\ kept s t /\
      (forall c, ~ L < c < L + sz -> durable t c = durable s c) /\
      (forall k b, bs !! k = Some b -> Z.of_nat k < i -> durable t (L + Z.of_nat k + 1) = view s b) /\
      (forall c, ~ in_log L sz c -> view t c = view s c) /\ (forall c, dirty t c <-> c ∈ bs)) (Z.of_nat (length bs))).
  - intros i t (_ & _ & (E & _) & _). rewrite E. apply Hl.
  - intros i t (Hi & Hct & Kt & Dt & St & Vt & Nt) Hlt.
    destruct (lookup_lt_is_Some_2 bs (Z.to_nat i)) as [b Eb]; [lia|].
    assert (Hb : b ∈ bs) by (apply list_elem_of_lookup; eauto). destruct (ly_data _ _ _ HLy b Hb) as [_ Hbl].
    rewrite <- (Z2Nat.id i) by lia.
    destruct (slot_in_log L sz bs HLy (Z.to_nat i)) as [_ Hsl]; [lia|]. unfold in_log in Hsl.
    apply (write_log_turn C Hfuel L sz bs HLy t (Z.to_nat i) b); try assumption.
    + destruct Kt as [-> _]. exact Hl.
    + apply HC. exact Dt.
    + apply HC. intros c Hcc. rewrite dk_insert. unfold fupd. rewrite decide_False by lia. apply Dt, Hcc.
    + intros u Hcu Ku Du Vu Nu. rewrite Z2Nat.id in * by lia. rewrite (Vt b Hbl) in Du.
      split_and!; [lia|exact Hcu|exact (kept_trans _ _ _ Kt Ku)| | | |].
      * intros c Hcc. rewrite Du. unfold fupd. rewrite decide_False by lia. apply Dt, Hcc.
      * intros k x Hk Hki. rewrite Du. unfold fupd. case_decide as D.
        -- assert (k = Z.to_nat i) by lia. subst k. congruence.
        -- apply St; [exact Hk|lia].
      * intros c Hcc. rewrite Vu by exact Hcc. apply Vt, Hcc.
      * intros c. rewrite Nu. apply Nt.
  - split_and!; [lia|exact Hc|apply kept_refl|auto|intros; lia|auto|exact Hd].
  - lia.
  - pose proof (ly_bufs _ _ _ HLy). unfold NBUF in *. change (Z.to_nat LOGSIZE) with 30%nat. lia.
  - intros t (_ & Hct & Kt & Dt & St & Vt & Nt). apply HQ; try assumption. intros k b Hk. apply St; [exact Hk|].
    apply lookup_lt_Some in Hk. lia.
Qed.

(** The slots are copied to the blocks they stand for. *)
Lemma install_runs (s : kernel) (new : Z -> list Z) (Q : unit -> kernel -> Prop) :
  cached s [] -> logs L bs (k_log s) -> (forall c, dirty s c <-> c ∈ bs) \/ (forall c, ~ dirty s c) ->
  (forall k b, bs !! k = Some b -> durable s (L + Z.of_nat k + 1) = new b) ->
  (forall d, (forall c, in_log L sz c \/ c ∉ bs -> dk d c = durable s c) -> C d) ->
  (forall t, cached t [] -> kept s t -> (forall c, in_log L sz c \/ c ∉ bs -> durable t c = durable s c) ->
     (forall b, b ∈ bs -> durable t b = new b /\ view t b = new b) ->
     (forall c, c ∉ bs -> view t c = view s c) -> (forall c, ~ dirty t c) -> Q tt t) ->
  runsC (install_trans s) Q.
Proof.
  intros Hc Hl Hd Hs HC HQ. unfold install_trans, for_logged.
  eapply (runs_for_lt _ _ (fun i t => 0 <= i /\ cached t [] /\ kept s t /\
      (forall c, in_log L sz c \/ c ∉ bs -> durable t c = durable s c) /\
      (forall k b, bs !! k = Some b -> Z.of_nat k < i -> durable t b = new b /\ view t b = new b) /\
      (forall c, c ∉ bs -> view t c = view s c) /\
      (forall c, dirty t c <-> dirty s c /\ forall k, bs !! k = Some c -> i <= Z.of_nat k)) (Z.of_nat (length bs))).
  - intros i t (_ & _ & (E & _) & _). rewrite E. apply Hl.
  - intros i t (Hi & Hct & Kt & Dt & St & Vt & Nt) Hlt.
    destruct (lookup_lt_is_Some_2 bs (Z.to_nat i)) as [b Eb]; [lia|].
    assert (Hb : b ∈ bs) by (apply list_elem_of_lookup; eauto). destruct (ly_data _ _ _ HLy b Hb) as [_ Hbl].
    assert (Hu : forall k, bs !! k = Some b -> k = Z.to_nat i).
    { intros k Hk. exact (NoDup_lookup _ _ _ _ (ly_dup _ _ _ HLy) Hk Eb). }
    destruct (slot_in_log L sz bs HLy (Z.to_nat i)) as [_ Hsl]; [lia|].
    assert (Ea : durable t (L + Z.of_nat (Z.to_nat i) + 1) = new b) by (rewrite Dt by (left; exact Hsl); apply Hs, Eb).
    rewrite <- (Z2Nat.id i) by lia.
    apply (install_turn C Hfuel L sz bs HLy t (Z.to_nat i) b); try assumption.
    + destruct Kt as [-> _]. exact Hl.
    + intros c Hdc. apply Nt in Hdc as [Hdc _]. destruct Hd as [Hd|Hd]; [apply Hd, Hdc|destruct (Hd c Hdc)].
    + destruct Hd as [Hd|Hd]; [left|right; intros c Hdc; apply Nt in Hdc as [Hdc _]; exact (Hd c Hdc)].
      apply Nt. split; [apply Hd, Hb|]. intros k Hk. rewrite (Hu k Hk). lia.
    + apply HC. exact Dt.
    + apply HC. intros c Hcc. rewrite dk_insert. unfold fupd. rewrite decide_False by (intros ->; tauto). apply Dt, Hcc.
    + intros u Hcu Ku Du Vu Nu. rewrite Ea in Du, Vu. rewrite Z2Nat.id in * by lia.
      split_and!; [lia|exact Hcu|exact (kept_trans _ _ _ Kt Ku)| | | |].
      * intros c Hcc. rewrite Du. unfold fupd. rewrite decide_False by (intros ->; tauto). apply Dt, Hcc.
      * intros k x Hk Hki. rewrite Du, Vu. unfold fupd. case_decide as D; [subst x; auto|].
        apply (St k); [exact Hk|]. destruct (decide (k = Z.to_nat i)); [subst k; congruence|lia].
      * intros c Hcc. rewrite Vu. unfold fupd. rewrite decide_False by (intros ->; tauto). apply Vt, Hcc.
      * intros c. rewrite Nu, Nt. split.
        -- intros [ [H1 H2] H3 ]. split; [exact H1|]. intros k Hk. specialize (H2 k Hk).
           destruct (decide (k = Z.to_nat i)); [subst k; congruence|lia].
        -- intros [H1 H2]. split_and!; [exact H1|intros k Hk; specialize (H2 k Hk); lia|]. intros ->. specialize (H2 _ Eb). lia.
  - split_and!; [lia|exact Hc|apply kept_refl|auto|intros; lia|auto|].
    intros c. split; [intros H; split; [exact H|intros; lia]|tauto].
  - lia.
  - pose proof (ly_bufs _ _ _ HLy). unfold NBUF in *. change (Z.to_nat LOGSIZE) with 30%nat. lia.
  - intros t (_ & Hct & Kt & Dt & St & Vt & Nt). apply HQ; try assumption.
    + intros b [k Hk]%list_elem_of_lookup. apply (St k b Hk). apply lookup_lt_Some in Hk. lia.
    + intros c [H1 H2]%Nt. destruct Hd as [Hd|Hd]; [|exact (Hd c H1)].
      apply Hd, list_elem_of_lookup in H1 as [k Hk]. specialize (H2 k Hk). apply lookup_lt_Some in Hk. lia.
Qed.
End Phases.

(** ** Commit and recovery *)

Lemma cached_log (s : kernel) (hs : list (nat * Z)) (f : logst -> logst) :
  cached s hs -> cached (s <| k_log ::= f |>) hs.
Proof.
  intros [ [S1 S2 S3 S4 S5] H2 H3 H4 H5 H6 ]. split; [split; assumption|exact H2|exact H3| |exact H5|exact H6].
  intros i Hi. destruct (H4 i Hi) as [B1 B2 B3 B4]. split; assumption.
Qed.

Lemma logs_empty (L : Z) (bs : list Z) (l : logst) : logs L bs l -> logs L [] (l <| lhn := 0 |>).
Proof. intros (H1 & H2 & H3 & H4 & H5). split_and!; try assumption; reflexivity. Qed.

Lemma hdr_n_empty (d : list Z) : length d = 512%nat -> hdr_n (header d []) = 0 /\ length (header d []) = 512%nat.
Proof.
  intros H. split; [rewrite hdr_n_header by (cbn; lia); reflexivity|]. unfold header. cbn [put_entries length].
  rewrite length_put32; [exact H|lia|rewrite H; cbn; lia].
Qed.

Lemma header_length (d bs : list Z) : length d = 512%nat -> (length bs <= 100)%nat -> length (header d bs) = 512%nat.
Proof. intros H Hb. unfold header. apply put_entries_length; [rewrite length_put32; lia|lia|lia]. Qed.

(** The variables of the log that a commit leaves alone. *)
Definition same_ops (l l' : logst) : Prop :=
  outstanding l' = outstanding l /\ committing l' = committing l /\ llsize l' = llsize l.

Section Theorems.
Context {F : Fuel} (L sz : Z) (bs : list Z).
Hypothesis Hfuel : (1 <= fuel_pred)%nat.
Hypothesis HLy : layout L sz bs.

Lemma log_number : block_number L.
Proof using HLy. clear Hfuel. destruct HLy as [ [H1 H2] H3 _ _ _ ]. unfold block_number. lia. Qed.

Lemma L_in_log : in_log L sz L.
Proof using HLy. clear Hfuel. destruct HLy as [ [H1 H2] H3 _ _ _ ]. unfold in_log. lia. Qed.

(** The end of [commit] and of [recover_from_log]: the slots are installed and
    the header is cleared. *)
Lemma finish_runs (s : kernel) (old new : Z -> list Z) (Q : unit -> kernel -> Prop) :
  cached s [] -> logs L bs (k_log s) -> (forall c, dirty s c <-> c ∈ bs) \/ (forall c, ~ dirty s c) ->
  entries (durable s L) = bs -> hdr_n (durable s L) = Z.of_nat (length bs) -> length (durable s L) = 512%nat ->
  (forall k b, bs !! k = Some b -> durable s (L + Z.of_nat k + 1) = new b) ->
  (forall c, ~ in_log L sz c -> c ∉ bs -> durable s c = new c /\ view s c = new c) ->
  (forall t, cached t [] -> logs L [] (k_log t) -> same_ops (k_log s) (k_log t) -> (forall c, ~ dirty t c) ->
     agrees L sz (durable t) new -> agrees L sz (view t) new -> hdr_n (durable t L) = 0 -> length (durable t L) = 512%nat -> Q tt t) ->
  runs (fun t => atomic L sz old new (k_disk t)) disk_intr
    ((install_trans;; upd_log (fun l => l <| lhn := 0 |>);; write_head) s) Q.
Proof.
  intros Hc Hl Hd He Hn Hb Hs Hr HQ.
  assert (Hat : forall d, (forall c, in_log L sz c \/ c ∉ bs -> dk d c = durable s c) -> atomic L sz old new d).
  { intros d H. assert (EL : dk d L = durable s L) by (apply H; left; apply L_in_log).
    apply (atomic_new L sz bs old new d HLy); rewrite ?EL; try assumption.
    - intros k b Hk. rewrite H; [apply Hs, Hk|]. left.
      apply (slot_in_log L sz bs HLy). apply lookup_lt_Some in Hk. exact Hk.
    - intros c Hcl Hcb. rewrite H by (right; exact Hcb). apply Hr; assumption. }
  eapply runs_bind, (install_runs _ L sz bs Hfuel HLy s new); try assumption.
  intros t Hct Kt Dt St Vt Nt.
  eapply runs_done; [unfold upd_log; apply modify_run|].
  set (u := t <| k_log ::= fun l => l <| lhn := 0 |> |>).
  assert (Hcu : cached u []) by (apply cached_log, Hct).
  assert (Hlu : logs L [] (k_log u)) by (apply (logs_empty L bs); cbn; rewrite (proj1 Kt); exact Hl).
  assert (EL : durable u L = durable s L) by (apply Dt; left; apply L_in_log).
  assert (Nu : ~ dirty u L) by exact (Nt L).
  destruct (hdr_n_empty (durable u L)) as [H0 H1]; [congruence|].
  assert (Hag : agrees L sz (durable u) new).
  { intros c Hcl. destruct (decide (c ∈ bs)) as [Hin|Hin]; [apply St, Hin|].
    change (durable u c) with (durable t c). rewrite Dt by (right; exact Hin). apply Hr; assumption. }
  apply (write_head_runs _ Hfuel L [] u); try assumption.
  - apply log_number.
  - apply (room_count u [] [] Hcu); [|cbn; unfold NBUF; lia]. intros c Hdc. destruct (Nt c Hdc).
  - apply (clean_view u [] L Hcu); [set_solver|exact Nu].
  - congruence.
  - apply Hat. exact Dt.
  - assert (EL' : dk (<[(ROOTDEV, L) := header (durable u L) []]> (k_disk u)) L = header (durable u L) []).
    { rewrite dk_insert. unfold fupd. rewrite decide_True; reflexivity. }
    apply (atomic_done L sz bs old new _ HLy); rewrite ?EL'; [exact H0|exact H1|].
    intros c Hcl. rewrite dk_insert. unfold fupd. rewrite decide_False; [apply Hag, Hcl|]. intros ->. apply Hcl, L_in_log.
  - intros w Hcw Kw Dw Vw Nw.
    assert (EwL : durable w L = header (durable u L) []) by (rewrite Dw; unfold fupd; rewrite decide_True; reflexivity).
    apply HQ; [exact Hcw|rewrite (proj1 Kw); exact Hlu
      |rewrite (proj1 Kw); unfold same_ops, u; cbn; rewrite (proj1 Kt); auto|intros c Hdc; apply Nw in Hdc; exact (Nt c Hdc)| | |congruence|congruence].
    + intros c Hcl. rewrite Dw. unfold fupd. rewrite decide_False; [apply Hag, Hcl|]. intros ->. apply Hcl, L_in_log.
    + intros c Hcl. rewrite Vw. unfold fupd. rewrite decide_False by (intros ->; apply Hcl, L_in_log).
      change (view u c) with (view t c). destruct (decide (c ∈ bs)) as [Hin|Hin]; [apply St, Hin|].
      rewrite Vt by exact Hin. apply Hr; assumption.
Qed.

Lemma commit_runs (s : kernel) :
  cached s [] -> logs L bs (k_log s) -> (forall c, dirty s c <-> c ∈ bs) ->
  hdr_n (durable s L) = 0 -> length (durable s L) = 512%nat ->
  runs (fun t => atomic L sz (durable s) (view s) (k_disk t)) disk_intr (commit s) (fun _ t =>
    cached t [] /\ logs L [] (k_log t) /\ same_ops (k_log s) (k_log t) /\ (forall c, ~ dirty t c) /\
    agrees L sz (durable t) (view s) /\ agrees L sz (view t) (view s) /\ hdr_n (durable t L) = 0 /\ length (durable t L) = 512%nat).
Proof.
  intros Hc Hl Hd H0 Hb. pose proof (logs_length _ _ _ Hl) as Hle.
  assert (Hcl : forall c, c ∉ bs -> view s c = durable s c).
  { intros c Hn. apply (clean_view s [] c Hc); [set_solver|]. rewrite Hd. exact Hn. }
  assert (HLn : L ∉ bs) by (intros H; apply (ly_data _ _ _ HLy) in H as [_ H]; apply H, L_in_log).
  assert (Hold : forall d, (forall c, ~ L < c < L + sz -> dk d c = durable s c) -> atomic L sz (durable s) (view s) d).
  { intros d H. assert (EL : dk d L = durable s L) by (apply H; lia).
    apply (atomic_old L sz bs); rewrite ?EL; try assumption. intros c Hcc. apply H. unfold in_log in Hcc. lia. }
  assert (HFb : Forall block_number bs) by (apply Forall_forall; intros b Hbb; apply (ly_data _ _ _ HLy), Hbb).
  unfold commit. eapply runs_done; [apply gets_run|]. cbv beta. destruct (lhn (k_log s) >? 0) eqn:E; cbn [when].
  2:{ assert (bs = []) as ->.
      { destruct Hl as (_ & _ & L3 & _). rewrite L3 in E. destruct bs; [reflexivity|discriminate E]. }
      cbn. split_and!; try assumption; [split_and!; reflexivity|intros c Hdc; apply Hd in Hdc; set_solver| |intros c _; reflexivity].
      intros c _. symmetry. apply Hcl. set_solver. }
  eapply runs_bind, (write_log_runs _ L sz bs Hfuel HLy s); try assumption.
  intros t Hct Kt Dt St Vt Nt.
  assert (EL : durable t L = durable s L) by (apply Dt; lia).
  assert (Nl : ~ dirty t L) by (rewrite Nt; exact HLn).
  assert (EL' : forall h, dk (<[(ROOTDEV, L) := h]> (k_disk t)) L = h).
  { intros h. rewrite dk_insert. unfold fupd. rewrite decide_True; reflexivity. }
  assert (Hout : forall c, ~ in_log L sz c -> c ∉ bs -> durable t c = view s c).
  { intros c Hcc Hcb. rewrite Dt, Hcl; [reflexivity|exact Hcb|]. unfold in_log in Hcc. lia. }
  assert (Hslot : forall k, (k < length bs)%nat -> L + Z.of_nat k + 1 <> L) by (intros; lia).
  eapply runs_bind, (write_head_runs _ Hfuel L bs t); try assumption.
  - rewrite (proj1 Kt). exact Hl.
  - apply log_number.
  - apply (room_count t [] bs Hct); [intros c; apply Nt|apply HLy].
  - apply (clean_view t [] L Hct); [set_solver|exact Nl].
  - congruence.
  - apply Hold, Dt.
  - apply (atomic_new L sz bs); rewrite ?EL'; [exact HLy|apply entries_header; [congruence|lia|exact HFb]
      |apply hdr_n_header; [congruence|lia]|apply header_length; [congruence|lia]|..].
    + intros k b Hk. rewrite dk_insert. unfold fupd. rewrite decide_False by lia. apply St, Hk.
    + intros c Hcc Hcb. rewrite dk_insert. unfold fupd. rewrite decide_False; [apply Hout; assumption|].
      intros ->. apply Hcc, L_in_log.
  - intros u Hcu Ku Du Vu Nu.
    assert (Eu : durable u L = header (durable t L) bs) by (rewrite Du; unfold fupd; rewrite decide_True; reflexivity).
    apply (finish_runs u (durable s) (view s)); rewrite ?Eu; try assumption.
    + rewrite (proj1 Ku), (proj1 Kt). exact Hl.
    + left. intros c. rewrite Nu. apply Nt.
    + apply entries_header; [congruence|lia|exact HFb].
    + apply hdr_n_header; [congruence|lia].
    + apply header_length; [congruence|lia].
    + intros k b Hk. rewrite Du. unfold fupd. rewrite decide_False by lia. apply St, Hk.
    + intros c Hcc Hcb. rewrite Du, Vu. unfold fupd. rewrite !decide_False by (intros ->; apply Hcc, L_in_log).
      split; [apply Hout; assumption|apply Vt, Hcc].
    + intros w H1 H2 H3 H4 H5 H6 H7 H8. rewrite (proj1 Ku), (proj1 Kt) in H3. split_and!; try assumption; apply H3.
Qed.
End Theorems.

(** ** Recovery *)

Lemma length_entries (h : list Z) : length (entries h) = Z.to_nat (hdr_n h).
Proof. unfold entries. rewrite length_map, length_seq. reflexivity. Qed.

Lemma entries_lookup (h : list Z) (k : nat) :
  (k < Z.to_nat (hdr_n h))%nat -> entries h !! k = Some (hdr_b h (Z.of_nat k)).
Proof. intros H. unfold entries. rewrite list_lookup_fmap, lookup_seq_lt by exact H. reflexivity. Qed.

Section Recovery.
Context {F : Fuel} (C : gmap (Z * Z) (list Z) -> Prop) (L sz : Z).
Hypothesis Hfuel : (1 <= fuel_pred)%nat.

(** The log's variables as [initlog] sets them. *)
Definition opened (l : logst) : Prop :=
  ldev l = ROOTDEV /\ lstart l = L /\ length (lhblock l) = Z.to_nat LOGSIZE.

Lemma read_head_runs (s : kernel) (Q : unit -> kernel -> Prop) :
  cached s [] -> opened (k_log s) -> log_ok L sz (durable s) -> (forall c, ~ dirty s c) -> C (k_disk s) ->
  (forall t, cached t [] -> same_view s t -> logs L (entries (durable s L)) (k_log t) ->
     same_ops (k_log s) (k_log t) -> Q tt t) ->
  runs (fun s => C (k_disk s)) disk_intr (read_head s) Q.
Proof.
  intros Hc (O1 & O2 & O3) [Hly Hn Hb] Hd HC HQ.
  set (h := durable s L) in *. change (Z.to_nat LOGSIZE) with 30%nat in *.
  assert (Hn30 : hdr_n h < 30).
  { pose proof (ly_bufs _ _ _ Hly) as H. rewrite length_entries in H. unfold NBUF in H. lia. }
  unfold read_head. eapply runs_done; [apply gets_run|]. cbv beta. rewrite O1, O2.
  eapply runs_bind, (bread_runs C Hfuel L s []); [exact Hc|apply (log_number L sz _ Hly)|set_solver| |exact HC|].
  { left. apply (room_count s [] [] Hc); [|cbn; unfold NBUF; lia]. intros c Hdc. destruct (Hd c Hdc). }
  intros i t Hct Vt Kt Dt. eapply runs_done; [apply (data_at_held t _ i L Hct); left|]. cbv beta.
  rewrite (proj1 (Vt L)), (clean_view s [] L Hc) by (set_solver || apply Hd). fold h.
  eapply runs_done; [unfold upd_log; apply modify_run|]. fold (hdr_n h).
  set (t1 := t <| k_log ::= fun l => l <| lhn := hdr_n h |> |>).
  eapply runs_seq with (P := fun _ u => cached u [(i, L)] /\ same_view s u /\ k_disk u = k_disk s /\
    logs L (entries h) (k_log u) /\ same_ops (k_log s) (k_log u)).
  - unfold for_logged. eapply (runs_for_lt _ _ (fun k u => 0 <= k /\ cached u [(i, L)] /\ same_view s u /\ k_disk u = k_disk s /\
      opened (k_log u) /\ same_ops (k_log s) (k_log u) /\ lhn (k_log u) = hdr_n h /\
      (forall j, (Z.of_nat j < k) -> lhblock (k_log u) !! j = Some (hdr_b h (Z.of_nat j)))) (hdr_n h)).
    + intros k u (_ & _ & _ & _ & _ & _ & E & _). exact E.
    + intros k u (Hk & Hcu & Vu & Du & (U1 & U2 & U3) & Su & Nu & Bu) Hlt. unfold set_lhblock.
      destruct (Z.leb_spec 0 k); [|lia]. destruct (Z.ltb_spec k LOGSIZE) as [Hk'|Hk']; [|unfold LOGSIZE, MAXOPBLOCKS in Hk'; lia].
      eapply runs_return; [unfold upd_log; apply modify_run|]. change (Z.to_nat LOGSIZE) with 30%nat in U3.
      split_and!; [lia|apply cached_log, Hcu|exact Vu|exact Du|split_and!; cbn; [exact U1|exact U2|]|exact Su|exact Nu|].
      * rewrite length_insert. exact U3.
      * intros j Hj. cbn. destruct (decide (j = Z.to_nat k)) as [->|Hjk].
        -- rewrite list_lookup_insert_eq by lia. rewrite Z2Nat.id by lia. reflexivity.
        -- rewrite list_lookup_insert_ne by congruence. apply Bu. lia.
    + destruct Kt as (K1 & _). split_and!; [lia|apply cached_log, Hct|exact Vt|exact Dt| | |reflexivity|intros; lia];
        unfold opened, same_ops, t1; cbn; rewrite K1; split_and!; assumption || reflexivity.
    + exact Hn.
    + change (Z.to_nat LOGSIZE) with 30%nat. lia.
    + intros u (_ & Hcu & Vu & Du & (U1 & U2 & U3) & Su & Nu & Bu). split_and!; [exact Hcu|exact Vu|exact Du| |exact Su].
      split_and!; [exact U1|exact U2|rewrite length_entries, Z2Nat.id by exact Hn; exact Nu|exact U3|].
      rewrite length_entries. apply list_eq. intros j. destruct (decide (j < Z.to_nat (hdr_n h))%nat) as [Hj|Hj].
      * rewrite lookup_take_lt by exact Hj. rewrite entries_lookup by exact Hj. apply Bu. lia.
      * rewrite lookup_take_ge by lia. symmetry. apply lookup_ge_None. rewrite length_entries. lia.
  - intros _ u (Hcu & Vu & Du & Lu & Su).
    destruct (brelse_run u [] i L Hcu) as (w & Ew & Hcw & Vw & Kw & Dw).
    { right. rewrite (proj1 (Vu L)), (proj1 (proj2 (Vu L))). apply (clean_view s [] L Hc); [set_solver|apply Hd]. }
    eapply runs_return; [exact Ew|]. apply HQ; [exact Hcw|exact (same_view_trans _ _ _ Vu Vw)|..];
      rewrite (proj1 Kw); assumption.
Qed.
End Recovery.

Lemma recover_runs {F : Fuel} (L sz : Z) (s : kernel) :
  (1 <= fuel_pred)%nat -> cached s [] -> opened L (k_log s) -> log_ok L sz (durable s) -> (forall c, ~ dirty s c) ->
  let D := recovered (durable s) L in
  runs (fun t => atomic L sz D D (k_disk t)) disk_intr
    (recover_from_log s) (fun _ t => cached t [] /\ logs L [] (k_log t) /\ same_ops (k_log s) (k_log t) /\ (forall c, ~ dirty t c) /\
      agrees L sz (durable t) D /\ agrees L sz (view t) D /\ hdr_n (durable t L) = 0 /\ length (durable t L) = 512%nat).
Proof.
  intros Hfuel Hc Ho Hok Hd D. pose proof Hok as [Hly Hn Hb].
  assert (H0 : atomic L sz D D (k_disk s)) by (split; [exact Hok|left; intros c _; reflexivity]).
  unfold recover_from_log.
  eapply runs_bind, (read_head_runs (atomic L sz D D) L sz Hfuel s); try assumption.
  intros t Hct Vt Lt (S1 & S2 & S3). assert (EL : durable t L = durable s L) by apply Vt.
  apply (finish_runs L sz (entries (durable s L)) Hfuel Hly t D D); rewrite ?EL; try assumption.
  - right. intros c Hdc. apply (Hd c), Vt, Hdc.
  - reflexivity.
  - rewrite length_entries, Z2Nat.id by exact Hn. reflexivity.
  - intros k b Hk. rewrite (proj1 (proj2 (Vt _))). unfold D, recovered.
    rewrite (index_of_lookup b _ k (ly_dup _ _ _ Hly) Hk). f_equal. lia.
  - intros c Hcl Hcb. rewrite (proj1 (Vt c)), (proj1 (proj2 (Vt c))). unfold D, recovered.
    rewrite (index_of_None c _ Hcb). split; [reflexivity|]. apply (clean_view s [] c Hc); [set_solver|apply Hd].
  - intros u H1 H2 (R1 & R2 & R3) H3 H4 H5 H6 H7. split_and!; try assumption; split_and!; congruence.
Qed.
