(* ===== verification/Transaction.v ===== *)
(** * Transactions

    A system call groups its writes between [begin_op] and [end_op].  Here a
    process runs such a group through the buffer cache and the log, and the
    whole of it reaches the disk or nothing of it does. *)

From S2P Require Import Prelude Params Bytes Kernel Sleep Ide Bio Log Fs Rely BufSpec BufRing Cache CacheSpec LogSpec.

(** ** [log_write] *)

(** The logged blocks after block [b] was written. *)
Definition logged (bs : list Z) (b : Z) : list Z := if decide (b ∈ bs) then bs else bs ++ [b].

Lemma find_idx_elem (b : Z) (bs : list Z) :
  (b ∉ bs /\ find_idx (fun x => x =? b) bs = None) \/
  (exists k, bs !! k = Some b /\ find_idx (fun x => x =? b) bs = Some k).
Proof.
  destruct (find_idx _ bs) as [k|] eqn:E.
  - right. exists k. split; [|reflexivity]. exact (index_of_Some b bs k E).
  - left. split; [|reflexivity]. intros [k Hk]%list_elem_of_lookup.
    pose proof (proj1 (find_idx_None _ _) E k b Hk) as H. cbv beta in H. rewrite Z.eqb_refl in H. discriminate H.
Qed.

(** The header entry is there already (absorption) or added at the end. *)
Lemma set_lhblock_logged (L : Z) (bs : list Z) (b : Z) (s : kernel) :
  logs L bs (k_log s) -> (length bs < 30)%nat ->
  exists t, (set_lhblock (log_slot (k_log s) b) b;;
     when (log_slot (k_log s) b =? lhn (k_log s)) (upd_log (fun l => l <| lhn := lhn l + 1 |>))) s = Done tt t /\
    logs L (logged bs b) (k_log t) /\ t = s <| k_log := k_log t |> /\
    outstanding (k_log t) = outstanding (k_log s) /\ committing (k_log t) = committing (k_log s) /\
    llsize (k_log t) = llsize (k_log s).
Proof.
  intros (L1 & L2 & L3 & L4 & L5) Hlt. change (Z.to_nat LOGSIZE) with 30%nat in L4.
  unfold log_slot. rewrite L3, Nat2Z.id, L5. unfold logged, set_lhblock.
  destruct (find_idx_elem b bs) as [ [Hn ->] | (k & Hk & ->) ].
  - rewrite decide_False by exact Hn. destruct (Z.leb_spec 0 (Z.of_nat (length bs))); [|lia].
    destruct (Z.ltb_spec (Z.of_nat (length bs)) LOGSIZE) as [_|H']; [|unfold LOGSIZE, MAXOPBLOCKS in H'; lia]. cbn [andb].
    eexists. split; [|split_and!].
    + unfold upd_log. rewrite (bind_Done _ _ _ _ _ (modify_run _ _)), Z.eqb_refl. apply when_modify_run.
    + cbn. split_and!; cbn; [exact L1|exact L2|rewrite length_app, L3; cbn; lia|rewrite length_insert; exact L4|].
      rewrite length_app, Nat.add_1_r. rewrite Nat2Z.id.
      rewrite (take_S_r _ _ b) by (apply list_lookup_insert_eq; lia). rewrite take_insert_ge by lia.
      rewrite L5. reflexivity.
    + reflexivity.
    + reflexivity.
    + reflexivity.
    + reflexivity.
  - pose proof (lookup_lt_Some _ _ _ Hk) as Hkl. rewrite decide_True by (apply list_elem_of_lookup; eauto).
    destruct (Z.leb_spec 0 (Z.of_nat k)); [|lia].
    destruct (Z.ltb_spec (Z.of_nat k) LOGSIZE) as [_|H']; [|unfold LOGSIZE, MAXOPBLOCKS in H'; lia]. cbn [andb].
    destruct (Z.eqb_spec (Z.of_nat k) (Z.of_nat (length bs))) as [H'|_]; [lia|].
    eexists. split; [|split_and!].
    + unfold upd_log. rewrite (bind_Done _ _ _ _ _ (modify_run _ _)). reflexivity.
    + cbn. split_and!; cbn; [exact L1|exact L2|exact L3|rewrite length_insert; exact L4|].
      rewrite Nat2Z.id. rewrite take_insert_lt by exact Hkl. rewrite L5. apply list_insert_id. exact Hk.
    + reflexivity.
    + reflexivity.
    + reflexivity.
    + reflexivity.
Qed.

Lemma log_write_run (L : Z) (bs : list Z) (s : kernel) (hs : list (nat * Z)) (i : nat) (b : Z) :
  cached s hs -> (i, b) ∈ hs -> logs L bs (k_log s) -> (length bs < 30)%nat -> Z.of_nat (length bs) < llsize (k_log s) - 1 ->
  1 <= outstanding (k_log s) ->
  exists t, log_write i s = Done tt t /\ cached t hs /\ logs L (logged bs b) (k_log t) /\ k_disk t = k_disk s /\
    (forall c, view t c = view s c) /\ (forall c, dirty t c <-> dirty s c \/ c = b) /\
    outstanding (k_log t) = outstanding (k_log s) /\ committing (k_log t) = committing (k_log s) /\
    llsize (k_log t) = llsize (k_log s).
Proof.
  intros Hc Hx Hl Hlt Hsz Ho. destruct (held_buf s hs i b Hc Hx) as (Hi & Hh & V & Vw & R & K & Hb).
  pose proof (cached_in _ _ _ Hc Hi) as Hlen. pose proof (bo_flags _ _ _ _ (ca_bufs _ _ Hc i Hi)) as Hf.
  pose proof (so_held _ (ca_solo _ _ Hc)) as Hhd. pose proof Hl as (_ & _ & L3 & _).
  set (db := (bufof s i) <| bflags ::= Z.lor B_DIRTY |>).
  assert (Fd : bflags db = 6).
  { unfold db. cbn. rewrite (is_valid_flags _ Hf) in V. destruct Hf as [E|[E|E] ]; rewrite E in *; [discriminate V|reflexivity..]. }
  pose (s1 := s <| k_held := [log_lock] |>).
  destruct (set_lhblock_logged L bs b s1 Hl Hlt) as (u & Eu & Lu & Hu & U1 & U2 & U3).
  set (t := s <| k_log := k_log u |> <| k_bufs := <[i := db]> (k_bufs s) |>).
  destruct (held_put s t hs i b db) as (H1 & H2 & H3 & H4); try assumption; try reflexivity.
  { destruct (ca_solo _ _ Hc) as [S1 S2 S3 S4 S5]. split; assumption. }
  { destruct Hh as (_ & ? & ?). split_and!; auto. }
  { right. exact Fd. }
  exists t. split_and!; [|exact H1|exact Lu|reflexivity| | |exact U1|exact U2|exact U3].
  - unfold log_write. rewrite (bind_Done _ _ _ _ _ (gets_run _ _)). cbv beta. rewrite L3.
    destruct (Z.of_nat (length bs) >=? LOGSIZE) eqn:E1; [apply Z.geb_le in E1; unfold LOGSIZE, MAXOPBLOCKS in E1; lia|].
    destruct (Z.of_nat (length bs) >=? llsize (k_log s) - 1) eqn:E2; [apply Z.geb_le in E2; lia|]. cbn [orb].
    destruct (Z.ltb_spec (outstanding (k_log s)) 1); [lia|].
    rewrite (bind_Done _ _ _ _ _ (acquire_free log_lock s ltac:(rewrite Hhd; set_solver))), Hhd.
    fold s1. rewrite (bind_Done _ _ _ _ _ (buf_at_in s1 i Hlen)).
    rewrite (bind_Done _ _ _ _ _ (gets_run _ _)). cbv beta zeta.
    assert (Eb : bblockno (bufof s1 i) = b) by apply Hh. rewrite Eb.
    apply bind_Done_inv in Eu as ([] & w & Ew & Ew').
    erewrite (bind_Done (set_lhblock _ _)) by exact Ew. erewrite (bind_Done (when _ _)) by exact Ew'.
    rewrite (bind_Done _ _ _ _ _ (upd_buf_run _ _ _)).
    assert (Hhu : k_held u = [log_lock]) by (apply (f_equal k_held) in Hu; exact Hu).
    rewrite (release_head log_lock []); [|exact Hhu|set_solver]. f_equal.
    transitivity (s1 <| k_log := k_log u |>
      <| k_bufs ::= alter (fun b => b <| bflags ::= Z.lor B_DIRTY |>) i |> <| k_held := [] |>); [rewrite <- Hu; reflexivity|].
    unfold t, db. rewrite <- (alter_some (fun b => b <| bflags ::= Z.lor B_DIRTY |>) i _ _ (bufof_some s i Hlen)).
    rewrite <- Hhd. reflexivity.
  - intros c. destruct (decide (c = b)) as [->|D]; [rewrite H2; symmetry; exact Vw|apply H4, D].
  - intros c. destruct (decide (c = b)) as [->|D].
    + rewrite H3. unfold is_dirty. rewrite Fd. tauto.
    + rewrite (proj2 (H4 c D)). tauto.
Qed.

(** ** The calls around a transaction *)

Lemma cached_same (s t : kernel) (hs : list (nat * Z)) :
  cached s hs -> solo t -> k_bufs t = k_bufs s -> k_disk t = k_disk s -> cached t hs /\ same_view s t.
Proof.
  intros Hc Ht Hb Hd. destruct (ca_ring _ _ Hc) as (l & R1 & R2 & R3).
  assert (E : forall i, bufof t i = bufof s i) by (intros i; unfold bufof; rewrite Hb; reflexivity).
  apply (cached_links s t hs l); [exact Hc|exact Ht|exact Hd|congruence|intros k; rewrite E; reflexivity| |exact R2|exact R3].
  revert R1. apply links_ext; intros x _; [|]; unfold nxt, prv; rewrite E; reflexivity.
Qed.

(** No transaction is open and nothing waits to be written. *)
Record idle (L sz : Z) (s : kernel) : Prop := mk_idle {
  id_cached : cached s [];
  id_logs : logs L [] (k_log s);
  id_clean : forall c, ~ dirty s c;
  id_size : llsize (k_log s) = sz;
  id_ops : outstanding (k_log s) = 0 /\ committing (k_log s) = 0;
  id_header : hdr_n (durable s L) = 0 /\ length (durable s L) = 512%nat
}.

(** In a transaction: the blocks [bs] are logged, [f] is what is read. *)
Record in_trans (L sz : Z) (s0 : kernel) (bs : list Z) (f : Z -> list Z) (s : kernel) : Prop := mk_in_trans {
  it_cached : cached s [];
  it_logs : logs L bs (k_log s);
  it_dirty : forall c, dirty s c <-> c ∈ bs;
  it_size : llsize (k_log s) = sz;
  it_ops : outstanding (k_log s) = 1 /\ committing (k_log s) = 0;
  it_disk : k_disk s = k_disk s0;
  it_view : forall c, view s c = f c
}.

Lemma begin_op_run {F : Fuel} (L sz : Z) (s : kernel) :
  idle L sz s -> exists t, begin_op s = Done tt t /\ in_trans L sz s [] (durable s) t.
Proof.
  intros [Hc Hl Hd Hsz [Ho Hcm] _]. pose proof (so_held _ (ca_solo _ _ Hc)) as Hhd.
  set (t := s <| k_log ::= fun l => l <| outstanding := s32 (outstanding l + 1) |> |>). exists t. split.
  - unfold begin_op. rewrite (bind_Done _ _ _ _ _ (acquire_free log_lock s ltac:(rewrite Hhd; set_solver))), Hhd.
    unfold fuel. cbn [while_loop]. apply (bind_Done_trans _ _ _ t t (inr tt)); [|reflexivity].
    rewrite (bind_Done _ _ _ _ _ (gets_run _ _)). cbv beta.
    pose (s1 := s <| k_held := [log_lock] |>). fold s1. destruct Hl as (_ & _ & L3 & _). cbn in L3.
    change (k_log s1) with (k_log s). rewrite Hcm, Ho, L3.
    change (s32 (Z.of_nat 0 + (0 + 1) * MAXOPBLOCKS) >? LOGSIZE) with false. cbn [negb Z.eqb].
    unfold upd_log. rewrite (bind_Done _ _ _ _ _ (modify_run _ _)).
    erewrite (bind_Done (release _)) by (apply (release_head log_lock []); [reflexivity|set_solver]).
    unfold t, s1. rewrite <- Hhd. reflexivity.
  - destruct (cached_same s t [] Hc) as [Ht Hv]; [destruct (ca_solo _ _ Hc); split; assumption|reflexivity..|].
    split; [exact Ht|exact Hl| |exact Hsz|split; [cbn; rewrite Ho; reflexivity|exact Hcm]|reflexivity|].
    + intros c. rewrite (proj2 (proj2 (Hv c))). split; [intros H; destruct (Hd c H)|set_solver].
    + intros c. rewrite (proj1 (Hv c)). apply (clean_view s [] c Hc); [set_solver|apply Hd].
Qed.

(** The typical use of [log_write] that log.c documents. *)
Definition update {F : Fuel} (b : Z) (d : list Z) : K unit :=
  bp ← bread ROOTDEV b; set_data bp d;; log_write bp;; brelse bp.

Lemma update_runs {F : Fuel} (C : gmap (Z * Z) (list Z) -> Prop) (L sz : Z) (s0 : kernel) (bs : list Z) (f : Z -> list Z)
    (b : Z) (d : list Z) (s : kernel) :
  (1 <= fuel_pred)%nat -> in_trans L sz s0 bs f s -> block_number b -> (length bs < 29)%nat ->
  Z.of_nat (length bs) < sz - 1 -> C (k_disk s0) ->
  runs (fun t => C (k_disk t)) disk_intr (update b d s) (fun _ t => in_trans L sz s0 (logged bs b) (fupd f b d) t).
Proof.
  intros Hfuel [Hc Hl Hd Hsz [Ho Hcm] Hk Hv] Hb Hlen Hlt HC. unfold update.
  eapply runs_bind, (bread_runs C Hfuel b s []); [exact Hc|exact Hb|set_solver| |rewrite Hk; exact HC|].
  { left. apply (room_count s [] bs Hc); [intros c; apply Hd|cbn; unfold NBUF; lia]. }
  intros i t Ct Vt Kt Dt. assert (Hx : (i, b) ∈ [(i, b)]) by left.
  destruct (set_data_held t _ i b d Ct Hx) as (u & Eu & Cu & Du & Ku & Vu & Nu).
  eapply runs_done; [exact Eu|]. pose proof (kept_trans _ _ _ Kt Ku) as (El & _).
  destruct (log_write_run L bs u _ i b Cu Hx) as (w & Ew & Cw & Lw & Dw & Vw & Nw & O1 & O2 & O3);
    rewrite ?El; try assumption; [lia|rewrite Hsz; exact Hlt|rewrite Ho; lia|]. rewrite El in O1, O2, O3.
  eapply runs_done; [exact Ew|].
  destruct (brelse_run w [] i b Cw) as (x & Ex & Cx & Vx & (Kx & _) & Dx).
  { left. apply Nw. right. reflexivity. }
  eapply runs_return; [exact Ex|]. split; rewrite ?Kx; [exact Cx|exact Lw| |congruence|split; congruence|congruence|].
  - intros c. rewrite (proj2 (proj2 (Vx c))), Nw, Nu, (proj2 (proj2 (Vt c))), Hd. unfold logged.
    case_decide as Hin; [|rewrite elem_of_app, list_elem_of_singleton; tauto].
    split; [intros [H|H]; [exact H|subst c; exact Hin]|auto].
  - intros c. rewrite (proj1 (Vx c)), Vw, Vu. unfold fupd. case_decide; [reflexivity|]. rewrite (proj1 (Vt c)). apply Hv.
Qed.

(** ** A whole transaction *)

Definition updates {F : Fuel} (us : list (Z * list Z)) : K unit :=
  foldr (fun u k => update u.1 u.2;; k) (mret tt) us.

Definition written (f : Z -> list Z) (us : list (Z * list Z)) : Z -> list Z :=
  foldl (fun f u => fupd f u.1 u.2) f us.

Lemma logged_ok (L sz : Z) (bs : list Z) (b : Z) :
  NoDup bs -> (forall c, c ∈ bs -> block_number c /\ ~ in_log L sz c) -> block_number b -> ~ in_log L sz b ->
  NoDup (logged bs b) /\ (forall c, c ∈ logged bs b -> block_number c /\ ~ in_log L sz c) /\
  (length (logged bs b) <= S (length bs))%nat.
Proof.
  intros Hd Ha Hb Hn. unfold logged. case_decide as E; [split_and!; [exact Hd|exact Ha|lia]|]. split_and!.
  - apply NoDup_app. split_and!; [exact Hd| |apply NoDup_singleton]. set_solver.
  - intros c Hc. apply elem_of_app in Hc as [Hc|Hc]; [apply Ha, Hc|]. apply list_elem_of_singleton in Hc. subst c. auto.
  - rewrite length_app. cbn. lia.
Qed.

Lemma updates_runs {F : Fuel} (C : gmap (Z * Z) (list Z) -> Prop) (L sz : Z) (s0 : kernel) (us : list (Z * list Z)) :
  (1 <= fuel_pred)%nat -> C (k_disk s0) -> Forall (fun u => block_number u.1 /\ ~ in_log L sz u.1) us ->
  forall bs f s, in_trans L sz s0 bs f s -> NoDup bs -> (forall c, c ∈ bs -> block_number c /\ ~ in_log L sz c) ->
  (length bs + length us <= 29)%nat -> Z.of_nat (length bs + length us) < sz ->
  runs (fun t => C (k_disk t)) disk_intr (updates us s) (fun _ t => exists bs',
    in_trans L sz s0 bs' (written f us) t /\ NoDup bs' /\ (forall c, c ∈ bs' -> block_number c /\ ~ in_log L sz c) /\
    (length bs' <= length bs + length us)%nat).
Proof.
  intros Hfuel HC HF. induction HF as [|[b d] us [Hb Hn] HF IH]; intros bs f s Hi Hdup Hin Hl1 Hl2.
  - exists bs. split_and!; [exact Hi|exact Hdup|exact Hin|lia].
  - cbn [length fst snd] in *. unfold updates. cbn [foldr].
    eapply runs_seq; [apply (update_runs C L sz s0 bs f b d s); try assumption; lia|]. intros ? t Ht. cbv beta in Ht.
    destruct (logged_ok L sz bs b Hdup Hin Hb Hn) as (D1 & D2 & D3).
    eapply runs_mono; [apply (IH _ _ t Ht D1 D2); lia|]. intros _ x (bs' & H1 & H2 & H3 & H4).
    exists bs'. split_and!; [exact H1|exact H2|exact H3|lia].
Qed.

Lemma end_op_runs {F : Fuel} (L sz : Z) (s0 : kernel) (bs : list Z) (f : Z -> list Z) (s : kernel) :
  (1 <= fuel_pred)%nat -> in_trans L sz s0 bs f s -> layout L sz bs ->
  hdr_n (durable s0 L) = 0 -> length (durable s0 L) = 512%nat ->
  runs (fun t => atomic L sz (durable s0) f (k_disk t)) disk_intr (end_op s) (fun _ t =>
    idle L sz t /\ agrees L sz (durable t) f).
Proof.
  intros Hfuel [Hc Hl Hd Hsz [Ho Hcm] Hk Hv] HLy H0 Hb. pose proof (so_held _ (ca_solo _ _ Hc)) as Hhd.
  unfold end_op, upd_log.
  eapply runs_done; [apply (acquire_free log_lock s); rewrite Hhd; set_solver|].
  eapply runs_done; [apply modify_run|]. eapply runs_done; [apply gets_run|]. cbv beta zeta. rewrite Hhd.
  set (s1 := s <| k_held := [log_lock] |> <| k_log ::= fun l => l <| outstanding := s32 (outstanding l - 1) |> |>).
  assert (O1 : outstanding (k_log s1) = 0) by (cbn; rewrite Ho; reflexivity).
  assert (C1 : committing (k_log s1) = 0) by exact Hcm. rewrite O1, C1. cbn [negb Z.eqb when].
  eapply runs_done; [apply modify_run|].
  eapply runs_done; [apply (release_head log_lock []); [reflexivity|set_solver]|]. 
  set (s2 := s1 <| k_log ::= fun l => l <| committing := 1 |> |> <| k_held := [] |>).
  destruct (cached_same s s2 [] Hc) as [Hc2 Hv2]; [destruct (ca_solo _ _ Hc); split; assumption || reflexivity|reflexivity..|].
  eapply runs_seq.
  - eapply runs_guard; [|apply (commit_runs L sz bs Hfuel HLy s2); try assumption].
    + intros t [Hok Ha]. split; [exact Hok|]. destruct Ha as [Ha|Ha]; [left|right]; intros c Hcc; rewrite (Ha c Hcc).
      * unfold durable, disk_block. change (k_disk s2) with (k_disk s). rewrite Hk. reflexivity.
      * rewrite (proj1 (Hv2 c)). apply Hv.
    + change (durable s2 L) with (durable s L). rewrite durable_dk, Hk. exact H0.
    + change (durable s2 L) with (durable s L). rewrite durable_dk, Hk. exact Hb.
  - intros [] t (Ct & Lt & (T1 & T2 & T3) & Nt & Dt & Vt & Zt & Bt).
    pose proof (so_held _ (ca_solo _ _ Ct)) as Hht.
    eapply runs_done; [apply (acquire_free log_lock t); rewrite Hht; set_solver|]. rewrite Hht.
    eapply runs_done; [apply modify_run|].
    eapply runs_done; [apply wakeup_run; cbn; set_solver|].
    eapply runs_return; [apply (release_head log_lock []); [reflexivity|set_solver]|].
    match goal with |- idle _ _ ?u /\ _ => set (w := u) end.
    destruct (cached_same t w [] Ct) as [Hcw Hvw]; [|reflexivity..|].
    { destruct (ca_solo _ _ Ct) as [S1 (p & S2 & pr & S3) S4 S5 S6]. split; try assumption || reflexivity.
      exists p. split; [exact S2|]. exists (wake (Some CLog) pr). cbn. rewrite list_lookup_fmap, S3. reflexivity. }
    split.
    + split; [exact Hcw|exact Lt|intros c Hdc; apply (Nt c), Hvw, Hdc|cbn; rewrite T3; exact Hsz
        |split; [cbn; rewrite T1; exact O1|reflexivity]|split; [exact Zt|exact Bt]].
    + intros c Hcc. rewrite (proj1 (proj2 (Hvw c))), (Dt c Hcc), (proj1 (Hv2 c)). apply Hv.
Qed.

Definition transaction {F : Fuel} (us : list (Z * list Z)) : K unit := begin_op;; updates us;; end_op.

(** C1. Transactions are atomic.  A process that writes up to [MAXOPBLOCKS] blocks
    between [begin_op] and [end_op] returns without a panic, and then the disk
    holds all of its writes.  Whenever the machine stops in between, at any of the
    points where the process waits for the disk, the log on the disk can be
    replayed and gives all of the old contents or all of the new ones. *)
Theorem transaction_is_atomic {F : Fuel} (L sz : Z) (us : list (Z * list Z)) (s : kernel) :
  (1 <= fuel_pred)%nat -> idle L sz s -> 0 <= L -> L + sz <= FSSIZE -> MAXOPBLOCKS < sz ->
  (Z.of_nat (length us) <= MAXOPBLOCKS) -> Forall (fun u => block_number u.1 /\ ~ in_log L sz u.1) us ->
  runs (fun t => atomic L sz (durable s) (written (durable s) us) (k_disk t)) disk_intr (transaction us s)
    (fun _ t => idle L sz t /\ agrees L sz (durable t) (written (durable s) us)).
Proof.
  intros Hfuel Hi HL1 HL2 Hsz Hus HF. destruct (begin_op_run L sz s Hi) as (t & Et & Ht). unfold MAXOPBLOCKS in *.
  destruct (id_header _ _ _ Hi) as [H0 Hb]. unfold transaction. eapply runs_done; [exact Et|].
  assert (Ly : forall bs, NoDup bs -> (forall c, c ∈ bs -> block_number c /\ ~ in_log L sz c) -> (length bs <= 10)%nat ->
    layout L sz bs).
  { intros bs D1 D2 D3. split; [auto|lia|unfold NBUF; lia|exact D1|exact D2]. }
  eapply runs_seq.
  - apply (updates_runs (atomic L sz (durable s) (written (durable s) us)) L sz s us Hfuel) with (f := durable s);
      [|exact HF|exact Ht|constructor|set_solver|cbn; lia|cbn; lia].
    apply (atomic_old L sz []); [apply Ly; [constructor|set_solver|cbn; lia]|exact H0|exact Hb|]. intros c _. reflexivity.
  - intros [] u (bs & Hu & D1 & D2 & D3). cbn in D3. apply (end_op_runs L sz s bs); try assumption. apply Ly; [exact D1|exact D2|lia].
Qed.

(** ** Recovery at boot *)

Lemma idle_of (L sz : Z) (l : logst) (t : kernel) :
  cached t [] -> logs L [] (k_log t) -> same_ops l (k_log t) -> (forall c, ~ dirty t c) ->
  hdr_n (durable t L) = 0 -> length (durable t L) = 512%nat ->
  llsize l = sz -> outstanding l = 0 -> committing l = 0 -> idle L sz t.
Proof. intros H1 H2 (S1 & S2 & S3) H3 H4 H5 H6 H7 H8. split; try assumption; [congruence|split; congruence|auto]. Qed.

Lemma readsb_runs {F : Fuel} (C : gmap (Z * Z) (list Z) -> Prop) (f : Z -> list Z) (s : kernel) (Q : superblock -> kernel -> Prop) :
  (1 <= fuel_pred)%nat -> synced_with f s -> C (k_disk s) ->
  (forall t, synced_with f t -> kept s t -> k_disk t = k_disk s -> Q (read_superblock (f 1)) t) ->
  runs (fun t => C (k_disk t)) disk_intr (readsb (BD := bcache_dev) ROOTDEV s) Q.
Proof.
  intros Hfuel Hs HC HQ. pose proof (synced_view f s 1 Hs) as Hv. destruct Hs as (Hc & Hn & Hd). unfold readsb. cbn [bd_read bd_data bd_relse bcache_dev handle].
  eapply runs_bind, (bread_runs C Hfuel 1 s []); [exact Hc|unfold FSSIZE; lia|set_solver| |exact HC|].
  { left. apply (room_count s [] [] Hc); [intros c H; destruct (Hn c H)|cbn; unfold NBUF; lia]. }
  intros i t Ct Vt Kt Dt. eapply runs_done; [apply (data_at_held t _ i 1 Ct); left|]. cbv beta.
  destruct (brelse_run t [] i 1 Ct) as (u & Eu & Cu & Vu & Ku & Du).
  { right. rewrite (proj1 (Vt 1)), (proj1 (proj2 (Vt 1))), Hv. auto. }
  eapply runs_done; [exact Eu|]. rewrite (proj1 (Vt 1)), Hv. pose proof (same_view_trans _ _ _ Vt Vu) as V.
  apply HQ; [split_and!; [exact Cu|intros c H; apply (Hn c), V, H|]|exact (kept_trans _ _ _ Kt Ku)|congruence].
  intros c. rewrite (proj1 (proj2 (V c))). apply Hd.
Qed.

(** C2. A crash loses no transaction and leaves none half done.  When the machine
    starts with a disk that a transaction from [old] to [new] left behind at a
    crash, [binit] and [initlog] return without a panic, the disk then holds
    exactly the old or exactly the new contents, and the log is empty and ready
    for the next transaction.  A second crash during the recovery leaves a disk of
    the same kind. *)
Theorem boot_recovers {F : Fuel} (L sz : Z) (old new : Z -> list Z) (s : kernel) :
  (1 <= fuel_pred)%nat -> solo s -> k_bufs s = k_bufs kernel0 -> k_log s = k_log kernel0 ->
  s32 (sb_logstart (read_superblock (durable s 1))) = L -> s32 (sb_nlog (read_superblock (durable s 1))) = sz ->
  atomic L sz old new (k_disk s) ->
  runs (fun t => atomic L sz old new (k_disk t)) disk_intr ((binit;; initlog (BD := bcache_dev) ROOTDEV) s)
    (fun _ t => idle L sz t /\ (agrees L sz (durable t) old \/ agrees L sz (durable t) new)).
Proof.
  intros Hfuel Hs Hb Hlg HL Hsz Ha. eapply runs_done; [apply binit_run, Hb|]. pose (t := s <| k_bufs := binit_bufs |>). fold t.
  assert (Ht : synced_with (durable s) t) by (apply binit_synced; [destruct Hs; split; assumption|reflexivity|reflexivity]).
  unfold initlog. eapply runs_bind, (readsb_runs (atomic L sz old new) (durable s)); [exact Hfuel|exact Ht|exact Ha|].
  intros u (Cu & Nu & Du) Ku Eu. rewrite HL, Hsz.
  eapply runs_done; [unfold upd_log; apply modify_run|].
  match goal with |- runs _ _ (recover_from_log ?w) _ => set (v := w) end.
  assert (Ev : k_log v = mk_logst L sz 0 0 ROOTDEV 0 (replicate (Z.to_nat LOGSIZE) 0)).
  { unfold v. cbn. rewrite (proj1 Ku). change (k_log t) with (k_log s). rewrite Hlg. reflexivity. }
  destruct Ha as [Hok Ha]. assert (Edk : forall c, durable v c = dk (k_disk s) c) by exact Du.
  assert (Eg : forall g, agrees L sz (recovered (dk (k_disk s)) L) g -> agrees L sz (recovered (durable v) L) g).
  { intros g H c Hc. rewrite <- (H c Hc). apply recovered_ext, Edk. }
  eapply runs_guard; [|eapply runs_mono; [apply (recover_runs L sz v Hfuel)|]].
  - intros x [Hx Hx']. split; [exact Hx|]. destruct Hx' as [Hx'|Hx'], Ha as [Ha|Ha]; [left|right|left|right];
      intros c Hc; rewrite (Hx' c Hc); apply (Eg _ Ha), Hc.
  - apply cached_log, Cu.
  - rewrite Ev. split_and!; reflexivity.
  - destruct Hok as [O1 O2 O3]. split; rewrite Edk; assumption.
  - exact Nu.
  - intros [] w (W1 & W2 & W3 & W4 & W5 & _ & W7 & W8). split.
    + apply (idle_of L sz (k_log v)); try assumption; rewrite Ev; reflexivity.
    + destruct Ha as [Ha|Ha]; [left|right]; intros c Hc; rewrite (W5 c Hc); apply (Eg _ Ha), Hc.
Qed.

(** ** Examples *)

(** A disk with its log in the blocks 2 to 31; the second one holds a committed
    transaction that was not installed. *)
Definition ex_idle : kernel :=
  ex_solo <| k_bufs := binit_bufs |> <| k_log := mk_logst 2 30 0 0 ROOTDEV 0 (replicate (Z.to_nat LOGSIZE) 0) |>.

Definition ex_crash : kernel :=
  ex_solo <| k_disk := <[(1, 1) := put32 (put32 zero_block 12 30) 16 2]> (<[(1, 2) := header zero_block [100]]>
    (<[(1, 3) := put32 zero_block 0 9]> ∅)) |>.

Lemma ex_idle_ok : idle 2 30 ex_idle.
Proof.
  destruct (binit_synced ex_idle (fun _ => zero_block)) as (H1 & H2 & _); [|reflexivity|reflexivity|].
  - split; try reflexivity. exists 0%nat. split; [reflexivity|]. eexists. reflexivity.
  - split; [exact H1|split_and!; reflexivity|exact H2|reflexivity|split; reflexivity|split; reflexivity].
Qed.

Lemma ex_crash_ok : atomic 2 30 (dk (k_disk ex_crash)) (fupd (dk (k_disk ex_crash)) 100 (put32 zero_block 0 9)) (k_disk ex_crash).
Proof.
  assert (E2 : dk (k_disk ex_crash) 2 = header zero_block [100]) by (vm_compute; reflexivity).
  assert (E3 : dk (k_disk ex_crash) 3 = put32 zero_block 0 9) by (vm_compute; reflexivity).
  apply (atomic_new 2 30 [100]); rewrite ?E2; try (vm_compute; reflexivity).
  - split; [cbn; unfold FSSIZE; lia|cbn; lia|cbn; unfold NBUF; lia|apply NoDup_singleton|].
    intros b ->%list_elem_of_singleton. unfold block_number, in_log, FSSIZE. lia.
  - intros [|k] b Hk; [|discriminate Hk]. injection Hk as <-. unfold fupd. rewrite decide_True by reflexivity. exact E3.
  - intros c _ Hc. unfold fupd. rewrite decide_False; [reflexivity|]. intros ->. apply Hc. left.
Qed.

Lemma transaction_is_atomic_witness :
  runs (fun t => atomic 2 30 (durable ex_idle) (written (durable ex_idle) [(100, [1]); (101, [2]); (100, [3])]) (k_disk t))
    disk_intr (transaction (F := Build_Fuel 1) [(100, [1]); (101, [2]); (100, [3])] ex_idle)
    (fun _ t => idle 2 30 t /\ agrees 2 30 (durable t) (written (durable ex_idle) [(100, [1]); (101, [2]); (100, [3])])).
Proof.
  apply (transaction_is_atomic (F := Build_Fuel 1) 2 30).
  - cbn. lia.
  - exact ex_idle_ok.
  - lia.
  - discriminate.
  - reflexivity.
  - discriminate.
  - repeat constructor; cbn; unfold FSSIZE, in_log; lia.
Defined.

Lemma boot_recovers_witness :
  runs (fun t => atomic 2 30 (dk (k_disk ex_crash)) (fupd (dk (k_disk ex_crash)) 100 (put32 zero_block 0 9)) (k_disk t))
    disk_intr ((binit;; initlog (F := Build_Fuel 1) (BD := bcache_dev (F := Build_Fuel 1)) ROOTDEV) ex_crash)
    (fun _ t => idle 2 30 t /\ (agrees 2 30 (durable t) (dk (k_disk ex_crash)) \/
       agrees 2 30 (durable t) (fupd (dk (k_disk ex_crash)) 100 (put32 zero_block 0 9)))).
Proof.
  apply (boot_recovers (F := Build_Fuel 1)).
  - cbn. lia.
  - split; try reflexivity. exists 0%nat. split; [reflexivity|]. eexists. reflexivity.
  - reflexivity.
  - reflexivity.
  - vm_compute. reflexivity.
  - vm_compute. reflexivity.
  - exact ex_crash_ok.
Defined.
