(* ===== verification/User.v ===== *)
(** * User programs

    A user program touches the kernel only through system calls.  [uprog] is a
    program as a tree of the calls it makes; [urun] runs it against a [handler],
    a function that answers the calls from a state of its own.  User strings are
    lists of bytes without the terminator. *)

From S2P Require Import Prelude Params Bytes.

(** The calls of user.h that the programs use, with the type of the answer.
    [SRead] also gives the bytes stored at the buffer. *)
Inductive sysc : Type -> Type :=
| SRead (fd n : Z) : sysc (Z * list Z)
| SWrite (fd : Z) (d : list Z) : sysc Z
| SOpen (path : list Z) (mode : Z) : sysc Z
| SClose (fd : Z) : sysc Z
| SFstat (fd : Z) : sysc (Z * (Z * Z * Z))
| SDup (fd : Z) : sysc Z
| SPipe : sysc (Z * (Z * Z))
| SFork : sysc Z
| SWait : sysc Z
| SExec (path : list Z) (argv : list (list Z)) : sysc Z
| SChdir (path : list Z) : sysc Z
| SMknod (path : list Z) (major minor : Z) : sysc Z
| SMkdir (path : list Z) : sysc Z
| SUnlink (path : list Z) : sysc Z
| SLink (old new : list Z) : sysc Z
| SKill (pid : Z) : sysc Z
| SSleep (n : Z) : sysc Z
| SUptime : sysc Z
| SMyfunction (s : list Z) : sysc Z
| SYield : sysc Z
| SSetCpuShare (share : Z) : sysc Z
| SGetlev : sysc Z
| SExit : sysc Empty_set.

(** A program returns, makes a call, or stops: a loop runs out of its fuel,
    or the program reads an argument that is not there. *)
Inductive uprog (A : Type) : Type :=
| URet (a : A)
| UCall (X : Type) (c : sysc X) (k : X -> uprog A)
| UStop.

#[global] Arguments URet {A} a.
#[global] Arguments UCall {A X} c k.
#[global] Arguments UStop {A}.

Fixpoint ubind {A B : Type} (m : uprog A) (f : A -> uprog B) : uprog B :=
  match m with
  | URet a => f a
  | UCall c k => UCall c (fun x => ubind (k x) f)
  | UStop => UStop
  end.

#[export] Instance uprog_ret : MRet uprog := fun A a => URet a.
#[export] Instance uprog_bind : MBind uprog := fun A B f m => ubind m f.

Definition call {X : Type} (c : sysc X) : uprog X := UCall c URet.

(** [exit] does not return. *)
Definition uexit {A : Type} : uprog A := UCall SExit (fun x => match x with end).

Inductive uout (W A : Type) : Type :=
| UDone (a : A) (w : W)
| UExited (w : W)
| UStuck.

#[global] Arguments UDone {W A} a w.
#[global] Arguments UExited {W A} w.
#[global] Arguments UStuck {W A}.

(** The answer to a call, or the end of the process. *)
Definition handler (W : Type) : Type := forall X : Type, sysc X -> W -> X * W + W.

Fixpoint urun {W A : Type} (h : handler W) (m : uprog A) (w : W) : uout W A :=
  match m with
  | URet a => UDone a w
  | UCall c k => match h _ c w with inl (x, w') => urun h (k x) w' | inr w' => UExited w' end
  | UStop => UStuck
  end.

Lemma urun_bind {W A B : Type} (h : handler W) (m : uprog A) (f : A -> uprog B) (w w' : W) (a : A) :
  urun h m w = UDone a w' -> urun h (m ≫= f) w = urun h (f a) w'.
Proof.
  unfold mbind, uprog_bind. revert w. induction m as [b|X c k IH|]; intros w H; simpl in *; [congruence| |discriminate].
  destruct (h X c w) as [ [x w1] | w1 ]; [apply IH, H|discriminate].
Qed.

Lemma urun_exit {W A B : Type} (h : handler W) (m : uprog A) (f : A -> uprog B) (w w' : W) :
  urun h m w = UExited w' -> urun h (m ≫= f) w = UExited w'.
Proof.
  unfold mbind, uprog_bind. revert w. induction m as [b|X c k IH|]; intros w H; simpl in *; [discriminate| |discriminate].
  destruct (h X c w) as [ [x w1] | w1 ]; [apply IH, H|congruence].
Qed.

(** ** Two open files

    The state of a program that reads one file from the start and writes to
    another: what is left to read and what was written.  A read returns as many
    bytes as are asked for and left, as [readi] does. *)
Record files : Type := mk_files { f_in : list Z; f_out : list Z }.

Definition file_io : handler files := fun X c w =>
  match c in sysc X return X * files + files with
  | SRead _ n => let d := take (Z.to_nat n) (f_in w) in
      inl ((Z.of_nat (length d), d), mk_files (drop (Z.to_nat n) (f_in w)) (f_out w))
  | SWrite _ d => inl (Z.of_nat (length d), mk_files (f_in w) (f_out w ++ d))
  | SExit => inr w
  | SFstat _ => inl ((-1, (0, 0, 0)), w)
  | SPipe => inl ((-1, (0, 0)), w)
  | SOpen _ _ | SClose _ | SDup _ | SFork | SWait | SExec _ _ | SChdir _ | SMknod _ _ _ | SMkdir _ | SUnlink _
  | SLink _ _ | SKill _ | SSleep _ | SUptime | SMyfunction _ | SYield | SSetCpuShare _ | SGetlev => inl (-1, w)
  end.

Lemma run_read {B : Type} (fd n : Z) (f : Z * list Z -> uprog B) (w : files) :
  urun file_io (call (SRead fd n) ≫= f) w =
    urun file_io (f (Z.of_nat (length (take (Z.to_nat n) (f_in w))), take (Z.to_nat n) (f_in w)))
      (mk_files (drop (Z.to_nat n) (f_in w)) (f_out w)).
Proof. reflexivity. Qed.

Lemma run_write {B : Type} (fd : Z) (d : list Z) (f : Z -> uprog B) (w : files) :
  urun file_io (call (SWrite fd d) ≫= f) w = urun file_io (f (Z.of_nat (length d))) (mk_files (f_in w) (f_out w ++ d)).
Proof. reflexivity. Qed.
