(* ===== verification/Ulib.v ===== *)
(** * ulib.c and printf.c: the user library *)

From S2P Require Import Prelude Params Bytes Print User.

(** ** Strings

    A pointer into a string is the list of the bytes from there on; the end of
    the list is the terminator. *)

(** The array [s] after [strcpy(s, t)]. *)
Fixpoint strcpy (s t : list Z) : list Z :=
  match t with
  | [] => 0 :: tail s
  | c :: t' => c :: strcpy (tail s) t'
  end.

Fixpoint strcmp (p q : list Z) : Z :=
  match p, q with
  | x :: p', y :: q' => if x =? y then strcmp p' q' else u8 x - u8 y
  | x :: _, [] => u8 x
  | [], y :: _ => - u8 y
  | [], [] => 0
  end.

Definition ustrlen (s : list Z) : Z := Z.of_nat (length s).

(** The offset of the first [c]. *)
Fixpoint strchr (s : list Z) (c : Z) : option nat :=
  match s with
  | [] => None
  | x :: s' => if x =? c then Some 0%nat else S <$> strchr s' c
  end.

Fixpoint atoi_loop (n : Z) (s : list Z) : Z :=
  match s with
  | c :: s' => if (48 <=? c) && (c <=? 57) then atoi_loop (s32 (n * 10 + c - 48)) s' else n
  | [] => n
  end.

Definition atoi (s : list Z) : Z := atoi_loop 0 s.

(** [memmove] inside one array, from offset [src] to [dst], upwards. *)
Fixpoint umemmove (n dst src : nat) (a : list Z) : list Z :=
  match n with
  | O => a
  | S n' => umemmove n' (S dst) (S src) (<[dst := nth src a 0]> a)
  end.

(** [gets(buf, max)]: the bytes stored before the terminator. *)
Fixpoint ugets_loop (n : nat) : uprog (list Z) :=
  match n with
  | O => mret []
  | S n' =>
      '(cc, d) ← call (SRead 0 1);
      if cc <? 1 then mret []
      else
        let c := nth 0 d 0 in
        if (c =? 10) || (c =? 13) then mret [c]
        else r ← ugets_loop n'; mret (c :: r)
  end.

Definition ugets (max : Z) : uprog (list Z) := ugets_loop (Z.to_nat (max - 1)).

Definition ustat (n : list Z) : uprog (Z * (Z * Z * Z)) :=
  fd ← call (SOpen n 0);
  if fd <? 0 then mret (-1, (0, 0, 0))
  else
    '(r, st) ← call (SFstat fd);
    _ ← call (SClose fd);
    mret (r, st).

(** ** printf *)

Definition putc (fd c : Z) : uprog unit := _ ← call (SWrite fd [u8 c]); mret tt.

Definition udigit (d : Z) : Z := if d <? 10 then 48 + d else 65 + (d - 10).

(** The [do] loop of [printint], least significant digit first. *)
Fixpoint udigits (n : nat) (x base : Z) : list Z :=
  match n with
  | O => []
  | S n' => udigit (x mod base) :: (if x / base =? 0 then [] else udigits n' (x / base) base)
  end.

Fixpoint puts (fd : Z) (cs : list Z) : uprog unit :=
  match cs with [] => mret tt | c :: cs' => putc fd c;; puts fd cs' end.

Definition uprintint (fd xx base : Z) (sgn : bool) : uprog unit :=
  let neg := sgn && (xx <? 0) in
  let x := if neg then u32 (- xx) else u32 xx in
  let buf := udigits 32 x base in
  puts fd (rev (if neg then buf ++ [45] else buf)).

(** The state of [printf] is 0 or, after a [%], [true].  An argument of the wrong
    kind is not modelled; the programs pass the right ones. *)
Fixpoint printf_loop (fd : Z) (fmt : list Z) (state : bool) (args : list carg) : uprog unit :=
  match fmt with
  | [] => mret tt
  | c :: fmt' =>
      if negb state then
        if c =? 37 then printf_loop fd fmt' true args
        else putc fd c;; printf_loop fd fmt' false args
      else if c =? 100 then
        match args with
        | AInt z :: args' => uprintint fd (s32 z) 10 true;; printf_loop fd fmt' false args'
        | _ => UStop
        end
      else if (c =? 120) || (c =? 112) then
        match args with
        | AInt z :: args' => uprintint fd (s32 z) 16 false;; printf_loop fd fmt' false args'
        | _ => UStop
        end
      else if c =? 115 then
        match args with
        | AStr o :: args' => puts fd (default (bytes_of "(null)") o);; printf_loop fd fmt' false args'
        | _ => UStop
        end
      else if c =? 99 then
        match args with
        | AInt z :: args' => putc fd z;; printf_loop fd fmt' false args'
        | _ => UStop
        end
      else if c =? 37 then putc fd c;; printf_loop fd fmt' false args
      else putc fd 37;; putc fd c;; printf_loop fd fmt' false args
  end.

Definition printf (fd : Z) (fmt : list Z) (args : list carg) : uprog unit := printf_loop fd fmt false args.

(** ** Printing and reading numbers *)

Lemma udigits_atoi (n : nat) : forall x rest,
  0 <= x < 2 ^ 31 -> x < 10 ^ Z.of_nat n -> atoi_loop 0 (rev (udigits n x 10) ++ rest) = atoi_loop x rest.
Proof.
  induction n as [|n IH]; intros x rest Hx Hn; [cbn in *; replace x with 0 by lia; reflexivity|].
  assert (Hd : 0 <= x mod 10 < 10) by (apply Z.mod_pos_bound; lia).
  assert (Step : forall k, 0 <= k -> k * 10 + x mod 10 = x ->
    atoi_loop k (udigit (x mod 10) :: rest) = atoi_loop x rest).
  { intros k Hk E. cbn [atoi_loop]. unfold udigit. destruct (Z.ltb_spec (x mod 10) 10); [|lia].
    destruct (Z.leb_spec 48 (48 + x mod 10)); [|lia]. destruct (Z.leb_spec (48 + x mod 10) 57); [|lia]. cbn [andb].
    f_equal. rewrite s32_small; lia. }
  assert (E : x = 10 * (x / 10) + x mod 10) by (apply Z.div_mod; lia).
  cbn [udigits]. destruct (Z.eqb_spec (x / 10) 0) as [Z0|N0].
  - cbn [rev app]. apply Step; lia.
  - cbn [rev]. rewrite <- app_assoc. cbn [app]. rewrite IH.
    + apply Step; lia.
    + split; [apply Z.div_pos; lia|]. lia.
    + rewrite Nat2Z.inj_succ, Z.pow_succ_r in Hn by lia. lia.
Qed.

Lemma length_udigits (n : nat) : forall m x,
  0 <= x < 10 ^ Z.of_nat m -> (1 <= m)%nat -> (length (udigits n x 10) <= m)%nat.
Proof.
  induction n as [|n IH]; intros m x Hx Hm; cbn [udigits length]; [lia|].
  destruct (Z.eqb_spec (x / 10) 0) as [Z0|N0]; [cbn; lia|]. destruct m as [|m]; [lia|].
  rewrite Nat2Z.inj_succ, Z.pow_succ_r in Hx by lia. assert (Hd : 0 <= x mod 10 < 10) by (apply Z.mod_pos_bound; lia).
  assert (E : x = 10 * (x / 10) + x mod 10) by (apply Z.div_mod; lia).
  destruct m as [|m]; [cbn in Hx; lia|]. enough (length (udigits n (x / 10) 10) <= S m)%nat by lia. apply IH; lia.
Qed.

Lemma udigits_byte (n : nat) : forall x, Forall (fun c => 0 <= c < 256) (udigits n x 10).
Proof.
  induction n as [|n IH]; intros x; cbn [udigits]; [constructor|]. constructor.
  - unfold udigit. pose proof (Z.mod_pos_bound x 10 eq_refl). destruct (_ <? _); lia.
  - destruct (_ =? _); [constructor|apply IH].
Qed.

Lemma puts_run (fd : Z) (cs : list Z) (w : files) :
  Forall (fun c => 0 <= c < 256) cs -> urun file_io (puts fd cs) w = UDone tt (mk_files (f_in w) (f_out w ++ cs)).
Proof.
  intros HF. revert w. induction HF as [|c cs Hc HF IH]; intros w; cbn [puts].
  - rewrite app_nil_r. destruct w. reflexivity.
  - change (urun file_io (puts fd cs) (mk_files (f_in w) (f_out w ++ [u8 c])) =
      UDone tt (mk_files (f_in w) (f_out w ++ c :: cs))).
    rewrite IH. cbn. unfold u8. rewrite Z.mod_small by lia. rewrite <- app_assoc. reflexivity.
Qed.

(** A number in decimal. *)
Definition dec (n : Z) : list Z := rev (udigits 32 n 10).

Lemma uprintint_run (fd n : Z) (w : files) :
  0 <= n < 2 ^ 31 -> urun file_io (uprintint fd n 10 true) w = UDone tt (mk_files (f_in w) (f_out w ++ dec n)).
Proof.
  intros Hn. assert (E : n <? 0 = false) by (apply Z.ltb_ge; lia).
  unfold uprintint. rewrite E. cbn [andb]. rewrite u32_small by lia. apply puts_run. apply Forall_rev, udigits_byte.
Qed.

Lemma putc_run (fd c : Z) (w : files) :
  urun file_io (putc fd c) w = UDone tt (mk_files (f_in w) (f_out w ++ [u8 c])).
Proof. reflexivity. Qed.

(** What [printf] prints for a number [atoi] reads back: for a number that
    is not negative, [printint] writes at most ten characters (its buffer has 16),
    and [atoi] of them, whatever follows that is not a digit, is the number. *)
Theorem printint_then_atoi (fd n : Z) (w : files) :
  0 <= n < 2 ^ 31 -> exists ds, urun file_io (uprintint fd n 10 true) w = UDone tt (mk_files (f_in w) (f_out w ++ ds)) /\
    (1 <= length ds <= 10)%nat /\
    forall rest, (forall c rest', rest = c :: rest' -> ~ (48 <= c <= 57)) -> atoi (ds ++ rest) = n.
Proof.
  intros Hn. exists (dec n). split_and!.
  - apply uprintint_run, Hn.
  - unfold dec. rewrite length_rev. cbn [udigits length]. lia.
  - unfold dec. rewrite length_rev. apply length_udigits; cbn; lia.
  - intros rest Hr. unfold atoi, dec. rewrite udigits_atoi by (cbn; lia).
    destruct rest as [|c rest]; [reflexivity|]. cbn [atoi_loop]. specialize (Hr c rest eq_refl).
    destruct (Z.leb_spec 48 c), (Z.leb_spec c 57); cbn [andb]; (reflexivity || lia).
Qed.

Lemma printint_then_atoi_witness :
  exists ds, urun file_io (uprintint 1 1907 10 true) (mk_files [] [62]) = UDone tt (mk_files [] (62 :: ds)) /\
    (1 <= length ds <= 10)%nat /\
    forall rest, (forall c rest', rest = c :: rest' -> ~ (48 <= c <= 57)) -> atoi (ds ++ rest) = 1907.
Proof. apply (printint_then_atoi 1 1907 (mk_files [] [62])). lia. Defined.
