(* ===== verification/Grep.v ===== *)
(** * grep.c: the regular expression matcher and grep

    The matcher of Kernighan and Pike against a declarative meaning of patterns,
    and the loop that reads a file through a buffer of 1024 bytes. *)

From S2P Require Import Prelude Params Bytes CString Print User Ulib.

(** ** The matcher *)

(** [matchstar(c, re, text)], where [mh] is [matchhere(re, _)]. *)
Fixpoint matchstar (c : Z) (mh : list Z -> bool) (text : list Z) : bool :=
  if mh text then true
  else match text with
       | [] => false
       | t :: text' => if (t =? c) || (c =? 46) then matchstar c mh text' else false
       end.

Fixpoint matchhere (re text : list Z) : bool :=
  match re with
  | [] => true
  | c :: re1 =>
      match re1 with
      | 42 :: re2 => matchstar c (matchhere re2) text
      | _ =>
          if (c =? 36) && match re1 with [] => true | _ => false end
          then match text with [] => true | _ => false end
          else match text with
               | [] => false
               | t :: text' => if (c =? 46) || (c =? t) then matchhere re1 text' else false
               end
      end
  end.

(** The loop of [match] over the places of the text. *)
Fixpoint match_at (re text : list Z) : bool :=
  if matchhere re text then true
  else match text with [] => false | _ :: text' => match_at re text' end.

Definition match_re (re text : list Z) : bool :=
  match re with
  | 94 :: re' => matchhere re' text
  | _ => match_at re text
  end.

(** ** Patterns *)

Inductive atom : Type := Any | Lit (c : Z).
Inductive item : Type := One (a : atom) | Star (a : atom).

Definition atom_of (c : Z) : atom := if c =? 46 then Any else Lit c.
Definition accepts (a : atom) (c : Z) : Prop := match a with Any => True | Lit d => c = d end.

(** The items of a pattern, and whether it ends with [$]. *)
Fixpoint items (re : list Z) : list item * bool :=
  match re with
  | [] => ([], false)
  | c :: re1 =>
      match re1 with
      | 42 :: re2 => (Star (atom_of c) :: (items re2).1, (items re2).2)
      | [] => if c =? 36 then ([], true) else ([One (atom_of c)], false)
      | _ => (One (atom_of c) :: (items re1).1, (items re1).2)
      end
  end.

(** The words of a sequence of items. *)
Inductive lang : list item -> list Z -> Prop :=
| lang_nil : lang [] []
| lang_one a l c w : accepts a c -> lang l w -> lang (One a :: l) (c :: w)
| lang_skip a l w : lang l w -> lang (Star a :: l) w
| lang_star a l c w : accepts a c -> lang (Star a :: l) w -> lang (Star a :: l) (c :: w).

(** A pattern occurs in a text: somewhere, or at the start after [^], or up to
    the end before [$]. *)
Definition occurs (re text : list Z) : Prop :=
  let '(start, body) := match re with 94 :: re' => (true, re') | _ => (false, re) end in
  exists before w after, text = before ++ w ++ after /\ lang (items body).1 w /\
    (start = true -> before = []) /\ ((items body).2 = true -> after = []).

(** ** Proof *)

Create HintDb grep.
#[local] Hint Constructors lang : grep.

Definition here (re text : list Z) : Prop :=
  exists w after, text = w ++ after /\ lang (items re).1 w /\ ((items re).2 = true -> after = []).

Lemma accepts_of (c t : Z) : accepts (atom_of c) t <-> (t =? c) || (c =? 46) = true.
Proof.
  unfold atom_of. destruct (Z.eqb_spec c 46); simpl; [rewrite orb_true_r; tauto|].
  rewrite orb_false_r, Z.eqb_eq. tauto.
Qed.

Lemma lang_star_inv (a : atom) (l : list item) (w : list Z) :
  lang (Star a :: l) w -> lang l w \/ exists c w', w = c :: w' /\ accepts a c /\ lang (Star a :: l) w'.
Proof. intros H. inversion H; subst; eauto 10. Qed.

Lemma matchstar_here (c : Z) (re text : list Z) :
  (forall t, matchhere re t = true <-> here re t) ->
  matchstar c (matchhere re) text = true <->
  exists w after, text = w ++ after /\ lang (Star (atom_of c) :: (items re).1) w /\ ((items re).2 = true -> after = []).
Proof.
  intros IH. induction text as [|t text IHt]; cbn [matchstar].
  - destruct (matchhere re []) eqn:E.
    + apply IH in E as (w & after & H1 & H2 & H3). split; [|auto]. intros _. exists w, after. auto with grep.
    + split; [discriminate|]. intros (w & after & H1 & H2 & H3). symmetry in H1. apply app_eq_nil in H1 as [-> ->].
      rewrite <- E. apply IH. exists [], []. apply lang_star_inv in H2 as [H2|(x & w' & H2 & _)]; [auto|discriminate].
  - destruct (matchhere re (t :: text)) eqn:E.
    + apply IH in E as (w & after & H1 & H2 & H3). split; [|auto]. intros _. exists w, after. auto with grep.
    + destruct (_ || _) eqn:A.
      * rewrite IHt. apply accepts_of in A. split; intros (w & after & H1 & H2 & H3).
        -- exists (t :: w), after. subst. auto with grep.
        -- apply lang_star_inv in H2 as [H2|(x & w' & -> & Hx & H2)].
           ++ exfalso. assert (F : matchhere re (t :: text) = true) by (apply IH; exists w, after; auto). congruence.
           ++ injection H1 as -> ->. eauto.
      * split; [discriminate|]. intros (w & after & H1 & H2 & H3).
        apply lang_star_inv in H2 as [H2|(x & w' & -> & Hx & H2)].
        -- assert (F : matchhere re (t :: text) = true) by (apply IH; exists w, after; auto). congruence.
        -- injection H1 as -> ->. apply accepts_of in Hx. congruence.
Qed.

(** The three shapes of a pattern. *)
Lemma pattern_cases (P : list Z -> Prop) :
  P [] -> P [36] -> (forall c re, P re -> P (c :: 42 :: re)) ->
  (forall c re, (forall re', re <> 42 :: re') -> ~ (c = 36 /\ re = []) -> P re -> P (c :: re)) -> forall re, P re.
Proof.
  intros H0 Hd Hs H1 re. induction re as [re IH] using (induction_ltof1 _ (@length Z)). unfold ltof in IH.
  destruct re as [|c re]; [exact H0|]. destruct re as [|x re].
  - destruct (decide (c = 36)) as [->|N]; [exact Hd|]. apply H1; [discriminate|tauto|exact H0].
  - destruct (decide (x = 42)) as [->|N].
    + apply Hs, IH. simpl. lia.
    + apply H1; [congruence|intros [_ ?]; discriminate|]. apply IH. simpl. lia.
Qed.

(** A match on a character code that is not the one tested for. *)
Ltac other_char x := destruct x as [|x|x]; try reflexivity; repeat (destruct x as [x|x|]; try reflexivity); congruence.

Section Char.
Context (c : Z) (re : list Z).
Hypothesis Hs : forall re', re <> 42 :: re'.
Hypothesis Hd : ~ (c = 36 /\ re = []).

Lemma matchhere_char (text : list Z) :
  matchhere (c :: re) text = match text with [] => false | t :: text' => ((t =? c) || (c =? 46)) && matchhere re text' end.
Proof.
  assert (E : matchhere (c :: re) text = match text with
    | [] => false | t :: text' => if (c =? 46) || (c =? t) then matchhere re text' else false end).
  { destruct re as [|x re'].
    - cbn [matchhere]. destruct (Z.eqb_spec c 36) as [->|]; [tauto|]. reflexivity.
    - assert (x <> 42) by (intros ->; eapply Hs; reflexivity). cbn [matchhere]. rewrite andb_false_r.
      clear Hs Hd. other_char x. }
  rewrite E. destruct text as [|t text]; [reflexivity|]. rewrite (Z.eqb_sym c t), orb_comm. destruct (_ || _); reflexivity.
Qed.

Lemma items_char : items (c :: re) = (One (atom_of c) :: (items re).1, (items re).2).
Proof.
  destruct re as [|x re'].
  - cbn [items]. destruct (Z.eqb_spec c 36) as [->|]; [tauto|]. reflexivity.
  - assert (x <> 42) by (intros ->; eapply Hs; reflexivity). cbn [items]. clear Hs Hd. other_char x.
Qed.
End Char.

Lemma matchhere_spec (re : list Z) : forall text, matchhere re text = true <-> here re text.
Proof.
  induction re as [| |c re IH|c re Hs Hd IH] using pattern_cases; intros text; unfold here.
  - split; [|reflexivity]. intros _. exists [], text. repeat split; auto with grep. discriminate.
  - cbn. split.
    + destruct text; [|discriminate]. intros _. exists [], []. auto with grep.
    + intros (w & after & -> & Hl & Ha). inversion Hl; subst. rewrite Ha by reflexivity. reflexivity.
  - change (matchhere (c :: 42 :: re) text) with (matchstar c (matchhere re) text).
    change (items (c :: 42 :: re)) with (Star (atom_of c) :: (items re).1, (items re).2). apply (matchstar_here c re), IH.
  - rewrite (matchhere_char c re Hs Hd), (items_char c re Hs Hd). cbn [fst snd]. split.
    + destruct text as [|t text]; [discriminate|]. intros [A H]%andb_true_iff. apply accepts_of in A.
      apply IH in H as (w & after & -> & Hl & Ha). exists (t :: w), after. auto with grep.
    + intros (w & after & -> & Hl & Ha). inversion Hl as [|a l x w' Hx Hl'| |]; subst. cbn [app].
      apply accepts_of in Hx. rewrite Hx. cbn [andb]. apply IH. exists w', after. auto.
Qed.

Lemma match_at_spec (re text : list Z) :
  match_at re text = true <-> exists before rest, text = before ++ rest /\ here re rest.
Proof.
  induction text as [|t text IH]; cbn [match_at].
  - destruct (matchhere re []) eqn:E.
    + split; [|reflexivity]. intros _. apply matchhere_spec in E. exists [], []. auto.
    + split; [discriminate|]. intros (b & r & H & Hh). symmetry in H. apply app_eq_nil in H as [-> ->].
      apply matchhere_spec in Hh. congruence.
  - destruct (matchhere re (t :: text)) eqn:E.
    + split; [|reflexivity]. intros _. apply matchhere_spec in E. exists [], (t :: text). auto.
    + rewrite IH. split.
      * intros (b & r & -> & Hh). exists (t :: b), r. auto.
      * intros ([|x b] & r & H & Hh); [|injection H as -> ->; eauto].
        cbn in H. subst r. apply matchhere_spec in Hh. congruence.
Qed.

Lemma match_decides (re text : list Z) : match_re re text = true <-> occurs re text.
Proof.
  assert (H : forall re, match_at re text = true <-> exists before w after, text = before ++ w ++ after /\
    lang (items re).1 w /\ (false = true -> before = []) /\ ((items re).2 = true -> after = [])).
  { intros r. rewrite match_at_spec. split.
    - intros (b & rest & -> & w & after & -> & Hl & Ha). exists b, w, after. split_and!; auto. discriminate.
    - intros (b & w & after & -> & Hl & _ & Ha). exists b, (w ++ after). split; [reflexivity|]. exists w, after. auto. }
  assert (D : (exists re', re = 94 :: re') \/ ~ exists re', re = 94 :: re').
  { destruct re as [|x re]; [right; naive_solver|]. destruct (decide (x = 94)) as [->|]; [left; eauto|right; naive_solver]. }
  destruct D as [ [re' ->] | N ].
  - unfold match_re, occurs. rewrite matchhere_spec. split.
    + intros (w & after & -> & Hl & Ha). exists [], w, after. auto.
    + intros (b & w & after & -> & Hl & Hb & Ha). rewrite Hb by reflexivity. exists w, after. auto.
  - assert (E1 : match_re re text = match_at re text) by (destruct re as [|x re]; [reflexivity|];
      assert (x <> 94) by (intros ->; eauto); clear N H; unfold match_re; other_char x).
    assert (E2 : match re with 94 :: re' => (true, re') | _ => (false, re) end = (false, re)).
    { destruct re as [|x re]; [reflexivity|]. assert (x <> 94) by (intros ->; eauto). clear N H E1. other_char x. }
    rewrite E1. unfold occurs. rewrite E2. apply H.
Qed.

(** ** grep *)

Definition BUF : nat := 1024.

(** The inner loop: the lines of the buffer from [p] on.  A line is cut off with
    a zero for the call of [match]; when it matches, the newline is put back and
    the line written. *)
Fixpoint grep_lines (n : nat) (pattern buf : list Z) (p : nat) : uprog (list Z * nat) :=
  match n with
  | O => UStop
  | S n' =>
      match strchr (cstr (drop p buf)) 10 with
      | None => mret (buf, p)
      | Some k =>
          let q := (p + k)%nat in
          let buf := <[q := 0]> buf in
          if match_re pattern (cstr (drop p buf)) then
            let buf := <[q := 10]> buf in
            _ ← call (SWrite 1 (take (q + 1 - p) (drop p buf)));
            grep_lines n' pattern buf (q + 1)
          else grep_lines n' pattern buf (q + 1)
      end
  end.

(** The outer loop, for at most [n] reads: [m] bytes of the buffer are left over
    from the last turn.  The buffer is a global array. *)
Fixpoint grep_loop (n : nat) (pattern : list Z) (fd : Z) (buf : list Z) (m : nat) : uprog (list Z) :=
  match n with
  | O => UStop
  | S n' =>
      '(cnt, d) ← call (SRead fd (Z.of_nat (BUF - m - 1)));
      if cnt >? 0 then
        let m := (m + Z.to_nat cnt)%nat in
        let buf := <[m := 0]> (splice buf (Z.of_nat m - cnt) d) in
        '(buf, p) ← grep_lines BUF pattern buf 0;
        let m := if (p =? 0)%nat then 0%nat else m in
        if (0 <? m)%nat then grep_loop n' pattern fd (umemmove (m - p) 0 p buf) (m - p)
        else grep_loop n' pattern fd buf m
      else mret buf
  end.

Definition grep (n : nat) (pattern : list Z) (fd : Z) (buf : list Z) : uprog (list Z) := grep_loop n pattern fd buf 0.

(** The files named on the command line, one after the other. *)
Fixpoint grep_files (n : nat) (pattern : list Z) (names : list (list Z)) (buf : list Z) : uprog unit :=
  match names with
  | [] => uexit
  | name :: names' =>
      fd ← call (SOpen name 0);
      if fd <? 0 then printf 1 (bytes_of ("grep: cannot open %s" +:+ nl)) [AStr (Some name)];; uexit
      else
        buf ← grep n pattern fd buf;
        _ ← call (SClose fd);
        grep_files n pattern names' buf
  end.

Definition grep_main (n : nat) (argv : list (list Z)) (buf : list Z) : uprog unit :=
  match argv with
  | _ :: pattern :: names =>
      match names with
      | [] => _ ← grep n pattern 0 buf; uexit
      | _ => grep_files n pattern names buf
      end
  | _ => printf 2 (bytes_of ("usage: grep pattern [file ...]" +:+ nl)) [];; uexit
  end.

(** ** What grep prints *)

Definition unlines (ls : list (list Z)) : list Z := concat (map (fun l => l ++ [10]) ls).
Definition is_line (l : list Z) : Prop := 10 ∉ l /\ 0 ∉ l.
Definition matching (pattern : list Z) (ls : list (list Z)) : list (list Z) := List.filter (match_re pattern) ls.

Lemma unlines_cons (l : list Z) (ls : list (list Z)) : unlines (l :: ls) = l ++ 10 :: unlines ls.
Proof. unfold unlines. cbn. rewrite <- app_assoc. reflexivity. Qed.

Lemma strchr_none (a : list Z) (c : Z) : c ∉ a -> strchr a c = None.
Proof.
  induction a as [|x a IH]; intros H; [reflexivity|]. cbn [strchr].
  destruct (Z.eqb_spec x c) as [->|]; [set_solver|]. rewrite IH by set_solver. reflexivity.
Qed.

Lemma strchr_app (a b : list Z) (c : Z) : c ∉ a -> strchr (a ++ c :: b) c = Some (length a).
Proof.
  induction a as [|x a IH]; intros H; cbn [strchr app length]; [rewrite Z.eqb_refl; reflexivity|].
  destruct (Z.eqb_spec x c) as [->|]; [set_solver|]. rewrite IH by set_solver. reflexivity.
Qed.

Lemma no_zero_unlines (ls : list (list Z)) : Forall is_line ls -> 0 ∉ unlines ls.
Proof.
  induction 1 as [|l ls [_ Hl] HF IH]; [set_solver|]. rewrite unlines_cons, elem_of_app, elem_of_cons. intuition discriminate.
Qed.

Lemma insert_middle (a b : list Z) (x y : Z) : <[length a := y]> (a ++ x :: b) = a ++ y :: b.
Proof. rewrite insert_app_r_alt by lia. rewrite Nat.sub_diag. reflexivity. Qed.

Lemma grep_lines_run (pattern r junk : list Z) (ls : list (list Z)) : Forall is_line ls -> is_line r ->
  forall n past w, (length ls < n)%nat -> exists past',
  urun file_io (grep_lines n pattern (past ++ unlines ls ++ r ++ 0 :: junk) (length past)) w =
    UDone (past' ++ r ++ 0 :: junk, length past') (mk_files (f_in w) (f_out w ++ unlines (matching pattern ls))) /\
  length past' = (length past + length (unlines ls))%nat.
Proof.
  intros HF [Hr10 Hr0]. induction HF as [|l ls [Hl10 Hl0] HF IH]; intros n past w Hn;
    (destruct n as [|n]; [cbn in Hn; lia|]); cbn [grep_lines].
  - exists past. rewrite drop_app_length. cbn [unlines map concat app]. rewrite cstr_app by exact Hr0. cbn [cstr].
    rewrite app_nil_r, strchr_none by exact Hr10. cbn. rewrite app_nil_r. destruct w. split; [reflexivity|lia].
  - rewrite drop_app_length, unlines_cons, <- !app_assoc. cbn [app].
    rewrite (cstr_app l) by exact Hl0. cbn [cstr Z.eqb]. rewrite strchr_app by exact Hl10.
    set (tl := unlines ls ++ r ++ 0 :: junk).
    assert (I : forall x y, <[(length past + length l)%nat := y]> (past ++ l ++ x :: tl) = past ++ l ++ y :: tl).
    { intros x y. rewrite <- length_app, !(app_assoc past). apply insert_middle. }
    rewrite I, drop_app_length, (cstr_app l) by exact Hl0. cbn [cstr Z.eqb]. rewrite app_nil_r.
    assert (Next : forall x out, exists past',
      urun file_io (grep_lines n pattern (past ++ l ++ x :: tl) (length past + length l + 1)) (mk_files (f_in w) out) =
        UDone (past' ++ r ++ 0 :: junk, length past') (mk_files (f_in w) (out ++ unlines (matching pattern ls))) /\
      length past' = (length past + length l + 1 + length (unlines ls))%nat).
    { intros x out. destruct (IH n (past ++ l ++ [x]) (mk_files (f_in w) out)) as (past' & H1 & H2); [cbn in Hn; lia|].
      exists past'. rewrite !length_app in *. cbn [length] in *. split; [|lia]. rewrite <- !app_assoc in H1.
      replace (length past + length l + 1)%nat with (length past + (length l + 1))%nat by lia. exact H1. }
    unfold matching. cbn [List.filter]. destruct (match_re pattern l) eqn:E.
    + assert (T : take (length past + length l + 1 - length past) (l ++ 10 :: tl) = l ++ [10]).
      { replace (length past + length l + 1 - length past)%nat with (length (l ++ [10])) by (rewrite length_app; cbn; lia).
        replace (l ++ 10 :: tl) with ((l ++ [10]) ++ tl) by (rewrite <- app_assoc; reflexivity). apply take_app_length. }
      rewrite I, run_write, drop_app_length, T. destruct (Next 10 (f_out w ++ (l ++ [10]))) as (past' & H1 & H2).
      exists past'. split; [|rewrite length_app; cbn [length]; lia]. rewrite H1, unlines_cons, <- !app_assoc. reflexivity.
    + destruct (Next 0 (f_out w)) as (past' & H1 & H2). exists past'. split; [|rewrite length_app; cbn [length]; lia]. destruct w. exact H1.
Qed.

(** What was read so far is some whole lines and the start of the next. *)
Lemma split_lines (ls : list (list Z)) : Forall is_line ls -> forall c rest, c ++ rest = unlines ls ->
  exists ls1 ls2 r, ls = ls1 ++ ls2 /\ c = unlines ls1 ++ r /\ r ++ rest = unlines ls2 /\ is_line r.
Proof.
  induction 1 as [|l ls Hl HF IH]; intros c rest E.
  - apply app_eq_nil in E as [-> ->]. exists [], [], []. split_and!; try reflexivity. split; set_solver.
  - rewrite unlines_cons in E. destruct (decide (length c <= length l)%nat) as [Hc|Hc].
    + exists [], (l :: ls), c. rewrite unlines_cons. split_and!; [reflexivity..|exact E|].
      assert (Ec : c = take (length c) l).
      { rewrite <- (take_app_length c rest) at 1. rewrite E. apply take_app_le. exact Hc. }
      destruct Hl as [H1 H2]. split; intros H; [apply H1|apply H2]; rewrite <- (take_drop (length c) l), elem_of_app, <- Ec; auto.
    + assert (Ec : c = (l ++ [10]) ++ drop (S (length l)) c).
      { rewrite <- (take_drop (S (length l)) c) at 1. f_equal.
        rewrite <- (take_app_le c rest) by lia. rewrite E.
        replace (l ++ 10 :: unlines ls) with ((l ++ [10]) ++ unlines ls) by (rewrite <- app_assoc; reflexivity).
        replace (S (length l)) with (length (l ++ [10])) by (rewrite length_app; cbn; lia). apply take_app_length. }
      set (c' := drop (S (length l)) c) in *. clearbody c'. subst c.
      destruct (IH c' rest) as (ls1 & ls2 & r & -> & -> & E2 & Hr).
      { rewrite <- !app_assoc in E. apply app_inv_head in E. cbn in E. congruence. }
      exists (l :: ls1), ls2, r. rewrite unlines_cons, <- !app_assoc. split_and!; auto.
Qed.

Lemma umemmove_up (n dst src : nat) : forall a, (dst <= src)%nat -> (src + n <= length a)%nat ->
  umemmove n dst src a = take dst a ++ take n (drop src a) ++ drop (dst + n) a.
Proof.
  revert dst src. induction n as [|n IH]; intros dst src a Hd Hs; cbn [umemmove].
  - rewrite Nat.add_0_r. cbn. symmetry. apply take_drop.
  - destruct (lookup_lt_is_Some_2 a src) as [x Hx]; [lia|].
    rewrite (nth_lookup_Some _ _ 0 _ Hx), IH by (rewrite ?length_insert; lia).
    rewrite (take_S_r _ dst x) by (apply list_lookup_insert_eq; lia). rewrite take_insert_ge by lia.
    rewrite !drop_insert_lt by lia. rewrite (drop_S a x src) by exact Hx. rewrite <- app_assoc. cbn [app take].
    replace (dst + S n)%nat with (S dst + n)%nat by lia. reflexivity.
Qed.

(** A turn that read the bytes [d] after the leftover [r]: the whole lines are
    done and the start of the next one is moved to the front. *)
Lemma grep_turn (n : nat) (pattern r d junk : list Z) (fd : Z) (ls1 : list (list Z)) (r' : list Z) (w : files) :
  length (r ++ junk) = BUF -> (length (r ++ d) < BUF)%nat -> r ++ d = unlines ls1 ++ r' ->
  Forall is_line ls1 -> is_line r' -> ls1 <> [] -> d <> [] -> f_in w = d ++ drop (BUF - length r - 1) (f_in w) ->
  take (BUF - length r - 1) (f_in w) = d ->
  exists junk', length (r' ++ junk') = BUF /\
  urun file_io (grep_loop (S n) pattern fd (r ++ junk) (length r)) w =
    urun file_io (grep_loop n pattern fd (r' ++ junk') (length r'))
      (mk_files (drop (BUF - length r - 1) (f_in w)) (f_out w ++ unlines (matching pattern ls1))).
Proof.
  intros Hb Hc Ec HF Hr' Hls Hd Hin Ht. cbn [grep_loop]. rewrite run_read. cbn [f_in f_out]. rewrite Nat2Z.id, Ht.
  assert (Hdl : (0 < length d)%nat) by (destruct d; [congruence|cbn; lia]).
  destruct (Z.of_nat (length d) >? 0) eqn:E; [|rewrite Z.gtb_ltb in E; apply Z.ltb_ge in E; lia]. rewrite Nat2Z.id.
  set (w1 := mk_files _ _).
  assert (Eb : exists junk', <[(length r + length d)%nat := 0]>
      (splice (r ++ junk) (Z.of_nat (length r + length d) - Z.of_nat (length d)) d) = unlines ls1 ++ r' ++ 0 :: junk' /\
      length (unlines ls1 ++ r' ++ 0 :: junk') = BUF).
  { unfold splice. replace (Z.to_nat _) with (length r) by lia. rewrite take_app_length.
    rewrite length_app in *. rewrite drop_app_add.
    destruct (drop (length d) junk) as [|x junk'] eqn:Ej.
    { apply (f_equal length) in Ej. rewrite length_drop in Ej. cbn in Ej. lia. }
    exists junk'. rewrite !(app_assoc r), !(app_assoc (unlines ls1)), <- Ec, <- length_app, insert_middle. split; [reflexivity|].
    apply (f_equal length) in Ej. rewrite length_drop in Ej. cbn in Ej. rewrite !length_app. cbn. lia. }
  destruct Eb as (junk1 & -> & Hl).
  destruct (grep_lines_run pattern r' junk1 ls1 HF Hr' BUF [] w1) as (past & Hp & Hpl).
  { rewrite length_app in Hl. assert (length ls1 <= length (unlines ls1))%nat; [|cbn in Hl; rewrite length_app in Hl; cbn in Hl; lia].
    clear. induction ls1 as [|l ls IH]; [cbn; lia|]. rewrite unlines_cons, length_app. cbn. lia. }
  cbn [length app] in Hp, Hpl. rewrite (urun_bind _ _ _ _ _ _ Hp). cbn [f_in f_out w1].
  assert (Hpos : (0 < length past)%nat).
  { rewrite Hpl. destruct ls1 as [|l ls]; [congruence|]. rewrite unlines_cons, length_app. cbn. lia. }
  destruct (Nat.eqb_spec (length past) 0) as [|_]; [lia|].
  assert (Em : (length r + length d = length past + length r')%nat) by (rewrite <- length_app, Ec, length_app, Hpl; reflexivity).
  destruct (Nat.ltb_spec 0 (length r + length d)); [|lia].
  replace (length r + length d - length past)%nat with (length r') by lia.
  rewrite umemmove_up by (rewrite ?length_app; lia). cbn [take app]. rewrite drop_app_length, take_app_length.
  exists (drop (length r') (past ++ r' ++ 0 :: junk1)). split; [|reflexivity].
  rewrite !length_app in *. rewrite length_drop, !length_app. lia.
Qed.

(** A whole line fits into the buffer. *)
Lemma line_read (ls : list (list Z)) (r rest : list Z) (ls1 ls2 : list (list Z)) (r' : list Z) :
  Forall (fun l => is_line l /\ (length l < BUF - 1)%nat) ls -> r ++ rest = unlines ls -> rest <> [] -> is_line r' ->
  ls = ls1 ++ ls2 -> r ++ take (BUF - length r - 1) rest = unlines ls1 ++ r' -> ls1 <> [].
Proof.
  intros HF E Hrest [Hr' _] -> Ec ->. change (unlines [] ++ r') with r' in Ec. destruct ls2 as [|l ls].
  - cbn in E. apply app_eq_nil in E as [_ ->]. congruence.
  - rewrite app_nil_l in *. apply Forall_cons in HF as [ [_ Hl] _ ]. rewrite unlines_cons in E.
    assert (H : l ++ [10] `prefix_of` r').
    { rewrite <- Ec. replace (l ++ 10 :: unlines ls) with ((l ++ [10]) ++ unlines ls) in E by (rewrite <- app_assoc; reflexivity).
      destruct (decide (length rest <= BUF - length r - 1)%nat) as [Hle|Hle].
      - rewrite take_ge by exact Hle. rewrite E. apply prefix_app_r. reflexivity.
      - assert (T : take (length r + (BUF - length r - 1)) (r ++ rest) = r ++ take (BUF - length r - 1) rest) by apply take_app_add.
        rewrite <- T, E. rewrite take_app_ge by (rewrite length_app; cbn [length]; lia). apply prefix_app_r. reflexivity. }
    destruct H as [x ->]. apply Hr'. rewrite !elem_of_app, list_elem_of_singleton. auto.
Qed.

Lemma grep_loop_run (pattern : list Z) (fd : Z) : forall n r junk rest ls out,
  Forall (fun l => is_line l /\ (length l < BUF - 1)%nat) ls -> r ++ rest = unlines ls -> is_line r ->
  length (r ++ junk) = BUF -> (length rest < n)%nat -> exists buf',
  urun file_io (grep_loop n pattern fd (r ++ junk) (length r)) (mk_files rest out) =
    UDone buf' (mk_files [] (out ++ unlines (matching pattern ls))).
Proof.
  induction n as [|n IH]; intros r junk rest ls out HF E Hr Hb Hn; [lia|].
  assert (HF1 : Forall is_line ls) by (eapply Forall_impl; [exact HF|]; cbn; tauto).
  destruct (decide (rest = [])) as [->|Hrest].
  - assert (ls = []) as ->.
    { destruct ls as [|l ls]; [reflexivity|]. rewrite app_nil_r, unlines_cons in E. subst r. destruct Hr as [Hr _].
      exfalso. apply Hr. set_solver. }
    cbn [grep_loop]. rewrite run_read. cbn [f_in f_out]. rewrite take_nil, drop_nil. cbn [length Z.of_nat Z.gtb Z.compare]. exists (r ++ junk). cbn [urun mret uprog_ret].
    change (matching pattern []) with (@nil (list Z)). rewrite app_nil_r. reflexivity.
  - assert (Hlr : (length r < BUF - 1)%nat).
    { destruct ls as [|l ls]; [cbn in E; apply app_eq_nil in E as [_ ->]; congruence|].
      apply Forall_cons in HF as [ [_ Hl] _ ]. destruct (split_lines _ HF1 r rest E) as (ls1 & ls2 & r' & E1 & E2 & _ & _).
      destruct ls1 as [|x ls1]; [|exfalso; destruct Hr as [Hr _]; apply Hr; rewrite E2, unlines_cons; set_solver].
      destruct (decide (length r <= length l)%nat); [lia|]. exfalso. destruct Hr as [Hr _]. apply Hr.
      rewrite unlines_cons in E. apply (list_elem_of_lookup_2 _ (length l)). rewrite <- (lookup_app_l r rest) by lia. rewrite E.
      apply list_lookup_middle. reflexivity. }
    set (d := take (BUF - length r - 1) rest).
    destruct (split_lines ls HF1 (r ++ d) (drop (BUF - length r - 1) rest)) as (ls1 & ls2 & r' & E1 & E2 & E3 & Hr').
    { rewrite <- app_assoc. unfold d. rewrite take_drop. exact E. }
    pose proof (line_read ls r rest ls1 ls2 r' HF E Hrest Hr' E1 E2) as Hls. subst ls.
    apply Forall_app in HF as [HFa HF2]. apply Forall_app in HF1 as [HF1 _].
    assert (Hdn : d <> []) by (unfold d; destruct rest; [congruence|]; destruct (BUF - length r - 1)%nat eqn:?; [lia|discriminate]).
    destruct (grep_turn n pattern r d junk fd ls1 r' (mk_files rest out)) as (junk' & Hb' & ->); try assumption.
    + rewrite length_app. unfold d. rewrite length_take. lia.
    + cbn. unfold d. rewrite take_drop. reflexivity.
    + reflexivity.
    + cbn [f_in f_out]. destruct (IH r' junk' (drop (BUF - length r - 1) rest) ls2 (out ++ unlines (matching pattern ls1)) HF2 E3 Hr' Hb') as [buf' ->].
      * rewrite length_drop. assert (length rest <> 0%nat) by (destruct rest; [congruence|discriminate]). lia.
      * exists buf'. unfold matching. rewrite List.filter_app. unfold unlines at 3. rewrite map_app, concat_app, <- app_assoc. reflexivity.
Qed.

(** C34. The matcher of grep decides the meaning of its patterns: [match] returns
    true exactly when the text can be split so that its middle is a word of the
    pattern's items ([.] any character, [c*] any number of [c], the other
    characters themselves), at the start of the text for a pattern with [^] and
    up to its end for one with [$].  It terminates on every pattern and text. *)
Theorem match_decides_pattern (re text : list Z) : match_re re text = true <-> occurs re text.
Proof. apply match_decides. Qed.

(** C35. grep prints exactly the lines that match: on a file of text lines of fewer
    than 1023 characters each, read through the buffer of 1024 bytes in as many
    reads as it takes, the output is the lines in which the pattern occurs, in
    order and complete. *)
Theorem grep_prints_matching_lines (pattern : list Z) (fd : Z) (buf : list Z) (ls : list (list Z)) (n : nat) :
  length buf = BUF -> Forall (fun l => is_line l /\ (length l < BUF - 1)%nat) ls -> (length (unlines ls) < n)%nat ->
  exists buf' out, urun file_io (grep n pattern fd buf) (mk_files (unlines ls) []) = UDone buf' (mk_files [] (unlines out)) /\
    (forall l, l ∈ out <-> l ∈ ls /\ occurs pattern l) /\ out `sublist_of` ls.
Proof.
  intros Hb HF Hn. destruct (grep_loop_run pattern fd n [] buf (unlines ls) ls []) as [buf' E];
    [exact HF|reflexivity|split; set_solver|exact Hb|exact Hn|].
  exists buf', (matching pattern ls). split_and!.
  - exact E.
  - intros l. unfold matching. rewrite !list_elem_of_In, filter_In. rewrite match_decides. tauto.
  - unfold matching. clear. induction ls as [|l ls IH]; cbn; [constructor|]. destruct (match_re pattern l); constructor; exact IH.
Qed.

Lemma grep_prints_matching_lines_witness :
  exists buf' out, urun file_io (grep 100 (bytes_of "a.c*$") 3 (replicate BUF 0))
      (mk_files (unlines [bytes_of "xabcc"; bytes_of "abd c"; []; bytes_of "ax"]) []) = UDone buf' (mk_files [] (unlines out)) /\
    (forall l, l ∈ out <-> l ∈ [bytes_of "xabcc"; bytes_of "abd c"; []; bytes_of "ax"] /\ occurs (bytes_of "a.c*$") l) /\
    out `sublist_of` [bytes_of "xabcc"; bytes_of "abd c"; []; bytes_of "ax"].
Proof.
  apply grep_prints_matching_lines.
  - apply length_replicate.
  - repeat constructor; cbn; (lia || set_solver).
  - cbn. lia.
Defined.
