(* ===== verification/UserProgs.v ===== *)
(** * Small user programs: cat.c, wc.c, echo.c, ls.c, rm.c, mkdir.c, ln.c, kill.c, zombie.c, init.c *)

From S2P Require Import Prelude Params Bytes CString Print User Ulib.

Abbreviation line s := (bytes_of (s +:+ nl)).

(** ** cat.c *)

Fixpoint cat (n : nat) (fd : Z) : uprog unit :=
  match n with
  | O => UStop
  | S n' =>
      '(cnt, d) ← call (SRead fd 512);
      if cnt >? 0 then
        r ← call (SWrite 1 (take (Z.to_nat cnt) d));
        if negb (r =? cnt) then printf 1 (line "cat: write error") [];; uexit else cat n' fd
      else if cnt <? 0 then printf 1 (line "cat: read error") [];; uexit
      else mret tt
  end.

(** The loop over the arguments that cat and wc share: open, run, close. *)
Fixpoint each_file (who : string) (body : Z -> list Z -> uprog unit) (names : list (list Z)) : uprog unit :=
  match names with
  | [] => uexit
  | name :: names' =>
      fd ← call (SOpen name 0);
      if fd <? 0 then printf 1 (line (who +:+ ": cannot open %s")) [AStr (Some name)];; uexit
      else
        body fd name;;
        _ ← call (SClose fd);
        each_file who body names'
  end.

Definition cat_main (n : nat) (argv : list (list Z)) : uprog unit :=
  match tail argv with
  | [] => cat n 0;; uexit
  | names => each_file "cat" (fun fd _ => cat n fd) names
  end.

(** ** wc.c *)

Record counts : Type := mk_counts { c_lines : Z; c_words : Z; c_chars : Z; c_inword : bool }.

Definition white (c : Z) : bool := bool_decide (is_Some (strchr [32; 13; 9; 10; 11] c)).

Definition count_char (k : counts) (c : Z) : counts :=
  let l := if c =? 10 then s32 (c_lines k + 1) else c_lines k in
  if white c then mk_counts l (c_words k) (s32 (c_chars k + 1)) false
  else mk_counts l (if c_inword k then c_words k else s32 (c_words k + 1)) (s32 (c_chars k + 1)) true.

Fixpoint wc_loop (n : nat) (fd : Z) (k : counts) : uprog counts :=
  match n with
  | O => UStop
  | S n' =>
      '(cnt, d) ← call (SRead fd 512);
      if cnt >? 0 then wc_loop n' fd (foldl count_char k (take (Z.to_nat cnt) d))
      else if cnt <? 0 then printf 1 (line "wc: read error") [];; uexit
      else mret k
  end.

Definition wc (n : nat) (fd : Z) (name : list Z) : uprog unit :=
  k ← wc_loop n fd (mk_counts 0 0 0 false);
  printf 1 (line "%d %d %d %s") [AInt (c_lines k); AInt (c_words k); AInt (c_chars k); AStr (Some name)].

Definition wc_main (n : nat) (argv : list (list Z)) : uprog unit :=
  match tail argv with
  | [] => wc n 0 [];; uexit
  | names => each_file "wc" (wc n) names
  end.

(** ** echo.c, rm.c, mkdir.c, ln.c, kill.c, zombie.c *)

Fixpoint echo_loop (args : list (list Z)) : uprog unit :=
  match args with
  | [] => mret tt
  | a :: args' =>
      printf 1 (bytes_of "%s%s") [AStr (Some a); AStr (Some (match args' with [] => [10] | _ => [32] end))];;
      echo_loop args'
  end.

Definition echo_main (argv : list (list Z)) : uprog unit := echo_loop (tail argv);; uexit.

(** The loop of rm and mkdir: stop at the first failure. *)
Fixpoint until_failure (op : list Z -> sysc Z) (msg : string) (names : list (list Z)) : uprog unit :=
  match names with
  | [] => mret tt
  | name :: names' =>
      r ← call (op name);
      if r <? 0 then printf 2 (line msg) [AStr (Some name)] else until_failure op msg names'
  end.

Definition rm_main (argv : list (list Z)) : uprog unit :=
  match tail argv with
  | [] => printf 2 (line "Usage: rm files...") [];; uexit
  | names => until_failure SUnlink "rm: %s failed to delete" names;; uexit
  end.

Definition mkdir_main (argv : list (list Z)) : uprog unit :=
  match tail argv with
  | [] => printf 2 (line "Usage: mkdir files...") [];; uexit
  | names => until_failure SMkdir "mkdir: %s failed to create" names;; uexit
  end.

Definition ln_main (argv : list (list Z)) : uprog unit :=
  match argv with
  | [_; old; new] =>
      r ← call (SLink old new);
      (if r <? 0 then printf 2 (line "link %s %s: failed") [AStr (Some old); AStr (Some new)] else mret tt);;
      uexit
  | _ => printf 2 (line "Usage: ln old new") [];; uexit
  end.

Fixpoint kill_all (pids : list (list Z)) : uprog unit :=
  match pids with
  | [] => uexit
  | p :: pids' => _ ← call (SKill (atoi p)); kill_all pids'
  end.

Definition kill_main (argv : list (list Z)) : uprog unit :=
  match tail argv with
  | [] => printf 2 (line "usage: kill pid...") [];; uexit
  | pids => kill_all pids
  end.

Definition zombie_main : uprog unit :=
  pid ← call SFork;
  (if pid >? 0 then _ ← call (SSleep 5); mret tt else mret tt);;
  uexit.

(** ** ls.c *)

(** The characters after the last slash. *)
Fixpoint base_name (path : list Z) : list Z :=
  match path with
  | [] => []
  | c :: path' => if bool_decide (47 ∈ path) then base_name path' else path
  end.

Definition fmtname (path : list Z) : list Z :=
  let p := base_name path in
  if ustrlen p >=? DIRSIZ then p else p ++ replicate (Z.to_nat (DIRSIZ - ustrlen p)) 32.

Definition ls_line (path : list Z) (st : Z * Z * Z) : uprog unit :=
  let '(ty, ino, size) := st in
  printf 1 (line "%s %d %d %d") [AStr (Some (fmtname path)); AInt ty; AInt ino; AInt size].

Fixpoint ls_entries (n : nat) (fd : Z) (path : list Z) : uprog unit :=
  match n with
  | O => UStop
  | S n' =>
      '(cnt, de) ← call (SRead fd 16);
      if negb (cnt =? 16) then mret tt
      else if get16 de 0 =? 0 then ls_entries n' fd path
      else
        let buf := path ++ [47] ++ cstr (slice de 2 DIRSIZ) in
        '(r, st) ← ustat buf;
        (if r <? 0 then printf 1 (line "ls: cannot stat %s") [AStr (Some buf)] else ls_line buf st);;
        ls_entries n' fd path
  end.

Definition ls (n : nat) (path : list Z) : uprog unit :=
  fd ← call (SOpen path 0);
  if fd <? 0 then printf 2 (line "ls: cannot open %s") [AStr (Some path)]
  else
    '(r, st) ← call (SFstat fd);
    if r <? 0 then
      printf 2 (line "ls: cannot stat %s") [AStr (Some path)];;
      _ ← call (SClose fd); mret tt
    else
      let ty := st.1.1 in
      (if ty =? T_FILE then ls_line path st
       else if ty =? T_DIR then
         if ustrlen path + 1 + DIRSIZ + 1 >? 512 then printf 1 (line "ls: path too long") []
         else ls_entries n fd path
       else mret tt);;
      _ ← call (SClose fd); mret tt.

Fixpoint ls_all (n : nat) (paths : list (list Z)) : uprog unit :=
  match paths with
  | [] => uexit
  | p :: paths' => ls n p;; ls_all n paths'
  end.

Definition ls_main (n : nat) (argv : list (list Z)) : uprog unit :=
  match tail argv with
  | [] => ls n [46];; uexit
  | paths => ls_all n paths
  end.

(** ** init.c, for [n] rounds of starting the shell *)

Fixpoint reap (n : nat) (pid : Z) : uprog unit :=
  match n with
  | O => UStop
  | S n' =>
      wpid ← call SWait;
      if (wpid >=? 0) && negb (wpid =? pid) then printf 1 (line "zombie!") [];; reap n' pid else mret tt
  end.

Fixpoint init_loop (n : nat) : uprog unit :=
  match n with
  | O => UStop
  | S n' =>
      printf 1 (line "init: starting sh") [];;
      pid ← call SFork;
      if pid <? 0 then printf 1 (line "init: fork failed") [];; uexit
      else if pid =? 0 then
        _ ← call (SExec (bytes_of "sh") [bytes_of "sh"]);
        printf 1 (line "init: exec sh failed") [];;
        uexit
      else reap n' pid;; init_loop n'
  end.

Definition init_main (n : nat) : uprog unit :=
  fd ← call (SOpen (bytes_of "console") O_RDWR);
  (if fd <? 0 then
     _ ← call (SMknod (bytes_of "console") 1 1);
     _ ← call (SOpen (bytes_of "console") O_RDWR);
     mret tt
   else mret tt);;
  _ ← call (SDup 0);
  _ ← call (SDup 0);
  init_loop n.

(** ** What wc counts *)

Definition byte (c : Z) : Prop := 0 <= c < 256.

Lemma count_chars (text : list Z) : forall k, 0 <= c_chars k -> c_chars k + Z.of_nat (length text) < 2 ^ 31 ->
  c_chars (foldl count_char k text) = c_chars k + Z.of_nat (length text).
Proof.
  induction text as [|c text IH]; intros k H0 H; cbn [foldl length] in *; [lia|].
  assert (E : c_chars (count_char k c) = c_chars k + 1) by (unfold count_char; destruct (white c); cbn; apply s32_small; lia).
  rewrite IH; lia.
Qed.

Definition newlines (text : list Z) : Z := Z.of_nat (length (List.filter (fun c => c =? 10) text)).

Lemma count_lines (text : list Z) : forall k, 0 <= c_lines k -> c_lines k + Z.of_nat (length text) < 2 ^ 31 ->
  c_lines (foldl count_char k text) = c_lines k + newlines text.
Proof.
  induction text as [|c text IH]; intros k H0 H; cbn [foldl length] in *; [unfold newlines; cbn; lia|].
  assert (E : c_lines (count_char k c) = c_lines k + (if c =? 10 then 1 else 0)).
  { unfold count_char. destruct (white c), (c =? 10); cbn; try lia; apply s32_small; lia. }
  unfold newlines in *. cbn [List.filter]. rewrite IH by (destruct (c =? 10); lia).
  rewrite E. destruct (c =? 10); cbn [length]; lia.
Qed.

(** A text as words with white space between them: some white space, then each
    word with the white space after it. *)
Definition spaced (gap : list Z) (ws : list (list Z * list Z)) : list Z := gap ++ concat (map (fun w => w.1 ++ w.2) ws).

Fixpoint well_spaced (ws : list (list Z * list Z)) : Prop :=
  match ws with
  | [] => True
  | (w, g) :: ws' =>
      w <> [] /\ Forall (fun c => white c = false) w /\ Forall (fun c => white c = true) g /\ (ws' <> [] -> g <> []) /\
      well_spaced ws'
  end.

Lemma count_gap (g : list Z) : forall k, Forall (fun c => white c = true) g ->
  c_words (foldl count_char k g) = c_words k /\ (c_inword (foldl count_char k g) = false <-> g <> [] \/ c_inword k = false).
Proof.
  induction g as [|c g IH]; intros k HF; cbn [foldl]; [tauto|]. apply Forall_cons in HF as [Hc HF].
  destruct (IH (count_char k c) HF) as [E1 E2]. rewrite E1, E2. unfold count_char. rewrite Hc. cbn.
  split; [reflexivity|]. split; intros _; [left; discriminate|right; reflexivity].
Qed.

Lemma count_word (w : list Z) : forall k, Forall (fun c => white c = false) w -> w <> [] -> 0 <= c_words k < 2 ^ 31 - 1 ->
  c_words (foldl count_char k w) = c_words k + (if c_inword k then 0 else 1) /\ c_inword (foldl count_char k w) = true.
Proof.
  induction w as [|c w IH]; intros k HF Hn Hk; [congruence|]. apply Forall_cons in HF as [Hc HF]. cbn [foldl].
  assert (E : c_words (count_char k c) = c_words k + (if c_inword k then 0 else 1) /\ c_inword (count_char k c) = true).
  { unfold count_char. rewrite Hc. cbn. destruct (c_inword k); [lia|]. rewrite s32_small; lia. }
  destruct E as [E1 E2]. destruct w as [|d w]; [cbn; auto|].
  assert (Hb : forall x, c_inword x = true -> 0 <= c_words x < 2 ^ 31 -> c_words (foldl count_char x (d :: w)) = c_words x /\
    c_inword (foldl count_char x (d :: w)) = true).
  { revert HF. generalize (d :: w). clear. intros l. induction l as [|c l IH]; intros HF x Hx Hb; [auto|].
    apply Forall_cons in HF as [Hc HF]. cbn [foldl].
    assert (E : c_words (count_char x c) = c_words x /\ c_inword (count_char x c) = true) by
      (unfold count_char; rewrite Hc, Hx; auto).
    destruct E as [E1 E2]. rewrite <- E1. apply (IH HF); [exact E2|lia]. }
  destruct (Hb (count_char k c) E2) as [F1 F2]; [destruct (c_inword k); lia|]. rewrite F1, E1. auto.
Qed.

Lemma count_words (ws : list (list Z * list Z)) : forall k, well_spaced ws -> c_inword k = false ->
  0 <= c_words k -> c_words k + Z.of_nat (length ws) < 2 ^ 31 ->
  c_words (foldl count_char k (concat (map (fun w => w.1 ++ w.2) ws))) = c_words k + Z.of_nat (length ws).
Proof.
  induction ws as [|[w g] ws IH]; intros k Hw Hi H0 Hn; cbn [map concat foldl length fst snd] in *; [lia|].
  destruct Hw as (W1 & W2 & W3 & W4 & W5). rewrite !foldl_app.
  destruct (count_word w k W2 W1) as [E1 E2]; [lia|]. rewrite Hi in E1.
  destruct (count_gap g (foldl count_char k w) W3) as [E3 E4].
  destruct ws as [|x ws]; [cbn [map concat foldl length]; lia|].
  rewrite IH; [lia|exact W5| |lia|lia]. apply E4. left. apply W4. discriminate.
Qed.

Lemma wc_loop_run (fd : Z) : forall n text k out, (length text < n)%nat ->
  urun file_io (wc_loop n fd k) (mk_files text out) = UDone (foldl count_char k text) (mk_files [] out).
Proof.
  induction n as [|n IH]; intros text k out Hn; [lia|]. cbn [wc_loop]. rewrite run_read. cbn [f_in f_out].
  change (Z.to_nat 512) with 512%nat. destruct text as [|c text]; [reflexivity|].
  set (d := take 512 (c :: text)). assert (Hd : (0 < length d)%nat) by (unfold d; rewrite length_take; cbn [length]; lia).
  destruct (Z.of_nat (length d) >? 0) eqn:E; [|rewrite Z.gtb_ltb in E; apply Z.ltb_ge in E; lia].
  rewrite Nat2Z.id, firstn_all, IH by (rewrite length_drop; cbn [length] in *; lia).
  rewrite <- foldl_app. unfold d. rewrite take_drop. reflexivity.
Qed.

(** wc counts lines, words and characters: for a text given as words of
    characters that are not white space with white space between them, read in
    pieces of 512 bytes wherever these cut it, wc prints the number of newlines,
    of words and of characters. *)
Theorem wc_counts (n : nat) (fd : Z) (name gap : list Z) (ws : list (list Z * list Z)) :
  let text := spaced gap ws in
  Forall (fun c => white c = true) gap -> well_spaced ws -> Z.of_nat (length text) < 2 ^ 31 - 1 -> (length text < n)%nat ->
  Forall byte name ->
  urun file_io (wc n fd name) (mk_files text []) = UDone tt (mk_files [] (dec (newlines text) ++ [32] ++
    dec (Z.of_nat (length ws)) ++ [32] ++ dec (Z.of_nat (length text)) ++ [32] ++ name ++ [10])).
Proof.
  intros text Hg Hw Hl Hn Hname. unfold wc. rewrite (urun_bind _ _ _ _ _ _ (wc_loop_run fd n text _ [] Hn)).
  set (k := foldl count_char _ text).
  assert (E1 : c_lines k = newlines text) by (apply (count_lines text); cbn [c_lines]; lia).
  assert (E3 : c_chars k = Z.of_nat (length text)) by (apply (count_chars text); cbn [c_chars]; lia).
  assert (Hlw : (length ws <= length text)%nat).
  { unfold text, spaced. rewrite length_app. clear -Hw. induction ws as [|[w g] ws IH]; [cbn; lia|].
    destruct Hw as (W1 & _ & _ & _ & Hw). specialize (IH Hw). cbn [map concat length fst snd]. rewrite !length_app.
    destruct w; [congruence|]. cbn [length]. lia. }
  assert (E2 : c_words k = Z.of_nat (length ws)).
  { unfold k, text, spaced. rewrite foldl_app. destruct (count_gap gap (mk_counts 0 0 0 false) Hg) as [G1 G2].
    rewrite count_words; [rewrite G1; reflexivity|exact Hw|apply G2; right; reflexivity|rewrite G1; cbn; lia|rewrite G1; cbn [c_words]; lia]. }
  assert (Hnl : 0 <= newlines text <= Z.of_nat (length text)).
  { unfold newlines. pose proof (filter_length_le (fun c => c =? 10) text). lia. }
  rewrite E1, E2, E3. unfold printf.
  change (bytes_of ("%d %d %d %s" +:+ nl)) with [37; 100; 32; 37; 100; 32; 37; 100; 32; 37; 115; 10].
  cbn [printf_loop negb Z.eqb Pos.eqb orb default option_map].
  rewrite !s32_small by lia.
  do 3 (erewrite urun_bind by (apply uprintint_run; lia); erewrite urun_bind by apply putc_run).
  erewrite urun_bind by (apply puts_run; exact Hname). erewrite urun_bind by apply putc_run.
  cbn [f_in f_out urun mret uprog_ret]. rewrite <- !app_assoc. reflexivity.
Qed.

Lemma wc_counts_witness :
  urun file_io (wc 100 3 (bytes_of "f")) (mk_files (spaced [32] [(bytes_of "ab", [10]); (bytes_of "c", [])]) []) =
    UDone tt (mk_files [] (dec (newlines (spaced [32] [(bytes_of "ab", [10]); (bytes_of "c", [])])) ++ [32] ++
    dec 2 ++ [32] ++ dec (Z.of_nat (length (spaced [32] [(bytes_of "ab", [10]); (bytes_of "c", [])]))) ++ [32] ++ bytes_of "f" ++ [10])).
Proof.
  apply (wc_counts 100 3 (bytes_of "f") [32] [(bytes_of "ab", [10]); (bytes_of "c", [])]).
  - repeat constructor.
  - repeat constructor; discriminate || congruence.
  - cbn. lia.
  - cbn. lia.
  - repeat constructor; discriminate.
Defined.
