(* ===== verification/Demos.v ===== *)
(** * Demonstration and test programs: abc.c, my_userapp.c, forktest.c, stressfs.c, hugefiletest.c, test_master.c, test_mlfq.c, test_stride.c

    The programs as trees of system calls.  [forktest] is checked against a
    model of the process table: it accepts a kernel whose [fork] and [wait] do
    what it expects of them. *)

From S2P Require Import Prelude Params Bytes CString Print User Ulib UserProgs.

(** [for(i = ...; i < ...; i++) body], with [n] turns from [i] on. *)
Fixpoint ufor (n : nat) (i : Z) (body : Z -> uprog unit) : uprog unit :=
  match n with O => mret tt | S n' => body i;; ufor n' (i + 1) body end.

(** ** abc.c *)

Definition hundred (fmt : string) : uprog unit := ufor 100 0 (fun i => printf 1 (line fmt) [AInt i]).

Definition abc_main : uprog unit :=
  pid ← call SFork;
  (if pid <? 0 then printf 1 (line "Error!") []
   else if pid =? 0 then
     pid_2 ← call SFork;
     if pid_2 <? 0 then mret tt
     else if pid_2 =? 0 then hundred "e%d";; uexit
     else hundred "c%d";; uexit
   else hundred "p%d";; uexit);;
  uexit.

(** ** my_userapp.c *)

Definition userapp_main : uprog unit :=
  ret_val ← call (SMyfunction (bytes_of "Hello xv6!"));
  printf 1 (line "Return value : 0x%x") [AInt ret_val];;
  uexit.

(** ** forktest.c: its [printf] writes the string in one call *)

Definition fputs (s : list Z) : uprog unit := _ ← call (SWrite 1 s); mret tt.

(** The first loop returns the number of children. *)
Fixpoint fork_many (k : nat) (n : Z) : uprog Z :=
  match k with
  | O => mret n
  | S k' =>
      pid ← call SFork;
      if pid <? 0 then mret n
      else if pid =? 0 then uexit
      else fork_many k' (n + 1)
  end.

Fixpoint wait_many (n : nat) : uprog unit :=
  match n with
  | O => mret tt
  | S n' =>
      r ← call SWait;
      if r <? 0 then fputs (line "wait stopped early");; uexit else wait_many n'
  end.

Definition forktest : uprog unit :=
  fputs (line "fork test");;
  n ← fork_many 1000 0;
  if n =? 1000 then fputs (line "fork claimed to work N times!");; uexit
  else
    wait_many (Z.to_nat n);;
    r ← call SWait;
    if negb (r =? -1) then fputs (line "wait got too many");; uexit
    else fputs (line "fork test OK").

Definition forktest_main : uprog unit := forktest;; uexit.

(** ** stressfs.c *)

(** The loop that ends at the first [fork] that returns in the parent. *)
Fixpoint stress_fork (n : nat) (i : Z) : uprog Z :=
  match n with
  | O => mret i
  | S n' => pid ← call SFork; if pid >? 0 then mret i else stress_fork n' (i + 1)
  end.

Definition stressfs_main : uprog unit :=
  printf 1 (line "stressfs starting") [];;
  let data := replicate 512 97 in
  i ← stress_fork 4 0;
  printf 1 (line "write %d") [AInt i];;
  let path := bytes_of "stressfs" ++ [48 + i] in
  fd ← call (SOpen path (Z.lor O_CREATE O_RDWR));
  ufor 20 0 (fun _ => _ ← call (SWrite fd data); mret tt);;
  _ ← call (SClose fd);
  printf 1 (line "read") [];;
  fd ← call (SOpen path O_RDONLY);
  ufor 20 0 (fun _ => _ ← call (SRead fd 512); mret tt);;
  _ ← call (SClose fd);
  _ ← call SWait;
  uexit.

(** ** hugefiletest.c *)

Definition FILESIZE : Z := 16 * 1024 * 1024.
Definition BUFSIZE : Z := 512.
Definition BUF_PER_FILE : Z := FILESIZE / BUFSIZE.

Definition huge_data : list Z := map (fun i => Z.of_nat i mod 128) (seq 0 512).

(** One buffer. *)
Definition huge_write (fd : Z) : uprog unit :=
  r ← call (SWrite fd huge_data);
  if negb (r =? BUFSIZE) then printf 1 (line "write returned %d : failed") [AInt r];; uexit else mret tt.

Definition huge_read (fd : Z) : uprog unit :=
  '(r, buf) ← call (SRead fd BUFSIZE);
  if negb (r =? BUFSIZE) then printf 1 (line "read returned %d : failed") [AInt r];; uexit
  else if negb (bool_decide (take 512 buf = huge_data)) then printf 1 (line "data inconsistency detected") [];; uexit
  else mret tt.

Definition huge_stress (path : list Z) (i : Z) : uprog unit :=
  printf 1 (line "stress test...%d ") [AInt i];;
  r ← call (SUnlink path);
  if r <? 0 then printf 1 (line "rm: %s failed to delete") [AStr (Some path)];; uexit
  else
    fd ← call (SOpen path (Z.lor O_CREATE O_RDWR));
    ufor (Z.to_nat BUF_PER_FILE) 0 (fun j =>
      (if j mod 100 =? 0 then printf 1 (line "%d bytes totally written") [AInt (i * FILESIZE + j * BUFSIZE)] else mret tt);;
      huge_write fd);;
    printf 1 (line "%d bytes written") [AInt ((i + 1) * FILESIZE)];;
    _ ← call (SClose fd);
    mret tt.

Definition hugefile_main (argv : list (list Z)) : uprog unit :=
  let path := match argv with _ :: p :: _ => p | _ => bytes_of "hugefile" end in
  printf 1 (line "hugefiletest starting") [];;
  printf 1 (line "1. create test") [];;
  fd ← call (SOpen path (Z.lor O_CREATE O_RDWR));
  ufor (Z.to_nat BUF_PER_FILE) 0 (fun i =>
    (if i mod 100 =? 0 then printf 1 (line "%d bytes written") [AInt (i * BUFSIZE)] else mret tt);;
    huge_write fd);;
  printf 1 (line "%d bytes written") [AInt (BUF_PER_FILE * BUFSIZE)];;
  _ ← call (SClose fd);
  printf 1 (line "2. read test") [];;
  fd ← call (SOpen path O_RDONLY);
  ufor (Z.to_nat BUF_PER_FILE) 0 (fun i =>
    (if i mod 100 =? 0 then printf 1 (line "%d bytes read") [AInt (i * BUFSIZE)] else mret tt);;
    huge_read fd);;
  printf 1 (line "%d bytes read") [AInt (BUF_PER_FILE * BUFSIZE)];;
  _ ← call (SClose fd);
  printf 1 (line "3. stress test") [];;
  ufor 4 0 (huge_stress path);;
  uexit.

(** ** test_master.c *)

Definition child_argv : list (list (list Z)) :=
  map (map bytes_of) [ ["test_stride"; "20"]; ["test_stride"; "60"]; ["test_mlfq"; "0"]; ["test_mlfq"; "1"] ]%string.

Fixpoint start_children (argvs : list (list (list Z))) : uprog unit :=
  match argvs with
  | [] => mret tt
  | argv :: argvs' =>
      pid ← call SFork;
      if pid >? 0 then start_children argvs'
      else if pid =? 0 then
        _ ← call (SExec (default [] (head argv)) argv);
        printf 1 (line "exec failed!!") [];; uexit
      else printf 1 (line "fork failed!!") [];; uexit
  end.

Definition master_main : uprog unit :=
  start_children child_argv;;
  ufor 4 0 (fun _ => _ ← call SWait; mret tt);;
  uexit.

(** ** test_mlfq.c: between two multiples of [YIELD_PERIOD] a turn only counts *)

Definition LIFETIME : Z := 2000000000.
Definition YIELD_PERIOD : Z := 10000.

Fixpoint mlfq_loop (n : nat) (i : Z) (do_yield : Z) (cnt_level : list Z) : uprog unit :=
  match n with
  | O => UStop
  | S n' =>
      let i := u32 (i + YIELD_PERIOD) in
      curr ← call SGetlev;
      match cnt_level !! Z.to_nat curr with
      | Some c =>
          if curr <? 0 then UStop
          else
            let cnt_level := <[Z.to_nat curr := s32 (c + 1)]> cnt_level in
            if i >? LIFETIME then
              printf 1 (line "MLFQ(%s), lev[0]: %d, lev[1]: %d, lev[2]: %d")
                (AStr (Some (bytes_of (if do_yield =? 0 then "compute" else "yield"))) :: map AInt cnt_level)
            else
              (if negb (do_yield =? 0) then _ ← call SYield; mret tt else mret tt);;
              mlfq_loop n' i do_yield cnt_level
      | None => UStop
      end
  end.

Definition mlfq_main (argv : list (list Z)) : uprog unit :=
  match argv with
  | _ :: a :: _ => mlfq_loop (Z.to_nat (LIFETIME / YIELD_PERIOD + 1)) 0 (atoi a) [0; 0; 0];; uexit
  | _ => printf 1 (line "usage: sched_test_mlfq do_yield_or_not(0|1)") [];; uexit
  end.

(** ** test_stride.c: a turn here is [COUNT_PERIOD] turns of the loop *)

Fixpoint stride_loop (n : nat) (start cnt share : Z) : uprog unit :=
  match n with
  | O => UStop
  | S n' =>
      let cnt := s32 (cnt + 1) in
      curr ← call SUptime;
      if u32 (curr - start) >? 1000 then printf 1 (line "STRIDE(%d%%), cnt: %d") [AInt share; AInt cnt]
      else stride_loop n' start cnt share
  end.

Definition stride_main (n : nat) (argv : list (list Z)) : uprog unit :=
  match argv with
  | _ :: a :: _ =>
      let cpu_share := atoi a in
      r ← call (SSetCpuShare cpu_share);
      if r <? 0 then printf 1 (line "cannot set cpu share") [];; uexit
      else start ← call SUptime; stride_loop n start 0 cpu_share;; uexit
  | _ => printf 1 (line "usage: sched_test_stride cpu_share(%)") [];; uexit
  end.

(** ** forktest against a process table *)

(** The number of children and what was written; the table has room for
    [limit] children, whose pids [pid_of] gives. *)
Record ptab : Type := mk_ptab { pt_kids : Z; pt_out : list Z }.

Definition proc_table (limit : Z) (pid_of : Z -> Z) : handler ptab := fun X c w =>
  match c in sysc X return X * ptab + ptab with
  | SFork => if pt_kids w <? limit then inl (pid_of (pt_kids w), mk_ptab (pt_kids w + 1) (pt_out w)) else inl (-1, w)
  | SWait => if pt_kids w >? 0 then inl (pid_of (pt_kids w - 1), mk_ptab (pt_kids w - 1) (pt_out w)) else inl (-1, w)
  | SWrite _ d => inl (Z.of_nat (length d), mk_ptab (pt_kids w) (pt_out w ++ d))
  | SExit => inr w
  | SRead _ _ => inl ((-1, []), w)
  | SFstat _ => inl ((-1, (0, 0, 0)), w)
  | SPipe => inl ((-1, (0, 0)), w)
  | SOpen _ _ | SClose _ | SDup _ | SExec _ _ | SChdir _ | SMknod _ _ _ | SMkdir _ | SUnlink _
  | SLink _ _ | SKill _ | SSleep _ | SUptime | SMyfunction _ | SYield | SSetCpuShare _ | SGetlev => inl (-1, w)
  end.

Section Forktest.
Context (limit : Z) (pid_of : Z -> Z) (Hpid : forall k, 0 < pid_of k) (Hlimit : 0 <= limit).

Lemma fork_many_run (k : nat) : forall n out, 0 <= n <= limit -> limit - n < Z.of_nat k ->
  urun (proc_table limit pid_of) (fork_many k n) (mk_ptab n out) = UDone limit (mk_ptab limit out).
Proof.
  induction k as [|k IH]; intros n out Hn Hk; [lia|]. cbn [fork_many]. unfold mbind, uprog_bind, call. cbn [ubind urun proc_table pt_kids pt_out].
  destruct (Z.ltb_spec n limit) as [Hl|Hl].
  - cbn. pose proof (Hpid n). rewrite (proj2 (Z.ltb_ge _ _)), (proj2 (Z.eqb_neq _ _)) by lia. apply IH; lia.
  - replace n with limit by lia. reflexivity.
Qed.

Lemma wait_many_run (n : nat) : forall out, urun (proc_table limit pid_of) (wait_many n) (mk_ptab (Z.of_nat n) out) = UDone tt (mk_ptab 0 out).
Proof.
  induction n as [|n IH]; intros out; [reflexivity|]. cbn [wait_many]. unfold mbind, uprog_bind, call. cbn [ubind urun proc_table pt_kids pt_out].
  rewrite Z.gtb_ltb, (proj2 (Z.ltb_lt _ _)) by lia. cbn. pose proof (Hpid (Z.of_nat (S n) - 1)). rewrite (proj2 (Z.ltb_ge _ _)) by lia.
  replace (Z.of_nat (S n) - 1) with (Z.of_nat n) by lia. apply IH.
Qed.

(** [forktest] reports success on every kernel that lets it make fewer than a
    thousand children and then returns each of them from [wait] once. *)
Theorem forktest_accepts : limit < 1000 ->
  urun (proc_table limit pid_of) forktest_main (mk_ptab 0 []) = UExited (mk_ptab 0 (line "fork test" ++ line "fork test OK")).
Proof.
  intros Hl. unfold forktest_main. erewrite urun_bind; [reflexivity|]. unfold forktest. erewrite urun_bind; [|reflexivity].
  assert (H0 : 0 <= 0 <= limit) by lia. assert (H1 : limit - 0 < Z.of_nat 1000) by (change (Z.of_nat 1000) with 1000; lia).
  erewrite urun_bind by (apply (fork_many_run 1000 0 _ H0 H1)). rewrite (proj2 (Z.eqb_neq _ _)) by lia.
  pose proof (wait_many_run (Z.to_nat limit)) as W. rewrite Z2Nat.id in W by exact Hlimit. erewrite urun_bind by apply W. reflexivity.
Qed.
End Forktest.
