(* ===== verification/HostShell.v ===== *)
(** * proj_shell/src/shell.c: a shell for the host

    The program runs on a host with a C library.  Its standard input and the
    batch file are lists of bytes, consumed as [scanf], [getchar] and [fgets]
    do; [fork], [execvp], [wait] and [exit] are calls, and output is written at
    once.  An access outside an array, or through a null pointer, stops the
    program. *)

From S2P Require Import Prelude Params Bytes CString Print User Ulib.

Abbreviation text s := (bytes_of s).

(** ** Words *)

Fixpoint skip_tok (c : Z) (s : list Z) : list Z :=
  match s with
  | [] => []
  | x :: s' => if x =? c then skip_tok c s' else s
  end.

Fixpoint take_tok (c : Z) (s : list Z) : list Z * list Z :=
  match s with
  | [] => ([], [])
  | x :: s' => if x =? c then ([], s') else let '(w, r) := take_tok c s' in (x :: w, r)
  end.

(** [strtok] with one delimiter: the word and where the next call begins. *)
Definition strtok (c : Z) (s : list Z) : option (list Z * list Z) :=
  match skip_tok c s with [] => None | s' => Some (take_tok c s') end.

(** Every word is at least one character, so the length bounds their number. *)
Fixpoint tok_words (n : nat) (c : Z) (s : list Z) : list (list Z) :=
  match n with
  | O => []
  | S n' => match strtok c s with None => [] | Some (w, r) => w :: tok_words n' c r end
  end.

Definition GetNewStrtok (s : list Z) (c : Z) : list (list Z) := tok_words (length s) c s.

Definition ReplaceQuote (s : list Z) : list Z := map (fun c => if (c =? 39) || (c =? 34) then 32 else c) s.

(** ** Commands *)

(** [command[0]] is a null pointer when there is no word. *)
Definition ExecuteChild (s : list Z) : uprog Z :=
  match GetNewStrtok s 32 with
  | [] => UStop
  | (cmd :: _) as command =>
      if bool_decide (cmd = text "quit") then uexit
      else
        pid ← call SFork;
        if pid =? -1 then printf 1 (text ("In opening process,Fatal Error occured. " ++ nl)) [];; mret 1
        else if pid =? 0 then
          _ ← call (SExec cmd command);
          printf 1 (text ("%s is not found!" ++ nl)) [AStr (Some s)];;
          uexit
        else mret 0
  end.

Fixpoint execute_all (cmds : list (list Z)) : uprog unit :=
  match cmds with [] => mret tt | c :: cmds' => _ ← ExecuteChild c; execute_all cmds' end.

Fixpoint wait_for (n : nat) : uprog unit :=
  match n with O => mret tt | S n' => _ ← call SWait; wait_for n' end.

(** The commands of a line run side by side; then the shell waits for all. *)
Definition run_line (s : list Z) : uprog unit :=
  let command := GetNewStrtok s 59 in
  execute_all command;;
  wait_for (length command).

(** ** Batch mode *)

(** [fgets(string, 256, file)]: up to a newline, which is kept, or 255 characters. *)
Fixpoint fgets (n : nat) (s : list Z) : list Z * list Z :=
  match n, s with
  | S n', c :: s' => if c =? 10 then ([c], s') else let '(l, r) := fgets n' s' in (c :: l, r)
  | _, _ => ([], s)
  end.

(** The lines, each without its last character; there is room for 255 and the
    null pointer at the end. *)
Fixpoint read_lines (n : nat) (s : list Z) : uprog (list (list Z)) :=
  match s with
  | [] => mret []
  | _ =>
      match n with
      | O => UStop
      | S n' =>
          let '(l, r) := fgets 255 s in
          match cstr l with
          | [] => UStop
          | z =>
              let l := removelast z in
              printf 1 (text ("%s" ++ nl)) [AStr (Some l)];;
              ls ← read_lines n' r;
              mret (ReplaceQuote l :: ls)
          end
      end
  end.

Fixpoint run_lines (ls : list (list Z)) : uprog unit :=
  match ls with [] => mret tt | l :: ls' => run_line l;; run_lines ls' end.

(** [None]: the file cannot be opened. *)
Definition ExecuteBatch (file : option (list Z)) : uprog Z :=
  match file with
  | None => mret 1
  | Some s => ls ← read_lines 255 s; run_lines ls;; mret 0
  end.

(** ** The loop *)

(** [scanf] with a set that excludes newlines: the line and what is left, with
    the newline; nothing at the end of the input. *)
Fixpoint scan_line (s : list Z) : list Z * list Z :=
  match s with
  | [] => ([], [])
  | c :: s' => if c =? 10 then ([], s) else let '(l, r) := scan_line s' in (c :: l, r)
  end.

(** One turn of the loop for each line; an empty line only gives a new prompt. *)
Fixpoint shell_loop (n : nat) (s : list Z) : uprog Z :=
  match n with
  | O => UStop
  | S n' =>
      printf 1 (text "prompt>") [];;
      match s with
      | [] => printf 1 (text nl) [];; uexit
      | _ =>
          let '(l, r) := scan_line s in
          let r := tail r in
          if (256 <=? Z.of_nat (length l)) then UStop
          else
            match cstr l with
            | [] => shell_loop n' r
            | l =>
                let l := ReplaceQuote l in
                if bool_decide (l = text "quit") then mret 0
                else run_line l;; shell_loop n' r
            end
      end
  end.

(** The arguments, what the named file holds, and the standard input. *)
Definition shell_main (args : list (list Z)) (open : list Z -> option (list Z)) (stdin : list Z) : uprog Z :=
  match args with
  | _ :: f :: _ =>
      r ← ExecuteBatch (open f);
      if negb (r =? 0) then printf 1 (text ("File open error!" ++ nl)) [];; mret 1 else mret 0
  | _ => shell_loop (S (S (length stdin))) stdin
  end.

(** ** The words are the pieces between the delimiters *)

(** The pieces, with the empty ones. *)
Fixpoint pieces (c : Z) (s : list Z) : list (list Z) :=
  match s with
  | [] => [ [] ]
  | x :: s' =>
      if x =? c then [] :: pieces c s'
      else match pieces c s' with [] => [ [x] ] | p :: ps => (x :: p) :: ps end
  end.

Abbreviation nonempty := (fun w : list Z => negb (bool_decide (w = []))).

Lemma pieces_skip (c : Z) (s : list Z) : List.filter nonempty (pieces c (skip_tok c s)) = List.filter nonempty (pieces c s).
Proof. induction s as [|x s IH]; cbn [skip_tok pieces]; [reflexivity|]. destruct (x =? c) eqn:E; [exact IH|]. cbn [pieces]. rewrite E. reflexivity. Qed.

Lemma pieces_take (c : Z) (s : list Z) : let '(w, r) := take_tok c s in
  List.filter nonempty (pieces c s) = List.filter nonempty (w :: pieces c r) /\ exists p ps, pieces c s = p :: ps /\ w = p.
Proof.
  induction s as [|x s IH]; cbn [take_tok pieces].
  { split; [reflexivity|eauto]. }
  destruct (x =? c); [split; [reflexivity|eauto]|]. destruct (take_tok c s) as [w r]. destruct IH as (IH & p & ps & E & ->). rewrite E in *. split; [|eauto].
  cbn [List.filter] in *. destruct p as [|y p]; cbn in *; [f_equal; exact IH|injection IH as ->; reflexivity].
Qed.

Lemma tok_skip_length (c : Z) (s : list Z) : (length (skip_tok c s) <= length s)%nat.
Proof. induction s as [|x s IH]; cbn; [lia|]. destruct (x =? c); cbn; lia. Qed.

Lemma tok_rest_length (c : Z) (s : list Z) : (length (snd (take_tok c s)) <= length s)%nat.
Proof. induction s as [|x s IH]; cbn; [lia|]. destruct (x =? c); [cbn; lia|]. destruct (take_tok c s). cbn in *. lia. Qed.

(** [GetNewStrtok] returns the non-empty pieces in order. *)
Lemma GetNewStrtok_pieces (c : Z) (s : list Z) : GetNewStrtok s c = List.filter nonempty (pieces c s).
Proof.
  unfold GetNewStrtok. assert (H : forall n s, (length s <= n)%nat -> tok_words n c s = List.filter nonempty (pieces c s)); [|apply H; lia].
  clear s. induction n as [|n IH]; intros s Hl; [destruct s; [reflexivity|cbn in Hl; lia]|]. cbn [tok_words]. unfold strtok. rewrite <- (pieces_skip c s).
  pose proof (tok_skip_length c s) as Hs. destruct (skip_tok c s) as [|x s'] eqn:E; [reflexivity|].
  assert (Hx : (x =? c) = false). { clear -E. induction s as [|y s IH]; [discriminate|]. cbn in E. destruct (y =? c) eqn:Ey; [auto|]. injection E as -> ->. exact Ey. }
  pose proof (pieces_take c (x :: s')) as Ht. pose proof (tok_rest_length c s') as Hr. cbn [take_tok] in *. rewrite Hx in *. destruct (take_tok c s') as [w r]. cbn [snd] in Hr.
  destruct Ht as [Ht _]. rewrite Ht. cbn [List.filter]. cbn. f_equal. apply IH. cbn in Hs. lia.
Qed.

(** A command of spaces only: [strcmp] gets a null pointer. *)
Lemma blank_command_stops (n : nat) : ExecuteChild (replicate n 32) = UStop.
Proof.
  unfold ExecuteChild. replace (GetNewStrtok (replicate n 32) 32) with (@nil (list Z)); [reflexivity|].
  rewrite GetNewStrtok_pieces. induction n as [|n IH]; [reflexivity|]. exact IH.
Qed.
