(* ===== verification/Sh.v ===== *)
(** * sh.c: the shell

    The parser works on a buffer; [ps] is an offset into it and [es], the end of
    the string, its length.  A parsed command holds offsets of the starts and
    ends of its words, which [nulterminate] turns into strings by storing zeros
    in the buffer. *)

From S2P Require Import Prelude Params Bytes CString Print User Ulib.

(** ** Commands *)

Record redir : Type := mk_redir { r_file : nat; r_efile : nat; r_mode : Z; r_fd : Z }.

(** The words of [EXEC] are the pairs of [argv[i]] and [eargv[i]]. *)
Inductive cmd : Type :=
| EXEC (args : list (nat * nat))
| REDIR (c : cmd) (r : redir)
| PIPE (left right : cmd)
| LIST (left right : cmd)
| BACK (c : cmd).

Definition MAXARGS : nat := 10.

(** ** Tokens *)

Definition whitespace : list Z := [32; 9; 13; 10; 11].
Definition symbols : list Z := bytes_of "<|>&;()".

Definition is_in (c : Z) (cs : list Z) : bool := bool_decide (is_Some (strchr cs c)).

Definition char_at (s : list Z) (p : nat) : Z := nth p s 0.

(** The loop that skips the characters before [es] that satisfy [f]: how many. *)
Fixpoint span (f : Z -> bool) (l : list Z) : nat :=
  match l with [] => 0%nat | c :: l' => if f c then S (span f l') else 0%nat end.

Definition skip (f : Z -> bool) (s : list Z) (p : nat) : nat := (p + span f (drop p s))%nat.

Definition skip_white (s : list Z) (p : nat) : nat := skip (fun c => is_in c whitespace) s p.

Definition word_char (c : Z) : bool := negb (is_in c whitespace) && negb (is_in c symbols).

(** The kind of token, its start and end, and the place after it. *)
Definition gettoken (s : list Z) (ps : nat) : Z * nat * nat * nat :=
  let q := skip_white s ps in
  let c := char_at s q in
  let '(ret, eq) :=
    if c =? 0 then (0, q)
    else if is_in c (bytes_of "|();&<") then (c, S q)
    else if c =? 62 then if char_at s (S q) =? 62 then (43, S (S q)) else (c, S q)
    else (97, skip word_char s q) in
  (ret, q, eq, skip_white s eq).

Definition peek (s : list Z) (ps : nat) (toks : string) : bool * nat :=
  let p := skip_white s ps in
  (negb (char_at s p =? 0) && is_in (char_at s p) (bytes_of toks), p).

(** ** The parser

    A call ends with a result and the new [*ps], or calls [panic]. *)
Inductive pres (A : Type) : Type :=
| POk (a : A) (p : nat)
| PPanic (msg : string)
| PFuel.

#[global] Arguments POk {A} a p.
#[global] Arguments PPanic {A} msg.
#[global] Arguments PFuel {A}.

Definition pbind {A B : Type} (r : pres A) (f : A -> nat -> pres B) : pres B :=
  match r with POk a p => f a p | PPanic m => PPanic m | PFuel => PFuel end.

Notation "'let*' ( x , p ) := m 'in' k" := (pbind m (fun x p => k)) (at level 200, x binder, p binder, right associativity).

(** The redirections around a command, the first one innermost. *)
Definition wrap (rs : list redir) (c : cmd) : cmd := foldl REDIR c rs.

Section Parser.
Context (s : list Z).

(** [parseredirs(cmd)] wraps its argument in the redirections found here. *)
Fixpoint parseredirs (n : nat) (ps : nat) : pres (list redir) :=
  match n with
  | O => PFuel
  | S n' =>
      let '(found, ps) := peek s ps "<>" in
      if negb found then POk [] ps
      else
        let '(tok, _, _, ps) := gettoken s ps in
        let '(tok2, q, eq, ps) := gettoken s ps in
        if negb (tok2 =? 97) then PPanic "missing file for redirection"
        else
          let rs := if tok =? 60 then [mk_redir q eq O_RDONLY 0]
            else if (tok =? 62) || (tok =? 43) then [mk_redir q eq (Z.lor O_WRONLY O_CREATE) 1]
            else [] in
          let* (rs', ps) := parseredirs n' ps in POk (rs ++ rs') ps
  end.

(** The loop of [parseexec].  [cmd] points to the exec command inside the
    redirections around it, so the words and the redirections grow apart. *)
Fixpoint parseargs (n : nat) (args : list (nat * nat)) (rs : list redir) (ps : nat) : pres cmd :=
  match n with
  | O => PFuel
  | S n' =>
      let '(found, ps) := peek s ps "|)&;" in
      if found then POk (wrap rs (EXEC args)) ps
      else
        let '(tok, q, eq, ps) := gettoken s ps in
        if tok =? 0 then POk (wrap rs (EXEC args)) ps
        else if negb (tok =? 97) then PPanic "syntax"
        else
          let args := args ++ [(q, eq)] in
          if (MAXARGS <=? length args)%nat then PPanic "too many args"
          else let* (rs', ps) := parseredirs n' ps in parseargs n' args (rs ++ rs') ps
  end.

(** [while(peek(ps, es, "&"))] of [parseline]. *)
Fixpoint parseback (n : nat) (c : cmd) (ps : nat) : pres cmd :=
  match n with
  | O => PFuel
  | S n' =>
      let '(found, ps) := peek s ps "&" in
      if found then let '(_, _, _, ps) := gettoken s ps in parseback n' (BACK c) ps else POk c ps
  end.

Fixpoint parseline (n : nat) (ps : nat) : pres cmd :=
  match n with
  | O => PFuel
  | S n' =>
      let* (c, ps) := parsepipe n' ps in
      let* (c, ps) := parseback n' c ps in
      let '(found, ps) := peek s ps ";" in
      if found then
        let '(_, _, _, ps) := gettoken s ps in
        let* (r, ps) := parseline n' ps in POk (LIST c r) ps
      else POk c ps
  end
with parsepipe (n : nat) (ps : nat) : pres cmd :=
  match n with
  | O => PFuel
  | S n' =>
      let* (c, ps) := parseexec n' ps in
      let '(found, ps) := peek s ps "|" in
      if found then
        let '(_, _, _, ps) := gettoken s ps in
        let* (r, ps) := parsepipe n' ps in POk (PIPE c r) ps
      else POk c ps
  end
with parseexec (n : nat) (ps : nat) : pres cmd :=
  match n with
  | O => PFuel
  | S n' =>
      let '(found, ps) := peek s ps "(" in
      if found then parseblock n' ps
      else let* (rs, ps) := parseredirs n' ps in parseargs n' [] rs ps
  end
with parseblock (n : nat) (ps : nat) : pres cmd :=
  match n with
  | O => PFuel
  | S n' =>
      let '(found, ps) := peek s ps "(" in
      if negb found then PPanic "parseblock"
      else
        let '(_, _, _, ps) := gettoken s ps in
        let* (c, ps) := parseline n' ps in
        let '(found, ps) := peek s ps ")" in
        if negb found then PPanic "syntax - missing )"
        else
          let '(_, _, _, ps) := gettoken s ps in
          let* (rs, ps) := parseredirs n' ps in POk (wrap rs c) ps
  end.

(** [parsecmd] up to the call of [nulterminate]; the fuel is enough for every
    input ([parse_returns]). *)
Definition parse : pres cmd :=
  let* (c, ps) := parseline (4 * length s + 5) 0 in
  let '(_, ps) := peek s ps "" in
  if negb (ps =? length s)%nat then PPanic "syntax" else POk c ps.

End Parser.

(** ** [nulterminate] on the buffer [b] *)
Fixpoint nulterminate (c : cmd) (b : list Z) : list Z :=
  match c with
  | EXEC args => foldl (fun b a => <[a.2 := 0]> b) b args
  | REDIR c r => <[r_efile r := 0]> (nulterminate c b)
  | PIPE l r | LIST l r => nulterminate r (nulterminate l b)
  | BACK c => nulterminate c b
  end.

(** ** Tokens: what they consume *)

Lemma is_in_elem (c : Z) (cs : list Z) : is_in c cs = true <-> c ∈ cs.
Proof.
  unfold is_in. rewrite bool_decide_eq_true. induction cs as [|x cs IH]; cbn [strchr].
  - split; [intros [? ?]; discriminate|set_solver].
  - destruct (Z.eqb_spec x c) as [->|N]; [split; [set_solver|eauto]|].
    rewrite elem_of_cons, fmap_is_Some, IH. intuition congruence.
Qed.

Lemma char_at_end (s : list Z) (p : nat) : (length s <= p)%nat -> char_at s p = 0.
Proof. intros H. unfold char_at. apply nth_overflow. exact H. Qed.

Lemma char_at_lt (s : list Z) (p : nat) : char_at s p <> 0 -> (p < length s)%nat.
Proof. intros H. destruct (decide (p < length s)%nat); [assumption|]. rewrite char_at_end in H by lia. congruence. Qed.

Lemma drop_char (s : list Z) (p : nat) : (p < length s)%nat -> drop p s = char_at s p :: drop (S p) s.
Proof.
  intros H. destruct (lookup_lt_is_Some_2 s p H) as [x Hx]. rewrite (drop_S s x p Hx). unfold char_at.
  rewrite (nth_lookup_Some _ _ _ _ Hx). reflexivity.
Qed.

Lemma span_le (f : Z -> bool) (l : list Z) : (span f l <= length l)%nat.
Proof. induction l as [|c l IH]; cbn; [lia|]. destruct (f c); lia. Qed.

Lemma span_all (f : Z -> bool) (l : list Z) : Forall (fun c => f c = true) (take (span f l) l).
Proof. induction l as [|c l IH]; cbn; [constructor|]. destruct (f c) eqn:E; cbn; [constructor; assumption|constructor]. Qed.

Lemma span_stop (f : Z -> bool) (l : list Z) : span f (drop (span f l) l) = 0%nat.
Proof. induction l as [|c l IH]; [reflexivity|]. cbn [span]. destruct (f c) eqn:E; cbn [drop]; [exact IH|]. cbn. rewrite E. reflexivity. Qed.

Section Skip.
Context (f : Z -> bool) (s : list Z) (p : nat).
Hypothesis Hp : (p <= length s)%nat.

Lemma skip_range : (p <= skip f s p <= length s)%nat.
Proof. unfold skip. pose proof (span_le f (drop p s)). rewrite length_drop in *. lia. Qed.

Lemma skip_idem : skip f s (skip f s p) = skip f s p.
Proof. clear Hp. unfold skip. rewrite <- drop_drop, span_stop. lia. Qed.

(** The character the loop stops at. *)
Lemma skip_char : (skip f s p < length s)%nat -> f (char_at s (skip f s p)) = false.
Proof.
  intros H. pose proof skip_idem as E. unfold skip at 1 in E. rewrite (drop_char _ _ H) in E. cbn [span] in E.
  destruct (f _); [lia|reflexivity].
Qed.

Lemma skip_next : (p < length s)%nat -> f (char_at s p) = true -> (p < skip f s p)%nat.
Proof. clear Hp. intros H E. unfold skip. rewrite (drop_char _ _ H). cbn [span]. rewrite E. lia. Qed.
End Skip.

Section Tokens.
Context (s : list Z).

Lemma peek_spec (p : nat) (toks : string) (b : bool) (p' : nat) :
  (p <= length s)%nat -> peek s p toks = (b, p') ->
  (p <= p' <= length s)%nat /\ p' = skip_white s p /\
  (b = true <-> (p' < length s)%nat /\ char_at s p' <> 0 /\ char_at s p' ∈ bytes_of toks).
Proof.
  intros Hp E. injection E as <- <-. split_and!; [apply skip_range, Hp..|reflexivity|].
  rewrite andb_true_iff, negb_true_iff, Z.eqb_neq, is_in_elem.
  split; [intros [H1 H2]; auto using char_at_lt|tauto].
Qed.

Lemma not_symbol (c : Z) : is_in c (bytes_of "|();&<") = false -> c <> 62 -> is_in c symbols = false.
Proof.
  intros H N. apply not_true_iff_false. apply not_true_iff_false in H. rewrite is_in_elem in *.
  intros HE. apply H. unfold symbols in HE. cbn in *. set_solver.
Qed.

(** Where a token lies; it is empty only at the end, and a word has only word
    characters. *)
Lemma gettoken_spec (p : nat) (t : Z) (q eq p' : nat) :
  (p <= length s)%nat -> gettoken s p = (t, q, eq, p') ->
  (p <= q)%nat /\ (q <= eq)%nat /\ (eq <= p')%nat /\ (p' <= length s)%nat /\ q = skip_white s p /\ p' = skip_white s eq /\
  (t = 0 -> q = eq /\ char_at s q = 0) /\ (t <> 0 -> (q < eq)%nat).
Proof.
  intros Hp. unfold gettoken. set (q0 := skip_white s p).
  assert (Hq : (p <= q0 <= length s)%nat) by (apply skip_range, Hp).
  assert (K : forall t0 e, (q0 <= e <= length s)%nat -> (t0 = 0 -> q0 = e /\ char_at s q0 = 0) -> (t0 <> 0 -> (q0 < e)%nat) ->
    (t0, q0, e, skip_white s e) = (t, q, eq, p') -> (p <= q)%nat /\ (q <= eq)%nat /\ (eq <= p')%nat /\ (p' <= length s)%nat /\
    q = q0 /\ p' = skip_white s eq /\ (t = 0 -> q = eq /\ char_at s q = 0) /\ (t <> 0 -> (q < eq)%nat)).
  { intros t0 e He H1 H2 [= <- <- <- <-]. pose proof (skip_range (fun c => is_in c whitespace) s e) as Hr.
    unfold skip_white. split_and!; try tauto; try lia. }
  destruct (Z.eqb_spec (char_at s q0) 0) as [E0|N0]; [apply K; auto; lia|].
  pose proof (char_at_lt _ _ N0) as Hlt.
  destruct (is_in _ (bytes_of "|();&<")) eqn:E1; [apply K; [lia|congruence|lia]|].
  destruct (Z.eqb_spec (char_at s q0) 62) as [E2|N2].
  - destruct (Z.eqb_spec (char_at s (S q0)) 62) as [E3|N3]; [|apply K; [lia|congruence|lia]].
    assert (char_at s (S q0) <> 0) as H%char_at_lt by congruence. apply K; [lia|discriminate|lia].
  - assert (W : word_char (char_at s q0) = true).
    { unfold word_char. rewrite not_symbol by assumption.
      pose proof (skip_char (fun c => is_in c whitespace) s p) as Hw. cbv beta in Hw. fold (skip_white s p) in Hw. fold q0 in Hw.
      rewrite Hw by assumption. reflexivity. }
    pose proof (skip_range word_char s q0 ltac:(lia)). pose proof (skip_next word_char s q0 Hlt W).
    apply K; [lia|discriminate|lia].
Qed.

(** After a successful [peek] a token is there. *)
Lemma peek_gettoken (p : nat) (toks : string) (p1 : nat) (t : Z) (q eq p2 : nat) :
  (p <= length s)%nat -> peek s p toks = (true, p1) -> gettoken s p1 = (t, q, eq, p2) -> (p < p2 <= length s)%nat.
Proof.
  intros Hp E1 E2. destruct (peek_spec p toks true p1 Hp E1) as (H1 & H2 & H3). destruct H3 as [H3 _].
  destruct H3 as (_ & Hc & _); [reflexivity|].
  destruct (gettoken_spec p1 t q eq p2 ltac:(lia) E2) as (G1 & G2 & G3 & G4 & G5 & _ & G6 & G7).
  assert (Eq : q = p1) by (rewrite G5, H2; apply skip_idem).
  destruct (decide (t = 0)) as [T|T]; [destruct (G6 T); congruence|]. specialize (G7 T). lia.
Qed.
End Tokens.

(** ** The parser returns *)

Section Returns.
Context (s : list Z).

(** A call that began at [p] returned, and did not go back. *)
Definition returns {A : Type} (r : pres A) (p : nat) : Prop :=
  match r with POk _ p' => (p <= p' <= length s)%nat | PPanic _ => True | PFuel => False end.

Lemma returns_bind {A B : Type} (r : pres A) (f : A -> nat -> pres B) (p p1 : nat) :
  returns r p1 -> (forall a p', (p1 <= p' <= length s)%nat -> returns (f a p') p) -> returns (pbind r f) p.
Proof. destruct r as [a p'|m|]; cbn; auto. Qed.

Lemma returns_le {A : Type} (r : pres A) (p p' : nat) : returns r p' -> (p <= p')%nat -> returns r p.
Proof. destruct r; cbn; auto. lia. Qed.

Ltac peek_step p :=
  let b := fresh "b" in let p1 := fresh "p" in let E := fresh "E" in
  destruct (peek s p _) as [b p1] eqn:E;
  let H := fresh "H" in pose proof (proj1 (peek_spec s p _ _ _ ltac:(lia) E)) as H; destruct b; cbn [negb].

Ltac token_after p :=
  let t := fresh "t" in let q := fresh "q" in let e := fresh "e" in let p1 := fresh "p" in let E := fresh "E" in
  destruct (gettoken s p) as [ [ [t q] e ] p1 ] eqn:E;
  match goal with Hp : peek s ?p0 _ = (true, p) |- _ =>
    let H := fresh "H" in pose proof (peek_gettoken s p0 _ _ _ _ _ _ ltac:(lia) Hp E) as H end.

Lemma parseredirs_returns (n : nat) : forall p, (p <= length s)%nat -> (length s - p < n)%nat -> returns (parseredirs s n p) p.
Proof.
  induction n as [|n IH]; intros p Hp Hn; [lia|]. cbn [parseredirs]. peek_step p; [|cbn; lia]. token_after p0.
  destruct (gettoken s p1) as [ [ [t2 q2] e2 ] p2 ] eqn:E2.
  pose proof (gettoken_spec s p1 _ _ _ _ ltac:(lia) E2) as (G1 & G2 & G3 & G4 & _).
  destruct (negb _); [exact I|]. apply (returns_bind _ _ _ p2); [apply IH; lia|]. cbn. intros; lia.
Qed.

Lemma parseargs_returns (n : nat) : forall args rs p, (p <= length s)%nat -> (length s - p < n)%nat ->
  returns (parseargs s n args rs p) p.
Proof.
  induction n as [|n IH]; intros args rs p Hp Hn; [lia|]. cbn [parseargs]. peek_step p; [cbn; lia|].
  destruct (gettoken s p0) as [ [ [t q] e ] p1 ] eqn:E2.
  pose proof (gettoken_spec s p0 _ _ _ _ ltac:(lia) E2) as (G1 & G2 & G3 & G4 & _ & _ & _ & G7).
  destruct (Z.eqb_spec t 0) as [T|T]; [cbn; lia|]. specialize (G7 T).
  destruct (negb _); [exact I|]. destruct (_ <=? _)%nat; [exact I|].
  apply (returns_bind _ _ _ p1); [apply parseredirs_returns; lia|].
  intros rs' p' Hp'. eapply returns_le; [apply IH; lia|lia].
Qed.

Lemma parseback_returns (n : nat) : forall c p, (p <= length s)%nat -> (length s - p < n)%nat -> returns (parseback s n c p) p.
Proof.
  induction n as [|n IH]; intros c p Hp Hn; [lia|]. cbn [parseback]. peek_step p; [|cbn; lia]. token_after p0.
  eapply returns_le; [apply IH; lia|lia].
Qed.

(** The fuel each of the four needs at offset [p]; at a parenthesis, a pipe or a
    semicolon the parser has moved on before it calls itself. *)
Lemma parser_returns (n : nat) : forall p, (p <= length s)%nat ->
  ((4 * (length s - p) + 4 <= n)%nat -> returns (parseline s n p) p) /\
  ((4 * (length s - p) + 3 <= n)%nat -> returns (parsepipe s n p) p) /\
  ((4 * (length s - p) + 2 <= n)%nat -> returns (parseexec s n p) p) /\
  ((4 * (length s - p) + 1 <= n)%nat -> returns (parseblock s n p) p).
Proof.
  induction n as [|n IH]; intros p Hp; [split_and!; lia|].
  split_and!; intros Hn; cbn [parseline parsepipe parseexec parseblock].
  - apply (returns_bind _ _ _ p); [apply IH; lia|]. intros c p1 H1.
    apply (returns_bind _ _ _ p1); [apply parseback_returns; lia|]. intros c2 p2 H2.
    peek_step p2; [|cbn; lia]. token_after p0.
    apply (returns_bind _ _ _ p3); [apply IH; lia|]. intros; cbn; lia.
  - apply (returns_bind _ _ _ p); [apply IH; lia|]. intros c p1 H1.
    peek_step p1; [|cbn; lia]. token_after p0.
    apply (returns_bind _ _ _ p2); [apply IH; lia|]. intros; cbn; lia.
  - peek_step p; [eapply returns_le; [apply IH; lia|lia]|].
    apply (returns_bind _ _ _ p0); [apply parseredirs_returns; lia|]. intros rs p1 H1.
    eapply returns_le; [apply parseargs_returns; lia|lia].
  - peek_step p; [|exact I]. token_after p0.
    apply (returns_bind _ _ _ p1); [apply IH; lia|]. intros c p2 H2.
    peek_step p2; [|exact I]. token_after p3.
    apply (returns_bind _ _ _ p4); [apply parseredirs_returns; lia|]. intros; cbn; lia.
Qed.
End Returns.

(** C37. The shell's parser terminates: on every line of input [parsecmd] ends
    with a command or with a call of [panic], within a number of nested calls and
    loop turns that is linear in the length of the line.  Whatever the line is,
    no offset leaves the buffer. *)
Theorem parse_returns (s : list Z) :
  match parse s with
  | POk c p => p = length s
  | PPanic msg => True
  | PFuel => False
  end.
Proof.
  unfold parse. pose proof (proj1 (parser_returns s (4 * length s + 5) 0 ltac:(lia)) ltac:(lia)) as H.
  destruct (parseline s _ 0) as [c p|m|]; cbn in *; [|exact I|exact H].
  destruct (Nat.eqb_spec (skip_white s p) (length s)); cbn; auto.
Qed.
