(* ===== verification/ShSyntax.v ===== *)
(** * The language of the shell

    Command lines as trees, printed with a space after each token, and the
    parser of Sh.v reads them back. *)

From S2P Require Import Prelude Params Bytes CString Print User Ulib Sh.

(** ** Commands with their words *)

Inductive tree : Type :=
| TExec (args : list (list Z))
| TRedir (t : tree) (file : list Z) (mode fd : Z)
| TPipe (l r : tree)
| TList (l r : tree)
| TBack (t : tree).

Definition text_at (s : list Z) (q eq : nat) : list Z := take (eq - q) (drop q s).

(** The command the offsets of a parsed command stand for. *)
Fixpoint resolve (s : list Z) (c : cmd) : tree :=
  match c with
  | EXEC args => TExec (map (fun a => text_at s a.1 a.2) args)
  | REDIR c r => TRedir (resolve s c) (text_at s (r_file r) (r_efile r)) (r_mode r) (r_fd r)
  | PIPE l r => TPipe (resolve s l) (resolve s r)
  | LIST l r => TList (resolve s l) (resolve s r)
  | BACK c => TBack (resolve s c)
  end.

(** ** Tokens *)

Inductive token : Type := Word (w : list Z) | Sym (c : Z) | More.

Definition token_text (t : token) : list Z := match t with Word w => w | Sym c => [c] | More => [62; 62] end.
Definition token_kind (t : token) : Z := match t with Word _ => 97 | Sym c => c | More => 43 end.

Definition word_ok (w : list Z) : Prop := w <> [] /\ Forall (fun c => word_char c = true /\ c <> 0) w.
Definition token_ok (t : token) : Prop :=
  match t with Word w => word_ok w | Sym c => c ∈ symbols | More => True end.

Definition render (ts : list token) : list Z := concat (map (fun t => token_text t ++ [32]) ts).

Lemma render_app (a b : list token) : render (a ++ b) = render a ++ render b.
Proof. unfold render. rewrite map_app, concat_app. reflexivity. Qed.

Lemma render_cons (t : token) (b : list token) : render (t :: b) = token_text t ++ 32 :: render b.
Proof. unfold render. cbn. rewrite <- app_assoc. reflexivity. Qed.

Definition starts (t : token) (toks : string) : bool := is_in (nth 0 (token_text t) 0) (bytes_of toks).

Lemma token_first (t : token) : token_ok t -> exists c w, token_text t = c :: w /\ c <> 0 /\ is_in c whitespace = false.
Proof.
  destruct t as [w|c|]; cbn.
  - intros [Hn HF]. destruct w as [|c w]; [congruence|]. apply Forall_cons in HF as [ [H1 H2] _ ].
    exists c, w. unfold word_char in H1. apply andb_true_iff in H1 as [H1 _]. apply negb_true_iff in H1. auto.
  - intros H. exists c, []. split; [reflexivity|].
    assert (Forall (fun c => c <> 0 /\ is_in c whitespace = false) symbols) as HF by (repeat constructor; discriminate).
    rewrite Forall_forall in HF. auto.
  - intros _. exists 62, [62]. split_and!; [reflexivity|discriminate|reflexivity].
Qed.

Lemma span_app_stop (f : Z -> bool) (a b : list Z) (c : Z) :
  Forall (fun x => f x = true) a -> f c = false -> span f (a ++ c :: b) = length a.
Proof. intros HF Hc. induction HF as [|x a Hx HF IH]; cbn; [rewrite Hc; reflexivity|]. rewrite Hx, IH. reflexivity. Qed.

Lemma nth_app_length (a b : list Z) (k : nat) : nth (length a + k) (a ++ b) 0 = nth k b 0.
Proof. rewrite app_nth2 by lia. f_equal. lia. Qed.

(** The parser stands before the tokens [b] of the line [a ++ b]. *)
Section At.
Context (a b : list token).
Hypothesis Hok : Forall token_ok (a ++ b).

Abbreviation s := (render (a ++ b)).
Abbreviation p := (length (render a)).

Lemma at_drop : drop p s = render b.
Proof. rewrite render_app. apply drop_app_length. Qed.

Lemma at_char (k : nat) : char_at s (p + k) = nth k (render b) 0.
Proof. unfold char_at. rewrite render_app. apply nth_app_length. Qed.

Lemma white_render (ts : list token) : Forall token_ok ts -> span (fun c => is_in c whitespace) (render ts) = 0%nat.
Proof.
  intros HF. destruct HF as [|t ts Ht HF]; [reflexivity|]. rewrite render_cons.
  destruct (token_first t Ht) as (c & w & -> & _ & E). cbn [app span]. rewrite E. reflexivity.
Qed.

Lemma at_skip : skip_white s p = p.
Proof.
  unfold skip_white, skip. rewrite at_drop, white_render; [lia|]. apply Forall_app in Hok. apply Hok.
Qed.

Lemma at_peek (toks : string) : peek s p toks = (match b with [] => false | t :: _ => starts t toks end, p).
Proof.
  unfold peek. rewrite at_skip. f_equal. rewrite <- (Nat.add_0_r p), at_char. apply Forall_app in Hok as [_ HF].
  destruct HF as [|t ts Ht HF]; [reflexivity|]. rewrite render_cons. unfold starts.
  destruct (token_first t Ht) as (c & w & -> & N & _). cbn. destruct (Z.eqb_spec c 0); [congruence|reflexivity].
Qed.
End At.

Section Next.
Context (a : list token) (t : token) (b : list token).
Hypothesis Hok : Forall token_ok (a ++ t :: b).

Abbreviation s := (render (a ++ t :: b)).
Abbreviation p := (length (render a)).

Lemma next_length : length (render (a ++ [t])) = (p + length (token_text t) + 1)%nat.
Proof. rewrite render_app, render_cons, !length_app. cbn [length render map concat]. lia. Qed.

(** The white space after the token. *)
Lemma next_skip : skip_white s (p + length (token_text t)) = length (render (a ++ [t])).
Proof.
  unfold skip_white, skip. rewrite render_app, drop_app_add, render_cons, drop_app_length. cbn [span].
  change (is_in 32 whitespace) with true. cbn. rewrite white_render, next_length; [cbn; lia|].
  apply Forall_app in Hok as [_ H]. apply Forall_cons in H. apply H.
Qed.

Lemma next_token : gettoken s p = (token_kind t, p, (p + length (token_text t))%nat, length (render (a ++ [t]))).
Proof.
  unfold gettoken. rewrite at_skip by exact Hok.
  assert (C0 : char_at s p = nth 0 (token_text t) 0).
  { rewrite <- (Nat.add_0_r p), at_char, render_cons. apply Forall_app in Hok as [_ H]. apply Forall_cons in H as [Ht _].
    destruct (token_first t Ht) as (c & w & -> & _). reflexivity. }
  assert (C1 : char_at s (S p) = nth 1 (token_text t ++ 32 :: render b) 0).
  { rewrite <- Nat.add_1_r, at_char, render_cons. reflexivity. }
  assert (Ht : token_ok t) by (apply Forall_app in Hok as [_ H]; apply Forall_cons in H; apply H).
  rewrite C0, C1, <- next_skip. destruct t as [w|c|]; cbn [token_text token_kind nth length app] in *.
  - destruct Ht as [Hn HF]. destruct w as [|c w]; [congruence|]. cbn [nth].
    pose proof HF as HF'. apply Forall_cons in HF' as [ [W N] _ ]. destruct (Z.eqb_spec c 0); [congruence|].
    assert (NS : c ∉ symbols).
    { unfold word_char in W. apply andb_true_iff in W as [_ W]. apply negb_true_iff in W. intros H.
      apply is_in_elem in H. congruence. }
    destruct (is_in c (bytes_of "|();&<")) eqn:E; [apply is_in_elem in E; destruct NS; unfold symbols; cbn in *; set_solver|].
    destruct (Z.eqb_spec c 62) as [->|_]; [destruct NS; unfold symbols; cbn; set_solver|].
    assert (SW : skip word_char (render (a ++ Word (c :: w) :: b)) p = (p + length (c :: w))%nat).
    { unfold skip. rewrite at_drop, render_cons. cbn [token_text]. rewrite span_app_stop; [reflexivity| |reflexivity].
      eapply Forall_impl; [exact HF|]. cbn. tauto. }
    rewrite SW. reflexivity.
  - unfold symbols in Ht. cbn in Ht. rewrite !elem_of_cons, elem_of_nil in Ht.
    destruct Ht as [ -> | [ -> | [ -> | [ -> | [ -> | [ -> | [ -> | [] ] ] ] ] ] ] ]; rewrite Nat.add_1_r; reflexivity.
  - replace (p + 2)%nat with (S (S p)) by lia. reflexivity.
Qed.
End Next.

Lemma end_token (a : list token) : Forall token_ok a ->
  gettoken (render a) (length (render a)) = (0, length (render a), length (render a), length (render a)).
Proof.
  intros Hok. pose proof (at_skip a [] ltac:(rewrite app_nil_r; exact Hok)) as E. rewrite app_nil_r in E.
  unfold gettoken. rewrite E, char_at_end by lia. cbn. rewrite E. reflexivity.
Qed.

Lemma at_text (a : list token) (t : token) (b : list token) :
  text_at (render (a ++ t :: b)) (length (render a)) (length (render a) + length (token_text t)) = token_text t.
Proof.
  unfold text_at. rewrite at_drop, render_cons. replace (_ + _ - _)%nat with (length (token_text t)) by lia.
  apply take_app_length.
Qed.

(** ** Grammar *)

Inductive gkind : Type := GIn | GOut | GAppend.
Record gredir : Type := mk_gredir { g_kind : gkind; g_file : list Z }.

(** line: pipe {&} [; line].  pipe: exec [| pipe].  exec: ( line ) {redir} or
    {redir} {word {redir}}. *)
Inductive gline : Type :=
| GEnd (p : gpipe) (amps : nat)
| GSeq (p : gpipe) (amps : nat) (l : gline)
with gpipe : Type :=
| GOne (e : gexec)
| GPipe (e : gexec) (p : gpipe)
with gexec : Type :=
| GBlock (l : gline) (rs : list gredir)
| GExec (rs : list gredir) (args : list (list Z * list gredir)).

Definition redir_tokens (r : gredir) : list token :=
  [match g_kind r with GIn => Sym 60 | GOut => Sym 62 | GAppend => More end; Word (g_file r)].
Definition redirs_tokens (rs : list gredir) : list token := concat (map redir_tokens rs).
Definition args_tokens (args : list (list Z * list gredir)) : list token :=
  concat (map (fun w => Word w.1 :: redirs_tokens w.2) args).

Fixpoint line_tokens (l : gline) : list token :=
  match l with
  | GEnd p k => pipe_tokens p ++ replicate k (Sym 38)
  | GSeq p k l => pipe_tokens p ++ replicate k (Sym 38) ++ Sym 59 :: line_tokens l
  end
with pipe_tokens (p : gpipe) : list token :=
  match p with
  | GOne e => exec_tokens e
  | GPipe e p => exec_tokens e ++ Sym 124 :: pipe_tokens p
  end
with exec_tokens (e : gexec) : list token :=
  match e with
  | GBlock l rs => Sym 40 :: line_tokens l ++ Sym 41 :: redirs_tokens rs
  | GExec rs args => redirs_tokens rs ++ args_tokens args
  end.

Definition redir_tree (t : tree) (r : gredir) : tree :=
  match g_kind r with
  | GIn => TRedir t (g_file r) O_RDONLY 0
  | GOut | GAppend => TRedir t (g_file r) (Z.lor O_WRONLY O_CREATE) 1
  end.

Fixpoint line_tree (l : gline) : tree :=
  match l with
  | GEnd p k => Nat.iter k TBack (pipe_tree p)
  | GSeq p k l => TList (Nat.iter k TBack (pipe_tree p)) (line_tree l)
  end
with pipe_tree (p : gpipe) : tree :=
  match p with
  | GOne e => exec_tree e
  | GPipe e p => TPipe (exec_tree e) (pipe_tree p)
  end
with exec_tree (e : gexec) : tree :=
  match e with
  | GBlock l rs => foldl redir_tree (line_tree l) rs
  | GExec rs args => foldl redir_tree (TExec (map fst args)) (rs ++ concat (map snd args))
  end.

(** At most nine words. *)
Fixpoint line_ok (l : gline) : Prop :=
  match l with GEnd p _ => pipe_ok p | GSeq p _ l => pipe_ok p /\ line_ok l end
with pipe_ok (p : gpipe) : Prop :=
  match p with GOne e => exec_ok e | GPipe e p => exec_ok e /\ pipe_ok p end
with exec_ok (e : gexec) : Prop :=
  match e with GBlock l _ => line_ok l | GExec _ args => (length args < MAXARGS)%nat end.

(** ** The parser on a printed line

    [stops b toks]: the next token does not begin with one of [toks]. *)
Definition stops (b : list token) (toks : string) : Prop := match b with [] => True | t :: _ => starts t toks = false end.

(** What may follow a command of each kind: the end or one of [toks]. *)
Definition follows (b : list token) (toks : string) : Prop := match b with [] => True | t :: _ => starts t toks = true end.

Definition redir_text (s : list Z) (r : redir) : list Z * Z * Z := (text_at s (r_file r) (r_efile r), r_mode r, r_fd r).
Definition gredir_text (r : gredir) : list Z * Z * Z :=
  match g_kind r with GIn => (g_file r, O_RDONLY, 0) | _ => (g_file r, Z.lor O_WRONLY O_CREATE, 1) end.

Lemma resolve_wrap (s : list Z) (rs : list redir) (grs : list gredir) : forall c t,
  map (redir_text s) rs = map gredir_text grs -> resolve s c = t -> resolve s (wrap rs c) = foldl redir_tree t grs.
Proof.
  revert grs. induction rs as [|r rs IH]; intros [|g grs] c t H E; try discriminate H; [exact E|].
  cbn [map] in H. injection H as H1 H2. unfold wrap. cbn [foldl]. apply (IH grs); [exact H2|].
  cbn [resolve]. unfold redir_text, gredir_text, redir_tree in *. rewrite E. destruct (g_kind g); congruence.
Qed.

Section Parse.
Context (s : list Z).

Abbreviation P a := (length (render a)).
Abbreviation room n a := (length s - P a < n)%nat.

Lemma P_app (a b : list token) : (P a <= P (a ++ b))%nat.
Proof. rewrite render_app, length_app. lia. Qed.

Lemma P_cons (a b : list token) (t : token) : (P a < P (a ++ t :: b))%nat.
Proof. rewrite render_app, length_app, render_cons, length_app. cbn. lia. Qed.

Lemma P_max (a b : list token) : s = render (a ++ b) -> (P a <= length s)%nat.
Proof. intros ->. apply P_app. Qed.

Lemma redirs_parse (rs : list gredir) : forall a b n, s = render (a ++ redirs_tokens rs ++ b) ->
  Forall token_ok (a ++ redirs_tokens rs ++ b) -> stops b "<>" -> room n a ->
  exists rs', parseredirs s n (P a) = POk rs' (P (a ++ redirs_tokens rs)) /\ map (redir_text s) rs' = map gredir_text rs.
Proof.
  induction rs as [|r rs IH]; intros a b n Es Hok Hb Hn; (destruct n as [|n]; [lia|]); cbn [parseredirs].
  - cbn [redirs_tokens map concat app] in *. rewrite Es, at_peek by exact Hok. exists []. rewrite app_nil_r.
    destruct b as [|t b]; [auto|]. cbn in Hb. rewrite Hb. auto.
  - change (redirs_tokens (r :: rs)) with (redir_tokens r ++ redirs_tokens rs) in *.
    set (k := match g_kind r with GIn => Sym 60 | GOut => Sym 62 | GAppend => More end) in *.
    assert (Er : redir_tokens r = [k; Word (g_file r)]) by reflexivity. rewrite Er in *. cbn [app] in *.
    set (tl := redirs_tokens rs ++ b) in *.
    assert (E1 : s = render ((a ++ [k]) ++ Word (g_file r) :: tl)) by (rewrite <- app_assoc; exact Es).
    assert (E2 : s = render ((a ++ [k; Word (g_file r)]) ++ tl)) by (rewrite <- app_assoc; exact Es).
    assert (O1 : Forall token_ok ((a ++ [k]) ++ Word (g_file r) :: tl)) by (rewrite <- app_assoc; exact Hok).
    assert (O2 : Forall token_ok ((a ++ [k; Word (g_file r)]) ++ tl)) by (rewrite <- app_assoc; exact Hok).
    rewrite Es, at_peek by exact Hok. replace (starts k "<>") with true by (unfold k; destruct (g_kind r); reflexivity).
    cbn [negb]. rewrite next_token by exact Hok. rewrite <- Es, E1, next_token by exact O1. cbn [token_kind Z.eqb Pos.eqb negb].
    rewrite <- E1. rewrite <- app_assoc. cbn [app].
    destruct (IH (a ++ [k; Word (g_file r)]) b n E2 O2 Hb) as (rs' & Ep & Em).
    { pose proof (P_cons a [Word (g_file r)] k). pose proof (P_max _ _ E2). lia. }
    rewrite Ep. cbn [pbind]. eexists. rewrite <- app_assoc. split; [reflexivity|]. rewrite map_app, Em.
    assert (T : text_at s (P (a ++ [k])) (P (a ++ [k]) + length (token_text (Word (g_file r)))) = g_file r).
    { rewrite E1. apply (at_text (a ++ [k]) (Word (g_file r)) tl). }
    cbn [map]. unfold k, gredir_text, redir_text. destruct (g_kind r); cbn [token_kind Z.eqb Pos.eqb orb map app r_file r_efile r_mode r_fd];
      unfold k in T; rewrite T; reflexivity.
Qed.

Lemma word_starts (w : list Z) (toks : string) :
  word_ok w -> (forall c, c ∈ bytes_of toks -> c ∈ symbols) -> starts (Word w) toks = false.
Proof.
  intros [Hn HF] Ht. destruct w as [|c w]; [congruence|]. apply Forall_cons in HF as [ [W _] _ ].
  unfold starts. cbn. apply not_true_iff_false. rewrite is_in_elem. intros H%Ht.
  unfold word_char in W. apply andb_true_iff in W as [_ W]. apply negb_true_iff, not_true_iff_false in W.
  apply W, is_in_elem, H.
Qed.

Lemma follows_stops (b : list token) (toks toks' : string) :
  follows b toks -> (forall c, c ∈ bytes_of toks -> is_in c (bytes_of toks') = false) -> stops b toks'.
Proof. destruct b as [|t b]; [auto|]. cbn. unfold starts. rewrite is_in_elem. auto. Qed.

Lemma follows_mono (b : list token) (toks toks' : string) :
  follows b toks -> (forall c, c ∈ bytes_of toks -> c ∈ bytes_of toks') -> follows b toks'.
Proof. destruct b as [|t b]; [auto|]. cbn. unfold starts. rewrite !is_in_elem. auto. Qed.

(** Decides the side conditions of these lemmas for two given strings. *)
Ltac chars := cbn; intros ? ?; rewrite ?elem_of_cons, ?elem_of_nil in *; intuition (subst; reflexivity || (cbn; tauto)).

Lemma args_parse (gargs : list (list Z * list gredir)) : forall a b n acc rs texts grs,
  s = render (a ++ args_tokens gargs ++ b) -> Forall token_ok (a ++ args_tokens gargs ++ b) -> follows b "|)&;" -> room n a ->
  (length acc + length gargs < MAXARGS)%nat -> map (fun x => text_at s x.1 x.2) acc = texts ->
  map (redir_text s) rs = map gredir_text grs ->
  exists c, parseargs s n acc rs (P a) = POk c (P (a ++ args_tokens gargs)) /\
    resolve s c = foldl redir_tree (TExec (texts ++ map fst gargs)) (grs ++ concat (map snd gargs)).
Proof.
  induction gargs as [|[w wrs] gargs IH]; intros a b n acc rs texts grs Es Hok Hb Hn Hl Ha Hr;
    (destruct n as [|n]; [lia|]); cbn [parseargs].
  - cbn [args_tokens map concat app] in *. rewrite Es, at_peek, !app_nil_r by exact Hok.
    assert (R : resolve s (wrap rs (EXEC acc)) = foldl redir_tree (TExec texts) grs).
    { apply resolve_wrap; [exact Hr|]. cbn. congruence. }
    destruct b as [|t b].
    + rewrite app_nil_r, end_token by (rewrite app_nil_r in Hok; exact Hok). cbn. rewrite app_nil_r in Es. rewrite <- Es. eauto.
    + cbn in Hb. rewrite Hb. rewrite <- Es. eauto.
  - change (args_tokens ((w, wrs) :: gargs)) with (Word w :: redirs_tokens wrs ++ args_tokens gargs) in *.
    cbn [app] in *. rewrite <- app_assoc in *. set (tl := args_tokens gargs ++ b) in *.
    assert (Ow : word_ok w) by (apply Forall_app in Hok as [_ H]; apply Forall_cons in H; apply H).
    rewrite Es, at_peek, (word_starts w) by (exact Hok || exact Ow || (unfold symbols; chars)).
    rewrite next_token by exact Hok. cbn [token_kind Z.eqb Pos.eqb negb]. rewrite length_app. cbn [length] in *.
    destruct (Nat.leb_spec MAXARGS (length acc + 1)); [lia|].
    assert (E1 : s = render ((a ++ [Word w]) ++ redirs_tokens wrs ++ tl)) by (rewrite <- app_assoc; exact Es).
    assert (O1 : Forall token_ok ((a ++ [Word w]) ++ redirs_tokens wrs ++ tl)) by (rewrite <- app_assoc; exact Hok).
    pose proof (P_cons a [] (Word w)) as Pw. pose proof (P_max _ _ E1) as Pm.
    destruct (redirs_parse wrs (a ++ [Word w]) tl n E1 O1) as (rs' & Ep & Em); [|lia|].
    { unfold tl. destruct gargs as [|[w2 wrs2] gargs]; [eapply follows_stops; [exact Hb|chars]|]. cbn.
      apply word_starts; [|unfold symbols; chars].
      unfold tl in O1. rewrite !Forall_app in O1. destruct O1 as (_ & _ & O1 & _). apply Forall_cons in O1. apply O1. }
    rewrite <- Es, Ep. cbn [pbind].
    assert (E2 : s = render (((a ++ [Word w]) ++ redirs_tokens wrs) ++ tl)) by (rewrite <- !app_assoc; exact Es).
    assert (O2 : Forall token_ok (((a ++ [Word w]) ++ redirs_tokens wrs) ++ tl)) by (rewrite <- !app_assoc; exact Hok).
    pose proof (P_max _ _ E2) as Pm2. pose proof (P_app (a ++ [Word w]) (redirs_tokens wrs)) as Pw2.
    edestruct (IH ((a ++ [Word w]) ++ redirs_tokens wrs) b n (acc ++ [(P a, (P a + length (token_text (Word w)))%nat)])
      (rs ++ rs') (texts ++ [w]) (grs ++ wrs) E2 O2 Hb) as (c & Ec & Er); [lia|rewrite length_app; cbn; lia| |rewrite !map_app; congruence|].
    { rewrite map_app, Ha. cbn [map fst snd]. rewrite Es, at_text. reflexivity. }
    exists c. rewrite Ec, Er. split; [do 3 f_equal; rewrite <- !app_assoc; reflexivity|].
    cbn [map concat fst snd]. rewrite <- !app_assoc. reflexivity.
Qed.

Lemma resolve_back (k : nat) (c : cmd) : resolve s (Nat.iter k BACK c) = Nat.iter k TBack (resolve s c).
Proof. induction k as [|k IH]; [reflexivity|]. rewrite !Nat.iter_succ. cbn [resolve]. rewrite IH. reflexivity. Qed.

Lemma back_parse (k : nat) : forall a b n c, s = render (a ++ replicate k (Sym 38) ++ b) ->
  Forall token_ok (a ++ replicate k (Sym 38) ++ b) -> stops b "&" -> room n a ->
  parseback s n c (P a) = POk (Nat.iter k BACK c) (P (a ++ replicate k (Sym 38))).
Proof.
  induction k as [|k IH]; intros a b n c Es Hok Hb Hn; (destruct n as [|n]; [lia|]); cbn [parseback replicate app] in *.
  - rewrite Es, at_peek, app_nil_r by exact Hok. destruct b as [|t b]; [reflexivity|]. cbn in Hb. rewrite Hb. reflexivity.
  - rewrite Es, at_peek by exact Hok. change (starts (Sym 38) "&") with true. cbn iota. rewrite next_token by exact Hok. rewrite <- Es.
    assert (E1 : s = render ((a ++ [Sym 38]) ++ replicate k (Sym 38) ++ b)) by (rewrite <- app_assoc; exact Es).
    pose proof (P_cons a [] (Sym 38)). pose proof (P_max _ _ E1).
    rewrite (IH (a ++ [Sym 38]) b n (BACK c)); [|exact E1|rewrite <- app_assoc; exact Hok|exact Hb|lia].
    rewrite <- Nat.iter_succ_r, <- app_assoc. reflexivity.
Qed.

Definition line_parses (l : gline) : Prop := forall a b n,
  s = render (a ++ line_tokens l ++ b) -> Forall token_ok (a ++ line_tokens l ++ b) -> line_ok l -> follows b ")" ->
  (4 * (length s - P a) + 4 <= n)%nat ->
  exists c, parseline s n (P a) = POk c (P (a ++ line_tokens l)) /\ resolve s c = line_tree l.
Definition pipe_parses (p : gpipe) : Prop := forall a b n,
  s = render (a ++ pipe_tokens p ++ b) -> Forall token_ok (a ++ pipe_tokens p ++ b) -> pipe_ok p -> follows b ")&;" ->
  (4 * (length s - P a) + 3 <= n)%nat ->
  exists c, parsepipe s n (P a) = POk c (P (a ++ pipe_tokens p)) /\ resolve s c = pipe_tree p.
Definition exec_parses (e : gexec) : Prop := forall a b n,
  s = render (a ++ exec_tokens e ++ b) -> Forall token_ok (a ++ exec_tokens e ++ b) -> exec_ok e -> follows b "|)&;" ->
  (4 * (length s - P a) + 2 <= n)%nat ->
  exists c, parseexec s n (P a) = POk c (P (a ++ exec_tokens e)) /\ resolve s c = exec_tree e.

Lemma GExec_parses (rs : list gredir) (args : list (list Z * list gredir)) : exec_parses (GExec rs args).
Proof.
  intros a b n Es Hok He Hb Hn. destruct n as [|n]; [lia|]. cbn [parseexec exec_tokens exec_ok exec_tree] in *.
  rewrite <- app_assoc in *.
  assert (S1 : stops (args_tokens args ++ b) "<>" /\ stops (redirs_tokens rs ++ args_tokens args ++ b) "(").
  {
    assert (W : forall w wrs args', args = (w, wrs) :: args' -> word_ok w).
    { intros w wrs args' ->. rewrite !Forall_app in Hok. destruct Hok as (_ & _ & H & _). apply Forall_cons in H. apply H. }
    destruct args as [|[w wrs] args]; cbn.
    - split; [eapply follows_stops; [exact Hb|chars]|].
      destruct rs as [|r rs]; [eapply follows_stops; [exact Hb|chars]|]. cbn. destruct (g_kind r); reflexivity.
    - split; [apply word_starts; [eauto|unfold symbols; chars]|].
      destruct rs as [|r rs]; [apply word_starts; [eauto|unfold symbols; chars]|]. cbn. destruct (g_kind r); reflexivity. }
  destruct S1 as [S1 S2]. rewrite Es, at_peek by exact Hok.
  assert (Sf : match redirs_tokens rs ++ args_tokens args ++ b with [] => false | t :: _ => starts t "(" end = false).
  { destruct (redirs_tokens rs ++ args_tokens args ++ b); [reflexivity|exact S2]. }
  rewrite Sf. rewrite <- Es.
  destruct (redirs_parse rs a (args_tokens args ++ b) n Es Hok S1) as (rs' & Ep & Em); [lia|]. rewrite Ep. cbn [pbind].
  assert (E1 : s = render ((a ++ redirs_tokens rs) ++ args_tokens args ++ b)) by (rewrite <- app_assoc; exact Es).
  pose proof (P_app a (redirs_tokens rs)).
  destruct (args_parse args (a ++ redirs_tokens rs) b n [] rs' [] rs E1) as (c & Ec & Er);
    [rewrite <- app_assoc; exact Hok|exact Hb|lia|exact He|reflexivity|exact Em|].
  exists c. rewrite Ec, Er, <- app_assoc. auto.
Qed.

Lemma GBlock_parses (l : gline) (rs : list gredir) : line_parses l -> exec_parses (GBlock l rs).
Proof.
  intros IH a b n Es Hok He Hb Hn. destruct n as [|n]; [lia|]. cbn [parseexec exec_tokens exec_ok exec_tree app] in *.
  rewrite <- app_assoc in *. cbn [app] in *.
  set (tl := redirs_tokens rs ++ b) in *.
  assert (E1 : s = render ((a ++ [Sym 40]) ++ line_tokens l ++ Sym 41 :: tl)) by (rewrite <- app_assoc; exact Es).
  assert (O1 : Forall token_ok ((a ++ [Sym 40]) ++ line_tokens l ++ Sym 41 :: tl)) by (rewrite <- app_assoc; exact Hok).
  pose proof (P_cons a [] (Sym 40)) as P1. pose proof (P_max _ _ E1) as M1.
  destruct n as [|n]; [lia|].
  rewrite Es, at_peek by exact Hok. change (starts (Sym 40) "(") with true. cbn iota. cbn [parseblock].
  rewrite at_peek by exact Hok. change (starts (Sym 40) "(") with true. cbn [negb].
  rewrite next_token by exact Hok. rewrite <- Es.
  destruct (IH (a ++ [Sym 40]) (Sym 41 :: tl) n E1 O1 He) as (c & Ec & Er); [reflexivity|lia|]. rewrite Ec. cbn [pbind].
  set (a2 := (a ++ [Sym 40]) ++ line_tokens l).
  assert (E2 : s = render (a2 ++ Sym 41 :: tl)) by (unfold a2; rewrite <- !app_assoc; exact Es).
  assert (O2 : Forall token_ok (a2 ++ Sym 41 :: tl)) by (unfold a2; rewrite <- !app_assoc; exact Hok).
  rewrite E2, at_peek by exact O2. change (starts (Sym 41) ")") with true. cbn [negb].
  rewrite next_token by exact O2. rewrite <- E2.
  assert (E3 : s = render ((a2 ++ [Sym 41]) ++ redirs_tokens rs ++ b)) by (rewrite <- app_assoc; exact E2).
  pose proof (P_cons a2 [] (Sym 41)). pose proof (P_app (a ++ [Sym 40]) (line_tokens l)).
  pose proof (P_max _ _ E3).
  destruct (redirs_parse rs (a2 ++ [Sym 41]) b n E3) as (rs' & Ep & Em);
    [rewrite <- app_assoc; exact O2|eapply follows_stops; [exact Hb|chars]|unfold a2 in *; lia|].
  rewrite Ep. cbn [pbind]. eexists. split; [f_equal; unfold a2; rewrite <- !app_assoc; reflexivity|].
  apply resolve_wrap; [exact Em|exact Er].
Qed.

Lemma GOne_parses (e : gexec) : exec_parses e -> pipe_parses (GOne e).
Proof.
  intros IH a b n Es Hok He Hb Hn. destruct n as [|n]; [lia|]. cbn [parsepipe pipe_tokens pipe_ok pipe_tree] in *.
  destruct (IH a b n Es Hok He) as (c & Ec & Er); [eapply follows_mono; [exact Hb|chars]|lia|]. rewrite Ec. cbn [pbind].
  assert (E1 : s = render ((a ++ exec_tokens e) ++ b)) by (rewrite <- app_assoc; exact Es).
  rewrite E1, at_peek, <- E1 by (rewrite <- app_assoc; exact Hok).
  assert (Sf : match b with [] => false | t :: _ => starts t "|" end = false).
  { pose proof (follows_stops b ")&;" "|" Hb ltac:(chars)) as S. destruct b; [reflexivity|exact S]. }
  rewrite Sf. eauto.
Qed.

Lemma GPipe_parses (e : gexec) (p : gpipe) : exec_parses e -> pipe_parses p -> pipe_parses (GPipe e p).
Proof.
  intros IHe IHp a b n Es Hok [He Hp] Hb Hn. destruct n as [|n]; [lia|]. cbn [parsepipe pipe_tokens pipe_tree] in *.
  rewrite <- app_assoc in *. cbn [app] in *.
  destruct (IHe a (Sym 124 :: pipe_tokens p ++ b) n Es Hok He) as (c & Ec & Er); [reflexivity|lia|]. rewrite Ec. cbn [pbind].
  set (a1 := a ++ exec_tokens e).
  assert (E1 : s = render (a1 ++ Sym 124 :: pipe_tokens p ++ b)) by (unfold a1; rewrite <- app_assoc; exact Es).
  assert (O1 : Forall token_ok (a1 ++ Sym 124 :: pipe_tokens p ++ b)) by (unfold a1; rewrite <- app_assoc; exact Hok).
  rewrite E1, at_peek by exact O1. change (starts (Sym 124) "|") with true. cbn iota. rewrite next_token, <- E1 by exact O1.
  assert (E2 : s = render ((a1 ++ [Sym 124]) ++ pipe_tokens p ++ b)) by (rewrite <- app_assoc; exact E1).
  pose proof (P_cons a1 [] (Sym 124)). pose proof (P_app a (exec_tokens e)). pose proof (P_max _ _ E2).
  destruct (IHp (a1 ++ [Sym 124]) b n E2) as (c2 & Ec2 & Er2); [rewrite <- app_assoc; exact O1|exact Hp|exact Hb|unfold a1 in *; lia|].
  rewrite Ec2. cbn [pbind]. eexists. split; [f_equal; unfold a1; rewrite <- !app_assoc; reflexivity|].
  cbn [resolve]. congruence.
Qed.

(** The pipe and the ampersands of a line. *)
Lemma backs_parse (p : gpipe) (k : nat) (a b : list token) (n : nat) :
  pipe_parses p -> s = render (a ++ pipe_tokens p ++ replicate k (Sym 38) ++ b) ->
  Forall token_ok (a ++ pipe_tokens p ++ replicate k (Sym 38) ++ b) -> pipe_ok p -> follows b ");" ->
  (4 * (length s - P a) + 3 <= n)%nat ->
  exists c, (let* (c, ps) := parsepipe s n (P a) in parseback s n c ps) = POk c (P (a ++ pipe_tokens p ++ replicate k (Sym 38))) /\
    resolve s c = Nat.iter k TBack (pipe_tree p).
Proof.
  intros IH Es Hok Hp Hb Hn.
  destruct (IH a (replicate k (Sym 38) ++ b) n Es Hok Hp) as (c & Ec & Er); [|lia|].
  { destruct k; [eapply follows_mono; [exact Hb|chars]|reflexivity]. }
  rewrite Ec. cbn [pbind].
  assert (E1 : s = render ((a ++ pipe_tokens p) ++ replicate k (Sym 38) ++ b)) by (rewrite <- app_assoc; exact Es).
  pose proof (P_app a (pipe_tokens p)). pose proof (P_max _ _ E1).
  rewrite (back_parse k (a ++ pipe_tokens p) b n c E1);
    [|rewrite <- app_assoc; exact Hok|eapply follows_stops; [exact Hb|chars]|lia].
  eexists. rewrite <- app_assoc. split; [reflexivity|]. rewrite resolve_back, Er. reflexivity.
Qed.

Lemma pbind_assoc {A B C : Type} (m : pres A) (f : A -> nat -> pres B) (g : B -> nat -> pres C) :
  pbind m (fun x p => pbind (f x p) g) = pbind (pbind m f) g.
Proof. destruct m; reflexivity. Qed.

Lemma GEnd_parses (p : gpipe) (k : nat) : pipe_parses p -> line_parses (GEnd p k).
Proof.
  intros IH a b n Es Hok Hp Hb Hn. destruct n as [|n]; [lia|]. cbn [parseline line_tokens line_ok line_tree] in *.
  rewrite <- app_assoc in *.
  destruct (backs_parse p k a b n IH Es Hok Hp) as (c & Ec & Er); [eapply follows_mono; [exact Hb|chars]|lia|].
  rewrite (pbind_assoc (parsepipe s n (P a)) (fun c ps => parseback s n c ps)), Ec. cbn [pbind].
  assert (E1 : s = render ((a ++ pipe_tokens p ++ replicate k (Sym 38)) ++ b)) by (rewrite <- !app_assoc; exact Es).
  rewrite E1, at_peek, <- E1 by (rewrite <- !app_assoc; exact Hok).
  assert (Sf : match b with [] => false | t :: _ => starts t ";" end = false).
  { pose proof (follows_stops b ")" ";" Hb ltac:(chars)) as S. destruct b; [reflexivity|exact S]. }
  rewrite Sf. eauto.
Qed.

Lemma GSeq_parses (p : gpipe) (k : nat) (l : gline) : pipe_parses p -> line_parses l -> line_parses (GSeq p k l).
Proof.
  intros IHp IHl a b n Es Hok [Hp Hl] Hb Hn. destruct n as [|n]; [lia|]. cbn [parseline line_tokens line_tree] in *.
  rewrite <- !app_assoc in *. cbn [app] in *.
  destruct (backs_parse p k a (Sym 59 :: line_tokens l ++ b) n IHp Es Hok Hp) as (c & Ec & Er); [reflexivity|lia|].
  rewrite (pbind_assoc (parsepipe s n (P a)) (fun c ps => parseback s n c ps)), Ec. cbn [pbind]. set (a1 := a ++ pipe_tokens p ++ replicate k (Sym 38)).
  assert (E1 : s = render (a1 ++ Sym 59 :: line_tokens l ++ b)) by (unfold a1; rewrite <- !app_assoc; exact Es).
  assert (O1 : Forall token_ok (a1 ++ Sym 59 :: line_tokens l ++ b)) by (unfold a1; rewrite <- !app_assoc; exact Hok).
  rewrite E1, at_peek by exact O1. change (starts (Sym 59) ";") with true. cbn iota. rewrite next_token, <- E1 by exact O1.
  assert (E2 : s = render ((a1 ++ [Sym 59]) ++ line_tokens l ++ b)) by (rewrite <- app_assoc; exact E1).
  pose proof (P_cons a1 [] (Sym 59)). pose proof (P_app a (pipe_tokens p ++ replicate k (Sym 38))). pose proof (P_max _ _ E2).
  destruct (IHl (a1 ++ [Sym 59]) b n E2) as (c2 & Ec2 & Er2); [rewrite <- app_assoc; exact O1|exact Hl|exact Hb|unfold a1 in *; lia|].
  rewrite Ec2. cbn [pbind]. eexists. split; [f_equal; unfold a1; rewrite <- !app_assoc; reflexivity|].
  cbn [resolve]. congruence.
Qed.
End Parse.

Scheme gline_mut := Induction for gline Sort Prop
with gpipe_mut := Induction for gpipe Sort Prop
with gexec_mut := Induction for gexec Sort Prop.

Lemma lines_parse (s : list Z) (l : gline) : line_parses s l.
Proof.
  apply (gline_mut (line_parses s) (pipe_parses s) (exec_parses s)); intros;
    [apply GEnd_parses|apply GSeq_parses|apply GOne_parses|apply GPipe_parses|apply GBlock_parses|apply GExec_parses]; assumption.
Qed.

(** C36. The shell understands every command line of its language: for any tree
    of commands with arguments, redirections, pipes, background commands, lists
    and blocks, the parser accepts the printed line to its end and returns the
    same tree, with every word and every file name exactly as printed. *)
Theorem parse_printed_line (l : gline) :
  line_ok l -> Forall token_ok (line_tokens l) ->
  exists c, parse (render (line_tokens l)) = POk c (length (render (line_tokens l))) /\
    resolve (render (line_tokens l)) c = line_tree l.
Proof.
  intros Hl Hok. set (s := render (line_tokens l)).
  destruct (lines_parse s l [] [] (4 * length s + 5)%nat) as (c & Ec & Er); cbn [app]; rewrite ?app_nil_r;
    [reflexivity|exact Hok|exact Hl|exact I|cbn; lia|].
  change (parseline s (4 * length s + 5) 0 = POk c (length s)) in Ec. exists c. split; [|exact Er].
  unfold parse. rewrite Ec. cbn [pbind].
  pose proof (at_peek (line_tokens l) [] ltac:(rewrite app_nil_r; exact Hok) "") as Ep. rewrite app_nil_r in Ep.
  fold s in Ep. rewrite Ep, Nat.eqb_refl. reflexivity.
Qed.

(** (cat < in | wc) > out & ; ls -l *)
Definition ex_line : gline :=
  GSeq (GOne (GBlock (GEnd (GPipe (GExec [] [(bytes_of "cat", [mk_gredir GIn (bytes_of "in")])])
                            (GOne (GExec [] [(bytes_of "wc", [])]))) 0)
                     [mk_gredir GOut (bytes_of "out")])) 1
    (GEnd (GOne (GExec [] [(bytes_of "ls", []); (bytes_of "-l", [])])) 0).

Lemma parse_printed_line_witness :
  exists c, parse (render (line_tokens ex_line)) = POk c (length (render (line_tokens ex_line))) /\
    resolve (render (line_tokens ex_line)) c = line_tree ex_line.
Proof.
  apply (parse_printed_line ex_line).
  - cbn. unfold MAXARGS. lia.
  - repeat constructor; cbn; (discriminate || set_solver).
Defined.
