(* ===== verification/ShRun.v ===== *)
(** * Running commands (sh.c): [nulterminate], [runcmd] and the main loop *)

From S2P Require Import Prelude Params Bytes CString Print User Ulib Sh ShSyntax.

(** ** The words of a command, as pairs of offsets *)

Fixpoint words (c : cmd) : list (nat * nat) :=
  match c with
  | EXEC args => args
  | REDIR c r => words c ++ [(r_file r, r_efile r)]
  | PIPE l r | LIST l r => words l ++ words r
  | BACK c => words c
  end.

Section Words.
Context (s : list Z).

(** A word: from [q] up to the next character that cannot be in a word. *)
Definition is_word (w : nat * nat) : Prop := w.2 = skip word_char s w.1 /\ (w.1 < w.2)%nat /\ (w.1 <= length s)%nat.

Lemma gettoken_word (p q e p' : nat) : (p <= length s)%nat -> gettoken s p = (97, q, e, p') -> is_word (q, e).
Proof.
  intros Hp E. pose proof (gettoken_spec s p 97 q e p' Hp E) as (G1 & G2 & G3 & G4 & _ & _ & _ & G7).
  specialize (G7 ltac:(discriminate)). split_and!; [|exact G7|cbn; lia].
  unfold gettoken in E. set (q0 := skip_white s p) in E. set (c := char_at s q0) in E.
  destruct (c =? 0); [discriminate E|]. destruct (is_in c (bytes_of "|();&<")) eqn:I; [|destruct (c =? 62) eqn:J].
  - injection E as Ec _ _ _. rewrite Ec in I. discriminate I.
  - destruct (char_at s (S q0) =? 62); [discriminate E|]. injection E as Ec _ _ _. rewrite Ec in J. discriminate J.
  - injection E as <- <- _. reflexivity.
Qed.

Definition word_redir (r : redir) : Prop := is_word (r_file r, r_efile r).

Definition good {A : Type} (Q : A -> Prop) (r : pres A) : Prop :=
  match r with POk a p => Q a /\ (p <= length s)%nat | _ => True end.

Lemma good_bind {A B : Type} (Q : A -> Prop) (Q' : B -> Prop) (r : pres A) (f : A -> nat -> pres B) :
  good Q r -> (forall a p, Q a -> (p <= length s)%nat -> good Q' (f a p)) -> good Q' (pbind r f).
Proof. destruct r as [a p|m|]; cbn; auto. intros [H1 H2] Hf. auto. Qed.

Lemma words_wrap (rs : list redir) : forall c, Forall word_redir rs -> Forall is_word (words c) -> Forall is_word (words (wrap rs c)).
Proof.
  induction rs as [|r rs IH]; intros c HF Hc; [exact Hc|]. apply Forall_cons in HF as [Hr HF].
  apply (IH (REDIR c r) HF). cbn. apply Forall_app. auto.
Qed.

Ltac walk :=
  repeat first
    [ match goal with |- context [peek s ?p ?t] => let b := fresh "b" in let p1 := fresh "p" in let E := fresh "E" in
        destruct (peek s p t) as [b p1] eqn:E; pose proof (proj1 (peek_spec s p _ _ _ ltac:(lia) E)); destruct b; cbn [negb] end
    | match goal with |- context [gettoken s ?p] => let t := fresh "t" in let q := fresh "q" in let e := fresh "e" in
        let p1 := fresh "p" in let E := fresh "E" in
        destruct (gettoken s p) as [ [ [t q] e ] p1 ] eqn:E;
        pose proof (gettoken_spec s p _ _ _ _ ltac:(lia) E) as (? & ? & ? & ? & _) end ].

Lemma parseredirs_words (n : nat) : forall p, (p <= length s)%nat -> good (Forall word_redir) (parseredirs s n p).
Proof.
  induction n as [|n IH]; intros p Hp; [exact I|]. cbn [parseredirs]. walk; [|cbn; split; [constructor|lia]].
  destruct (Z.eqb_spec t0 97) as [->|]; [|exact I]. cbn [negb].
  pose proof (gettoken_word p1 _ _ _ ltac:(lia) E1) as W.
  eapply good_bind; [apply IH; lia|]. intros rs p3 Hrs Hp3. cbn. split; [|exact Hp3]. apply Forall_app. split; [|exact Hrs].
  destruct (t =? 60); [repeat constructor; apply W|]. destruct (_ || _); repeat constructor; apply W.
Qed.

Lemma parseargs_words (n : nat) : forall args rs p, (p <= length s)%nat -> Forall is_word args -> Forall word_redir rs ->
  good (fun c => Forall is_word (words c)) (parseargs s n args rs p).
Proof.
  induction n as [|n IH]; intros args rs p Hp Ha Hr; [exact I|]. cbn [parseargs]. walk.
  - cbn. split; [apply words_wrap; assumption|lia].
  - destruct (Z.eqb_spec t 0) as [->|]; [cbn; split; [apply words_wrap; assumption|lia]|].
    destruct (Z.eqb_spec t 97) as [->|]; [|exact I]. cbn [negb]. pose proof (gettoken_word p0 _ _ _ ltac:(lia) E0) as W.
    destruct (_ <=? _)%nat; [exact I|]. eapply good_bind; [apply parseredirs_words; lia|]. intros rs' p2 Hrs Hp2.
    apply IH; [lia|apply Forall_app; auto|apply Forall_app; auto].
Qed.

Lemma parseback_words (n : nat) : forall c p, (p <= length s)%nat -> Forall is_word (words c) ->
  good (fun c => Forall is_word (words c)) (parseback s n c p).
Proof.
  induction n as [|n IH]; intros c p Hp Hc; [exact I|]. cbn [parseback]. walk; [apply IH; [lia|exact Hc]|cbn; split; [exact Hc|lia]].
Qed.

Lemma parser_words (n : nat) : forall p, (p <= length s)%nat ->
  good (fun c => Forall is_word (words c)) (parseline s n p) /\ good (fun c => Forall is_word (words c)) (parsepipe s n p) /\
  good (fun c => Forall is_word (words c)) (parseexec s n p) /\ good (fun c => Forall is_word (words c)) (parseblock s n p).
Proof.
  induction n as [|n IH]; intros p Hp; [repeat split|].
  split_and!; cbn [parseline parsepipe parseexec parseblock].
  - eapply good_bind; [apply IH; lia|]. intros c p1 Hc Hp1. eapply good_bind; [apply parseback_words; assumption|].
    intros c2 p2 Hc2 Hp2. walk; [|cbn; split; [exact Hc2|lia]]. eapply good_bind; [apply IH; lia|].
    intros r p4 Hr Hp4. cbn. split; [apply Forall_app; auto|lia].
  - eapply good_bind; [apply IH; lia|]. intros c p1 Hc Hp1. walk; [|cbn; split; [exact Hc|lia]].
    eapply good_bind; [apply IH; lia|]. intros r p4 Hr Hp4. cbn. split; [apply Forall_app; auto|lia].
  - walk; [apply IH; lia|]. eapply good_bind; [apply parseredirs_words; lia|]. intros rs p1 Hrs Hp1.
    apply parseargs_words; [lia|constructor|exact Hrs].
  - walk; [|exact I]. eapply good_bind; [apply IH; lia|]. intros c p2 Hc Hp2. walk; [|exact I].
    eapply good_bind; [apply parseredirs_words; lia|]. intros rs p5 Hrs Hp5. cbn. split; [apply words_wrap; assumption|lia].
Qed.
End Words.

(** ** [nulterminate] *)

Definition zero_at (b : list Z) (w : nat * nat) : list Z := <[w.2 := 0]> b.

Lemma nulterminate_words (c : cmd) : forall b, nulterminate c b = foldl zero_at b (words c).
Proof.
  induction c as [args|c IH r|l IHl r IHr|l IHl r IHr|c IH]; intros b; cbn [nulterminate words].
  - reflexivity.
  - rewrite foldl_app, <- IH. reflexivity.
  - rewrite foldl_app, <- IHl, <- IHr. reflexivity.
  - rewrite foldl_app, <- IHl, <- IHr. reflexivity.
  - apply IH.
Qed.

Lemma zeros_other (ws : list (nat * nat)) (i : nat) : forall b, i ∉ ws.*2 -> foldl zero_at b ws !! i = b !! i.
Proof.
  induction ws as [|w ws IH]; intros b H; [reflexivity|]. cbn [foldl]. rewrite IH by set_solver.
  unfold zero_at. apply list_lookup_insert_ne. set_solver.
Qed.

Lemma zeros_at (ws : list (nat * nat)) (i : nat) : forall b, i ∈ ws.*2 -> (i < length b)%nat -> foldl zero_at b ws !! i = Some 0.
Proof.
  induction ws as [|w ws IH]; intros b H Hi; [set_solver|]. cbn [foldl].
  destruct (decide (i ∈ ws.*2)) as [Hin|Hn]; [apply IH; [exact Hin|unfold zero_at; rewrite length_insert; exact Hi]|].
  rewrite zeros_other by exact Hn. assert (i = w.2) as -> by set_solver. apply list_lookup_insert_eq, Hi.
Qed.

Section Cut.
Context (s junk : list Z) (ws : list (nat * nat)).
Hypothesis Hs : 0 ∉ s.
Hypothesis Hws : Forall (is_word s) ws.

Lemma word_end (w : nat * nat) : is_word s w -> (w.2 <= length s)%nat /\ ((w.2 < length s)%nat -> word_char (char_at s w.2) = false).
Proof.
  clear Hws. intros (E & H1 & H2). rewrite E. split; [apply skip_range, H2|]. intros H. apply skip_char; [exact H2|exact H].
Qed.

Lemma word_inside (w : nat * nat) (i : nat) : is_word s w -> (w.1 <= i < w.2)%nat -> word_char (char_at s i) = true.
Proof.
  clear Hws. intros (E & H1 & H2) Hi. pose proof (span_all word_char (drop w.1 s)) as HF.
  assert (Hsp : (i - w.1 < span word_char (drop w.1 s))%nat) by (unfold skip in E; lia).
  pose proof (span_le word_char (drop w.1 s)) as Hle. rewrite length_drop in Hle.
  destruct (lookup_lt_is_Some_2 s i) as [x Hx]; [lia|].
  rewrite Forall_lookup in HF. unfold char_at. rewrite (nth_lookup_Some _ _ _ _ Hx). apply (HF (i - w.1)%nat).
  rewrite lookup_take_lt by exact Hsp. rewrite lookup_drop. replace (w.1 + (i - w.1))%nat with i by lia. exact Hx.
Qed.

(** The zero after one word is never inside another. *)
Lemma cut_word (w : nat * nat) : w ∈ ws -> cstr (drop w.1 (foldl zero_at (s ++ 0 :: junk) ws)) = text_at s w.1 w.2.
Proof.
  intros Hw. pose proof Hws as HF. rewrite Forall_forall in HF. pose proof (HF w Hw) as Ww.
  destruct (word_end w Ww) as [Le _]. set (b := foldl zero_at (s ++ 0 :: junk) ws).
  assert (Hin : forall i, (w.1 <= i < w.2)%nat -> b !! i = s !! i).
  { intros i Hi. unfold b. rewrite zeros_other; [rewrite lookup_app_l by lia; reflexivity|].
    intros [v [E Hv]]%list_elem_of_fmap. destruct (word_end v (HF v Hv)) as [Lv Nv].
    pose proof (word_inside w i Ww Hi) as Wi. rewrite E, Nv in Wi by lia. discriminate. }
  assert (He : b !! w.2 = Some 0).
  { unfold b. apply zeros_at; [apply list_elem_of_fmap; eauto|]. rewrite length_app. cbn. lia. }
  assert (E : drop w.1 b = text_at s w.1 w.2 ++ drop w.2 b).
  { rewrite <- (take_drop (w.2 - w.1) (drop w.1 b)), drop_drop. destruct Ww as (_ & Wlt & _).
    replace (w.1 + (w.2 - w.1))%nat with w.2 by lia. f_equal. unfold text_at. apply list_eq. intros i.
    destruct (decide (i < w.2 - w.1)%nat) as [Hi|Hi].
    - rewrite !lookup_take_lt, !lookup_drop by exact Hi. apply Hin. lia.
    - rewrite !lookup_take_ge by lia. reflexivity. }
  rewrite E, cstr_app.
  - rewrite (drop_S b 0 w.2 He). cbn. apply app_nil_r.
  - intros H. apply Hs. unfold text_at in H.
    rewrite <- (take_drop w.1 s), <- (take_drop (w.2 - w.1) (drop w.1 s)), !elem_of_app. auto.
Qed.
End Cut.

(** C39. The strings a parsed command runs with are its words: after [nulterminate]
    every argument and file name, read as a C string at its offset in the buffer,
    is exactly the word the parser found in the line; the zero that ends one word
    never falls into another. *)
Theorem nulterminate_cuts_words (s junk : list Z) (c : cmd) (p : nat) :
  0 ∉ s -> parse s = POk c p ->
  forall w, w ∈ words c -> cstr (drop w.1 (nulterminate c (s ++ 0 :: junk))) = text_at s w.1 w.2.
Proof.
  intros Hs E w Hw. rewrite nulterminate_words. apply cut_word; [exact Hs| |exact Hw].
  unfold parse in E. pose proof (proj1 (parser_words s (4 * length s + 5) 0 ltac:(lia))) as H.
  destruct (parseline s _ 0) as [c' p'|m|]; cbn in E, H; [|discriminate..].
  destruct (_ =? _)%nat; [|discriminate]. injection E as <- _. apply H.
Qed.

Lemma nulterminate_cuts_words_witness : exists c, parse (bytes_of "cat<in|wc>out;ls") = POk c 16 /\
  forall w, w ∈ words c -> cstr (drop w.1 (nulterminate c (bytes_of "cat<in|wc>out;ls" ++ 0 :: []))) =
    text_at (bytes_of "cat<in|wc>out;ls") w.1 w.2.
Proof.
  eexists. split; [vm_compute; reflexivity|]. apply (nulterminate_cuts_words (bytes_of "cat<in|wc>out;ls") [] _ 16).
  - cbn. set_solver.
  - vm_compute. reflexivity.
Defined.

(** ** Running *)

Definition str (b : list Z) (q : nat) : list Z := cstr (drop q b).

Definition upanic {A : Type} (msg : string) : uprog A :=
  printf 2 (bytes_of ("%s" +:+ nl)) [AStr (Some (bytes_of msg))];; uexit.

Definition fork1 : uprog Z :=
  pid ← call SFork;
  if pid =? -1 then upanic "fork" else mret pid.

(** The command runs in the buffer [b]. *)
Fixpoint runcmd (b : list Z) (c : cmd) : uprog unit :=
  match c with
  | EXEC args =>
      match args with
      | [] => uexit
      | a :: _ =>
          _ ← call (SExec (str b a.1) (map (fun a => str b a.1) args));
          printf 2 (bytes_of ("exec %s failed" +:+ nl)) [AStr (Some (str b a.1))];;
          uexit
      end
  | REDIR c r =>
      _ ← call (SClose (r_fd r));
      fd ← call (SOpen (str b (r_file r)) (r_mode r));
      if fd <? 0 then printf 2 (bytes_of ("open %s failed" +:+ nl)) [AStr (Some (str b (r_file r)))];; uexit
      else runcmd b c;; uexit
  | LIST l r =>
      pid ← fork1;
      (if pid =? 0 then runcmd b l else mret tt);;
      _ ← call SWait;
      runcmd b r;;
      uexit
  | PIPE l r =>
      '(res, (p0, p1)) ← call SPipe;
      if res <? 0 then upanic "pipe"
      else
        pid ← fork1;
        (if pid =? 0 then
           _ ← call (SClose 1); _ ← call (SDup p1); _ ← call (SClose p0); _ ← call (SClose p1);
           runcmd b l
         else mret tt);;
        pid ← fork1;
        (if pid =? 0 then
           _ ← call (SClose 0); _ ← call (SDup p0); _ ← call (SClose p0); _ ← call (SClose p1);
           runcmd b r
         else mret tt);;
        _ ← call (SClose p0); _ ← call (SClose p1); _ ← call SWait; _ ← call SWait;
        uexit
  | BACK c =>
      pid ← fork1;
      (if pid =? 0 then runcmd b c else mret tt);;
      uexit
  end.

(** [parsecmd]: the command with its buffer after [nulterminate]. *)
Definition parsecmd (s : list Z) : uprog (list Z * cmd) :=
  match parseline s (4 * length s + 5) 0 with
  | POk c ps =>
      let '(_, ps) := peek s ps "" in
      if negb (ps =? length s)%nat
      then printf 2 (bytes_of ("leftovers: %s" +:+ nl)) [AStr (Some (drop ps s))];; upanic "syntax"
      else mret (nulterminate c (s ++ [0]), c)
  | PPanic msg => upanic msg
  | PFuel => UStop
  end.

(** The line read, or [None] at the end of the input. *)
Definition getcmd : uprog (option (list Z)) :=
  printf 2 (bytes_of "$ ") [];;
  buf ← ugets 100;
  mret (match cstr buf with [] => None | s => Some s end).

Fixpoint open_console (n : nat) : uprog unit :=
  match n with
  | O => UStop
  | S n' =>
      fd ← call (SOpen (bytes_of "console") O_RDWR);
      if fd >=? 0 then
        if fd >=? 3 then _ ← call (SClose fd); mret tt else open_console n'
      else mret tt
  end.

Fixpoint sh_loop (n : nat) : uprog unit :=
  match n with
  | O => UStop
  | S n' =>
      o ← getcmd;
      match o with
      | None => uexit
      | Some s =>
          (if (char_at s 0 =? 99) && (char_at s 1 =? 100) && (char_at s 2 =? 32) then
             let dir := drop 3 (removelast s) in
             r ← call (SChdir dir);
             (if r <? 0 then printf 2 (bytes_of ("cannot cd %s" +:+ nl)) [AStr (Some dir)] else mret tt)
           else
             pid ← fork1;
             (if pid =? 0 then '(b, c) ← parsecmd s; runcmd b c else mret tt);;
             _ ← call SWait; mret tt);;
          sh_loop n'
      end
  end.

Definition sh_main (n : nat) : uprog unit := open_console n;; sh_loop n.

(** ** A command that runs never returns to the shell *)

(** Whatever the kernel answers, the program does not get stuck, or ends. *)
Definition total {A : Type} (m : uprog A) : Prop := forall W (h : handler W) w, urun h m w <> UStuck.
Definition exits {A : Type} (m : uprog A) : Prop := forall W (h : handler W) w, exists w', urun h m w = UExited w'.

Lemma total_bind {A B : Type} (m : uprog A) (f : A -> uprog B) : total m -> (forall a, total (f a)) -> total (m ≫= f).
Proof.
  intros Hm Hf W h w. specialize (Hm W h w). destruct (urun h m w) as [a w'|w'|] eqn:E; [| |congruence].
  - rewrite (urun_bind _ _ _ _ _ _ E). apply Hf.
  - rewrite (urun_exit _ _ _ _ _ E). discriminate.
Qed.

Lemma exits_bind {A B : Type} (m : uprog A) (f : A -> uprog B) : total m -> (forall a, exits (f a)) -> exits (m ≫= f).
Proof.
  intros Hm Hf W h w. specialize (Hm W h w). destruct (urun h m w) as [a w'|w'|] eqn:E; [| |congruence].
  - rewrite (urun_bind _ _ _ _ _ _ E). apply Hf.
  - rewrite (urun_exit _ _ _ _ _ E). eauto.
Qed.

Lemma exits_first {A B : Type} (m : uprog A) (f : A -> uprog B) : exits m -> exits (m ≫= f).
Proof. intros Hm W h w. destruct (Hm W h w) as [w' E]. rewrite (urun_exit _ _ _ _ _ E). eauto. Qed.

Lemma exits_uexit {A : Type} : exits (@uexit A).
Proof. intros W h w. cbn. destruct (h Empty_set SExit w) as [ [ [] _ ] | w' ]. eauto. Qed.

Lemma exits_total {A : Type} (m : uprog A) : exits m -> total m.
Proof. intros H W h w. destruct (H W h w) as [w' ->]. discriminate. Qed.

Lemma total_call {X : Type} (c : sysc X) : total (call c).
Proof. intros W h w. cbn. destruct (h X c w) as [ [x w1] | w1 ]; discriminate. Qed.

Lemma total_ret {A : Type} (a : A) : total (mret a : uprog A).
Proof. intros W h w. discriminate. Qed.

Lemma total_puts (fd : Z) (cs : list Z) : total (puts fd cs).
Proof.
  induction cs as [|c cs IH]; [apply total_ret|]. apply total_bind; [|intros []; exact IH].
  apply total_bind; [apply total_call|intros; apply total_ret].
Qed.

(** The arguments are of the kinds the format asks for. *)
Fixpoint fits (fmt : list Z) (state : bool) (args : list carg) : bool :=
  match fmt with
  | [] => true
  | c :: fmt' =>
      if negb state then fits fmt' (c =? 37) args
      else if c =? 100 then match args with AInt _ :: args' => fits fmt' false args' | _ => false end
      else if (c =? 120) || (c =? 112) then match args with AInt _ :: args' => fits fmt' false args' | _ => false end
      else if c =? 115 then match args with AStr _ :: args' => fits fmt' false args' | _ => false end
      else if c =? 99 then match args with AInt _ :: args' => fits fmt' false args' | _ => false end
      else fits fmt' false args
  end.

Lemma total_printf_loop (fd : Z) (fmt : list Z) : forall state args, fits fmt state args = true -> total (printf_loop fd fmt state args).
Proof.
  assert (Hp : forall c, total (putc fd c)) by (intros c; apply total_bind; [apply total_call|intros; apply total_ret]).
  induction fmt as [|c fmt IH]; intros state args H; cbn [printf_loop fits] in *; [apply total_ret|].
  destruct state; cbn [negb] in *.
  - destruct (c =? 100); [|destruct (_ || _); [|destruct (c =? 115); [|destruct (c =? 99); [|destruct (c =? 37)] ] ] ];
      try (destruct args as [|[z|o] args]; try discriminate H);
      repeat (apply total_bind; [apply total_puts || apply Hp|intros []]); apply IH, H.
  - destruct (c =? 37); [apply IH, H|]. apply total_bind; [apply Hp|]. intros []. apply IH, H.
Qed.

Lemma total_printf (fd : Z) (fmt : list Z) (args : list carg) : fits fmt false args = true -> total (printf fd fmt args).
Proof. apply total_printf_loop. Qed.

Lemma exits_upanic {A : Type} (msg : string) : exits (@upanic A msg).
Proof. apply exits_bind; [apply total_printf; reflexivity|]. intros []. apply exits_uexit. Qed.

Lemma total_fork1 : total fork1.
Proof.
  apply total_bind; [apply total_call|]. intros pid. destruct (_ =? _); [apply exits_total, exits_upanic|apply total_ret].
Qed.

Lemma exits_call {X B : Type} (c : sysc X) (f : X -> uprog B) : (forall x, exits (f x)) -> exits (call c ≫= f).
Proof. apply exits_bind, total_call. Qed.

(** A child that runs a command, and the parent that goes on. *)
Lemma exits_child {B : Type} (m : uprog unit) (f : unit -> uprog B) (pid : Z) :
  exits m -> exits (f tt) -> exits ((if pid =? 0 then m else mret tt) ≫= f).
Proof.
  intros Hm Hf. destruct (pid =? 0); [apply exits_first, Hm|]. apply exits_bind; [apply total_ret|]. intros []. exact Hf.
Qed.

(** [runcmd] never returns, as its comment says: whatever the kernel answers
    to its system calls (a failing [exec], [open], [pipe] or [fork], as parent and
    as child), running a command ends the process, so no child of the shell ever
    goes on to read the next line. *)
Theorem runcmd_never_returns {W : Type} (h : handler W) (b : list Z) (c : cmd) (w : W) :
  exists w', urun h (runcmd b c) w = UExited w'.
Proof.
  revert W h w. change (exits (runcmd b c)). induction c as [args|c IH r|l IHl r IHr|l IHl r IHr|c IH]; cbn [runcmd].
  - destruct args as [|a args]; [apply exits_uexit|]. apply exits_call. intros _.
    apply exits_bind; [apply total_printf; reflexivity|]. intros []. apply exits_uexit.
  - apply exits_call. intros _. apply exits_call. intros fd. destruct (fd <? 0); [|apply exits_first, IH].
    apply exits_bind; [apply total_printf; reflexivity|]. intros []. apply exits_uexit.
  - apply exits_call. intros [res [p0 p1]]. destruct (res <? 0); [apply exits_upanic|].
    apply exits_bind; [apply total_fork1|]. intros pid. apply exits_child; [repeat (apply exits_call; intros _); exact IHl|].
    apply exits_bind; [apply total_fork1|]. intros pid2. apply exits_child; [repeat (apply exits_call; intros _); exact IHr|].
    repeat (apply exits_call; intros _). apply exits_uexit.
  - apply exits_bind; [apply total_fork1|]. intros pid. apply exits_child; [exact IHl|].
    apply exits_call. intros _. apply exits_first, IHr.
  - apply exits_bind; [apply total_fork1|]. intros pid. apply exits_child; [exact IH|apply exits_uexit].
Qed.
