(* ===== verification/StrideLive.v ===== *)
(** * No client of the stride scheduler starves *)

From S2P Require Import Prelude Params Kernel Sleep Sched SchedSpec.

(** Every decision picks a client. *)
Lemma decisions_clients (n : nat) : forall (s : kernel) (b : Z),
  balanced s -> (forall i, client s i -> st_path (stride_at i s) <= b) -> b + Z.of_nat n * 10000 < 2147483647 ->
  exists ds t, decisions n s = Done ds t /\ Forall (client s) ds.
Proof.
  induction n as [|n IH]; intros s b Hb Hle Hlt; [exists [], s; split; [reflexivity|constructor]|].
  destruct (decide_once s b Hb Hle) as (d & t & E & Hd & Hbt & Ct & St & Pt); [lia|].
  destruct (IH t (b + 10000)) as (ds & u & Eu & Fu); [exact Hbt| |lia|].
  { intros i Hi. rewrite Pt. apply Ct in Hi. destruct Hb as [_ Hb]. destruct (Hb i Hi) as (Si & _).
    pose proof (step_bounds s i Si). specialize (Hle i Hi). destruct (decide (d = i)); lia. }
  exists (d :: ds), u. split; [|constructor; [exact Hd|eapply Forall_impl; [exact Fu|]; intros i Hi; apply Ct; exact Hi] ].
  cbn [decisions]. apply bind_Done_inv in E as (d' & s1 & E1 & E2). apply bind_Done_inv in E2 as (? & s2 & E2 & E3).
  injection E3 as -> ->. rewrite (bind_Done _ _ _ _ _ E1), (bind_Done _ _ _ _ _ E2), (bind_Done _ _ _ _ _ Eu). reflexivity.
Qed.

Definition total_times (cs ds : list Z) : Z := foldr (fun i n => times i ds + n) 0 cs.

Lemma times_cons (i d : Z) (ds : list Z) : times i (d :: ds) = (if decide (i = d) then 1 else 0) + times i ds.
Proof. unfold times. rewrite filter_cons. destruct (decide (i = d)); cbn [length]; lia. Qed.

Lemma length_total (cs ds : list Z) : Forall (fun d => d ∈ cs) ds -> Z.of_nat (length ds) <= total_times cs ds.
Proof.
  induction 1 as [|d ds Hd HF IH].
  - cbn. unfold total_times. clear. induction cs as [|c cs IH]; cbn; [lia|]. unfold times at 1. cbn. lia.
  - cbn [length]. enough (total_times cs ds + 1 <= total_times cs (d :: ds)) by lia. clear -Hd.
    assert (M : forall l, total_times l ds <= total_times l (d :: ds)).
    { intros l. induction l as [|c l IH]; cbn; [lia|]. fold (total_times l ds) (total_times l (d :: ds)).
      rewrite times_cons. destruct (decide _); lia. }
    induction cs as [|c cs IH]; [set_solver|]. cbn. fold (total_times cs ds) (total_times cs (d :: ds)). rewrite times_cons.
    apply elem_of_cons in Hd as [->|Hd].
    + rewrite decide_True by reflexivity. specialize (M cs). lia.
    + specialize (IH Hd). destruct (decide _); lia.
Qed.

Lemma total_bound (cs ds : list Z) (k : Z) : (forall i, i ∈ cs -> times i ds <= k) -> total_times cs ds <= k * Z.of_nat (length cs).
Proof.
  induction cs as [|c cs IH]; intros H; cbn [total_times foldr length]; [lia|].
  assert (times c ds <= k) by (apply H; left). assert (total_times cs ds <= k * Z.of_nat (length cs)) by (apply IH; intros i Hi; apply H; right; exact Hi).
  unfold total_times in *. lia.
Qed.

Lemma times_zero (j : Z) (ds : list Z) : j ∉ ds -> times j ds = 0.
Proof.
  induction ds as [|d ds IH]; intros H; [reflexivity|]. rewrite times_cons, IH by set_solver.
  rewrite decide_False by set_solver. reflexivity.
Qed.


