(* ===== verification/Umalloc.v ===== *)
(** * umalloc.c: malloc and free of user programs

    The free blocks form a ring through the headers in memory, in the order of
    their addresses, starting at the static header [base].  Addresses are bytes;
    a header has 8, the pointer to the next free block and the size in units of
    8 bytes. *)

From S2P Require Import Prelude Params Bytes.

Record heap : Type := mk_heap {
  h_mem : gmap Z Z;
  h_freep : Z;
  h_brk : Z
}.

#[export] Instance heap_eta : Eta heap := fun r => mk_heap (h_mem r) (h_freep r) (h_brk r).

Definition hptr (a : Z) (s : heap) : Z := rd32 (h_mem s) a.
Definition hsize (a : Z) (s : heap) : Z := rd32 (h_mem s) (a + 4).
Definition set_ptr (a v : Z) : M heap unit := modify (fun s => s <| h_mem ::= wr32 a v |>).
Definition set_size (a v : Z) : M heap unit := modify (fun s => s <| h_mem ::= wr32 (a + 4) v |>).

Section Umalloc.
(** The address of [base], and whether the kernel grants [sbrk(n)] when the
    program ends at a given address. *)
Context (base : Z) (grants : Z -> Z -> bool).

(** [sbrk] returns the old end of the program, or -1. *)
Definition sbrk (n : Z) : M heap Z :=
  s ← get;
  if grants (h_brk s) n then modify (fun t => t <| h_brk := u32 (h_brk s + n) |>);; mret (h_brk s)
  else mret (u32 (-1)).

(** The body of the loop of [free]. *)
Definition seek (bp p : Z) : M heap (Z + Z) :=
  nx ← gets (hptr p);
  if (bp >? p) && (bp <? nx) then mret (inr p)
  else if (p >=? nx) && ((bp >? p) || (bp <? nx)) then mret (inr p)
  else mret (inl nx).

(** [b] becomes the successor of [a] in the ring, or a part of [a] where they
    touch; [free] does it with the block and its successor, then with its
    predecessor and the block. *)
Definition join (a b : Z) : M heap unit :=
  asz ← gets (hsize a);
  if u32 (a + 8 * asz) =? b then
    bsz ← gets (hsize b);
    set_size a (asz + bsz);;
    nn ← gets (hptr b);
    set_ptr a nn
  else set_ptr a b.

Definition free (fuel : nat) (ap : Z) : M heap unit :=
  let bp := u32 (ap - 8) in
  fp ← gets h_freep;
  p ← while_loop fuel (seek bp) fp;
  nx ← gets (hptr p);
  join bp nx;;
  join p bp;;
  modify (fun s => s <| h_freep := p |>).

Definition morecore (fuel : nat) (nu : Z) : M heap Z :=
  let nu := if nu <? 4096 then 4096 else nu in
  p ← sbrk (s32 (nu * 8));
  if p =? u32 (-1) then mret 0
  else
    set_size p nu;;
    free fuel (u32 (p + 8));;
    gets h_freep.

(** The loop of [malloc] with [prevp] and [p]. *)
Definition malloc_turn (fuel : nat) (nunits : Z) (st : Z * Z) : M heap (Z * Z + Z) :=
  let '(prevp, p) := st in
  sz ← gets (hsize p);
  if sz >=? nunits then
    (if sz =? nunits then
       nx ← gets (hptr p);
       set_ptr prevp nx;;
       modify (fun s => s <| h_freep := prevp |>);;
       mret (inr (u32 (p + 8)))
     else
       set_size p (sz - nunits);;
       let q := u32 (p + 8 * (sz - nunits)) in
       set_size q nunits;;
       modify (fun s => s <| h_freep := prevp |>);;
       mret (inr (u32 (q + 8))))
  else
    fp ← gets h_freep;
    if p =? fp then
      p ← morecore fuel nunits;
      if p =? 0 then mret (inr 0)
      else nx ← gets (hptr p); mret (inl (p, nx))
    else nx ← gets (hptr p); mret (inl (p, nx)).

Definition malloc (fuel : nat) (nbytes : Z) : M heap Z :=
  let nunits := u32 (nbytes + 8 - 1) / 8 + 1 in
  fp ← gets h_freep;
  (if fp =? 0 then
     modify (fun s => s <| h_freep := base |>);;
     set_ptr base base;;
     set_size base 0
   else mret tt);;
  prevp ← gets h_freep;
  p ← gets (hptr prevp);
  while_loop fuel (malloc_turn fuel nunits) (prevp, p).

End Umalloc.
