(* ===== verification/UmallocSpec.v ===== *)
(** * What malloc and free promise

    The free blocks form a ring in the order of their addresses and, with the
    allocated ones, divide the memory the kernel has granted ([heap_ok]).  [free]
    finds the place of a block and joins it with its neighbours ([free_run]);
    [malloc] takes a block whole or the end of one, after more memory from the
    kernel where none fits ([malloc_run]); a program that allocates, releases,
    writes and reads sees independent arrays. *)

From S2P Require Import Prelude Params Bytes Umalloc.

(** ** Blocks

    A block is the address of its header with its size in units; the static
    header has size 0 and occupies the 8 bytes of the header. *)

Definition bend (b : Z * Z) : Z := b.1 + 8 * Z.max 1 b.2.
Definition apart (b c : Z * Z) : Prop := bend b <= c.1 \/ bend c <= b.1.

Fixpoint all_apart (l : list (Z * Z)) : Prop :=
  match l with [] => True | b :: l' => Forall (apart b) l' /\ all_apart l' end.

Lemma apart_sym (b c : Z * Z) : apart b c -> apart c b.
Proof. unfold apart. tauto. Qed.

Lemma all_apart_app (l1 l2 : list (Z * Z)) :
  all_apart (l1 ++ l2) <-> all_apart l1 /\ all_apart l2 /\ forall b c, b ∈ l1 -> c ∈ l2 -> apart b c.
Proof.
  induction l1 as [|b l1 IH]; cbn [app all_apart].
  - split; [intros H; split_and!; [exact I|exact H|set_solver]|tauto].
  - rewrite IH, Forall_app, !Forall_forall. split.
    + intros ((H1 & H2) & H3 & H4 & H5). split_and!; try assumption. intros x y [->|Hx]%elem_of_cons Hy; [apply H2, Hy|auto].
    + intros ((H1 & H2) & H3 & H4). split_and!; try assumption.
      * intros y Hy. apply H4; [left|exact Hy].
      * intros x y Hx Hy. apply H4; [right; exact Hx|exact Hy].
Qed.

#[export] Instance all_apart_perm : Proper (Permutation ==> iff) all_apart.
Proof.
  intros l l' H. induction H as [|b l l' H IH|b c l|l l' l'' _ IH1 _ IH2]; cbn [all_apart]; [tauto|rewrite IH, H; tauto| |tauto].
  rewrite !Forall_cons. pose proof (apart_sym b c). pose proof (apart_sym c b). tauto.
Qed.

(** ** The headers *)

Definition hdr (s : heap) (a : Z) : Z * Z := (hptr a s, hsize a s).

(** The ring from its first element on; [z] follows the last. *)
Fixpoint ring (s : heap) (fl : list (Z * Z)) (z : Z) : Prop :=
  match fl with
  | [] => True
  | (a, n) :: fl' => hdr s a = (match fl' with [] => z | (b, _) :: _ => b end, n) /\ ring s fl' z
  end.

Lemma ring_app (s : heap) (l1 l2 : list (Z * Z)) (b : Z * Z) (z : Z) :
  ring s (l1 ++ b :: l2) z <-> ring s l1 b.1 /\ ring s (b :: l2) z.
Proof.
  induction l1 as [|[a n] l1 IH]; [cbn; tauto|]. cbn [app ring]. rewrite IH. destruct l1 as [|[c m] l1], b as [b k]; cbn; tauto.
Qed.

Lemma ring_frame (s s' : heap) (fl : list (Z * Z)) (z : Z) :
  (forall b, b ∈ fl -> hdr s' b.1 = hdr s b.1) -> ring s fl z -> ring s' fl z.
Proof.
  induction fl as [|[a n] fl IH]; intros H Hr; [exact I|]. destruct Hr as [H1 H2]. split.
  - rewrite <- H1. apply (H (a, n)). left.
  - apply IH; [|exact H2]. intros b Hb. apply H. right. exact Hb.
Qed.

(** The ring, sorted by address. *)
Fixpoint sorted (fl : list (Z * Z)) : Prop :=
  match fl with
  | [] => True
  | b :: fl' => Forall (fun c => bend b <= c.1) fl' /\ sorted fl'
  end.

Lemma sorted_app (l1 l2 : list (Z * Z)) :
  sorted (l1 ++ l2) <-> sorted l1 /\ sorted l2 /\ forall b c, b ∈ l1 -> c ∈ l2 -> bend b <= c.1.
Proof.
  induction l1 as [|b l1 IH]; cbn [app sorted].
  - split; [intros H; split_and!; [exact I|exact H|set_solver]|tauto].
  - rewrite IH, Forall_app, !Forall_forall. split.
    + intros ((H1 & H2) & H3 & H4 & H5). split_and!; try assumption. intros x y [->|Hx]%elem_of_cons Hy; [apply H2, Hy|auto].
    + intros ((H1 & H2) & H3 & H4). split_and!; try assumption.
      * intros y Hy. apply H4; [left|exact Hy].
      * intros x y Hx Hy. apply H4; [right; exact Hx|exact Hy].
Qed.

Definition units : list (Z * Z) -> Z := foldr (fun b u => b.2 + u) 0.

Lemma units_app (l1 l2 : list (Z * Z)) : units (l1 ++ l2) = units l1 + units l2.
Proof. induction l1 as [|b l1 IH]; cbn; [reflexivity|]. rewrite IH. lia. Qed.

Section Inv.
Context (base lo : Z).



(** The free blocks [fl], after [base], and the allocated blocks [al] divide
    the memory from [lo] to the end of the program. *)
Record heap_ok (fl al : list (Z * Z)) (s : heap) : Prop := mk_heap_ok {
  ho_base : 0 < base /\ base + 8 <= lo;
  ho_brk : lo <= h_brk s <= KERNBASE;
  ho_ring : ring s ((base, 0) :: fl) base;
  ho_freep : h_freep s ∈ base :: fl.*1;
  ho_sorted : sorted ((base, 0) :: fl);
  ho_al : forall b, b ∈ al -> hsize b.1 s = b.2;
  ho_apart : all_apart (fl ++ al);
  ho_range : forall b, b ∈ fl ++ al -> 1 <= b.2 /\ lo <= b.1 /\ bend b <= h_brk s;
  ho_units : 8 * units (fl ++ al) = h_brk s - lo
}.

(** What an operation leaves alone: the contents of the blocks [al]. *)
Definition keeps_blocks (al : list (Z * Z)) (s t : heap) : Prop :=
  forall b x, b ∈ al -> b.1 + 8 <= x < bend b -> rd (h_mem t) x = rd (h_mem s) x.
End Inv.

Lemma keeps_trans (al : list (Z * Z)) (s t u : heap) : keeps_blocks al s t -> keeps_blocks al t u -> keeps_blocks al s u.
Proof. intros H1 H2 b x Hb Hx. rewrite (H2 b x Hb Hx). apply (H1 b x Hb Hx). Qed.

(** A change of the header at [x] only. *)
Definition touched (x : Z) (s t : heap) : Prop :=
  h_freep t = h_freep s /\ h_brk t = h_brk s /\
  forall a, a < x \/ x + 8 <= a -> rd (h_mem t) a = rd (h_mem s) a.

Lemma hdr_other (x a : Z) (s t : heap) : touched x s t -> x + 8 <= a \/ a + 8 <= x -> hdr t a = hdr s a.
Proof. intros (_ & _ & H) Ha. unfold hdr, hptr, hsize, rd32. rewrite !H by lia. reflexivity. Qed.

Lemma touched_trans (x : Z) (s t u : heap) : touched x s t -> touched x t u -> touched x s u.
Proof. intros (F & B & M) (F' & B' & M'). split_and!; [congruence|congruence|]. intros a Ha. rewrite M', M by exact Ha. reflexivity. Qed.

Lemma set_ptr_run (a v : Z) (s : heap) :
  exists t, set_ptr a v s = Done tt t /\ touched a s t /\ hdr t a = (u32 v, hsize a s).
Proof.
  eexists. split; [reflexivity|]. split.
  - split_and!; [reflexivity|reflexivity|]. intros x Hx. apply rd_wr32_other. lia.
  - unfold hdr, hptr, hsize. cbn. rewrite rd32_wr32_same, rd32_wr32_other by lia. reflexivity.
Qed.

Lemma set_size_run (a v : Z) (s : heap) :
  exists t, set_size a v s = Done tt t /\ touched a s t /\ hdr t a = (hptr a s, u32 v).
Proof.
  eexists. split; [reflexivity|]. split.
  - split_and!; [reflexivity|reflexivity|]. intros x Hx. apply rd_wr32_other. lia.
  - unfold hdr, hptr, hsize. cbn. rewrite rd32_wr32_same, rd32_wr32_other by lia. reflexivity.
Qed.

Lemma join_run (a b : Z) (s : heap) : a + 8 <= b \/ b + 8 <= a ->
  exists t, join a b s = Done tt t /\ touched a s t /\
    hdr t a = if u32 (a + 8 * hsize a s) =? b then (u32 (hptr b s), u32 (hsize a s + hsize b s)) else (u32 b, hsize a s).
Proof.
  intros Hab. unfold join. rewrite (bind_Done (gets (hsize a)) _ s s (hsize a s) eq_refl).
  destruct (_ =? b); [|apply set_ptr_run].
  rewrite (bind_Done (gets (hsize b)) _ s s (hsize b s) eq_refl).
  destruct (set_size_run a (hsize a s + hsize b s) s) as (t & Et & Ht & Hh). rewrite (bind_Done _ _ _ _ _ Et).
  rewrite (bind_Done (gets (hptr b)) _ t t (hptr b t) eq_refl).
  destruct (set_ptr_run a (hptr b t) t) as (u & Eu & Hu & Hh'). exists u. split; [exact Eu|].
  split; [apply (touched_trans _ _ _ _ Ht Hu)|].
  pose proof (hdr_other a b s t Ht Hab) as E. injection E as E1 _. injection Hh as _ E2. rewrite Hh', E1, E2. reflexivity.
Qed.

(** ** The place of a block in the ring *)

Section Seek.
Context (base bp : Z) (l1 l2 : list (Z * Z)) (p pn : Z) (s : heap).

Abbreviation fl0 := (l1 ++ (p, pn) :: l2).

Hypothesis Hr : ring s fl0 base.
Hypothesis Hs : sorted fl0.
Hypothesis H1 : forall b, b ∈ l1 ++ [(p, pn)] -> base <= b.1 < bp.
Hypothesis H2 : forall b, b ∈ l2 -> bp < b.1.
Hypothesis Hb : exists n, head fl0 = Some (base, n).

Lemma seek_step (q n : Z) (a b : list (Z * Z)) : fl0 = a ++ (q, n) :: b ->
  let nx := match b with [] => base | c :: _ => c.1 end in
  seek bp q s = Done (if (bp >? q) && (bp <? nx) || (q >=? nx) && ((bp >? q) || (bp <? nx)) then inr q else inl nx) s.
Proof.
  intros E nx. assert (En : hptr q s = nx).
  { rewrite E in Hr. apply ring_app in Hr as [_ [Hh _]]. injection Hh as Hh _. unfold nx. destruct b as [|[c m] b]; exact Hh. }
  unfold seek. unfold mbind, M_bind, gets, mret, M_ret. cbn. rewrite En.
  destruct ((bp >? q) && (bp <? nx)); [reflexivity|]. destruct (_ && _); reflexivity.
Qed.

Lemma next_greater (q n c m : Z) (a b : list (Z * Z)) : fl0 = a ++ (q, n) :: (c, m) :: b -> q < c.
Proof.
  intros E. pose proof Hs as H. rewrite E in H. apply sorted_app in H as (_ & [H _] & _). apply Forall_cons in H as [H _].
  unfold bend in H. cbn in H. lia.
Qed.

(** From a block before the place, or from the place itself. *)
Lemma seek_forward (x : list (Z * Z)) : forall a q n rest k, l1 ++ [(p, pn)] = a ++ (q, n) :: rest -> rest = x ->
  (length x < k)%nat -> while_loop k (seek bp) q s = Done p s.
Proof.
  induction x as [|[c m] x IH]; intros a q n rest k E -> Hk; (destruct k as [|k]; [cbn in Hk; lia|]); cbn [while_loop].
  - apply app_inj_tail in E as [<- [= <- <-]].
    rewrite (bind_Done _ _ _ _ _ (seek_step p pn l1 l2 eq_refl)).
    assert (P : base <= p < bp) by (apply (H1 (p, pn)); set_solver).
    destruct l2 as [|[c m] l2'] eqn:El.
    + destruct (Z.gtb_spec bp p), (Z.ltb_spec bp base), (Z.geb_spec p base); try lia. reflexivity.
    + assert (bp < c) by (apply (H2 (c, m)); set_solver). cbn [fst]. destruct (Z.gtb_spec bp p), (Z.ltb_spec bp c); try lia. reflexivity.
  - assert (E' : fl0 = a ++ (q, n) :: (c, m) :: x ++ l2).
    { change ((p, pn) :: l2) with ([(p, pn)] ++ l2). rewrite app_assoc, E, <- app_assoc. reflexivity. }
    rewrite (bind_Done _ _ _ _ _ (seek_step q n a ((c, m) :: x ++ l2) E')). cbn [fst].
    pose proof (next_greater q n c m a (x ++ l2) E') as Hlt.
    assert (C : base <= c < bp) by (apply (H1 (c, m)); rewrite E; set_solver).
    destruct (Z.gtb_spec bp q), (Z.ltb_spec bp c), (Z.geb_spec q c); try lia; cbn [andb orb];
      (apply (IH (a ++ [(q, n)]) c m x); [rewrite <- app_assoc; exact E|reflexivity|cbn in Hk; lia]).
Qed.

Lemma seek_from_base (k : nat) : (length l1 + 1 < k)%nat -> while_loop k (seek bp) base s = Done p s.
Proof.
  intros Hk. assert (E : exists n x, l1 ++ [(p, pn)] = [] ++ (base, n) :: x).
  { clear -Hb. destruct Hb as [n E]. destruct l1 as [|[a m] l]; cbn in E; injection E as -> ->; eexists _, _; reflexivity. }
  destruct E as (n & x & E). apply (seek_forward x [] base n x); [exact E|reflexivity|].
  apply (f_equal length) in E. rewrite length_app in E. cbn in E. lia.
Qed.

(** From a block behind the place, around the end of the ring. *)
Lemma seek_around (x : list (Z * Z)) : forall a q n k, l2 = a ++ (q, n) :: x ->
  (length x + length l1 + 2 < k)%nat -> while_loop k (seek bp) q s = Done p s.
Proof.
  induction x as [|[c m] x IH]; intros a q n k E Hk; (destruct k as [|k]; [lia|]); cbn [while_loop];
    (assert (Q : bp < q) by (apply (H2 (q, n)); rewrite E; set_solver)).
  - assert (E' : fl0 = (l1 ++ (p, pn) :: a) ++ [(q, n)]) by (rewrite E, <- app_assoc; reflexivity).
    rewrite (bind_Done _ _ _ _ _ (seek_step q n _ [] E')).
    assert (P : base <= p < bp) by (apply (H1 (p, pn)); set_solver).
    destruct (Z.gtb_spec bp q), (Z.ltb_spec bp base), (Z.geb_spec q base); try lia. cbn [andb orb].
    apply seek_from_base. cbn in Hk. lia.
  - assert (E' : fl0 = (l1 ++ (p, pn) :: a) ++ (q, n) :: (c, m) :: x) by (rewrite E, <- app_assoc; reflexivity).
    rewrite (bind_Done _ _ _ _ _ (seek_step q n _ ((c, m) :: x) E')). cbn [fst].
    pose proof (next_greater q n c m _ x E') as Hlt.
    destruct (Z.gtb_spec bp q), (Z.ltb_spec bp c), (Z.geb_spec q c); try lia; cbn [andb orb].
    apply (IH (a ++ [(q, n)]) c m); [rewrite <- app_assoc; exact E|cbn in Hk; lia].
Qed.

Lemma seek_run (q : Z) (k : nat) : q ∈ fl0.*1 -> (length fl0 + 1 < k)%nat -> while_loop k (seek bp) q s = Done p s.
Proof.
  intros [ [q' n] [-> Hq] ]%list_elem_of_fmap Hk. cbn [fst]. rewrite length_app in Hk. cbn [length] in Hk.
  change ((p, pn) :: l2) with ([(p, pn)] ++ l2) in Hq. rewrite app_assoc in Hq. apply elem_of_app in Hq as [Hq|Hq].
  - apply list_elem_of_split in Hq as (a & x & E). apply (seek_forward x a q' n x); [exact E|reflexivity|].
    apply (f_equal length) in E. rewrite !length_app in E. cbn in E. lia.
  - apply list_elem_of_split in Hq as (a & x & E). apply (seek_around x a q' n); [exact E|].
    apply (f_equal length) in E. rewrite length_app in E. cbn in E. lia.
Qed.
End Seek.

(** ** Gluing a block to its successors *)

Definition glue (b : Z * Z) (l : list (Z * Z)) : list (Z * Z) :=
  match l with
  | c :: l' => if b.1 + 8 * b.2 =? c.1 then (b.1, b.2 + c.2) :: l' else b :: l
  | [] => [b]
  end.

Definition first (l : list (Z * Z)) (z : Z) : Z := match l with [] => z | c :: _ => c.1 end.

Lemma ring_cons (s : heap) (a n : Z) (l : list (Z * Z)) (z : Z) :
  ring s ((a, n) :: l) z <-> hdr s a = (first l z, n) /\ ring s l z.
Proof. cbn. destruct l as [|[c m] l]; reflexivity. Qed.

Lemma units_glue (b : Z * Z) (l : list (Z * Z)) : units (glue b l) = b.2 + units l.
Proof. destruct l as [|c l]; [reflexivity|]. cbn [glue]. destruct (_ =? _); cbn; lia. Qed.

Lemma length_glue (b : Z * Z) (l : list (Z * Z)) : (length (glue b l) <= S (length l))%nat.
Proof. destruct l as [|c l]; [reflexivity|]. cbn [glue]. destruct (_ =? _); cbn; lia. Qed.

Lemma first_glue (b : Z * Z) (l : list (Z * Z)) (z : Z) : first (glue b l) z = b.1.
Proof. destruct l as [|c l]; [reflexivity|]. cbn [glue]. destruct (_ =? _); reflexivity. Qed.

Lemma glue_cons (b : Z * Z) (l : list (Z * Z)) : exists c l', glue b l = c :: l' /\ c.1 = b.1.
Proof. destruct l as [|c l]; cbn [glue]; [eauto|]. destruct (_ =? _); eauto. Qed.

Lemma glue_Forall (P : Z * Z -> Prop) (b : Z * Z) (l : list (Z * Z)) : P b -> Forall P l ->
  (forall c, c ∈ l -> b.1 + 8 * b.2 = c.1 -> P c -> P (b.1, b.2 + c.2)) -> Forall P (glue b l).
Proof.
  intros Hb Hl Hc. destruct l as [|c l]; cbn [glue]; [auto|]. destruct (Z.eqb_spec (b.1 + 8 * b.2) c.1); [|auto].
  apply Forall_cons in Hl as [H1 H2]. constructor; [|exact H2]. apply Hc; [left|assumption|assumption].
Qed.

Lemma glue_grows (b : Z * Z) (l : list (Z * Z)) : Forall (fun c => 1 <= c.2) l -> exists c, c ∈ glue b l /\ b.2 <= c.2.
Proof.
  intros Hl. destruct l as [|c l]; cbn [glue]; [exists b; split; [left|reflexivity]|].
  destruct (_ =? _); [exists (b.1, b.2 + c.2)|exists b]; (split; [left|]); cbn; [|reflexivity].
  apply Forall_cons in Hl as [H _]. lia.
Qed.

Lemma glue_elem (b c : Z * Z) (l : list (Z * Z)) : c ∈ glue b l -> c.1 = b.1 \/ c ∈ l.
Proof. destruct l as [|d l]; cbn [glue]; [set_solver|]. destruct (_ =? _); intros [->|H]%elem_of_cons; cbn; set_solver. Qed.

Lemma sorted_glue (b : Z * Z) (l : list (Z * Z)) : 0 <= b.2 -> Forall (fun c => 1 <= c.2) l ->
  sorted (b :: l) -> sorted (glue b l).
Proof.
  intros Hb Hl [H1 H2]. destruct l as [|c l]; cbn [glue]; [split; [constructor|exact I]|].
  destruct (Z.eqb_spec (b.1 + 8 * b.2) c.1) as [E|E]; [|split; assumption].
  destruct H2 as [H2 H3]. split; [|exact H3]. apply Forall_cons in H1 as [H1 _], Hl as [Hc _].
  eapply Forall_impl; [exact H2|]. intros d Hd. unfold bend in *. cbn [fst snd] in *. lia.
Qed.

Lemma join_ring (a n z : Z) (l : list (Z * Z)) (s : heap) :
  ring s l z -> hsize a s = n -> 0 <= a -> 0 <= n -> a + 8 * n < 2 ^ 32 -> 0 <= first l z < 2 ^ 32 ->
  (a + 8 <= first l z \/ first l z + 8 <= a) -> (l = [] -> z < a) -> Forall (fun c => a + 8 <= c.1) l ->
  Forall (fun c => 0 <= c.2 /\ n + c.2 < 2 ^ 32 /\ 0 <= c.1 < 2 ^ 32) l -> 0 <= z < 2 ^ 32 ->
  exists t, join a (first l z) s = Done tt t /\ touched a s t /\ ring t (glue (a, n) l) z.
Proof.
  intros Hr En Ha Hn Hm Hf Hd Hz Hl Hb Hz'. destruct (join_run a (first l z) s Hd) as (t & Et & Ht & Hh).
  exists t. split; [exact Et|]. split; [exact Ht|]. rewrite En, (u32_small (a + 8 * n)) in Hh by lia.
  assert (Hrt : ring t l z).
  { apply (ring_frame s); [|exact Hr]. intros c Hc. apply (hdr_other a); [exact Ht|]. rewrite Forall_forall in Hl. specialize (Hl c Hc). lia. }
  destruct l as [|[c m] l]; cbn [glue first fst snd] in *.
  - destruct (Z.eqb_spec (a + 8 * n) z) as [E|E]; [specialize (Hz eq_refl); lia|].
    rewrite u32_small in Hh by lia. split; [exact Hh|exact I].
  - destruct (Z.eqb_spec (a + 8 * n) c) as [E|E].
    + apply ring_cons in Hrt as [Hc Hrt]. apply ring_cons. split; [|exact Hrt].
      apply ring_cons in Hr as [Hc' _]. injection Hc' as Ep Es. rewrite Hh, Ep, Es.
      apply Forall_cons in Hb as [Hb Hb']. cbn in Hb. rewrite (u32_small (n + m)) by lia. f_equal. apply u32_small.
      destruct l as [|d l]; cbn; [exact Hz'|]. apply Forall_cons in Hb' as [Hb' _]. lia.
    + apply ring_cons. cbn [first fst]. split; [|exact Hrt]. rewrite Hh, u32_small by lia. reflexivity.
Qed.

Lemma find_place (bp : Z) (l : list (Z * Z)) : forall b, sorted (b :: l) -> b.1 < bp -> (forall c, c ∈ l -> c.1 <> bp) ->
  exists l1 p l2, b :: l = l1 ++ p :: l2 /\ (forall c, c ∈ l1 ++ [p] -> c.1 < bp) /\ (forall c, c ∈ l2 -> bp < c.1).
Proof.
  induction l as [|c l IH]; intros b Hs Hb Hl.
  - exists [], b, []. split; [reflexivity|]. split; set_solver.
  - destruct Hs as [Hs1 Hs2]. destruct (Z.ltb_spec c.1 bp) as [H|H].
    + destruct (IH c Hs2 H) as (l1 & p & l2 & E & H1 & H2); [set_solver|].
      exists (b :: l1), p, l2. split; [rewrite E; reflexivity|]. split; [|exact H2]. set_solver.
    + exists [], b, (c :: l). split; [reflexivity|]. split; [set_solver|].
      assert (c.1 <> bp) by (apply Hl; left). intros d [->|Hd]%elem_of_cons; [lia|].
      destruct Hs2 as [Hs2 _]. rewrite Forall_forall in Hs2. specialize (Hs2 d Hd). unfold bend in Hs2. lia.
Qed.

Section Free.
Context (base lo : Z).

(** What is known of a free block, beside the ring. *)
Definition region (brk : Z) (al : list (Z * Z)) (b : Z * Z) : Prop :=
  1 <= b.2 /\ lo <= b.1 /\ bend b <= brk /\ Forall (apart b) al.

Lemma region_glue (brk : Z) (al : list (Z * Z)) (b c : Z * Z) :
  region brk al b -> region brk al c -> b.1 + 8 * b.2 = c.1 -> region brk al (b.1, b.2 + c.2).
Proof.
  destruct b as [b n], c as [c m]. intros (N & L & B & A) (N' & L' & B' & A') E. unfold bend in *. cbn [fst snd] in *.
  unfold region, bend. split_and!; cbn [fst snd]; try lia. rewrite Forall_forall in *. intros x Hx. specialize (A x Hx). specialize (A' x Hx).
  unfold apart, bend in *. cbn [fst snd] in *. lia.
Qed.

Lemma sorted_apart (l : list (Z * Z)) : sorted l -> all_apart l.
Proof.
  induction l as [|b l IH]; [auto|]. intros [H1 H2]. split; [|auto]. eapply Forall_impl; [exact H1|]. intros c Hc. left. exact Hc.
Qed.

Lemma heap_ok_region (fl al : list (Z * Z)) (s : heap) (b : Z * Z) :
  heap_ok base lo fl al s -> b ∈ fl -> region (h_brk s) al b.
Proof.
  intros H Hb. destruct (ho_range _ _ _ _ _ H b) as (N & L & B); [set_solver|]. split_and!; try assumption.
  pose proof (ho_apart _ _ _ _ _ H) as (_ & _ & Ha)%all_apart_app. rewrite Forall_forall. intros c Hc. apply Ha; assumption.
Qed.

(** A heap from its ring, the header [base] included. *)
Lemma heap_ok_intro (fl0 al : list (Z * Z)) (s : heap) :
  0 < base /\ base + 8 <= lo -> lo <= h_brk s <= KERNBASE -> ring s fl0 base -> h_freep s ∈ fl0.*1 ->
  sorted fl0 -> head fl0 = Some (base, 0) -> (forall b, b ∈ al -> hsize b.1 s = b.2) -> all_apart al ->
  (forall b, b ∈ al -> 1 <= b.2 /\ lo <= b.1 /\ bend b <= h_brk s) ->
  Forall (fun b => b = (base, 0) \/ region (h_brk s) al b) fl0 -> 8 * (units fl0 + units al) = h_brk s - lo ->
  exists fl, fl0 = (base, 0) :: fl /\ heap_ok base lo fl al s.
Proof.
  intros Hb Hk Hr Hf Hs Hh Hal Ha Hra Hp Hu. destruct fl0 as [|c fl]; [discriminate|]. injection Hh as ->.
  exists fl. split; [reflexivity|]. pose proof Hs as [Hs1 Hs2].
  assert (Hreg : Forall (region (h_brk s) al) fl).
  { apply Forall_cons in Hp as [_ Hp]. rewrite Forall_forall in *. intros c Hc. destruct (Hp c Hc) as [->|R]; [|exact R].
    specialize (Hs1 _ Hc). unfold bend in Hs1. cbn in Hs1. lia. }
  constructor; try assumption.
  - apply all_apart_app. split_and!; [apply sorted_apart, Hs2|exact Ha|]. intros b c Hb' Hc.
    rewrite Forall_forall in Hreg. destruct (Hreg b Hb') as (_ & _ & _ & A). rewrite Forall_forall in A. apply A, Hc.
  - intros b [H|H]%elem_of_app; [|apply Hra, H]. rewrite Forall_forall in Hreg. destruct (Hreg b H) as (? & ? & ? & _). auto.
  - rewrite units_app. cbn in Hu. exact Hu.
Qed.

(** The ring with the block put at its place, before anything is joined. *)
Section Joins.
Context (l1 l2 al : list (Z * Z)) (p pn bp n : Z) (s : heap).
Let b0 : Z * Z := (base, 0).

Definition in_heap (b : Z * Z) : Prop := b = (base, 0) \/ region (h_brk s) al b.

Hypothesis Hbase : 0 < base /\ base + 8 <= lo.
Hypothesis Hbrk : lo <= h_brk s <= KERNBASE.
Hypothesis Hsorted : sorted (l1 ++ (p, pn) :: (bp, n) :: l2).
Hypothesis Hheap : Forall in_heap (l1 ++ (p, pn) :: (bp, n) :: l2).
Hypothesis Hbp : region (h_brk s) al (bp, n).

Lemma in_heap_bounds (b : Z * Z) : in_heap b -> 0 <= b.2 /\ 0 < b.1 /\ b.1 + 8 * b.2 <= KERNBASE /\ b.1 + 8 <= KERNBASE.
Proof using Hbase Hbrk.
  intros [->|(N & L & B & _)]; unfold bend in *; cbn; lia.
Qed.

Lemma in_heap_glue (b c : Z * Z) : in_heap b -> region (h_brk s) al c -> bend b <= c.1 -> b.1 + 8 * b.2 = c.1 -> in_heap (b.1, b.2 + c.2).
Proof using.
  intros [->|Hb] Hc Hle E; [unfold bend in Hle; cbn in Hle, E; lia|]. right. apply region_glue; assumption.
Qed.

Lemma joins_facts :
  Forall (region (h_brk s) al) l2 /\ Forall (fun c => bp + 8 * n <= c.1) l2 /\ bend (p, pn) <= bp /\
  (forall c, c ∈ l1 -> bend c <= p) /\ in_heap (p, pn) /\ Forall in_heap l1 /\ sorted l1 /\ sorted l2.
Proof using Hsorted Hheap Hbp Hbase.
  apply sorted_app in Hsorted as (S1 & [S2 [S3 S4]] & S5). apply Forall_app in Hheap as [F1 F2].
  apply Forall_cons in F2 as [F2 F3]. apply Forall_cons in F3 as [_ F3]. apply Forall_cons in S2 as [S2 _].
  destruct Hbp as (N & L & _). cbn [fst snd] in N, L.
  assert (K : Forall (fun c => bp + 8 * n <= c.1) l2).
  { eapply Forall_impl; [exact S3|]. intros c Hc. unfold bend in Hc. cbn in Hc. lia. }
  split_and!; try assumption.
  - rewrite Forall_forall in *. intros c Hc. destruct (F3 c Hc) as [->|R]; [|exact R]. specialize (K _ Hc). cbn in K. lia.
  - intros c Hc. apply (S5 c (p, pn) Hc). left.
Qed.

Lemma joins_run : ring s (l1 ++ (p, pn) :: l2) base -> hsize bp s = n ->
  exists t u, join bp (first l2 base) s = Done tt t /\ join p bp t = Done tt u /\
    ring u (l1 ++ glue (p, pn) (glue (bp, n) l2)) base /\ h_freep u = h_freep s /\ h_brk u = h_brk s /\
    (forall a, a < bp \/ bp + 8 <= a -> a < p \/ p + 8 <= a -> rd (h_mem u) a = rd (h_mem s) a).
Proof using All.
  intros Hr Hn. destruct joins_facts as (R2 & L2 & Pb & L1 & Pp & F1 & _ & _).
  pose proof (in_heap_bounds _ Pp) as (Np & Ap & Bp1 & Bp2). pose proof (in_heap_bounds (bp, n) (or_intror Hbp)) as (Nb & Ab & Bb1 & Bb2).
  assert (1 <= n) by (destruct Hbp; assumption). unfold bend, KERNBASE in *. cbn [fst snd] in *.
  assert (B2 : Forall (fun c => 1 <= c.2 /\ 0 < c.1 /\ c.1 + 8 * c.2 <= 2 ^ 31 /\ bp + 8 * n <= c.1) l2).
  { rewrite Forall_forall in *. intros c Hc. destruct (R2 c Hc) as (? & ? & ? & _). specialize (L2 c Hc). unfold bend in *. lia. }
  apply ring_app in Hr as [Hr1 Hr2]. apply ring_cons in Hr2 as [Hp Hr2].
  assert (base <= p) by (destruct Pp as [[= -> _]|(_ & ? & _)]; cbn in *; lia).
  assert (Hf : 0 < first l2 base < 2 ^ 32 /\ (bp + 8 <= first l2 base \/ first l2 base + 8 <= bp)).
  { destruct l2 as [|c l]; cbn [first]; [lia|]. apply Forall_cons in B2 as [B2 _]. lia. }
  destruct (join_ring bp n base l2 s) as (t & Et & Ht & Hrt); try assumption; try lia.
  { eapply Forall_impl; [exact B2|]. cbn. intros c Hc. lia. }
  { eapply Forall_impl; [exact B2|]. cbn. intros c Hc. lia. }
  assert (Hb : forall c, c ∈ glue (bp, n) l2 -> 1 <= c.2 /\ p + 8 <= c.1 /\ 0 < c.1 /\ c.1 + 8 * c.2 <= 2 ^ 31).
  { rewrite <- Forall_forall. apply glue_Forall; cbn [fst snd]; [lia| |].
    - eapply Forall_impl; [exact B2|]. cbn. intros c Hc. lia.
    - intros c Hc E. rewrite Forall_forall in B2. specialize (B2 c Hc). lia. }
  assert (Hpt : hdr t p = hdr s p) by (apply (hdr_other bp); [exact Ht|lia]).
  destruct (join_ring p pn base (glue (bp, n) l2) t) as (u & Eu & Hu & Hru); rewrite ?first_glue; cbn [fst]; try assumption; try lia.
  { rewrite Hp in Hpt. injection Hpt as _ E. exact E. }
  { intros E. destruct (glue_cons (bp, n) l2) as (c & l & E' & _). congruence. }
  { rewrite Forall_forall. intros c Hc. specialize (Hb c Hc). lia. }
  { rewrite Forall_forall. intros c Hc. specialize (Hb c Hc). lia. }
  rewrite first_glue in Eu. cbn [fst] in Eu. exists t, u. destruct Ht as (? & ? & Mt), Hu as (? & ? & Mu).
  split_and!; try congruence; [|intros a Ha1 Ha2; rewrite Mu, Mt by assumption; reflexivity].
  destruct (glue_cons (p, pn) (glue (bp, n) l2)) as (c & l & Eg & Ec). cbn [fst] in Ec. rewrite Eg in *. apply ring_app. rewrite Ec. split; [|exact Hru].
  apply (ring_frame s); [|exact Hr1]. intros d Hd. specialize (L1 d Hd). unfold hdr, hptr, hsize, rd32, bend in *.
  rewrite !Mu, !Mt by lia. reflexivity.
Qed.
End Joins.

Lemma glued_heap (l1 l2 al : list (Z * Z)) (p pn bp n : Z) (s : heap) :
  0 < base /\ base + 8 <= lo -> sorted (l1 ++ (p, pn) :: (bp, n) :: l2) ->
  Forall (in_heap al s) (l1 ++ (p, pn) :: (bp, n) :: l2) -> region (h_brk s) al (bp, n) ->
  head (l1 ++ (p, pn) :: l2) = Some (base, 0) ->
  let fl0 := l1 ++ glue (p, pn) (glue (bp, n) l2) in
  sorted fl0 /\ Forall (in_heap al s) fl0 /\ head fl0 = Some (base, 0) /\ p ∈ fl0.*1 /\
  exists c, c ∈ fl0 /\ n <= c.2.
Proof.
  intros Hb Hs Hh Hbp He fl0. destruct (joins_facts l1 l2 al p pn bp n s Hb Hs Hh Hbp) as (R2 & L2 & Pb & L1 & Pp & F1 & S1 & S2).
  assert (N2 : Forall (fun c => 1 <= c.2) l2) by (eapply Forall_impl; [exact R2|]; intros c [? _]; assumption).
  assert (Hn : 1 <= n) by (destruct Hbp; assumption).
  assert (Np : 0 <= pn) by (destruct Pp as [[= _ ->]|[? _]]; cbn in *; lia).
  apply sorted_app in Hs as (_ & [Hs1 Hs2] & Hs3).
  assert (Rg : Forall (region (h_brk s) al) (glue (bp, n) l2)).
  { apply glue_Forall; [exact Hbp|exact R2|]. intros c Hc E Rc. apply region_glue; assumption. }
  assert (Ng : Forall (fun c => 1 <= c.2) (glue (bp, n) l2)) by (eapply Forall_impl; [exact Rg|]; intros c [? _]; assumption).
  assert (Sg : sorted ((p, pn) :: glue (bp, n) l2)).
  { split; [|apply sorted_glue; [cbn; lia|exact N2|exact Hs2]]. rewrite Forall_forall. intros c Hc.
    apply Forall_cons in Hs1 as [Hs1 Hs1']. rewrite Forall_forall in Hs1'. destruct (glue_elem _ _ _ Hc) as [E|Hc']; [rewrite E; exact Hs1|apply Hs1', Hc']. }
  assert (Gp : forall c, c ∈ glue (p, pn) (glue (bp, n) l2) -> p <= c.1).
  { intros c Hc. destruct (glue_elem _ _ _ Hc) as [E|Hc']; [rewrite E; reflexivity|]. destruct Sg as [Sg _]. rewrite Forall_forall in Sg.
    specialize (Sg c Hc'). unfold bend in Sg. cbn in Sg. lia. }
  split_and!.
  - apply sorted_app. split_and!; [exact S1|apply sorted_glue; assumption|]. intros b c Hb' Hc. specialize (L1 b Hb'). specialize (Gp c Hc). lia.
  - apply Forall_app. split; [exact F1|]. apply glue_Forall; [exact Pp| |].
    + eapply Forall_impl; [exact Rg|]. intros c Hc. right. exact Hc.
    + intros c Hc E _. destruct Sg as [Sg _]. rewrite Forall_forall in Sg, Rg. apply in_heap_glue; auto.
  - unfold fl0. destruct l1 as [|b l1]; [|exact He]. cbn in He. injection He as -> ->. apply Forall_cons in Hs1 as [Hs1 _].
    unfold bend in Hs1. cbn [fst snd] in Hs1. destruct (glue_cons (bp, n) l2) as (c & l & -> & F). cbn [app glue fst snd] in *.
    destruct (Z.eqb_spec (base + 8 * 0) c.1); [lia|reflexivity].
  - unfold fl0. rewrite fmap_app. apply elem_of_app. right.
    destruct (glue_cons (p, pn) (glue (bp, n) l2)) as (c & l & -> & F). cbn in *. rewrite F. left.
  - destruct (glue_grows (bp, n) l2 N2) as (c & Hc & Hle). cbn [snd] in Hle. unfold fl0.
    destruct (glue (bp, n) l2) as [|d l] eqn:E; [set_solver|]. cbn [glue]. destruct (_ =? _); [|exists c; set_solver].
    apply elem_of_cons in Hc as [->|Hc]; [|exists c; set_solver]. exists ((p, pn).1, (p, pn).2 + d.2). cbn. split; [set_solver|lia].
Qed.

Lemma block_place (fl al : list (Z * Z)) (bp n : Z) (s : heap) : heap_ok base lo fl ((bp, n) :: al) s ->
  exists l1 p pn l2, (base, 0) :: fl = l1 ++ (p, pn) :: l2 /\ (forall b, b ∈ l1 ++ [(p, pn)] -> base <= b.1 < bp) /\
    (forall b, b ∈ l2 -> bp < b.1) /\ sorted (l1 ++ (p, pn) :: (bp, n) :: l2) /\
    Forall (in_heap al s) (l1 ++ (p, pn) :: (bp, n) :: l2) /\ region (h_brk s) al (bp, n).
Proof.
  intros H. destruct (ho_range _ _ _ _ _ H (bp, n)) as (N & L & B); [set_solver|]. pose proof (ho_base _ _ _ _ _ H) as Hb.
  pose proof (ho_apart _ _ _ _ _ H) as (_ & [Ab _] & Afl)%all_apart_app. cbn [fst snd] in *.
  assert (Af : forall c, c ∈ fl -> apart c (bp, n)) by (intros c Hc; apply Afl; [exact Hc|left]).
  assert (Hbp : region (h_brk s) al (bp, n)) by (split_and!; assumption).
  assert (Hin : Forall (in_heap al s) ((base, 0) :: fl)).
  { constructor; [left; reflexivity|]. rewrite Forall_forall. intros c Hc. right.
    destruct (heap_ok_region _ _ _ _ H Hc) as (? & ? & ? & A). apply Forall_cons in A as [_ A]. split_and!; assumption. }
  pose proof (ho_sorted _ _ _ _ _ H) as Hs.
  destruct (find_place bp fl (base, 0) Hs) as (l1 & [p pn] & l2 & E & H1 & H2); [cbn; lia| |].
  { intros c Hc E. specialize (Af c Hc). unfold apart, bend in Af. cbn in Af. lia. }
  exists l1, p, pn, l2. rewrite E in Hs, Hin.
  assert (Hlow : forall b, in_heap al s b -> base <= b.1) by (intros b [->|(_ & ? & _)]; cbn; lia).
  assert (Haway : forall c, c ∈ l1 ++ (p, pn) :: l2 -> c = (base, 0) \/ apart c (bp, n)).
  { rewrite <- E. intros c [->|Hc]%elem_of_cons; auto. }
  assert (Hle : forall c, c ∈ l1 ++ [(p, pn)] -> bend c <= bp).
  { intros c Hc. pose proof (H1 c Hc). destruct (Haway c) as [->|[A|A]]; [set_solver|unfold bend; cbn; lia|exact A|unfold bend in A; cbn in *; lia]. }
  assert (Hge : forall c, c ∈ l2 -> bend (bp, n) <= c.1).
  { intros c Hc. pose proof (H2 c Hc). destruct (Haway c) as [->|[A|A]]; [set_solver|cbn in *; lia|unfold bend in A; cbn in *; lia|exact A]. }
  rewrite Forall_app, Forall_cons in Hin. destruct Hin as (I1 & I2 & I3). rewrite sorted_app in Hs. destruct Hs as (S1 & [S2 S3] & S4).
  split_and!; try assumption.
  - intros b Hb'. split; [|apply H1, Hb']. apply Hlow. rewrite Forall_forall in I1. apply elem_of_app in Hb' as [Hb'| ->%list_elem_of_singleton]; auto.
  - apply sorted_app. split_and!; [exact S1| |].
    + split; [constructor; [apply Hle; set_solver|exact S2]|]. split; [rewrite Forall_forall; exact Hge|exact S3].
    + intros b c Hb' [->|[->|Hc]%elem_of_cons]%elem_of_cons; [apply S4; [exact Hb'|left]|apply Hle; set_solver|apply S4; [exact Hb'|right; exact Hc]].
  - apply Forall_app. split; [exact I1|]. constructor; [exact I2|]. constructor; [right; exact Hbp|exact I3].
Qed.

Lemma block_away (al : list (Z * Z)) (s : heap) (bp n p pn : Z) : 0 < base /\ base + 8 <= lo ->
  (forall b, b ∈ al -> 1 <= b.2 /\ lo <= b.1 /\ bend b <= h_brk s) -> region (h_brk s) al (bp, n) -> in_heap al s (p, pn) ->
  forall b, b ∈ al -> (bend b <= bp \/ bp + 8 <= b.1) /\ (bend b <= p \/ p + 8 <= b.1).
Proof.
  intros Hb Hal (Nn & _ & _ & A) Hp b Hb'. destruct (Hal b Hb') as (Nb & Lb & _). rewrite Forall_forall in A. specialize (A b Hb').
  unfold apart, bend in A. cbn [fst snd] in A, Nn. split; [unfold bend; lia|].
  destruct Hp as [[= -> _]|(Np & _ & _ & A')]; [right; lia|]. rewrite Forall_forall in A'. specialize (A' b Hb').
  unfold apart, bend in *. cbn [fst snd] in *. lia.
Qed.

Lemma free_run (fl al : list (Z * Z)) (bp n : Z) (s : heap) (fuel : nat) :
  heap_ok base lo fl ((bp, n) :: al) s -> (length fl + 2 < fuel)%nat ->
  exists t fl', free fuel (u32 (bp + 8)) s = Done tt t /\ heap_ok base lo fl' al t /\ h_brk t = h_brk s /\
    keeps_blocks al s t /\ (exists c, c ∈ fl' /\ n <= c.2) /\ (length fl' <= S (length fl))%nat.
Proof.
  intros H Hf. destruct (block_place _ _ _ _ _ H) as (l1 & p & pn & l2 & E & H1 & H2 & Hs & Hin & Hbp).
  pose proof (ho_base _ _ _ _ _ H) as Hb. pose proof (ho_brk _ _ _ _ _ H) as Hk. pose proof (ho_ring _ _ _ _ _ H) as Hr. rewrite E in Hr.
  assert (He : head (l1 ++ (p, pn) :: l2) = Some (base, 0)) by (rewrite <- E; reflexivity).
  destruct (joins_run l1 l2 al p pn bp n s Hb Hk Hs Hin Hbp Hr) as (t & u & Et & Eu & Hru & Fu & Bu & Mu).
  { apply (ho_al _ _ _ _ _ H (bp, n)). left. }
  destruct (glued_heap l1 l2 al p pn bp n s Hb Hs Hin Hbp He) as (Gs & Gin & Gh & Gp & (c & Gc & Gn)).
  pose proof (ho_apart _ _ _ _ _ H) as (_ & [_ Aal] & _)%all_apart_app.
  assert (Hal : forall b, b ∈ al -> 1 <= b.2 /\ lo <= b.1 /\ bend b <= h_brk s) by (intros b Hb'; apply (ho_range _ _ _ _ _ H); set_solver).
  assert (Haway : forall b, b ∈ al -> (bend b <= bp \/ bp + 8 <= b.1) /\ (bend b <= p \/ p + 8 <= b.1)).
  { apply (block_away al s bp n p pn Hb Hal Hbp). rewrite Forall_forall in Hin. apply Hin. set_solver. }
  pose (v := u <| h_freep := p |>).
  destruct (heap_ok_intro (l1 ++ glue (p, pn) (glue (bp, n) l2)) al v) as (fl' & E' & Hok); try assumption.
  { cbn. rewrite Bu. exact Hk. }
  { apply (ring_frame u); [reflexivity|exact Hru]. }
  { intros b Hb'. rewrite <- (ho_al _ _ _ _ _ H b) by (right; exact Hb'). destruct (Haway b Hb') as [? ?]. unfold hsize, rd32, bend in *.
    cbn. rewrite !Mu by lia. reflexivity. }
  { cbn. rewrite Bu. exact Hal. }
  { cbn. rewrite Bu. exact Gin. }
  { cbn. rewrite Bu, <- (ho_units _ _ _ _ _ H), !units_app, !units_glue. cbn [snd].
    apply (f_equal units) in E. rewrite units_app in E. cbn in E |- *. fold units in *. lia. }
  exists v, fl'. split_and!; [|exact Hok|exact Bu| | |].
  - assert (bp + 8 <= KERNBASE) by (destruct Hbp as (? & _ & B & _); unfold bend in B; cbn in *; lia).
    assert (0 < bp) by (destruct Hbp as (_ & ? & _); cbn in *; lia). unfold KERNBASE in *.
    unfold free. rewrite (u32_small (bp + 8)) by lia. rewrite (u32_small (bp + 8 - 8)), Z.add_simpl_r by lia.
    rewrite (bind_Done (gets h_freep) _ s s (h_freep s) eq_refl).
    rewrite (bind_Done _ _ _ _ _ (seek_run base bp l1 l2 p pn s Hr ltac:(rewrite <- E; apply (ho_sorted _ _ _ _ _ H)) H1 H2 (ex_intro _ 0 He) (h_freep s) fuel
               ltac:(rewrite <- E; apply (ho_freep _ _ _ _ _ H)) ltac:(rewrite <- E; cbn; lia))).
    apply ring_app in Hr as [_ Hr]. rewrite ring_cons in Hr. destruct Hr as [Hp _]. injection Hp as Ep _.
    rewrite (bind_Done (gets (hptr p)) _ s s (first l2 base) ltac:(unfold gets; rewrite <- Ep; reflexivity)).
    rewrite (bind_Done _ _ _ _ _ Et), (bind_Done _ _ _ _ _ Eu). reflexivity.
  - intros b x Hb' Hx. destruct (Haway b Hb') as [? ?]. cbn. apply Mu; lia.
  - exists c. split; [|exact Gn]. rewrite E' in Gc. apply elem_of_cons in Gc as [->|Gc]; [|exact Gc].
    destruct Hbp as (? & _). cbn in *. lia.
  - apply (f_equal length) in E, E'. rewrite length_app in E, E'. cbn in E, E'. pose proof (length_glue (p, pn) (glue (bp, n) l2)).
    pose proof (length_glue (bp, n) l2). lia.
Qed.
End Free.

(** ** Changes of the heap *)

Section Take.
Context (base lo : Z).

(** Memory from the kernel, as an allocated block. *)
Lemma more_memory (fl al : list (Z * Z)) (s : heap) (m : Z) : heap_ok base lo fl al s -> 1 <= m -> h_brk s + 8 * m <= KERNBASE ->
  let s1 := s <| h_brk := u32 (h_brk s + 8 * m) |> in
  exists t, set_size (h_brk s) m s1 = Done tt t /\ heap_ok base lo fl ((h_brk s, m) :: al) t /\
    h_brk t = h_brk s + 8 * m /\ keeps_blocks al s t.
Proof.
  intros H Hm Hk s1. pose proof (ho_base _ _ _ _ _ H) as Hb. pose proof (ho_brk _ _ _ _ _ H) as Hbrk. unfold KERNBASE in *.
  destruct (set_size_run (h_brk s) m s1) as (t & Et & Ht & Hh). exists t. split; [exact Et|].
  assert (Eb : h_brk t = h_brk s + 8 * m) by (destruct Ht as (_ & -> & _); cbn; apply u32_small; lia).
  assert (Hr : forall b, b ∈ fl ++ al -> bend b <= h_brk s /\ b.1 + 8 <= h_brk s).
  { intros b Hb'. destruct (ho_range _ _ _ _ _ H b Hb') as (? & ? & ?). unfold bend in *. lia. }
  split; [|split; [exact Eb|]].
  - constructor; try assumption.
    + unfold KERNBASE. lia.
    + apply (ring_frame s); [|apply (ho_ring _ _ _ _ _ H)]. intros b Hb'. rewrite (hdr_other _ _ _ _ Ht); [reflexivity|].
      apply elem_of_cons in Hb' as [->|Hb']; [cbn; lia|]. right. apply Hr. set_solver.
    + destruct Ht as (-> & _). exact (ho_freep _ _ _ _ _ H).
    + apply (ho_sorted _ _ _ _ _ H).
    + intros b [->|Hb']%elem_of_cons; [injection Hh as _ Es; cbn [fst snd]; rewrite Es; apply u32_small; lia|].
      rewrite <- (ho_al _ _ _ _ _ H b Hb'). assert (E : hdr t b.1 = hdr s1 b.1).
      { apply (hdr_other _ _ _ _ Ht). right. apply Hr. set_solver. }
      injection E as _ ->. reflexivity.
    + rewrite <- Permutation_middle. split; [|apply (ho_apart _ _ _ _ _ H)]. rewrite Forall_forall. intros c Hc.
      right. apply Hr, Hc.
    + intros b Hb'. rewrite <- Permutation_middle in Hb'. apply elem_of_cons in Hb' as [->|Hb']; [unfold bend; cbn; lia|].
      destruct (ho_range _ _ _ _ _ H b Hb') as (? & ? & ?). lia.
    + rewrite units_app. cbn. fold units. pose proof (ho_units _ _ _ _ _ H) as Hu. rewrite units_app in Hu. lia.
  - intros b x Hb' Hx. destruct Ht as (_ & _ & ->); [reflexivity|]. left. destruct (Hr b) as [? _]; [set_solver|lia].
Qed.

(** *** A block is taken out of the ring, whole or its end *)

Lemma ring_first (s : heap) (a n : Z) (l : list (Z * Z)) (z : Z) : ring s ((a, n) :: l) z -> hptr a s = first l z /\ hsize a s = n.
Proof. rewrite ring_cons. intros [H _]. injection H as -> ->. auto. Qed.

Lemma heap_ok_in_heap (fl al : list (Z * Z)) (s : heap) : heap_ok base lo fl al s -> Forall (in_heap base lo al s) ((base, 0) :: fl).
Proof.
  intros H. constructor; [left; reflexivity|]. rewrite Forall_forall. intros c Hc. right. apply (heap_ok_region base lo _ _ _ _ H Hc).
Qed.

Lemma in_heap_away (al : list (Z * Z)) (s : heap) (c x : Z * Z) : base + 8 <= lo -> 1 <= x.2 /\ lo <= x.1 ->
  in_heap base lo al s c -> x ∈ al -> bend x <= c.1 \/ bend c <= x.1.
Proof.
  intros Hb Hx [->|(_ & _ & _ & A)] Hin; [right; unfold bend; cbn; lia|]. rewrite Forall_forall in A. destruct (A x Hin); auto.
Qed.

(** The block [p] after [q] in the ring. *)
Section Split.
Context (fl al a b : list (Z * Z)) (q m p n : Z) (s : heap).
Hypothesis H : heap_ok base lo fl al s.
Hypothesis E : (base, 0) :: fl = a ++ (q, m) :: (p, n) :: b.

Lemma split_order : (forall c, c ∈ a -> bend c <= q) /\ (forall c, c ∈ a ++ [(q, m)] -> bend c <= p) /\ (forall c, c ∈ b -> bend (p, n) <= c.1) /\
  sorted (a ++ (q, m) :: b) /\ sorted a /\ sorted b.
Proof.
  pose proof (ho_sorted _ _ _ _ _ H) as Hs. rewrite E in Hs. apply sorted_app in Hs as (S1 & [S2 [S3 S4]] & S5).
  apply Forall_cons in S2 as [S2 S2']. rewrite Forall_forall in S2', S3.
  split_and!; try assumption.
  - intros c Hc. apply (S5 c (q, m) Hc). left.
  - intros c [Hc| ->%list_elem_of_singleton]%elem_of_app; [apply (S5 c (p, n) Hc); right; left|exact S2].
  - apply sorted_app. split_and!; [exact S1|split; [rewrite Forall_forall; exact S2'|exact S4]|].
    intros c d Hc Hd. apply S5; [exact Hc|]. set_solver.
Qed.

Lemma split_heap : region lo (h_brk s) al (p, n) /\ Forall (in_heap base lo al s) (a ++ (q, m) :: b).
Proof.
  pose proof (heap_ok_in_heap _ _ _ H) as Hin. rewrite E in Hin. pose proof (ho_base _ _ _ _ _ H) as Hb.
  destruct split_order as (_ & Hp & _). split.
  - rewrite Forall_forall in Hin. destruct (Hin (p, n)) as [[= Ep En]|R]; [set_solver| |exact R].
    destruct (Hin (q, m)) as [[= Eq _]|(_ & ? & _)]; [set_solver| |]; specialize (Hp (q, m) ltac:(set_solver)); unfold bend in Hp; cbn in *; lia.
  - rewrite Forall_app, !Forall_cons in *. tauto.
Qed.

Lemma split_ring : hptr p s = first b base /\ hsize p s = n /\ hsize q s = m /\ hptr q s = p /\ ring s a q /\ ring s b base.
Proof.
  pose proof (ho_ring _ _ _ _ _ H) as Hr. rewrite E in Hr. apply ring_app in Hr as [R1 R2]. destruct (ring_first _ _ _ _ _ R2) as [? ?].
  destruct R2 as [_ R2]. destruct (ring_first _ _ _ _ _ R2) as [? ?]. destruct R2 as [_ R2]. cbn [first fst] in *. split_and!; assumption.
Qed.

(** The other blocks stay apart from a part [x] of [p]. *)
Lemma split_more (x : Z * Z) : p <= x.1 -> bend x <= bend (p, n) -> 1 <= x.2 ->
  Forall (in_heap base lo (x :: al) s) (a ++ (q, m) :: b) /\ all_apart (x :: al) /\
  (forall c, c ∈ x :: al -> 1 <= c.2 /\ lo <= c.1 /\ bend c <= h_brk s).
Proof.
  intros Hx1 Hx2 Hx3. destruct split_heap as [(Np & Lp & Bp & Ap) Hin]. destruct split_order as (_ & Ha & Hb & _).
  pose proof (ho_apart _ _ _ _ _ H) as (_ & Aal & _)%all_apart_app. split_and!.
  - rewrite Forall_forall in *. intros c Hc. destruct (Hin c Hc) as [->|(? & ? & ? & A)]; [left; reflexivity|right]. split_and!; try assumption.
    constructor; [|exact A]. unfold apart. change ((q, m) :: b) with ([(q, m)] ++ b) in Hc. rewrite app_assoc in Hc.
    apply elem_of_app in Hc as [Hc|Hc]; [specialize (Ha c Hc)|specialize (Hb c Hc)]; lia.
  - split; [|exact Aal]. eapply Forall_impl; [exact Ap|]. unfold apart, bend in *. cbn [fst snd] in *. intros c Hc. lia.
  - intros c [->|Hc]%elem_of_cons; [unfold bend in *; cbn [fst snd] in *; lia|]. apply (ho_range _ _ _ _ _ H). set_solver.
Qed.

Lemma split_head (c : list (Z * Z)) : head (a ++ (q, m) :: c) = Some (base, 0).
Proof. destruct a; cbn in *; congruence. Qed.

(** [q] lies before [p], apart from the allocated blocks. *)
Lemma split_away : 0 < q /\ q + 8 <= p /\ (forall c, c ∈ a -> c.1 + 8 <= q) /\ (forall c, c ∈ b -> p + 8 * n <= c.1) /\
  forall c, c ∈ al -> (c.1 + 8 <= q \/ q + 8 <= c.1) /\ (bend c <= q \/ q + 8 <= c.1) /\ (bend c <= p \/ p + 8 * n <= c.1).
Proof.
  pose proof (ho_base _ _ _ _ _ H) as Hb. destruct split_order as (H1 & H2 & H3 & _). destruct split_heap as [(Np & Lp & _ & Ap) Hin].
  rewrite Forall_forall in Hin, Ap. cbn [fst snd] in *. assert (Hq : in_heap base lo al s (q, m)) by (apply Hin; set_solver).
  split_and!.
  - destruct Hq as [[= Eq _]|(_ & ? & _)]; cbn in *; lia.
  - specialize (H2 (q, m) ltac:(set_solver)). unfold bend in H2. cbn in H2. lia.
  - intros c Hc. specialize (H1 c Hc). unfold bend in H1. lia.
  - intros c Hc. specialize (H3 c Hc). unfold bend in H3. cbn in H3. lia.
  - intros c Hc. destruct (ho_range _ _ _ _ _ H c) as (Nc & Lc & _); [set_solver|].
    pose proof (in_heap_away al s (q, m) c (proj2 Hb) (conj Nc Lc) Hq Hc) as Hd. specialize (Ap c Hc).
    unfold apart, bend in *. cbn [fst snd] in *. lia.
Qed.

Definition taken (x : Z * Z) (t : heap) : Prop :=
  exists fl', heap_ok base lo fl' (x :: al) t /\ keeps_blocks al s t /\ (length fl' <= length fl)%nat /\ h_brk t = h_brk s.

Lemma split_first : 0 <= first b base < 2 ^ 32.
Proof.
  pose proof (ho_base _ _ _ _ _ H) as Hb. pose proof (ho_brk _ _ _ _ _ H) as Hk. destruct split_heap as [_ Hin]. rewrite Forall_forall in Hin.
  unfold KERNBASE in Hk. destruct b as [|c b']; cbn [first]; [lia|].
  pose proof (in_heap_bounds base lo al s Hb (ho_brk _ _ _ _ _ H) c ltac:(apply Hin; set_solver)) as Hc. unfold KERNBASE in Hc. lia.
Qed.

Lemma take_whole : exists t, set_ptr q (hptr p s) s = Done tt t /\ taken (p, n) (t <| h_freep := q |>).
Proof.
  destruct split_ring as (Rp & Sp & Sq & Rq & Ra & Rb). destruct split_order as (_ & _ & _ & Hs & _).
  destruct split_heap as [(Np & Lp & Bp & _) _]. destruct split_away as (Q0 & Qp & Qa & Qb & Qal).
  destruct (split_more (p, n)) as (Mh & Ma & Mr); [reflexivity|reflexivity|exact Np|]. cbn [fst snd] in *.
  destruct (set_ptr_run q (hptr p s) s) as (t & Et & Ht & Hh). exists t. split; [exact Et|].
  pose (v := t <| h_freep := q |>). pose proof Ht as (_ & Eb & Mt). assert (Ev : h_brk v = h_brk s) by exact Eb.
  destruct (heap_ok_intro base lo (a ++ (q, m) :: b) ((p, n) :: al) v) as (fl' & E' & Hok); rewrite ?Ev; try assumption.
  - exact (ho_base _ _ _ _ _ H).
  - exact (ho_brk _ _ _ _ _ H).
  - apply ring_app. rewrite ring_cons. split_and!.
    + apply (ring_frame s); [|exact Ra]. intros c Hc. apply (hdr_other q _ _ t Ht). right. apply Qa, Hc.
    + change (hdr v q) with (hdr t q). rewrite Hh, Rp, Sq, u32_small by apply split_first. reflexivity.
    + apply (ring_frame s); [|exact Rb]. intros c Hc. apply (hdr_other q _ _ t Ht). specialize (Qb c Hc). lia.
  - rewrite fmap_app. set_solver.
  - apply split_head.
  - intros c Hc. change (hsize c.1 v) with (hdr t c.1).2. rewrite (hdr_other q _ _ t Ht).
    + apply elem_of_cons in Hc as [->|Hc]; [exact Sp|apply (ho_al _ _ _ _ _ H), Hc].
    + apply elem_of_cons in Hc as [->|Hc]; [cbn; lia|destruct (Qal c Hc); lia].
  - rewrite <- (ho_units _ _ _ _ _ H). apply (f_equal units) in E. rewrite !units_app in *. cbn in *. fold units in *. lia.
  - exists fl'. split_and!; [exact Hok| | |].
    + intros c x Hc Hx. change (h_mem v) with (h_mem t). apply Mt. destruct (Qal c Hc) as (_ & ? & _). lia.
    + apply (f_equal length) in E, E'. rewrite length_app in E, E'. cbn in *. lia.
    + exact Ev.
Qed.

Lemma split_shrunk (k : Z) : 1 <= k < n -> let r := p + 8 * (n - k) in
  let fl0 := a ++ (q, m) :: (p, n - k) :: b in
  sorted fl0 /\ Forall (in_heap base lo ((r, k) :: al) s) fl0.
Proof.
  intros Hkn r fl0. destruct split_order as (Ha & Hap & Hbp & Hs & _). destruct split_heap as [(Np & Lp & Bp & Ap) _].
  assert (Er : bend (r, k) = bend (p, n)) by (unfold bend, r; cbn [fst snd] in *; lia).
  destruct (split_more (r, k)) as (Mh & _ & _); [unfold r; cbn; lia|lia|cbn; lia|].
  apply sorted_app in Hs as (S1 & [S2 S3] & S4). unfold bend in Bp. cbn [fst snd] in *. split.
  - apply sorted_app. split_and!; [exact S1| |].
    + split; [constructor; [apply Hap; set_solver|exact S2]|]. split; [|exact S3]. rewrite Forall_forall. intros c Hc. specialize (Hbp c Hc).
      unfold bend in *. cbn [fst snd] in *. lia.
    + intros c d Hc [->|[->|Hd]%elem_of_cons]%elem_of_cons; [apply Ha, Hc|apply Hap; set_solver|apply S4; [exact Hc|right; exact Hd]].
  - unfold fl0. rewrite Forall_app, !Forall_cons in *. destruct Mh as (? & ? & ?). split_and!; try assumption. right. unfold region, bend. cbn [fst snd].
    split_and!; try lia. constructor; [unfold apart, bend, r; cbn; lia|]. eapply Forall_impl; [exact Ap|].
    unfold apart, bend. cbn [fst snd]. intros c Hc. lia.
Qed.

(** The last [k] units of [p]. *)
Lemma take_end (k : Z) : 1 <= k < n -> let r := p + 8 * (n - k) in
  exists t u, set_size p (n - k) s = Done tt t /\ set_size r k t = Done tt u /\ taken (r, k) (u <| h_freep := q |>).
Proof.
  intros Hkn r. destruct split_ring as (Rp & Sp & Sq & Rq & Ra & Rb). destruct (split_shrunk k Hkn) as [Hs Hin].
  destruct split_heap as [(Np & Lp & Bp & Ap) _]. destruct split_away as (Q0 & Qp & Qa & Qb & Qal).
  assert (Er : bend (r, k) = bend (p, n)) by (unfold bend, r; cbn [fst snd] in *; lia).
  destruct (split_more (r, k)) as (Mh & Ma & Mr); [unfold r; cbn; lia|lia|cbn; lia|]. cbn [fst snd] in *.
  pose proof (ho_brk _ _ _ _ _ H) as Hk. unfold KERNBASE in Hk. pose proof (ho_base _ _ _ _ _ H) as Hb.
  destruct (set_size_run p (n - k) s) as (t & Et & Ht & Hh). destruct (set_size_run r k t) as (u & Eu & Hu & Hh').
  exists t, u. split; [exact Et|]. split; [exact Eu|].
  pose (v := u <| h_freep := q |>). assert (Ev : h_brk v = h_brk s) by (destruct Ht as (_ & <- & _), Hu as (_ & <- & _); reflexivity).
  assert (Hframe : forall c, c + 8 <= p \/ p + 8 * n <= c -> hdr v c = hdr s c).
  { intros c Hc. change (hdr v c) with (hdr u c). rewrite (hdr_other r _ _ u Hu), (hdr_other p _ _ t Ht) by (unfold r; lia). reflexivity. }
  unfold bend in Bp. cbn [fst snd] in Bp.
  assert (Hvp : hdr v p = (first b base, n - k)).
  { change (hdr v p) with (hdr u p). rewrite (hdr_other r _ _ u Hu), Hh, Rp, u32_small by (unfold r; lia). reflexivity. }
  destruct (heap_ok_intro base lo (a ++ (q, m) :: (p, n - k) :: b) ((r, k) :: al) v) as (fl' & E' & Hok); rewrite ?Ev; try assumption.
  - apply ring_app. rewrite !ring_cons. cbn [first fst]. split_and!.
    + apply (ring_frame s); [|exact Ra]. intros c Hc. apply Hframe. specialize (Qa c Hc). lia.
    + rewrite Hframe by lia. unfold hdr. rewrite Sq, Rq. reflexivity.
    + exact Hvp.
    + apply (ring_frame s); [|exact Rb]. intros c Hc. apply Hframe. right. apply Qb, Hc.
  - rewrite fmap_app. set_solver.
  - apply split_head.
  - intros c [->|Hc]%elem_of_cons; [injection Hh' as _ Es; change (hsize r u = k); rewrite Es, u32_small by lia; reflexivity|].
    change (hsize c.1 v) with (hdr v c.1).2. rewrite Hframe; [apply (ho_al _ _ _ _ _ H), Hc|].
    destruct (Qal c Hc) as (_ & _ & ?). unfold bend in *. lia.
  - rewrite <- (ho_units _ _ _ _ _ H). apply (f_equal units) in E. rewrite !units_app in *. cbn in *. fold units in *. lia.
  - exists fl'. split_and!; [exact Hok| | |].
    + intros c x Hc Hx. change (h_mem v) with (h_mem u). destruct Ht as (_ & _ & Mt), Hu as (_ & _ & Mu), (Qal c Hc) as (_ & _ & ?).
      rewrite Mu, Mt by (unfold r, bend in *; lia). reflexivity.
    + apply (f_equal length) in E, E'. rewrite length_app in E, E'. cbn in *. lia.
    + exact Ev.
Qed.

End Split.

(** The ring from the successor of [freep] around to [freep]. *)
Lemma ring_rotated (fl al : list (Z * Z)) (s : heap) : heap_ok base lo fl al s ->
  exists l n, l ++ [(h_freep s, n)] ≡ₚ (base, 0) :: fl /\ ring s (l ++ [(h_freep s, n)]) (hptr (h_freep s) s) /\
    hptr (h_freep s) s = first (l ++ [(h_freep s, n)]) 0 /\ (forall c, c ∈ l -> c.1 <> h_freep s).
Proof.
  intros H. assert (Hf : h_freep s ∈ ((base, 0) :: fl).*1) by exact (ho_freep _ _ _ _ _ H).
  apply list_elem_of_fmap in Hf as ([f n] & Ef & Hf). cbn [fst] in Ef. rewrite Ef. clear Ef. apply list_elem_of_split in Hf as (a & b & E).
  pose proof (ho_ring _ _ _ _ _ H) as Hr. pose proof (ho_sorted _ _ _ _ _ H) as Hs. rewrite E in Hr, Hs.
  apply ring_app in Hr as [Ra Rf]. destruct (ring_first _ _ _ _ _ Rf) as [Pf Sf]. destruct Rf as [_ Rb]. cbn [fst] in Ra.
  apply sorted_app in Hs as (_ & [Sb _] & Sa). exists (b ++ a), n. rewrite <- app_assoc. rewrite Pf.
  assert (Hl : ring s [(f, n)] (first b base)) by (cbn; unfold hdr; rewrite Pf, Sf; auto).
  split_and!.
  - rewrite E. rewrite (Permutation_app_comm b). rewrite <- app_assoc. reflexivity.
  - destruct a as [|c a]; cbn [app] in *.
    + injection E as Eb _ _. apply ring_app. cbn [fst]. rewrite <- Eb at 1. split; [exact Rb|exact Hl].
    + injection E as <- _. apply ring_app. cbn [fst]. split; [exact Rb|]. change ((base, 0) :: a ++ [(f, n)]) with (((base, 0) :: a) ++ [(f, n)]).
      apply ring_app. split; [exact Ra|exact Hl].
  - destruct b as [|c b]; [|reflexivity]. destruct a as [|c a]; cbn in E |- *; [congruence|]. injection E as <- _. reflexivity.
  - rewrite Forall_forall in Sb. intros c [Hc|Hc]%elem_of_app.
    + specialize (Sb c Hc). unfold bend in Sb. cbn in Sb. lia.
    + specialize (Sa c (f, n) Hc ltac:(left)). unfold bend in Sa. cbn in Sa. lia.
Qed.

(** The block behind [q]. *)
Lemma cursor_split (fl al : list (Z * Z)) (s : heap) (q p : Z) : heap_ok base lo fl al s ->
  q ∈ ((base, 0) :: fl).*1 -> hptr q s = p -> p <> base ->
  exists a b m, (base, 0) :: fl = a ++ (q, m) :: (p, hsize p s) :: b.
Proof.
  intros H ([q' m] & -> & Hq)%list_elem_of_fmap Hp Hne. cbn [fst] in Hp. apply list_elem_of_split in Hq as (a & b & E).
  pose proof (ho_ring _ _ _ _ _ H) as Hr. rewrite E in Hr. apply ring_app in Hr as [_ Rq]. destruct (ring_first _ _ _ _ _ Rq) as [Pq _].
  destruct Rq as [_ Rq]. destruct b as [|[c k] b]; cbn [first fst] in Pq; [congruence|].
  destruct (ring_first _ _ _ _ _ Rq) as [_ Sc]. exists a, b, m. cbn [fst]. rewrite E. congruence.
Qed.
End Take.

(** ** malloc *)

Section Malloc.
Context (base lo : Z) (grants : Z -> Z -> bool).

(** The kernel grants no memory from KERNBASE on. *)
Hypothesis grants_user : forall brk n, grants brk n = true -> 0 <= n -> brk + n <= KERNBASE.

Lemma sbrk_granted (s : heap) (n : Z) : grants (h_brk s) n = true ->
  sbrk grants n s = Done (h_brk s) (s <| h_brk := u32 (h_brk s + n) |>).
Proof using. intros E. unfold sbrk, mbind, M_bind, get, modify, mret, M_ret. cbn. rewrite E. reflexivity. Qed.

Lemma sbrk_refused (s : heap) (n : Z) : grants (h_brk s) n = false -> sbrk grants n s = Done (u32 (-1)) s.
Proof using. intros E. unfold sbrk, mbind, M_bind, get, modify, mret, M_ret. cbn. rewrite E. reflexivity. Qed.

Definition core (nu : Z) : Z := if nu <? 4096 then 4096 else nu.

Lemma morecore_run (fl al : list (Z * Z)) (s : heap) (nu : Z) (fuel : nat) :
  heap_ok base lo fl al s -> 1 <= nu -> nu * 8 < 2 ^ 31 -> (length fl + 2 < fuel)%nat ->
  (grants (h_brk s) (8 * core nu) = false /\ morecore grants fuel nu s = Done 0 s) \/
  exists t fl', morecore grants fuel nu s = Done (h_freep t) t /\ heap_ok base lo fl' al t /\
    keeps_blocks al s t /\ (exists c, c ∈ fl' /\ nu <= c.2) /\ (length fl' <= S (length fl))%nat /\
    grants (h_brk s) (8 * core nu) = true /\ h_brk t = h_brk s + 8 * core nu.
Proof.
  intros H Hn Hm Hf. unfold morecore. fold (core nu).
  assert (Hc : nu <= core nu /\ 1 <= core nu /\ 8 * core nu < 2 ^ 31) by (unfold core; destruct (Z.ltb_spec nu 4096); lia).
  rewrite (s32_small (core nu * 8)), (Z.mul_comm (core nu)) by lia.
  pose proof (ho_base _ _ _ _ _ H) as Hb. pose proof (ho_brk _ _ _ _ _ H) as Hbrk. unfold KERNBASE in Hbrk.
  destruct (grants (h_brk s) (8 * core nu)) eqn:Eg; [right|left; split; [reflexivity|]].
  - pose proof (grants_user _ _ Eg ltac:(lia)) as Hk.
    destruct (more_memory base lo fl al s (core nu) H ltac:(lia) Hk) as (t & Et & Hok & Eb & Kt).
    destruct (free_run base lo fl al (h_brk s) (core nu) t fuel Hok Hf) as (u & fl' & Eu & Hu & Bu & Ku & (c & Cc & Cn) & Hl).
    exists u, fl'. split_and!; [|exact Hu| |exists c; split; [exact Cc|lia]|exact Hl|reflexivity|congruence].
    + rewrite (bind_Done _ _ _ _ _ (sbrk_granted _ _ Eg)).
      destruct (Z.eqb_spec (h_brk s) (u32 (-1))) as [E|_]; [change (u32 (-1)) with (2 ^ 32 - 1) in E; lia|].
      rewrite (bind_Done _ _ _ _ _ Et), (bind_Done _ _ _ _ _ Eu). reflexivity.
    + exact (keeps_trans _ _ _ _ Kt Ku).
  - rewrite (bind_Done _ _ _ _ _ (sbrk_refused _ _ Eg)), Z.eqb_refl. reflexivity.
Qed.


Lemma turn_take (fl al a b : list (Z * Z)) (q m p n k : Z) (s : heap) (fuel : nat) : heap_ok base lo fl al s ->
  (base, 0) :: fl = a ++ (q, m) :: (p, n) :: b -> 1 <= k <= n ->
  exists x t, malloc_turn grants fuel k (q, p) s = Done (inr (u32 (x + 8))) t /\ taken base lo fl al s (x, k) t.
Proof.
  intros H E Hk. destruct (split_ring base lo fl al a b q m p n s H E) as (_ & Sp & _).
  destruct (split_heap base lo fl al a b q m p n s H E) as [(_ & L & B & _) _]. pose proof (ho_brk _ _ _ _ _ H) as Hbrk.
  pose proof (ho_base _ _ _ _ _ H) as Hb. unfold bend, KERNBASE in *. cbn [fst snd] in *.
  unfold malloc_turn. erewrite (bind_Done (gets (hsize p))) by reflexivity. rewrite Sp.
  destruct (Z.geb_spec n k); [|lia]. destruct (Z.eqb_spec n k) as [<-|Hne].
  - destruct (take_whole base lo fl al a b q m p n s H E) as (t & Et & Ht). exists p, (t <| h_freep := q |>). split; [|exact Ht].
    erewrite (bind_Done (gets (hptr p))) by reflexivity. rewrite (bind_Done _ _ _ _ _ Et). reflexivity.
  - destruct (take_end base lo fl al a b q m p n s H E k ltac:(lia)) as (t & u & Et & Eu & Hu).
    exists (p + 8 * (n - k)), (u <| h_freep := q |>). split; [|exact Hu]. rewrite (bind_Done _ _ _ _ _ Et). cbv zeta.
    rewrite (u32_small (p + 8 * (n - k))) by lia. rewrite (bind_Done _ _ _ _ _ Eu). reflexivity.
Qed.

Lemma turn_skip (q p k : Z) (s : heap) (fuel : nat) : hsize p s < k -> p <> h_freep s ->
  malloc_turn grants fuel k (q, p) s = Done (inl (p, hptr p s)) s.
Proof.
  intros Hs Hf. unfold malloc_turn, mbind, M_bind, gets, mret, M_ret. cbn. destruct (Z.geb_spec (hsize p s) k); [lia|].
  destruct (Z.eqb_spec p (h_freep s)); [contradiction|reflexivity].
Qed.

(** One way around the ring. *)
Section Scan.
Context (fl al : list (Z * Z)) (s : heap) (n k : Z) (fuel : nat).
Hypothesis H : heap_ok base lo fl al s.
Hypothesis Hk : 1 <= k.
Abbreviation last := (h_freep s, n).
Abbreviation next := (hptr (h_freep s) s).

Lemma ring_size (p m : Z) : (p, m) ∈ (base, 0) :: fl -> hsize p s = m.
Proof.
  intros (a & b & E)%list_elem_of_split. pose proof (ho_ring _ _ _ _ _ H) as Hr. rewrite E in Hr. apply ring_app in Hr as [_ Hr].
  apply (ring_first _ _ _ _ _ Hr).
Qed.

Lemma turn_big (q p m : Z) : (p, m) ∈ (base, 0) :: fl -> k <= m -> q ∈ ((base, 0) :: fl).*1 -> hptr q s = p ->
  exists x t, malloc_turn grants fuel k (q, p) s = Done (inr (u32 (x + 8))) t /\ taken base lo fl al s (x, k) t.
Proof.
  intros Hp Hm Hq Hqp. destruct (cursor_split base lo fl al s q p H Hq Hqp) as (a & b & m' & E).
  { intros ->. apply ring_size in Hp as Hs. pose proof (ring_size base 0 ltac:(left)). lia. }
  rewrite (ring_size p m Hp) in E. apply (turn_take fl al a b q m' p m k s fuel H E). lia.
Qed.

Lemma scan_take (l : list (Z * Z)) : forall q t, ring s (l ++ [last]) next -> q ∈ ((base, 0) :: fl).*1 ->
  (forall c, c ∈ l ++ [last] -> c ∈ (base, 0) :: fl) -> hptr q s = first (l ++ [last]) 0 -> (forall c, c ∈ l -> c.1 <> h_freep s) ->
  (exists c, c ∈ l ++ [last] /\ k <= c.2) -> (length l < t)%nat ->
  exists x u, while_loop t (malloc_turn grants fuel k) (q, first (l ++ [last]) 0) s = Done (u32 (x + 8)) u /\ taken base lo fl al s (x, k) u.
Proof.
  induction l as [|[p m] l IH]; intros q t Hr Hq Hin Hp Hf (c & Hc & Hck) Ht; (destruct t as [|t]; [cbn in Ht; lia|]); cbn [while_loop app first fst] in *.
  - apply list_elem_of_singleton in Hc as ->. destruct (turn_big q (h_freep s) n (Hin _ ltac:(left)) Hck Hq Hp) as (x & u & Eu & Hu).
    exists x, u. rewrite (bind_Done _ _ _ _ _ Eu). auto.
  - pose proof (Hin (p, m) ltac:(left)) as Hpm. destruct (Z.leb_spec k m) as [Hm|Hm].
    + destruct (turn_big q p m Hpm Hm Hq Hp) as (x & u & Eu & Hu). exists x, u. rewrite (bind_Done _ _ _ _ _ Eu). auto.
    + rewrite ring_cons in Hr. destruct Hr as [Hpr Hr]. injection Hpr as Hpr Hps.
      rewrite (bind_Done _ _ _ _ _ (turn_skip q p k s fuel ltac:(lia) (Hf (p, m) ltac:(left)))).
      assert (Ef : first (l ++ [last]) next = first (l ++ [last]) 0) by (destruct l; reflexivity). rewrite Hpr, Ef. apply IH.
      * exact Hr.
      * apply (list_elem_of_fmap_2 fst _ _ Hpm).
      * intros d Hd. apply Hin. right. exact Hd.
      * rewrite Hpr, Ef. reflexivity.
      * intros d Hd. apply Hf. right. exact Hd.
      * exists c. apply elem_of_cons in Hc as [->|Hc]; [cbn in Hck; lia|auto].
      * cbn in Ht. lia.
Qed.

Lemma scan_fail (l : list (Z * Z)) : forall q t, ring s (l ++ [last]) next -> (forall c, c ∈ l -> c.1 <> h_freep s) ->
  (forall c, c ∈ l -> c.2 < k) ->
  exists q', while_loop (length l + t) (malloc_turn grants fuel k) (q, first (l ++ [last]) 0) s =
    while_loop t (malloc_turn grants fuel k) (q', h_freep s) s.
Proof.
  induction l as [|[p m] l IH]; intros q t Hr Hf Hs; [exists q; reflexivity|]. cbn [length plus app first fst while_loop] in *.
  rewrite ring_cons in Hr. destruct Hr as [Hpr Hr]. injection Hpr as Hpr Hps. pose proof (Hs (p, m) ltac:(left)) as Hm. cbn in Hm.
  rewrite (bind_Done _ _ _ _ _ (turn_skip q p k s fuel ltac:(lia) (Hf (p, m) ltac:(left)))).
  assert (Ef : first (l ++ [last]) next = first (l ++ [last]) 0) by (destruct l; reflexivity). rewrite Hpr, Ef.
  apply IH; [exact Hr| |]; intros d Hd; [apply Hf|apply Hs]; right; exact Hd.
Qed.
End Scan.

Lemma heap_ok_freep (fl al : list (Z * Z)) (s : heap) : heap_ok base lo fl al s -> (h_freep s =? 0) = false.
Proof.
  intros H. pose proof (ho_freep _ _ _ _ _ H) as Hin. pose proof (ho_base _ _ _ _ _ H). apply Z.eqb_neq. intros E.
  rewrite E in Hin. apply elem_of_cons in Hin as [?|(c & Ec & Hc)%list_elem_of_fmap]; [lia|].
  destruct (ho_range _ _ _ _ _ H c) as (_ & ? & _); [set_solver|lia].
Qed.

(** At [freep], after the last block: more memory. *)
Lemma turn_core (fl al : list (Z * Z)) (q k : Z) (s : heap) (fuel : nat) :
  heap_ok base lo fl al s -> 1 <= k -> k * 8 < 2 ^ 31 -> (length fl + 2 < fuel)%nat -> hsize (h_freep s) s < k ->
  (grants (h_brk s) (8 * core k) = false /\ malloc_turn grants fuel k (q, h_freep s) s = Done (inr 0) s) \/
  exists t fl', malloc_turn grants fuel k (q, h_freep s) s = Done (inl (h_freep t, hptr (h_freep t) t)) t /\ heap_ok base lo fl' al t /\
    keeps_blocks al s t /\ (exists c, c ∈ fl' /\ k <= c.2) /\ (length fl' <= S (length fl))%nat /\
    grants (h_brk s) (8 * core k) = true /\ h_brk t = h_brk s + 8 * core k.
Proof.
  intros H Hk Hk' Hf Hs. unfold malloc_turn. erewrite (bind_Done (gets (hsize _))) by reflexivity.
  destruct (Z.geb_spec (hsize (h_freep s) s) k); [lia|]. erewrite (bind_Done (gets h_freep)) by reflexivity. rewrite Z.eqb_refl.
  destruct (morecore_run fl al s k fuel H Hk Hk' Hf) as [[Eg Em]|(t & fl' & Em & Hok & Ht)].
  - left. rewrite (bind_Done _ _ _ _ _ Em). auto.
  - right. exists t, fl'. split; [|auto]. rewrite (bind_Done _ _ _ _ _ Em). rewrite (heap_ok_freep _ _ _ Hok). reflexivity.
Qed.

Abbreviation search fuel k s t := (while_loop t (malloc_turn grants fuel k) (h_freep s, hptr (h_freep s) s) s).

Lemma search_take (fl al : list (Z * Z)) (s : heap) (k : Z) (fuel t : nat) : heap_ok base lo fl al s -> 1 <= k ->
  (exists c, c ∈ fl /\ k <= c.2) -> (length fl < t)%nat ->
  exists x u, search fuel k s t = Done (u32 (x + 8)) u /\ taken base lo fl al s (x, k) u.
Proof.
  intros H Hk (c & Hc & Hck) Ht. destruct (ring_rotated base lo fl al s H) as (l & n & Hperm & Hr & Hfst & Hl).
  pose proof (Permutation_length Hperm) as Elen. rewrite length_app in Elen. cbn in Elen. rewrite Hfst.
  apply (scan_take fl al s n k fuel H Hk l); try assumption.
  - exact (ho_freep _ _ _ _ _ H).
  - intros d. rewrite Hperm. auto.
  - exists c. rewrite Hperm. split; [right; exact Hc|exact Hck].
  - lia.
Qed.

(** The end of the program stays, or the kernel has granted what was asked for. *)
Definition grown (k : Z) (s t : heap) : Prop :=
  h_brk t = h_brk s \/ (grants (h_brk s) (8 * core k) = true /\ h_brk t = h_brk s + 8 * core k).

Definition fits (k : Z) (c : Z * Z) : bool := k <=? c.2.

Lemma search_run (fl al : list (Z * Z)) (s : heap) (k : Z) (fuel : nat) : heap_ok base lo fl al s -> 1 <= k -> k * 8 < 2 ^ 31 ->
  (2 * length fl + 4 < fuel)%nat ->
  (exists x t fl', search fuel k s fuel = Done (u32 (x + 8)) t /\ heap_ok base lo fl' ((x, k) :: al) t /\ keeps_blocks al s t /\
     (length fl' <= S (length fl))%nat /\ grown k s t) \/
  (search fuel k s fuel = Done 0 s /\ grants (h_brk s) (8 * core k) = false /\ forall c, c ∈ fl -> c.2 < k).
Proof.
  intros H Hk Hk' Hf. destruct (existsb (fits k) fl) eqn:Eb.
  - left. apply existsb_exists in Eb as (c & Hc%list_elem_of_In & Hck%Z.leb_le).
    destruct (search_take fl al s k fuel fuel H Hk) as (x & u & Eu & fl' & H1 & H2 & H3 & H4); [eauto|lia|]. exists x, u, fl'. unfold grown. auto 10.
  - assert (Hno : forall c, c ∈ fl -> c.2 < k).
    { intros c Hc. destruct (Z.ltb_spec c.2 k); [assumption|]. rewrite <- not_true_iff_false in Eb. exfalso. apply Eb, existsb_exists.
      exists c. split; [apply list_elem_of_In, Hc|apply Z.leb_le; assumption]. }
    destruct (ring_rotated base lo fl al s H) as (l & n & Hperm & Hr & Hfst & Hl).
    assert (Hsmall : forall c, c ∈ l ++ [(h_freep s, n)] -> c.2 < k).
    { intros c. rewrite Hperm. intros [->|Hc]%elem_of_cons; [cbn; lia|auto]. }
    pose proof (Permutation_length Hperm) as Elen. rewrite length_app in Elen. cbn in Elen.
    destruct (scan_fail s n k fuel l (h_freep s) (fuel - length l) Hr Hl) as (q & Eq); [set_solver|].
    rewrite <- Hfst in Eq. replace (length l + (fuel - length l))%nat with fuel in Eq by lia. rewrite Eq.
    destruct (fuel - length l)%nat as [|t] eqn:Et; [lia|]. cbn [while_loop].
    assert (Sf : hsize (h_freep s) s < k).
    { apply ring_app in Hr as [_ Hr]. destruct (ring_first _ _ _ _ _ Hr) as [_ ->]. apply (Hsmall (h_freep s, n)). set_solver. }
    destruct (turn_core fl al q k s fuel H Hk Hk' ltac:(lia) Sf) as [[Eg Em]|(u & fl' & Em & Hok & Ku & Hbig & Hlen & Hg & Hbk)].
    + right. rewrite (bind_Done _ _ _ _ _ Em). auto.
    + left. rewrite (bind_Done _ _ _ _ _ Em). destruct (search_take fl' al u k fuel t Hok Hk Hbig ltac:(lia)) as (x & v & Ev & fl'' & H1 & H2 & H3 & H4).
      exists x, v, fl''. split_and!; [exact Ev|exact H1|exact (keeps_trans _ _ _ _ Ku H2)|lia|right; split; [exact Hg|congruence] ].
Qed.

(** The heap before the first call of [malloc], or after it. *)
Definition heap_inv (fl al : list (Z * Z)) (s : heap) : Prop :=
  heap_ok base lo fl al s \/
  (fl = [] /\ al = [] /\ h_freep s = 0 /\ h_brk s = lo /\ 0 < base /\ base + 8 <= lo <= KERNBASE).

Lemma first_ring (s : heap) : h_brk s = lo -> 0 < base -> base + 8 <= lo <= KERNBASE ->
  exists t, (modify (fun s => s <| h_freep := base |>);; set_ptr base base;; set_size base 0) s = Done tt t /\ heap_ok base lo [] [] t.
Proof.
  intros Hbrk Hb Hlo. pose (s1 := s <| h_freep := base |>). destruct (set_ptr_run base base s1) as (t & Et & Ht & Hh).
  destruct (set_size_run base 0 t) as (u & Eu & Hu & Hh'). exists u. split.
  - transitivity ((set_ptr base base;; set_size base 0) s1); [reflexivity|]. rewrite (bind_Done _ _ _ _ _ Et). exact Eu.
  - destruct Ht as (Ft & Bt & _), Hu as (Fu & Bu & _). unfold KERNBASE in *. constructor; rewrite ?Bu, ?Bt; cbn; rewrite ?Hbrk; unfold KERNBASE; auto; try lia.
    + split; [|exact I]. rewrite Hh'. injection Hh as -> _. rewrite u32_small by lia. reflexivity.
    + rewrite Fu, Ft. left.
    + set_solver.
    + set_solver.
Qed.

Definition nunits (nbytes : Z) : Z := u32 (nbytes + 8 - 1) / 8 + 1.

Lemma malloc_run (fl al : list (Z * Z)) (s : heap) (nbytes : Z) (fuel : nat) :
  heap_inv fl al s -> 0 <= nbytes -> nbytes + 15 < 2 ^ 31 -> (2 * length fl + 4 < fuel)%nat ->
  (exists x t fl', malloc base grants fuel nbytes s = Done (u32 (x + 8)) t /\ heap_inv fl' ((x, nunits nbytes) :: al) t /\ keeps_blocks al s t /\
     (length fl' <= S (length fl))%nat /\ grown (nunits nbytes) s t) \/
  (exists t, malloc base grants fuel nbytes s = Done 0 t /\ heap_inv fl al t /\ keeps_blocks al s t /\ h_brk t = h_brk s /\
     grants (h_brk s) (8 * core (nunits nbytes)) = false /\ forall c, c ∈ fl -> c.2 < nunits nbytes).
Proof.
  intros H Hn Hn' Hf. unfold malloc. fold (nunits nbytes). erewrite (bind_Done (gets h_freep)) by reflexivity.
  assert (Hk : 1 <= nunits nbytes /\ nunits nbytes * 8 < 2 ^ 31).
  { unfold nunits. rewrite u32_small by lia. pose proof (Z.div_mod (nbytes + 8 - 1) 8 ltac:(lia)). pose proof (Z.mod_pos_bound (nbytes + 8 - 1) 8). lia. }
  assert (Hgo : exists t, (if h_freep s =? 0 then modify (fun s => s <| h_freep := base |>);; set_ptr base base;; set_size base 0 else mret tt) s = Done tt t /\
     heap_ok base lo fl al t /\ keeps_blocks al s t /\ h_brk t = h_brk s).
  { destruct H as [H|(-> & -> & Hz & Hbrk & Hb & Hlo)].
    - exists s. rewrite (heap_ok_freep _ _ _ H). split_and!; [reflexivity|exact H|intros b x _ _; reflexivity|reflexivity].
    - rewrite Hz. destruct (first_ring s Hbrk Hb Hlo) as (t & Et & Hok). exists t. split_and!; [exact Et|exact Hok|intros b x Hb'; set_solver|].
      pose proof (ho_units _ _ _ _ _ Hok) as Hu. cbn in Hu. lia. }
  destruct Hgo as (t & Et & Hok & Kt & Bt). rewrite (bind_Done _ _ _ _ _ Et).
  erewrite (bind_Done (gets h_freep)) by reflexivity. erewrite (bind_Done (gets (hptr _))) by reflexivity.
  destruct (search_run fl al t (nunits nbytes) fuel Hok (proj1 Hk) (proj2 Hk) Hf) as [(x & u & fl' & Eu & Hu & Ku & Hl & Hgr)|(Eu & Hg & Hs)].
  - left. exists x, u, fl'. split_and!; [exact Eu|left; exact Hu|exact (keeps_trans _ _ _ _ Kt Ku)|exact Hl|unfold grown in *; rewrite <- Bt; exact Hgr].
  - right. exists t. rewrite <- Bt. split_and!; [exact Eu|left; exact Hok|exact Kt|reflexivity|exact Hg|exact Hs].
Qed.
End Malloc.

(** ** Programs

    A program that allocates, releases, writes and reads: [i] is the number of
    a live array, the newest first. *)

Inductive hop : Type :=
  | Malloc (nbytes : Z)
  | Free (i : nat)
  | Store (i : nat) (off v : Z)
  | Load (i : nat) (off : Z).

Definition in_array (off n : Z) : bool := (0 <=? off) && (off <? n).

Section Program.
Context (base : Z) (grants : Z -> Z -> bool) (fuel : nat).

(** [live] has the pointers and the sizes asked for; an operation without an
    array, or out of its bounds, is not done. *)
Definition hexec (op : hop) (live : list (Z * Z)) : M heap (list (Z * Z) * Z) :=
  match op with
  | Malloc n =>
      a ← malloc base grants fuel n;
      mret (if a =? 0 then live else (a, n) :: live, a)
  | Free i =>
      match live !! i with
      | Some (a, _) => free fuel a;; mret (delete i live, 0)
      | None => mret (live, 0)
      end
  | Store i off v =>
      match live !! i with
      | Some (a, n) => when (in_array off n) (modify (fun s => s <| h_mem ::= wr (a + off) v |>));; mret (live, 0)
      | None => mret (live, 0)
      end
  | Load i off =>
      match live !! i with
      | Some (a, n) => if in_array off n then v ← gets (fun s => rd (h_mem s) (a + off)); mret (live, v) else mret (live, 0)
      | None => mret (live, 0)
      end
  end.

Fixpoint hrun (ops : list hop) (live : list (Z * Z)) : M heap (list Z) :=
  match ops with
  | [] => mret []
  | op :: ops' => r ← hexec op live; outs ← hrun ops' r.1; mret (r.2 :: outs)
  end.

(** The arrays the program means, their sizes and the bytes written, and the
    end of the program.  An allocation gives a new array; the program may grow
    for it, by the units asked for and at least 4096 of them, if the kernel grants
    that at the present end; it fails only if the kernel refuses just that. *)
Abbreviation array := (Z * gmap Z Z)%type.

Inductive aexec : hop -> list array -> Z -> Z -> list array -> Z -> Prop :=
  | a_malloc n l brk a : a <> 0 -> aexec (Malloc n) l brk a ((n, ∅) :: l) brk
  | a_grow n l brk a : a <> 0 -> grants brk (8 * core (nunits n)) = true -> aexec (Malloc n) l brk a ((n, ∅) :: l) (brk + 8 * core (nunits n))
  | a_refused n l brk : grants brk (8 * core (nunits n)) = false -> aexec (Malloc n) l brk 0 l brk
  | a_free i l brk : aexec (Free i) l brk 0 (delete i l) brk
  | a_store i off v l brk n m : l !! i = Some (n, m) -> in_array off n = true -> aexec (Store i off v) l brk 0 (<[i := (n, <[off := v]> m)]> l) brk
  | a_load i off l brk n m v : l !! i = Some (n, m) -> in_array off n = true -> (forall w, m !! off = Some w -> v = w) -> aexec (Load i off) l brk v l brk
  | a_no_store i off v l brk : (forall n m, l !! i = Some (n, m) -> in_array off n = false) -> aexec (Store i off v) l brk 0 l brk
  | a_no_load i off l brk : (forall n m, l !! i = Some (n, m) -> in_array off n = false) -> aexec (Load i off) l brk 0 l brk.

Inductive aruns : list hop -> list array -> Z -> list Z -> Z -> Prop :=
  | aruns_nil l brk : aruns [] l brk [] brk
  | aruns_cons op ops l l' brk brk' z a outs : aexec op l brk a l' brk' -> aruns ops l' brk' outs z -> aruns (op :: ops) l brk (a :: outs) z.

Definition hop_ok (op : hop) : Prop := match op with Malloc n => 0 <= n /\ n + 15 < 2 ^ 31 | _ => True end.
End Program.

(** The block and the array of each handle. *)
Abbreviation entry := ((Z * Z) * (Z * gmap Z Z))%type.
Definition holds (s : heap) (e : entry) : Prop :=
  let '((x, u), (n, m)) := e in
  0 < x < 2 ^ 31 /\ n <= 8 * (u - 1) /\ forall off v, m !! off = Some v -> in_array off n = true /\ rd (h_mem s) (x + 8 + off) = v.
Definition handle (e : entry) : Z * Z := (u32 (e.1.1 + 8), e.2.1).

Section Sim.
Context (base lo : Z) (grants : Z -> Z -> bool).
Hypothesis grants_user : forall brk n, grants brk n = true -> 0 <= n -> brk + n <= KERNBASE.

Definition sim (es : list entry) (k : nat) (s : heap) : Prop :=
  exists fl, heap_inv base lo fl (es.*1) s /\ Forall (holds s) es /\ (length fl <= k)%nat.

Lemma holds_keeps (al : list (Z * Z)) (s t : heap) (e : entry) : e.1 ∈ al -> keeps_blocks al s t -> holds s e -> holds t e.
Proof.
  destruct e as [[x u] [n m]]. intros He K (X & N & C). split_and!; try lia. intros off v Hv. destruct (C off v Hv) as [B <-].
  split; [exact B|]. apply (K (x, u) _ He). unfold in_array, bend in *. cbn in *. lia.
Qed.

Lemma heap_ok_perm (fl al al' : list (Z * Z)) (s : heap) : al ≡ₚ al' -> heap_ok base lo fl al s -> heap_ok base lo fl al' s.
Proof.
  intros P [? ? ? ? ? Hal Ha Hr Hu]. constructor; try assumption.
  - intros b. rewrite <- P. apply Hal.
  - rewrite <- P. exact Ha.
  - intros b. rewrite <- P. apply Hr.
  - rewrite <- Hu, !units_app. f_equal. f_equal. symmetry. clear -P. induction P; cbn in *; fold units in *; lia.
Qed.

Lemma delete_none {A : Type} (l : list A) : forall i, l !! i = None -> delete i l = l.
Proof. induction l as [|a l IH]; intros [|i] H; try reflexivity; [discriminate|]. cbn. f_equal. apply IH, H. Qed.

Lemma heap_inv_ok (fl al : list (Z * Z)) (b : Z * Z) (s : heap) : b ∈ al -> heap_inv base lo fl al s ->
  heap_ok base lo fl al s /\ 0 < b.1 < 2 ^ 31.
Proof.
  intros Hb [H|(_ & -> & _)]; [|set_solver]. split; [exact H|]. destruct (ho_range _ _ _ _ _ H b) as (? & ? & ?); [set_solver|].
  pose proof (ho_base _ _ _ _ _ H). pose proof (ho_brk _ _ _ _ _ H). unfold bend, KERNBASE in *. lia.
Qed.

Lemma sim_malloc (es : list entry) (k fuel : nat) (s : heap) (n : Z) : sim es k s -> hop_ok (Malloc n) -> (2 * k + 4 < fuel)%nat ->
  exists r t es', hexec base grants fuel (Malloc n) (handle <$> es) s = Done r t /\ r.1 = handle <$> es' /\
    aexec grants (Malloc n) es.*2 (h_brk s) r.2 es'.*2 (h_brk t) /\ sim es' (S k) t.
Proof.
  intros (fl & H & Hh & Hl) [Hn Hn'] Hf. cbn [hexec].
  destruct (malloc_run base lo grants grants_user fl _ s n fuel H Hn Hn' ltac:(lia)) as [(x & t & fl' & Em & Ht & Kt & Hl' & Hgr)|(t & Em & Ht & Kt & Bt & Hg & _)];
    rewrite (bind_Done _ _ _ _ _ Em); eexists _, t.
  - destruct (heap_inv_ok _ _ (x, nunits n) _ ltac:(left) Ht) as [_ Hx]. cbn in Hx.
    destruct (Z.eqb_spec (u32 (x + 8)) 0) as [E|Hne]; [rewrite u32_small in E by lia; lia|].
    exists (((x, nunits n), (n, ∅)) :: es). split; [reflexivity|]. split; [reflexivity|]. split; [destruct Hgr as [->|[Hg ->] ]; [apply a_malloc; exact Hne|apply a_grow; assumption]|].
    exists fl'. split; [exact Ht|]. split; [|lia]. constructor.
    + split_and!; try lia; [|set_solver]. unfold nunits. rewrite u32_small by lia.
      pose proof (Z.div_mod (n + 8 - 1) 8 ltac:(lia)). pose proof (Z.mod_pos_bound (n + 8 - 1) 8). lia.
    + rewrite Forall_forall in *. intros e He. apply (holds_keeps es.*1 s); [apply list_elem_of_fmap_2, He|exact Kt|auto].
  - exists es. split; [reflexivity|]. split; [reflexivity|]. split.
    + rewrite Bt. apply a_refused. exact Hg.
    + exists fl. split; [exact Ht|]. split; [|lia]. rewrite Forall_forall in *. intros e He.
      apply (holds_keeps es.*1 s); [apply list_elem_of_fmap_2, He|exact Kt|auto].
Qed.

Lemma sim_free (es : list entry) (k fuel : nat) (s : heap) (i : nat) : sim es k s -> (2 * k + 4 < fuel)%nat ->
  exists r t es', hexec base grants fuel (Free i) (handle <$> es) s = Done r t /\ r.1 = handle <$> es' /\
    aexec grants (Free i) es.*2 (h_brk s) r.2 es'.*2 (h_brk t) /\ sim es' (S k) t.
Proof.
  intros (fl & H & Hh & Hl) Hf. cbn [hexec]. rewrite list_lookup_fmap. destruct (es !! i) as [[[x u] [n m]]|] eqn:Ei; cbn [fmap option_fmap option_map handle fst snd].
  - assert (Ei' : es.*1 !! i = Some (x, u)) by (rewrite list_lookup_fmap, Ei; reflexivity).
    destruct (heap_inv_ok _ _ (x, u) _ (list_elem_of_lookup_2 _ _ _ Ei') H) as [Hok _].
    apply (heap_ok_perm _ _ ((x, u) :: (delete i es).*1)) in Hok; [|rewrite list_fmap_delete; apply delete_Permutation, Ei'].
    destruct (free_run base lo fl _ x u s fuel Hok ltac:(lia)) as (t & fl' & Et & Ht & Bt & Kt & _ & Hl').
    rewrite (bind_Done _ _ _ _ _ Et). eexists _, t, (delete i es). split; [reflexivity|]. cbn [fst snd]. split_and!.
    + rewrite list_fmap_delete. reflexivity.
    + rewrite list_fmap_delete, Bt. constructor.
    + exists fl'. split; [left; exact Ht|]. split; [|lia]. rewrite (delete_Permutation _ _ _ Ei) in Hh. apply Forall_cons in Hh as [_ Hh].
      rewrite Forall_forall in *. intros e He. apply (holds_keeps (delete i es).*1 s); [apply list_elem_of_fmap_2, He|exact Kt|auto].
  - eexists _, s, es. split; [reflexivity|]. cbn [fst snd]. split_and!; [reflexivity| |].
    + rewrite <- (delete_none es.*2 i) at 2 by (rewrite list_lookup_fmap, Ei; reflexivity). constructor.
    + exists fl. split_and!; auto.
Qed.

Lemma all_apart_lookup (l : list (Z * Z)) : forall i j b c, all_apart l -> l !! i = Some b -> l !! j = Some c -> i <> j -> apart b c.
Proof.
  induction l as [|d l IH]; intros i j b c Ha Hi Hj Hne; [discriminate|]. destruct Ha as [Hd Ha]. rewrite Forall_forall in Hd.
  destruct i as [|i], j as [|j]; cbn in Hi, Hj; [contradiction| | |apply (IH i j); auto].
  - injection Hi as <-. apply Hd, (list_elem_of_lookup_2 _ _ _ Hj).
  - injection Hj as <-. apply apart_sym, Hd, (list_elem_of_lookup_2 _ _ _ Hi).
Qed.

(** A store into one array leaves the ring and the other arrays alone. *)
Lemma heap_ok_store (fl al : list (Z * Z)) (s : heap) (b : Z * Z) (a v : Z) : heap_ok base lo fl al s -> b ∈ al -> b.1 + 8 <= a < bend b ->
  heap_ok base lo fl al (s <| h_mem ::= wr a v |>).
Proof.
  intros H Hb Ha. pose (t := s <| h_mem ::= wr a v |>).
  assert (Hf : forall x, a < x \/ x + 8 <= a -> hdr t x = hdr s x).
  { intros x Hx. unfold hdr, hptr, hsize, rd32, t. cbn. rewrite !rd_wr, !decide_False by lia. reflexivity. }
  destruct (ho_range _ _ _ _ _ H b) as (Nb & Lb & Bb); [set_solver|]. pose proof (ho_base _ _ _ _ _ H) as Hbase.
  apply list_elem_of_lookup_1 in Hb as [i Hi].
  assert (Haway : forall c, c ∈ fl ++ al -> a < c.1 \/ c.1 + 8 <= a).
  { intros c [j Hj]%list_elem_of_lookup_1. assert (Hi' : (fl ++ al) !! (length fl + i)%nat = Some b) by (rewrite lookup_app_r, Nat.add_comm, Nat.add_sub by lia; exact Hi).
    destruct (ho_range _ _ _ _ _ H c (list_elem_of_lookup_2 _ _ _ Hj)) as (Nc & _).
    destruct (decide (length fl + i = j)%nat) as [<-|Hne]; [replace c with b by congruence; lia|].
    pose proof (all_apart_lookup _ _ _ _ _ (ho_apart _ _ _ _ _ H) Hi' Hj Hne) as Hap. unfold apart, bend in *. lia. }
  destruct H as [? ? Hr ? ? Hal ? ? ?]. constructor; try assumption.
  - apply (ring_frame s); [|exact Hr]. intros c [->|Hc]%elem_of_cons; apply Hf; [cbn; lia|apply Haway; set_solver].
  - intros c Hc. rewrite <- (Hal c Hc). change (hsize c.1 (s <| h_mem ::= wr a v |>)) with (hdr t c.1).2. rewrite Hf by (apply Haway; set_solver). reflexivity.
Qed.

Lemma store_holds (es : list entry) (i j : nat) (b : Z * Z) (e : entry) (s : heap) (a v : Z) : all_apart es.*1 ->
  es.*1 !! i = Some b -> es !! j = Some e -> i <> j -> b.1 + 8 <= a < bend b -> holds s e -> holds (s <| h_mem ::= wr a v |>) e.
Proof.
  intros Hap Hi Hj Hne Ha He. assert (Hj' : es.*1 !! j = Some e.1) by (rewrite list_lookup_fmap, Hj; reflexivity).
  pose proof (all_apart_lookup _ _ _ _ _ Hap Hi Hj' Hne) as Hd. destruct e as [[x u] [n m]], He as (X & N & C). split_and!; try lia.
  intros off w Hw. destruct (C off w Hw) as [Ho <-]. split; [exact Ho|]. cbn. rewrite rd_wr, decide_False; [reflexivity|].
  unfold apart, bend, in_array in *. cbn [fst snd] in *. lia.
Qed.

Lemma sim_store (es : list entry) (k fuel : nat) (s : heap) (i : nat) (off v : Z) : sim es k s ->
  exists r t es', hexec base grants fuel (Store i off v) (handle <$> es) s = Done r t /\ r.1 = handle <$> es' /\
    aexec grants (Store i off v) es.*2 (h_brk s) r.2 es'.*2 (h_brk t) /\ sim es' (S k) t.
Proof.
  intros (fl & H & Hh & Hl). cbn [hexec]. rewrite list_lookup_fmap.
  assert (Hskip : (forall n m, es.*2 !! i = Some (n, m) -> in_array off n = false) ->
    exists r t es', (mret (handle <$> es, 0) : M heap _) s = Done r t /\ r.1 = handle <$> es' /\ aexec grants (Store i off v) es.*2 (h_brk s) r.2 es'.*2 (h_brk t) /\ sim es' (S k) t).
  { intros Ha. exists (handle <$> es, 0), s, es. split; [reflexivity|]. split; [reflexivity|]. split; [constructor; exact Ha|]. exists fl. split_and!; auto. }
  destruct (es !! i) as [[[x u] [n m]]|] eqn:Ei; cbn [fmap option_fmap option_map handle fst snd].
  2: { apply Hskip. intros n m. rewrite list_lookup_fmap, Ei. discriminate. }
  destruct (in_array off n) eqn:Eo.
  2: { apply Hskip. intros n' m'. rewrite list_lookup_fmap, Ei. intros [= <- _]. exact Eo. }
  apply list_elem_of_lookup_2 in Ei as Hin. pose proof Hh as Hall. rewrite Forall_forall in Hall. destruct (Hall _ Hin) as (X & N & C).
  assert (Ei' : es.*1 !! i = Some (x, u)) by (rewrite list_lookup_fmap, Ei; reflexivity).
  destruct (heap_inv_ok _ _ (x, u) _ (list_elem_of_lookup_2 _ _ _ Ei') H) as [Hok _].
  rewrite (u32_small (x + 8)) by lia. pose (t := s <| h_mem ::= wr (x + 8 + off) v |>).
  assert (Ho : x + 8 <= x + 8 + off < bend (x, u)) by (unfold in_array, bend in *; cbn; lia).
  exists (handle <$> es, 0), t, (<[i := ((x, u), (n, <[off := v]> m))]> es). split; [reflexivity|]. cbn [fst snd]. split_and!.
  - rewrite list_fmap_insert. symmetry. apply list_insert_id. rewrite list_lookup_fmap, Ei. reflexivity.
  - rewrite list_fmap_insert. apply a_store; [rewrite list_lookup_fmap, Ei; reflexivity|exact Eo].
  - exists fl. rewrite list_fmap_insert, list_insert_id by exact Ei'. split; [left; apply (heap_ok_store _ _ _ (x, u)); [exact Hok|exact (list_elem_of_lookup_2 _ _ _ Ei')|exact Ho]|].
    split; [|lia]. apply Forall_lookup. intros j e Hj. apply list_lookup_insert_Some in Hj as [(<- & <- & _)|(Hne & Hj)].
    + split_and!; try lia. intros off' v'. rewrite lookup_insert_Some. cbn. rewrite rd_wr. intros [[<- <-]|[Ho' Hv]].
      * rewrite decide_True by reflexivity. auto.
      * rewrite decide_False by lia. apply C, Hv.
    + apply (store_holds es i j (x, u) e); try assumption; [|apply Hall, (list_elem_of_lookup_2 _ _ _ Hj)].
      pose proof (ho_apart _ _ _ _ _ Hok) as (_ & Ha & _)%all_apart_app. exact Ha.
Qed.

Lemma sim_load (es : list entry) (k fuel : nat) (s : heap) (i : nat) (off : Z) : sim es k s ->
  exists r, hexec base grants fuel (Load i off) (handle <$> es) s = Done r s /\ r.1 = handle <$> es /\
    aexec grants (Load i off) es.*2 (h_brk s) r.2 es.*2 (h_brk s).
Proof.
  intros (fl & H & Hh & Hl). cbn [hexec]. rewrite list_lookup_fmap.
  destruct (es !! i) as [[[x u] [n m]]|] eqn:Ei; cbn [fmap option_fmap option_map handle fst snd].
  - rewrite Forall_forall in Hh. destruct (Hh _ (list_elem_of_lookup_2 _ _ _ Ei)) as (X & N & C).
    destruct (in_array off n) eqn:Eo; eexists; (split; [reflexivity|]); (split; [reflexivity|]); cbn [snd].
    + apply (a_load _ _ _ _ _ n m); [rewrite list_lookup_fmap, Ei; reflexivity|exact Eo|]. intros w Hw. rewrite u32_small by lia. apply C, Hw.
    + apply a_no_load. intros n' m'. rewrite list_lookup_fmap, Ei. intros [= <- _]. exact Eo.
  - eexists. split; [reflexivity|]. split; [reflexivity|]. apply a_no_load. intros n m. rewrite list_lookup_fmap, Ei. discriminate.
Qed.

Lemma sim_step (es : list entry) (k fuel : nat) (s : heap) (op : hop) : sim es k s -> hop_ok op -> (2 * k + 4 < fuel)%nat ->
  exists r t es', hexec base grants fuel op (handle <$> es) s = Done r t /\ r.1 = handle <$> es' /\
    aexec grants op es.*2 (h_brk s) r.2 es'.*2 (h_brk t) /\ sim es' (S k) t.
Proof.
  intros H Hop Hf. destruct op as [n|i|i off v|i off].
  - apply sim_malloc; assumption.
  - apply sim_free; assumption.
  - apply sim_store; assumption.
  - destruct (sim_load es k fuel s i off H) as (r & Er & H1 & H2). exists r, s, es. split_and!; try assumption.
    destruct H as (fl & ? & ? & ?). exists fl. auto.
Qed.

Lemma sim_run (fuel : nat) (ops : list hop) : forall es k s, sim es k s -> Forall hop_ok ops -> (2 * (k + length ops) + 4 < fuel)%nat ->
  exists outs t, hrun base grants fuel ops (handle <$> es) s = Done outs t /\ aruns grants ops es.*2 (h_brk s) outs (h_brk t).
Proof.
  induction ops as [|op ops IH]; intros es k s H Hops Hf; cbn [hrun].
  - exists [], s. split; [reflexivity|constructor].
  - apply Forall_cons in Hops as [Hop Hops]. cbn [length] in Hf.
    destruct (sim_step es k fuel s op H Hop ltac:(lia)) as (r & t & es' & Er & H1 & H2 & H3).
    destruct (IH es' (S k) t H3 Hops ltac:(lia)) as (outs & u & Eu & Hu). exists (r.2 :: outs), u. split.
    + rewrite (bind_Done _ _ _ _ _ Er), H1, (bind_Done _ _ _ _ _ Eu). reflexivity.
    + econstructor; eassumption.
Qed.
End Sim.


Definition sample_ops : list hop := [Malloc 5; Malloc 40000; Store 1 0 7; Store 0 39999 9; Free 0; Malloc 16; Load 1 0; Free 1; Free 0; Malloc 12].

