(* ===== verification/Mkfs.v ===== *)
(** * mkfs.c: the program that builds the file system image

    It runs on the host, so its state is its own: the image as a map from
    sectors to blocks, the next free inode and the next free block.  Numbers in
    the image are little-endian, as on the host ([xint], [xshort]).  A failed
    assertion ends the program, and so does a read past the end of the image. *)

From S2P Require Import Prelude Params Bytes CString Kernel Fs.

Record mkfs : Type := mk_mkfs {
  g_img : gmap Z (list Z);
  g_freeinode : Z;
  g_freeblock : Z
}.
#[export] Instance mkfs_eta : Eta mkfs := fun r => mk_mkfs (g_img r) (g_freeinode r) (g_freeblock r).

Definition NINODES : Z := 200.
Definition nbitmap : Z := FSSIZE / (BSIZE * 8) + 1.
Definition ninodeblocks : Z := NINODES / IPB + 1.
Definition nlog : Z := LOGSIZE.
Definition nmeta : Z := 2 + nlog + ninodeblocks + nbitmap.
Definition nblocks : Z := FSSIZE - nmeta.

(** The bytes of the number, stored and read again. *)
Definition xshort (x : Z) : Z := get16 (le16 x) 0.
Definition xint (x : Z) : Z := get32 (le32 x) 0.

Definition mkfs_sb : superblock :=
  mk_superblock (xint FSSIZE) (xint nblocks) (xint NINODES) (xint nlog) (xint 2) (xint (2 + nlog))
    (xint (2 + nlog + ninodeblocks)).

Definition superblock_bytes (sb : superblock) : list Z :=
  concat (map le32 [sb_size sb; sb_nblocks sb; sb_ninodes sb; sb_nlog sb; sb_logstart sb; sb_inodestart sb; sb_bmapstart sb]).

Definition wsect (sec : Z) (buf : list Z) : M mkfs unit := modify (fun g => g <| g_img ::= <[sec := buf]> |>).

Definition rsect (sec : Z) : M mkfs (list Z) :=
  g ← get;
  match g_img g !! sec with Some d => mret d | None => panic "read" end.

Definition winode (n : Z) (ip : dinode) : M mkfs unit :=
  let bn := IBLOCK n mkfs_sb in
  buf ← rsect bn;
  wsect bn (put_dinode buf (inode_off n) ip).

Definition rinode (n : Z) : M mkfs dinode :=
  buf ← rsect (IBLOCK n mkfs_sb);
  mret (get_dinode buf (inode_off n)).

Definition mk_ialloc (type : Z) : M mkfs Z :=
  n ← gets g_freeinode;
  modify (fun g => g <| g_freeinode ::= Z.succ |>);;
  winode n (mk_dinode (xshort type) 0 0 (xshort 1) (xint 0) (replicate NADDRS 0));;
  mret n.

(** [buf[i/8] = buf[i/8] | (0x1 << (i%8))] for the first [n] bits. *)
Fixpoint mark_first (n : nat) (buf : list Z) : list Z :=
  match n with O => buf | S n' => mark_bit (mark_first n' buf) (Z.of_nat n') end.

Definition mk_balloc (used : Z) : M mkfs unit :=
  if negb (used <? BSIZE * 8) then panic "assert used < BSIZE*8"
  else wsect (sb_bmapstart mkfs_sb) (mark_first (Z.to_nat used) zero_block).

(** [freeblock++] *)
Definition next_block : M mkfs Z :=
  b ← gets g_freeblock;
  modify (fun g => g <| g_freeblock ::= Z.succ |>);;
  mret b.

Definition d_addr (di : dinode) (k : Z) : Z := default 0 (d_addrs di !! Z.to_nat k).
Definition set_addr (k v : Z) (di : dinode) : dinode :=
  mk_dinode (d_type di) (d_major di) (d_minor di) (d_nlink di) (d_size di) (<[Z.to_nat k := v]> (d_addrs di)).
Definition set_dsize (v : Z) (di : dinode) : dinode :=
  mk_dinode (d_type di) (d_major di) (d_minor di) (d_nlink di) v (d_addrs di).

(** [if(xint(din.addrs[k]) == 0) din.addrs[k] = xint(freeblock++);] *)
Definition need_addr (k : Z) (di : dinode) : M mkfs dinode :=
  if xint (d_addr di k) =? 0 then b ← next_block; mret (set_addr k (xint b) di) else mret di.

(** The block of the file that holds the next byte. *)
Definition append_block (din : dinode) (fbn : Z) : M mkfs (dinode * Z) :=
  if fbn <? NDIRECT then
    din ← need_addr fbn din;
    mret (din, xint (d_addr din fbn))
  else
    din ← need_addr NDIRECT din;
    indirect ← rsect (xint (d_addr din NDIRECT));
    let k := fbn - NDIRECT in
    if k >=? NINDIRECT then fault "indirect[fbn - NDIRECT]"
    else
      indirect ← (if get32 indirect (4 * k) =? 0 then
          b ← next_block;
          let indirect := put32 indirect (4 * k) (xint b) in
          wsect (xint (d_addr din NDIRECT)) indirect;;
          mret indirect
        else mret indirect);
      mret (din, xint (get32 indirect (4 * k))).

Definition iappend_turn (st : dinode * Z * list Z) : M mkfs (dinode * Z * list Z + dinode * Z) :=
  let '(din, off, p) := st in
  let n := Z.of_nat (length p) in
  if negb (n >? 0) then mret (inr (din, off))
  else
    let fbn := off / BSIZE in
    if negb (fbn <? MAXFILE) then panic "assert fbn < MAXFILE"
    else
      r ← append_block din fbn;
      let '(din, x) := r in
      let n1 := Z.min n ((fbn + 1) * BSIZE - off) in
      buf ← rsect x;
      wsect x (splice buf (off - fbn * BSIZE) (take (Z.to_nat n1) p));;
      mret (inl (din, off + n1, drop (Z.to_nat n1) p)).

Definition iappend (n : Z) (xp : list Z) : M mkfs unit :=
  din ← rinode n;
  r ← while_loop (blocks_fuel (Z.of_nat (length xp))) iappend_turn (din, xint (d_size din), xp);
  let '(din, off) := r in
  winode n (set_dsize (xint off) din).

(** A file of the command line: its name, and what the calls of [read] return. *)
Record hostfile : Type := mk_hostfile { hf_name : list Z; hf_reads : list (list Z) }.

Definition skip_underscore (name : list Z) : list Z := match name with 95 :: r => r | _ => name end.

(** [while((cc = read(fd, buf, sizeof(buf))) > 0) iappend(inum, buf, cc);] *)
Fixpoint append_reads (n : Z) (reads : list (list Z)) : M mkfs unit :=
  match reads with
  | (b :: r) :: reads' => iappend n (b :: r);; append_reads n reads'
  | _ => mret tt
  end.

Definition mk_name (name : list Z) : list Z := strncpy (Z.to_nat DIRSIZ) name.

Definition add_file (rootino : Z) (f : hostfile) : M mkfs unit :=
  if existsb (Z.eqb 47) (hf_name f) then panic "assert index(argv[i], '/') == 0"
  else
    let name := skip_underscore (hf_name f) in
    n ← mk_ialloc T_FILE;
    iappend rootino (dirent_bytes (mk_dirent (xshort n) (mk_name name)));;
    append_reads n (hf_reads f).

Fixpoint add_files (rootino : Z) (l : list hostfile) : M mkfs unit :=
  match l with [] => mret tt | f :: l' => add_file rootino f;; add_files rootino l' end.

(** [for(i = 0; i < FSSIZE; i++) wsect(i, zeroes);] *)
Fixpoint zero_sectors (n : nat) (i : Z) : M mkfs unit :=
  match n with O => mret tt | S n' => wsect i zero_block;; zero_sectors n' (i + 1) end.

Definition fix_root_size (rootino : Z) : M mkfs unit :=
  din ← rinode rootino;
  let off := xint (d_size din) in
  let off := (off / BSIZE + 1) * BSIZE in
  winode rootino (set_dsize (xint off) din).

(** [main] after the image has been opened. *)
Definition mkfs_main (files : list hostfile) : M mkfs unit :=
  modify (fun g => g <| g_freeblock := nmeta |>);;
  zero_sectors (Z.to_nat FSSIZE) 0;;
  wsect 1 (splice zero_block 0 (superblock_bytes mkfs_sb));;
  rootino ← mk_ialloc T_DIR;
  if negb (rootino =? ROOTINO) then panic "assert rootino == ROOTINO"
  else
    iappend rootino (dirent_bytes (mk_dirent (xshort rootino) (mk_name [46])));;
    iappend rootino (dirent_bytes (mk_dirent (xshort rootino) (mk_name [46; 46])));;
    add_files rootino files;;
    fix_root_size rootino;;
    b ← gets g_freeblock;
    mk_balloc b.

Definition mkfs0 : mkfs := mk_mkfs ∅ 1 0.
