(* ===== verification/MkfsView.v ===== *)
(** * The image of mkfs, seen by the kernel

    [view] is the kernel's view of the image while it is built: its blocks, with
    the bitmap as [mk_balloc] would write it now.  In this view [iappend] does
    what [writei] does at the end of a file, so what is known about the block
    map and the contents of files (Bmap.v, FileData.v) carries over. *)

From S2P Require Import Prelude Params Bytes CString Kernel Print Sleep Ide Bio Log Fs FsDisk Bmap Dinode FileData Dir Mkfs.

(** ** The view *)

Definition sect (g : mkfs) (b : Z) : list Z := default zero_block (g_img g !! b).

Definition bitmap (n : Z) : list Z := mark_first (Z.to_nat n) zero_block.

Definition vdisk (g : mkfs) : gmap (Z * Z) (list Z) :=
  <[(1, sb_bmapstart mkfs_sb) := bitmap (g_freeblock g)]> (kmap (pair 1) (g_img g)).

Definition view (g : mkfs) (ip : inode) : kernel :=
  kernel0 <| k_disk := vdisk g |> <| k_sb := mkfs_sb |> <| k_inodes := [ip] |>.

Lemma view_Blk (g : mkfs) (ip : inode) (b : Z) :
  Blk (view g ip) b = if decide (b = 58) then bitmap (g_freeblock g) else sect g b.
Proof.
  unfold Blk, disk_block, view, vdisk, sect. cbn [k_disk]. change (sb_bmapstart mkfs_sb) with 58. simpl.
  destruct (decide (b = 58)) as [->|Hne]; [rewrite lookup_insert_eq; reflexivity|].
  rewrite lookup_insert_ne by congruence. rewrite (lookup_kmap (pair 1)). reflexivity.
Qed.

Lemma xint_id (x : Z) : xint x = u32 x.
Proof. unfold xint. pose proof (get32_cons4 x []) as H. rewrite app_nil_r in H. exact H. Qed.

Lemma length_mark_first (n : nat) : (n <= 4096)%nat -> length (mark_first n zero_block) = 512%nat.
Proof.
  induction n as [|n IH]; intros Hn; [reflexivity|]. cbn [mark_first].
  apply length_mark_bit; [apply IH; lia|unfold BPB, BSIZE; lia].
Qed.

Lemma bit_zero (bi : Z) : bit_set zero_block bi = false.
Proof.
  unfold bit_set. assert (E : byte_at zero_block (bi / 8) = 0).
  { unfold byte_at, zero_block. destruct (replicate _ 0 !! _) eqn:E; [|reflexivity]. apply lookup_replicate in E as [-> _]. reflexivity. }
  rewrite E. reflexivity.
Qed.

Lemma bitmap_bit (n : nat) (bi : Z) : (n <= 4096)%nat -> 0 <= bi < 4096 -> bit_set (mark_first n zero_block) bi = (bi <? Z.of_nat n).
Proof.
  intros Hn Hb. induction n as [|n IH]; cbn [mark_first].
  - rewrite bit_zero. symmetry. apply Z.ltb_ge. lia.
  - rewrite mark_bit_spec by (try apply length_mark_first; unfold BPB, BSIZE; lia). rewrite IH by lia.
    destruct (decide (bi = Z.of_nat n)); symmetry; [apply Z.ltb_lt; lia|]. destruct (Z.ltb_spec bi (Z.of_nat n)); [apply Z.ltb_lt|apply Z.ltb_ge]; lia.
Qed.

Lemma is_block_bitmap (n : nat) : (n <= 4096)%nat -> is_block (mark_first n zero_block).
Proof.
  induction n as [|n IH]; intros Hn; [apply is_block_zero|]. cbn [mark_first]. apply is_block_mark; [unfold BPB, BSIZE; lia|apply IH; lia].
Qed.

(** The image between the operations. *)
Record image_ok (g : mkfs) : Prop := {
  im_sect : forall b, 0 <= b < FSSIZE -> exists d, g_img g !! b = Some d /\ is_block d;
  im_none : forall b, ~ 0 <= b < FSSIZE -> g_img g !! b = None;
  im_sb : sect g 1 = splice zero_block 0 (superblock_bytes mkfs_sb);
  im_next : nmeta <= g_freeblock g <= 4096;
  im_zero : forall b, g_freeblock g <= b -> sect g b = zero_block;
  im_bitmap : forall b, 58 <= b < nmeta -> sect g b = zero_block
}.

Lemma nmeta_eq : nmeta = 68.
Proof. reflexivity. Qed.

Lemma view_used (g : mkfs) (ip : inode) (c : Z) : image_ok g -> 0 <= c < FSSIZE -> used (view g ip) c = (c <? g_freeblock g).
Proof.
  intros H Hc. unfold used. change (k_sb (view g ip)) with mkfs_sb. unfold BBLOCK. change (sb_bmapstart mkfs_sb) with 58.
  rewrite view_Blk. pose proof (im_next _ H) as Hn. rewrite nmeta_eq in Hn. unfold FSSIZE in Hc. change BPB with 4096.
  destruct (decide (c / 4096 + 58 = 58)) as [E|E].
  - assert (0 <= c < 4096) by (Z.div_mod_to_equations; lia). rewrite Z.mod_small by lia. unfold bitmap. rewrite bitmap_bit by lia. rewrite Z2Nat.id by lia. reflexivity.
  - rewrite (im_bitmap _ H), bit_zero by (rewrite nmeta_eq; Z.div_mod_to_equations; lia). symmetry. apply Z.ltb_ge. Z.div_mod_to_equations. lia.
Qed.

Lemma view_fs_ok (g : mkfs) (ip : inode) : image_ok g -> fs_ok (view g ip).
Proof.
  intros H. pose proof (im_next _ H) as Hn. rewrite nmeta_eq in Hn. constructor.
  - intros b. rewrite view_Blk. destruct (decide (b = 58)); [apply is_block_bitmap; lia|]. unfold sect.
    destruct (decide (0 <= b < FSSIZE)) as [Hb|Hb]; [|rewrite (im_none _ H b Hb); apply is_block_zero].
    destruct (im_sect _ H b Hb) as (d & -> & Hd). exact Hd.
  - rewrite view_Blk, decide_False, (im_sb _ H) by lia. reflexivity.
  - vm_compute. discriminate.
  - reflexivity.
  - reflexivity.
  - vm_compute. discriminate.
  - intros b Hb. change (data_start (k_sb (view g ip))) with 68 in Hb. rewrite view_used by (assumption || (unfold FSSIZE; lia)). apply Z.ltb_lt. lia.
Qed.

(** ** Sectors and new blocks *)

Definition put_sect (b : Z) (d : list Z) (g : mkfs) : mkfs := g <| g_img ::= <[b := d]> |>.
Definition bump (g : mkfs) : mkfs := g <| g_freeblock ::= Z.succ |>.

Lemma wsect_run (b : Z) (d : list Z) (g : mkfs) : wsect b d g = Done tt (put_sect b d g).
Proof. reflexivity. Qed.

Lemma rsect_run (b : Z) (g : mkfs) : image_ok g -> 0 <= b < FSSIZE -> rsect b g = Done (sect g b) g.
Proof.
  intros H Hb. destruct (im_sect _ H b Hb) as (d & E & _). unfold rsect, sect, mbind, M_bind, get. cbn. rewrite E. reflexivity.
Qed.

Lemma next_block_run (g : mkfs) : next_block g = Done (g_freeblock g) (bump g).
Proof. reflexivity. Qed.

Lemma sect_put (g : mkfs) (b c : Z) (d : list Z) : sect (put_sect b d g) c = if decide (c = b) then d else sect g c.
Proof.
  unfold sect, put_sect. cbn. destruct (decide (c = b)) as [->|Hne]; [rewrite lookup_insert_eq|rewrite lookup_insert_ne by congruence]; reflexivity.
Qed.

Lemma view_put (g : mkfs) (ip : inode) (b : Z) (d : list Z) : b <> 58 -> view (put_sect b d g) ip = set_blk b d (view g ip).
Proof.
  intros Hb. assert (E : vdisk (put_sect b d g) = <[(1, b) := d]> (vdisk g)).
  { unfold vdisk, put_sect. cbn [g_img g_freeblock]. simpl. rewrite (kmap_insert (pair 1)). change (sb_bmapstart mkfs_sb) with 58.
    apply insert_insert_ne. intros [= E]. apply Hb. rewrite <- E. reflexivity. }
  unfold view. rewrite E. reflexivity.
Qed.

Lemma image_put (g : mkfs) (b : Z) (d : list Z) : image_ok g -> 1 < b < g_freeblock g -> ~ 58 <= b < nmeta -> is_block d ->
  image_ok (put_sect b d g).
Proof.
  intros H Hb Hnb Hd. pose proof (im_next _ H) as Hn. rewrite nmeta_eq in *. constructor; rewrite ?sect_put; cbn [put_sect g_freeblock].
  - intros c Hc. cbn. destruct (decide (c = b)) as [->|Hne]; [rewrite lookup_insert_eq; eauto|rewrite lookup_insert_ne by congruence; apply (im_sect _ H c Hc)].
  - intros c Hc. cbn. rewrite lookup_insert_ne by (unfold FSSIZE in Hc; lia). apply (im_none _ H c Hc).
  - rewrite decide_False by lia. apply (im_sb _ H).
  - cbn. exact Hn.
  - intros c Hc. cbn in Hc. rewrite sect_put, decide_False by lia. apply (im_zero _ H c Hc).
  - intros c Hc. rewrite nmeta_eq in Hc. rewrite sect_put, decide_False by lia. apply (im_bitmap _ H). rewrite nmeta_eq. exact Hc.
Qed.

Lemma image_bump (g : mkfs) : image_ok g -> g_freeblock g < 4096 -> image_ok (bump g).
Proof.
  intros H Hl. pose proof (im_next _ H) as Hn. constructor; try apply H; cbn; [lia|]. intros b Hb. apply (im_zero _ H). lia.
Qed.

Lemma bump_Blk (g : mkfs) (ip ip' : inode) (c : Z) : c <> 58 -> Blk (view (bump g) ip') c = Blk (view g ip) c.
Proof. intros Hc. rewrite !view_Blk, !decide_False by exact Hc. reflexivity. Qed.

Lemma bump_used (g : mkfs) (ip ip' : inode) (c : Z) : image_ok g -> g_freeblock g < 4096 -> 0 <= c < FSSIZE ->
  used (view (bump g) ip') c = if decide (c = g_freeblock g) then true else used (view g ip) c.
Proof.
  intros H Hl Hc. rewrite !view_used by (assumption || apply image_bump; assumption). cbn.
  destruct (decide (c = g_freeblock g)) as [->|Hne]; [apply Z.ltb_lt; lia|].
  destruct (Z.ltb_spec c (g_freeblock g)); [apply Z.ltb_lt|apply Z.ltb_ge]; lia.
Qed.

Lemma view_layout (g : mkfs) (ip : inode) : data_start (k_sb (view g ip)) = 68 /\ sb_size (k_sb (view g ip)) = FSSIZE /\ sb_bmapstart (k_sb (view g ip)) = 58.
Proof. split_and!; reflexivity. Qed.

Lemma view_range (g : mkfs) (ip : inode) (q : pos) : image_ok g -> inode_ok (view g ip) ip -> valid_pos q -> blk_at (view g ip) ip q <> 0 ->
  68 <= blk_at (view g ip) ip q < g_freeblock g.
Proof.
  intros H Ho Hq Hn. destruct (io_blk _ _ Ho q Hq Hn) as [Hr Hu]. destruct (view_layout g ip) as (E1 & E2 & _). rewrite E1, E2 in Hr.
  rewrite view_used in Hu by (assumption || lia). apply Z.ltb_lt in Hu. lia.
Qed.

Section Grow.
Context (g : mkfs) (ip : inode) (P : pos -> Prop).
Hypothesis Hg : image_ok g.
Hypothesis Ho : inode_ok (view g ip) ip.
Hypothesis Hlt : g_freeblock g < 4096.

Abbreviation fb := (g_freeblock g).

Lemma fresh_bounds : 68 <= fb < FSSIZE /\ used (view g ip) fb = false.
Proof.
  pose proof (im_next _ Hg) as Hn. rewrite nmeta_eq in Hn. split; [unfold FSSIZE; lia|]. rewrite view_used by (assumption || unfold FSSIZE; lia).
  apply Z.ltb_ge. lia.
Qed.

Lemma fresh_zero (ip' : inode) : Blk (view (bump g) ip') fb = zero_block.
Proof.
  pose proof (im_next _ Hg) as Hn. rewrite nmeta_eq in Hn. rewrite view_Blk, decide_False by lia. apply (im_zero _ Hg). lia.
Qed.

(** [din.addrs[r] = xint(freeblock++)] *)
Lemma grow_root (r : nat) : P (r, []) -> (r < 13)%nat -> root_of ip r = 0 ->
  let ip' := ip <| iaddrs := <[r := fb]> (iaddrs ip) |> in
  slot_post 1 0 P (r, []) (view g ip) ip fb (view (bump g) ip') ip'.
Proof.
  intros HP Hr H0 ip'. destruct fresh_bounds as [Hfb Hu]. destruct (view_layout g ip) as (E1 & E2 & E3).
  assert (Hlen : length (iaddrs ip) = 13%nat) by apply Ho.
  apply (fill_post 0 P (view g ip) (view (bump g) ip') ip ip' (r, []) fb); rewrite ?E1, ?E2, ?E3; auto.
  - apply view_fs_ok, Hg.
  - split_and!; [exact Hr|cbn; lia|constructor].
  - intros l j E. destruct l; discriminate.
  - cbn. rewrite length_insert. exact Hlen.
  - intros c Hc. apply bump_used; assumption.
  - apply fresh_zero.
  - intros k Hk. unfold root_of. cbn. destruct (decide (k = r)) as [->|Hne].
    + rewrite list_lookup_insert_eq, decide_True by (reflexivity || lia). reflexivity.
    + rewrite list_lookup_insert_ne, decide_False by congruence. reflexivity.
  - intros k l j Hq Hn. destruct (valid_snoc _ _ _ Hq) as (Hq' & _). rewrite decide_False by (intros E; destruct l; discriminate).
    pose proof (view_range g ip _ Hg Ho Hq' Hn). rewrite (bump_Blk g ip ip') by lia. reflexivity.
  - apply view_fs_ok, image_bump; assumption.
  - intros c Hc _ _. apply bump_Blk. lia.
  - intros c Hc. apply bump_Blk. lia.
  - reflexivity.
Qed.

(** [indirect[j] = xint(freeblock++)], with the table stored. *)
Lemma grow_table (j : Z) : P (10%nat, [j]) -> 0 <= j < 128 -> root_of ip 10 <> 0 -> get32 (sect g (root_of ip 10)) (4 * j) = 0 ->
  let t := root_of ip 10 in
  slot_post 1 0 P (10%nat, [j]) (view g ip) ip fb (view (put_sect t (put32 (sect g t) (4 * j) fb) (bump g)) ip) ip /\
  image_ok (put_sect t (put32 (sect g t) (4 * j) fb) (bump g)).
Proof.
  intros HP Hj Hn H0 t. destruct fresh_bounds as [Hfb Hu]. destruct (view_layout g ip) as (E1 & E2 & E3).
  assert (Hv : valid_pos (10%nat, [])) by (split_and!; [cbn; lia|cbn; lia|constructor]).
  pose proof (view_range g ip (10%nat, []) Hg Ho Hv Hn) as Ht. change (blk_at (view g ip) ip (10%nat, [])) with t in Ht.
  assert (Est : Blk (view g ip) t = sect g t) by (rewrite view_Blk, decide_False by lia; reflexivity).
  pose proof (fs_block _ (view_fs_ok g ip Hg) t) as Hblk. rewrite Est in Hblk.
  assert (Hput : is_block (put32 (sect g t) (4 * j) fb)) by (apply is_block_put32; [lia|exact Hblk]).
  pose proof (image_bump g Hg Hlt) as Hb. set (d := put32 (sect g t) (4 * j) fb) in *.
  assert (Hg' : image_ok (put_sect t d (bump g))) by (apply image_put; [exact Hb|cbn; lia|rewrite nmeta_eq; lia|exact Hput]).
  split; [|exact Hg']. rewrite view_put by lia. assert (Hlen : length (sect g t) = 512%nat) by apply Hblk.
  assert (HB : forall c, c <> 58 -> Blk (set_blk t d (view (bump g) ip)) c = if decide (c = t) then d else Blk (view g ip) c).
  { intros c Hc. rewrite Blk_set. case_decide; [reflexivity|]. apply bump_Blk, Hc. }
  apply (fill_post 0 P (view g ip) _ ip ip (10%nat, [j]) fb); rewrite ?E1, ?E2, ?E3; auto.
  - apply view_fs_ok, Hg.
  - split_and!; [cbn; lia|cbn; lia|constructor; [lia|constructor]].
  - change (blk_at (view g ip) ip (10%nat, [j])) with (follow (view g ip) t j). unfold follow. rewrite (proj2 (Z.eqb_neq t 0)), Est by lia. exact H0.
  - intros l k E. destruct l as [|x [|y l]]; try discriminate. exact Hn.
  - apply Ho.
  - intros c Hc. rewrite <- view_put by lia. rewrite view_used by assumption. cbn. rewrite <- (bump_used g ip ip) by assumption. rewrite view_used by assumption. reflexivity.
  - rewrite HB, decide_False by lia. rewrite view_Blk, decide_False by lia. apply (im_zero _ Hg). lia.
  - intros r Hr. rewrite decide_False by discriminate. reflexivity.
  - intros r l k Hq Hnz. destruct (valid_snoc _ _ _ Hq) as (Hq' & _ & Hk). pose proof (view_range g ip _ Hg Ho Hq' Hnz). rewrite HB by lia.
    destruct (decide (blk_at (view g ip) ip (r, l) = t)) as [Et|Et].
    + assert (Erl : (r, l) = (10%nat, [])) by (apply (io_inj _ _ Ho); assumption). injection Erl as -> ->. rewrite Et, Est. cbn [app].
      destruct (decide (k = j)) as [->|Hne].
      * rewrite decide_True by reflexivity. unfold d. rewrite get_put32_same by (rewrite ?Hlen; lia). apply u32_small. unfold FSSIZE in Hfb. lia.
      * rewrite decide_False by congruence. unfold d. rewrite get_put32_other by (rewrite ?Hlen; lia). reflexivity.
    + rewrite decide_False; [reflexivity|]. intros [= -> E]. change [j] with ([] ++ [j]) in E. apply app_inj_tail in E as [-> ->]. apply Et. reflexivity.
  - rewrite <- view_put by lia. apply view_fs_ok, Hg'.
  - intros c Hc _ Hnt. rewrite HB, decide_False; [reflexivity| |lia]. intros ->. apply (Hnt (10%nat, [])); [exact Hv|unfold leaf; cbn; lia|reflexivity].
  - intros c Hc. rewrite HB, decide_False by lia. reflexivity.
  - reflexivity.
Qed.
End Grow.

(** ** The blocks of a file without holes *)

(** The number of blocks of a file of [sz] bytes, with its table. *)
Definition need (sz : Z) : Z := (sz + 511) / 512 + (if 5120 <? sz then 1 else 0).

(** The largest file of one table. *)
Definition MKFILE : Z := (NDIRECT + NINDIRECT) * BSIZE.

Record packed (s : kernel) (ip : inode) (sz : Z) : Prop := {
  pk_data : forall bn, 0 <= bn < NDIRECT + NINDIRECT -> blk_at s ip (pos_of bn) = 0 <-> sz <= bn * 512;
  pk_table : root_of ip 10 = 0 <-> sz <= 5120
}.

Lemma pos_direct (bn : Z) : 0 <= bn < 10 -> pos_of bn = (Z.to_nat bn, []).
Proof. intros H. unfold pos_of. rewrite (proj2 (Z.ltb_lt bn 10)) by lia. reflexivity. Qed.

Lemma pos_indirect (bn : Z) : 10 <= bn < 138 -> pos_of bn = (10%nat, [bn - 10]).
Proof.
  intros H. unfold pos_of. rewrite (proj2 (Z.ltb_ge bn 10)), (proj2 (Z.ltb_lt bn 138)) by lia. reflexivity.
Qed.

Definition with_addrs (l : list Z) (di : dinode) : dinode := mk_dinode (d_type di) (d_major di) (d_minor di) (d_nlink di) (d_size di) l.

Lemma d_addr_root (di : dinode) (ip : inode) (k : Z) : d_addrs di = iaddrs ip -> d_addr di k = root_of ip (Z.to_nat k).
Proof. intros E. unfold d_addr, root_of. rewrite E. reflexivity. Qed.

Lemma need_direct (off : Z) : 0 <= off < 5120 -> need (off + 1) = need off + (if off mod 512 =? 0 then 1 else 0).
Proof.
  intros H. unfold need. rewrite !(proj2 (Z.ltb_ge 5120 _)) by lia. destruct (Z.eqb_spec (off mod 512) 0); Z.div_mod_to_equations; lia.
Qed.

Lemma need_indirect (off : Z) : 5120 <= off ->
  need (off + 1) = need off + (if off mod 512 =? 0 then 1 else 0) + (if off =? 5120 then 1 else 0).
Proof.
  intros H. unfold need. rewrite (proj2 (Z.ltb_lt 5120 (off + 1))) by lia.
  destruct (Z.eqb_spec (off mod 512) 0), (Z.eqb_spec off 5120), (Z.ltb_spec 5120 off); Z.div_mod_to_equations; lia.
Qed.

Lemma with_addrs_same (di : dinode) (ip : inode) : d_addrs di = iaddrs ip -> with_addrs (iaddrs ip) di = di.
Proof. intros <-. destruct di. reflexivity. Qed.

Lemma slot_post_mono (n i : nat) (P Q : pos -> Prop) (p : pos) (s : kernel) (ip : inode) (a : Z) (s' : kernel) (ip' : inode) :
  (forall q, P q -> Q q) -> slot_post n i P p s ip a s' ip' -> slot_post n i Q p s ip a s' ip'.
Proof. intros H []. split; try assumption. eapply extends_mono; eassumption. Qed.

(** What the steps of [append_block] keep. *)
Record grew (n : nat) (P : pos -> Prop) (p : pos) (k : Z) (g : mkfs) (ip : inode) (x : Z) (g' : mkfs) (ip' : inode) : Prop := {
  gw_slot : slot_post n 0 P p (view g ip) ip x (view g' ip') ip';
  gw_image : image_ok g';
  gw_inode : g_freeinode g' = g_freeinode g;
  gw_block : g_freeblock g' = g_freeblock g + k
}.

Lemma xint_addr (x : Z) : 0 <= x < FSSIZE -> xint x = x.
Proof. intros H. rewrite xint_id. apply u32_small. unfold FSSIZE in H. lia. Qed.

Lemma root_range (g : mkfs) (ip : inode) (r : nat) : image_ok g -> inode_ok (view g ip) ip -> (r < 13)%nat -> 0 <= root_of ip r < FSSIZE.
Proof.
  intros H Ho Hr. destruct (decide (root_of ip r = 0)) as [->|Hn]; [unfold FSSIZE; lia|].
  assert (Hv : valid_pos (r, [])) by (split_and!; [exact Hr|cbn; lia|constructor]).
  destruct (io_blk _ _ Ho _ Hv Hn) as [Hb _]. destruct (view_layout g ip) as (E1 & E2 & _). rewrite E1, E2 in Hb.
  change (blk_at (view g ip) ip (r, [])) with (root_of ip r) in Hb. lia.
Qed.

Lemma need_addr_run (P : pos -> Prop) (r : nat) (din : dinode) (g : mkfs) (ip : inode) :
  image_ok g -> inode_ok (view g ip) ip -> d_addrs din = iaddrs ip -> (r < 13)%nat -> P (r, []) ->
  let k := if root_of ip r =? 0 then 1 else 0 in
  g_freeblock g + k <= 4096 ->
  exists g' ip', need_addr (Z.of_nat r) din g = Done (with_addrs (iaddrs ip') din) g' /\
    grew 1 P (r, []) k g ip (root_of ip' r) g' ip'.
Proof.
  intros Hg Ho Ed Hr HP k Hk. unfold need_addr. rewrite (d_addr_root din ip _ Ed), Nat2Z.id.
  rewrite xint_addr by (apply (root_range g); assumption). subst k. destruct (Z.eqb_spec (root_of ip r) 0) as [E0|Hn].
  - rewrite (bind_Done _ _ _ _ _ (next_block_run g)). exists (bump g), (ip <| iaddrs := <[r := g_freeblock g]> (iaddrs ip) |>). split.
    + unfold set_addr, with_addrs. rewrite Nat2Z.id, Ed. rewrite xint_addr; [reflexivity|]. pose proof (im_next _ Hg). rewrite nmeta_eq in *. unfold FSSIZE. lia.
    + pose proof (grow_root g ip P Hg Ho ltac:(lia) r HP Hr E0) as Hp. cbv zeta in Hp. split; [|apply image_bump; [exact Hg|lia]|reflexivity|cbn; lia].
      unfold root_of. cbn. rewrite list_lookup_insert_eq by (rewrite (io_len _ _ Ho); exact Hr). exact Hp.
  - exists g, ip. split; [rewrite (with_addrs_same _ _ Ed); reflexivity|]. split; auto; [|lia].
    change (root_of ip r) with (blk_at (view g ip) ip (r, [])). apply slot_post_refl; [apply view_fs_ok, Hg|exact Ho|reflexivity|exact Hn].
Qed.

Definition append_path (off : Z) (q : pos) : Prop := q = pos_of (off / 512) \/ (5120 <= off /\ q = (10%nat, [])).

Lemma append_direct (din : dinode) (off : Z) (g : mkfs) (ip : inode) :
  image_ok g -> inode_ok (view g ip) ip -> packed (view g ip) ip off -> d_addrs din = iaddrs ip -> 0 <= off < 5120 ->
  g_freeblock g + (need (off + 1) - need off) <= 4096 ->
  exists g' ip' x, append_block din (off / 512) g = Done (with_addrs (iaddrs ip') din, x) g' /\
    grew 1 (append_path off) (pos_of (off / 512)) (need (off + 1) - need off) g ip x g' ip'.
Proof.
  intros Hg Ho [Hd _] Ed Hoff Hk. assert (Hb : 0 <= off / 512 < 10) by (Z.div_mod_to_equations; lia).
  specialize (Hd (off / 512) ltac:(change (NDIRECT + NINDIRECT) with 138; lia)). rewrite pos_direct in * by exact Hb.
  change (blk_at (view g ip) ip (Z.to_nat (off / 512), [])) with (root_of ip (Z.to_nat (off / 512))) in Hd.
  assert (Ek : (if root_of ip (Z.to_nat (off / 512)) =? 0 then 1 else 0) = need (off + 1) - need off).
  { rewrite need_direct by lia. destruct (Z.eqb_spec (root_of ip (Z.to_nat (off / 512))) 0) as [E|E], (Z.eqb_spec (off mod 512) 0) as [F|F]; try lia; exfalso.
    - apply Hd in E. Z.div_mod_to_equations. lia.
    - apply E, Hd. Z.div_mod_to_equations. lia. }
  destruct (need_addr_run (append_path off) (Z.to_nat (off / 512)) din g ip) as (g' & ip' & E & Hgr); try assumption; [lia|left; rewrite pos_direct by exact Hb; reflexivity|lia|].
  rewrite Ek, Z2Nat.id in * by lia. exists g', ip', (root_of ip' (Z.to_nat (off / 512))). split; [|exact Hgr].
  unfold append_block. change NDIRECT with 10. rewrite (proj2 (Z.ltb_lt _ 10)) by lia. rewrite (bind_Done _ _ _ _ _ E).
  rewrite (d_addr_root _ ip') by reflexivity. rewrite xint_addr; [reflexivity|].
  apply (root_range g'); [apply Hgr|apply Hgr|lia].
Qed.

Lemma append_indirect (din : dinode) (off : Z) (g : mkfs) (ip : inode) :
  image_ok g -> inode_ok (view g ip) ip -> packed (view g ip) ip off -> d_addrs din = iaddrs ip -> 5120 <= off < MKFILE ->
  g_freeblock g + (need (off + 1) - need off) <= 4096 ->
  exists g' ip' x, append_block din (off / 512) g = Done (with_addrs (iaddrs ip') din, x) g' /\
    grew 2 (append_path off) (pos_of (off / 512)) (need (off + 1) - need off) g ip x g' ip'.
Proof.
  intros Hg Ho [Hd Ht] Ed Hoff Hk. change MKFILE with 70656 in Hoff. assert (Hb : 10 <= off / 512 < 138) by (Z.div_mod_to_equations; lia).
  specialize (Hd (off / 512) ltac:(change (NDIRECT + NINDIRECT) with 138; lia)). rewrite pos_indirect in * by exact Hb.
  rewrite need_indirect in * by lia.
  assert (Ek : (if root_of ip 10 =? 0 then 1 else 0) = if off =? 5120 then 1 else 0).
  { destruct (Z.eqb_spec (root_of ip 10) 0) as [E|E], (Z.eqb_spec off 5120) as [F|F]; try reflexivity; exfalso; [apply Ht in E; lia|apply E, Ht; lia]. }
  destruct (need_addr_run (fun q => q = (10%nat, [])) 10 din g ip) as (g1 & ip1 & E1 & [S1 I1 N1 B1]); try assumption; [lia|reflexivity|rewrite Ek; destruct (off =? 5120), (off mod 512 =? 0); lia|].
  rewrite Ek in B1. set (j := off / 512 - 10) in *. assert (Hj : 0 <= j < 128) by (unfold j; lia).
  pose proof (sp_ok _ _ _ _ _ _ _ _ _ S1) as Ho1. pose proof (sp_nz _ _ _ _ _ _ _ _ _ S1) as Hn1. pose proof (sp_ext _ _ _ _ _ _ _ _ _ S1) as X1.
  assert (Hv : valid_pos (10%nat, [j])) by (split_and!; [cbn; lia|cbn; lia|constructor; [lia|constructor]]).
  assert (Hv0 : valid_pos (10%nat, [])) by (split_and!; [cbn; lia|cbn; lia|constructor]).
  pose proof (view_range g1 ip1 (10%nat, []) I1 Ho1 Hv0 Hn1) as Ht1. change (blk_at (view g1 ip1) ip1 (10%nat, [])) with (root_of ip1 10) in Ht1.
  set (t := root_of ip1 10) in *. assert (Hfb1 : g_freeblock g1 <= 4096) by apply I1.
  assert (Est : Blk (view g1 ip1) t = sect g1 t) by (rewrite view_Blk, decide_False by lia; reflexivity).
  assert (Eat : blk_at (view g1 ip1) ip1 (10%nat, [j]) = get32 (sect g1 t) (4 * j)).
  { change (blk_at (view g1 ip1) ip1 (10%nat, [j])) with (follow (view g1 ip1) t j). unfold follow. rewrite (proj2 (Z.eqb_neq t 0)), Est by lia. reflexivity. }
  assert (Esame : get32 (sect g1 t) (4 * j) = 0 <-> off mod 512 = 0).
  { rewrite <- Eat, (ex_out _ _ _ _ _ X1), Hd by (exact Hv || discriminate). Z.div_mod_to_equations. lia. }
  assert (S1' : slot_post 1 0 (append_path off) (10%nat, []) (view g ip) ip t (view g1 ip1) ip1).
  { apply (slot_post_mono _ _ (fun q => q = (10%nat, []))); [|exact S1]. intros q ->. right. split; [lia|reflexivity]. }
  assert (HP : append_path off (10%nat, [j])) by (left; rewrite pos_indirect by exact Hb; reflexivity).
  assert (Hrun : forall g2 x ind, (if get32 (sect g1 t) (4 * j) =? 0 then
            b ← next_block; let i := put32 (sect g1 t) (4 * j) (xint b) in wsect t i;; mret i
          else mret (sect g1 t)) g1 = Done ind g2 -> xint (get32 ind (4 * j)) = x ->
      append_block din (off / 512) g = Done (with_addrs (iaddrs ip1) din, x) g2).
  { intros g2 x ind Er Ex. unfold append_block. change NDIRECT with 10. rewrite (proj2 (Z.ltb_ge _ 10)) by lia.
    change (Z.of_nat 10) with 10 in E1. rewrite (bind_Done _ _ _ _ _ E1). rewrite (d_addr_root _ ip1) by reflexivity.
    change (Z.to_nat 10) with 10%nat. fold t. rewrite (xint_addr t) by (unfold FSSIZE; lia).
    rewrite (bind_Done _ _ _ _ _ (rsect_run t g1 I1 ltac:(unfold FSSIZE; lia))). cbv zeta. fold j. change NINDIRECT with 128.
    destruct (Z.geb_spec j 128); [lia|]. cbv zeta in Er. rewrite (bind_Done _ _ _ _ _ Er), Ex. reflexivity. }
  destruct (Z.eqb_spec (get32 (sect g1 t) (4 * j)) 0) as [E0|En].
  - assert (Em : off mod 512 = 0) by (apply Esame, E0). rewrite Em in *. cbn [Z.eqb] in *.
    assert (Hfb : 68 <= g_freeblock g1 < 4096) by (pose proof (im_next _ I1); rewrite nmeta_eq in *; destruct (off =? 5120); lia).
    destruct (grow_table g1 ip1 (append_path off) I1 Ho1 ltac:(lia) j HP Hj Hn1 E0) as [S2 I2]. fold t in S2, I2.
    exists (put_sect t (put32 (sect g1 t) (4 * j) (g_freeblock g1)) (bump g1)), ip1, (g_freeblock g1). split.
    + apply (Hrun _ _ (put32 (sect g1 t) (4 * j) (g_freeblock g1))).
      * rewrite (bind_Done _ _ _ _ _ (next_block_run g1)). rewrite xint_addr by (unfold FSSIZE; lia). reflexivity.
      * pose proof (fs_block _ (view_fs_ok g1 ip1 I1) t) as [Hl _]. rewrite Est in Hl. rewrite get_put32_same by (rewrite ?Hl; lia).
        rewrite u32_small, xint_addr by (unfold FSSIZE; lia). reflexivity.
    + split; [apply (slot_post_trans 1 1 0 _ _ _ _ _ _ _ _ _ _ _ S1' S2)|exact I2|exact N1|cbn; lia].
  - assert (Em : off mod 512 <> 0) by (intros E; apply En, Esame, E). exists g1, ip1, (get32 (sect g1 t) (4 * j)). split.
    + apply (Hrun g1 _ (sect g1 t)); [reflexivity|]. apply xint_addr. rewrite <- Eat in *.
      pose proof (view_range g1 ip1 _ I1 Ho1 Hv En). unfold FSSIZE. lia.
    + split; [|exact I1|exact N1|destruct (Z.eqb_spec (off mod 512) 0); lia]. rewrite <- Eat in *.
      apply (slot_post_trans 1 1 0 _ _ _ _ _ _ _ _ _ _ _ S1'). apply slot_post_refl; [apply view_fs_ok, I1|exact Ho1|reflexivity|exact En].
Qed.

Lemma append_block_run (din : dinode) (off : Z) (g : mkfs) (ip : inode) :
  image_ok g -> inode_ok (view g ip) ip -> packed (view g ip) ip off -> d_addrs din = iaddrs ip -> 0 <= off < MKFILE ->
  g_freeblock g + (need (off + 1) - need off) <= 4096 ->
  exists g' ip' x, append_block din (off / 512) g = Done (with_addrs (iaddrs ip') din, x) g' /\
    grew 2 (append_path off) (pos_of (off / 512)) (need (off + 1) - need off) g ip x g' ip'.
Proof.
  intros Hg Ho Hp Ed Hoff Hk. destruct (decide (off < 5120)) as [Hl|Hl]; [|apply append_indirect; auto; lia].
  destruct (append_direct din off g ip) as (g' & ip' & x & E & [S I N B]); auto; [lia|]. exists g', ip', x. split; [exact E|]. split; try assumption.
  pose proof (sp_at _ _ _ _ _ _ _ _ _ S) as A. subst x. apply (slot_post_trans 1 1 0 _ _ _ _ _ _ _ _ _ _ _ S).
  apply slot_post_refl; [apply S|apply S|apply S|apply S].
Qed.

Lemma append_packed (off sz k x : Z) (g g' : mkfs) (ip ip' : inode) : 0 <= off < MKFILE -> off < sz <= (off / 512 + 1) * 512 ->
  packed (view g ip) ip off -> grew 2 (append_path off) (pos_of (off / 512)) k g ip x g' ip' -> packed (view g' ip') ip' sz.
Proof.
  change MKFILE with 70656. intros Hoff Hsz [Hd Ht] [S _ _ _]. pose proof (sp_ext _ _ _ _ _ _ _ _ _ S) as X. pose proof (sp_at _ _ _ _ _ _ _ _ _ S) as A.
  pose proof (sp_nz _ _ _ _ _ _ _ _ _ S) as Nz. assert (Hf : 0 <= off / 512 < 138) by (Z.div_mod_to_equations; lia). change (NDIRECT + NINDIRECT) with 138 in *.
  split.
  - intros bn Hbn. destruct (decide (bn = off / 512)) as [->|Hne]; [rewrite A; split; [contradiction|Z.div_mod_to_equations; lia]|].
    change (NDIRECT + NINDIRECT) with 138 in Hbn. assert (Hbm : 0 <= bn < MAXFILE) by (change MAXFILE with 2113674; lia).
    rewrite (ex_out _ _ _ _ _ X); [rewrite Hd by exact Hbn; Z.div_mod_to_equations; lia|apply pos_of_valid, Hbm|].
    intros [E|[_ E]].
    + apply Hne, pos_of_inj; [exact Hbm|change MAXFILE with 2113674; lia|exact E].
    + destruct (decide (bn < 10)); [rewrite pos_direct in E by lia; injection E as E; lia|rewrite pos_indirect in E by lia; discriminate].
  - destruct (decide (off < 5120)) as [Hl|Hl].
    + assert (Hv : valid_pos (10%nat, [])) by (split_and!; [cbn; lia|cbn; lia|constructor]).
      change (root_of ip' 10) with (blk_at (view g' ip') ip' (10%nat, [])). rewrite (ex_out _ _ _ _ _ X _ Hv).
      * change (blk_at (view g ip) ip (10%nat, [])) with (root_of ip 10). rewrite Ht. Z.div_mod_to_equations. lia.
      * intros [E|[E _]]; [|lia]. rewrite pos_direct in E by (Z.div_mod_to_equations; lia). injection E as E. Z.div_mod_to_equations. lia.
    + split; [|lia]. intros E. exfalso. apply Nz. rewrite <- A, pos_indirect by (Z.div_mod_to_equations; lia).
      change (blk_at (view g' ip') ip' (10%nat, [off / 512 - 10])) with (follow (view g' ip') (root_of ip' 10) (off / 512 - 10)). rewrite E. reflexivity.
Qed.

Lemma need_same (off m : Z) : 0 <= off -> 0 < m <= (off / 512 + 1) * 512 - off -> need (off + m) = need (off + 1).
Proof. intros Ho Hm. unfold need. destruct (Z.ltb_spec 5120 (off + m)), (Z.ltb_spec 5120 (off + 1)); Z.div_mod_to_equations; lia. Qed.

(** What an append has done so far. *)
Record appended (n : nat) (p : list Z) (off m : Z) (g : mkfs) (ip : inode) (g' : mkfs) (ip' : inode) : Prop := {
  ad_step : fstep n 0 (view g ip) ip (view g' ip') ip';
  ad_wrote : wrote p 0 off m (view g ip) ip (view g' ip') ip';
  ad_packed : packed (view g' ip') ip' (off + m);
  ad_image : image_ok g';
  ad_inode : g_freeinode g' = g_freeinode g;
  ad_block : g_freeblock g' = g_freeblock g + (need (off + m) - need off)
}.

Lemma iappend_turn_run (din : dinode) (off : Z) (p : list Z) (g : mkfs) (ip : inode) :
  image_ok g -> inode_ok (view g ip) ip -> packed (view g ip) ip off -> d_addrs din = iaddrs ip -> Forall is_byte p ->
  0 <= off < MKFILE -> p <> [] ->
  let m := Z.min (Z.of_nat (length p)) ((off / 512 + 1) * 512 - off) in
  g_freeblock g + (need (off + m) - need off) <= 4096 ->
  exists g' ip', iappend_turn (din, off, p) g = Done (inl (with_addrs (iaddrs ip') din, off + m, drop (Z.to_nat m) p)) g' /\
    appended 2 p off m g ip g' ip'.
Proof.
  intros Hg Ho Hp Ed Hb Hoff Hne m Hk. assert (Hlen : 0 < Z.of_nat (length p)) by (destruct p; [contradiction|cbn; lia]).
  assert (Hm : 0 < m <= (off / 512 + 1) * 512 - off) by (unfold m; Z.div_mod_to_equations; lia). rewrite (need_same off m) in * by lia.
  destruct (append_block_run din off g ip Hg Ho Hp Ed Hoff Hk) as (g1 & ip1 & x & E1 & Gr). pose proof Gr as [S I N B].
  pose proof (sp_at _ _ _ _ _ _ _ _ _ S) as A. pose proof (sp_nz _ _ _ _ _ _ _ _ _ S) as Nz.
  change MKFILE with 70656 in Hoff. assert (Hbn : 0 <= off / 512 < MAXFILE) by (change MAXFILE with 2113674; Z.div_mod_to_equations; lia).
  assert (Hx : 68 <= x < g_freeblock g1) by (rewrite <- A in Nz |- *; apply view_range; [exact I|apply S|apply pos_of_valid, Hbn|exact Nz]).
  pose proof (im_next _ I) as Hn. assert (Eb : Blk (view g1 ip1) x = sect g1 x) by (rewrite view_Blk, decide_False by lia; reflexivity).
  exists (put_sect x (splice (sect g1 x) (off - off / 512 * 512) (take (Z.to_nat m) p)) g1), ip1. split.
  - unfold iappend_turn. destruct (Z.gtb_spec (Z.of_nat (length p)) 0); [|lia]. cbn [negb]. change BSIZE with 512.
    rewrite (proj2 (Z.ltb_lt _ _)) by lia. cbn [negb]. rewrite (bind_Done _ _ _ _ _ E1). fold m.
    rewrite (bind_Done _ _ _ _ _ (rsect_run x g1 I ltac:(unfold FSSIZE; lia))), (bind_Done _ _ _ _ _ (wsect_run _ _ _)). reflexivity.
  - destruct (splice_wrote 0 p 0 off m (view g ip) (view g1 ip1) ip ip1) as (F2 & W & At); try apply S; try assumption; try lia.
    + change BSIZE with 512. Z.div_mod_to_equations. lia.
    + change MAXFILE with 2113674. change BSIZE with 512. Z.div_mod_to_equations. lia.
    + intros b Hbb. apply (slot_file_block 2 0 (append_path off) (pos_of (off / 512)) _ ip x); assumption.
    + change BSIZE with 512. rewrite A. exact Nz.
    + change BSIZE with 512 in *. rewrite A, Eb in *. replace (off - off / 512 * 512) with (off mod 512) by (Z.div_mod_to_equations; lia).
      change (slice p 0 m) with (take (Z.to_nat m) p) in *. set (d := splice _ _ _) in *.
      assert (Hd : is_block d).
      { pose proof (fs_block _ (fp_fs _ _ _ _ _ _ F2) x) as Hd. rewrite Blk_set, decide_True in Hd by reflexivity. exact Hd. }
      pose proof (append_packed off (off + m) _ x g g1 ip ip1 ltac:(change MKFILE with 70656; lia) ltac:(lia) Hp Gr) as [Pd Pt].
      split; cbn [put_sect g_freeinode g_freeblock]; rewrite ?view_put by lia.
      * exact (fstep_trans 2 0 _ _ _ _ _ _ _ (slot_fstep _ _ _ _ _ _ _ _ _ S) F2).
      * exact W.
      * split; [|exact Pt]. intros bn Hb'. rewrite At by (apply pos_of_valid; change (NDIRECT + NINDIRECT) with 138 in Hb'; change MAXFILE with 2113674; lia). apply Pd, Hb'.
      * apply image_put; [exact I|lia|rewrite nmeta_eq; lia|exact Hd].
      * exact N.
      * cbn. rewrite (need_same off m) by lia. exact B.
Qed.

Lemma wrote_drop (p : list Z) (m off n : Z) (s s' : kernel) (ip ip' : inode) : 0 <= m ->
  wrote (drop (Z.to_nat m) p) 0 off n s ip s' ip' -> wrote p m off n s ip s' ip'.
Proof.
  intros Hm [W H]. split; [|exact H]. intros k Hk. rewrite W by exact Hk. destruct (decide (off <= k < off + n)); [|reflexivity].
  unfold byte_at. rewrite lookup_drop. do 2 f_equal. lia.
Qed.

Lemma need_mono (a b : Z) : 0 <= a <= b -> need a <= need b.
Proof. intros H. unfold need. destruct (Z.ltb_spec 5120 a), (Z.ltb_spec 5120 b); Z.div_mod_to_equations; lia. Qed.

Lemma iappend_loop_run (fu : nat) : forall (din : dinode) (off : Z) (p : list Z) (g : mkfs) (ip : inode),
  image_ok g -> inode_ok (view g ip) ip -> packed (view g ip) ip off -> d_addrs din = iaddrs ip -> Forall is_byte p ->
  let n := Z.of_nat (length p) in
  0 <= off -> off + n <= MKFILE -> turns_le fu off n -> g_freeblock g + (need (off + n) - need off) <= 4096 ->
  exists g' ip', while_loop fu iappend_turn (din, off, p) g = Done (with_addrs (iaddrs ip') din, off + n) g' /\
    appended (2 * fu) p off n g ip g' ip'.
Proof.
  induction fu as [|fu IH]; intros din off p g ip Hg Ho Hp Ed Hb n Hoff Hmax Hfu Hk; [destruct Hfu; lia|]. cbn [while_loop].
  destruct (decide (p = [])) as [->|Hne].
  - exists g, ip. split.
    + rewrite (with_addrs_same _ _ Ed). cbn. rewrite Z.add_0_r. reflexivity.
    + subst n. change (Z.of_nat (length ([] : list Z))) with 0 in *. split; rewrite ?Z.add_0_r; [|split; [|lia]|exact Hp|exact Hg|reflexivity|lia].
      * apply fstep_refl; [apply view_fs_ok, Hg|exact Ho|reflexivity].
      * intros k _. rewrite decide_False by lia. reflexivity.
  - assert (Hn : 0 < n) by (subst n; destruct p; [contradiction|cbn; lia]). destruct (turns_next fu off n Hfu Hn) as (Hm & Hmb & Hfu').
    change BSIZE with 512 in Hm, Hmb, Hfu'. replace (512 - off mod 512) with ((off / 512 + 1) * 512 - off) in * by (Z.div_mod_to_equations; lia).
    set (m := Z.min n ((off / 512 + 1) * 512 - off)) in *. assert (Hmn : m <= n) by (unfold m; lia).
    pose proof (need_mono (off + m) (off + n) ltac:(lia)) as Hnm.
    destruct (iappend_turn_run din off p g ip) as (g1 & ip1 & E1 & [F1 W1 P1 I1 N1 B1]); try assumption; fold n; fold m; [lia|lia|].
    fold n in E1, W1, P1, B1, F1. fold m in E1, W1, P1, B1. rewrite (bind_Done _ _ _ _ _ E1).
    assert (El : Z.of_nat (length (drop (Z.to_nat m) p)) = n - m) by (rewrite length_drop; lia).
    destruct (IH (with_addrs (iaddrs ip1) din) (off + m) (drop (Z.to_nat m) p) g1 ip1) as (g2 & ip2 & E2 & A2); try assumption; rewrite ?El; try lia.
    + apply F1.
    + reflexivity.
    + apply Forall_drop, Hb.
    + exact Hfu'.
    + rewrite B1. replace (off + m + (n - m)) with (off + n) by lia. lia.
    + rewrite El in E2, A2. replace (off + m + (n - m)) with (off + n) in E2 by lia. destruct A2 as [F2 W2 P2 I2 N2 B2].
      replace (off + m + (n - m)) with (off + n) in P2, B2 by lia.
      exists g2, ip2. split; [exact E2|]. split; [|replace n with (m + (n - m)) by lia|exact P2|exact I2|congruence|lia].
      * replace (2 * S fu)%nat with (2 + 2 * fu)%nat by lia. exact (fstep_trans _ _ _ _ _ _ _ _ _ F1 F2).
      * change MKFILE with 70656 in Hmax. eapply (wrote_trans p 0 off m (n - m)); [lia|lia|lia|change MAXFILE with 2113674; change BSIZE with 512; lia|exact F2|exact W1|].
        apply wrote_drop; [lia|exact W2].
Qed.
