(* ===== verification/MkfsSpec.v ===== *)
(** * The image mkfs builds is a file system of the kernel

    [image_of] says which files the image has after each step of [mkfs_main];
    [mkfs_image] is what a kernel finds that starts from the result. *)

From S2P Require Import Prelude Params Bytes CString Kernel Print Sleep Ide Bio Log Fs FsDisk Bmap Dinode Itrunc FileData Dir FsSpec Mkfs MkfsView.

(** ** Files in the image *)

Record file_in (s : kernel) (n ty : Z) (data : list Z) (ip : inode) : Prop := {
  fi_inum : inum ip = n;
  fi_type : itype ip = ty;
  fi_disk : disk_inode s n = dinode_of ip;
  fi_dinode : dinode_ok (dinode_of ip);
  fi_ok : inode_ok s ip;
  fi_size : isize ip = Z.of_nat (length data);
  fi_packed : packed s ip (isize ip);
  fi_data : content s ip 0 (isize ip) = data;
  fi_tail : forall k, isize ip <= k < MAXFILE * BSIZE -> file_byte s ip k = 0
}.

(** No block of one belongs to the other. *)
Definition separate (s : kernel) (a b : inode) : Prop :=
  forall p q, valid_pos p -> valid_pos q -> blk_at s a p <> 0 -> blk_at s a p <> blk_at s b q.

Lemma file_byte_same (s s' : kernel) (ip : inode) (k : Z) : 0 <= k < MAXFILE * BSIZE ->
  (forall q, valid_pos q -> blk_at s' ip q = blk_at s ip q) ->
  (forall q, valid_pos q -> blk_at s ip q <> 0 -> Blk s' (blk_at s ip q) = Blk s (blk_at s ip q)) ->
  file_byte s' ip k = file_byte s ip k.
Proof.
  intros Hk Hat Hblk. pose proof (block_in_file k 1 ltac:(lia) ltac:(lia) ltac:(lia)) as Hb. destruct (pos_of_valid _ Hb) as [Hv _].
  unfold file_byte, file_block. rewrite Hat by exact Hv. destruct (Z.eqb_spec (blk_at s ip (pos_of (k / BSIZE))) 0); [reflexivity|].
  rewrite Hblk by assumption. reflexivity.
Qed.

Lemma file_in_frame (s s' : kernel) (n ty : Z) (data : list Z) (ip : inode) : file_in s n ty data ip -> isize ip <= MAXFILE * BSIZE ->
  k_sb s' = k_sb s -> disk_inode s' n = disk_inode s n -> 0 <= data_start (k_sb s) ->
  (forall c, 0 <= c < sb_size (k_sb s) -> used s c = true -> used s' c = true) ->
  (forall q, valid_pos q -> blk_at s ip q <> 0 -> Blk s' (blk_at s ip q) = Blk s (blk_at s ip q)) ->
  file_in s' n ty data ip /\ (forall q, valid_pos q -> blk_at s' ip q = blk_at s ip q).
Proof.
  intros [H1 H2 H3 H4 H5 H6 [H7 H7'] H8 H9] Hmax Hsb Hdi Hds Hu Hblk.
  assert (Hat : forall q, valid_pos q -> blk_at s' ip q = blk_at s ip q) by (intros q Hq; apply blk_at_same; auto).
  assert (Hbyte : forall k, 0 <= k < MAXFILE * BSIZE -> file_byte s' ip k = file_byte s ip k) by (intros k Hk; apply file_byte_same; assumption).
  split; [|exact Hat]. split; try assumption.
  - rewrite Hdi. exact H3.
  - split; try apply H5.
    + intros q Hq. rewrite Hat by exact Hq. intros Hn. destruct (io_blk _ _ H5 q Hq Hn) as [Hr Hused]. rewrite Hsb. split; [exact Hr|]. apply Hu; [lia|exact Hused].
    + intros p q Hp Hq. rewrite !Hat by assumption. apply H5; assumption.
  - split; [|exact H7']. intros bn Hbn. rewrite Hat by (apply pos_of_valid; change (NDIRECT + NINDIRECT) with 138 in Hbn; change MAXFILE with 2113674; lia). apply H7, Hbn.
  - rewrite <- H8. apply content_ext. intros k Hk. apply Hbyte. lia.
  - intros k Hk. rewrite Hbyte by (rewrite H6 in Hk; lia). apply H9, Hk.
Qed.

Definition kv (g : mkfs) : kernel := view g inode0.

Lemma rinode_run (n : Z) (g : mkfs) : image_ok g -> 0 <= n < NINODES -> rinode n g = Done (disk_inode (kv g) n) g.
Proof.
  intros H Hn. unfold rinode. assert (Hr : 32 <= IBLOCK n mkfs_sb <= 57).
  { unfold IBLOCK. change (sb_inodestart mkfs_sb) with 32. change IPB with 8. unfold NINODES in Hn. Z.div_mod_to_equations. lia. }
  rewrite (bind_Done _ _ _ _ _ (rsect_run (IBLOCK n mkfs_sb) g H ltac:(unfold FSSIZE; lia))). unfold disk_inode. change (k_sb (kv g)) with mkfs_sb. unfold kv.
  rewrite view_Blk, decide_False by lia. reflexivity.
Qed.

Lemma winode_run (ip : inode) (g : mkfs) : image_ok g -> 0 <= inum ip < NINODES -> dinode_ok (dinode_of ip) ->
  exists g', winode (inum ip) (dinode_of ip) g = Done tt g' /\ view g' ip = store_inode ip (view g ip) /\ image_ok g' /\
    g_freeinode g' = g_freeinode g /\ g_freeblock g' = g_freeblock g.
Proof.
  intros H Hn Hd. unfold winode. set (b := IBLOCK (inum ip) mkfs_sb). assert (Hr : 32 <= b <= 57).
  { unfold b, IBLOCK. change (sb_inodestart mkfs_sb) with 32. change IPB with 8. unfold NINODES in Hn. Z.div_mod_to_equations. lia. }
  rewrite (bind_Done _ _ _ _ _ (rsect_run b g H ltac:(unfold FSSIZE; lia))). eexists. split; [apply wsect_run|].
  assert (Eb : Blk (view g ip) b = sect g b) by (rewrite view_Blk, decide_False by lia; reflexivity).
  rewrite view_put by lia. split_and!; try reflexivity.
  - unfold store_inode. change (k_sb (view g ip)) with mkfs_sb. fold b. rewrite Eb. reflexivity.
  - pose proof (im_next _ H) as Hx. rewrite nmeta_eq in Hx. apply image_put; [exact H|lia|rewrite nmeta_eq; lia|].
    apply is_block_put_dinode; [apply inode_off_range|exact Hd|]. rewrite <- Eb. apply (fs_block _ (view_fs_ok g ip H)).
Qed.

(** The inode cache of the view does not matter. *)
Lemma inode_ok_view (g : mkfs) (a b x : inode) : inode_ok (view g a) x -> inode_ok (view g b) x.
Proof. intros [H1 H2 H3 H4]. split; assumption. Qed.

Lemma packed_view (g : mkfs) (a b x : inode) (sz : Z) : packed (view g a) x sz -> packed (view g b) x sz.
Proof. intros [H1 H2]. split; assumption. Qed.

Section Append.
Context (n ty : Z) (data : list Z) (ip : inode) (p : list Z) (g : mkfs).
Hypothesis Hg : image_ok g.
Hypothesis Hfi : file_in (kv g) n ty data ip.
Hypothesis Hn : 0 <= n < NINODES.
Hypothesis Hb : Forall is_byte p.
Abbreviation off := (Z.of_nat (length data)).
Abbreviation len := (Z.of_nat (length p)).
Hypothesis Hmax : off + len <= MKFILE.
Hypothesis Hk : g_freeblock g + (need (off + len) - need off) <= 4096.

(** The run, in terms of the kernel's operations on the view. *)
Lemma iappend_steps : exists k g1 ip1 g',
  let ip' := ip1 <| isize := off + len |> in
  iappend n p g = Done tt g' /\ appended k p off len g ip g1 ip1 /\ view g' ip' = store_inode ip' (view g1 ip') /\
  image_ok g' /\ g_freeinode g' = g_freeinode g /\ g_freeblock g' = g_freeblock g + (need (off + len) - need off) /\
  dinode_ok (dinode_of ip') /\ inum ip' = n.
Proof.
  pose proof (fi_size _ _ _ _ _ Hfi) as Es. pose proof (fi_packed _ _ _ _ _ Hfi) as Hp. rewrite Es in Hp. change MKFILE with 70656 in *.
  destruct (iappend_loop_run (blocks_fuel len) (dinode_of ip) off p g ip) as (g1 & ip1 & E1 & A1);
    [exact Hg|exact (inode_ok_view _ _ _ _ (fi_ok _ _ _ _ _ Hfi))|exact (packed_view _ _ _ _ _ Hp)|reflexivity|exact Hb|lia|exact Hmax|apply turns_blocks_fuel; lia|exact Hk|].
  pose proof A1 as [F1 _ _ I1 N1 B1]. pose proof (fp_ip _ _ _ _ _ _ F1) as Eip. set (ip' := ip1 <| isize := off + len |>).
  assert (Hd : dinode_ok (dinode_of ip')) by (apply (fstep_dinode _ _ _ _ _ _ _ F1 (fi_dinode _ _ _ _ _ Hfi)); unfold is_uint; lia).
  assert (Hi : inum ip' = n) by (unfold ip'; rewrite Eip; apply (fi_inum _ _ _ _ _ Hfi)).
  destruct (winode_run ip' g1 I1 ltac:(rewrite Hi; exact Hn) Hd) as (g' & E2 & V2 & I2 & N2 & B2).
  exists (2 * blocks_fuel len)%nat, g1, ip1, g'. split_and!; try assumption; try congruence.
  unfold iappend. rewrite (bind_Done _ _ _ _ _ (rinode_run n g Hg Hn)), (fi_disk _ _ _ _ _ Hfi).
  change (d_size (dinode_of ip)) with (isize ip). rewrite Es, (xint_id off), u32_small by lia. rewrite (bind_Done _ _ _ _ _ E1).
  rewrite xint_id, u32_small by lia. rewrite Hi in E2. rewrite <- E2. f_equal. unfold set_dsize, with_addrs, dinode_of, ip'. cbn. rewrite Eip. reflexivity.
Qed.

Section Stored.
Context (k : nat) (g1 : mkfs) (ip1 : inode) (g' : mkfs).
Abbreviation ip' := (ip1 <| isize := off + len |>).
Hypothesis A : appended k p off len g ip g1 ip1.
Hypothesis D : dinode_ok (dinode_of ip').
Hypothesis Hi : inum ip' = n.
Hypothesis St : stored ip' (view g1 ip') (view g' ip').
Hypothesis At : forall q, valid_pos q -> blk_at (view g' ip') ip' q = blk_at (view g1 ip1) ip1 q.
Hypothesis Ok : inode_ok (view g' ip') ip'.

Lemma stored_byte (x : Z) : 0 <= x < MAXFILE * BSIZE -> file_byte (view g' ip') ip' x = file_byte (view g1 ip1) ip1 x.
Proof using A St At.
  intros Hx. pose proof (block_in_file x 1 ltac:(lia) ltac:(lia) ltac:(lia)) as Hbn. destruct (pos_of_valid _ Hbn) as [Hv _].
  unfold file_byte, file_block. rewrite At by exact Hv. destruct (Z.eqb_spec (blk_at (view g1 ip1) ip1 (pos_of (x / BSIZE))) 0) as [|Hz]; [reflexivity|].
  pose proof (fp_ok _ _ _ _ _ _ (ad_step _ _ _ _ _ _ _ _ A)) as Ho1. rewrite (st_blk _ _ _ St) by apply (io_blk _ _ Ho1 _ Hv Hz). reflexivity.
Qed.

Lemma appended_file : file_in (kv g') n ty (data ++ p) ip'.
Proof using All.
  destruct A as [F [W Pr] [Pd Pt] I1 _ _]. pose proof (fp_ip _ _ _ _ _ _ F) as Eip. pose proof (fi_size _ _ _ _ _ Hfi) as Es. change MKFILE with 70656 in Hmax.
  assert (Hlim : 2 ^ 20 < MAXFILE * BSIZE) by reflexivity. split.
  - exact Hi.
  - cbn. rewrite Eip. apply (fi_type _ _ _ _ _ Hfi).
  - pose proof (st_same _ _ _ St) as H. rewrite Hi in H. exact H.
  - exact D.
  - exact (inode_ok_view _ _ _ _ Ok).
  - cbn. rewrite length_app. lia.
  - split; [|exact Pt]. intros bn Hbn. change (blk_at (kv g') ip' (pos_of bn)) with (blk_at (view g' ip') ip' (pos_of bn)).
    rewrite At by (apply pos_of_valid; change (NDIRECT + NINDIRECT) with 138 in Hbn; change MAXFILE with 2113674; lia). apply Pd, Hbn.
  - change (content (kv g') ip' 0 (isize ip')) with (content (view g' ip') ip' 0 (off + len)). rewrite content_app by lia. f_equal.
    + rewrite <- (fi_data _ _ _ _ _ Hfi) at 2. rewrite Es. change (content (kv g) ip 0 off) with (content (view g ip) ip 0 off). apply content_ext.
      intros x Hx. rewrite stored_byte, W, decide_False by lia. reflexivity.
    + apply list_eq. intros j. destruct (decide (Z.of_nat j < len)) as [Hj|Hj].
      * rewrite content_lookup, stored_byte, W, decide_True by lia. unfold byte_at. replace (Z.to_nat (0 + (0 + off + Z.of_nat j - off))) with j by lia.
        destruct (lookup_lt_is_Some_2 p j) as [v Hv]; [lia|]. rewrite Hv. reflexivity.
      * rewrite !(proj2 (lookup_ge_None _ j)); [reflexivity|lia|rewrite length_content; lia].
  - intros x Hx. cbn in Hx. change (file_byte (kv g') ip' x) with (file_byte (view g' ip') ip' x). rewrite stored_byte, W, decide_False by lia.
    apply (fi_tail _ _ _ _ _ Hfi). rewrite Es. lia.
Qed.

Lemma appended_other (n' ty' : Z) (data' : list Z) (jp : inode) :
  0 <= n' < NINODES -> n' <> n -> isize jp <= MAXFILE * BSIZE -> file_in (kv g) n' ty' data' jp -> separate (kv g) jp ip ->
  file_in (kv g') n' ty' data' jp /\ separate (kv g') jp ip' /\ forall q, valid_pos q -> blk_at (kv g') jp q = blk_at (kv g) jp q.
Proof using All.
  intros Hn' Hne Hsz Hj Hsep. destruct A as [F _ _ I1 _ _]. pose proof (fi_ok _ _ _ _ _ Hj) as Hoj.
  assert (Hused : forall q, valid_pos q -> blk_at (kv g) jp q <> 0 -> 68 <= blk_at (kv g) jp q < FSSIZE /\ used (kv g) (blk_at (kv g) jp q) = true) by (intros q Hq Hz; apply (io_blk _ _ Hoj q Hq Hz)).
  destruct (file_in_frame (kv g) (kv g') n' ty' data' jp Hj Hsz) as [Hj' Hat].
  - reflexivity.
  - pose proof (st_other _ _ _ St n') as H1. rewrite Hi in H1. change (disk_inode (view g' ip') n' = disk_inode (view g ip) n').
    rewrite H1 by lia. exact (fstep_disk_inode _ _ _ _ _ _ n' (view_fs_ok g ip Hg) F Hn').
  - vm_compute. discriminate.
  - intros c Hc Hu. change (used (view g' ip') c = true). rewrite (st_used _ _ _ St) by exact Hc. exact (fp_used _ _ _ _ _ _ F c Hc Hu).
  - intros q Hq Hz. destruct (Hused q Hq Hz) as [Hr Hu]. set (c := blk_at (kv g) jp q) in *. change (Blk (view g' ip') c = Blk (view g ip) c).
    rewrite (st_blk _ _ _ St) by apply Hr. change (Blk (view g1 ip1) c = Blk (view g ip) c). apply (fp_blk _ _ _ _ _ _ F c Hr Hu).
    intros q' Hq' E. apply (Hsep q q' Hq Hq' Hz). symmetry. exact E.
  - split; [exact Hj'|]. split; [|exact Hat]. intros q q' Hq Hq' Hz. rewrite Hat in * by exact Hq.
    change (blk_at (kv g') ip' q') with (blk_at (view g' ip') ip' q'). rewrite At by exact Hq'. destruct (Hused q Hq Hz) as [Hr Hu]. intros E.
    destruct (decide (blk_at (view g ip) ip q' = 0)) as [E0|E0].
    + pose proof (fp_new _ _ _ _ _ _ F q' Hq' E0 ltac:(congruence)) as Hnu. rewrite <- E in Hnu. change (used (kv g) (blk_at (kv g) jp q) = false) in Hnu. congruence.
    + rewrite (fp_old _ _ _ _ _ _ F q' Hq' E0) in E. apply (Hsep q q' Hq Hq' Hz E).
Qed.
End Stored.

(** The file and the others afterwards. *)
Lemma iappend_run : exists g' ip',
  iappend n p g = Done tt g' /\ image_ok g' /\ g_freeinode g' = g_freeinode g /\
  g_freeblock g' = g_freeblock g + (need (off + len) - need off) /\ file_in (kv g') n ty (data ++ p) ip' /\
  (forall n' ty' data' jp, 0 <= n' < NINODES -> n' <> n -> isize jp <= MAXFILE * BSIZE -> file_in (kv g) n' ty' data' jp -> separate (kv g) jp ip ->
     file_in (kv g') n' ty' data' jp /\ separate (kv g') jp ip' /\ forall q, valid_pos q -> blk_at (kv g') jp q = blk_at (kv g) jp q).
Proof.
  destruct iappend_steps as (k & g1 & ip1 & g' & E & A & V & I & N & B & D & Hi). cbv zeta in *. set (ip' := ip1 <| isize := off + len |>) in *.
  pose proof A as [F W P I1 _ _]. pose proof (fp_ip _ _ _ _ _ _ F) as Eip.
  destruct (resize_store 0 (view g1 ip1) ip1 (off + len)) as (St & At & Ok); [apply F|apply F|reflexivity|rewrite <- Hi in Hn; exact Hn|exact D|].
  fold ip' in St, At, Ok. change (view g1 ip1 <| k_inodes := <[0%nat := ip']> (k_inodes (view g1 ip1)) |>) with (view g1 ip') in St, At, Ok.
  rewrite <- V in St, At, Ok. exists g', ip'. split_and!; try assumption.
  - apply (appended_file k g1 ip1 g'); assumption.
  - intros n' ty' data' jp Hn' Hne Hsz Hj Hsep. apply (appended_other k g1 ip1 g'); assumption.
Qed.
End Append.

(** ** The whole image: inode [k + 1] is file [k] *)

Definition blocks (files : list (Z * list Z)) : Z := foldr (fun f n => need (Z.of_nat (length f.2)) + n) 0 files.

Record image_of (files : list (Z * list Z)) (ips : list inode) (g : mkfs) : Prop := {
  mo_image : image_ok g;
  mo_next : g_freeinode g = 1 + Z.of_nat (length files);
  mo_count : Z.of_nat (length files) < NINODES;
  mo_len : length ips = length files;
  mo_file : forall k ty data ip, files !! k = Some (ty, data) -> ips !! k = Some ip ->
    file_in (kv g) (Z.of_nat k + 1) ty data ip /\ Z.of_nat (length data) <= MKFILE;
  mo_sep : forall k l a b, k <> l -> ips !! k = Some a -> ips !! l = Some b -> separate (kv g) a b;
  mo_block : g_freeblock g = nmeta + blocks files
}.

Lemma blocks_insert (files : list (Z * list Z)) : forall k ty data ty' data', files !! k = Some (ty, data) ->
  blocks (<[k := (ty', data')]> files) = blocks files + (need (Z.of_nat (length data')) - need (Z.of_nat (length data))).
Proof.
  induction files as [|f files IH]; intros [|k] ty data ty' data' H; try discriminate; cbn in H.
  - injection H as ->. cbn. lia.
  - change (<[S k := (ty', data')]> (f :: files)) with (f :: <[k := (ty', data')]> files). cbn [blocks foldr]. fold (blocks (<[k := (ty', data')]> files)) (blocks files).
    rewrite (IH k ty data) by exact H. lia.
Qed.

Lemma separate_sym (s : kernel) (a b : inode) : separate s a b -> separate s b a.
Proof. intros H p q Hp Hq Hn E. apply (H q p Hq Hp); congruence. Qed.

Lemma iappend_image (files : list (Z * list Z)) (ips : list inode) (g : mkfs) (k : nat) (ty : Z) (data p : list Z) :
  image_of files ips g -> files !! k = Some (ty, data) -> Forall is_byte p -> Z.of_nat (length (data ++ p)) <= MKFILE ->
  nmeta + blocks (<[k := (ty, data ++ p)]> files) <= 4096 ->
  exists g' ips', iappend (Z.of_nat k + 1) p g = Done tt g' /\ image_of (<[k := (ty, data ++ p)]> files) ips' g'.
Proof.
  intros [I N C L Fi Sep B] Hk Hb Hmax Hroom. destruct (lookup_lt_is_Some_2 ips k) as [ip Hip]; [rewrite L; apply (lookup_lt_Some _ _ _ Hk)|].
  destruct (Fi k ty data ip Hk Hip) as [Hf _]. pose proof (lookup_lt_Some _ _ _ Hk) as Hlt. rewrite (blocks_insert files k ty data) in Hroom by exact Hk.
  rewrite length_app, Nat2Z.inj_add in Hmax, Hroom.
  destruct (iappend_run (Z.of_nat k + 1) ty data ip p g) as (g' & ip' & E & I' & N' & B' & Hf' & Ho); try assumption; try lia.
  exists g', (<[k := ip']> ips). split; [exact E|].
  assert (Hother : forall l ty2 data2 jp, l <> k -> files !! l = Some (ty2, data2) -> ips !! l = Some jp ->
    file_in (kv g') (Z.of_nat l + 1) ty2 data2 jp /\ separate (kv g') jp ip' /\ forall q, valid_pos q -> blk_at (kv g') jp q = blk_at (kv g) jp q).
  { intros l ty2 data2 jp Hne Hl Hjp. destruct (Fi l ty2 data2 jp Hl Hjp) as [Hj Hlj]. pose proof (lookup_lt_Some _ _ _ Hl).
    apply (Ho (Z.of_nat l + 1) ty2); [lia|lia| |exact Hj|apply (Sep l k); assumption].
    rewrite (fi_size _ _ _ _ _ Hj). change MKFILE with 70656 in Hlj. change MAXFILE with 2113674. change BSIZE with 512. lia. }
  assert (Hget : forall l jp, ips !! l = Some jp -> exists ty2 data2, files !! l = Some (ty2, data2)).
  { intros l jp Hl. destruct (lookup_lt_is_Some_2 files l) as [[ty2 data2] ?]; [rewrite <- L; apply (lookup_lt_Some _ _ _ Hl)|eauto]. }
  split; rewrite ?length_insert; try assumption.
  - congruence.
  - intros l ty2 data2 jp Hl Hjp. apply list_lookup_insert_Some in Hl as [(<- & [= <- <-] & _)|[Hne Hl]].
    + rewrite list_lookup_insert_eq in Hjp by lia. injection Hjp as <-. split; [exact Hf'|]. rewrite length_app, Nat2Z.inj_add. exact Hmax.
    + rewrite list_lookup_insert_ne in Hjp by exact Hne. split; [apply (Hother l ty2 data2 jp); congruence|apply (Fi l ty2 data2 jp Hl Hjp)].
  - intros l1 l2 a b Hne Ha Hb'. destruct (decide (l1 = k)) as [->|H1], (decide (l2 = k)) as [->|H2].
    + contradiction.
    + rewrite list_lookup_insert_eq in Ha by lia. rewrite list_lookup_insert_ne in Hb' by congruence. injection Ha as <-. destruct (Hget l2 b Hb') as (ty2 & data2 & Hl). apply separate_sym, (Hother l2 ty2 data2 b); assumption.
    + rewrite list_lookup_insert_eq in Hb' by lia. rewrite list_lookup_insert_ne in Ha by congruence. injection Hb' as <-. destruct (Hget l1 a Ha) as (ty2 & data2 & Hl). apply (Hother l1 ty2 data2 a); assumption.
    + rewrite list_lookup_insert_ne in Ha, Hb' by congruence. destruct (Hget l1 a Ha) as (ty1 & data1 & Hl1), (Hget l2 b Hb') as (ty2 & data2 & Hl2).
      destruct (Hother l1 _ _ a H1 Hl1 Ha) as (_ & _ & Ea), (Hother l2 _ _ b H2 Hl2 Hb') as (_ & _ & Eb).
      intros q q' Hq Hq'. rewrite Ea, Eb by assumption. apply (Sep l1 l2 a b Hne Ha Hb' q q' Hq Hq').
  - rewrite (blocks_insert files k ty data) by exact Hk. rewrite length_app, Nat2Z.inj_add. lia.
Qed.

(** ** New inodes *)

Definition fresh_inode (n ty : Z) : inode := mk_inode 1 n 1 sleeplock0 1 ty 0 0 1 0 (replicate NADDRS 0).

Lemma fresh_at (s : kernel) (n ty : Z) (q : pos) : blk_at s (fresh_inode n ty) q = 0.
Proof.
  destruct q as [r l]. unfold blk_at. cbn [fst snd]. assert (E : root_of (fresh_inode n ty) r = 0).
  { unfold root_of, fresh_inode. cbn [iaddrs]. destruct (replicate NADDRS 0 !! r) eqn:E; [|reflexivity]. apply lookup_replicate in E as [-> _]. reflexivity. }
  rewrite E. clear E r. induction l as [|j l IH] using rev_ind; [reflexivity|]. rewrite foldl_app, IH. reflexivity.
Qed.

Lemma fresh_dinode (n ty : Z) : is_short ty -> dinode_ok (dinode_of (fresh_inode n ty)).
Proof.
  intros Ht. split; cbn; try (unfold is_short, is_uint; lia); [exact Ht|reflexivity|]. repeat (constructor; [unfold is_uint; lia|]). constructor.
Qed.

Lemma fresh_file (s : kernel) (n ty : Z) : is_short ty -> disk_inode s n = dinode_of (fresh_inode n ty) -> file_in s n ty [] (fresh_inode n ty).
Proof.
  intros Ht Hd. split; try reflexivity; try assumption.
  - apply fresh_dinode, Ht.
  - split; try reflexivity; intros q; rewrite fresh_at; congruence.
  - split; cbn; [|split; [lia|reflexivity]]. intros bn Hb. rewrite fresh_at. split; [lia|reflexivity].
  - intros k Hk. unfold file_byte, file_block. rewrite fresh_at. cbn [Z.eqb]. unfold byte_at, zero_block.
    destruct (replicate _ 0 !! _) eqn:E; [|reflexivity]. apply lookup_replicate in E as [-> _]. reflexivity.
Qed.

Lemma blocks_app (l1 l2 : list (Z * list Z)) : blocks (l1 ++ l2) = blocks l1 + blocks l2.
Proof. induction l1 as [|f l1 IH]; cbn; [reflexivity|]. fold (blocks (l1 ++ l2)) (blocks l1). rewrite IH. lia. Qed.

Lemma xshort_id (x : Z) : xshort x = u16 x.
Proof. exact (le16_sum x). Qed.

(** Storing the inode of one file leaves the others alone. *)
Lemma store_other (g g' : mkfs) (ip jp : inode) (n ty : Z) (data : list Z) : image_ok g -> 0 <= inum ip < NINODES -> dinode_ok (dinode_of ip) ->
  view g' ip = store_inode ip (view g ip) -> 0 <= n -> n <> inum ip -> file_in (kv g) n ty data jp -> Z.of_nat (length data) <= MKFILE ->
  file_in (kv g') n ty data jp /\ forall q, valid_pos q -> blk_at (kv g') jp q = blk_at (kv g) jp q.
Proof.
  intros I Hi Hd V Hn Hne Hj Hl. pose proof (store_inode_stored (view g ip) ip (view_fs_ok g ip I) Hi Hd) as St. rewrite <- V in St.
  apply file_in_frame; [exact Hj| |reflexivity|exact (st_other _ _ _ St n Hn Hne)|vm_compute; discriminate| |].
  - rewrite (fi_size _ _ _ _ _ Hj). change MKFILE with 70656 in Hl. change MAXFILE with 2113674. change BSIZE with 512. lia.
  - intros c Hc Hu. change (used (view g' ip) c = true). rewrite (st_used _ _ _ St) by exact Hc. exact Hu.
  - intros q Hq Hz. apply (st_blk _ _ _ St). apply (io_blk _ _ (fi_ok _ _ _ _ _ Hj) q Hq Hz).
Qed.

Lemma ialloc_image (files : list (Z * list Z)) (ips : list inode) (g : mkfs) (ty : Z) :
  image_of files ips g -> 0 <= ty < 32768 -> Z.of_nat (length files) + 1 < NINODES ->
  let n := Z.of_nat (length files) + 1 in
  exists g', mk_ialloc ty g = Done n g' /\ image_of (files ++ [(ty, [])]) (ips ++ [fresh_inode n ty]) g'.
Proof.
  intros [I N C L Fi Sep B] Ht Hn n. set (ip := fresh_inode n ty). unfold mk_ialloc.
  assert (E0 : g_freeinode g = n) by (unfold n; lia). rewrite (bind_Done (gets g_freeinode) _ g g n ltac:(rewrite <- E0; reflexivity)).
  set (g1 := g <| g_freeinode ::= Z.succ |>). rewrite (bind_Done (modify (fun g => g <| g_freeinode ::= Z.succ |>)) _ g g1 tt eq_refl).
  assert (I1 : image_ok g1) by (destruct I; split; assumption).
  assert (Ed : mk_dinode (xshort ty) 0 0 (xshort 1) (xint 0) (replicate NADDRS 0) = dinode_of ip).
  { unfold dinode_of, ip, fresh_inode. cbn [itype imajor iminor inlink isize iaddrs]. rewrite (xshort_id ty). unfold u16. rewrite Z.mod_small by lia. reflexivity. }
  assert (Hs : is_short ty) by (unfold is_short; lia). pose proof (fresh_dinode n ty Hs) as Hd. fold ip in Hd.
  assert (Hi : 0 <= inum ip < NINODES) by (cbn; lia).
  destruct (winode_run ip g1 I1 Hi Hd) as (g' & E & V & I' & N' & B'). exists g'. split; [rewrite Ed; exact (bind_Done _ _ _ _ _ E)|].
  pose proof (store_inode_stored (view g1 ip) ip (view_fs_ok g1 ip I1) Hi Hd) as St. rewrite <- V in St.
  assert (Hnew : file_in (kv g') n ty [] ip) by (apply fresh_file; [exact Hs|exact (st_same _ _ _ St)]).
  assert (Hold : forall k ty2 data2 jp, files !! k = Some (ty2, data2) -> ips !! k = Some jp ->
    file_in (kv g') (Z.of_nat k + 1) ty2 data2 jp /\ forall q, valid_pos q -> blk_at (kv g') jp q = blk_at (kv g) jp q).
  { intros k ty2 data2 jp Hk Hjp. destruct (Fi k ty2 data2 jp Hk Hjp) as [Hj Hl]. pose proof (lookup_lt_Some _ _ _ Hk).
    apply (store_other g1 g' ip jp _ ty2); try assumption; [lia|]. change (inum ip) with n. unfold n. lia. }
  assert (Hget : forall l jp, ips !! l = Some jp -> exists ty2 data2, files !! l = Some (ty2, data2)).
  { intros l jp Hl. destruct (lookup_lt_is_Some_2 files l) as [[ty2 data2] ?]; [rewrite <- L; apply (lookup_lt_Some _ _ _ Hl)|eauto]. }
  split.
  - exact I'.
  - rewrite N'. cbn. rewrite N, length_app. cbn. lia.
  - rewrite length_app. cbn. lia.
  - rewrite !length_app, L. reflexivity.
  - intros k ty2 data2 jp Hk Hjp. apply lookup_app_Some in Hk as [Hk|[Hge Hk]].
    + rewrite lookup_app_l in Hjp by (rewrite L; apply (lookup_lt_Some _ _ _ Hk)). split; [apply (Hold k ty2 data2 jp Hk Hjp)|apply (Fi k ty2 data2 jp Hk Hjp)].
    + rewrite lookup_app_r in Hjp by lia. rewrite L in Hjp. apply list_lookup_singleton_Some in Hk as [Ek [= <- <-]]. rewrite Ek in Hjp. injection Hjp as <-.
      replace (Z.of_nat k + 1) with n by (unfold n; lia). split; [exact Hnew|]. change MKFILE with 70656. cbn. lia.
  - intros k l a b Hne Ha Hb. apply lookup_app_Some in Ha as [Ha|[Hga Ha]], Hb as [Hb|[Hgb Hb]].
    + destruct (Hget k a Ha) as (t1 & d1 & H1), (Hget l b Hb) as (t2 & d2 & H2). destruct (Hold k t1 d1 a H1 Ha) as [_ Ea], (Hold l t2 d2 b H2 Hb) as [_ Eb].
      intros q q' Hq Hq'. rewrite Ea, Eb by assumption. apply (Sep k l a b Hne Ha Hb q q' Hq Hq').
    + apply list_lookup_singleton_Some in Hb as [_ <-]. intros q q' _ _ Hz. unfold ip. rewrite fresh_at. exact Hz.
    + apply list_lookup_singleton_Some in Ha as [_ <-]. intros q q' _ _ Hz. unfold ip in Hz. rewrite fresh_at in Hz. contradiction.
    + apply list_lookup_singleton_Some in Ha as [Ea _], Hb as [Eb _]. lia.
  - rewrite B', blocks_app. change (blocks [(ty, [])]) with 0. rewrite Z.add_0_r. exact B.
Qed.

(** ** Adding files *)

Fixpoint reads_data (reads : list (list Z)) : list Z :=
  match reads with (b :: r) :: reads' => (b :: r) ++ reads_data reads' | _ => [] end.

Definition hf_data (f : hostfile) : list Z := reads_data (hf_reads f).
Definition hf_entry (n : Z) (f : hostfile) : dirent := new_entry (skip_underscore (hf_name f)) n.

Record hostfile_ok (f : hostfile) : Prop := {
  hk_name : existsb (Z.eqb 47) (hf_name f) = false;
  hk_bytes : Forall is_byte (hf_name f);
  hk_reads : Forall (Forall is_byte) (hf_reads f);
  hk_size : Z.of_nat (length (hf_data f)) <= MKFILE
}.

Lemma blocks_mono (files : list (Z * list Z)) (k : nat) (ty : Z) (data data1 data2 : list Z) : files !! k = Some (ty, data) ->
  (length data1 <= length data2)%nat -> blocks (<[k := (ty, data1)]> files) <= blocks (<[k := (ty, data2)]> files).
Proof.
  intros Hk Hl. rewrite !(blocks_insert files k ty data) by exact Hk.
  pose proof (need_mono (Z.of_nat (length data1)) (Z.of_nat (length data2)) ltac:(lia)). lia.
Qed.

Lemma append_reads_image (k : nat) (ty : Z) (reads : list (list Z)) : forall files ips g data,
  image_of files ips g -> files !! k = Some (ty, data) -> Forall (Forall is_byte) reads ->
  let data' := data ++ reads_data reads in
  Z.of_nat (length data') <= MKFILE -> nmeta + blocks (<[k := (ty, data')]> files) <= 4096 ->
  exists g' ips', append_reads (Z.of_nat k + 1) reads g = Done tt g' /\ image_of (<[k := (ty, data')]> files) ips' g'.
Proof.
  induction reads as [|r reads IH]; intros files ips g data Hi Hk Hb data' Hmax Hroom.
  - exists g, ips. split; [reflexivity|]. unfold data'. cbn. rewrite app_nil_r, list_insert_id by exact Hk. exact Hi.
  - destruct r as [|b r].
    { exists g, ips. split; [reflexivity|]. unfold data'. cbn. rewrite app_nil_r, list_insert_id by exact Hk. exact Hi. }
    apply Forall_cons in Hb as [Hb1 Hb2]. cbn [append_reads]. set (p := b :: r) in *.
    assert (Ed : data' = (data ++ p) ++ reads_data reads) by (unfold data'; cbn; fold p; rewrite <- app_assoc; reflexivity).
    assert (Hle : (length (data ++ p) <= length data')%nat) by (rewrite Ed, (length_app (data ++ p)); lia).
    destruct (iappend_image files ips g k ty data p) as (g1 & ips1 & E1 & H1); try assumption; [lia|pose proof (blocks_mono files k ty data _ _ Hk Hle); lia|].
    pose proof (lookup_lt_Some _ _ _ Hk) as Hlt.
    destruct (IH (<[k := (ty, data ++ p)]> files) ips1 g1 (data ++ p)) as (g2 & ips2 & E2 & H2); rewrite <- ?Ed in *; try assumption.
    + apply list_lookup_insert_eq, Hlt.
    + rewrite list_insert_insert_eq. exact Hroom.
    + exists g2, ips2. split; [rewrite (bind_Done _ _ _ _ _ E1); exact E2|]. rewrite list_insert_insert_eq in H2. exact H2.
Qed.

Lemma skip_bytes (l : list Z) : Forall is_byte l -> Forall is_byte (skip_underscore l).
Proof.
  intros H. unfold skip_underscore. destruct l as [|x l]; [exact H|]. apply Forall_cons in H as [Hx H].
  repeat (match goal with |- context [match ?z with _ => _ end] => destruct z end); try exact H; constructor; assumption.
Qed.

Lemma add_file_image (files : list (Z * list Z)) (ips : list inode) (g : mkfs) (dir : list Z) (f : hostfile) :
  image_of ((T_DIR, dir) :: files) ips g -> hostfile_ok f -> Z.of_nat (length files) + 2 < NINODES ->
  let n := Z.of_nat (length files) + 2 in
  let dir' := dir ++ dirent_bytes (hf_entry n f) in
  let files' := (T_DIR, dir') :: files ++ [(T_FILE, hf_data f)] in
  Z.of_nat (length dir') <= MKFILE -> nmeta + blocks files' <= 4096 ->
  exists g' ips', add_file ROOTINO f g = Done tt g' /\ image_of files' ips' g'.
Proof.
  intros Hi [Hn Hb Hr Hs] Hc n dir' files' Hmax Hroom. unfold add_file. rewrite Hn. cbv zeta.
  destruct (ialloc_image ((T_DIR, dir) :: files) ips g T_FILE Hi) as (g1 & E1 & H1); [unfold T_FILE; lia|cbn [length]; lia|].
  replace (Z.of_nat (length ((T_DIR, dir) :: files)) + 1) with n in * by (cbn [length]; unfold n; lia). rewrite (bind_Done _ _ _ _ _ E1). clear E1.
  assert (Ee : dirent_bytes (mk_dirent (xshort n) (mk_name (skip_underscore (hf_name f)))) = dirent_bytes (hf_entry n f)) by (rewrite xshort_id; reflexivity).
  rewrite Ee. clear Ee. cbn [app] in H1.
  set (l0 := files ++ [(T_FILE, [])]) in *.
  assert (Hup : <[length files := (T_FILE, hf_data f)]> l0 = files ++ [(T_FILE, hf_data f)]).
  { unfold l0. rewrite <- (Nat.add_0_r (length files)) at 1. rewrite insert_app_r. reflexivity. }
  assert (Hl0 : l0 !! length files = Some (T_FILE, [])) by (apply list_lookup_middle; reflexivity).
  assert (Hb0 : nmeta + blocks ((T_DIR, dir') :: l0) <= 4096).
  { pose proof (blocks_mono l0 (length files) T_FILE [] [] (hf_data f) Hl0 ltac:(cbn; lia)) as Hm. rewrite Hup, list_insert_id in Hm by exact Hl0.
    unfold files' in Hroom. cbn [blocks foldr snd] in *. fold (blocks l0) in *. fold (blocks (files ++ [(T_FILE, hf_data f)])) in *. lia. }
  assert (Hnb : Forall is_byte (dirent_bytes (hf_entry n f))).
  { apply new_entry_bytes, skip_bytes, Hb. }
  destruct (iappend_image _ _ g1 0 T_DIR dir _ H1 eq_refl Hnb Hmax Hb0) as (g2 & ips2 & E2 & H2). change (Z.of_nat 0 + 1) with ROOTINO in E2.
  rewrite (bind_Done _ _ _ _ _ E2). change (<[0%nat := (T_DIR, dir ++ dirent_bytes (hf_entry n f))]> ((T_DIR, dir) :: l0)) with ((T_DIR, dir') :: l0) in H2.
  destruct (append_reads_image (S (length files)) T_FILE (hf_reads f) _ _ g2 [] H2 Hl0 Hr) as (g3 & ips3 & E3 & H3).
  - exact Hs.
  - change (<[S (length files) := (T_FILE, [] ++ reads_data (hf_reads f))]> ((T_DIR, dir') :: l0)) with ((T_DIR, dir') :: <[length files := (T_FILE, hf_data f)]> l0).
    rewrite Hup. exact Hroom.
  - exists g3, ips3. split; [replace n with (Z.of_nat (S (length files)) + 1) by (unfold n; lia); exact E3|].
    change (<[S (length files) := (T_FILE, [] ++ reads_data (hf_reads f))]> ((T_DIR, dir') :: l0)) with ((T_DIR, dir') :: <[length files := (T_FILE, hf_data f)]> l0) in H3.
    rewrite Hup in H3. exact H3.
Qed.

Fixpoint dir_entries (n : Z) (fs : list hostfile) : list dirent :=
  match fs with [] => [] | f :: fs' => hf_entry n f :: dir_entries (n + 1) fs' end.

Definition dir_bytes (es : list dirent) : list Z := concat (map dirent_bytes es).

Lemma blocks_nonneg (files : list (Z * list Z)) : 0 <= blocks files.
Proof. induction files as [|f files IH]; cbn; [lia|]. fold (blocks files). pose proof (need_mono 0 (Z.of_nat (length f.2)) ltac:(lia)) as H. change (need 0) with 0 in H. lia. Qed.

Lemma add_files_image (fs : list hostfile) : forall files ips g dir,
  image_of ((T_DIR, dir) :: files) ips g -> Forall hostfile_ok fs -> Z.of_nat (length files) + Z.of_nat (length fs) + 1 < NINODES ->
  let dir' := dir ++ dir_bytes (dir_entries (Z.of_nat (length files) + 2) fs) in
  let files' := (T_DIR, dir') :: files ++ map (fun f => (T_FILE, hf_data f)) fs in
  Z.of_nat (length dir') <= MKFILE -> nmeta + blocks files' <= 4096 ->
  exists g' ips', add_files ROOTINO fs g = Done tt g' /\ image_of files' ips' g'.
Proof.
  induction fs as [|f fs IH]; intros files ips g dir Hi Hok Hc dir' files' Hmax Hroom.
  - exists g, ips. split; [reflexivity|]. unfold files', dir'. cbn. rewrite !app_nil_r. exact Hi.
  - apply Forall_cons in Hok as [Hf Hok]. cbn [length] in Hc. set (n := Z.of_nat (length files) + 2) in *.
    set (d1 := dir ++ dirent_bytes (hf_entry n f)). set (l1 := files ++ [(T_FILE, hf_data f)]).
    assert (Ed : dir' = d1 ++ dir_bytes (dir_entries (Z.of_nat (length l1) + 2) fs)).
    { unfold dir', d1, l1, dir_bytes. rewrite length_app. cbn [dir_entries map concat length]. rewrite <- app_assoc. unfold n.
      replace (Z.of_nat (length files + 1) + 2) with (Z.of_nat (length files) + 2 + 1) by lia. reflexivity. }
    assert (El : files' = (T_DIR, dir') :: l1 ++ map (fun f => (T_FILE, hf_data f)) fs) by (unfold files', l1; cbn [map]; rewrite <- app_assoc; reflexivity).
    assert (Hd1 : (length d1 <= length dir')%nat) by (rewrite Ed, (length_app d1); lia).
    assert (Hb1 : blocks ((T_DIR, d1) :: l1) <= blocks files').
    { rewrite El. cbn [blocks foldr snd]. fold (blocks l1) (blocks (l1 ++ map (fun f => (T_FILE, hf_data f)) fs)). rewrite blocks_app.
      pose proof (blocks_nonneg (map (fun f => (T_FILE, hf_data f)) fs)). pose proof (need_mono (Z.of_nat (length d1)) (Z.of_nat (length dir')) ltac:(lia)). lia. }
    destruct (add_file_image files ips g dir f Hi Hf) as (g1 & ips1 & E1 & H1); fold n; fold d1; fold l1; [lia|lia|lia|].
    fold n in H1. fold d1 in H1. fold l1 in H1.
    destruct (IH l1 ips1 g1 d1 H1 Hok) as (g2 & ips2 & E2 & H2); rewrite <- ?Ed, <- ?El; try assumption; [unfold l1; rewrite length_app; cbn; lia|].
    exists g2, ips2. split; [cbn [add_files]; rewrite (bind_Done _ _ _ _ _ E1); exact E2|]. rewrite <- Ed, <- El in H2. exact H2.
Qed.

(** ** The beginning *)

Lemma zero_sectors_run (n : nat) : forall i g, 0 <= i -> exists g', zero_sectors n i g = Done tt g' /\
  g_freeinode g' = g_freeinode g /\ g_freeblock g' = g_freeblock g /\
  forall b, g_img g' !! b = if decide (i <= b < i + Z.of_nat n) then Some zero_block else g_img g !! b.
Proof.
  induction n as [|n IH]; intros i g Hi; cbn [zero_sectors].
  - exists g. split_and!; try reflexivity. intros b. rewrite decide_False by lia. reflexivity.
  - destruct (IH (i + 1) (put_sect i zero_block g) ltac:(lia)) as (g' & E & H1 & H2 & H3). exists g'. split_and!; try assumption.
    intros b. rewrite H3. cbn. destruct (decide (b = i)) as [->|Hne].
    + rewrite decide_False, decide_True, lookup_insert_eq by lia. reflexivity.
    + rewrite lookup_insert_ne by congruence. destruct (decide (i + 1 <= b < i + 1 + Z.of_nat n)); [rewrite decide_True by lia|rewrite decide_False by lia]; reflexivity.
Qed.

Lemma start_image (n : nat) : Z.of_nat n = FSSIZE ->
  exists g, zero_sectors n 0 (mkfs0 <| g_freeblock := nmeta |>) = Done tt g /\
    image_of [] [] (put_sect 1 (splice zero_block 0 (superblock_bytes mkfs_sb)) g).
Proof.
  intros Hn. pose (g0 := mkfs0 <| g_freeblock := nmeta |>). destruct (zero_sectors_run n 0 g0 ltac:(lia)) as (g1 & E1 & N1 & B1 & M1).
  exists g1. split; [exact E1|].
  rewrite Hn, Z.add_0_l in M1. clear Hn E1.
  assert (Hs : forall b, b <> 1 -> sect (put_sect 1 (splice zero_block 0 (superblock_bytes mkfs_sb)) g1) b = zero_block).
  { intros b Hb. rewrite sect_put, decide_False by exact Hb. unfold sect. rewrite M1. destruct (decide _); reflexivity. }
  split; try (intros; cbn in *; discriminate); try reflexivity.
  - split.
    + intros b Hb. cbn. destruct (decide (b = 1)) as [->|Hne].
      * rewrite lookup_insert_eq. eexists. split; [reflexivity|]. split; [reflexivity|]. vm_compute. repeat constructor; discriminate.
      * rewrite lookup_insert_ne, M1, decide_True by (congruence || exact Hb). eexists. split; [reflexivity|apply is_block_zero].
    + intros b Hb. cbn. rewrite lookup_insert_ne, M1, decide_False by (exact Hb || (intros <-; apply Hb; unfold FSSIZE; lia)). reflexivity.
    + rewrite sect_put, decide_True by reflexivity. reflexivity.
    + cbn. rewrite B1. vm_compute. split; discriminate.
    + intros b Hb. change (g_freeblock g1 <= b) in Hb. rewrite B1 in Hb. change (68 <= b) in Hb. apply Hs. lia.
    + intros b Hb. apply Hs. lia.
  - cbn. rewrite N1. reflexivity.
  - cbn. rewrite B1. reflexivity.
Qed.

Definition root_entries (fs : list hostfile) : list dirent :=
  new_entry [46] ROOTINO :: new_entry [46; 46] ROOTINO :: dir_entries 2 fs.

(** What mkfs has room for. *)
Record mkfs_fits (fs : list hostfile) : Prop := {
  mf_files : Forall hostfile_ok fs;
  mf_count : Z.of_nat (length fs) < NINODES - 1;
  mf_room : nmeta + blocks ((T_DIR, dir_bytes (root_entries fs)) :: map (fun f => (T_FILE, hf_data f)) fs) < 4096
}.

Lemma length_dir_entries (fs : list hostfile) : forall n, length (dir_entries n fs) = length fs.
Proof. induction fs as [|f fs IH]; intros n; cbn; [reflexivity|]. rewrite IH. reflexivity. Qed.

Lemma length_dir_bytes (es : list dirent) : Forall (fun e => length (dirent_bytes e) = 16%nat) es -> length (dir_bytes es) = (16 * length es)%nat.
Proof. induction 1 as [|e es He Hes IH]; [reflexivity|]. unfold dir_bytes in *. cbn [map concat length]. rewrite length_app, He, IH. lia. Qed.

Lemma root_entries_len (fs : list hostfile) : Forall (fun e => length (dirent_bytes e) = 16%nat) (root_entries fs).
Proof.
  unfold root_entries. constructor; [apply new_entry_bytes|]. constructor; [apply new_entry_bytes|]. generalize 2.
  induction fs as [|f fs IH]; intros n; cbn; constructor; [apply new_entry_bytes|apply IH].
Qed.

Definition final_files (fs : list hostfile) : list (Z * list Z) := (T_DIR, dir_bytes (root_entries fs)) :: map (fun f => (T_FILE, hf_data f)) fs.

(** Up to the last two steps. *)
Lemma files_image (fs : list hostfile) : mkfs_fits fs -> exists g ips, image_of (final_files fs) ips g /\
  mkfs_main fs mkfs0 = (fix_root_size ROOTINO;; b ← gets g_freeblock; mk_balloc b) g.
Proof.
  intros [Hf Hc Hr]. pose proof (length_dir_bytes _ (root_entries_len fs)) as Hd. unfold root_entries in Hd. cbn [length] in Hd. rewrite length_dir_entries in Hd.
  set (e1 := dirent_bytes (new_entry [46] ROOTINO)). set (e2 := dirent_bytes (new_entry [46; 46] ROOTINO)).
  assert (Edir : dir_bytes (root_entries fs) = (e1 ++ e2) ++ dir_bytes (dir_entries 2 fs)) by (rewrite <- app_assoc; reflexivity).
  destruct (start_image (Z.to_nat FSSIZE)) as (g0 & E0 & H0); [apply Z2Nat.id; vm_compute; discriminate|].
  unfold mkfs_main. revert E0. generalize (Z.to_nat FSSIZE). intros n E0.
  rewrite (bind_Done (modify (fun g => g <| g_freeblock := nmeta |>)) _ mkfs0 _ tt eq_refl), (bind_Done _ _ _ _ _ E0), (bind_Done _ _ _ _ _ (wsect_run _ _ _)).
  destruct (ialloc_image [] [] _ T_DIR H0) as (g1 & E1 & H1); [unfold T_DIR; lia|reflexivity|]. cbn [length app] in E1, H1. change (Z.of_nat 0 + 1) with ROOTINO in E1.
  rewrite (bind_Done _ _ _ _ _ E1), Z.eqb_refl. cbn [negb]. rewrite xshort_id.
  change (dirent_bytes (mk_dirent (u16 ROOTINO) (mk_name [46]))) with e1. change (dirent_bytes (mk_dirent (u16 ROOTINO) (mk_name [46; 46]))) with e2.
  assert (B1 : Forall is_byte e1 /\ length e1 = 16%nat) by (split; apply new_entry_bytes; repeat constructor; unfold is_byte; lia).
  assert (B2 : Forall is_byte e2 /\ length e2 = 16%nat) by (split; apply new_entry_bytes; repeat constructor; unfold is_byte; lia).
  destruct B1 as [B1 L1], B2 as [B2 L2]. unfold NINODES in Hc.
  destruct (iappend_image _ _ g1 0 T_DIR [] e1 H1 eq_refl B1) as (g2 & ips2 & E2 & H2);
    [change MKFILE with 70656; rewrite length_app, L1; cbn; lia|vm_compute; discriminate|].
  rewrite (bind_Done _ _ _ _ _ E2).
  destruct (iappend_image _ _ g2 0 T_DIR e1 e2 H2 eq_refl B2) as (g3 & ips3 & E3 & H3);
    [change MKFILE with 70656; rewrite length_app, L1, L2; cbn; lia|vm_compute; discriminate|].
  rewrite (bind_Done _ _ _ _ _ E3).
  destruct (add_files_image fs [] ips3 g3 (e1 ++ e2) H3 Hf) as (g4 & ips4 & E4 & H4).
  - cbn [length]. unfold NINODES. lia.
  - change (Z.of_nat (length (@nil (Z * list Z))) + 2) with 2. rewrite <- Edir. change MKFILE with 70656. unfold root_entries. rewrite Hd. lia.
  - change (Z.of_nat (length (@nil (Z * list Z))) + 2) with 2. rewrite <- Edir. cbn [app]. lia.
  - exists g4, ips4. change (Z.of_nat (length (@nil (Z * list Z))) + 2) with 2 in H4. rewrite <- Edir in H4. split; [exact H4|].
    rewrite (bind_Done _ _ _ _ _ E4). reflexivity.
Qed.

(** ** The root directory, with its size rounded up *)

Record root_in (s : kernel) (dir : list Z) (ip : inode) : Prop := {
  ri_type : itype ip = T_DIR;
  ri_disk : disk_inode s ROOTINO = dinode_of ip;
  ri_ok : inode_ok s ip;
  ri_size : isize ip = (Z.of_nat (length dir) / BSIZE + 1) * BSIZE;
  ri_packed : packed s ip (Z.of_nat (length dir));
  ri_data : content s ip 0 (Z.of_nat (length dir)) = dir;
  ri_tail : forall k, Z.of_nat (length dir) <= k < MAXFILE * BSIZE -> file_byte s ip k = 0
}.

Lemma fix_root_run (dir : list Z) (files : list (Z * list Z)) (ips : list inode) (g : mkfs) :
  image_of ((T_DIR, dir) :: files) ips g ->
  exists g' ip, fix_root_size ROOTINO g = Done tt g' /\ image_ok g' /\ g_freeblock g' = g_freeblock g /\ root_in (kv g') dir ip /\
    forall k ty data, files !! k = Some (ty, data) -> exists jp, file_in (kv g') (Z.of_nat k + 2) ty data jp /\ Z.of_nat (length data) <= MKFILE.
Proof.
  intros [I N C L Fi Sep B]. destruct ips as [|ip ips]; [discriminate|].
  destruct (Fi 0%nat T_DIR dir ip eq_refl eq_refl) as [Hf Hl]. change (Z.of_nat 0 + 1) with ROOTINO in Hf.
  pose proof (fi_size _ _ _ _ _ Hf) as Es. change MKFILE with 70656 in Hl. set (sz := (Z.of_nat (length dir) / BSIZE + 1) * BSIZE).
  assert (Hsz : 0 <= sz < 2 ^ 20) by (unfold sz; change BSIZE with 512; Z.div_mod_to_equations; lia).
  set (ip' := ip <| isize := sz |>). pose proof (fi_dinode _ _ _ _ _ Hf) as Hd.
  assert (Hd' : dinode_ok (dinode_of ip')) by (destruct Hd; split; try assumption; cbn; unfold is_uint; lia).
  assert (Hi : inum ip' = ROOTINO) by apply (fi_inum _ _ _ _ _ Hf).
  assert (Hir : 0 <= inum ip' < NINODES) by (rewrite Hi; unfold ROOTINO, NINODES; lia).
  destruct (winode_run ip' g I Hir Hd') as (g' & E & V & I' & N' & B').
  destruct (resize_store 0 (view g ip) ip sz) as (St & At & Ok); [apply view_fs_ok, I|exact (inode_ok_view _ _ _ _ (fi_ok _ _ _ _ _ Hf))|reflexivity|exact Hir|exact Hd'|].
  fold ip' in St, At, Ok. change (view g ip <| k_inodes := <[0%nat := ip']> (k_inodes (view g ip)) |>) with (view g ip') in St, At, Ok. rewrite <- V in St, At, Ok.
  assert (Hbyte : forall k, 0 <= k < MAXFILE * BSIZE -> file_byte (view g' ip') ip' k = file_byte (view g ip) ip k).
  { intros k Hk. pose proof (block_in_file k 1 ltac:(lia) ltac:(lia) ltac:(lia)) as Hbn. destruct (pos_of_valid _ Hbn) as [Hv _].
    unfold file_byte, file_block. rewrite At by exact Hv. destruct (Z.eqb_spec (blk_at (view g ip) ip (pos_of (k / BSIZE))) 0) as [|Hz]; [reflexivity|].
    rewrite (st_blk _ _ _ St) by apply (io_blk _ _ (fi_ok _ _ _ _ _ Hf) _ Hv Hz). reflexivity. }
  assert (Hlim : 2 ^ 20 < MAXFILE * BSIZE) by reflexivity. exists g', ip'. split_and!; try assumption.
  - unfold fix_root_size. rewrite (bind_Done _ _ _ _ _ (rinode_run ROOTINO g I ltac:(unfold ROOTINO, NINODES; lia))), (fi_disk _ _ _ _ _ Hf).
    change (d_size (dinode_of ip)) with (isize ip). rewrite Es. rewrite (xint_id (Z.of_nat (length dir))), u32_small by lia. cbv zeta. fold sz.
    rewrite xint_id, u32_small by lia. rewrite Hi in E. rewrite <- E. reflexivity.
  - split.
    + exact (fi_type _ _ _ _ _ Hf).
    + pose proof (st_same _ _ _ St) as H. rewrite Hi in H. exact H.
    + exact (inode_ok_view _ _ _ _ Ok).
    + reflexivity.
    + destruct (fi_packed _ _ _ _ _ Hf) as [Pd Pt]. rewrite Es in Pd, Pt. split; [|exact Pt]. intros bn Hbn.
      change (blk_at (kv g') ip' (pos_of bn)) with (blk_at (view g' ip') ip' (pos_of bn)).
      rewrite At by (apply pos_of_valid; change (NDIRECT + NINDIRECT) with 138 in Hbn; change MAXFILE with 2113674; lia). apply Pd, Hbn.
    + rewrite <- (fi_data _ _ _ _ _ Hf) at 2. rewrite Es. apply content_ext. intros k Hk. apply Hbyte. lia.
    + intros k Hk. change (file_byte (kv g') ip' k) with (file_byte (view g' ip') ip' k). rewrite Hbyte by lia. apply (fi_tail _ _ _ _ _ Hf). rewrite Es. lia.
  - intros k ty data Hk. destruct (lookup_lt_is_Some_2 ips k) as [jp Hjp]; [injection L as L; rewrite L; apply (lookup_lt_Some _ _ _ Hk)|].
    destruct (Fi (S k) ty data jp Hk Hjp) as [Hj Hlj]. exists jp. split; [|exact Hlj]. replace (Z.of_nat k + 2) with (Z.of_nat (S k) + 1) by lia.
    apply (store_other g g' ip' jp _ ty data I Hir Hd' V); [lia|rewrite Hi; unfold ROOTINO; lia|exact Hj|exact Hlj].
Qed.

(** ** A kernel that boots from the image *)

Section Boot.
Context (s0 s : kernel).
Hypothesis Hblk : forall b, Blk s b = Blk s0 b.
Hypothesis Hsb : k_sb s = k_sb s0.

Lemma same_used (c : Z) : used s c = used s0 c.
Proof. unfold used. rewrite Hsb, Hblk. reflexivity. Qed.

Lemma same_at (ip : inode) (q : pos) : blk_at s ip q = blk_at s0 ip q.
Proof.
  unfold blk_at. generalize (root_of ip q.1). induction q.2 as [|j l IH]; intros a; [reflexivity|]. cbn [foldl]. rewrite <- IH. f_equal.
  unfold follow. rewrite Hblk. reflexivity.
Qed.

Lemma same_byte (ip : inode) (k : Z) : file_byte s ip k = file_byte s0 ip k.
Proof. unfold file_byte, file_block. rewrite same_at, Hblk. reflexivity. Qed.

Lemma same_fs_ok : fs_ok s0 -> fs_ok s.
Proof.
  intros [H1 H2 H3 H4 H5 H6 H7]. split; rewrite ?Hsb; try assumption.
  - intros b. rewrite Hblk. apply H1.
  - rewrite Hblk. exact H2.
  - intros b Hb. rewrite same_used. apply H7, Hb.
Qed.

(** The inode the kernel has in memory: the same device, type, size and blocks. *)
Lemma same_inode_ok (ip x : inode) : inode_ok s0 ip -> idev x = 1 -> iaddrs x = iaddrs ip -> inode_ok s x /\ forall q, blk_at s x q = blk_at s0 ip q.
Proof.
  intros [H1 H2 H3 H4] Hd Ha. assert (E : forall q, blk_at s x q = blk_at s0 ip q).
  { intros q. rewrite same_at. unfold blk_at, root_of. rewrite Ha. reflexivity. }
  split; [|exact E]. split; rewrite ?Ha, ?Hsb; auto.
  - intros q Hq. rewrite E, same_used. apply H3, Hq.
  - intros p q Hp Hq. rewrite !E. apply H4; assumption.
Qed.

Lemma image_content (ip x : inode) (off n : Z) : iaddrs x = iaddrs ip -> content s x off n = content s0 ip off n.
Proof.
  intros Ha. apply list_fmap_ext. intros j k _. rewrite same_byte. unfold file_byte, file_block, blk_at, root_of. rewrite Ha. reflexivity.
Qed.
End Boot.

Lemma content_slice (s : kernel) (ip : inode) (a b n : Z) : 0 <= a -> 0 <= b -> a + b <= n ->
  content s ip a b = take (Z.to_nat b) (drop (Z.to_nat a) (content s ip 0 n)).
Proof.
  intros Ha Hb Hn. replace n with (a + (b + (n - a - b))) by lia. rewrite (content_app s ip 0 a), (content_app s ip (0 + a) b) by lia.
  rewrite drop_app_length' by (rewrite length_content; lia). rewrite take_app_length' by (rewrite length_content; lia). reflexivity.
Qed.

Lemma dir_bytes_slice (es : list dirent) : Forall (fun e => length (dirent_bytes e) = 16%nat) es -> forall k e, es !! k = Some e ->
  take 16 (drop (16 * k) (dir_bytes es)) = dirent_bytes e.
Proof.
  induction 1 as [|e0 es He Hes IH]; intros k e Hk; [discriminate|]. unfold dir_bytes in *. cbn [map concat]. destruct k as [|k]; cbn in Hk.
  - injection Hk as <-. rewrite drop_0. apply take_app_length'. symmetry. exact He.
  - replace (16 * S k)%nat with (length (dirent_bytes e0) + 16 * k)%nat by (rewrite He; lia). rewrite drop_app_add. apply IH, Hk.
Qed.

(** The entries of a directory whose bytes are known. *)
Lemma root_dirents (s : kernel) (x : inode) (es : list dirent) : let n := Z.of_nat (length (dir_bytes es)) in
  Forall (fun e => length (dirent_bytes e) = 16%nat) es -> Forall (fun e => get_dirent (dirent_bytes e) = e) es ->
  content s x 0 n = dir_bytes es -> (forall k, n <= k < MAXFILE * BSIZE -> file_byte s x k = 0) -> n <= isize x <= MAXFILE * BSIZE -> isize x mod 16 = 0 ->
  dirents s x = es ++ replicate (Z.to_nat (isize x / 16) - length es) (mk_dirent 0 (replicate 14 0)).
Proof.
  intros n Hlen Hget Hc Ht Hsz Hm. pose proof (length_dir_bytes es Hlen) as Hn. apply list_eq. intros k.
  destruct (decide (Z.of_nat k < isize x / 16)) as [Hk|Hk].
  - rewrite dirents_lookup by lia. unfold dirent_at. destruct (decide (k < length es)%nat) as [He|He].
    + destruct (lookup_lt_is_Some_2 es k He) as [e Hke]. rewrite lookup_app_l by exact He. rewrite Hke. f_equal.
      rewrite (content_slice s x _ _ n) by (unfold n; lia). rewrite Hc. change (Z.to_nat 16) with 16%nat. replace (Z.to_nat (16 * Z.of_nat k)) with (16 * k)%nat by lia.
      rewrite (dir_bytes_slice es Hlen k e Hke). rewrite Forall_forall in Hget. apply Hget, (list_elem_of_lookup_2 _ _ _ Hke).
    + rewrite lookup_app_r by lia. rewrite lookup_replicate_2 by lia. f_equal.
      assert (E : content s x (16 * Z.of_nat k) 16 = replicate 16 0); [|rewrite E; reflexivity].
      apply list_eq. intros j. destruct (decide (j < 16)%nat) as [Hj|Hj].
      * rewrite content_lookup, lookup_replicate_2 by lia. f_equal. apply Ht. unfold n. Z.div_mod_to_equations. lia.
      * rewrite !(proj2 (lookup_ge_None _ j)); [reflexivity|rewrite length_replicate; lia|rewrite length_content; lia].
  - rewrite !(proj2 (lookup_ge_None _ k)); [reflexivity| |rewrite length_dirents; lia].
    rewrite length_app, length_replicate. unfold n in Hsz. Z.div_mod_to_equations. lia.
Qed.

Lemma root_entries_get (fs : list hostfile) : Forall (fun e => get_dirent (dirent_bytes e) = e) (root_entries fs).
Proof.
  assert (H : forall name n, get_dirent (dirent_bytes (new_entry name n)) = new_entry name n) by (intros name n; apply get_dirent_bytes; apply new_entry_ok).
  unfold root_entries. constructor; [apply H|]. constructor; [apply H|]. generalize 2. induction fs as [|f fs IH]; intros n; cbn; constructor; [apply H|apply IH].
Qed.

(** [s] runs on the image: its disk has the sectors, and it has read the superblock. *)
Record boots (g : mkfs) (s : kernel) : Prop := {
  bt_disk : forall b, Blk s b = sect g b;
  bt_sb : k_sb s = read_superblock (Blk s 1)
}.

(** The cached copy of inode [n], as [iread] leaves it. *)
Record cached (s : kernel) (i : nat) (n : Z) (x : inode) : Prop := {
  ca_slot : k_inodes s !! i = Some x;
  ca_dev : idev x = 1;
  ca_disk : dinode_of x = disk_inode s n
}.

(** The last step: the bitmap the view had all along. *)
Lemma mk_balloc_run (g : mkfs) : image_ok g -> g_freeblock g < 4096 -> exists g',
  (b ← gets g_freeblock; mk_balloc b) g = Done tt g' /\ forall s, boots g' s -> (forall b, Blk s b = Blk (kv g) b) /\ k_sb s = k_sb (kv g).
Proof.
  intros H Hb. exists (put_sect 58 (bitmap (g_freeblock g)) g). split.
  - rewrite (bind_Done (gets g_freeblock) _ g g (g_freeblock g) eq_refl). unfold mk_balloc. rewrite (proj2 (Z.ltb_lt _ _)) by (change (BSIZE * 8) with 4096; exact Hb). reflexivity.
  - intros s [B1 B2]. assert (E : forall b, Blk s b = Blk (kv g) b) by (intros b; rewrite B1, sect_put; unfold kv; rewrite view_Blk; reflexivity).
    split; [exact E|]. rewrite B2, E. symmetry. apply (fs_sb _ (view_fs_ok g inode0 H)).
Qed.

Lemma packed_present (s : kernel) (ip : inode) (sz k : Z) : packed s ip sz -> 0 <= k < MKFILE -> k / 512 * 512 < sz -> blk_at s ip (pos_of (k / BSIZE)) <> 0.
Proof.
  intros [H _] Hk Hs E. change MKFILE with 70656 in Hk. change BSIZE with 512 in E. apply H in E; [lia|].
  change (NDIRECT + NINDIRECT) with 138. Z.div_mod_to_equations. lia.
Qed.

Section Booted.
Context {F : Fuel} {DV : Devsw}.
#[local] Existing Instance raw_disk.

Context (s0 s : kernel).
Hypothesis Hok : fs_ok s.
Hypothesis Hblk : forall b, Blk s b = Blk s0 b.
Hypothesis Hsb : k_sb s = k_sb s0.

Lemma same_disk_inode (n : Z) : disk_inode s n = disk_inode s0 n.
Proof. unfold disk_inode. rewrite Hsb, Hblk. reflexivity. Qed.

Lemma booted_file (i : nat) (n : Z) (data : list Z) (ip x : inode) :
  file_in s0 n T_FILE data ip -> Z.of_nat (length data) <= MKFILE -> cached s i n x ->
  itype x = T_FILE /\ isize x = Z.of_nat (length data) /\ readi i 0 (isize x) s = Done (isize x, data) s.
Proof.
  intros H Hm [C1 C2 C3]. rewrite same_disk_inode, (fi_disk _ _ _ _ _ H) in C3. injection C3 as E1 E2 E3 E4 E5 E6.
  assert (Ez : isize x = Z.of_nat (length data)) by (rewrite E5; apply (fi_size _ _ _ _ _ H)).
  assert (Et : itype x = T_FILE) by (rewrite E1; apply (fi_type _ _ _ _ _ H)). split_and!; [exact Et|exact Ez|].
  destruct (same_inode_ok s0 s Hblk Hsb ip x (fi_ok _ _ _ _ _ H) C2 E6) as [Ox At]. change MKFILE with 70656 in Hm.
  assert (Hlim : 70656 <= MAXFILE * BSIZE) by (vm_compute; discriminate).
  assert (Er : read_len x 0 (isize x) = isize x) by (unfold read_len; lia).
  rewrite (readi_present i 0 (isize x) s x); try assumption; try lia.
  - rewrite Er. do 2 f_equal. rewrite (image_content s0 s Hblk ip x _ _ E6), E5. apply (fi_data _ _ _ _ _ H).
  - rewrite Et. discriminate.
  - rewrite Er. intros k Hk. rewrite At. apply (packed_present s0 ip (isize ip)); [apply (fi_packed _ _ _ _ _ H)|change MKFILE with 70656; Z.div_mod_to_equations; lia|Z.div_mod_to_equations; lia].
Qed.

Lemma booted_root (i : nat) (es : list dirent) (ip x : inode) :
  Forall (fun e => length (dirent_bytes e) = 16%nat) es -> Forall (fun e => get_dirent (dirent_bytes e) = e) es -> Z.of_nat (length es) <= 4000 ->
  root_in s0 (dir_bytes es) ip -> cached s i ROOTINO x ->
  itype x = T_DIR /\ dirents s x = es ++ replicate (32 - length es mod 32) (mk_dirent 0 (replicate 14 0)) /\
  (length es mod 32 <> 0 -> dir_ok s x)%nat.
Proof.
  intros Hl Hg Hc H [C1 C2 C3]. rewrite same_disk_inode, (ri_disk _ _ _ H) in C3. injection C3 as E1 E2 E3 E4 E5 E6.
  pose proof (length_dir_bytes es Hl) as Hd. pose proof (ri_size _ _ _ H) as Hs. rewrite <- E5, Hd in Hs. change BSIZE with 512 in Hs.
  destruct (same_inode_ok s0 s Hblk Hsb ip x (ri_ok _ _ _ H) C2 E6) as [Ox At].
  assert (Hlim : 70656 <= MAXFILE * BSIZE) by (vm_compute; discriminate).
  assert (Et : itype x = T_DIR) by (rewrite E1; apply (ri_type _ _ _ H)).
  assert (Hz : isize x mod 16 = 0) by (rewrite Hs; Z.div_mod_to_equations; lia).
  assert (Hr : Z.of_nat (length (dir_bytes es)) <= isize x <= MAXFILE * BSIZE) by (rewrite Hs, Hd; Z.div_mod_to_equations; lia).
  split_and!; [exact Et| |].
  - rewrite (root_dirents s x es Hl Hg); [f_equal; f_equal| | |exact Hr|exact Hz].
    + rewrite Hs. pose proof (Nat.div_mod_eq (length es) 32). pose proof (Nat.mod_upper_bound (length es) 32 ltac:(lia)). Z.div_mod_to_equations. lia.
    + rewrite (image_content s0 s Hblk ip x _ _ E6). apply (ri_data _ _ _ H).
    + intros k Hk. rewrite (same_byte s0 s Hblk). rewrite <- (ri_tail _ _ _ H k Hk). unfold file_byte, file_block, blk_at, root_of. rewrite E6. reflexivity.
  - intros Hne. split; [exact Et|exact Hz|lia|]. intros k Hk. rewrite At. rewrite Hs in Hk.
    pose proof (Nat.div_mod_eq (length es) 32). pose proof (Nat.mod_upper_bound (length es) 32 ltac:(lia)).
    apply (packed_present s0 ip _ k (ri_packed _ _ _ H)); rewrite ?Hd; change MKFILE with 70656; Z.div_mod_to_equations; lia.
Qed.
End Booted.

Section Image.
Context {F : Fuel} {DV : Devsw}.
#[local] Existing Instance raw_disk.

(** C32. mkfs makes a file system the kernel can use: when the files fit (at most 198 of them, none larger than the 138 blocks its single table reaches, fewer than 4096 blocks used), it ends, and on any kernel whose disk has the sectors of the image and that has read the superblock the file system invariant holds; reading the inode [k + 2] of file [k] from the start gives its type, its size and exactly the bytes that were read from the host; and the root directory lists ".", ".." and every file under its name without a leading underscore, with its inode number, followed by empty entries.  The root directory has all its blocks unless the number of entries is a multiple of 32: then its size includes one block that is not there. *)
Theorem mkfs_image (fs : list hostfile) : mkfs_fits fs -> exists g, mkfs_main fs mkfs0 = Done tt g /\
  forall s, boots g s -> fs_ok s /\
    (forall k f i x, fs !! k = Some f -> cached s i (Z.of_nat k + 2) x ->
      itype x = T_FILE /\ isize x = Z.of_nat (length (hf_data f)) /\ readi i 0 (isize x) s = Done (isize x, hf_data f) s) /\
    (forall i x, cached s i ROOTINO x ->
      itype x = T_DIR /\
      dirents s x = root_entries fs ++ replicate (32 - (2 + length fs) mod 32) (mk_dirent 0 (replicate 14 0)) /\
      ((2 + length fs) mod 32 <> 0 -> dir_ok s x)%nat).
Proof.
  intros Hfit. destruct (files_image fs Hfit) as (g & ips & H & E). destruct Hfit as [_ Hc Hr].
  destruct (fix_root_run _ _ ips g H) as (g1 & ip & E1 & I1 & B1 & R1 & F1).
  destruct (mk_balloc_run g1 I1) as (g2 & E2 & H2); [rewrite B1, (mo_block _ _ _ H); exact Hr|].
  exists g2. split; [rewrite E, (bind_Done _ _ _ _ _ E1); exact E2|]. intros s Hs. destruct (H2 s Hs) as [Hblk Hsb].
  assert (Hok : fs_ok s) by (apply (same_fs_ok (kv g1) s Hblk Hsb), view_fs_ok, I1). split_and!; [exact Hok| |].
  - intros k f i x Hk Hx. destruct (F1 k T_FILE (hf_data f)) as (jp & Hj & Hl); [rewrite list_lookup_fmap, Hk; reflexivity|].
    apply (booted_file (kv g1) s Hok Hblk Hsb i _ _ jp x Hj Hl Hx).
  - intros i x Hx. assert (El : length (root_entries fs) = (2 + length fs)%nat) by (unfold root_entries; cbn; rewrite length_dir_entries; reflexivity).
    rewrite <- El. unfold NINODES in Hc. apply (booted_root (kv g1) s Hblk Hsb i _ ip x (root_entries_len fs) (root_entries_get fs)); [lia|exact R1|exact Hx].
Qed.
End Image.

(** A kernel on the image, with inode [n] in its first slot. *)
Definition on_image (g : mkfs) : kernel :=
  kernel0 <| k_disk := kmap (pair 1) (g_img g) |> <| k_sb := read_superblock (sect g 1) |>.

Definition cached_inode (n : Z) (d : dinode) : inode :=
  mk_inode 1 n 1 sleeplock0 1 (d_type d) (d_major d) (d_minor d) (d_nlink d) (d_size d) (d_addrs d).

Definition booted_on (g : mkfs) (n : Z) : kernel := on_image g <| k_inodes := [cached_inode n (disk_inode (on_image g) n)] |>.

Lemma booted_boots (g : mkfs) (n : Z) : boots g (booted_on g n).
Proof.
  assert (E : forall b, Blk (booted_on g n) b = sect g b).
  { intros b. unfold Blk, disk_block, booted_on, on_image, sect. cbn [k_disk]. simpl. rewrite (lookup_kmap (pair 1)). reflexivity. }
  split; [exact E|]. rewrite E. reflexivity.
Qed.

Lemma booted_cached (g : mkfs) (n : Z) : exists x, cached (booted_on g n) 0 n x.
Proof.
  exists (cached_inode n (disk_inode (on_image g) n)). split; [reflexivity|reflexivity|]. change (disk_inode (booted_on g n) n) with (disk_inode (on_image g) n).
  destruct (disk_inode (on_image g) n). reflexivity.
Qed.

(** Two programs, one read in two parts. *)
Definition ex_host : list hostfile := [mk_hostfile [95; 115; 104] [[1; 2]; [3]]; mk_hostfile [82] [[7]]].

Lemma mkfs_image_witness : let readi0 := @readi raw_disk ex_devsw in
  exists g, mkfs_main ex_host mkfs0 = Done tt g /\ readi0 0%nat 0 3 (booted_on g 2) = Done (3, [1; 2; 3]) (booted_on g 2) /\
    exists x, cached (booted_on g 1) 0 1 x /\ dir_ok (booted_on g 1) x /\
      map de_inum (take 5 (dirents (booted_on g 1) x)) = [1; 1; 2; 3; 0].
Proof.
  intros readi0. destruct (@mkfs_image ex_devsw ex_host) as (g & E & H).
  - split; [|reflexivity|vm_compute; reflexivity].
    repeat constructor; unfold is_byte; try lia; vm_compute; discriminate.
  - exists g. split; [exact E|]. destruct (H _ (booted_boots g 2)) as (_ & Hf & _). destruct (H _ (booted_boots g 1)) as (_ & _ & Hr).
    destruct (booted_cached g 2) as [x2 C2], (booted_cached g 1) as [x1 C1]. destruct (Hf 0%nat _ 0%nat x2 eq_refl C2) as (_ & Es & Er).
    rewrite Es in Er. split; [exact Er|]. exists x1. destruct (Hr 0%nat x1 C1) as (_ & Ed & Ho). split_and!; [exact C1|apply Ho; discriminate|rewrite Ed; reflexivity].
Defined.
